(* ===== verification/_CoqProject ===== *)
-Q . S2P
Prelude.v
Limine.v
Lock.v
EarlyAlloc.v
NeoFrame.v
NeoFrameInit.v
Kmalloc.v
HeapShape.v
KmallocInv.v
KmallocSpec.v
KHeap.v
PageTree.v
Paging.v
HeapPaging.v
PagingBootstrap.v
PagingBootstrapSpec.v
PagingSwitch.v
Numeral.v
CString.v
CStringSpec.v
Printf.v
PrintfSpec.v
Sched.v
SchedSpec.v
Putchar.v
PutcharSpec.v
Pic.v
PicSpec.v
Keyboard.v
KeyboardSpec.v
HeapBytes.v
Shell.v
ShellSpec.v
ConsoleInput.v
Vector.v
Time.v
TimeSpec.v
PrintTotal.v
Gdt.v
Interrupts.v
InterruptsSpec.v
Font.v
Term.v
Framebuffer.v
FbInit.v
TermScreen.v
FramebufferSpec.v
FbPixels.v
FbBackend.v
TermSpec.v
FbBoot.v
TermText.v
TerminalSpec.v
Memtest.v
MemtestSpec.v
MemtestRandom.v
MemtestFrames.v
MemtestKernel.v
Acpi.v
AcpiSpec.v
Apic.v
ApicSpec.v
Bringup.v
BringupSpec.v
Diag.v
DiagSpec.v
IsrEntry.v
IsrEntrySpec.v
CpuUtils.v
CpuUtilsSpec.v
ShellSystem.v
