(* ===== verification/Prelude.v ===== *)
(** * VoyagerOS64: a verified model of the kernel

    VoyagerOS64 ([src/]) is an x86-64 hobby kernel written in C.  This library
    models the parts of it that carry its logic as executable Rocq functions and
    proves what makes them correct.  This file is the vocabulary of all the
    others.

    ** The program and its model

    Memory comes up in stages.  The boot loader passes a memory map ([Limine]).
    A bump allocator hands out the first pages ([EarlyAlloc],
    [src/src/early_alloc.c]); a bitmap allocator takes over all frames
    ([NeoFrame] for its operations, [NeoFrameInit] for its construction,
    [src/src/neo_framealloc.c]); page tables are built and edited ([PageTree] for
    the tree as data, [Paging] for [src/src/paging.c]) and the kernel moves to
    tables of its own ([PagingBootstrap], [PagingBootstrapSpec],
    [PagingSwitch] for [src/src/paging/paging_bootstrap.c]).  On top of frames and page tables
    stands the heap ([Kmalloc] for [src/src/mm/kmalloc.c], [HeapShape] for the
    layout of blocks, [KmallocInv] for the steps on it, [KmallocSpec] for the
    entry points); [HeapPaging] plugs the frame allocator and the paging layer into
    the heap.  [Bringup] and [BringupSpec] run these stages in the order of
    [memory_bringup] ([src/src/kernel.c]).  Locks are in [Lock] ([src/src/include/lock.h]).

    The rest of the kernel uses the heap through the interface [KHeap]: entry
    points, word accesses, and laws about the map from live pointers to their
    contents; [kmalloc] is its instance, and [framed_laws] shows that one owner
    among others sees the same laws.  [HeapBytes] adds byte accesses.

    Text: [Numeral] (positional numerals), [CString] and [CStringSpec] ([memcpy]
    and friends, [strtok], number conversion), [Printf] and [PrintfSpec]
    ([src/src/printf.c]), [Putchar] and [PutcharSpec] ([src/src/putchar.c],
    [src/src/serial.c]: the console).

    Tasks: [Sched] and [SchedSpec] ([src/src/sched.c] and the context switch of
    [src/src/sched_ll.asm]).

    Devices: [Pic] and [PicSpec] ([src/src/io.c], [src/src/pic.c]), [Keyboard]
    and [KeyboardSpec] ([src/src/drivers/keyboard/keyboard.c]), [Time] and
    [TimeSpec] ([src/src/time.c], [src/src/include/time.h]), [Vector] (the growable
    array of [src/src/include/lib/vector.h]).  A device is a function from everything that
    went over the bus to the byte it returns; what the kernel relies on of it is
    a hypothesis or a class ([Pic8259]; [RtcClock], a clock that goes on while it is
    read) with a concrete instance.

    Interrupts: [Gdt] ([src/src/gdt.c]), [Interrupts] and [InterruptsSpec]
    ([src/src/idt.c], [src/src/interrupts.c]) over the drivers above; the
    processor is the part of it that loads descriptor tables and segment
    registers.  [IsrEntry] and [IsrEntrySpec] are the entry stubs of
    [src/src/isr.asm] as a list of instructions, over a machine without x87 and
    vector registers.  [PrintTotal] shows that the format interpreter ends and that
    the messages a handler prints return.

    The terminal: [Term] is the parser of [src/src/terminal/term.c] over a class
    of backend callbacks, [Framebuffer] and [FbInit] the backend of
    [src/src/terminal/framebuffer.c] with its font ([Font]).  [TermScreen] is the
    abstract screen and the laws the parser needs of a backend;
    [FramebufferSpec] (cells, queue and map), [FbPixels] (what is on the
    framebuffer) and [FbBackend] show that the backend satisfies them.  [TermSpec]
    and [TermText] are the parser's theorems over any lawful backend, [FbBoot]
    creation and refresh, [TerminalSpec] the terminal as a whole.

    The platform: [Acpi] and [AcpiSpec] ([src/src/acpi/]) walk the firmware's
    tables, a function from addresses to bytes; [Apic] and [ApicSpec]
    ([src/src/apic/]) drive the interrupt controllers they describe, memory-mapped
    devices behind the class [IoApic].

    The memory self-test [src/src/mm/memtest.c] is [Memtest] over the interfaces of
    heap and frames; [MemtestSpec], [MemtestRandom] and [MemtestFrames] are its
    phases, [MemtestKernel] plugs in the real allocators.

    Diagnostics: [Diag] and [DiagSpec] ([src/src/stack_trace.c],
    [src/src/panic.c], [src/src/tracer.asm], [src/src/KernelUtils.c]), over
    kernel memory as a partial function from addresses to bytes.  [CpuUtils] and
    [CpuUtilsSpec] are the processor report ([src/src/cpuUtils.c] with the assembly
    it calls) over the instruction [cpuid] as a function.

    The shell: [Shell] and [ShellSpec] ([src/src/shell.c]) over a class of the
    routines its commands call; [ConsoleInput] joins keyboard and shell;
    [ShellSystem] gives the class the kernel's own routines (scheduler, clock, memory
    suite, processor report) on one heap and one console, and says which part of that
    heap is the scheduler's.

    ** How code is modelled

    A routine is a function in the state monad [K S A]; its [outcome] is a normal
    return, a panic, a fault (an access the routine may not make) or a hang (a
    lock that nobody can release, a wait or a recursion that never ends).  [wp]
    is total correctness: a theorem stated with it, or with an equation to [Ret],
    says that the routine returns.  Integers are [Z] with the wrap-around of their
    width written out.  Components keep their own state record and run inside
    larger ones with [zoom].

    Loops with a computable trip count use it ([for_range], [for_each]).  The
    others have fuel: free-list walks get the number of blocks the arena can hold,
    string loops one round per mapped byte, the format interpreter one round per
    format character, [vsh_readline] one round per polled key, recursion through
    [_putchar] a depth.  The theorems show that the fuel suffices, or, for the
    defects, that no fuel does.

    ** What is proved

    - Allocation: [frame_alloc] and [n_frame_free] implement a set of free
      frames, clients never share a frame, the bitmap is built correctly from any
      memory map; [kmalloc], [krealloc] and [kfree] implement a map of disjoint
      live payloads and keep the heap well formed on every path; the sizes and
      their overflow; growth is backed by fresh frames and page-table entries.
    - Address spaces: mapping and unmapping change exactly one translation; the
      direct map covers all included memory, the kernel image is W^X, CR3 is only
      loaded with tables that map what the switch needs.  Permissions are what the
      processor allows: [rights] of [PageTree] takes the flags of all levels of a
      walk together.  Reading or writing an entry of a table at NULL, which follows
      a failed allocation, is a fault.
    - Bring-up: on a sane memory map the whole sequence from the early allocator to
      [kmalloc_init] returns, with CR3 on the new tables, no page table among the
      free frames, and an empty heap on which the theorems about [kmalloc] hold.
      Memory is assumed to end below 16 TiB, where the heap window starts in the
      direct map.
    - Text: [memmove] under overlap, number conversion round trips, [snprintf_]
      against one rendered text, layout of integer directives (without precision and
      [#], whose combination with a width the code gets wrong), termination of the
      interpreter on arguments without doubles.
    - Scheduling: [create_process] keeps the run queue and builds a correct entry
      frame, [schedule] implements round robin with exact save and restore of
      contexts, every task runs again within n yields.
    - Devices and shell: the interrupt controllers as a set of masked lines, the
      keyboard ring as a bounded queue under every interleaving of the interrupt
      handler with [kbd_pop], the clock read while it runs, the calendar in 32-bit
      arithmetic, the shell's line reader and dispatcher, which leave the heap as the
      command's routine left it less the line, and the composition from scancode to
      command line.
    - Interrupts: the descriptors loaded at boot are of the right kind and lead to
      the right stubs, vectors are handed out as from a set, each interrupt reaches
      its driver and is acknowledged exactly once; the stubs build the frame of the
      interrupted code and give it back its registers (but R8 to R11 and ES, which they
      do not save; vectors 21 and 29, whose stubs miss the error code, excepted), by
      simulation of a machine whose stack is a list.
    - Platform: the root table and the MADT are walked to the end and the lists hold
      exactly the records of each kind; redirecting an interrupt line programs the
      entry of its global interrupt and no other, for interrupts below 256 other than
      the last of an I/O APIC, which the driver does not reach.
    - The memory suite passes: its five directed phases on [kmalloc] over paging
      over frames (with 36992 free pages), and the randomised phase
      ([randomized_passes], 20000 requests) against the heap interface; the budget
      that is enough for every sequence of requests of that phase exceeds the 256 MiB
      heap window, so it is not stated of the kernel's heap.
    - Terminal: whatever is written (two kinds of sequence excepted, which the code
      does not survive), cursor, parser registers, queue and map stay in range and
      every write ends with the framebuffer showing the screen, pixel by pixel;
      text refines typing on an abstract screen; cursor addresses round trip; the
      boot-time start gives a working blank terminal.
    - Diagnostics: a dump agrees with a reference layout, a trace prints the frames
      of the chain, [panic] prints its whole screen and halts; the counters of the
      memory report; the processor report shows exactly the documented feature flags;
      model-specific registers keep all 64 bits.
    - Defects: each theorem named by a finding of the manifest exhibits behaviour
      the code does not intend (a wrapping allocation size, a format string read
      past its end, digits lost to a prefix, log characters that are lost, [_putchar] calling itself for
      ever, a Backspace key that cannot work, exchanged noon and midnight, a
      [pit_sleep] that never returns, a wrong borrow, a
      task register loaded from the wrong selector, terminal sequences that leave the
      screen's arrays, an MADT parser that runs past the table, an I/O APIC entry
      out of reach, a local APIC timer that cannot be used, a stack walker that
      overwrites its caller's frame pointer, registers lost to interrupts, a time
      stamp without its lower half).

    ** Not modelled

    The floating-point printers of [printf.c] (parameters of the model: the
    kernel is built without SSE and their results depend on x87 precision); the
    hash-map header, which nothing instantiates; the rest of the boot sequence,
    which prints and calls the initialisers above; saving of floating-point state,
    which nothing calls; and the earlier allocators and
    other code that the kernel no longer links. *)
From Stdlib Require Export ZArith Lia.
From stdpp Require Export base numbers strings gmap.
From stdpp Require Export list.
#[global] Open Scope Z_scope.

(** * Machine-width integers

    A [w]-bit unsigned C integer is a [Z] in [[0, 2^w)]; every arithmetic
    operation whose C counterpart can wrap is written with its [wrap]. *)
Definition wrap (w z : Z) : Z := z mod 2 ^ w.
Abbreviation u8 := (wrap 8).
Abbreviation u16 := (wrap 16).
Abbreviation u32 := (wrap 32).
Abbreviation u64 := (wrap 64).

(** Signed reading of a [w]-bit pattern (two's complement). *)
Definition swrap (w z : Z) : Z := (z + 2 ^ (w - 1)) mod 2 ^ w - 2 ^ (w - 1).
Abbreviation i8 := (swrap 8).
Abbreviation i32 := (swrap 32).
Abbreviation i64 := (swrap 64).

Definition in_u (w z : Z) : Prop := 0 <= z < 2 ^ w.

(** C's [!= 0] test of a masked word. *)
Definition is_set (z m : Z) : bool := negb (Z.land z m =? 0).

(** * Outcomes of kernel code

    A kernel routine returns, panics (the machine halts with a message),
    faults (touches memory it may not touch) or hangs (spins on a lock that
    nobody can release, waits or recurses for ever). *)
Inductive outcome (S A : Type) : Type :=
| Ret (a : A) (s : S)
| Panic (msg : string) (s : S)
| Fault (addr : Z) (s : S)
| Hang (s : S).
Arguments Ret {S A} a s.
Arguments Panic {S A} msg s.
Arguments Fault {S A} addr s.
Arguments Hang {S A} s.

Definition K (S A : Type) : Type := S -> outcome S A.

Definition ret {S A} (a : A) : K S A := fun s => Ret a s.
Definition panic {S A} (msg : string) : K S A := fun s => Panic msg s.
Definition fault {S A} (addr : Z) : K S A := fun s => Fault addr s.
Definition get {S} : K S S := fun s => Ret s s.
Definition put {S} (s' : S) : K S unit := fun _ => Ret tt s'.
Definition gets {S A} (f : S -> A) : K S A := fun s => Ret (f s) s.
Definition modify {S} (f : S -> S) : K S unit := fun s => Ret tt (f s).

Definition bind {S A B} (c : K S A) (k : A -> K S B) : K S B :=
  fun s => match c s with
           | Ret a s' => k a s'
           | Panic m s' => Panic m s'
           | Fault a s' => Fault a s'
           | Hang s' => Hang s'
           end.

Declare Scope kernel_scope.
Delimit Scope kernel_scope with kernel.
Notation "'let!' x := c 'in' k" := (bind c (fun x => k))
  (at level 10, x pattern, c at level 100, k at level 200) : kernel_scope.
Notation "'do!' c 'in' k" := (bind c (fun _ => k))
  (at level 10, c at level 100, k at level 200) : kernel_scope.
Notation "'let2!' p := c 'in' k" := (bind c (fun p => k))
  (at level 10, p strict pattern at level 0, c at level 100, k at level 200) : kernel_scope.
#[global] Open Scope kernel_scope.

(** [when b c]: the statement [if (b) c;]. *)
Definition when {S} (b : bool) (c : K S unit) : K S unit :=
  if b then c else ret tt.

(** [for (i = i0; i < i1; i += step) body], with the trip count computed from
    the bounds (the bodies it is used for never assign the loop variable). *)
Fixpoint for_steps {S} (n : nat) (i step : Z) (body : Z -> K S unit) : K S unit :=
  match n with
  | O => ret tt
  | Datatypes.S n' => do! body i in for_steps n' (i + step) step body
  end.
Definition for_range {S} (i0 i1 : Z) (body : Z -> K S unit) : K S unit :=
  for_steps (Z.to_nat (i1 - i0)) i0 1 body.
Fixpoint for_each {S A} (l : list A) (body : A -> K S unit) : K S unit :=
  match l with
  | [] => ret tt
  | x :: l' => do! body x in for_each l' body
  end.

(** [while (cond(l)) l = body(l);] over the loop variables [l].  The fuel bounds
    the number of rounds; a loop that needs more never ends. *)
Fixpoint while_loop {S L} (fuel : nat) (cond : L -> bool) (body : L -> K S L) (l : L) : K S L :=
  if cond l then
    match fuel with
    | O => fun s => Hang s
    | Datatypes.S fuel' => let! l' := body l in while_loop fuel' cond body l'
    end
  else ret l.

(** * Total-correctness assertions

    [wp o Q]: the outcome [o] is a normal return whose value and state satisfy
    [Q]; a panic, a fault or a hang satisfies no [wp]. *)
Definition wp {S A} (o : outcome S A) (Q : A -> S -> Prop) : Prop :=
  match o with Ret a s => Q a s | _ => False end.

Section wp_lemmas.
Context {S : Type}.

Lemma wp_bind {A B} (c : K S A) (k : A -> K S B) s Q :
  wp (c s) (fun a s' => wp (k a s') Q) -> wp (bind c k s) Q.
Proof. unfold bind. by destruct (c s). Qed.

Lemma wp_bind_inv {A B} (c : K S A) (k : A -> K S B) s Q :
  wp (bind c k s) Q -> wp (c s) (fun a s' => wp (k a s') Q).
Proof. unfold bind. by destruct (c s). Qed.

Lemma wp_mono {A} (o : outcome S A) (P Q : A -> S -> Prop) :
  wp o P -> (forall a s, P a s -> Q a s) -> wp o Q.
Proof. destruct o; simpl; eauto. Qed.

Lemma wp_ret_inv {A} (o : outcome S A) Q :
  wp o Q <-> exists a s, o = Ret a s /\ Q a s.
Proof.
  destruct o; simpl; split; try done; try (intros (?&?&?&?); simplify_eq; done).
  eauto.
Qed.

Lemma bind_Ret {A B} (c : K S A) (k : A -> K S B) s a s' :
  c s = Ret a s' -> bind c k s = k a s'.
Proof. unfold bind. by intros ->. Qed.

Lemma bind_get {B} (k : S -> K S B) s : bind get k s = k s s.
Proof. done. Qed.

Lemma bind_modify {B} (f : S -> S) (k : unit -> K S B) s : bind (modify f) k s = k tt (f s).
Proof. done. Qed.

Lemma bind_Ret_inv {A B} (c : K S A) (k : A -> K S B) s b s' :
  bind c k s = Ret b s' -> exists a s1, c s = Ret a s1 /\ k a s1 = Ret b s'.
Proof. unfold bind. destruct (c s); naive_solver. Qed.

Lemma bind_assoc {A B C} (c : K S A) (k : A -> K S B) (l : B -> K S C) s :
  bind (bind c k) l s = bind c (fun a => bind (k a) l) s.
Proof. unfold bind. by destruct (c s). Qed.

(** Loop rule: [I i] holds on entry to the round of index [i]. *)
Lemma wp_for_steps (I : Z -> S -> Prop) n i step body s :
  I i s ->
  (forall j s, (exists k, (k < n)%nat /\ j = i + Z.of_nat k * step) -> I j s ->
     wp (body j s) (fun _ s' => I (j + step) s')) ->
  wp (for_steps n i step body s) (fun _ s' => I (i + Z.of_nat n * step) s').
Proof.
  revert i s. induction n as [|n IH]; intros i s HI Hb; cbn [for_steps].
  { by replace (i + Z.of_nat 0 * step) with i by lia. }
  apply wp_bind. eapply wp_mono.
  { apply Hb; [|done]. exists 0%nat. lia. }
  intros [] s' HI'. simpl. eapply wp_mono.
  { apply (IH (i + step)); [done|]. intros j s'' (k & Hk & ->) HI''.
    apply Hb; [|done]. exists (Datatypes.S k). lia. }
  intros [] s'' HI''. by replace (i + Z.of_nat (Datatypes.S n) * step)
    with (i + step + Z.of_nat n * step) by lia.
Qed.

Lemma wp_for_range (I : Z -> S -> Prop) i0 i1 body s :
  i0 <= i1 -> I i0 s ->
  (forall j s, i0 <= j < i1 -> I j s -> wp (body j s) (fun _ s' => I (j + 1) s')) ->
  wp (for_range i0 i1 body s) (fun _ s' => I i1 s').
Proof.
  intros Hle HI Hb. unfold for_range. eapply wp_mono.
  { apply (wp_for_steps I); [done|]. intros j s' (k & Hk & ->) ?. apply Hb; [lia|done]. }
  intros [] s' H. by replace i1 with (i0 + Z.of_nat (Z.to_nat (i1 - i0)) * 1) by lia.
Qed.

Lemma wp_for_each {A} (I : list A -> S -> Prop) (l : list A) body s :
  I [] s ->
  (forall done_ x s, x ∈ l -> I done_ s -> wp (body x s) (fun _ s' => I (done_ ++ [x]) s')) ->
  wp (for_each l body s) (fun _ s' => I l s').
Proof.
  intros HI Hb.
  enough (forall pre rest s, (forall x, x ∈ rest -> x ∈ l) -> I pre s ->
    wp (for_each rest body s) (fun _ s' => I (pre ++ rest) s')) as H
    by exact (H [] l s ltac:(done) HI).
  intros pre rest. revert pre. induction rest as [|x rest IH]; intros pre s1 Hin HI1.
  { simpl. by rewrite app_nil_r. }
  cbn [for_each]. apply wp_bind. eapply wp_mono.
  { apply Hb; [|done]. apply Hin. left. }
  intros [] s2 HI2. eapply wp_mono.
  { apply IH; [|done]. intros y Hy. apply Hin. by right. }
  intros [] s3. by rewrite <- app_assoc.
Qed.

Lemma for_each_app {A} (l k : list A) (body : A -> K S unit) s :
  for_each (l ++ k) body s = bind (for_each l body) (fun _ => for_each k body) s.
Proof.
  revert s. induction l as [|x l IH]; intros s; cbn [app for_each]; [done|].
  rewrite bind_assoc. unfold bind at 1 2. by destruct (body x s).
Qed.

Lemma for_each_fmap {A B} (f : A -> B) (l : list A) (body : B -> K S unit) s :
  for_each (f <$> l) body s = for_each l (fun x => body (f x)) s.
Proof. revert s. induction l as [|x l IH]; intros s; cbn; [done|]. unfold bind. by destruct (body (f x) s). Qed.

Lemma for_range_each i0 i1 (body : Z -> K S unit) s : for_range i0 i1 body s = for_each (seqZ i0 (i1 - i0)) body s.
Proof.
  unfold for_range, seqZ. rewrite for_each_fmap. generalize (Z.to_nat (i1 - i0)). intros n.
  assert (H : forall k i s, for_steps n (i + Z.of_nat k) 1 body s = for_each (seq k n) (fun x => body (Z.of_nat x + i)) s).
  2:{ specialize (H O i0 s). by rewrite Z.add_0_r in H. }
  induction n as [|n IH]; intros k i s'; cbn [for_steps seq for_each]; [done|].
  unfold bind. rewrite (Z.add_comm i). destruct (body (Z.of_nat k + i) s'); try done. rewrite <- (IH (Datatypes.S k)). f_equal. lia.
Qed.

(** Loop rule: [I k] holds with at most [k] rounds to go. *)
Lemma wp_while {L} (I : nat -> L -> S -> Prop) n cond (body : L -> K S L) l s :
  I n l s ->
  (forall k l s, I (Datatypes.S k) l s -> cond l = true -> wp (body l s) (fun l' s' => I k l' s')) ->
  (forall l s, I O l s -> cond l = false) ->
  wp (while_loop n cond body l s) (fun l' s' => cond l' = false /\ exists k, I k l' s').
Proof.
  intros HI Hb H0. revert l s HI. induction n as [|n IH]; intros l s HI; simpl.
  - rewrite (H0 _ _ HI). simpl. split; [by eapply H0|by exists O].
  - destruct (cond l) eqn:Ec; [|simpl; split; [done|by eexists]].
    apply wp_bind. eapply wp_mono; [by apply (Hb n)|]. intros l' s' HI'. by apply IH.
Qed.
End wp_lemmas.

(** * What a routine never changes, whatever its outcome *)
Definition final {S A} (o : outcome S A) : S :=
  match o with Ret _ s | Panic _ s | Fault _ s | Hang s => s end.

Definition keeps {S A B} (f : S -> B) (c : K S A) : Prop := forall s, f (final (c s)) = f s.

Section keeps_lemmas.
Context {S B : Type} (f : S -> B).

Lemma keeps_ret {A} (a : A) : keeps f (ret a).
Proof. done. Qed.
Lemma keeps_panic {A} m : keeps f (panic m : K S A).
Proof. done. Qed.
Lemma keeps_get : keeps f get.
Proof. done. Qed.
Lemma keeps_gets {A} (g : S -> A) : keeps f (gets g).
Proof. done. Qed.
Lemma keeps_modify g : (forall s, f (g s) = f s) -> keeps f (modify g).
Proof. intros Hg s. apply Hg. Qed.
Lemma keeps_bind {A C} (c : K S A) (k : A -> K S C) : keeps f c -> (forall a, keeps f (k a)) -> keeps f (bind c k).
Proof.
  intros Hc Hk s. specialize (Hc s). unfold bind. destruct (c s); simpl in *; try done. by rewrite (Hk a s0).
Qed.
Lemma keeps_when b c : keeps f c -> keeps f (when b c).
Proof. intros Hc. by destruct b. Qed.
Lemma keeps_while {L} fuel cond (body : L -> K S L) l : (forall l, keeps f (body l)) -> keeps f (while_loop fuel cond body l).
Proof.
  intros Hb. revert l. induction fuel as [|n IH]; intros l; simpl; destruct (cond l); try done. by apply keeps_bind.
Qed.
Lemma keeps_for_steps n i step body : (forall i, keeps f (body i)) -> keeps f (for_steps n i step body).
Proof. intros Hb. revert i. induction n as [|n IH]; intros i; simpl; [done|]. by apply keeps_bind. Qed.
Lemma keeps_for_each {A} (l : list A) body : (forall x, keeps f (body x)) -> keeps f (for_each l body).
Proof. intros Hb. induction l as [|x l IH]; simpl; [done|]. by apply keeps_bind. Qed.
End keeps_lemmas.

Create HintDb keeps.
#[export] Hint Resolve keeps_ret keeps_panic keeps_get keeps_gets keeps_bind keeps_when keeps_while keeps_for_steps
  keeps_for_each : keeps.

(** Run a routine of one component inside a larger state. *)
Definition zoom {S T A} (proj : S -> T) (upd : T -> S -> S) (c : K T A) : K S A :=
  fun s => match c (proj s) with
           | Ret a t => Ret a (upd t s)
           | Panic m t => Panic m (upd t s)
           | Fault x t => Fault x (upd t s)
           | Hang t => Hang (upd t s)
           end.

Lemma wp_zoom {S T A} (proj : S -> T) (upd : T -> S -> S) (c : K T A) s Q :
  wp (c (proj s)) (fun a t => Q a (upd t s)) -> wp (zoom proj upd c s) Q.
Proof. unfold zoom. by destruct (c (proj s)). Qed.

Lemma keeps_zoom {S T A B} (f : S -> B) (proj : S -> T) upd (c : K T A) :
  (forall t s, f (upd t s) = f s) -> keeps f (zoom proj upd c).
Proof. intros Hu s. unfold zoom. destruct (c (proj s)); simpl; apply Hu. Qed.

(** [wp_step]: push one monadic bind into the postcondition. *)
Ltac wp_step := apply wp_bind; simpl.
Ltac wp_use H := eapply wp_mono; [eapply H|].

(** * Facts on machine integers *)
Lemma wrap_small w z : 0 <= z < 2 ^ w -> wrap w z = z.
Proof. apply Z.mod_small. Qed.

Lemma swrap_small w z : 0 < w -> - 2 ^ (w - 1) <= z < 2 ^ (w - 1) -> swrap w z = z.
Proof.
  intros Hw Hz. unfold swrap. assert (2 ^ w = 2 * 2 ^ (w - 1)) by (rewrite <- Z.pow_succ_r by lia; f_equal; lia).
  rewrite Z.mod_small; lia.
Qed.

Lemma wrap_range w z : 0 <= w -> 0 <= wrap w z < 2 ^ w.
Proof. intros. apply Z.mod_pos_bound. by apply Z.pow_pos_nonneg. Qed.

Lemma wrap_testbit w z i : 0 <= w -> Z.testbit (wrap w z) i = (i <? w) && Z.testbit z i.
Proof.
  intros Hw. unfold wrap. destruct (Z.ltb_spec i w); simpl.
  - destruct (Z.neg_nonneg_cases i).
    + by rewrite !Z.testbit_neg_r by lia.
    + by rewrite Z.mod_pow2_bits_low.
  - by rewrite Z.mod_pow2_bits_high by lia.
Qed.

(** Masking with [~(2^k - 1)] at 64 bits rounds down to a multiple of [2^k]. *)
Lemma land_high_mask k y :
  0 <= k <= 64 -> 0 <= y < 2 ^ 64 ->
  Z.land y (u64 (Z.lnot (2 ^ k - 1))) = y - y mod 2 ^ k.
Proof.
  intros Hk Hy.
  transitivity (Z.ldiff y (Z.ones k)).
  - apply Z.bits_inj'. intros n Hn.
    rewrite Z.land_spec, Z.ldiff_spec, wrap_testbit, Z.lnot_spec by lia.
    rewrite <- Z.sub_1_r, Z.ones_equiv || rewrite Z.ones_equiv.
    replace (Z.pred (2 ^ k)) with (2 ^ k - 1) by lia.
    destruct (Z.ltb_spec n 64); [done|].
    rewrite <- (Z.mod_small y (2 ^ 64)) by done.
    by rewrite Z.mod_pow2_bits_high by lia.
  - rewrite Z.ldiff_ones_r, Z.shiftl_mul_pow2, Z.shiftr_div_pow2 by lia.
    pose proof (Z.div_mod y (2 ^ k) ltac:(pose proof (Z.pow_pos_nonneg 2 k); lia)). lia.
Qed.

(** [ALIGN_UP(x, a)] and [ALIGN_DOWN(x, a)] on [uint64_t]. *)
Definition ALIGN_UP (x a : Z) : Z :=
  Z.land (u64 (x + (a - 1))) (u64 (Z.lnot (a - 1))).
Definition ALIGN_DOWN (x a : Z) : Z :=
  Z.land x (u64 (Z.lnot (a - 1))).

Definition PAGE_SIZE : Z := 4096.

Lemma ALIGN_UP_spec k x :
  0 <= k <= 64 -> ALIGN_UP x (2 ^ k) = u64 (x + (2 ^ k - 1)) - u64 (x + (2 ^ k - 1)) mod 2 ^ k.
Proof. intros. apply land_high_mask; [done|]. by apply wrap_range. Qed.

Lemma ALIGN_DOWN_spec k x :
  0 <= k <= 64 -> 0 <= x < 2 ^ 64 -> ALIGN_DOWN x (2 ^ k) = x - x mod 2 ^ k.
Proof. intros. by apply land_high_mask. Qed.

Lemma ALIGN_UP_page x : 0 <= x -> x + 4095 < 2 ^ 64 ->
  ALIGN_UP x PAGE_SIZE = 4096 * ((x + 4095) / 4096).
Proof.
  intros. unfold PAGE_SIZE. change 4096 with (2 ^ 12) at 1.
  rewrite ALIGN_UP_spec by lia. change (2 ^ 12 - 1) with 4095. change (2 ^ 12) with 4096.
  rewrite wrap_small by lia. pose proof (Z.div_mod (x + 4095) 4096). lia.
Qed.

Lemma ALIGN_DOWN_page x : 0 <= x < 2 ^ 64 -> ALIGN_DOWN x PAGE_SIZE = 4096 * (x / 4096).
Proof.
  intros. unfold PAGE_SIZE. change 4096 with (2 ^ 12) at 1.
  rewrite ALIGN_DOWN_spec by lia. change (2 ^ 12) with 4096.
  pose proof (Z.div_mod x 4096). lia.
Qed.

Lemma ALIGN_UP_16 x : 0 <= x -> x + 15 < 2 ^ 64 -> ALIGN_UP x 16 = 16 * ((x + 15) / 16).
Proof.
  intros. change 16 with (2 ^ 4) at 1. rewrite ALIGN_UP_spec by lia.
  change (2 ^ 4 - 1) with 15. change (2 ^ 4) with 16.
  rewrite wrap_small by lia. pose proof (Z.div_mod (x + 15) 16). lia.
Qed.

Lemma land_low k x : 0 <= k -> Z.land x (2 ^ k - 1) = x mod 2 ^ k.
Proof. intros. replace (2 ^ k - 1) with (Z.ones k) by (rewrite Z.ones_equiv; lia). by apply Z.land_ones. Qed.

Lemma land_page_low x : Z.land x (PAGE_SIZE - 1) = x mod 4096.
Proof. exact (land_low 12 x ltac:(lia)). Qed.

Lemma testbit_0_mod2 x : Z.land x 1 = x mod 2.
Proof. exact (land_low 1 x ltac:(lia)). Qed.

(** [is_set] through a disjunction of masks. *)
Lemma is_set_lor x y b : is_set (Z.lor x y) b = is_set x b || is_set y b.
Proof.
  unfold is_set. rewrite Z.land_lor_distr_l.
  destruct (Z.eqb_spec (Z.land x b) 0) as [Hx|Hx]; destruct (Z.eqb_spec (Z.land y b) 0) as [Hy|Hy]; simpl.
  - by rewrite Hx, Hy.
  - rewrite (proj2 (Z.eqb_neq _ _)); [done|]. by intros [_ ?]%Z.lor_eq_0_iff.
  - rewrite (proj2 (Z.eqb_neq _ _)); [done|]. by intros [? _]%Z.lor_eq_0_iff.
  - rewrite (proj2 (Z.eqb_neq _ _)); [done|]. by intros [? _]%Z.lor_eq_0_iff.
Qed.

(** * Word memory

    Memory is a finite map from the byte address of an 8-byte word to its
    value.  The map is arbitrary (never-written words hold whatever the map
    says, and 0 where it says nothing), so a statement that quantifies over it
    covers every initial content of memory. *)
Definition rd (m : gmap Z Z) (a : Z) : Z := default 0 (m !! a).

Lemma rd_insert m a b v : rd (<[a := v]> m) b = if decide (a = b) then v else rd m b.
Proof. unfold rd. rewrite lookup_insert. by case_decide. Qed.

Lemma rd_insert_eq m a v : rd (<[a := v]> m) a = v.
Proof. rewrite rd_insert. by case_decide. Qed.

Lemma rd_insert_ne m a b v : a <> b -> rd (<[a := v]> m) b = rd m b.
Proof. intros. rewrite rd_insert. by case_decide. Qed.

(** [rd_solve]: evaluate a read through a chain of writes at addresses that
    [lia] can tell apart. *)
Ltac rd_solve :=
  repeat (first [ rewrite rd_insert_eq | rewrite rd_insert_ne by lia ]).

(** Euclidean-division goals: expose quotient and remainder, then [lia]. *)
Ltac dm_lia := Z.div_mod_to_equations; lia.

Create HintDb kernel.
#[export] Hint Resolve wrap_range wrap_small : kernel.

Lemma Forall_elem {A} (P : A -> Prop) l x : Forall P l -> x ∈ l -> P x.
Proof. intros HP Hx. eapply List.Forall_forall; [done|]. by apply list_elem_of_In. Qed.

(** Membership around a distinguished element. *)
Lemma elem_mid {A} (x : A) l1 l2 : x ∈ l1 ++ x :: l2.
Proof. apply elem_of_app. right. left. Qed.
Lemma elem_left {A} (x y : A) l1 l2 : y ∈ l1 -> y ∈ l1 ++ x :: l2.
Proof. intros. apply elem_of_app. by left. Qed.
Lemma elem_right {A} (x y : A) l1 l2 : y ∈ l2 -> y ∈ l1 ++ x :: l2.
Proof. intros. apply elem_of_app. right. by right. Qed.
Lemma elem_around {A} (x y : A) l1 l2 : y ∈ l1 ++ l2 -> y ∈ l1 ++ x :: l2.
Proof. intros [?|?]%elem_of_app; [by apply elem_left|by apply elem_right]. Qed.
Lemma elem_around_inv {A} (x y : A) l1 l2 : y ∈ l1 ++ x :: l2 -> y = x \/ y ∈ l1 ++ l2.
Proof. rewrite !elem_of_app, elem_of_cons. tauto. Qed.
#[export] Hint Resolve elem_mid elem_left elem_right elem_around : kernel.
