(* ===== verification/Limine.v ===== *)
(** The part of the Limine boot protocol the memory stack reads
    ([src/src/include/limine.h]): the physical memory map, the kernel's load
    addresses, the modules, the HHDM offset.  A response pointer is an
    [option]; its arrays are lists. *)
From S2P Require Import Prelude.

Definition LIMINE_MEMMAP_USABLE : Z := 0.
Definition LIMINE_MEMMAP_RESERVED : Z := 1.
Definition LIMINE_MEMMAP_ACPI_RECLAIMABLE : Z := 2.
Definition LIMINE_MEMMAP_ACPI_NVS : Z := 3.
Definition LIMINE_MEMMAP_BAD_MEMORY : Z := 4.
Definition LIMINE_MEMMAP_BOOTLOADER_RECLAIMABLE : Z := 5.
Definition LIMINE_MEMMAP_KERNEL_AND_MODULES : Z := 6.
Definition LIMINE_MEMMAP_FRAMEBUFFER : Z := 7.

Record limine_memmap_entry : Type := MemmapEntry {
  me_base : Z;
  me_length : Z;
  me_type : Z;
}.

Record limine_file : Type := LimineFile {
  lf_address : Z;
  lf_size : Z;
}.

Record limine_kernel_address : Type := KernelAddress {
  physical_base : Z;
  virtual_base : Z;
}.

(** Everything the bootloader hands over; [None] is a NULL response. *)
Record limine : Type := Limine {
  memmap_req : option (list limine_memmap_entry);
  hhdm_request : option Z;
  Kaddress_req : option limine_kernel_address;
  module_request : option (list limine_file);
}.

(** An entry whose end does not wrap, even after rounding up to a page: the
    only entries a 64-bit machine with a 52-bit physical bus can report. *)
Definition entry_ok (e : limine_memmap_entry) : Prop :=
  0 <= me_base e /\ 0 <= me_length e /\ me_base e + me_length e <= 2 ^ 52.

Definition entry_end (e : limine_memmap_entry) : Z := u64 (me_base e + me_length e).

Lemma entry_end_ok e : entry_ok e -> entry_end e = me_base e + me_length e.
Proof. intros (?&?&?). unfold entry_end. rewrite wrap_small; lia. Qed.
