(* ===== verification/Lock.v ===== *)
(** Spinlocks, [src/src/include/lock.h].  The kernel runs one CPU and these
    locks are taken in ordinary task context, so acquiring a lock that is
    already held spins for ever: that outcome is [Hang]. *)
From S2P Require Import Prelude.

Definition SPINLOCK_INIT : Z := 0.

(** [__sync_bool_compare_and_swap(lock, old, new)]: success flag and new value. *)
Definition CAS (lock old new : Z) : bool * Z :=
  if lock =? old then (true, new) else (false, lock).

Definition spinlock_test_and_acq {S} (proj : S -> Z) (upd : Z -> S -> S) : K S bool :=
  fun s => let '(ok, l) := CAS (proj s) 0 1 in Ret ok (upd l s).

Definition spinlock_acquire {S} (proj : S -> Z) (upd : Z -> S -> S) : K S unit :=
  fun s => let '(ok, l) := CAS (proj s) 0 1 in
           if ok then Ret tt (upd l s) else Hang s.

Definition spinlock_release {S} (proj : S -> Z) (upd : Z -> S -> S) : K S unit :=
  fun s => let '(_, l) := CAS (proj s) 1 0 in Ret tt (upd l s).

Lemma spinlock_acquire_free {S} (proj : S -> Z) (upd : Z -> S -> S) s :
  proj s = 0 -> spinlock_acquire proj upd s = Ret tt (upd 1 s).
Proof. intros H. unfold spinlock_acquire, CAS. by rewrite H. Qed.

Lemma spinlock_acquire_held {S} (proj : S -> Z) (upd : Z -> S -> S) s :
  proj s <> 0 -> spinlock_acquire proj upd s = Hang s.
Proof. intros H. unfold spinlock_acquire, CAS. by rewrite (proj2 (Z.eqb_neq _ _) H). Qed.

Lemma spinlock_release_held {S} (proj : S -> Z) (upd : Z -> S -> S) s :
  proj s = 1 -> spinlock_release proj upd s = Ret tt (upd 0 s).
Proof. intros H. unfold spinlock_release, CAS. by rewrite H. Qed.
