(* ===== verification/EarlyAlloc.v ===== *)
(** The bootstrap bump allocator, [src/src/early_alloc.c]: the choice of the
    boot region from the Limine memory map, the bump cursor, and the report of
    what was consumed that [frame_init] later reserves. *)
From S2P Require Import Prelude Limine.

Module EarlyAlloc.

(** The file's four static variables. *)
Record early : Type := Early {
  g_base : Z;
  g_cursor : Z;
  g_end : Z;
  g_region_forced : bool;
}.

Definition early_zero : early := Early 0 0 0 false.

Definition memmap_ready (lim : limine) : bool :=
  match memmap_req lim with
  | Some es => 0 <? Z.of_nat (length es)
  | None => false
  end.

(** The six locals of [pick_region_from_memmap]. *)
Record best : Type := Best {
  best_size_below4g : Z;
  best_base_below4g : Z;
  best_end_below4g : Z;
  best_size_any : Z;
  best_base_any : Z;
  best_end_any : Z;
}.

Definition region_start (e : limine_memmap_entry) : Z := ALIGN_UP (me_base e) PAGE_SIZE.
Definition region_end (e : limine_memmap_entry) : Z :=
  ALIGN_DOWN (u64 (me_base e + me_length e)) PAGE_SIZE.

(** One round of the loop over the memory map. *)
Definition pick_step (b : best) (e : limine_memmap_entry) : best :=
  if negb (me_type e =? LIMINE_MEMMAP_USABLE) then b else
  let start := region_start e in
  let end_ := region_end e in
  if end_ <=? start then b else
  let size := u64 (end_ - start) in
  let b := if (end_ <=? 0x100000000) && (size >? best_size_below4g b)
           then Best size start end_ (best_size_any b) (best_base_any b) (best_end_any b)
           else b in
  if size >? best_size_any b
  then Best (best_size_below4g b) (best_base_below4g b) (best_end_below4g b) size start end_
  else b.

Definition pick_region_from_memmap (lim : limine) : K early unit :=
  if negb (memmap_ready lim) then ret tt else
  let b := foldl pick_step (Best 0 0 0 0 0 0) (default [] (memmap_req lim)) in
  modify (fun s =>
    let s := if negb (best_size_below4g b =? 0)
             then Early (best_base_below4g b) (g_cursor s) (best_end_below4g b) (g_region_forced s)
             else Early (best_base_any b) (g_cursor s) (best_end_any b) (g_region_forced s) in
    Early (g_base s) (g_base s) (g_end s) (g_region_forced s)).

Definition early_set_region (base page_count : Z) : K early unit :=
  put (Early base base (u64 (base + u64 (page_count * PAGE_SIZE))) true).

Definition early_init (lim : limine) : K early unit :=
  let! s := get in
  do! when (negb (g_region_forced s)) (pick_region_from_memmap lim) in
  let! s := get in
  if (g_base s =? 0) || (g_end s <=? g_base s) || is_set (g_base s) (PAGE_SIZE - 1)
  then panic "early_init: no suitable USABLE region found for early allocations"
  else ret tt.

Definition early_alloc_page : K early Z :=
  let! s := get in
  if u64 (g_cursor s + PAGE_SIZE) >? g_end s
  then panic "early_alloc_page: out of early pages"
  else
    do! put (Early (g_base s) (u64 (g_cursor s + PAGE_SIZE)) (g_end s) (g_region_forced s)) in
    ret (g_cursor s).

(** [early_reserved_region(&base, &pages)] with both out-pointers given. *)
Definition early_reserved_region : K early (Z * Z) :=
  gets (fun s => (g_base s, u64 (g_cursor s - g_base s) / PAGE_SIZE)).

Definition early_pages_used : K early Z :=
  gets (fun s => u64 (g_cursor s - g_base s) / PAGE_SIZE).

(** ** The region choice *)

(** [e] contributes a non-empty page-aligned usable range. *)
Definition candidate (e : limine_memmap_entry) : Prop :=
  me_type e = LIMINE_MEMMAP_USABLE /\ region_start e < region_end e.
Definition candidate_below4g (e : limine_memmap_entry) : Prop :=
  candidate e /\ region_end e <= 0x100000000.
Definition region_size (e : limine_memmap_entry) : Z := region_end e - region_start e.

Lemma region_bounds e : entry_ok e ->
  region_start e = 4096 * ((me_base e + 4095) / 4096) /\
  region_end e = 4096 * ((me_base e + me_length e) / 4096) /\
  0 <= region_start e < 2 ^ 53 /\ 0 <= region_end e <= 2 ^ 52.
Proof.
  intros (?&?&?). unfold region_start, region_end.
  rewrite ALIGN_UP_page by lia. rewrite wrap_small by lia.
  rewrite ALIGN_DOWN_page by lia. dm_lia.
Qed.

(** [(size, base, end)] describes the largest member of [done] that satisfies
    [P]; all three are 0 when there is none. *)
Definition best_of (P : limine_memmap_entry -> Prop) (done_ : list limine_memmap_entry)
    (size base end_ : Z) : Prop :=
  (size = 0 /\ base = 0 /\ end_ = 0 /\ forall e, e ∈ done_ -> ~ P e) \/
  (exists e, e ∈ done_ /\ P e /\ size = region_size e /\ base = region_start e /\
     end_ = region_end e /\ forall e', e' ∈ done_ -> P e' -> region_size e' <= region_size e).

Lemma best_of_size_nonneg (P : limine_memmap_entry -> Prop) l s b e :
  (forall e, P e -> candidate e) -> best_of P l s b e -> 0 <= s.
Proof.
  intros HP [(->&_)|(x&_&Hx&->&_)]; [done|].
  destruct (HP x Hx) as [_ ?]. unfold region_size. lia.
Qed.

Lemma best_of_skip (P : limine_memmap_entry -> Prop) l x s b e :
  best_of P l s b e -> (P x -> region_size x <= s) -> (forall y, P y -> candidate y) ->
  best_of P (l ++ [x]) s b e.
Proof.
  intros [(->&->&->&Hno)|(y&Hy&HPy&->&->&->&Hmax)] Hx HP.
  - left. repeat split; try done. intros e0 [He|<-%list_elem_of_singleton]%elem_of_app HPe.
    + by eapply Hno.
    + destruct (HP e0 HPe) as [_ ?]. specialize (Hx HPe). unfold region_size in Hx. lia.
  - right. exists y. repeat split; try done; [set_solver|].
    intros e' [He|<-%list_elem_of_singleton]%elem_of_app HPe; auto.
Qed.

Lemma best_of_take (P : limine_memmap_entry -> Prop) l x s b e :
  best_of P l s b e -> P x -> region_size x > s ->
  best_of P (l ++ [x]) (region_size x) (region_start x) (region_end x).
Proof.
  intros Hb HPx Hgt. right. exists x. repeat split; try done; [set_solver|].
  intros e' [He|<-%list_elem_of_singleton]%elem_of_app HPe; [|done].
  destruct Hb as [(_&_&_&Hno)|(y&_&_&->&_&_&Hmax)]; [by destruct (Hno e')|].
  specialize (Hmax e' He HPe). lia.
Qed.

Definition best_inv (l : list limine_memmap_entry) (b : best) : Prop :=
  best_of candidate_below4g l (best_size_below4g b) (best_base_below4g b) (best_end_below4g b) /\
  best_of candidate l (best_size_any b) (best_base_any b) (best_end_any b).

Lemma candidate_below4g_candidate e : candidate_below4g e -> candidate e.
Proof. by intros []. Qed.

#[local] Hint Resolve candidate_below4g_candidate : kernel.

Lemma pick_step_inv l b e :
  entry_ok e -> best_inv l b -> best_inv (l ++ [e]) (pick_step b e).
Proof.
  intros Hok [H4 Ha]. unfold pick_step.
  pose proof (region_bounds e Hok) as (_&_&?&?).
  destruct (Z.eqb_spec (me_type e) LIMINE_MEMMAP_USABLE) as [Ht|Ht]; simpl.
  2: { split; (eapply best_of_skip; [done| |auto with kernel]).
       - intros [[? _] _]; done.
       - intros [? _]; done. }
  destruct (Z.leb_spec (region_end e) (region_start e)) as [Hle|Hlt].
  { split; (eapply best_of_skip; [done| |auto with kernel]).
    - intros [[_ ?] _]; lia.
    - intros [_ ?]; lia. }
  assert (Hc : candidate e) by (split; [done|lia]).
  assert (Hs : u64 (region_end e - region_start e) = region_size e)
    by (unfold region_size; apply wrap_small; lia).
  rewrite Hs.
  set (b1 := if (region_end e <=? 0x100000000) && (region_size e >? best_size_below4g b)
             then Best (region_size e) (region_start e) (region_end e)
                    (best_size_any b) (best_base_any b) (best_end_any b)
             else b).
  assert (H1 : best_of candidate_below4g (l ++ [e]) (best_size_below4g b1)
                 (best_base_below4g b1) (best_end_below4g b1)).
  { subst b1. destruct (Z.leb_spec (region_end e) 0x100000000);
      destruct (Z.gtb_spec (region_size e) (best_size_below4g b)); simpl.
    - eapply best_of_take; [done|split;[done|lia]|lia].
    - eapply best_of_skip; [done|lia|auto with kernel].
    - eapply best_of_skip; [done| |auto with kernel]. intros [_ ?]; lia.
    - eapply best_of_skip; [done| |auto with kernel]. intros [_ ?]; lia. }
  assert (Hany : best_size_any b1 = best_size_any b /\ best_base_any b1 = best_base_any b /\
                 best_end_any b1 = best_end_any b) by (subst b1; by destruct (_ && _)).
  destruct Hany as (Hsa & Hba & Hea). rewrite Hsa.
  destruct (Z.gtb_spec (region_size e) (best_size_any b)); split; simpl; try done.
  - eapply best_of_take; [exact Ha|done|lia].
  - rewrite Hsa, Hba, Hea. eapply best_of_skip; [done|lia|auto].
Qed.

Lemma pick_fold_inv es pre b :
  Forall entry_ok es -> best_inv pre b -> best_inv (pre ++ es) (foldl pick_step b es).
Proof.
  revert pre b. induction es as [|e es IH]; intros pre b Hok Hb; simpl.
  { by rewrite app_nil_r. }
  apply Forall_cons_1 in Hok as [He Hes].
  replace (pre ++ e :: es) with ((pre ++ [e]) ++ es) by (by rewrite <- app_assoc).
  apply IH; [done|]. by apply pick_step_inv.
Qed.

Lemma best_inv_nil : best_inv [] (Best 0 0 0 0 0 0).
Proof. split; left; repeat split; try done; intros e He; by apply elem_of_nil in He. Qed.

(** The range [\[b, e)] is the page-aligned inside of the entry [x]. *)
Definition chosen (es : list limine_memmap_entry) (s : early) (x : limine_memmap_entry) : Prop :=
  x ∈ es /\ candidate x /\ g_base s = region_start x /\ g_end s = region_end x /\
  g_cursor s = g_base s.

Lemma early_init_unfold lim es s :
  memmap_req lim = Some es -> es <> [] -> g_region_forced s = false ->
  let b := foldl pick_step (Best 0 0 0 0 0 0) es in
  let base := if negb (best_size_below4g b =? 0) then best_base_below4g b else best_base_any b in
  let end_ := if negb (best_size_below4g b =? 0) then best_end_below4g b else best_end_any b in
  early_init lim s =
    (if (base =? 0) || (end_ <=? base) || is_set base (PAGE_SIZE - 1)
     then Panic "early_init: no suitable USABLE region found for early allocations"
            (Early base base end_ false)
     else Ret tt (Early base base end_ false)).
Proof.
  intros Hm Hne Hf b base end_.
  assert (Hr : memmap_ready lim = true).
  { unfold memmap_ready. rewrite Hm. destruct es; [done|]. apply Z.ltb_lt. cbn [length]. lia. }
  unfold early_init, bind, get, when. rewrite Hf. simpl.
  unfold pick_region_from_memmap. rewrite Hr, Hm. simpl.
  fold b. subst base end_.
  destruct (negb (best_size_below4g b =? 0)); simpl; rewrite Hf; by case_match.
Qed.

(** The entry whose inside the boot region is: the largest one below 4 GiB
    when there is one, otherwise the largest anywhere. *)
Definition preferred (es : list limine_memmap_entry) (x : limine_memmap_entry) : Prop :=
  x ∈ es /\ candidate x /\
  ((candidate_below4g x /\
      forall y, y ∈ es -> candidate_below4g y -> region_size y <= region_size x) \/
   ((forall y, y ∈ es -> ~ candidate_below4g y) /\
      forall y, y ∈ es -> candidate y -> region_size y <= region_size x)).

Lemma pick_preferred es :
  Forall entry_ok es -> (exists x, x ∈ es /\ candidate x) ->
  let b := foldl pick_step (Best 0 0 0 0 0 0) es in
  exists x, preferred es x /\
    (if negb (best_size_below4g b =? 0) then best_base_below4g b else best_base_any b)
      = region_start x /\
    (if negb (best_size_below4g b =? 0) then best_end_below4g b else best_end_any b)
      = region_end x.
Proof.
  intros Hok (c & Hc & Hcand) b.
  destruct (pick_fold_inv es [] _ Hok best_inv_nil) as [H4 Ha]. fold b in H4, Ha. simpl in *.
  destruct Ha as [(_&_&_&Hno)|(y&Hy&HPy&Hsy&Hby&Hey&Hmax)]; [by destruct (Hno c)|].
  destruct H4 as [(Hz&_&_&Hno4)|(x&Hx&HPx&Hsx&Hbx&Hex&Hmax4)].
  - rewrite Hz. simpl. exists y. repeat split; try done; try apply HPy. right. done.
  - destruct (HPx) as [[_ Hlt] _].
    assert (Hnz : best_size_below4g b <> 0) by (unfold region_size in *; lia).
    rewrite (proj2 (Z.eqb_neq _ _) Hnz). simpl.
    exists x. repeat split; try done; try apply HPx. left. done.
Qed.

(** [early_init] on a fresh bump allocator selects the page-aligned inside
    of the largest USABLE entry below 4 GiB, or, when no entry qualifies there,
    of the largest USABLE entry anywhere, and starts the cursor at its base;
    the region starts above address 0 whenever the call returns. *)
Theorem early_init_selects lim es s :
  memmap_req lim = Some es -> Forall entry_ok es ->
  (exists x, x ∈ es /\ candidate x) ->
  (forall x, x ∈ es -> candidate x -> region_start x <> 0) ->
  g_region_forced s = false ->
  wp (early_init lim s) (fun _ s' =>
    exists x, preferred es x /\ g_base s' = region_start x /\ g_end s' = region_end x /\
      g_cursor s' = g_base s' /\ 0 < g_base s' < g_end s' /\ g_base s' mod 4096 = 0).
Proof.
  intros Hm Hok Hex Hnz Hf.
  destruct (pick_preferred es Hok Hex) as (x & Hp & Hb & He).
  assert (Hne : es <> []) by (destruct Hp as [Hx _]; intros ->; by apply elem_of_nil in Hx).
  rewrite (early_init_unfold lim es s Hm Hne Hf). simpl in Hb, He. rewrite Hb, He.
  pose proof Hp as (Hx & Hc & Hbest).
  pose proof (region_bounds x (Forall_elem _ _ _ Hok Hx)) as (Hst&_&?&?).
  pose proof (Hnz x Hx Hc) as Hnz'. pose proof (proj2 Hc) as Hlt.
  assert (Hmod : region_start x mod 4096 = 0) by (rewrite Hst; dm_lia).
  rewrite (proj2 (Z.eqb_neq _ _) Hnz'), (proj2 (Z.leb_gt _ _) Hlt).
  unfold is_set. rewrite land_page_low, Hmod. simpl.
  exists x. split_and!; try done; lia.
Qed.

(** ** The bump cursor *)
Definition early_wf (s : early) : Prop :=
  0 < g_base s /\ g_base s <= g_cursor s <= g_end s /\ g_end s + 4096 < 2 ^ 64 /\
  g_base s mod 4096 = 0 /\ g_cursor s mod 4096 = 0 /\ g_end s mod 4096 = 0.

(** Pages still available. *)
Definition early_left (s : early) : Z := (g_end s - g_cursor s) / 4096.

Lemma early_alloc_page_ok s :
  early_wf s -> 0 < early_left s ->
  early_alloc_page s =
    Ret (g_cursor s) (Early (g_base s) (g_cursor s + 4096) (g_end s) (g_region_forced s)).
Proof.
  intros (?&?&?&?&?&?) Hleft. unfold early_left in Hleft.
  assert (Hle : g_cursor s + 4096 <= g_end s) by dm_lia.
  unfold early_alloc_page, bind, get, put, ret, PAGE_SIZE.
  rewrite wrap_small by lia.
  destruct (Z.gtb_spec (g_cursor s + 4096) (g_end s)); [lia|done].
Qed.

Lemma early_alloc_page_exhausted s :
  early_wf s -> early_left s = 0 ->
  early_alloc_page s = Panic "early_alloc_page: out of early pages" s.
Proof.
  intros (?&?&?&?&?&?) Hleft. unfold early_left in Hleft.
  assert (Hle : g_end s < g_cursor s + 4096) by dm_lia.
  unfold early_alloc_page, bind, get, panic, PAGE_SIZE.
  rewrite wrap_small by lia.
  destruct (Z.gtb_spec (g_cursor s + 4096) (g_end s)); [done|lia].
Qed.

Lemma early_alloc_page_wf s :
  early_wf s -> 0 < early_left s ->
  wp (early_alloc_page s) (fun p s' =>
    p = g_cursor s /\ early_wf s' /\ g_base s' = g_base s /\ g_end s' = g_end s /\
    g_cursor s' = g_cursor s + 4096 /\ early_left s' = early_left s - 1).
Proof.
  intros Hwf Hl. rewrite early_alloc_page_ok by done. simpl.
  destruct Hwf as (?&?&?&?&?&?). unfold early_left in *. unfold early_wf. simpl.
  repeat split; try done; dm_lia.
Qed.

(** [n] consecutive calls. *)
Fixpoint alloc_pages (n : nat) : K early (list Z) :=
  match n with
  | O => ret []
  | S n' => let! p := early_alloc_page in let! ps := alloc_pages n' in ret (p :: ps)
  end.

Lemma alloc_pages_spec n s :
  early_wf s -> Z.of_nat n <= early_left s ->
  wp (alloc_pages n s) (fun ps s' =>
    ps = (fun k => g_cursor s + 4096 * Z.of_nat k) <$> seq 0 n /\
    early_wf s' /\ g_base s' = g_base s /\ g_end s' = g_end s /\
    g_cursor s' = g_cursor s + 4096 * Z.of_nat n).
Proof.
  revert s. induction n as [|n IH]; intros s Hwf Hl.
  { simpl. repeat split; try done; try apply Hwf; lia. }
  cbn [alloc_pages]. apply wp_bind. eapply wp_mono; [apply early_alloc_page_wf; [done|lia]|].
  intros p s1 (-> & Hwf1 & Hb & He & Hc & Hl1). apply wp_bind.
  eapply wp_mono; [apply (IH s1 Hwf1); lia|].
  intros ps s2 (-> & Hwf2 & Hb2 & He2 & Hc2). simpl.
  split; [|repeat split; try apply Hwf2; lia].
  f_equal; [lia|]. rewrite <- seq_shift, <- list_fmap_compose.
  apply list_fmap_ext. intros i k Hk. simpl. lia.
Qed.

(** The bump allocator hands out consecutive pages: while pages are left,
    [n] calls return exactly [cursor, cursor + 4096, ...], all aligned, inside
    the region and pairwise distinct, and [early_reserved_region] afterwards
    reports exactly the range from the region's base to the new cursor. *)
Theorem early_alloc_contiguous n s :
  early_wf s -> Z.of_nat n <= early_left s ->
  wp (alloc_pages n s) (fun ps s' =>
    ps = (fun k => g_cursor s + 4096 * Z.of_nat k) <$> seq 0 n /\ NoDup ps /\
    (forall p, p ∈ ps -> p mod 4096 = 0 /\ g_base s <= p /\ p + 4096 <= g_end s) /\
    early_reserved_region s' =
      Ret (g_base s, (g_cursor s - g_base s) / 4096 + Z.of_nat n) s').
Proof.
  intros Hwf Hl. eapply wp_mono; [by apply alloc_pages_spec|].
  intros ps s' (-> & Hwf' & Hb & He & Hc).
  destruct Hwf as (?&?&?&?&?&?). unfold early_left in Hl.
  repeat split.
  - apply NoDup_fmap_2_strong; [|apply NoDup_seq]. intros x y _ _ ?. lia.
  - apply list_elem_of_fmap in H5 as (k & -> & [_ Hk]%elem_of_seq). dm_lia.
  - apply list_elem_of_fmap in H5 as (k & -> & [_ Hk]%elem_of_seq). dm_lia.
  - apply list_elem_of_fmap in H5 as (k & -> & [_ Hk]%elem_of_seq). dm_lia.
  - unfold early_reserved_region, gets. rewrite Hb, Hc. do 2 f_equal. unfold PAGE_SIZE.
    destruct Hwf' as (?&?&?&?&?&?). rewrite wrap_small by lia. dm_lia.
Qed.

Definition demo_early : early := Early 0x100000 0x101000 0x104000 false.

Lemma early_alloc_contiguous_witness :
  wp (alloc_pages 2 demo_early) (fun ps _ => ps = [0x101000; 0x102000] /\ NoDup ps).
Proof.
  eapply wp_mono; [apply (early_alloc_contiguous 2 demo_early); vm_compute; intuition congruence|].
  intros ps s' (-> & Hnd & _). split; [reflexivity|exact Hnd].
Defined.

(** Low memory, a hole, 1 MiB at 1 MiB and 2 MiB above 4 GiB. *)
Definition demo_map : list limine_memmap_entry :=
  [MemmapEntry 0x1000 0x9e000 LIMINE_MEMMAP_USABLE; MemmapEntry 0xf0000 0x10000 LIMINE_MEMMAP_RESERVED;
   MemmapEntry 0x100000 0x100000 LIMINE_MEMMAP_USABLE;
   MemmapEntry 0x100000000 0x200000 LIMINE_MEMMAP_USABLE].

Lemma early_init_selects_witness :
  wp (early_init (Limine (Some demo_map) None None None) early_zero)
    (fun _ s' => exists x, preferred demo_map x /\ g_base s' = region_start x).
Proof.
  eapply wp_mono.
  { apply (early_init_selects (Limine (Some demo_map) None None None) demo_map early_zero).
    - reflexivity.
    - repeat constructor; simpl; lia.
    - exists (MemmapEntry 0x100000 0x100000 LIMINE_MEMMAP_USABLE).
      split; [do 2 right; left|]. split; reflexivity.
    - intros x Hx _. unfold demo_map in Hx.
      repeat (apply elem_of_cons in Hx as [->|Hx]; [vm_compute; congruence|]).
      by apply elem_of_nil in Hx.
    - reflexivity. }
  intros [] s' (x & Hp & Hb & _). exact (ex_intro _ x (conj Hp Hb)).
Defined.

End EarlyAlloc.
