(* ===== verification/NeoFrame.v ===== *)
(** The permanent physical frame allocator, [src/src/neo_framealloc.c]: the two
    bitmaps, [frame_init] (which takes over from the bump allocator of
    [EarlyAlloc]), [frame_alloc], [n_frame_free] and the queries. *)
From S2P Require Import Prelude Limine Lock EarlyAlloc.

Module NeoFrame.
Import EarlyAlloc.

(** The file's static variables.  [g_alloc_bm] and [g_usable_bm] are the bytes
    the two bitmap pointers point to; [g_alloc_ptr] and [g_usable_ptr] are the
    pointers themselves. *)
Record pmm : Type := Pmm {
  g_alloc_ptr : Z;
  g_usable_ptr : Z;
  g_alloc_bm : list Z;   (* 1 = allocated/reserved, 0 = free *)
  g_usable_bm : list Z;  (* 1 = USABLE by memmap, 0 = not usable *)
  g_frame_count : Z;
  g_max_phys : Z;
  g_free_count : Z;
  g_hint : Z;
  g_memlock : Z;
}.

Definition pmm_zero : pmm := Pmm 0 0 [] [] 0 0 0 0 SPINLOCK_INIT.

Definition set_alloc_bm (b : list Z) (s : pmm) : pmm :=
  Pmm (g_alloc_ptr s) (g_usable_ptr s) b (g_usable_bm s) (g_frame_count s) (g_max_phys s)
      (g_free_count s) (g_hint s) (g_memlock s).
Definition set_usable_bm (b : list Z) (s : pmm) : pmm :=
  Pmm (g_alloc_ptr s) (g_usable_ptr s) (g_alloc_bm s) b (g_frame_count s) (g_max_phys s)
      (g_free_count s) (g_hint s) (g_memlock s).
Definition set_free_count (n : Z) (s : pmm) : pmm :=
  Pmm (g_alloc_ptr s) (g_usable_ptr s) (g_alloc_bm s) (g_usable_bm s) (g_frame_count s)
      (g_max_phys s) n (g_hint s) (g_memlock s).
Definition set_hint (n : Z) (s : pmm) : pmm :=
  Pmm (g_alloc_ptr s) (g_usable_ptr s) (g_alloc_bm s) (g_usable_bm s) (g_frame_count s)
      (g_max_phys s) (g_free_count s) n (g_memlock s).
Definition set_memlock (n : Z) (s : pmm) : pmm :=
  Pmm (g_alloc_ptr s) (g_usable_ptr s) (g_alloc_bm s) (g_usable_bm s) (g_frame_count s)
      (g_max_phys s) (g_free_count s) (g_hint s) n.
Definition set_topology (maxp n : Z) (s : pmm) : pmm :=
  Pmm (g_alloc_ptr s) (g_usable_ptr s) (g_alloc_bm s) (g_usable_bm s) n maxp
      (g_free_count s) (g_hint s) (g_memlock s).
Definition set_ptrs (a u : Z) (s : pmm) : pmm :=
  Pmm a u (g_alloc_bm s) (g_usable_bm s) (g_frame_count s) (g_max_phys s)
      (g_free_count s) (g_hint s) (g_memlock s).

Definition lock_mem : K pmm unit := spinlock_acquire g_memlock set_memlock.
Definition unlock_mem : K pmm unit := spinlock_release g_memlock set_memlock.

(** ** Bit operations: byte [i >> 3], bit [i & 7]; a byte outside the array is
    a fault. *)
Definition byte_index (i : Z) : nat := Z.to_nat (Z.shiftr i 3).

Definition bm_set (bm : list Z) (i : Z) : option (list Z) :=
  match bm !! byte_index i with
  | Some b => Some (<[byte_index i := Z.lor b (u8 (Z.shiftl 1 (Z.land i 7)))]> bm)
  | None => None
  end.

Definition bm_clear (bm : list Z) (i : Z) : option (list Z) :=
  match bm !! byte_index i with
  | Some b => Some (<[byte_index i := Z.land b (u8 (Z.lnot (Z.shiftl 1 (Z.land i 7))))]> bm)
  | None => None
  end.

Definition bm_test (bm : list Z) (i : Z) : option bool :=
  match bm !! byte_index i with
  | Some b => Some (negb (Z.land (Z.shiftr b (Z.land i 7)) 1 =? 0))
  | None => None
  end.

Definition alloc_test (i : Z) : K pmm bool :=
  let! s := get in
  match bm_test (g_alloc_bm s) i with Some b => ret b | None => fault (g_alloc_ptr s + Z.shiftr i 3) end.
Definition usable_test (i : Z) : K pmm bool :=
  let! s := get in
  match bm_test (g_usable_bm s) i with Some b => ret b | None => fault (g_usable_ptr s + Z.shiftr i 3) end.
Definition alloc_set (i : Z) : K pmm unit :=
  let! s := get in
  match bm_set (g_alloc_bm s) i with
  | Some b => put (set_alloc_bm b s) | None => fault (g_alloc_ptr s + Z.shiftr i 3) end.
Definition alloc_clear (i : Z) : K pmm unit :=
  let! s := get in
  match bm_clear (g_alloc_bm s) i with
  | Some b => put (set_alloc_bm b s) | None => fault (g_alloc_ptr s + Z.shiftr i 3) end.
Definition usable_set (i : Z) : K pmm unit :=
  let! s := get in
  match bm_set (g_usable_bm s) i with
  | Some b => put (set_usable_bm b s) | None => fault (g_usable_ptr s + Z.shiftr i 3) end.

(** ** Helpers *)
Definition frame_index_of (p : Z) : Z := p / PAGE_SIZE.
Definition frame_addr_of (i : Z) : Z := u64 (i * PAGE_SIZE).

(** The loop of [compute_max_phys_and_count] over the memory map. *)
Definition max_phys_of (es : list limine_memmap_entry) : Z :=
  foldl (fun mx e => let end_ := u64 (me_base e + me_length e) in
                     if end_ >? mx then end_ else mx) 0 es.

Definition compute_max_phys_and_count (lim : limine) : K pmm unit :=
  match memmap_req lim with
  | None | Some [] => panic "frame_init: Limine memmap missing"
  | Some es =>
      let mx := max_phys_of es in
      let n := ALIGN_UP mx PAGE_SIZE / PAGE_SIZE in
      do! modify (set_topology mx n) in
      if n =? 0 then panic "frame_init: zero frames" else ret tt
  end.

Definition mark_range_allocated (base end_ : Z) : K pmm unit :=
  if end_ <=? base then ret tt else
  let i0 := frame_index_of (ALIGN_DOWN base PAGE_SIZE) in
  let i1 := frame_index_of (ALIGN_UP end_ PAGE_SIZE) in
  let! s := get in
  let i1 := if i1 >? g_frame_count s then g_frame_count s else i1 in
  for_range i0 i1 (fun i =>
    let! t := alloc_test i in
    when (negb t)
      (do! alloc_set i in
       let! s := get in
       when (negb (g_free_count s =? 0))
         (modify (set_free_count (u64 (g_free_count s - 1)))))).

Definition mark_range_usable_and_free (base end_ : Z) : K pmm unit :=
  if end_ <=? base then ret tt else
  let i0 := frame_index_of (ALIGN_UP base PAGE_SIZE) in
  let i1 := frame_index_of (ALIGN_DOWN end_ PAGE_SIZE) in
  if i1 <=? i0 then ret tt else
  let! s := get in
  let i1 := if i1 >? g_frame_count s then g_frame_count s else i1 in
  for_range i0 i1 (fun i =>
    let! u := usable_test i in
    do! when (negb u) (usable_set i) in
    let! t := alloc_test i in
    when t
      (do! alloc_clear i in
       let! s := get in
       modify (set_free_count (u64 (g_free_count s + 1))))).

(** ** [frame_init] *)

(** Both allocators' statics, and the linker's kernel bounds. *)
Record mm : Type := Mm { mm_early : early; mm_pmm : pmm }.
Definition set_early (e : early) (s : mm) : mm := Mm e (mm_pmm s).
Definition set_pmm (p : pmm) (s : mm) : mm := Mm (mm_early s) p.
Definition in_early {A} : K early A -> K mm A := zoom mm_early set_early.
Definition in_pmm {A} : K pmm A -> K mm A := zoom mm_pmm set_pmm.

Record kernel_image : Type := KernelImage { kernel_start : Z; kernel_end : Z }.

(** [p = early_alloc_page(); for (k = 1; k < pages; k++) early_alloc_page();] *)
Definition early_block (pages : Z) : K mm Z :=
  let! p := in_early early_alloc_page in
  do! for_range 1 pages (fun _ => let! _ := in_early early_alloc_page in ret tt) in
  ret p.

Definition frame_init (lim : limine) (img : kernel_image) : K mm unit :=
  do! in_pmm (compute_max_phys_and_count lim) in
  match hhdm_request lim with
  | None => panic "frame_init: HHDM request missing"
  | Some hhdm =>
    let! s := get in
    let bm_bytes := u64 (g_frame_count (mm_pmm s) + 7) / 8 in
    let bm_pages := ALIGN_UP bm_bytes PAGE_SIZE / PAGE_SIZE in
    let! a_phys := early_block bm_pages in
    do! in_pmm (modify (fun p => set_ptrs (u64 (a_phys + hhdm)) (g_usable_ptr p) p)) in
    let! b_phys := early_block bm_pages in
    do! in_pmm (modify (fun p => set_ptrs (g_alloc_ptr p) (u64 (b_phys + hhdm)) p)) in
    do! in_pmm (modify (set_alloc_bm (replicate (Z.to_nat bm_bytes) 0xFF))) in
    do! in_pmm (modify (set_usable_bm (replicate (Z.to_nat bm_bytes) 0))) in
    do! in_pmm (modify (set_free_count 0)) in
    do! for_each (default [] (memmap_req lim)) (fun e =>
          when (me_type e =? LIMINE_MEMMAP_USABLE)
            (in_pmm (mark_range_usable_and_free (me_base e) (u64 (me_base e + me_length e))))) in
    match Kaddress_req lim with
    | None => panic "frame_init: kernel address response missing"
    | Some ka =>
      let kphys_begin := u64 (physical_base ka + u64 (kernel_start img - virtual_base ka)) in
      let kphys_end := u64 (physical_base ka + u64 (kernel_end img - virtual_base ka)) in
      do! in_pmm (mark_range_allocated kphys_begin kphys_end) in
      do! for_each (default [] (module_request lim)) (fun m =>
            in_pmm (mark_range_allocated (lf_address m) (u64 (lf_address m + lf_size m)))) in
      let! r := in_early early_reserved_region in
      let '(early_base, early_pages) := r in
      do! when (negb (early_pages =? 0))
            (in_pmm (mark_range_allocated early_base (u64 (early_base + u64 (early_pages * PAGE_SIZE))))) in
      in_pmm (modify (set_hint 0))
    end
  end.

(** ** Allocation and release *)

(** The inner search loop: [n] rounds from index [i]; [Some p] is its [return p]. *)
Fixpoint scan (n : nat) (i : Z) : K pmm (option Z) :=
  match n with
  | O => ret None
  | S n' =>
      let! u := usable_test i in
      let! a := (if u then alloc_test i else ret true) in
      if u && negb a then
        do! alloc_set i in
        let! s := get in
        do! modify (set_free_count (u64 (g_free_count s - 1))) in
        do! modify (set_hint (u64 (i + 1))) in
        do! unlock_mem in
        ret (Some (frame_addr_of i))
      else scan n' (i + 1)
  end.

Definition frame_alloc : K pmm Z :=
  do! lock_mem in
  let! s := get in
  if g_free_count s =? 0 then
    do! unlock_mem in panic "frame_alloc: OOM"
  else
    let start := g_hint s in
    let! r := scan (Z.to_nat (g_frame_count s - start)) start in
    match r with
    | Some p => ret p
    | None =>
        let! r := scan (Z.to_nat start) 0 in
        match r with
        | Some p => ret p
        | None =>
            do! unlock_mem in
            panic "frame_alloc: free count nonzero but no free frame found (bitmap corruption?)"
        end
    end.

Definition n_frame_free (paddr : Z) : K pmm unit :=
  let! s := get in
  if is_set paddr (PAGE_SIZE - 1) then panic "frame_free: unaligned paddr" else
  if paddr >=? g_max_phys s then panic "frame_free: out-of-bounds paddr" else
  let i := frame_index_of paddr in
  do! lock_mem in
  let! u := usable_test i in
  if negb u then do! unlock_mem in panic "frame_free: non-usable paddr" else
  let! a := alloc_test i in
  if negb a then do! unlock_mem in panic "frame_free: double-free paddr" else
  do! alloc_clear i in
  let! s := get in
  do! modify (set_free_count (u64 (g_free_count s + 1))) in
  let! s := get in
  do! when (i <? g_hint s) (modify (set_hint i)) in
  unlock_mem.

Definition frame_is_allocated (paddr : Z) : K pmm bool :=
  let! s := get in
  if is_set paddr (PAGE_SIZE - 1) || (paddr >=? g_max_phys s) then ret true
  else alloc_test (frame_index_of paddr).

Definition frame_total_count : K pmm Z := gets g_frame_count.
Definition frame_free_count : K pmm Z := gets g_free_count.

(** ** Bitmaps as boolean functions *)
Definition bit (bm : list Z) (i : Z) : bool :=
  Z.testbit (default 0 (bm !! Z.to_nat (i / 8))) (i mod 8).

Lemma byte_index_div i : byte_index i = Z.to_nat (i / 8).
Proof. unfold byte_index. by rewrite Z.shiftr_div_pow2. Qed.

Lemma land_7 i : Z.land i 7 = i mod 8.
Proof. exact (land_low 3 i ltac:(lia)). Qed.

Lemma bm_lookup (bm : list Z) i :
  0 <= i < 8 * Z.of_nat (length bm) -> exists b : Z, bm !! byte_index i = Some b.
Proof. intros. rewrite byte_index_div. apply lookup_lt_is_Some. dm_lia. Qed.

Lemma bm_test_bit bm i :
  0 <= i < 8 * Z.of_nat (length bm) -> bm_test bm i = Some (bit bm i).
Proof.
  intros Hi. destruct (bm_lookup bm i Hi) as [b Hb]. unfold bm_test, bit.
  rewrite Hb. rewrite byte_index_div in Hb. rewrite Hb, land_7. simpl. f_equal.
  rewrite testbit_0_mod2. rewrite Z.shiftr_div_pow2 by dm_lia.
  rewrite Z.testbit_eqb by dm_lia. destruct (Z.eqb_spec ((b / 2 ^ (i mod 8)) mod 2) 0); dm_lia.
Qed.

Lemma bm_update_bit bm i c (j : Z) :
  0 <= i < 8 * Z.of_nat (length bm) -> 0 <= j ->
  bit (<[byte_index i := c]> bm) j =
    if decide (i / 8 = j / 8) then Z.testbit c (j mod 8) else bit bm j.
Proof.
  intros Hi Hj. unfold bit. rewrite byte_index_div. case_decide as Hd.
  - rewrite <- Hd. rewrite list_lookup_insert_eq by dm_lia. done.
  - rewrite list_lookup_insert_ne; [done|]. dm_lia.
Qed.

Lemma bm_set_bit bm i :
  0 <= i < 8 * Z.of_nat (length bm) ->
  exists bm', bm_set bm i = Some bm' /\ length bm' = length bm /\
    forall j, 0 <= j -> bit bm' j = if decide (i = j) then true else bit bm j.
Proof.
  intros Hi. destruct (bm_lookup bm i Hi) as [b Hb]. unfold bm_set. rewrite Hb.
  eexists. split; [done|]. split; [apply length_insert|]. intros j Hj.
  rewrite bm_update_bit by done. rewrite land_7.
  case_decide as Hd.
  - rewrite Z.lor_spec, wrap_testbit, Z.shiftl_1_l, Z.pow2_bits_eqb by dm_lia.
    rewrite byte_index_div in Hb. unfold bit. rewrite <- Hd, Hb. simpl.
    replace (j mod 8 <? 8) with true by (symmetry; apply Z.ltb_lt; dm_lia). simpl.
    case_decide as He.
    + subst. rewrite Z.eqb_refl. apply orb_true_r.
    + rewrite (proj2 (Z.eqb_neq _ _)) by dm_lia. apply orb_false_r.
  - case_decide; [subst; done|done].
Qed.

Lemma bm_clear_bit bm i :
  0 <= i < 8 * Z.of_nat (length bm) ->
  exists bm', bm_clear bm i = Some bm' /\ length bm' = length bm /\
    forall j, 0 <= j -> bit bm' j = if decide (i = j) then false else bit bm j.
Proof.
  intros Hi. destruct (bm_lookup bm i Hi) as [b Hb]. unfold bm_clear. rewrite Hb.
  eexists. split; [done|]. split; [apply length_insert|]. intros j Hj.
  rewrite bm_update_bit by done. rewrite land_7.
  case_decide as Hd.
  - rewrite Z.land_spec, wrap_testbit, Z.lnot_spec, Z.shiftl_1_l, Z.pow2_bits_eqb by dm_lia.
    rewrite byte_index_div in Hb. unfold bit. rewrite <- Hd, Hb. simpl.
    replace (j mod 8 <? 8) with true by (symmetry; apply Z.ltb_lt; dm_lia). simpl.
    case_decide as He.
    + subst. rewrite Z.eqb_refl. apply andb_false_r.
    + rewrite (proj2 (Z.eqb_neq _ _)) by dm_lia. apply andb_true_r.
  - case_decide; [subst; done|done].
Qed.

(** Number of clear bits below [n]. *)
Fixpoint nclear (bm : list Z) (n : nat) : Z :=
  match n with
  | O => 0
  | S n' => nclear bm n' + (if bit bm (Z.of_nat n') then 0 else 1)
  end.

Lemma nclear_bounds bm n : 0 <= nclear bm n <= Z.of_nat n.
Proof. induction n; simpl; [lia|]. case_match; lia. Qed.

Lemma nclear_ext bm bm' n :
  (forall j, 0 <= j < Z.of_nat n -> bit bm' j = bit bm j) -> nclear bm' n = nclear bm n.
Proof.
  induction n as [|n IH]; intros H; simpl; [done|].
  rewrite IH by (intros; apply H; lia). by rewrite H by lia.
Qed.

Lemma nclear_flip bm bm' n i :
  0 <= i < Z.of_nat n ->
  (forall j, 0 <= j -> j <> i -> bit bm' j = bit bm j) ->
  bit bm i = false -> bit bm' i = true -> nclear bm' n = nclear bm n - 1.
Proof.
  induction n as [|n IH]; intros Hi Hne H0 H1; simpl; [lia|].
  destruct (decide (i = Z.of_nat n)) as [->|Hd].
  - rewrite (nclear_ext bm bm') by (intros; apply Hne; lia). rewrite H0, H1. lia.
  - rewrite IH by (auto; lia). rewrite (Hne (Z.of_nat n)) by lia. lia.
Qed.

Lemma nclear_pos bm n : 0 < nclear bm n -> exists i, 0 <= i < Z.of_nat n /\ bit bm i = false.
Proof.
  induction n as [|n IH]; simpl; [lia|]. intros H.
  destruct (bit bm (Z.of_nat n)) eqn:E.
  - destruct IH as (i & ? & ?); [lia|]. exists i. split; [lia|done].
  - exists (Z.of_nat n). split; [lia|done].
Qed.

Lemma nclear_zero bm n i : nclear bm n = 0 -> 0 <= i < Z.of_nat n -> bit bm i = true.
Proof.
  induction n as [|n IH]; simpl; [lia|]. intros H Hi. pose proof (nclear_bounds bm n).
  destruct (bit bm (Z.of_nat n)) eqn:E; [|lia].
  destruct (decide (i = Z.of_nat n)) as [->|]; [done|]. apply IH; lia.
Qed.

(** ** The invariant *)

(** Shape of the bitmaps and their agreement with the counters: a frame whose
    allocation bit is clear is usable, and [g_free_count] counts exactly those. *)
Record pmm_core (s : pmm) : Prop := {
  core_count : 0 < g_frame_count s <= 2 ^ 41;
  core_topo : g_frame_count s = (g_max_phys s + 4095) / 4096;
  core_max : 0 < g_max_phys s <= 2 ^ 52;
  core_alloc_len : g_frame_count s <= 8 * Z.of_nat (length (g_alloc_bm s));
  core_usable_len : g_frame_count s <= 8 * Z.of_nat (length (g_usable_bm s));
  core_free_usable : forall i, 0 <= i < g_frame_count s ->
    bit (g_alloc_bm s) i = false -> bit (g_usable_bm s) i = true;
  core_free_count : g_free_count s = nclear (g_alloc_bm s) (Z.to_nat (g_frame_count s));
}.

Record pmm_wf (s : pmm) : Prop := {
  wf_core : pmm_core s;
  wf_hint : 0 <= g_hint s <= g_frame_count s;
  wf_lock : g_memlock s = 0;
}.

(** ** Elementary operations under the shape invariant *)
Section elementary.
Context (s : pmm) (i : Z).

Lemma alloc_test_ok :
  0 <= i < 8 * Z.of_nat (length (g_alloc_bm s)) ->
  alloc_test i s = Ret (bit (g_alloc_bm s) i) s.
Proof. intros Hi. unfold alloc_test, bind, get. by rewrite bm_test_bit. Qed.

Lemma usable_test_ok :
  0 <= i < 8 * Z.of_nat (length (g_usable_bm s)) ->
  usable_test i s = Ret (bit (g_usable_bm s) i) s.
Proof. intros Hi. unfold usable_test, bind, get. by rewrite bm_test_bit. Qed.

Lemma alloc_set_ok :
  0 <= i < 8 * Z.of_nat (length (g_alloc_bm s)) ->
  exists bm, alloc_set i s = Ret tt (set_alloc_bm bm s) /\
    length bm = length (g_alloc_bm s) /\
    forall j, 0 <= j -> bit bm j = if decide (i = j) then true else bit (g_alloc_bm s) j.
Proof.
  intros Hi. destruct (bm_set_bit _ _ Hi) as (bm & Hs & ? & ?). exists bm.
  unfold alloc_set, bind, get. by rewrite Hs.
Qed.

Lemma alloc_clear_ok :
  0 <= i < 8 * Z.of_nat (length (g_alloc_bm s)) ->
  exists bm, alloc_clear i s = Ret tt (set_alloc_bm bm s) /\
    length bm = length (g_alloc_bm s) /\
    forall j, 0 <= j -> bit bm j = if decide (i = j) then false else bit (g_alloc_bm s) j.
Proof.
  intros Hi. destruct (bm_clear_bit _ _ Hi) as (bm & Hs & ? & ?). exists bm.
  unfold alloc_clear, bind, get. by rewrite Hs.
Qed.

Lemma usable_set_ok :
  0 <= i < 8 * Z.of_nat (length (g_usable_bm s)) ->
  exists bm, usable_set i s = Ret tt (set_usable_bm bm s) /\
    length bm = length (g_usable_bm s) /\
    forall j, 0 <= j -> bit bm j = if decide (i = j) then true else bit (g_usable_bm s) j.
Proof.
  intros Hi. destruct (bm_set_bit _ _ Hi) as (bm & Hs & ? & ?). exists bm.
  unfold usable_set, bind, get. by rewrite Hs.
Qed.
End elementary.

(** Frame [i] went from free to allocated, nothing else in the bitmaps moved;
    the lock is free again and the hint points past [i]. *)
Definition taken (s : pmm) (i : Z) (s' : pmm) : Prop :=
  exists bm, length bm = length (g_alloc_bm s) /\
    (forall j, 0 <= j -> bit bm j = if decide (i = j) then true else bit (g_alloc_bm s) j) /\
    s' = Pmm (g_alloc_ptr s) (g_usable_ptr s) bm (g_usable_bm s) (g_frame_count s)
             (g_max_phys s) (g_free_count s - 1) (i + 1) 0.

(** The converse move; the hint is lowered to [i] when it was above. *)
Definition released (s : pmm) (i : Z) (s' : pmm) : Prop :=
  exists bm, length bm = length (g_alloc_bm s) /\
    (forall j, 0 <= j -> bit bm j = if decide (i = j) then false else bit (g_alloc_bm s) j) /\
    s' = Pmm (g_alloc_ptr s) (g_usable_ptr s) bm (g_usable_bm s) (g_frame_count s)
             (g_max_phys s) (g_free_count s + 1) (Z.min (g_hint s) i) 0.

Lemma core_free_bounds s : pmm_core s -> 0 <= g_free_count s <= g_frame_count s.
Proof.
  intros H. rewrite (core_free_count s H).
  pose proof (nclear_bounds (g_alloc_bm s) (Z.to_nat (g_frame_count s))).
  pose proof (core_count s H). lia.
Qed.

Lemma taken_wf s i s' :
  pmm_core s -> 0 <= i < g_frame_count s -> bit (g_alloc_bm s) i = false ->
  taken s i s' -> pmm_wf s'.
Proof.
  intros Hc Hi Hf (bm & Hlen & Hbits & ->). pose proof (core_free_bounds s Hc).
  destruct Hc as [Hn Ht Hm Hal Hul Hfu Hfc].
  constructor; [|simpl; lia|done]. constructor; simpl; try done; try lia.
  - intros j Hj. rewrite Hbits by lia. case_decide; [done|]. by apply Hfu.
  - rewrite Hfc. symmetry. apply (nclear_flip _ _ _ i); [lia| |done|].
    + intros j ? ?. rewrite Hbits by lia. case_decide; congruence.
    + rewrite Hbits by lia. by case_decide.
Qed.

Lemma released_wf s i s' :
  pmm_wf s -> 0 <= i < g_frame_count s -> bit (g_usable_bm s) i = true ->
  bit (g_alloc_bm s) i = true -> released s i s' -> pmm_wf s'.
Proof.
  intros [Hc Hh Hl] Hi Hu Ha (bm & Hlen & Hbits & ->).
  destruct Hc as [Hn Ht Hm Hal Hul Hfu Hfc].
  constructor; [|simpl; lia|done]. constructor; simpl; try done; try lia.
  - intros j Hj. rewrite Hbits by lia. case_decide; [by subst|]. by apply Hfu.
  - rewrite Hfc. enough (nclear (g_alloc_bm s) (Z.to_nat (g_frame_count s)) =
      nclear bm (Z.to_nat (g_frame_count s)) - 1) by lia.
    apply (nclear_flip _ _ _ i); [lia| | |done].
    + intros j ? ?. rewrite Hbits by lia. case_decide; congruence.
    + rewrite Hbits by lia. by case_decide.
Qed.

Lemma scan_spec n i s :
  pmm_core s -> g_memlock s = 1 -> 0 <= i -> i + Z.of_nat n <= g_frame_count s ->
  ((forall k, i <= k < i + Z.of_nat n -> bit (g_alloc_bm s) k = true) /\ scan n i s = Ret None s) \/
  (exists j s', i <= j < i + Z.of_nat n /\ bit (g_alloc_bm s) j = false /\
     (forall k, i <= k < j -> bit (g_alloc_bm s) k = true) /\
     scan n i s = Ret (Some (j * 4096)) s' /\ taken s j s').
Proof.
  intros Hc Hl. revert i. induction n as [|n IH]; intros i Hi Hn.
  { left. split; [lia|done]. }
  pose proof Hc as [? ? ? Hal Hul Hfu ?].
  cbn [scan]. rewrite (bind_Ret _ _ _ _ _ (usable_test_ok s i ltac:(lia))).
  destruct (bit (g_alloc_bm s) i) eqn:Ea.
  - assert (Hgo : scan (S n) i s = scan n (i + 1) s).
    { cbn [scan]. rewrite (bind_Ret _ _ _ _ _ (usable_test_ok s i ltac:(lia))).
      destruct (bit (g_usable_bm s) i); [|done].
      rewrite (bind_Ret _ _ _ _ _ (alloc_test_ok s i ltac:(lia))). by rewrite Ea. }
    cbn [scan] in Hgo. rewrite (bind_Ret _ _ _ _ _ (usable_test_ok s i ltac:(lia))) in Hgo.
    rewrite Hgo. destruct (IH (i + 1)) as [[Hall He]|(j & s' & Hj & Hf & Hb & He & Ht)]; [lia|lia| |].
    + left. split; [|done]. intros k Hk. destruct (decide (k = i)) as [->|]; [done|]. apply Hall. lia.
    + right. exists j, s'. split_and!; try done; try lia.
      intros k Hk. destruct (decide (k = i)) as [->|]; [done|]. apply Hb. lia.
  - right. exists i. rewrite (Hfu i) by (done || lia).
    rewrite (bind_Ret _ _ _ _ _ (alloc_test_ok s i ltac:(lia))). rewrite Ea. simpl.
    destruct (alloc_set_ok s i ltac:(lia)) as (bm & Hset & Hlen & Hbits).
    rewrite (bind_Ret _ _ _ _ _ Hset). eexists. split_and!; try done; try lia.
    + unfold bind, modify, get, unlock_mem, spinlock_release, ret. simpl. rewrite Hl. simpl.
      unfold frame_addr_of, PAGE_SIZE. rewrite (wrap_small _ (i * 4096)) by lia. done.
    + exists bm. split_and!; try done. pose proof (core_free_bounds s Hc).
      assert (0 < g_free_count s).
      { rewrite core_free_count0. destruct (decide (nclear (g_alloc_bm s) (Z.to_nat (g_frame_count s)) = 0)) as [Hz|];
          [|pose proof (nclear_bounds (g_alloc_bm s) (Z.to_nat (g_frame_count s))); lia].
        rewrite (nclear_zero _ _ i Hz) in Ea by lia. done. }
      unfold set_memlock, set_hint, set_free_count, set_alloc_bm. simpl.
      rewrite !wrap_small by lia. done.
Qed.

(** [i] is the first free frame met when searching from the hint and wrapping
    round once. *)
Definition next_fit (s : pmm) (i : Z) : Prop :=
  bit (g_alloc_bm s) i = false /\
  ((g_hint s <= i < g_frame_count s /\ forall k, g_hint s <= k < i -> bit (g_alloc_bm s) k = true) \/
   (0 <= i < g_hint s /\ (forall k, g_hint s <= k < g_frame_count s -> bit (g_alloc_bm s) k = true) /\
      forall k, 0 <= k < i -> bit (g_alloc_bm s) k = true)).

Lemma next_fit_range s i : pmm_wf s -> next_fit s i -> 0 <= i < g_frame_count s.
Proof. intros [_ ? _] [_ [[? _]|[? _]]]; lia. Qed.

Lemma core_set_memlock s l : pmm_core s -> pmm_core (set_memlock l s).
Proof. by intros []. Qed.

Lemma frame_alloc_next_fit s :
  pmm_wf s -> 0 < g_free_count s ->
  exists i s', frame_alloc s = Ret (i * 4096) s' /\ next_fit s i /\ taken s i s'.
Proof.
  intros [Hc Hh Hl] Hpos. unfold frame_alloc, lock_mem.
  rewrite (bind_Ret _ _ _ _ _ (spinlock_acquire_free _ _ _ Hl)).
  rewrite bind_get. simpl.
  rewrite (proj2 (Z.eqb_neq (g_free_count s) 0)) by lia.
  set (s1 := set_memlock 1 s).
  assert (Hc1 : pmm_core s1) by (by apply core_set_memlock).
  destruct (scan_spec (Z.to_nat (g_frame_count s - g_hint s)) (g_hint s) s1 Hc1 eq_refl)
    as [[Hall He]|(j & s' & Hj & Hf & Hb & He & Ht)]; [lia|simpl; lia| |].
  2: { exists j, s'. rewrite (bind_Ret _ _ _ _ _ He). simpl in *. split_and!; [done| |done].
       split; [done|]. left. split; [lia|done]. }
  rewrite (bind_Ret _ _ _ _ _ He).
  destruct (scan_spec (Z.to_nat (g_hint s)) 0 s1 Hc1 eq_refl)
    as [[Hall2 He2]|(j & s' & Hj & Hf & Hb & He2 & Ht)]; [lia|simpl; lia| |].
  2: { exists j, s'. rewrite (bind_Ret _ _ _ _ _ He2). simpl in *. split_and!; [done| |done].
       split; [done|]. right. split_and!; [lia|lia| |done]. intros k Hk. apply Hall. lia. }
  exfalso. destruct (nclear_pos (g_alloc_bm s) (Z.to_nat (g_frame_count s))) as (i & Hi & Hbit).
  { by rewrite <- (core_free_count s Hc). }
  simpl in *. destruct (decide (i < g_hint s)).
  - rewrite Hall2 in Hbit by lia. done.
  - rewrite Hall in Hbit by lia. done.
Qed.

(** The frame at byte address [p] is free. *)
Definition frame_free_at (s : pmm) (p : Z) : Prop :=
  p mod 4096 = 0 /\ 0 <= p < 4096 * g_frame_count s /\ bit (g_alloc_bm s) (p / 4096) = false.

(** C3. [frame_alloc] on a well-formed allocator with free frames returns (it
    neither panics, faults nor hangs): the result is a page-aligned frame that
    was free and USABLE, is the first free one at or after the hint (searching
    round once), is marked allocated afterwards while every other frame keeps
    its state, the free count drops by one, and the invariant is re-established
    with the lock released. *)
Theorem frame_alloc_correct s :
  pmm_wf s -> 0 < g_free_count s ->
  wp (frame_alloc s) (fun p s' =>
    pmm_wf s' /\ frame_free_at s p /\ next_fit s (p / 4096) /\
    bit (g_usable_bm s) (p / 4096) = true /\
    (forall i, 0 <= i -> bit (g_alloc_bm s') i = (bit (g_alloc_bm s) i || (i =? p / 4096))) /\
    g_usable_bm s' = g_usable_bm s /\ g_free_count s' = g_free_count s - 1).
Proof.
  intros Hwf Hpos.
  destruct (frame_alloc_next_fit s Hwf Hpos) as (i & s' & -> & Hnf & Ht).
  pose proof (next_fit_range s i Hwf Hnf) as Hi. pose proof Hwf as [Hc _ _].
  pose proof (proj1 Hnf) as Hfree. simpl. rewrite Z.div_mul by lia.
  split; [by eapply taken_wf|]. split.
  { unfold frame_free_at. rewrite Z.div_mul by lia. split_and!; [dm_lia|lia|lia|done]. }
  split; [done|]. split; [by apply (core_free_usable s Hc)|].
  destruct Ht as (bm & Hlen & Hbits & ->). simpl. split_and!; try done.
  intros j Hj. rewrite Hbits by done. case_decide as Hd.
  - subst. rewrite Z.eqb_refl. by rewrite orb_true_r.
  - rewrite (proj2 (Z.eqb_neq _ _)) by congruence. by rewrite orb_false_r.
Qed.

(** With no free frame the call panics with the out-of-memory message, after
    releasing the lock, and changes nothing. *)
Lemma frame_alloc_oom s :
  pmm_wf s -> g_free_count s = 0 ->
  frame_alloc s = Panic "frame_alloc: OOM" s.
Proof.
  intros [Hc Hh Hl] Hz. unfold frame_alloc, lock_mem.
  rewrite (bind_Ret _ _ _ _ _ (spinlock_acquire_free _ _ _ Hl)).
  unfold bind, get, unlock_mem, spinlock_release, panic. simpl. rewrite Hz. simpl.
  destruct s; simpl in *; by subst.
Qed.

(** Every branch of [n_frame_free] on a well-formed allocator. *)
Lemma n_frame_free_cases s p :
  pmm_wf s -> 0 <= p ->
  let i := p / 4096 in
  (p mod 4096 <> 0 /\ n_frame_free p s = Panic "frame_free: unaligned paddr" s) \/
  (p mod 4096 = 0 /\ g_max_phys s <= p /\
     n_frame_free p s = Panic "frame_free: out-of-bounds paddr" s) \/
  (p mod 4096 = 0 /\ p < g_max_phys s /\ bit (g_usable_bm s) i = false /\
     n_frame_free p s = Panic "frame_free: non-usable paddr" s) \/
  (p mod 4096 = 0 /\ p < g_max_phys s /\ bit (g_usable_bm s) i = true /\
     bit (g_alloc_bm s) i = false /\
     n_frame_free p s = Panic "frame_free: double-free paddr" s) \/
  (p mod 4096 = 0 /\ p < g_max_phys s /\ bit (g_usable_bm s) i = true /\
     bit (g_alloc_bm s) i = true /\
     exists s', n_frame_free p s = Ret tt s' /\ released s i s').
Proof.
  intros [Hc Hh Hl] Hp i. pose proof Hc as [Hn Ht Hm Hal Hul Hfu Hfc].
  unfold n_frame_free. rewrite bind_get. unfold is_set. rewrite land_page_low.
  destruct (Z.eqb_spec (p mod 4096) 0) as [Hz|]; [|left; done]. right. simpl.
  destruct (Z.geb_spec p (g_max_phys s)); [left; done|]. right.
  assert (Hi : 0 <= i < g_frame_count s) by (subst i; dm_lia).
  unfold lock_mem. rewrite (bind_Ret _ _ _ _ _ (spinlock_acquire_free _ _ _ Hl)).
  change (frame_index_of p) with i. set (s1 := set_memlock 1 s).
  assert (Hs1 : forall A (c : K pmm A), (do! unlock_mem in c) s1 = c s).
  { intros A c. unfold bind, unlock_mem, spinlock_release. simpl.
    f_equal. destruct s; simpl in *; by subst. }
  rewrite (bind_Ret _ _ _ _ _ (usable_test_ok s1 i ltac:(simpl; lia))). simpl.
  destruct (bit (g_usable_bm s) i) eqn:Eu; simpl; [|left; by rewrite Hs1]. right.
  rewrite (bind_Ret _ _ _ _ _ (alloc_test_ok s1 i ltac:(simpl; lia))). simpl.
  destruct (bit (g_alloc_bm s) i) eqn:Ea; simpl; [|left; by rewrite Hs1]. right.
  split_and!; try done.
  destruct (alloc_clear_ok s1 i ltac:(simpl; lia)) as (bm & Hset & Hlen & Hbits).
  rewrite (bind_Ret _ _ _ _ _ Hset).
  pose proof (core_free_bounds s Hc) as Hfb.
  unfold bind, get, modify, when, unlock_mem, spinlock_release. simpl.
  rewrite (wrap_small _ (g_free_count s + 1)) by lia.
  destruct (Z.ltb_spec i (g_hint s)); eexists; (split; [done|]); exists bm; split_and!; try done;
    unfold set_memlock, set_hint, set_free_count, set_alloc_bm; simpl; f_equal; lia.
Qed.

(** ** Abstract view: the set of free frames *)
Definition free_frames (s : pmm) : gset Z :=
  list_to_set ((fun i => 4096 * i) <$>
    filter (fun i => bit (g_alloc_bm s) i = false) (seqZ 0 (g_frame_count s))).

Lemma elem_of_free_frames s p : p ∈ free_frames s <-> frame_free_at s p.
Proof.
  unfold free_frames, frame_free_at. rewrite elem_of_list_to_set, list_elem_of_fmap.
  setoid_rewrite list_elem_of_filter. setoid_rewrite elem_of_seqZ. split.
  - intros (i & -> & Hb & Hi). rewrite (Z.mul_comm 4096 i), Z.div_mul by lia.
    split_and!; [dm_lia|lia|lia|done].
  - intros (Hm & Hr & Hb). exists (p / 4096). split_and!; [dm_lia|done|dm_lia|dm_lia].
Qed.

Lemma filter_seqZ_nclear bm n :
  Z.of_nat (length (filter (fun i => bit bm i = false) (seqZ 0 (Z.of_nat n)))) = nclear bm n.
Proof.
  induction n as [|n IH]; [done|].
  rewrite Nat2Z.inj_succ, <- Z.add_1_r, seqZ_app, list.filter_app, length_app by lia. simpl nclear.
  rewrite <- IH. rewrite Z.add_0_l. 
  assert (Hone : seqZ (Z.of_nat n) 1 = [Z.of_nat n]) by (unfold seqZ; simpl; by f_equal).
  rewrite Hone, list.filter_cons, list.filter_nil.
  destruct (bit bm (Z.of_nat n)); case_decide; simpl; try done; lia.
Qed.

Lemma size_free_frames s : pmm_core s -> Z.of_nat (size (free_frames s)) = g_free_count s.
Proof.
  intros Hc. pose proof (core_count s Hc). unfold free_frames. rewrite size_list_to_set.
  - rewrite length_fmap. rewrite (core_free_count s Hc), <- filter_seqZ_nclear.
    by rewrite Z2Nat.id by lia.
  - apply NoDup_fmap_2_strong; [intros; lia|]. apply list.NoDup_filter, NoDup_seqZ.
Qed.

Lemma taken_free_frames s i s' :
  0 <= i < g_frame_count s -> taken s i s' -> free_frames s' = free_frames s ∖ {[i * 4096]}.
Proof.
  intros Hi (bm & _ & Hbits & ->). apply set_eq. intros p.
  rewrite elem_of_difference, !elem_of_free_frames, elem_of_singleton.
  unfold frame_free_at. simpl. split.
  - intros (Hm & Hr & Hb). rewrite Hbits in Hb by dm_lia. case_decide as Hd; [done|].
    split; [done|]. dm_lia.
  - intros [(Hm & Hr & Hb) Hne]. split_and!; [done|lia|lia|].
    rewrite Hbits by dm_lia. case_decide as Hd; [|done]. dm_lia.
Qed.

Lemma released_free_frames s i s' :
  0 <= i < g_frame_count s -> released s i s' -> free_frames s' = {[i * 4096]} ∪ free_frames s.
Proof.
  intros Hi (bm & _ & Hbits & ->). apply set_eq. intros p.
  rewrite elem_of_union, !elem_of_free_frames, elem_of_singleton.
  unfold frame_free_at. simpl. split.
  - intros (Hm & Hr & Hb). rewrite Hbits in Hb by dm_lia. case_decide as Hd; [left; dm_lia|].
    right. done.
  - intros [->|(Hm & Hr & Hb)].
    + rewrite Z.div_mul by lia. split_and!; [dm_lia|lia|lia|]. rewrite Hbits by lia. by case_decide.
    + split_and!; [done|lia|lia|]. rewrite Hbits by dm_lia. by case_decide.
Qed.

(** A frame that may be handed back: usable, currently allocated, in range. *)
Definition returnable (s : pmm) (p : Z) : Prop :=
  p mod 4096 = 0 /\ 0 <= p < g_max_phys s /\ bit (g_usable_bm s) (p / 4096) = true /\
  p ∉ free_frames s.

Lemma returnable_bit s p :
  pmm_wf s -> returnable s p ->
  0 <= p / 4096 < g_frame_count s /\ bit (g_alloc_bm s) (p / 4096) = true.
Proof.
  intros [Hc _ _] (Hm & Hr & Hu & Hnf). pose proof (core_topo s Hc).
  assert (0 <= p / 4096 < g_frame_count s) by dm_lia. split; [done|].
  destruct (bit (g_alloc_bm s) (p / 4096)) eqn:E; [done|]. destruct Hnf.
  apply elem_of_free_frames. split_and!; [done|lia|dm_lia|done].
Qed.

Lemma n_frame_free_returns s p :
  pmm_wf s -> returnable s p ->
  exists s', n_frame_free p s = Ret tt s' /\ released s (p / 4096) s'.
Proof.
  intros Hwf Hret. destruct (returnable_bit s p Hwf Hret) as [Hi Ha].
  destruct Hret as (Hm & Hr & Hu & _).
  destruct (n_frame_free_cases s p Hwf ltac:(lia)) as
    [[? _]|[(?&?&_)|[(?&?&?&_)|[(?&?&?&?&_)|(?&?&?&?&?)]]]]; try congruence; try lia.
Qed.

(** C10. [n_frame_free] accepts exactly the returnable frames: it returns, with
    the frame and only that frame added to the free set and the free count up by
    one, if and only if the address is page aligned, below the top of memory,
    USABLE and not free already; in every other case it panics and the
    allocator's state (lock included) is as before the call. *)
Theorem n_frame_free_correct s p :
  pmm_wf s -> 0 <= p ->
  (returnable s p /\ wp (n_frame_free p s) (fun _ s' =>
      pmm_wf s' /\ free_frames s' = {[p]} ∪ free_frames s /\
      g_free_count s' = g_free_count s + 1 /\ g_usable_bm s' = g_usable_bm s)) \/
  (~ returnable s p /\ exists msg, n_frame_free p s = Panic msg s).
Proof.
  intros Hwf Hp. pose proof Hwf as [Hc _ _]. pose proof (core_topo s Hc) as Ht.
  destruct (n_frame_free_cases s p Hwf Hp) as
    [[? He]|[(?&?&He)|[(?&?&?&He)|[(?&?&?&?&He)|(Hm&?&Hu&Ha&s'&He&Hrel)]]]].
  1-4: right; split; [|by eexists].
  - by intros (?&_).
  - intros (_&?&_); lia.
  - intros (_&_&?&_); congruence.
  - intros Hr. pose proof (returnable_bit s p Hwf Hr). destruct_and?; congruence.
  - left. assert (Hi : 0 <= p / 4096 < g_frame_count s) by dm_lia.
    assert (Hpe : p / 4096 * 4096 = p) by dm_lia.
    split.
    + split_and!; try done. rewrite elem_of_free_frames. intros (_&_&?). congruence.
    + rewrite He. simpl. split; [by eapply released_wf|].
      split; [by rewrite (released_free_frames s (p / 4096) s' Hi Hrel), Hpe|].
      destruct Hrel as (bm & _ & _ & ->). done.
Qed.

(** Allocation and release refine a set of free frames: [frame_alloc] picks
    a member of the set and removes exactly it, and giving the frame straight
    back with [n_frame_free] restores the set, the free count and every
    allocation bit. *)
Theorem frame_alloc_free_roundtrip s :
  pmm_wf s -> 0 < g_free_count s ->
  wp (frame_alloc s) (fun p s1 =>
    p ∈ free_frames s /\ free_frames s1 = free_frames s ∖ {[p]} /\
    wp (n_frame_free p s1) (fun _ s2 =>
      pmm_wf s2 /\ free_frames s2 = free_frames s /\ g_free_count s2 = g_free_count s /\
      forall i, 0 <= i -> bit (g_alloc_bm s2) i = bit (g_alloc_bm s) i)).
Proof.
  intros Hwf Hpos. destruct (frame_alloc_next_fit s Hwf Hpos) as (i & s1 & -> & Hnf & Ht).
  pose proof (next_fit_range s i Hwf Hnf) as Hi. pose proof Hwf as [Hc _ _].
  pose proof (proj1 Hnf) as Hfree.
  pose proof (taken_wf s i s1 Hc Hi Hfree Ht) as Hwf1.
  pose proof (taken_free_frames s i s1 Hi Ht) as Hff1. simpl.
  assert (Hin : i * 4096 ∈ free_frames s).
  { apply elem_of_free_frames. split_and!; [dm_lia|lia|lia|by rewrite Z.div_mul by lia]. }
  split; [done|]. split; [done|].
  assert (Hret : returnable s1 (i * 4096)).
  { pose proof Ht as (bm & _ & _ & ->). pose proof (core_topo s Hc).
    split_and!; simpl; [dm_lia|lia|dm_lia| |set_solver].
    rewrite Z.div_mul by lia. by apply (core_free_usable s Hc). }
  destruct (n_frame_free_returns s1 (i * 4096) Hwf1 Hret) as (s2 & -> & Hrel).
  destruct (returnable_bit _ _ Hwf1 Hret) as [Hi1 Ha1]. destruct Hret as (_&_&Hu1&_).
  rewrite Z.div_mul in * by lia. simpl.
  split; [by eapply released_wf|].
  rewrite (released_free_frames s1 i s2 Hi1 Hrel), Hff1.
  split. { apply set_eq. intros x. destruct (decide (x = i * 4096)); set_solver. }
  destruct Hrel as (bm2 & _ & Hb2 & ->). destruct Ht as (bm1 & _ & Hb1 & ->). simpl in *.
  split; [lia|]. intros j Hj. rewrite Hb2, Hb1 by done. case_decide; [by subst|done].
Qed.

(** ** Clients: any interleaving of allocations and releases *)

(** A step of the clients: some client allocates a frame, or a client that owns
    a frame gives it back.  [own] lists the frames the clients hold. *)
Inductive client_step : pmm * list Z -> pmm * list Z -> Prop :=
| client_alloc s own p s' :
    frame_alloc s = Ret p s' -> client_step (s, own) (s', p :: own)
| client_free s own1 p own2 s' :
    n_frame_free p s = Ret tt s' -> client_step (s, own1 ++ p :: own2) (s', own1 ++ own2).

Definition client_inv (total : Z) (c : pmm * list Z) : Prop :=
  pmm_wf c.1 /\ NoDup c.2 /\ (forall p, p ∈ c.2 -> returnable c.1 p) /\
  g_free_count c.1 + Z.of_nat (length c.2) = total.

Lemma client_alloc_inv t s own p s' :
  client_inv t (s, own) -> frame_alloc s = Ret p s' -> client_inv t (s', p :: own).
Proof.
  intros (Hwf & Hnd & Hown & Ht) He. simpl in *. pose proof Hwf as [Hc _ _].
  pose proof (core_free_bounds s Hc).
  destruct (decide (g_free_count s = 0)) as [Hz|].
  { by rewrite (frame_alloc_oom s Hwf Hz) in He. }
  destruct (frame_alloc_next_fit s Hwf ltac:(lia)) as (i & s1 & He1 & Hnf & Htk).
  rewrite He1 in He. simplify_eq.
  pose proof (next_fit_range s i Hwf Hnf) as Hi. pose proof (proj1 Hnf) as Hfree.
  pose proof (taken_wf s i s' Hc Hi Hfree Htk) as Hwf1.
  pose proof (taken_free_frames s i s' Hi Htk) as Hff.
  assert (Hin : i * 4096 ∈ free_frames s).
  { apply elem_of_free_frames. split_and!; [dm_lia|lia|lia|by rewrite Z.div_mul by lia]. }
  destruct Htk as (bm & Hlen & Hb & ->). pose proof (core_topo s Hc).
  split; [done|]. split; [|split]; simpl.
  - constructor; [|done]. intros Hx. by destruct (Hown _ Hx) as (_&_&_&?).
  - intros q [->|Hq]%elem_of_cons.
    + split_and!; simpl; [dm_lia|lia|dm_lia| |rewrite Hff; set_solver].
      rewrite Z.div_mul by lia. by apply (core_free_usable s Hc).
    + destruct (Hown q Hq) as (?&?&?&?). split_and!; simpl; try done; try lia.
      rewrite Hff. set_solver.
  - lia.
Qed.

Lemma client_free_inv t s own1 p own2 s' :
  client_inv t (s, own1 ++ p :: own2) -> n_frame_free p s = Ret tt s' ->
  client_inv t (s', own1 ++ own2).
Proof.
  intros (Hwf & Hnd & Hown & Ht) He. simpl in *.
  assert (Hret : returnable s p) by (apply Hown; set_solver).
  destruct (n_frame_free_returns s p Hwf Hret) as (s1 & He1 & Hrel).
  rewrite He1 in He. simplify_eq.
  destruct (returnable_bit _ _ Hwf Hret) as [Hi Ha]. pose proof Hret as (Hm&Hr&Hu&_).
  pose proof (released_wf s _ s' Hwf Hi Hu Ha Hrel) as Hwf1.
  pose proof (released_free_frames s _ s' Hi Hrel) as Hff.
  assert (Hpe : p / 4096 * 4096 = p) by dm_lia.
  destruct Hrel as (bm & Hlen & Hb & ->). rewrite Hpe in Hff.
  apply NoDup_app in Hnd as (Hnd1 & Hdis & Hnd2). apply NoDup_cons in Hnd2 as [Hp2 Hnd2].
  split; [done|]. split; [|split]; simpl.
  - apply NoDup_app. split_and!; try done. intros x Hx Hx2. apply (Hdis x Hx). set_solver.
  - intros q Hq. destruct (Hown q ltac:(set_solver)) as (?&?&?&?).
    split_and!; simpl; try done; try lia. rewrite Hff.
    assert (q <> p); [|set_solver]. intros ->. apply elem_of_app in Hq as [Hq|Hq]; [|done].
    apply (Hdis p Hq). set_solver.
  - rewrite !length_app. simpl. lia.
Qed.

(** C11. No frame is ever handed out twice: starting from a well-formed allocator
    nobody owns a frame of, after any sequence of allocations and releases by
    its clients the frames they hold are pairwise distinct, none of them is in
    the free set, each can be released without a panic, and free frames plus
    held frames add up to the initial free count (nothing leaks). *)
Theorem frame_clients_safe s0 s own :
  pmm_wf s0 -> rtc client_step (s0, []) (s, own) ->
  pmm_wf s /\ NoDup own /\ (forall p, p ∈ own -> p ∉ free_frames s) /\
  (forall p, p ∈ own -> exists s', n_frame_free p s = Ret tt s') /\
  g_free_count s + Z.of_nat (length own) = g_free_count s0.
Proof.
  intros Hwf Hr.
  assert (client_inv (g_free_count s0) (s, own)) as (Hwf' & Hnd & Hown & Hsum).
  { revert Hr. generalize (s, own). apply rtc_ind_r.
    - split_and!; try done; simpl; [constructor|intros p Hp; by apply elem_of_nil in Hp|lia].
    - intros c1 c2 _ [] Hinv; [by eapply client_alloc_inv|by eapply client_free_inv]. }
  split_and!; try done.
  - intros p Hp. by apply Hown.
  - intros p Hp. destruct (n_frame_free_returns s p Hwf' (Hown p Hp)) as (s' & ? & _). by exists s'.
Qed.

(** An allocator of eight frames, the upper four free. *)
Definition demo_pmm : pmm := Pmm 0 0 [0x0F] [0xFF] 8 32768 4 0 0.

Lemma demo_pmm_wf : pmm_wf demo_pmm.
Proof.
  constructor; [|simpl; lia|done]. constructor; simpl; try done; try lia.
  intros i Hi _.
  assert (i = 0 \/ i = 1 \/ i = 2 \/ i = 3 \/ i = 4 \/ i = 5 \/ i = 6 \/ i = 7) by lia.
  by destruct_or!; subst.
Qed.

Lemma frame_alloc_correct_witness :
  wp (frame_alloc demo_pmm) (fun p s' => pmm_wf s' /\ frame_free_at demo_pmm p).
Proof.
  eapply wp_mono; [exact (frame_alloc_correct demo_pmm demo_pmm_wf eq_refl)|].
  intros p s' (Hwf & Hf & _). exact (conj Hwf Hf).
Defined.

Lemma n_frame_free_correct_witness :
  (returnable demo_pmm 4096 /\ wp (n_frame_free 4096 demo_pmm) (fun _ s' =>
     g_free_count s' = 5)) \/ exists msg, n_frame_free 4096 demo_pmm = Panic msg demo_pmm.
Proof.
  destruct (n_frame_free_correct demo_pmm 4096 demo_pmm_wf ltac:(lia)) as [[Hr Hw]|[_ Hp]].
  - left. split; [exact Hr|]. eapply wp_mono; [exact Hw|]. intros [] s' (_&_&He&_). exact He.
  - right. exact Hp.
Defined.

Lemma frame_alloc_free_roundtrip_witness :
  wp (frame_alloc demo_pmm) (fun p s1 =>
    wp (n_frame_free p s1) (fun _ s2 => free_frames s2 = free_frames demo_pmm)).
Proof.
  eapply wp_mono; [exact (frame_alloc_free_roundtrip demo_pmm demo_pmm_wf eq_refl)|].
  intros p s1 (_&_&Hw). eapply wp_mono; [exact Hw|]. intros [] s2 (_&He&_). exact He.
Defined.

Lemma frame_clients_safe_witness :
  exists s, rtc client_step (demo_pmm, []) (s, [20480; 16384]) /\ NoDup [20480; 16384].
Proof.
  assert (Hr : exists s, rtc client_step (demo_pmm, []) (s, [20480; 16384])).
  { eexists. eapply rtc_l; [apply client_alloc; vm_compute; reflexivity|].
    eapply rtc_l; [apply client_alloc; vm_compute; reflexivity|]. apply rtc_refl. }
  destruct Hr as [s Hr]. exists s. split; [exact Hr|].
  exact (proj1 (proj2 (frame_clients_safe demo_pmm s [20480; 16384] demo_pmm_wf Hr))).
Defined.

End NeoFrame.
