(* ===== verification/NeoFrameInit.v ===== *)
(** Correctness of [frame_init] ([src/src/neo_framealloc.c]): the hand-over from
    the bump allocator to the bitmap allocator.  The main theorem characterises
    exactly which frames are free afterwards. *)
From S2P Require Import Prelude Limine Lock EarlyAlloc NeoFrame.

Module NeoFrameInit.
Import EarlyAlloc NeoFrame.

(** Frame [i] meets the byte range [\[b, e)]. *)
Definition overlaps (i b e : Z) : bool :=
  (b <? e) && (b <? 4096 * (i + 1)) && (4096 * i <? e).

(** Frame [i] lies inside the byte range [\[b, e)]. *)
Definition inside (i b e : Z) : bool :=
  (b <=? 4096 * i) && (4096 * (i + 1) <=? e).

(** Everything but the bitmaps and the free count is unchanged. *)
Definition same_frame (s s' : pmm) : Prop :=
  g_alloc_ptr s' = g_alloc_ptr s /\ g_usable_ptr s' = g_usable_ptr s /\
  g_frame_count s' = g_frame_count s /\ g_max_phys s' = g_max_phys s /\
  g_hint s' = g_hint s /\ g_memlock s' = g_memlock s.

#[export] Instance same_frame_refl : Reflexive same_frame.
Proof. by intros s. Qed.
#[export] Instance same_frame_trans : Transitive same_frame.
Proof. intros s1 s2 s3 (?&?&?&?&?&?) (?&?&?&?&?&?). split_and!; congruence. Qed.

Lemma for_range_empty {S} i0 i1 (body : Z -> K S unit) s :
  i1 <= i0 -> for_range i0 i1 body s = Ret tt s.
Proof. intros. unfold for_range. by rewrite Z2Nat.nonpos by lia. Qed.

(** One round of the reservation loop. *)
Lemma mark_alloc_round s i :
  pmm_core s -> 0 <= i < g_frame_count s ->
  wp ((let! t := alloc_test i in
       when (negb t)
         (do! alloc_set i in
          let! s := get in
          when (negb (g_free_count s =? 0))
            (modify (set_free_count (u64 (g_free_count s - 1)))))) s)
    (fun _ s' => pmm_core s' /\ same_frame s s' /\ g_usable_bm s' = g_usable_bm s /\
       forall j, 0 <= j -> bit (g_alloc_bm s') j = bit (g_alloc_bm s) j || (j =? i)).
Proof.
  intros Hc Hi. pose proof Hc as [Hn Ht Hm Hal Hul Hfu Hfc].
  rewrite (bind_Ret _ _ _ _ _ (alloc_test_ok s i ltac:(lia))).
  destruct (bit (g_alloc_bm s) i) eqn:Ea; simpl.
  { split_and!; try done. intros j Hj. destruct (Z.eqb_spec j i) as [->|].
    - by rewrite Ea.
    - by rewrite orb_false_r. }
  destruct (alloc_set_ok s i ltac:(lia)) as (bm & Hset & Hlen & Hbits).
  rewrite (bind_Ret _ _ _ _ _ Hset), bind_get. simpl.
  pose proof (core_free_bounds s Hc).
  assert (Hflip : nclear bm (Z.to_nat (g_frame_count s)) = g_free_count s - 1).
  { rewrite Hfc. apply (nclear_flip _ _ _ i); [lia| |done|].
    - intros j ? ?. rewrite Hbits by lia. case_decide; congruence.
    - rewrite Hbits by lia. by case_decide. }
  pose proof (nclear_bounds bm (Z.to_nat (g_frame_count s))).
  rewrite (proj2 (Z.eqb_neq (g_free_count s) 0)) by lia. simpl.
  split_and!; try done.
  - constructor; simpl; try done; try lia.
    + intros j Hj. rewrite Hbits by lia. case_decide; [done|]. by apply Hfu.
    + rewrite wrap_small by lia. done.
  - intros j Hj. rewrite Hbits by done. case_decide as Hd.
    + subst. by rewrite Z.eqb_refl, orb_true_r.
    + rewrite (proj2 (Z.eqb_neq _ _)) by congruence. by rewrite orb_false_r.
Qed.

Lemma mark_range_allocated_spec s base end_ :
  pmm_core s -> 0 <= base < 2 ^ 64 -> end_ + 4095 < 2 ^ 64 ->
  wp (mark_range_allocated base end_ s) (fun _ s' =>
    pmm_core s' /\ same_frame s s' /\ g_usable_bm s' = g_usable_bm s /\
    forall i, 0 <= i < g_frame_count s ->
      bit (g_alloc_bm s') i = bit (g_alloc_bm s) i || overlaps i base end_).
Proof.
  intros Hc Hb He. unfold mark_range_allocated, overlaps.
  destruct (Z.leb_spec end_ base) as [Hle|Hlt].
  { simpl. split_and!; try done. intros i Hi.
    rewrite (proj2 (Z.ltb_ge base end_)) by lia. by rewrite orb_false_r. }
  rewrite (proj2 (Z.ltb_lt base end_)) by lia. simpl.
  rewrite ALIGN_DOWN_page, ALIGN_UP_page by lia. unfold frame_index_of, PAGE_SIZE.
  rewrite !(Z.mul_comm 4096), !Z.div_mul by lia.
  rewrite bind_get.
  set (i0 := base / 4096).
  set (i1 := if (end_ + 4095) / 4096 >? g_frame_count s then g_frame_count s
             else (end_ + 4095) / 4096).
  assert (Hi1 : i1 <= g_frame_count s /\ i1 <= (end_ + 4095) / 4096 /\
    (i1 = g_frame_count s \/ i1 = (end_ + 4095) / 4096)).
  { subst i1. destruct (Z.gtb_spec ((end_ + 4095) / 4096) (g_frame_count s)); lia. }
  assert (Hin : forall i, 0 <= i < g_frame_count s ->
    (base <? (i + 1) * 4096) && (i * 4096 <? end_) = (i0 <=? i) && (i <? i1)).
  { intros i Hi. subst i0. clearbody i1.
    apply eq_true_iff_eq. rewrite !andb_true_iff, !Z.ltb_lt, Z.leb_le. dm_lia. }
  clearbody i1. assert (0 <= i0) by (subst i0; dm_lia). clearbody i0.
  destruct (decide (i1 <= i0)) as [Hemp|Hne].
  { rewrite for_range_empty by done. simpl. split_and!; try done. intros i Hi.
    rewrite !(Z.mul_comm 4096), Hin by done.
    destruct (Z.leb_spec i0 i); destruct (Z.ltb_spec i i1); simpl; try lia; by rewrite orb_false_r. }
  eapply wp_mono.
  { apply (wp_for_range (fun j s' => pmm_core s' /\ same_frame s s' /\
      g_usable_bm s' = g_usable_bm s /\
      forall i, 0 <= i < g_frame_count s ->
        bit (g_alloc_bm s') i = bit (g_alloc_bm s) i || ((i0 <=? i) && (i <? j)))).
    - lia.
    - split_and!; try done. intros i Hi.
      destruct (Z.leb_spec i0 i); destruct (Z.ltb_spec i i0); simpl; try lia; by rewrite orb_false_r.
    - intros j s1 Hj (Hc1 & Hsf & Hus & Hbits).
      destruct (Hsf) as (_&_&Hcnt&_).
      eapply wp_mono; [apply mark_alloc_round; [done|rewrite Hcnt; lia]|].
      intros [] s2 (Hc2 & Hsf2 & Hus2 & Hb2). split_and!; try done; [by etrans|congruence|].
      intros i Hi. rewrite Hb2, Hbits by lia. rewrite <- orb_assoc. f_equal.
      destruct (Z.leb_spec i0 i), (Z.ltb_spec i j), (Z.ltb_spec i (j + 1)), (Z.eqb_spec i j);
        simpl; try done; lia. }
  intros [] s' (Hc' & Hsf & Hus & Hbits). split_and!; try done.
  intros i Hi. rewrite Hbits by done. f_equal. symmetry. rewrite !(Z.mul_comm 4096). by apply Hin.
Qed.

(** One round of the releasing loop. *)
Lemma mark_usable_round s i :
  pmm_core s -> 0 <= i < g_frame_count s ->
  wp ((let! u := usable_test i in
       do! when (negb u) (usable_set i) in
       let! t := alloc_test i in
       when t
         (do! alloc_clear i in
          let! s := get in
          modify (set_free_count (u64 (g_free_count s + 1))))) s)
    (fun _ s' => pmm_core s' /\ same_frame s s' /\
       (forall j, 0 <= j -> bit (g_usable_bm s') j = bit (g_usable_bm s) j || (j =? i)) /\
       (forall j, 0 <= j -> bit (g_alloc_bm s') j = bit (g_alloc_bm s) j && negb (j =? i))).
Proof.
  intros Hc Hi. pose proof Hc as [Hn Ht Hm Hal Hul Hfu Hfc].
  assert (exists ub, length ub = length (g_usable_bm s) /\
    (forall j, 0 <= j -> bit ub j = bit (g_usable_bm s) j || (j =? i)) /\
    (let! u := usable_test i in when (negb u) (usable_set i)) s = Ret tt (set_usable_bm ub s))
    as (ub & Hulen & Hub & Hue).
  { rewrite (bind_Ret _ _ _ _ _ (usable_test_ok s i ltac:(lia))).
    destruct (bit (g_usable_bm s) i) eqn:Eu; simpl.
    - exists (g_usable_bm s). split_and!; [done| |by destruct s].
      intros j Hj. destruct (Z.eqb_spec j i) as [->|]; [by rewrite Eu|by rewrite orb_false_r].
    - destruct (usable_set_ok s i ltac:(lia)) as (bm & -> & Hlen & Hbits). exists bm.
      split_and!; try done. intros j Hj. rewrite Hbits by done. case_decide as Hd.
      + subst. by rewrite Z.eqb_refl, orb_true_r.
      + rewrite (proj2 (Z.eqb_neq _ _)) by congruence. by rewrite orb_false_r. }
  set (s1 := set_usable_bm ub s) in *.
  rewrite <- bind_assoc, (bind_Ret _ _ _ _ _ Hue).
  rewrite (bind_Ret _ _ _ _ _ (alloc_test_ok s1 i ltac:(simpl; lia))).
  assert (Hfu1 : forall j, 0 <= j < g_frame_count s -> (j = i \/ bit (g_alloc_bm s) j = false) ->
    bit ub j = true).
  { intros j Hj Hor. rewrite Hub by lia. destruct (Z.eqb_spec j i) as [->|].
    - apply orb_true_r.
    - destruct Hor as [|Hf]; [done|]. rewrite Hfu; done. }
  simpl. destruct (bit (g_alloc_bm s) i) eqn:Ea; simpl.
  2: { split_and!; try done.
       - constructor; simpl; try done; try lia. intros j Hj Hf. apply Hfu1; auto.
       - intros j Hj. destruct (Z.eqb_spec j i) as [->|]; simpl; [by rewrite Ea|by rewrite andb_true_r]. }
  destruct (alloc_clear_ok s1 i ltac:(simpl; lia)) as (bm & Hset & Hlen & Hbits).
  rewrite (bind_Ret _ _ _ _ _ Hset), bind_get. simpl in *.
  pose proof (core_free_bounds s Hc).
  assert (Hflip : nclear (g_alloc_bm s) (Z.to_nat (g_frame_count s)) =
                  nclear bm (Z.to_nat (g_frame_count s)) - 1).
  { apply (nclear_flip _ _ _ i); [lia| | |done].
    - intros j ? ?. rewrite Hbits by lia. case_decide; congruence.
    - rewrite Hbits by lia. by case_decide. }
  split_and!; try done.
  - constructor; simpl; try done; try lia.
    + intros j Hj. rewrite Hbits by lia. intros Hf. apply Hfu1; [done|].
      case_decide; [by left|by right].
    + rewrite wrap_small by lia. lia.
  - intros j Hj. rewrite Hbits by done. case_decide as Hd.
    + subst. by rewrite Z.eqb_refl, andb_false_r.
    + rewrite (proj2 (Z.eqb_neq _ _)) by congruence. by rewrite andb_true_r.
Qed.

Lemma mark_range_usable_spec s base end_ :
  pmm_core s -> 0 <= base -> base + 4095 < 2 ^ 64 -> 0 <= end_ < 2 ^ 64 ->
  wp (mark_range_usable_and_free base end_ s) (fun _ s' =>
    pmm_core s' /\ same_frame s s' /\
    forall i, 0 <= i < g_frame_count s ->
      bit (g_usable_bm s') i = bit (g_usable_bm s) i || inside i base end_ /\
      bit (g_alloc_bm s') i = bit (g_alloc_bm s) i && negb (inside i base end_)).
Proof.
  intros Hc Hb Hb2 He. unfold mark_range_usable_and_free.
  assert (Hcover : forall i, 0 <= i < g_frame_count s -> inside i base end_ =
    ((base + 4095) / 4096 <=? i) && (i <? end_ / 4096)).
  { intros i Hi. unfold inside. apply eq_true_iff_eq.
    rewrite !andb_true_iff, !Z.leb_le, Z.ltb_lt. dm_lia. }
  assert (Hskip : (forall i, 0 <= i < g_frame_count s -> inside i base end_ = false) ->
    pmm_core s /\ same_frame s s /\ forall i, 0 <= i < g_frame_count s ->
      bit (g_usable_bm s) i = bit (g_usable_bm s) i || inside i base end_ /\
      bit (g_alloc_bm s) i = bit (g_alloc_bm s) i && negb (inside i base end_)).
  { intros Hno. split_and!; try done. intros i Hi. rewrite Hno by done.
    by rewrite orb_false_r, andb_true_r. }
  destruct (Z.leb_spec end_ base) as [Hle|Hlt].
  { simpl. apply Hskip. intros i Hi. unfold inside.
    destruct (Z.leb_spec base (4096 * i)), (Z.leb_spec (4096 * (i + 1)) end_); simpl; lia. }
  rewrite ALIGN_DOWN_page, ALIGN_UP_page by lia. unfold frame_index_of, PAGE_SIZE.
  rewrite !(Z.mul_comm 4096), !Z.div_mul by lia.
  set (i0 := (base + 4095) / 4096) in *.
  destruct (Z.leb_spec (end_ / 4096) i0) as [Hle2|Hlt2].
  { simpl. apply Hskip. intros i Hi. rewrite Hcover by done.
    destruct (Z.leb_spec i0 i), (Z.ltb_spec i (end_ / 4096)); simpl; lia. }
  rewrite bind_get.
  set (i1 := if end_ / 4096 >? g_frame_count s then g_frame_count s else end_ / 4096).
  assert (Hi1 : forall i, 0 <= i < g_frame_count s -> inside i base end_ = (i0 <=? i) && (i <? i1)).
  { intros i Hi. rewrite Hcover by done. subst i1.
    destruct (Z.gtb_spec (end_ / 4096) (g_frame_count s)); [|done]. f_equal.
    apply eq_true_iff_eq. rewrite !Z.ltb_lt. lia. }
  assert (i1 <= g_frame_count s)
    by (subst i1; destruct (Z.gtb_spec (end_ / 4096) (g_frame_count s)); lia).
  assert (0 <= i0) by (subst i0; dm_lia). clearbody i1 i0.
  destruct (decide (i1 <= i0)) as [Hemp|Hne].
  { rewrite for_range_empty by done. simpl. apply Hskip. intros i Hi. rewrite Hi1 by done.
    destruct (Z.leb_spec i0 i), (Z.ltb_spec i i1); simpl; lia. }
  eapply wp_mono.
  { apply (wp_for_range (fun j s' => pmm_core s' /\ same_frame s s' /\
      forall i, 0 <= i < g_frame_count s ->
        bit (g_usable_bm s') i = bit (g_usable_bm s) i || ((i0 <=? i) && (i <? j)) /\
        bit (g_alloc_bm s') i = bit (g_alloc_bm s) i && negb ((i0 <=? i) && (i <? j)))).
    - lia.
    - split_and!; try done. intros i Hi.
      destruct (Z.leb_spec i0 i), (Z.ltb_spec i i0); simpl; try lia;
        by rewrite orb_false_r, andb_true_r.
    - intros j s1 Hj (Hc1 & Hsf & Hbits). destruct (Hsf) as (_&_&Hcnt&_).
      eapply wp_mono; [apply mark_usable_round; [done|rewrite Hcnt; lia]|].
      intros [] s2 (Hc2 & Hsf2 & Hu2 & Ha2). split_and!; try done; [by etrans|].
      intros i Hi. destruct (Hbits i Hi) as [Hu Ha]. rewrite Hu2, Ha2, Hu, Ha by lia.
      rewrite <- orb_assoc, <- andb_assoc.
      destruct (Z.leb_spec i0 i), (Z.ltb_spec i j), (Z.ltb_spec i (j + 1)), (Z.eqb_spec i j);
        simpl; try done; lia. }
  intros [] s' (Hc' & Hsf & Hbits). split_and!; try done.
  intros i Hi. rewrite Hi1 by done. by apply Hbits.
Qed.

(** ** The whole of [frame_init] *)

Lemma max_phys_fold es mx :
  Forall entry_ok es -> 0 <= mx <= 2 ^ 52 ->
  let r := foldl (fun mx e => let end_ := u64 (me_base e + me_length e) in
                              if end_ >? mx then end_ else mx) mx es in
  mx <= r <= 2 ^ 52 /\ forall e, e ∈ es -> me_base e + me_length e <= r.
Proof.
  cbv zeta. revert mx. induction es as [|e es IH]; intros mx Hok Hmx.
  { simpl. split; [lia|]. intros e He. by apply elem_of_nil in He. }
  apply Forall_cons_1 in Hok as [(?&?&?) Hes]. cbn [foldl].
  rewrite wrap_small by lia.
  destruct (Z.gtb_spec (me_base e + me_length e) mx).
  - destruct (IH (me_base e + me_length e) Hes ltac:(lia)) as [Hr Hall]. split; [lia|].
    intros e' [->|He']%elem_of_cons; [lia|]. by apply Hall.
  - destruct (IH mx Hes ltac:(lia)) as [Hr Hall]. split; [lia|].
    intros e' [->|He']%elem_of_cons; [lia|]. by apply Hall.
Qed.

Lemma max_phys_of_spec es :
  Forall entry_ok es ->
  0 <= max_phys_of es <= 2 ^ 52 /\ forall e, e ∈ es -> me_base e + me_length e <= max_phys_of es.
Proof. intros Hok. by apply (max_phys_fold es 0 Hok). Qed.

Definition frames_of (es : list limine_memmap_entry) : Z := (max_phys_of es + 4095) / 4096.

Lemma compute_topology lim es s :
  memmap_req lim = Some es -> Forall entry_ok es -> 0 < max_phys_of es ->
  compute_max_phys_and_count lim s = Ret tt (set_topology (max_phys_of es) (frames_of es) s).
Proof.
  intros Hm Hok Hpos. unfold compute_max_phys_and_count. rewrite Hm.
  destruct es as [|e es']; [done|]. set (es := e :: es') in *.
  destruct (max_phys_of_spec es Hok) as [Hb _].
  rewrite bind_modify. rewrite ALIGN_UP_page by lia. unfold PAGE_SIZE.
  rewrite (Z.mul_comm 4096), Z.div_mul by lia. fold (frames_of es).
  rewrite (proj2 (Z.eqb_neq _ _)); [done|]. unfold frames_of. dm_lia.
Qed.

Lemma in_early_alloc (s : mm) :
  early_wf (mm_early s) -> 0 < early_left (mm_early s) ->
  wp (in_early early_alloc_page s) (fun p s' =>
    p = g_cursor (mm_early s) /\ mm_pmm s' = mm_pmm s /\ early_wf (mm_early s') /\
    g_base (mm_early s') = g_base (mm_early s) /\ g_end (mm_early s') = g_end (mm_early s) /\
    g_cursor (mm_early s') = g_cursor (mm_early s) + 4096 /\
    early_left (mm_early s') = early_left (mm_early s) - 1).
Proof.
  intros Hwf Hl. apply wp_zoom. eapply wp_mono; [by apply early_alloc_page_wf|].
  intros p e (->&?&?&?&?&?). by split_and!.
Qed.

Lemma early_block_spec pages (s : mm) :
  early_wf (mm_early s) -> 1 <= pages <= early_left (mm_early s) ->
  wp (early_block pages s) (fun p s' =>
    p = g_cursor (mm_early s) /\ mm_pmm s' = mm_pmm s /\ early_wf (mm_early s') /\
    g_base (mm_early s') = g_base (mm_early s) /\
    g_cursor (mm_early s') = g_cursor (mm_early s) + 4096 * pages /\
    early_left (mm_early s') = early_left (mm_early s) - pages).
Proof.
  intros Hwf Hp. unfold early_block. apply wp_bind.
  eapply wp_mono; [apply in_early_alloc; [done|lia]|].
  intros p s1 (->&Hpm&Hwf1&Hb&He&Hc&Hl). apply wp_bind. eapply wp_mono.
  { apply (wp_for_range (fun j s' => mm_pmm s' = mm_pmm s /\ early_wf (mm_early s') /\
      g_base (mm_early s') = g_base (mm_early s) /\
      g_cursor (mm_early s') = g_cursor (mm_early s) + 4096 * j /\
      early_left (mm_early s') = early_left (mm_early s) - j)); [lia|split_and!; try done; lia|].
    intros j s2 Hj (Hpm2&Hwf2&Hb2&Hc2&Hl2). apply wp_bind.
    eapply wp_mono; [apply in_early_alloc; [done|lia]|].
    intros p2 s3 (->&?&?&?&?&?&?). simpl. split_and!; try done; try congruence; lia. }
  intros [] s2 (?&?&?&?&?). simpl. by split_and!.
Qed.

Lemma bit_replicate_ones n i : 0 <= i < 8 * Z.of_nat n -> bit (replicate n 255) i = true.
Proof.
  intros Hi. unfold bit. rewrite lookup_replicate_2 by dm_lia. simpl.
  assert (Hm : 0 <= i mod 8 < 8) by dm_lia. generalize (i mod 8), Hm. clear.
  intros k Hk. assert (k = 0 \/ k = 1 \/ k = 2 \/ k = 3 \/ k = 4 \/ k = 5 \/ k = 6 \/ k = 7) by lia.
  by destruct_or!; subst.
Qed.

Lemma bit_replicate_zero n i : 0 <= i -> bit (replicate n 0) i = false.
Proof.
  intros Hi. unfold bit. destruct (replicate n 0 !! Z.to_nat (i / 8)) as [b|] eqn:E; simpl.
  - apply lookup_replicate in E as [-> _]. apply Z.testbit_0_l.
  - apply Z.testbit_0_l.
Qed.

Lemma nclear_all_set bm n : (forall i, 0 <= i < Z.of_nat n -> bit bm i = true) -> nclear bm n = 0.
Proof.
  induction n as [|n IH]; intros H; simpl; [done|].
  rewrite IH by (intros; apply H; lia). by rewrite H by lia.
Qed.

(** Frame [i] lies inside a USABLE entry of the memory map. *)
Definition usable_inside (es : list limine_memmap_entry) (i : Z) : bool :=
  existsb (fun e => (me_type e =? LIMINE_MEMMAP_USABLE) &&
                    inside i (me_base e) (me_base e + me_length e)) es.

(** Frame [i] meets the byte range a module record names. *)
Definition module_overlaps (ms : list limine_file) (i : Z) : bool :=
  existsb (fun m => overlaps i (lf_address m) (lf_address m + lf_size m)) ms.

Definition file_ok (m : limine_file) : Prop :=
  0 <= lf_address m /\ 0 <= lf_size m /\ lf_address m + lf_size m + 4095 < 2 ^ 64.

Lemma mark_entries_spec es (s : mm) :
  Forall entry_ok es -> pmm_core (mm_pmm s) ->
  wp (for_each es (fun e =>
        when (me_type e =? LIMINE_MEMMAP_USABLE)
          (in_pmm (mark_range_usable_and_free (me_base e) (u64 (me_base e + me_length e))))) s)
    (fun _ s' => mm_early s' = mm_early s /\ pmm_core (mm_pmm s') /\
       same_frame (mm_pmm s) (mm_pmm s') /\
       forall i, 0 <= i < g_frame_count (mm_pmm s) ->
         bit (g_alloc_bm (mm_pmm s')) i =
           bit (g_alloc_bm (mm_pmm s)) i && negb (usable_inside es i)).
Proof.
  intros Hok Hc.
  apply (wp_for_each (fun dn s' => mm_early s' = mm_early s /\ pmm_core (mm_pmm s') /\
       same_frame (mm_pmm s) (mm_pmm s') /\
       forall i, 0 <= i < g_frame_count (mm_pmm s) ->
         bit (g_alloc_bm (mm_pmm s')) i =
           bit (g_alloc_bm (mm_pmm s)) i && negb (usable_inside dn i))).
  { split_and!; try done. intros i Hi. simpl. by rewrite andb_true_r. }
  intros dn e s1 He (Hea & Hc1 & Hsf & Hb).
  pose proof (Forall_elem _ _ _ Hok He) as (?&?&?). pose proof (Hsf) as (_&_&Hcnt&_).
  unfold usable_inside. destruct (Z.eqb_spec (me_type e) LIMINE_MEMMAP_USABLE) as [Ht|Ht]; simpl.
  - apply wp_zoom. rewrite wrap_small by lia.
    eapply wp_mono; [apply mark_range_usable_spec; try done; lia|].
    intros [] p (Hc2 & Hsf2 & Hb2). simpl. split_and!; try done; [by etrans|].
    intros i Hi. destruct (Hb2 i) as [_ ->]; [by rewrite Hcnt|]. rewrite Hb by done.
    rewrite existsb_app. simpl. rewrite Ht. simpl. unfold usable_inside.
    by rewrite orb_false_r, negb_orb, andb_assoc.
  - split_and!; try done. intros i Hi. rewrite Hb by done. f_equal.
    rewrite existsb_app. simpl. rewrite (proj2 (Z.eqb_neq _ _) Ht). simpl. by rewrite !orb_false_r.
Qed.

Lemma mark_modules_spec ms (s : mm) :
  Forall file_ok ms -> pmm_core (mm_pmm s) ->
  wp (for_each ms (fun m =>
        in_pmm (mark_range_allocated (lf_address m) (u64 (lf_address m + lf_size m)))) s)
    (fun _ s' => mm_early s' = mm_early s /\ pmm_core (mm_pmm s') /\
       same_frame (mm_pmm s) (mm_pmm s') /\
       forall i, 0 <= i < g_frame_count (mm_pmm s) ->
         bit (g_alloc_bm (mm_pmm s')) i =
           bit (g_alloc_bm (mm_pmm s)) i || module_overlaps ms i).
Proof.
  intros Hok Hc.
  apply (wp_for_each (fun dn s' => mm_early s' = mm_early s /\ pmm_core (mm_pmm s') /\
       same_frame (mm_pmm s) (mm_pmm s') /\
       forall i, 0 <= i < g_frame_count (mm_pmm s) ->
         bit (g_alloc_bm (mm_pmm s')) i =
           bit (g_alloc_bm (mm_pmm s)) i || module_overlaps dn i)).
  { split_and!; try done. intros i Hi. simpl. by rewrite orb_false_r. }
  intros dn m s1 He (Hea & Hc1 & Hsf & Hb).
  pose proof (Forall_elem _ _ _ Hok He) as (?&?&?). pose proof (Hsf) as (_&_&Hcnt&_).
  apply wp_zoom. rewrite wrap_small by lia.
  eapply wp_mono; [apply mark_range_allocated_spec; try done; lia|].
  intros [] p (Hc2 & Hsf2 & _ & Hb2). simpl. split_and!; try done; [by etrans|].
  intros i Hi. rewrite Hb2 by (by rewrite Hcnt). rewrite Hb by done.
  unfold module_overlaps. rewrite existsb_app. simpl. by rewrite orb_false_r, orb_assoc.
Qed.

Lemma mark_one_spec b e (s : mm) :
  pmm_core (mm_pmm s) -> 0 <= b < 2 ^ 64 -> e + 4095 < 2 ^ 64 ->
  wp (in_pmm (mark_range_allocated b e) s)
    (fun _ s' => mm_early s' = mm_early s /\ pmm_core (mm_pmm s') /\
       same_frame (mm_pmm s) (mm_pmm s') /\
       forall i, 0 <= i < g_frame_count (mm_pmm s) ->
         bit (g_alloc_bm (mm_pmm s')) i = bit (g_alloc_bm (mm_pmm s)) i || overlaps i b e).
Proof.
  intros Hc Hb He. apply wp_zoom. eapply wp_mono; [by apply mark_range_allocated_spec|].
  intros [] p (?&?&_&?). by split_and!.
Qed.

(** Pages each bitmap occupies. *)
Definition bitmap_pages (n : Z) : Z := ((n + 7) / 8 + 4095) / 4096.

(** What the boot environment guarantees when [frame_init] runs: the memory map
    is there and describes at least one byte, the HHDM and kernel addresses are
    there, none of the reserved ranges wraps, and the bump allocator has room
    for the two bitmaps. *)
Record boot_ok (lim : limine) (img : kernel_image) (s : mm)
    (es : list limine_memmap_entry) (hhdm kb ke : Z) : Prop := {
  boot_memmap : memmap_req lim = Some es;
  boot_entries : Forall entry_ok es;
  boot_nonempty : 0 < max_phys_of es;
  boot_hhdm : hhdm_request lim = Some hhdm;
  boot_kernel : exists ka, Kaddress_req lim = Some ka /\
    kb = u64 (physical_base ka + u64 (kernel_start img - virtual_base ka)) /\
    ke = u64 (physical_base ka + u64 (kernel_end img - virtual_base ka)) /\
    ke + 4095 < 2 ^ 64;
  boot_modules : Forall file_ok (default [] (module_request lim));
  boot_early : early_wf (mm_early s);
  boot_room : 2 * bitmap_pages (frames_of es) <= early_left (mm_early s);
  boot_lock : g_memlock (mm_pmm s) = 0;
}.

(** The state in which the marking loops start. *)
Definition fresh_bitmaps (s : pmm) (es : list limine_memmap_entry) (pa pb : Z) : pmm :=
  let bytes := Z.to_nat ((frames_of es + 7) / 8) in
  Pmm pa pb (replicate bytes 0xFF) (replicate bytes 0) (frames_of es) (max_phys_of es) 0
      (g_hint s) (g_memlock s).

Lemma frames_of_bounds es :
  Forall entry_ok es -> 0 < max_phys_of es -> 0 < frames_of es <= 2 ^ 41.
Proof.
  intros Hok Hpos. destruct (max_phys_of_spec es Hok) as [Hb _]. unfold frames_of. dm_lia.
Qed.

Lemma fresh_bitmaps_core s es pa pb :
  Forall entry_ok es -> 0 < max_phys_of es -> pmm_core (fresh_bitmaps s es pa pb).
Proof.
  intros Hok Hpos. pose proof (frames_of_bounds es Hok Hpos).
  destruct (max_phys_of_spec es Hok) as [Hb _].
  constructor; simpl; try done; try lia.
  - rewrite length_replicate. dm_lia.
  - rewrite length_replicate. dm_lia.
  - intros i Hi. rewrite bit_replicate_ones by dm_lia. done.
  - symmetry. apply nclear_all_set. intros i Hi. apply bit_replicate_ones. dm_lia.
Qed.

(** The reservations that follow the bitmap set-up. *)
Lemma reserve_all_spec kb ke ms (s : mm) :
  pmm_core (mm_pmm s) -> 0 <= kb < 2 ^ 64 -> ke + 4095 < 2 ^ 64 -> Forall file_ok ms ->
  early_wf (mm_early s) -> g_memlock (mm_pmm s) = 0 ->
  wp ((do! in_pmm (mark_range_allocated kb ke) in
       do! for_each ms (fun m =>
             in_pmm (mark_range_allocated (lf_address m) (u64 (lf_address m + lf_size m)))) in
       let! r := in_early early_reserved_region in
       let '(early_base, early_pages) := r in
       do! when (negb (early_pages =? 0))
             (in_pmm (mark_range_allocated early_base (u64 (early_base + u64 (early_pages * PAGE_SIZE))))) in
       in_pmm (modify (set_hint 0))) s)
    (fun _ s' => mm_early s' = mm_early s /\ pmm_wf (mm_pmm s') /\
       g_hint (mm_pmm s') = 0 /\
       g_alloc_ptr (mm_pmm s') = g_alloc_ptr (mm_pmm s) /\
       g_usable_ptr (mm_pmm s') = g_usable_ptr (mm_pmm s) /\
       g_frame_count (mm_pmm s') = g_frame_count (mm_pmm s) /\
       forall i, 0 <= i < g_frame_count (mm_pmm s) ->
         bit (g_alloc_bm (mm_pmm s')) i =
           bit (g_alloc_bm (mm_pmm s)) i || overlaps i kb ke || module_overlaps ms i ||
           overlaps i (g_base (mm_early s)) (g_cursor (mm_early s))).
Proof.
  intros Hc Hkb Hke Hms Hew Hlk. apply wp_bind.
  eapply wp_mono; [by apply mark_one_spec|]. intros [] s1 (He1 & Hc1 & Hsf1 & Hb1).
  apply wp_bind. eapply wp_mono; [by apply mark_modules_spec|].
  intros [] s2 (He2 & Hc2 & Hsf2 & Hb2). rewrite bind_Ret with (a := (g_base (mm_early s),
    (g_cursor (mm_early s) - g_base (mm_early s)) / 4096)) (s' := s2).
  2: { pose proof Hew as (?&?&?&?&?&?). unfold in_early, zoom, early_reserved_region, gets.
       rewrite He2, He1. unfold PAGE_SIZE. rewrite wrap_small by lia.
       f_equal. destruct s2; unfold set_early; simpl in *. congruence. }
  pose proof (Hsf1) as (Hap1&Hup1&Hn1&_&_&Hl1). pose proof (Hsf2) as (Hap2&Hup2&Hn2&_&_&Hl2).
  pose proof Hew as (?&?&?&?&?&?).
  set (np := (g_cursor (mm_early s) - g_base (mm_early s)) / 4096).
  assert (Hnp : g_base (mm_early s) + np * 4096 = g_cursor (mm_early s) /\ 0 <= np)
    by (subst np; dm_lia).
  assert (wp (when (negb (np =? 0))
      (in_pmm (mark_range_allocated (g_base (mm_early s))
         (u64 (g_base (mm_early s) + u64 (np * PAGE_SIZE))))) s2)
    (fun _ s3 => mm_early s3 = mm_early s /\ pmm_core (mm_pmm s3) /\
       same_frame (mm_pmm s2) (mm_pmm s3) /\
       forall i, 0 <= i < g_frame_count (mm_pmm s2) ->
         bit (g_alloc_bm (mm_pmm s3)) i = bit (g_alloc_bm (mm_pmm s2)) i ||
           overlaps i (g_base (mm_early s)) (g_cursor (mm_early s)))) as Hw.
  { unfold PAGE_SIZE. rewrite !wrap_small by (rewrite ?wrap_small; lia). rewrite (proj1 Hnp).
    destruct (Z.eqb_spec np 0) as [Hz|Hz]; simpl.
    - split_and!; try done; [congruence|]. intros i Hi. unfold overlaps.
      rewrite (proj2 (Z.ltb_ge (g_base (mm_early s)) (g_cursor (mm_early s)))) by lia.
      by rewrite orb_false_r.
    - eapply wp_mono; [apply mark_one_spec; [done|lia|lia]|].
      intros [] s3 (?&?&?&?). split_and!; try done. congruence. }
  apply wp_bind. eapply wp_mono; [exact Hw|]. intros [] s3 (He3 & Hc3 & Hsf3 & Hb3).
  pose proof (Hsf3) as (Hap3&Hup3&Hn3&_&_&Hl3). simpl.
  split_and!; simpl; try done; try congruence.
  - pose proof (core_count _ Hc3). constructor; simpl; [by destruct Hc3|lia|congruence].
  - intros i Hi. rewrite Hb3, Hb2, Hb1 by lia. done.
Qed.

Lemma frame_init_spec lim img s es hhdm kb ke :
  boot_ok lim img s es hhdm kb ke ->
  wp (frame_init lim img s) (fun _ s' =>
    (early_wf (mm_early s') /\ g_base (mm_early s') = g_base (mm_early s) /\ g_end (mm_early s') = g_end (mm_early s)) /\
    pmm_wf (mm_pmm s') /\ g_frame_count (mm_pmm s') = frames_of es /\
    let bp := bitmap_pages (frames_of es) in
    let c := g_cursor (mm_early s) in
    g_alloc_ptr (mm_pmm s') = u64 (c + hhdm) /\
    g_usable_ptr (mm_pmm s') = u64 (c + 4096 * bp + hhdm) /\
    g_cursor (mm_early s') = c + 2 * (4096 * bp) /\
    forall i, 0 <= i < frames_of es ->
      bit (g_alloc_bm (mm_pmm s')) i =
        negb (usable_inside es i) || overlaps i kb ke ||
        module_overlaps (default [] (module_request lim)) i ||
        overlaps i (g_base (mm_early s)) (c + 2 * (4096 * bp))).
Proof.
  intros [Hm Hok Hpos Hh (ka & Hka & Hkb & Hke & Hkn) Hmod Hew Hroom Hlk].
  pose proof (frames_of_bounds es Hok Hpos) as Hfb.
  unfold frame_init. rewrite Hh, Hka, Hm. simpl.
  rewrite (bind_Ret _ _ s tt (Mm (mm_early s) (set_topology (max_phys_of es) (frames_of es) (mm_pmm s)))).
  2: { unfold in_pmm, zoom. by rewrite (compute_topology lim es _ Hm Hok Hpos). }
  rewrite bind_get. simpl. rewrite (wrap_small _ (frames_of es + 7)) by lia.
  assert (Hbytes : 0 < (frames_of es + 7) / 8 < 2 ^ 40) by dm_lia.
  rewrite ALIGN_UP_page by lia. unfold PAGE_SIZE at 1 2.
  rewrite (Z.mul_comm 4096), Z.div_mul by lia. fold (bitmap_pages (frames_of es)).
  assert (Hbp : 1 <= bitmap_pages (frames_of es)) by (unfold bitmap_pages; dm_lia).
  set (bp := bitmap_pages (frames_of es)) in *. rewrite <- Hkb, <- Hke.
  assert (Hkb2 : 0 <= kb < 2 ^ 64) by (rewrite Hkb; by apply wrap_range).
  apply wp_bind. eapply wp_mono; [apply early_block_spec; simpl; [done|lia]|].
  intros pa s1 (->&Hp1&Hw1&Hb1&Hc1&Hl1). simpl in *. apply wp_bind. simpl. apply wp_bind.
  eapply wp_mono; [apply early_block_spec; simpl; [done|lia]|].
  intros pb s2 (->&Hp2&Hw2&Hb2&Hc2&Hl2). simpl in *.
  rewrite Hp1 in Hp2. do 4 (apply wp_bind; simpl). rewrite Hp2. simpl.
  match goal with |- wp (bind _ _ ?st) _ => set (s3 := st) end. apply wp_bind.
  assert (Hs3 : mm_pmm s3 = fresh_bitmaps (mm_pmm s) es (u64 (g_cursor (mm_early s) + hhdm))
                              (u64 (g_cursor (mm_early s1) + hhdm))) by done.
  eapply wp_mono; [apply mark_entries_spec; [done|rewrite Hs3; by apply fresh_bitmaps_core]|].
  intros [] s4 (He4 & Hc4 & Hsf4 & Hbit4). simpl in He4.
  pose proof (Hsf4) as (Hap&Hup&Hn&_&_&Hl).
  eapply wp_mono.
  { apply reserve_all_spec; try done; [by rewrite He4|]. by rewrite Hl. }
  intros [] s5 (He5 & Hwf5 & _ & Hap5 & Hup5 & Hn5 & Hbit5). simpl.
  split.
  { rewrite He5, He4. split; [done|]. split; [congruence|]. destruct Hew as (?&?&?&?&?&?), Hw2 as (?&?&?&?&?&?). unfold early_left in *. dm_lia. }
  split; [done|]. split; [by rewrite Hn5, Hn|]. split_and!.
  - rewrite Hap5, Hap. done.
  - rewrite Hup5, Hup. simpl. do 2 f_equal. lia.
  - rewrite He5, He4. lia.
  - intros i Hi. rewrite Hbit5 by (rewrite Hn; done). rewrite Hbit4 by done.
    rewrite Hs3. simpl. rewrite bit_replicate_ones by dm_lia. simpl.
    rewrite He4, Hb2, Hb1, Hc2, Hc1. do 2 f_equal. lia.
Qed.

(** C12. After [frame_init] the allocator is well formed and the set of free
    frames is exactly what the memory map and the reservations say: frame [i] is
    free if and only if it lies inside a USABLE entry and meets neither the
    kernel image, nor a module's range, nor a page the bump allocator has handed
    out (the two bitmaps included); the bitmaps occupy the next pages of the
    bump region, back to back. *)
Theorem frame_init_correct lim img s es hhdm kb ke :
  boot_ok lim img s es hhdm kb ke ->
  wp (frame_init lim img s) (fun _ s' =>
    pmm_wf (mm_pmm s') /\ g_frame_count (mm_pmm s') = frames_of es /\
    let bp := bitmap_pages (frames_of es) in
    let c := g_cursor (mm_early s) in
    g_alloc_ptr (mm_pmm s') = u64 (c + hhdm) /\
    g_usable_ptr (mm_pmm s') = u64 (c + 4096 * bp + hhdm) /\
    g_cursor (mm_early s') = c + 2 * (4096 * bp) /\
    forall i, 0 <= i < frames_of es ->
      bit (g_alloc_bm (mm_pmm s')) i =
        negb (usable_inside es i) || overlaps i kb ke ||
        module_overlaps (default [] (module_request lim)) i ||
        overlaps i (g_base (mm_early s)) (c + 2 * (4096 * bp))).
Proof. intros Hb. eapply wp_mono; [by apply frame_init_spec|]. by intros [] s' (_ & Hs'). Qed.

(** A machine with 128 KiB of usable memory at 1 MiB, the kernel loaded into it. *)
Definition demo_limine : limine :=
  Limine (Some [MemmapEntry 0 0x9f000 LIMINE_MEMMAP_RESERVED;
                MemmapEntry 0x100000 0x20000 LIMINE_MEMMAP_USABLE])
    (Some 0xFFFF800000000000)
    (Some (KernelAddress 0x110000 0xFFFFFFFF80000000)) None.
Definition demo_image : kernel_image := KernelImage 0xFFFFFFFF80000000 0xFFFFFFFF80002000.
Definition demo_mm : mm := Mm (Early 0x100000 0x103000 0x120000 false) pmm_zero.

Lemma demo_boot_ok :
  boot_ok demo_limine demo_image demo_mm (default [] (memmap_req demo_limine))
    0xFFFF800000000000 0x110000 0x112000.
Proof.
  constructor; try done.
  - repeat constructor; simpl; lia.
  - exists (KernelAddress 0x110000 0xFFFFFFFF80000000). split_and!; try done; by vm_compute.
Qed.

Lemma frame_init_correct_witness :
  wp (frame_init demo_limine demo_image demo_mm) (fun _ s' =>
    pmm_wf (mm_pmm s') /\ g_frame_count (mm_pmm s') = 288 /\
    bit (g_alloc_bm (mm_pmm s')) 272 = true /\ bit (g_alloc_bm (mm_pmm s')) 274 = false).
Proof.
  eapply wp_mono; [exact (frame_init_correct _ _ _ _ _ _ _ demo_boot_ok)|].
  intros [] s' (Hwf & Hn & _ & _ & _ & Hbit). split; [exact Hwf|]. split; [exact Hn|].
  split; (rewrite Hbit; [reflexivity|vm_compute; split; congruence]).
Defined.

End NeoFrameInit.
