(* ===== verification/Kmalloc.v ===== *)
(** The kernel heap, [src/src/mm/kmalloc.c]: boundary-tag blocks in the window
    starting at [HEAP_BASE], a doubly linked free list threaded through the free
    blocks, first-fit allocation with splitting, coalescing on free, growth by
    mapping more pages.  This file holds the definitions; the invariant and the
    theorems are in [KmallocInv] and [KmallocSpec]. *)
From S2P Require Import Prelude Lock.

Definition PAGING_FLAG_PRESENT : Z := Z.shiftl 1 0.
Definition PAGING_FLAG_WRITABLE : Z := Z.shiftl 1 1.
Definition PAGING_FLAG_NO_EXECUTE : Z := Z.shiftl 1 63.

(** The flags of every heap page. *)
Definition heap_page_flags : Z := Z.lor (Z.lor PAGING_FLAG_PRESENT PAGING_FLAG_WRITABLE) PAGING_FLAG_NO_EXECUTE.

(** What the heap needs from the frame allocator and the paging layer: the two
    calls of the mapping loop of [heap_map_more], CR3, and the promise that the
    loop body maps the page, keeps every mapped page mapped and costs one unit
    of room. *)
Class HeapBacking (B : Type) : Type := {
  hb_ReadCR3 : B -> Z;
  hb_frame_alloc : K B Z;
  hb_PagingMapMemory : Z -> Z -> Z -> Z -> K B unit;
  hb_mapped : B -> Z -> bool;
}.

Definition pml4_of_cr3 (cr3 : Z) : Z := Z.land cr3 (u64 (Z.lnot 0xfff)).

Class HeapBackingLaws (B : Type) `{HeapBacking B} : Type := {
  hb_inv : B -> Prop;
  hb_room : B -> Z;
  hb_window : Z -> Prop;
  hb_map_law : forall b va, hb_inv b -> 0 < hb_room b -> hb_window va -> va mod 4096 = 0 ->
    wp ((let! phys := hb_frame_alloc in
         hb_PagingMapMemory (pml4_of_cr3 (hb_ReadCR3 b)) va phys heap_page_flags) b)
      (fun _ b' => hb_inv b' /\ hb_mapped b' va = true /\
         (forall v, hb_mapped b v = true -> hb_mapped b' v = true) /\
         hb_ReadCR3 b' = hb_ReadCR3 b /\ hb_room b - 1 <= hb_room b');
}.

Definition HEAP_BASE : Z := 0xFFFF900000000000.
Definition HEAP_LIMIT : Z := HEAP_BASE + 256 * 1024 * 1024.
Definition ALIGNMENT : Z := 16.
Definition MIN_SPLIT_SIZE : Z := 32.

(** [block_t]: [size_and_flags] at offset 0, [prev_free] at 8, [next_free] at
    16; [footer_t]: one word. *)
Definition sizeof_block_t : Z := 24.
Definition off_prev_free : Z := 8.
Definition off_next_free : Z := 16.
Definition ALLOC_FLAG : Z := 1.
Definition HDR_SIZE : Z := ALIGN_UP sizeof_block_t ALIGNMENT.
Definition FTR_SIZE : Z := 8.
Definition OVERHEAD : Z := HDR_SIZE + FTR_SIZE.

(** The macros on a [size_and_flags] word. *)
Definition IS_ALLOC (w : Z) : bool := is_set w ALLOC_FLAG.
Definition BLK_SIZE (w : Z) : Z := Z.land w (u64 (Z.lnot ALLOC_FLAG)).
Definition USABLE (w : Z) : Z := u64 (BLK_SIZE w - OVERHEAD).

Definition total_size_for_payload (payload : Z) : Z :=
  let aligned_payload := ALIGN_UP payload ALIGNMENT in
  ALIGN_UP (u64 (aligned_payload + OVERHEAD)) ALIGNMENT.

Section kmalloc.
Context {B : Type} `{HeapBacking B}.

(** The arena's static variables, the 8-byte words of kernel virtual memory the
    heap code touches, and the paging state behind it. *)
Record kheap : Type := KHeap {
  g_heap_curr : Z;
  g_heap_lock : Z;
  g_free_list : Z;
  kmem : gmap Z Z;
  kback : B;
}.

Definition set_curr (c : Z) (s : kheap) : kheap :=
  KHeap c (g_heap_lock s) (g_free_list s) (kmem s) (kback s).
Definition set_lock (l : Z) (s : kheap) : kheap :=
  KHeap (g_heap_curr s) l (g_free_list s) (kmem s) (kback s).
Definition set_fl (f : Z) (s : kheap) : kheap :=
  KHeap (g_heap_curr s) (g_heap_lock s) f (kmem s) (kback s).
Definition set_kmem (m : gmap Z Z) (s : kheap) : kheap :=
  KHeap (g_heap_curr s) (g_heap_lock s) (g_free_list s) m (kback s).
Definition set_kback (b : B) (s : kheap) : kheap :=
  KHeap (g_heap_curr s) (g_heap_lock s) (g_free_list s) (kmem s) b.

Definition lock_heap : K kheap unit := spinlock_acquire g_heap_lock set_lock.
Definition unlock_heap : K kheap unit := spinlock_release g_heap_lock set_lock.

(** A word access faults unless the page it falls in is mapped. *)
Definition page_of (a : Z) : Z := 4096 * (a / 4096).
Definition load (a : Z) : K kheap Z := fun s =>
  if hb_mapped (kback s) (page_of a) then Ret (rd (kmem s) a) s else Fault a s.
Definition store (a v : Z) : K kheap unit := fun s =>
  if hb_mapped (kback s) (page_of a) then Ret tt (set_kmem (<[a := v]> (kmem s)) s) else Fault a s.

(** ** Header and footer access *)
Definition SET_ALLOC (h : Z) : K kheap unit :=
  let! w := load h in store h (Z.lor w ALLOC_FLAG).
Definition CLR_ALLOC (h : Z) : K kheap unit :=
  let! w := load h in store h (Z.land w (u64 (Z.lnot ALLOC_FLAG))).
Definition SET_SIZE (h sz : Z) : K kheap unit :=
  let! w := load h in store h (Z.lor sz (Z.land w ALLOC_FLAG)).
Definition FOOTER_OF (h : Z) : K kheap Z :=
  let! w := load h in ret (h + BLK_SIZE w - FTR_SIZE).
Definition NEXT_BLOCK (h : Z) : K kheap Z :=
  let! w := load h in ret (h + BLK_SIZE w).

(** [FOOTER_OF(h)->size_and_flags = h->size_and_flags;] *)
Definition sync_footer (h : Z) : K kheap unit :=
  let! f := FOOTER_OF h in let! w := load h in store f w.

(** ** Free-list operations *)
Definition fl_push (b : Z) : K kheap unit :=
  do! store (b + off_prev_free) 0 in
  let! s := get in
  do! store (b + off_next_free) (g_free_list s) in
  do! when (negb (g_free_list s =? 0)) (store (g_free_list s + off_prev_free) b) in
  modify (set_fl b).

Definition fl_remove (b : Z) : K kheap unit :=
  let! p := load (b + off_prev_free) in
  do! (if negb (p =? 0)
       then let! n := load (b + off_next_free) in store (p + off_next_free) n
       else let! n := load (b + off_next_free) in modify (set_fl n)) in
  let! n := load (b + off_next_free) in
  do! when (negb (n =? 0))
        (let! p := load (b + off_prev_free) in store (n + off_prev_free) p) in
  do! store (b + off_next_free) 0 in
  store (b + off_prev_free) 0.

(** ** Growth *)
Definition in_back {A} : K B A -> K kheap A := zoom kback set_kback.

Definition heap_map_more (bytes : Z) : K kheap unit :=
  let! s := get in
  let need := ALIGN_UP bytes PAGE_SIZE in
  let start := ALIGN_UP (g_heap_curr s) PAGE_SIZE in
  let end_ := u64 (start + need) in
  do! when (end_ >? HEAP_LIMIT) (panic "kmalloc: VA heap exhausted") in
  let p4 := pml4_of_cr3 (hb_ReadCR3 (kback s)) in
  do! for_steps (Z.to_nat ((end_ - start + 4095) / 4096)) start PAGE_SIZE (fun va =>
        in_back (let! phys := hb_frame_alloc in
                 hb_PagingMapMemory p4 va phys heap_page_flags)) in
  let blk_sz := u64 (end_ - start) in
  do! store start blk_sz in
  do! store (start + off_next_free) 0 in
  do! store (start + off_prev_free) 0 in
  let! f := FOOTER_OF start in
  do! store f blk_sz in
  do! fl_push start in
  modify (set_curr end_).

(** ** First fit *)

(** The search loop; a free list longer than the fuel means it is cyclic and the
    loop never ends. *)
Fixpoint find_loop (fuel : nat) (it need_total : Z) : K kheap Z :=
  match fuel with
  | O => fun s => Hang s
  | S fuel' =>
      if it =? 0 then ret 0 else
      let! w := load it in
      if BLK_SIZE w >=? need_total then ret it
      else let! n := load (it + off_next_free) in find_loop fuel' n need_total
  end.

(** Blocks are at least 16 bytes apart, so a proper free list is shorter than
    this. *)
Definition list_fuel (s : kheap) : nat := S (Z.to_nat ((g_heap_curr s - HEAP_BASE) / 16)).

Definition fl_find_fit (need_payload : Z) : K kheap Z :=
  let need_total := total_size_for_payload need_payload in
  let! s := get in
  find_loop (list_fuel s) (g_free_list s) need_total.

(** ** Splitting and coalescing *)
Definition allocate_from_block (h need_payload : Z) : K kheap Z :=
  let need_total := total_size_for_payload need_payload in
  let! w := load h in
  let old_sz := BLK_SIZE w in
  do! fl_remove h in
  if old_sz >=? u64 (need_total + total_size_for_payload MIN_SPLIT_SIZE) then
    let alloc_sz := need_total in
    let tail_sz := u64 (old_sz - alloc_sz) in
    do! SET_SIZE h alloc_sz in
    do! SET_ALLOC h in
    do! sync_footer h in
    let t := h + alloc_sz in
    do! store t tail_sz in
    do! store (t + off_next_free) 0 in
    do! store (t + off_prev_free) 0 in
    let! f := FOOTER_OF t in
    do! store f tail_sz in
    do! fl_push t in
    ret h
  else
    do! SET_ALLOC h in
    do! sync_footer h in
    ret h.

Definition coalesce_next (h : Z) : K kheap unit :=
  let! n := NEXT_BLOCK h in
  let! s := get in
  if n <? g_heap_curr s then
    let! wn := load n in
    if negb (IS_ALLOC wn) then
      do! fl_remove n in
      let! wh := load h in
      let! wn := load n in
      do! SET_SIZE h (u64 (BLK_SIZE wh + BLK_SIZE wn)) in
      sync_footer h
    else ret tt
  else ret tt.

Definition coalesce_prev (h : Z) : K kheap Z :=
  if h >? HEAP_BASE then
    let! pf := load (h - FTR_SIZE) in
    let psz := BLK_SIZE pf in
    let p := h - psz in
    let! wp := load p in
    if negb (IS_ALLOC wp) then
      do! fl_remove p in
      let! wp := load p in
      let! wh := load h in
      do! SET_SIZE p (u64 (BLK_SIZE wp + BLK_SIZE wh)) in
      do! sync_footer p in
      ret p
    else ret h
  else ret h.

Definition coalesce (h : Z) : K kheap Z :=
  do! coalesce_next h in coalesce_prev h.

(** ** Public API *)
Definition kmalloc_init : K kheap unit :=
  do! modify (fun s => set_fl 0 (set_curr HEAP_BASE s)) in
  heap_map_more (64 * PAGE_SIZE).

Definition kmalloc (size : Z) : K kheap Z :=
  if size =? 0 then ret 0 else
  do! lock_heap in
  let! h := fl_find_fit size in
  let! h :=
    (if h =? 0 then
       let grow := total_size_for_payload size in
       let grow := if grow <? 128 * PAGE_SIZE then 128 * PAGE_SIZE else grow in
       do! heap_map_more grow in
       fl_find_fit size
     else ret h) in
  if h =? 0 then do! unlock_heap in ret 0 else
  let! a := allocate_from_block h size in
  let payload := a + HDR_SIZE in
  do! unlock_heap in
  ret payload.

Definition kfree (ptr : Z) : K kheap unit :=
  if ptr =? 0 then ret tt else
  do! lock_heap in
  let h := ptr - HDR_SIZE in
  let! w := load h in
  if negb (IS_ALLOC w) then do! unlock_heap in panic "kfree: double free" else
  do! CLR_ALLOC h in
  do! sync_footer h in
  let! c := coalesce h in
  do! fl_push c in
  unlock_heap.

(** [memcpy(dst, src, n)] for word-aligned [dst] and [src] and [n] a multiple of
    8, as [krealloc] calls it: ascending copy of the [n / 8] words. *)
Definition memcpy_words (dst src n : Z) : K kheap unit :=
  for_range 0 (n / 8) (fun k => let! w := load (src + 8 * k) in store (dst + 8 * k) w).

Definition krealloc (ptr newsize : Z) : K kheap Z :=
  if ptr =? 0 then kmalloc newsize else
  if newsize =? 0 then do! kfree ptr in ret 0 else
  do! lock_heap in
  let h := ptr - HDR_SIZE in
  let! w := load h in
  let cur := USABLE w in
  if cur >=? newsize then do! unlock_heap in ret ptr else
  let! n := NEXT_BLOCK h in
  let! s := get in
  let! nfree := (if n <? g_heap_curr s then let! wn := load n in ret (negb (IS_ALLOC wn))
                 else ret false) in
  let! fits := (if nfree then
                  let! wn := load n in
                  ret (u64 (u64 (cur + OVERHEAD) + USABLE wn) >=? newsize)
                else ret false) in
  if fits then
    do! fl_remove n in
    let! wh := load h in
    let! wn := load n in
    do! SET_SIZE h (u64 (BLK_SIZE wh + BLK_SIZE wn)) in
    do! SET_ALLOC h in
    do! sync_footer h in
    do! unlock_heap in
    ret ptr
  else
    do! unlock_heap in
    let! np := kmalloc newsize in
    if np =? 0 then ret 0 else
    do! memcpy_words np ptr cur in
    do! kfree ptr in
    ret np.

Definition kmalloc_usable_size (ptr : Z) : K kheap Z :=
  if ptr =? 0 then ret 0 else
  let! w := load (ptr - HDR_SIZE) in ret (USABLE w).

End kmalloc.
Arguments kheap B : clear implicits.
