(* ===== verification/HeapShape.v ===== *)
(** The shape of the kernel heap, as a pure predicate on word memory: boundary
    tags that tile the arena and a doubly linked free list.  [Kmalloc]'s routines
    are verified against it in [KmallocInv]. *)
From S2P Require Import Prelude Kmalloc.

Module HeapShape.

(** ** Blocks *)

(** A block is handed out, on the free list, or in the hands of the allocator
    (taken off the list, not yet handed out or pushed back). *)
Inductive bstate : Type := Used | Free | Pending.
#[export] Instance bstate_eq_dec : EqDecision bstate.
Proof. solve_decision. Defined.

Record blk : Type := Blk { b_addr : Z; b_size : Z; b_st : bstate }.
#[export] Instance blk_eq_dec : EqDecision blk.
Proof. solve_decision. Defined.

Definition b_end (b : blk) : Z := b_addr b + b_size b.

(** The [size_and_flags] word of a block. *)
Definition enc (b : blk) : Z :=
  b_size b + match b_st b with Used => 1 | _ => 0 end.

Definition size_ok (n : Z) : Prop := 64 <= n /\ n mod 16 = 0.

(** [bl] tiles the byte range [\[a, e)]. *)
Fixpoint contiguous (a : Z) (bl : list blk) (e : Z) : Prop :=
  match bl with
  | [] => a = e
  | b :: bl' => b_addr b = a /\ size_ok (b_size b) /\ contiguous (b_end b) bl' e
  end.

Definition tagged (m : gmap Z Z) (b : blk) : Prop :=
  rd m (b_addr b) = enc b /\ rd m (b_end b - 8) = enc b.

Lemma contiguous_app a l1 l2 e :
  contiguous a (l1 ++ l2) e <-> exists c, contiguous a l1 c /\ contiguous c l2 e.
Proof.
  revert a. induction l1 as [|b l1 IH]; intros a; simpl.
  { split; [intros H; by exists a|]. by intros (c & -> & ?). }
  rewrite IH. naive_solver.
Qed.

Lemma contiguous_le a bl e : contiguous a bl e -> a <= e.
Proof.
  revert a. induction bl as [|b bl IH]; intros a; simpl; [lia|].
  intros (? & [? ?] & Hc). apply IH in Hc. unfold b_end in Hc. lia.
Qed.

Lemma contiguous_in a bl e b :
  contiguous a bl e -> b ∈ bl ->
  a <= b_addr b /\ b_end b <= e /\ size_ok (b_size b) /\ (a mod 16 = 0 -> b_addr b mod 16 = 0).
Proof.
  revert a. induction bl as [|c bl IH]; intros a Hc Hin; [by apply elem_of_nil in Hin|].
  simpl in Hc. destruct Hc as (Ha & [Hs1 Hs2] & Hc). pose proof (contiguous_le _ _ _ Hc).
  apply elem_of_cons in Hin as [->|Hin].
  - subst a. unfold b_end, size_ok in *. split_and!; try done; lia.
  - destruct (IH _ Hc Hin) as (?&?&?&Hal). unfold b_end in *. split_and!; try done; try lia.
    intros Hm. apply Hal. dm_lia.
Qed.

Lemma contiguous_disjoint a bl e b c :
  contiguous a bl e -> b ∈ bl -> c ∈ bl -> b = c \/ b_end b <= b_addr c \/ b_end c <= b_addr b.
Proof.
  revert a. induction bl as [|d bl IH]; intros a Hc Hb Hcc; [by apply elem_of_nil in Hb|].
  simpl in Hc. destruct Hc as (Ha & _ & Hc).
  apply elem_of_cons in Hb as [->|Hb]; apply elem_of_cons in Hcc as [->|Hcc].
  - by left.
  - right. left. by apply (contiguous_in _ _ _ _ Hc Hcc).
  - right. right. by apply (contiguous_in _ _ _ _ Hc Hb).
  - by eapply IH.
Qed.

(** Two blocks of a tiling at the same address are the same block. *)
Lemma contiguous_inj a bl e b c :
  contiguous a bl e -> b ∈ bl -> c ∈ bl -> b_addr b = b_addr c -> b = c.
Proof.
  intros Hc Hb Hcc He.
  pose proof (contiguous_in _ _ _ _ Hc Hb) as (_&_&[? _]&_).
  pose proof (contiguous_in _ _ _ _ Hc Hcc) as (_&_&[? _]&_).
  destruct (contiguous_disjoint _ _ _ _ _ Hc Hb Hcc) as [?|[?|?]]; unfold b_end in *; [done|lia|lia].
Qed.

Lemma contiguous_other a l1 b l2 e c :
  contiguous a (l1 ++ b :: l2) e -> c ∈ l1 ++ l2 -> b_addr c <> b_addr b.
Proof.
  intros Ht Hc He. pose proof (contiguous_in _ _ _ _ Ht (elem_around _ _ _ _ Hc)) as (_&_&[? _]&_).
  rewrite contiguous_app in Ht. destruct Ht as (d & H1 & H2 & [? _] & H3).
  apply elem_of_app in Hc as [Hc|Hc].
  - pose proof (contiguous_in _ _ _ _ H1 Hc) as (_&?&_). unfold b_end in *. lia.
  - pose proof (contiguous_in _ _ _ _ H3 Hc) as (?&_). unfold b_end in *. lia.
Qed.

(** The block that starts where another ends. *)
Lemma contiguous_next a l1 b l2 e :
  contiguous a (l1 ++ b :: l2) e ->
  (l2 = [] /\ b_end b = e) \/ (exists n l2', l2 = n :: l2' /\ b_addr n = b_end b /\ b_end b < e).
Proof.
  rewrite contiguous_app. intros (c & _ & Hc). simpl in Hc. destruct Hc as (_ & _ & Hc).
  destruct l2 as [|n l2]; [by left|]. right. exists n, l2. simpl in Hc.
  destruct Hc as (Hn & [? _] & Hc). apply contiguous_le in Hc. unfold b_end in *. split_and!; try done. lia.
Qed.

Lemma contiguous_prev a l1 b l2 e :
  contiguous a (l1 ++ b :: l2) e ->
  (l1 = [] /\ b_addr b = a) \/ (exists l1' p, l1 = l1' ++ [p] /\ b_end p = b_addr b /\ a < b_addr b).
Proof.
  rewrite contiguous_app. intros (c & Hl & Hc). simpl in Hc. destruct Hc as (Hb & _).
  destruct l1 as [|p l1' _] using rev_ind.
  - left. simpl in Hl. split; [done|lia].
  - right. exists l1', p. apply contiguous_app in Hl as (d & Hd & Hp). simpl in Hp.
    destruct Hp as (? & [? _] & ?). apply contiguous_le in Hd. unfold b_end in *.
    split_and!; try done; lia.
Qed.

Definition tags_word_ok (w : Z) : Prop := 0 <= w < 2 ^ 64.

(** Reading a tag back. *)
Lemma enc_size b : size_ok (b_size b) -> b_size b < 2 ^ 63 -> BLK_SIZE (enc b) = b_size b.
Proof.
  intros [? ?] ?. unfold BLK_SIZE, ALLOC_FLAG, enc.
  change (Z.lnot 1) with (Z.lnot (2 ^ 1 - 1)).
  destruct (b_st b); rewrite land_high_mask by lia; change (2 ^ 1) with 2; dm_lia.
Qed.

Lemma enc_alloc b : size_ok (b_size b) ->
  IS_ALLOC (enc b) = match b_st b with Used => true | _ => false end.
Proof.
  intros [? ?]. unfold IS_ALLOC, is_set, ALLOC_FLAG, enc. rewrite testbit_0_mod2.
  case_match.
  - rewrite (proj2 (Z.eqb_neq _ _)); [done|dm_lia].
  - rewrite (proj2 (Z.eqb_eq _ _)); [done|dm_lia].
  - rewrite (proj2 (Z.eqb_eq _ _)); [done|dm_lia].
Qed.

Lemma lor_even_1 n : n mod 2 = 0 -> Z.lor n 1 = n + 1.
Proof.
  intros He. rewrite <- Z.lxor_lor, <- Z.add_nocarry_lxor; [done| |]; by rewrite testbit_0_mod2.
Qed.

(** ** The free list *)

(** [l] is the list of nodes reached from [h], whose predecessor is [p]. *)
Fixpoint dll (m : gmap Z Z) (p h : Z) (l : list Z) : Prop :=
  match l with
  | [] => h = 0
  | x :: l' => h = x /\ rd m (x + 8) = p /\ dll m x (rd m (x + 16)) l'
  end.

Lemma dll_frame m m' p h l :
  dll m p h l ->
  (forall x, x ∈ l -> rd m' (x + 8) = rd m (x + 8) /\ rd m' (x + 16) = rd m (x + 16)) ->
  dll m' p h l.
Proof.
  revert p h. induction l as [|x l IH]; intros p h Hd Hf; simpl in *; [done|].
  destruct Hd as (-> & Hp & Hd). destruct (Hf x) as [H8 H16]; [left|].
  split_and!; [done|congruence|]. rewrite H16. apply IH; [done|]. intros y Hy. apply Hf. by right.
Qed.

(** Distinct nodes are far enough apart for their link words not to collide. *)
Definition spaced (l : list Z) : Prop :=
  NoDup l /\ (forall x, x ∈ l -> 0 < x) /\
  forall x y, x ∈ l -> y ∈ l -> x = y \/ x + 64 <= y \/ y + 64 <= x.

Lemma spaced_cons x l : spaced (x :: l) -> x ∉ l /\ spaced l.
Proof.
  intros (Hnd & Hpos & Hsp). apply NoDup_cons in Hnd as [Hx Hnd].
  split; [done|]. split_and!; [done| |].
  - intros y Hy. apply Hpos. by right.
  - intros y z Hy Hz. apply Hsp; by right.
Qed.

(** The memory after pushing [b] on a list headed by [h]. *)
Definition push_mem (m : gmap Z Z) (h b : Z) : gmap Z Z :=
  let m := <[b + 16 := h]> (<[b + 8 := 0]> m) in
  if h =? 0 then m else <[h + 8 := b]> m.

Lemma dll_push m h b l :
  dll m 0 h l -> spaced (b :: l) -> dll (push_mem m h b) 0 b (b :: l).
Proof.
  intros Hd Hsp. pose proof (spaced_cons _ _ Hsp) as [Hb _]. destruct Hsp as (Hnd & Hpos & Hsp).
  unfold push_mem. destruct l as [|x l].
  { simpl in Hd. subst. simpl. rd_solve. done. }
  destruct Hd as (-> & Hp & Hd).
  rewrite (proj2 (Z.eqb_neq x 0)) by (pose proof (Hpos x ltac:(set_solver)); lia).
  pose proof (Hsp b x ltac:(left) ltac:(right; left)) as Hbx.
  assert (b <> x) by set_solver.
  simpl. split; [done|]. split; [by rd_solve|].
  rewrite (rd_insert_ne _ (x + 8) (b + 16)), rd_insert_eq by lia.
  split; [done|]. split; [by rd_solve|].
  rewrite (rd_insert_ne _ (x + 8) (x + 16)), (rd_insert_ne _ (b + 16) (x + 16)),
    (rd_insert_ne _ (b + 8) (x + 16)) by lia.
  eapply dll_frame; [exact Hd|]. intros y Hy.
  apply NoDup_cons in Hnd as [_ Hnd]. apply NoDup_cons in Hnd as [Hxl _].
  assert (x <> y) by congruence. assert (b <> y) by set_solver.
  pose proof (Hsp b y ltac:(left) ltac:(do 2 right; done)).
  pose proof (Hsp x y ltac:(right; left) ltac:(do 2 right; done)).
  split; by rd_solve.
Qed.

(** The memory after unlinking [b]. *)
Definition unlink_mem (m : gmap Z Z) (b : Z) : gmap Z Z :=
  let p := rd m (b + 8) in
  let n := rd m (b + 16) in
  let m := if p =? 0 then m else <[p + 16 := n]> m in
  let m := if n =? 0 then m else <[n + 8 := p]> m in
  <[b + 8 := 0]> (<[b + 16 := 0]> m).

Lemma dll_links m l1 x l2 p h :
  dll m p h (l1 ++ x :: l2) ->
  rd m (x + 8) = default p (last l1) /\ rd m (x + 16) = default 0 (head l2).
Proof.
  revert p h. induction l1 as [|y l1 IH]; intros p h; simpl.
  - intros (-> & Hp & Hd). split; [done|]. destruct l2; simpl in *; [done|]. by destruct Hd.
  - intros (-> & _ & Hd). destruct (IH _ _ Hd) as [H8 H16]. split; [|done].
    rewrite H8. rewrite last_cons. by destruct (last l1).
Qed.

(** Nodes other than [b] and its two neighbours keep their links; [m'] is the
    memory after the unlink. *)
Lemma unlink_other m b y :
  let p := rd m (b + 8) in let n := rd m (b + 16) in
  (forall x, x = b \/ (x = p /\ p <> 0) \/ (x = n /\ n <> 0) ->
     x = y \/ x + 64 <= y \/ y + 64 <= x) ->
  y <> b ->
  rd (unlink_mem m b) (y + 8) = (if decide (y = n /\ n <> 0) then p else rd m (y + 8)) /\
  rd (unlink_mem m b) (y + 16) = (if decide (y = p /\ p <> 0) then n else rd m (y + 16)).
Proof.
  intros p n Hsp Hyb. unfold unlink_mem. fold p n.
  pose proof (Hsp b ltac:(auto)) as Hb.
  rewrite !(rd_insert_ne _ (b + 8)), !(rd_insert_ne _ (b + 16)) by lia.
  destruct (Z.eqb_spec p 0) as [Hp|Hp]; destruct (Z.eqb_spec n 0) as [Hn|Hn].
  - rewrite !decide_False by lia. done.
  - pose proof (Hsp n ltac:(auto)). rewrite (decide_False (P := y = p /\ _)) by lia.
    rewrite !rd_insert. repeat case_decide; split; try done; lia.
  - pose proof (Hsp p ltac:(auto)). rewrite (decide_False (P := y = n /\ _)) by lia.
    rewrite !rd_insert. repeat case_decide; split; try done; lia.
  - pose proof (Hsp n ltac:(auto)). pose proof (Hsp p ltac:(auto)).
    rewrite !rd_insert. repeat case_decide; split; try done; lia.
Qed.

Lemma dll_unlink_tail m b p l2 :
  dll m b (rd m (b + 16)) l2 -> spaced (b :: l2) -> rd m (b + 8) = p ->
  (p <> 0 -> forall y, y ∈ b :: l2 -> p + 64 <= y \/ y + 64 <= p) ->
  dll (unlink_mem m b) p (rd m (b + 16)) l2.
Proof.
  intros Hd Hsp Hp Hfar. destruct l2 as [|y l2]; simpl in *; [done|].
  destruct Hd as (Hn & H8 & Hd). pose proof (spaced_cons _ _ Hsp) as [Hb Hsp2].
  pose proof (spaced_cons _ _ Hsp2) as [Hy _]. destruct Hsp as (_ & Hpos & Hsp).
  assert (Hoth : forall z, z ∈ y :: l2 ->
    rd (unlink_mem m b) (z + 8) = (if decide (z = y) then p else rd m (z + 8)) /\
    rd (unlink_mem m b) (z + 16) = rd m (z + 16)).
  { intros z Hz. destruct (unlink_other m b z) as [E1 E2].
    - intros x [->|[[-> ?]|[-> ?]]].
      + apply Hsp; [left|by right].
      + rewrite Hp in *. destruct (Hfar ltac:(done) z ltac:(by right)); lia.
      + rewrite Hn. apply Hsp; [right; left|by right].
    - intros ->. done.
    - pose proof (Hpos y ltac:(right; left)). rewrite E1, E2, Hn, Hp. split.
      + repeat case_decide; try done; lia.
      + rewrite decide_False; [done|]. intros [Hzp Hp0].
        destruct (Hfar Hp0 z ltac:(by right)); lia. }
  destruct (Hoth y ltac:(left)) as [E1 E2]. rewrite decide_True in E1 by done.
  split_and!; [done|done|]. rewrite E2. eapply dll_frame; [exact Hd|].
  intros z Hz. destruct (Hoth z ltac:(by right)) as [F1 F2].
  rewrite decide_False in F1 by congruence. done.
Qed.

Lemma dll_unlink m b l1 l2 p h :
  dll m p h (l1 ++ b :: l2) -> spaced (l1 ++ b :: l2) ->
  (p <> 0 -> forall y, y ∈ l1 ++ b :: l2 -> p + 64 <= y \/ y + 64 <= p) ->
  dll (unlink_mem m b) p (match l1 with [] => rd m (b + 16) | _ => h end) (l1 ++ l2).
Proof.
  revert p h. induction l1 as [|x l1 IH]; intros p h Hd Hsp Hfar; cbn [app] in *.
  { destruct Hd as (-> & Hp & Hd). by apply dll_unlink_tail. }
  destruct (dll_links m (x :: l1) b l2 p h Hd) as [L8 L16].
  destruct Hd as (-> & Hp & Hd). pose proof (spaced_cons _ _ Hsp) as [Hx Hsp2].
  pose proof Hsp as (_ & Hpos & Hfar2).
  assert (Hprev : rd m (b + 8) ∈ x :: l1).
  { rewrite L8. rewrite last_cons. destruct (last l1) as [z|] eqn:E; simpl; [|left].
    right. apply last_Some in E as [l' ->]. set_solver. }
  assert (Hnext : rd m (b + 16) <> 0 -> rd m (b + 16) ∈ l2).
  { rewrite L16. destruct l2; simpl; [done|]. intros _. left. }
  destruct (unlink_other m b x) as [E1 E2].
  { intros y [->|[[-> _]|[-> Hn0]]]; apply Hfar2; set_solver. }
  { intros ->. set_solver. }
  assert (IHa : dll (unlink_mem m b) x
    (match l1 with [] => rd m (b + 16) | _ => rd m (x + 16) end) (l1 ++ l2)).
  { apply IH; [done|done|]. intros _ y Hy.
    destruct (Hfar2 x y ltac:(left) ltac:(by right)) as [->|?]; [done|lia]. }
  simpl. split; [done|]. split.
  - rewrite E1, decide_False; [done|]. intros [-> ?]. set_solver.
  - rewrite E2. rewrite L8, last_cons in *. destruct (last l1) as [z|] eqn:E; simpl in *.
    + rewrite decide_False.
      * destruct l1; [done|]. done.
      * intros [-> _]. apply last_Some in E as [l' ->]. set_solver.
    + apply last_None in E as ->. rewrite decide_True; [done|].
      split; [done|]. pose proof (Hpos x ltac:(left)). lia.
Qed.

(** ** The heap's shape *)
Record hshape (m : gmap Z Z) (curr head : Z) (bl : list blk) (fl : list Z) : Prop := {
  sh_tiles : contiguous HEAP_BASE bl curr;
  sh_tags : forall b, b ∈ bl -> tagged m b;
  sh_dll : dll m 0 head fl;
  sh_nodup : NoDup fl;
  sh_free : forall x, x ∈ fl <-> exists sz, Blk x sz Free ∈ bl;
}.

Lemma free_spaced bl e l :
  contiguous HEAP_BASE bl e -> NoDup l -> (forall x, x ∈ l -> exists n, Blk x n Free ∈ bl) -> spaced l.
Proof.
  intros Ht Hnd Hf. split_and!; [done| |].
  - intros x (sz & Hx)%Hf. apply (contiguous_in _ _ _ _ Ht) in Hx as (?&_). simpl in *.
    unfold HEAP_BASE in *. lia.
  - intros x y (sx & Hx)%Hf (sy & Hy)%Hf.
    pose proof (contiguous_in _ _ _ _ Ht Hx) as (_&_&[? _]&_).
    pose proof (contiguous_in _ _ _ _ Ht Hy) as (_&_&[? _]&_).
    destruct (contiguous_disjoint _ _ _ _ _ Ht Hx Hy) as [?|[?|?]]; unfold b_end in *;
      simpl in *; [left; congruence|right; lia|right; lia].
Qed.

Lemma shape_spaced m curr head bl fl :
  hshape m curr head bl fl -> spaced fl.
Proof. intros [Ht _ _ Hnd Hf]. eapply free_spaced; [done|done|]. intros x. apply Hf. Qed.

(** [m'] differs from [m] at most in link words of the free blocks of [bl]. *)
Definition links_only (bl : list blk) (m m' : gmap Z Z) : Prop :=
  forall w, (forall x sz, Blk x sz Free ∈ bl -> w <> x + 8 /\ w <> x + 16) -> rd m' w = rd m w.

(** No tag word of a block is a link word of a (possibly different) block. *)
Lemma tag_not_link a bl e b x sz st :
  contiguous a bl e -> b ∈ bl -> Blk x sz st ∈ bl ->
  b_addr b <> x + 8 /\ b_addr b <> x + 16 /\ b_end b - 8 <> x + 8 /\ b_end b - 8 <> x + 16.
Proof.
  intros Hc Hb Hx.
  pose proof (contiguous_in _ _ _ _ Hc Hb) as (_&_&[? _]&_).
  pose proof (contiguous_in _ _ _ _ Hc Hx) as (_&_&[? _]&_).
  destruct (contiguous_disjoint _ _ _ _ _ Hc Hb Hx) as [->|[?|?]]; unfold b_end in *; simpl in *; lia.
Qed.

Lemma tagged_links_only a bl e b m m' :
  contiguous a bl e -> b ∈ bl -> links_only bl m m' -> tagged m b -> tagged m' b.
Proof.
  intros Hc Hb Hl [H1 H2]. split.
  - rewrite Hl; [done|]. intros x sz Hx. by destruct (tag_not_link _ _ _ _ _ _ _ Hc Hb Hx) as (?&?&?&?).
  - rewrite Hl; [done|]. intros x sz Hx. by destruct (tag_not_link _ _ _ _ _ _ _ Hc Hb Hx) as (?&?&?&?).
Qed.

(** A word inside a block that is not free is no link word. *)
Lemma links_only_inside a bl e b w m m' :
  contiguous a bl e -> b ∈ bl -> b_st b <> Free -> b_addr b <= w < b_end b ->
  links_only bl m m' -> rd m' w = rd m w.
Proof.
  intros Hc Hb Hst Hw Hl. apply Hl. intros x sz Hx.
  pose proof (contiguous_in _ _ _ _ Hc Hx) as (_&_&[? _]&_).
  destruct (contiguous_disjoint _ _ _ _ _ Hc Hb Hx) as [->|[?|?]]; [done| |];
    unfold b_end in *; simpl in *; lia.
Qed.

Section restate.
Context (l1 l2 : list blk) (a sz : Z).

Lemma contiguous_restate st st' c e :
  contiguous c (l1 ++ Blk a sz st :: l2) e -> contiguous c (l1 ++ Blk a sz st' :: l2) e.
Proof. rewrite !contiguous_app. done. Qed.

(** With the tiling, the addresses of the free blocks determine membership. *)
Lemma free_restate st x :
  st <> Free ->
  (exists n, Blk x n Free ∈ l1 ++ Blk a sz Free :: l2) <->
  x = a \/ exists n, Blk x n Free ∈ l1 ++ Blk a sz st :: l2.
Proof.
  intros Hst. split.
  - intros (n & [Hx|Hx]%elem_around_inv); [left; congruence|right; exists n; auto with kernel].
  - intros [->|(n & [Hx|Hx]%elem_around_inv)]; [exists sz; auto with kernel|congruence|].
    exists n. auto with kernel.
Qed.

Lemma free_restate_not c e st n :
  contiguous c (l1 ++ Blk a sz st :: l2) e -> st <> Free ->
  Blk a n Free ∉ l1 ++ Blk a sz st :: l2.
Proof.
  intros Hc Hst Hin.
  pose proof (contiguous_inj _ _ _ _ (Blk a sz st) Hc Hin (elem_mid _ _ _) eq_refl). congruence.
Qed.

Lemma tags_restate m st st' :
  (forall b, b ∈ l1 ++ Blk a sz st :: l2 -> tagged m b) -> enc (Blk a sz st) = enc (Blk a sz st') ->
  forall b, b ∈ l1 ++ Blk a sz st' :: l2 -> tagged m b.
Proof.
  intros Ht He b [->|Hb]%elem_around_inv; [|apply Ht; auto with kernel].
  destruct (Ht (Blk a sz st)) as [H1 H2]; [auto with kernel|].
  unfold tagged. rewrite <- He. done.
Qed.
End restate.

Lemma shape_unlink m curr head l1 a sz l2 fl :
  hshape m curr head (l1 ++ Blk a sz Free :: l2) fl ->
  exists fl',
    hshape (unlink_mem m a) curr (if rd m (a + 8) =? 0 then rd m (a + 16) else head)
      (l1 ++ Blk a sz Pending :: l2) fl' /\
    links_only (l1 ++ Blk a sz Free :: l2) m (unlink_mem m a) /\
    (rd m (a + 8) <> 0 -> rd m (a + 8) ∈ fl /\ rd m (a + 8) <> a) /\
    (rd m (a + 16) <> 0 -> rd m (a + 16) ∈ fl /\ rd m (a + 16) <> a).
Proof.
  intros Hs. pose proof (shape_spaced _ _ _ _ _ Hs) as Hsp. destruct Hs as [Ht Htag Hd Hnd Hf].
  set (bl := l1 ++ Blk a sz Free :: l2) in *.
  assert (Ha : a ∈ fl) by (apply Hf; exists sz; apply elem_mid).
  apply list_elem_of_split in Ha as (f1 & f2 & ->).
  destruct (dll_links _ _ _ _ _ _ Hd) as [L8 L16].
  assert (Hp : rd m (a + 8) <> 0 -> rd m (a + 8) ∈ f1).
  { rewrite L8. destruct (last f1) as [z|] eqn:E; simpl; [|done]. intros _.
    apply last_Some in E as [l' ->]. apply elem_mid. }
  assert (Hn : rd m (a + 16) <> 0 -> rd m (a + 16) ∈ f2).
  { rewrite L16. destruct f2; simpl; [done|]. intros _. left. }
  assert (Ha12 : a ∉ f1 ++ f2 /\ NoDup (f1 ++ f2)).
  { apply NoDup_cons. by rewrite <- Permutation_middle in Hnd. }
  destruct Ha12 as [Ha12 Hnd'].
  assert (Hlo : links_only bl m (unlink_mem m a)).
  { intros w Hw. unfold unlink_mem.
    assert (Hfw : forall y, y ∈ f1 ++ a :: f2 -> w <> y + 8 /\ w <> y + 16).
    { intros y (n & Hy)%Hf. by apply (Hw y n). }
    destruct (Hfw a (elem_mid _ _ _)). rewrite !rd_insert_ne by lia.
    assert (rd m (a + 8) <> 0 -> w <> rd m (a + 8) + 16).
    { intros Hp0. apply Hfw. apply elem_left. by apply Hp. }
    assert (rd m (a + 16) <> 0 -> w <> rd m (a + 16) + 8).
    { intros Hn0. apply Hfw. apply elem_right. by apply Hn. }
    destruct (Z.eqb_spec (rd m (a + 8)) 0); destruct (Z.eqb_spec (rd m (a + 16)) 0);
      rewrite ?rd_insert_ne by (apply not_eq_sym; auto); done. }
  exists (f1 ++ f2). split; [|split; [done|split]].
  - pose proof (contiguous_restate _ _ _ _ _ Pending _ _ Ht) as Ht'. constructor.
    + done.
    + apply (tags_restate _ _ _ _ _ Free); [|done]. intros b Hb.
      eapply tagged_links_only; [exact Ht|done|exact Hlo|by apply Htag].
    + pose proof (dll_unlink m a f1 f2 0 head Hd Hsp ltac:(done)) as Hu.
      destruct (Z.eqb_spec (rd m (a + 8)) 0) as [Hz|Hz]; [|by destruct f1].
      destruct f1 as [|y f1]; [done|]. exfalso. destruct Hsp as (_ & Hpos & _).
      rewrite Hz, last_cons in L8. destruct (last f1) as [z|] eqn:E; simpl in L8.
      * apply last_Some in E as [l' ->]. pose proof (Hpos z ltac:(right; apply elem_left, elem_mid)). lia.
      * pose proof (Hpos y ltac:(left)). lia.
    + done.
    + intros x. pose proof (free_restate l1 l2 a sz Pending x ltac:(done)) as Hfr.
      fold bl in Hfr. rewrite <- Hf in Hfr. split.
      * intros Hx. destruct (proj1 Hfr (elem_around a x _ _ Hx)) as [->|?]; done.
      * intros Hx. destruct (elem_around_inv _ _ _ _ (proj2 Hfr (or_intror Hx))) as [->|?]; [|done].
        destruct Hx as [n Hx]. by apply (free_restate_not _ _ _ _ _ _ _ n Ht') in Hx.
  - intros Hp0. specialize (Hp Hp0). split; [by apply elem_left|]. intros He. apply Ha12.
    apply elem_of_app. left. by rewrite He in Hp.
  - intros Hn0. specialize (Hn Hn0). split; [by apply elem_right|]. intros He. apply Ha12.
    apply elem_of_app. right. by rewrite He in Hn.
Qed.

Lemma shape_push m curr head l1 a sz l2 fl :
  hshape m curr head (l1 ++ Blk a sz Pending :: l2) fl ->
  hshape (push_mem m head a) curr a (l1 ++ Blk a sz Free :: l2) (a :: fl) /\
  links_only (l1 ++ Blk a sz Free :: l2) m (push_mem m head a) /\
  (head <> 0 -> head ∈ fl) /\ a ∉ fl.
Proof.
  intros [Ht Htag Hd Hnd Hf].
  pose proof (contiguous_restate _ _ _ _ _ Free _ _ Ht) as Ht'.
  set (bl := l1 ++ Blk a sz Free :: l2) in *.
  assert (Ha : a ∉ fl).
  { intros (n & Hx)%Hf. by apply (free_restate_not _ _ _ _ _ _ _ n Ht) in Hx. }
  assert (Hf' : forall x, x ∈ a :: fl <-> exists n, Blk x n Free ∈ bl).
  { intros x. rewrite elem_of_cons, Hf. symmetry. by apply free_restate. }
  assert (Hh : head <> 0 -> head ∈ fl).
  { destruct fl; simpl in Hd; [done|]. destruct Hd as (-> & _). intros _. left. }
  assert (Hlo : links_only bl m (push_mem m head a)).
  { intros w Hw. unfold push_mem.
    assert (Hfw : forall y, y ∈ a :: fl -> w <> y + 8 /\ w <> y + 16).
    { intros y (n & Hy)%Hf'. by apply (Hw y n). }
    destruct (Hfw a ltac:(left)).
    destruct (Z.eqb_spec head 0); rewrite !rd_insert_ne; try done; try lia.
    destruct (Hfw head); [right; auto|lia]. }
  pose proof (tags_restate l1 l2 a sz m Pending Free Htag eq_refl) as Hsh.
  split_and!; try done. constructor; try done.
  - intros b Hb. eapply tagged_links_only; [exact Ht'|done|exact Hlo|by apply Hsh].
  - apply dll_push; [done|].
    eapply free_spaced; [exact Ht'|by constructor|]. intros x. apply Hf'.
  - by constructor.
Qed.

(** Re-tiling: a run of blocks none of which is free may be cut differently, and
    its contents rewritten, as long as the new tags are in place. *)
Lemma shape_retile m m' curr head l1 mid mid' l2 fl c d :
  hshape m curr head (l1 ++ mid ++ l2) fl ->
  contiguous c mid d -> contiguous c mid' d -> mid <> [] ->
  (forall b, b ∈ mid -> b_st b <> Free) -> (forall b, b ∈ mid' -> b_st b <> Free) ->
  (forall w, ~ (c <= w < d) -> rd m' w = rd m w) ->
  (forall b, b ∈ mid' -> tagged m' b) ->
  hshape m' curr head (l1 ++ mid' ++ l2) fl.
Proof.
  intros [Ht Htag Hd Hnd Hf] Hcm Hcm' Hne Hnf Hnf' Hout Htag'.
  pose proof Ht as Ht0.
  rewrite !contiguous_app in Ht. destruct Ht as (c' & H1 & Ht). apply contiguous_app in Ht as (d' & H2 & H3).
  assert (c' = c) as ->.
  { destruct mid as [|b mid]; [done|]. simpl in Hcm, H2. destruct Hcm as (<-&_). by destruct H2 as (<-&_). }
  assert (d' = d) as ->.
  { clear -H2 Hcm. revert c Hcm H2. induction mid as [|b mid IH]; intros c; simpl; [congruence|].
    intros (_&_&?) (_&_&?). by eapply IH. }
  assert (Hsep : forall b, b ∈ l1 ++ l2 -> b_end b <= c \/ d <= b_addr b).
  { intros b [Hb|Hb]%elem_of_app.
    - left. by apply (contiguous_in _ _ _ _ H1 Hb).
    - right. by apply (contiguous_in _ _ _ _ H3 Hb). }
  assert (Hsz : forall b, b ∈ l1 ++ l2 -> 64 <= b_size b).
  { intros b Hb. eapply (contiguous_in _ _ _ b Ht0). rewrite !elem_of_app in *. tauto. }
  assert (Hfree : forall x n, Blk x n Free ∈ l1 ++ mid ++ l2 <-> Blk x n Free ∈ l1 ++ mid' ++ l2).
  { intros x n. rewrite !elem_of_app. split; intros [?|[?|?]]; auto;
      [by destruct (Hnf _ H)|by destruct (Hnf' _ H)]. }
  constructor.
  - rewrite !contiguous_app. exists c. split; [done|]. apply contiguous_app. by exists d.
  - intros b Hb. assert (b ∈ mid' \/ b ∈ l1 ++ l2) as [?|Hb'] by (rewrite !elem_of_app in *; tauto);
      [by apply Htag'|].
    destruct (Htag b) as [T1 T2]; [rewrite !elem_of_app in *; tauto|].
    pose proof (Hsep b Hb'). pose proof (Hsz b Hb').
    split; rewrite Hout; try done; unfold b_end in *; lia.
  - eapply dll_frame; [exact Hd|]. intros x (n & Hx)%Hf.
    assert (Hb' : Blk x n Free ∈ l1 ++ l2).
    { rewrite !elem_of_app in *. destruct Hx as [?|[Hx|?]]; auto. by destruct (Hnf _ Hx). }
    pose proof (Hsep _ Hb'). pose proof (Hsz _ Hb'). unfold b_end in *. simpl in *.
    split; rewrite Hout; try done; lia.
  - done.
  - intros x. rewrite Hf. by setoid_rewrite Hfree.
Qed.

(** Growth: the fresh pages become one block in the allocator's hands. *)
Lemma shape_grow m m' curr head bl fl n :
  hshape m curr head bl fl -> size_ok n ->
  (forall w, w < curr -> rd m' w = rd m w) -> tagged m' (Blk curr n Pending) ->
  hshape m' (curr + n) head (bl ++ [Blk curr n Pending]) fl.
Proof.
  intros [Ht Htag Hd Hnd Hf] Hn Hout Htn. constructor.
  - apply contiguous_app. exists curr. split; [done|]. simpl. done.
  - intros b [Hb|Hb]%elem_of_app.
    + destruct (Htag b Hb) as [T1 T2]. pose proof (contiguous_in _ _ _ _ Ht Hb) as (_&?&[? _]&_).
      split; rewrite Hout; try done; unfold b_end in *; lia.
    + apply list_elem_of_singleton in Hb as ->. done.
  - eapply dll_frame; [exact Hd|]. intros x (k & Hx)%Hf.
    pose proof (contiguous_in _ _ _ _ Ht Hx) as (_&?&[? _]&_). unfold b_end in *. simpl in *.
    split; rewrite Hout; try done; lia.
  - done.
  - intros x. rewrite Hf. setoid_rewrite elem_of_app. split.
    + intros [k ?]. exists k. by left.
    + intros [k [?|?%list_elem_of_singleton]]; [by exists k|congruence].
Qed.

End HeapShape.
