(* ===== verification/KmallocInv.v ===== *)
(** The kernel heap's invariant and what each internal routine of
    [src/src/mm/kmalloc.c] does to it, proved against the [HeapBacking]
    interface. *)
From S2P Require Import Prelude Lock Kmalloc HeapShape.

Module KmallocInv.
Import HeapShape.

Section inv.
Context {B : Type} {HB : HeapBacking B} {HL : HeapBackingLaws B}.
Notation st := (kheap B).

(** Every byte of the arena lies in a mapped page. *)
Definition accessible (s : st) : Prop :=
  forall a, HEAP_BASE <= a < g_heap_curr s -> hb_mapped (kback s) (page_of a) = true.

Record hinv (s : st) (bl : list blk) (fl : list Z) : Prop := {
  hi_shape : hshape (kmem s) (g_heap_curr s) (g_free_list s) bl fl;
  hi_curr : HEAP_BASE <= g_heap_curr s <= HEAP_LIMIT;
  hi_page : g_heap_curr s mod 4096 = 0;
  hi_acc : accessible s;
  hi_back : hb_inv (kback s);
}.

(** The arena bound, the lock and the paging state are as before. *)
Definition same (s s' : st) : Prop :=
  g_heap_curr s' = g_heap_curr s /\ g_heap_lock s' = g_heap_lock s /\ kback s' = kback s.

Lemma load_eq s a :
  accessible s -> HEAP_BASE <= a < g_heap_curr s -> load a s = Ret (rd (kmem s) a) s.
Proof. intros Hacc Ha. unfold load. by rewrite Hacc. Qed.

Lemma store_eq s a v :
  accessible s -> HEAP_BASE <= a < g_heap_curr s ->
  store a v s = Ret tt (set_kmem (<[a := v]> (kmem s)) s).
Proof. intros Hacc Ha. unfold store. by rewrite Hacc. Qed.

(** A state with the same arena bound and paging state is as accessible. *)
Lemma accessible_same s s' : same s s' -> accessible s -> accessible s'.
Proof. intros (Hc & _ & Hb) Ha a. rewrite Hc, Hb. apply Ha. Qed.

Lemma accessible_set_kmem s m : accessible s -> accessible (set_kmem m s).
Proof. done. Qed.

Lemma block_in s bl fl b : hinv s bl fl -> b ∈ bl ->
  HEAP_BASE <= b_addr b /\ b_end b <= g_heap_curr s /\ size_ok (b_size b) /\ b_addr b mod 16 = 0 /\
  b_size b < 2 ^ 32.
Proof.
  intros [Hs Hc _ _ _] Hb. pose proof (contiguous_in _ _ _ _ (sh_tiles _ _ _ _ _ Hs) Hb) as (?&?&[??]&Hal).
  split_and!; try done. { by apply Hal. } unfold HEAP_LIMIT, b_end in *. lia.
Qed.

(** Links of free-list nodes stay inside the arena. *)
Lemma node_in s bl fl x : hinv s bl fl -> x ∈ fl -> HEAP_BASE <= x /\ x + 64 <= g_heap_curr s.
Proof.
  intros Hi Hx. apply (sh_free _ _ _ _ _ (hi_shape _ _ _ Hi)) in Hx as (n & Hx).
  destruct (block_in _ _ _ _ Hi Hx) as (?&?&[??]&_). unfold b_end in *. simpl in *. lia.
Qed.

Lemma fl_remove_spec s l1 a sz l2 fl :
  hinv s (l1 ++ Blk a sz Free :: l2) fl ->
  exists fl' s', fl_remove a s = Ret tt s' /\ hinv s' (l1 ++ Blk a sz Pending :: l2) fl' /\
    links_only (l1 ++ Blk a sz Free :: l2) (kmem s) (kmem s') /\ same s s'.
Proof.
  intros Hi. pose proof Hi as [Hs Hc Hp Hacc Hb].
  destruct (shape_unlink _ _ _ _ _ _ _ _ Hs) as (fl' & Hs' & Hlo & Hpin & Hnin).
  pose proof (block_in _ _ _ _ Hi (elem_mid _ _ _)) as (Ha1 & Ha2 & [Hsz _] & _).
  unfold b_end in Ha2. simpl in *.
  assert (Hsp := shape_spaced _ _ _ _ _ Hs). destruct Hsp as (_ & _ & Hsp).
  assert (Ha : a ∈ fl) by (apply (sh_free _ _ _ _ _ Hs); exists sz; apply elem_mid).
  set (p := rd (kmem s) (a + 8)) in *. set (n := rd (kmem s) (a + 16)) in *.
  assert (Hpr : p <> 0 -> HEAP_BASE <= p /\ p + 64 <= g_heap_curr s /\ (p + 64 <= a \/ a + 64 <= p)).
  { intros Hp0. destruct (Hpin Hp0) as [Hpf Hpa]. destruct (node_in _ _ _ _ Hi Hpf).
    destruct (Hsp p a Hpf Ha) as [?|?]; [done|]. split_and!; lia. }
  assert (Hnr : n <> 0 -> HEAP_BASE <= n /\ n + 64 <= g_heap_curr s /\ (n + 64 <= a \/ a + 64 <= n)).
  { intros Hn0. destruct (Hnin Hn0) as [Hnf Hna]. destruct (node_in _ _ _ _ Hi Hnf).
    destruct (Hsp n a Hnf Ha) as [?|?]; [done|]. split_and!; lia. }
  exists fl', (set_fl (if p =? 0 then n else g_free_list s) (set_kmem (unlink_mem (kmem s) a) s)).
  split; [|split_and!; try done].
  unfold fl_remove, off_prev_free, off_next_free.
  rewrite (bind_Ret _ _ _ _ _ (load_eq s (a + 8) Hacc ltac:(lia))). fold p.
  set (m1 := if p =? 0 then kmem s else <[p + 16 := n]> (kmem s)).
  set (s1 := set_fl (if p =? 0 then n else g_free_list s) (set_kmem m1 s)).
  rewrite (bind_Ret _ _ _ tt s1).
  2: { subst s1 m1. destruct (Z.eqb_spec p 0) as [Hp0|Hp0]; simpl.
       - rewrite (bind_Ret _ _ _ _ _ (load_eq s (a + 16) Hacc ltac:(lia))). by destruct s.
       - rewrite (bind_Ret _ _ _ _ _ (load_eq s (a + 16) Hacc ltac:(lia))).
         rewrite store_eq; [by destruct s|done|]. destruct (Hpr Hp0). lia. }
  assert (Hacc1 : accessible s1) by (subst s1; exact Hacc).
  assert (H16 : rd m1 (a + 16) = n).
  { subst m1. destruct (Z.eqb_spec p 0) as [|Hp0]; [done|]. destruct (Hpr Hp0). by rd_solve. }
  assert (H8 : rd m1 (a + 8) = p).
  { subst m1. destruct (Z.eqb_spec p 0) as [|Hp0]; [done|]. destruct (Hpr Hp0). by rd_solve. }
  rewrite (bind_Ret _ _ _ _ _ (load_eq s1 (a + 16) Hacc1 ltac:(simpl; lia))).
  change (kmem s1) with m1. rewrite H16.
  set (m2 := if n =? 0 then m1 else <[n + 8 := p]> m1).
  rewrite (bind_Ret _ _ _ tt (set_kmem m2 s1)).
  2: { subst m2. destruct (Z.eqb_spec n 0) as [Hn0|Hn0]; simpl; [done|].
       rewrite (bind_Ret _ _ _ _ _ (load_eq s1 (a + 8) Hacc1 ltac:(simpl; lia))).
       change (kmem s1) with m1. rewrite H8.
       rewrite store_eq; [done|done|]. destruct (Hnr Hn0). simpl. lia. }
  rewrite (bind_Ret _ _ _ _ _ (store_eq (set_kmem m2 s1) (a + 16) 0 Hacc1 ltac:(simpl; lia))).
  rewrite store_eq; [|exact Hacc1|simpl; lia].
  subst s1. unfold set_kmem, set_fl, unlink_mem. simpl. fold p n. by subst m2 m1.
Qed.

Definition mapped (s : st) (a : Z) : Prop := hb_mapped (kback s) (page_of a) = true.

Lemma store_mapped s a v : mapped s a -> store a v s = Ret tt (set_kmem (<[a := v]> (kmem s)) s).
Proof. intros Ha. unfold store. by rewrite Ha. Qed.

Lemma load_mapped s a : mapped s a -> load a s = Ret (rd (kmem s) a) s.
Proof. intros Ha. unfold load. by rewrite Ha. Qed.

Lemma fl_push_eq s a : mapped s (a + 8) -> mapped s (a + 16) ->
  (g_free_list s <> 0 -> mapped s (g_free_list s + 8)) ->
  fl_push a s = Ret tt (set_fl a (set_kmem (push_mem (kmem s) (g_free_list s) a) s)).
Proof.
  intros H8 H16 Hfl. unfold fl_push, off_prev_free, off_next_free, push_mem.
  rewrite (bind_Ret _ _ _ _ _ (store_mapped s (a + 8) 0 H8)), bind_get. simpl.
  set (s1 := set_kmem _ s). rewrite (bind_Ret _ _ _ _ _ (store_mapped s1 (a + 16) (g_free_list s) H16)).
  set (s2 := set_kmem _ s1). destruct (Z.eqb_spec (g_free_list s) 0) as [Hz|Hz]; simpl; [done|].
  by rewrite (bind_Ret _ _ _ _ _ (store_mapped s2 (g_free_list s + 8) a (Hfl Hz))).
Qed.

Lemma fl_push_spec s l1 a sz l2 fl :
  hinv s (l1 ++ Blk a sz Pending :: l2) fl ->
  exists fl' s', fl_push a s = Ret tt s' /\ hinv s' (l1 ++ Blk a sz Free :: l2) fl' /\
    links_only (l1 ++ Blk a sz Free :: l2) (kmem s) (kmem s') /\ same s s'.
Proof.
  intros Hi. pose proof Hi as [Hs Hc Hp Hacc Hb].
  destruct (shape_push _ _ _ _ _ _ _ _ Hs) as (Hs' & Hlo & Hh & Ha).
  pose proof (block_in _ _ _ _ Hi (elem_mid _ _ _)) as (Ha1 & Ha2 & [Hsz _] & _).
  unfold b_end in Ha2. simpl in *.
  exists (a :: fl), (set_fl a (set_kmem (push_mem (kmem s) (g_free_list s) a) s)).
  split; [|split_and!; try done].
  apply fl_push_eq; [apply Hacc; lia|apply Hacc; lia|]. intros Hz.
  destruct (node_in _ _ _ _ Hi (Hh Hz)). apply Hacc. lia.
Qed.

(** ** Header and footer writes *)
Lemma SET_ALLOC_eq s h : accessible s -> HEAP_BASE <= h < g_heap_curr s ->
  SET_ALLOC h s = Ret tt (set_kmem (<[h := Z.lor (rd (kmem s) h) 1]> (kmem s)) s).
Proof.
  intros Ha Hh. unfold SET_ALLOC. rewrite (bind_Ret _ _ _ _ _ (load_eq s h Ha Hh)). by rewrite store_eq.
Qed.

Lemma CLR_ALLOC_eq s h : accessible s -> HEAP_BASE <= h < g_heap_curr s ->
  CLR_ALLOC h s = Ret tt (set_kmem (<[h := BLK_SIZE (rd (kmem s) h)]> (kmem s)) s).
Proof.
  intros Ha Hh. unfold CLR_ALLOC. rewrite (bind_Ret _ _ _ _ _ (load_eq s h Ha Hh)). by rewrite store_eq.
Qed.

Lemma SET_SIZE_eq s h sz : accessible s -> HEAP_BASE <= h < g_heap_curr s ->
  SET_SIZE h sz s = Ret tt (set_kmem (<[h := Z.lor sz (Z.land (rd (kmem s) h) 1)]> (kmem s)) s).
Proof.
  intros Ha Hh. unfold SET_SIZE. rewrite (bind_Ret _ _ _ _ _ (load_eq s h Ha Hh)). by rewrite store_eq.
Qed.

(** [sync_footer] on a block whose header says [b] writes [b]'s footer. *)
Lemma sync_footer_eq s b : accessible s -> HEAP_BASE <= b_addr b -> b_end b <= g_heap_curr s ->
  size_ok (b_size b) -> b_size b < 2 ^ 63 -> rd (kmem s) (b_addr b) = enc b ->
  sync_footer (b_addr b) s = Ret tt (set_kmem (<[b_end b - 8 := enc b]> (kmem s)) s).
Proof.
  intros Ha H1 H2 Hsz Hlt Hw. pose proof Hsz as [? _]. unfold b_end in *.
  unfold sync_footer, FOOTER_OF. rewrite bind_assoc.
  rewrite (bind_Ret _ _ _ _ _ (load_eq s (b_addr b) Ha ltac:(lia))).
  rewrite (bind_Ret _ _ _ _ _ (eq_refl : ret _ _ = Ret _ _)).
  rewrite (bind_Ret _ _ _ _ _ (load_eq s (b_addr b) Ha ltac:(lia))).
  rewrite Hw, enc_size by done. unfold FTR_SIZE. rewrite store_eq; [done|done|lia].
Qed.

Lemma enc_free_word a sz : enc (Blk a sz Pending) = sz.
Proof. unfold enc. simpl. lia. Qed.

Lemma enc_used_word a sz : size_ok sz -> Z.lor sz 1 = enc (Blk a sz Used).
Proof. intros [_ ?]. unfold enc. simpl. apply lor_even_1. dm_lia. Qed.

Lemma enc_flag b : size_ok (b_size b) ->
  Z.land (enc b) 1 = match b_st b with Used => 1 | _ => 0 end.
Proof. intros [_ ?]. unfold enc. rewrite testbit_0_mod2. case_match; dm_lia. Qed.

(** Growing the size field keeps the flag. *)
Lemma enc_resize a sz sz' st : size_ok sz -> size_ok sz' ->
  Z.lor sz' (Z.land (enc (Blk a sz st)) 1) = enc (Blk a sz' st).
Proof.
  intros Hs Hs'. rewrite enc_flag by done. simpl. destruct st; unfold enc; simpl.
  - apply lor_even_1. destruct Hs'. dm_lia.
  - rewrite Z.lor_0_r. lia.
  - rewrite Z.lor_0_r. lia.
Qed.

(** ** Framing *)

(** The words of the handed-out blocks of [us] are as before. *)
Definition untouched (us : list blk) (m m' : gmap Z Z) : Prop :=
  forall b w, b ∈ us -> b_st b = Used -> b_addr b <= w < b_end b -> rd m' w = rd m w.

Lemma untouched_refl us m : untouched us m m.
Proof. done. Qed.

Lemma untouched_trans us m1 m2 m3 : untouched us m1 m2 -> untouched us m2 m3 -> untouched us m1 m3.
Proof. intros H1 H2 b w Hb Hu Hw. rewrite (H2 b w), (H1 b w); done. Qed.

Lemma untouched_sub us vs m m' :
  (forall b, b ∈ vs -> b_st b = Used -> b ∈ us) -> untouched us m m' -> untouched vs m m'.
Proof. intros Hs Hu b w Hb Hst. apply Hu; auto. Qed.

Lemma untouched_links a bl e us m m' :
  contiguous a bl e -> (forall b, b ∈ us -> b ∈ bl) -> links_only bl m m' -> untouched us m m'.
Proof. intros Hc Hs Hl b w Hb Hu Hw. eapply links_only_inside; eauto. by rewrite Hu. Qed.

(** Writes inside one stretch of the tiling leave the blocks around it alone. *)
Lemma untouched_around a l1 b l2 e m m' :
  contiguous a (l1 ++ b :: l2) e -> (forall w, ~ (b_addr b <= w < b_end b) -> rd m' w = rd m w) ->
  untouched (l1 ++ l2) m m'.
Proof.
  intros Hc Hw c w Hin _ Hcw. apply Hw. apply contiguous_app in Hc as (d & H1 & H2).
  simpl in H2. destruct H2 as (H2 & _ & H3).
  apply elem_of_app in Hin as [Hin|Hin].
  - apply (contiguous_in _ _ _ _ H1) in Hin as (_&?&_). lia.
  - apply (contiguous_in _ _ _ _ H3) in Hin as (?&_). lia.
Qed.

Lemma same_refl s : same s s.
Proof. done. Qed.
Lemma same_trans s1 s2 s3 : same s1 s2 -> same s2 s3 -> same s1 s3.
Proof. unfold same. intros (?&?&?) (?&?&?). split_and!; congruence. Qed.
Lemma same_set_kmem s m : same s (set_kmem m s).
Proof. done. Qed.
#[local] Hint Resolve same_refl same_set_kmem accessible_set_kmem untouched_refl : kernel.

(** The tag of a block, read back. *)
Lemma load_tag s bl fl b : hinv s bl fl -> b ∈ bl ->
  load (b_addr b) s = Ret (enc b) s /\ load (b_end b - 8) s = Ret (enc b) s.
Proof.
  intros Hi Hb. destruct (block_in _ _ _ _ Hi Hb) as (?&?&[? _]&_). pose proof (hi_acc _ _ _ Hi).
  destruct (sh_tags _ _ _ _ _ (hi_shape _ _ _ Hi) b Hb) as [T1 T2]. unfold b_end in *.
  rewrite !load_eq by (done || lia). by rewrite T1, T2.
Qed.

(** Replacing one stretch of the tiling, as an update of the invariant. *)
Lemma hinv_retile s m' l1 mid mid' l2 fl c d :
  hinv s (l1 ++ mid ++ l2) fl -> contiguous c mid d -> contiguous c mid' d -> mid <> [] ->
  (forall b, b ∈ mid -> b_st b <> Free) -> (forall b, b ∈ mid' -> b_st b <> Free) ->
  (forall w, ~ (c <= w < d) -> rd m' w = rd (kmem s) w) ->
  (forall b, b ∈ mid' -> tagged m' b) ->
  hinv (set_kmem m' s) (l1 ++ mid' ++ l2) fl.
Proof.
  intros [Hs Hcur Hp Hacc Hb] ?????? Ht. constructor; simpl; try done.
  by eapply (shape_retile _ _ _ _ _ mid mid').
Qed.

Definition tag_mem (b : blk) (m : gmap Z Z) : gmap Z Z :=
  <[b_end b - 8 := enc b]> (<[b_addr b := enc b]> m).

Lemma tag_mem_tagged b m : tagged (tag_mem b m) b.
Proof.
  unfold tagged, tag_mem. split; [|by rewrite rd_insert_eq].
  rewrite rd_insert. case_decide; [done|]. by rewrite rd_insert_eq.
Qed.

Lemma tag_mem_other b m w : w <> b_addr b -> w <> b_end b - 8 -> rd (tag_mem b m) w = rd m w.
Proof. intros. unfold tag_mem. by rewrite !rd_insert_ne by congruence. Qed.

Lemma tag_mem_outside b m w : size_ok (b_size b) -> ~ (b_addr b <= w < b_end b) ->
  rd (tag_mem b m) w = rd m w.
Proof. intros [? _] ?. apply tag_mem_other; unfold b_end in *; lia. Qed.

(** Retagging one block in the allocator's hands. *)
Lemma hinv_retag s l1 a sz st st' l2 fl :
  hinv s (l1 ++ Blk a sz st :: l2) fl -> st <> Free -> st' <> Free ->
  hinv (set_kmem (tag_mem (Blk a sz st') (kmem s)) s) (l1 ++ Blk a sz st' :: l2) fl.
Proof.
  intros Hi Hst Hst'. pose proof (block_in _ _ _ _ Hi (elem_mid _ _ _)) as (_&_&Hok&_).
  apply (hinv_retile s _ l1 [Blk a sz st] [Blk a sz st'] l2 fl a (a + sz)); try done.
  - intros b Hb. apply list_elem_of_singleton in Hb as ->. done.
  - intros b Hb. apply list_elem_of_singleton in Hb as ->. done.
  - intros w Hw. by apply tag_mem_outside.
  - intros b Hb. apply list_elem_of_singleton in Hb as ->. apply tag_mem_tagged.
Qed.

Lemma hinv_merge s l1 a sz st n l2 fl :
  hinv s (l1 ++ Blk a sz st :: Blk (a + sz) n Pending :: l2) fl -> st <> Free ->
  hinv (set_kmem (tag_mem (Blk a (sz + n) st) (kmem s)) s) (l1 ++ Blk a (sz + n) st :: l2) fl.
Proof.
  intros Hi Hst. pose proof (block_in _ _ _ _ Hi (elem_mid _ _ _)) as (_&_&[? ?]&_).
  pose proof (block_in _ _ _ (Blk (a + sz) n Pending) Hi ltac:(apply elem_right; left)) as (_&_&[? ?]&_).
  simpl in *. assert (Hok : size_ok (sz + n)) by (unfold size_ok; split; [lia|dm_lia]).
  apply (hinv_retile s _ l1 [Blk a sz st; Blk (a + sz) n Pending] [Blk a (sz + n) st] l2 fl a (a + (sz + n)));
    try done.
  - simpl. unfold b_end. simpl. split_and!; done || lia.
  - intros b Hb. apply elem_of_cons in Hb as [->|Hb]; [done|]. apply list_elem_of_singleton in Hb as ->. done.
  - intros b Hb. apply list_elem_of_singleton in Hb as ->. done.
  - intros w Hw. by apply tag_mem_outside.
  - intros b Hb. apply list_elem_of_singleton in Hb as ->. apply tag_mem_tagged.
Qed.

Lemma block_split_in s l1 b c l2 fl : hinv s (l1 ++ b :: c :: l2) fl -> b_addr c = b_end b.
Proof.
  intros Hi. destruct (contiguous_next _ _ _ _ _ (sh_tiles _ _ _ _ _ (hi_shape _ _ _ Hi)))
    as [[? _]|(n & l & He & Ha & _)]; [done|]. by simplify_eq.
Qed.

(** [SET_SIZE(h, new_sz); FOOTER_OF(h)->size_and_flags = h->size_and_flags;]
    where the neighbour is already off the free list. *)
Lemma merge_eq s l1 a sz st n l2 fl :
  hinv s (l1 ++ Blk a sz st :: Blk (a + sz) n Pending :: l2) fl ->
  SET_SIZE a (u64 (sz + n)) s =
    Ret tt (set_kmem (<[a := enc (Blk a (sz + n) st)]> (kmem s)) s) /\
  (let s1 := set_kmem (<[a := enc (Blk a (sz + n) st)]> (kmem s)) s in
   sync_footer a s1 = Ret tt (set_kmem (tag_mem (Blk a (sz + n) st) (kmem s)) s)).
Proof.
  intros Hi. pose proof (hi_acc _ _ _ Hi) as Hacc.
  pose proof (block_in _ _ _ _ Hi (elem_mid _ _ _)) as (H1&H2&Hok1&_&_).
  pose proof (block_in _ _ _ (Blk (a + sz) n Pending) Hi ltac:(apply elem_right; left)) as (_&H3&Hok2&_&_).
  pose proof (hi_curr _ _ _ Hi). destruct (sh_tags _ _ _ _ _ (hi_shape _ _ _ Hi) _ (elem_mid _ _ _)) as [T1 _].
  simpl in *. unfold b_end, HEAP_LIMIT in *. simpl in *. pose proof Hok1 as [??]. pose proof Hok2 as [??].
  assert (Hok : size_ok (sz + n)) by (unfold size_ok; split; [lia|dm_lia]).
  assert (Hb : sz + n < 2 ^ 63) by (unfold HEAP_BASE in *; lia).
  split.
  - rewrite SET_SIZE_eq by (done || lia). rewrite T1, wrap_small by lia. by rewrite enc_resize.
  - cbn zeta. rewrite (sync_footer_eq _ (Blk a (sz + n) st)); try done.
    + unfold b_end. simpl. lia.
    + simpl. by rewrite rd_insert_eq.
Qed.

(** ** Coalescing *)
Definition used (bl : list blk) : list blk := filter (fun b => b_st b = Used) bl.

(** No block is in the allocator's hands. *)
Definition settled (bl : list blk) : Prop := forall b, b ∈ bl -> b_st b <> Pending.

Lemma settled_sub bl bl' : (forall b, b ∈ bl' -> b ∈ bl) -> settled bl -> settled bl'.
Proof. unfold settled. auto. Qed.

(** What [coalesce(a)] does: the block in hand may have swallowed free
    neighbours; the handed-out blocks are as before, and the word where [a]'s
    header was does not look allocated. *)
Definition merged (l1 l2 : list blk) (a : Z) (s : st) (a' : Z) (s' : st) : Prop :=
  exists l1' sz' l2' fl', hinv s' (l1' ++ Blk a' sz' Pending :: l2') fl' /\
    used (l1' ++ l2') = used (l1 ++ l2) /\ settled (l1' ++ l2') /\
    untouched (l1 ++ l2) (kmem s) (kmem s') /\ same s s' /\
    IS_ALLOC (rd (kmem s') a) = false /\ (a = a' \/ a' + 64 <= a < a' + sz').

Lemma coalesce_next_spec s l1 a sz l2 fl :
  hinv s (l1 ++ Blk a sz Pending :: l2) fl -> settled (l1 ++ l2) ->
  exists sz' l2' fl' s', coalesce_next a s = Ret tt s' /\ hinv s' (l1 ++ Blk a sz' Pending :: l2') fl' /\ used l2' = used l2 /\
    (forall b, b ∈ l2' -> b ∈ l2) /\ untouched (l1 ++ l2) (kmem s) (kmem s') /\ same s s'.
Proof.
  intros Hi Hset. pose proof (sh_tiles _ _ _ _ _ (hi_shape _ _ _ Hi)) as Ht.
  destruct (load_tag _ _ _ _ Hi (elem_mid _ _ _)) as [Lh _]. simpl in Lh.
  pose proof (block_in _ _ _ _ Hi (elem_mid _ _ _)) as (_&_&Hok&_&Hlt).
  unfold coalesce_next, NEXT_BLOCK. rewrite bind_assoc, (bind_Ret _ _ _ _ _ Lh).
  rewrite enc_size by (done || simpl in *; lia). rewrite (bind_Ret _ _ _ _ _ (eq_refl : ret _ _ = Ret _ _)).
  rewrite bind_get. simpl b_size.
  destruct (contiguous_next _ _ _ _ _ Ht) as [[-> He]|([na nsz nst] & l2' & -> & Ha & Hlt2)];
    unfold b_end in *; simpl in *.
  { rewrite (proj2 (Z.ltb_ge _ _)) by lia. exists sz, [], fl, s. split_and!; auto with kernel. }
  rewrite (proj2 (Z.ltb_lt _ _)) by lia. subst na.
  destruct (load_tag _ _ _ (Blk (a + sz) nsz nst) Hi ltac:(apply elem_right; left)) as [Ln _].
  pose proof (block_in _ _ _ (Blk (a + sz) nsz nst) Hi ltac:(apply elem_right; left)) as (_&_&Hokn&_&Hltn).
  simpl in *. rewrite (bind_Ret _ _ _ _ _ Ln), enc_alloc by done. simpl.
  destruct nst; simpl; [| |by destruct (Hset (Blk (a + sz) nsz Pending)); [apply elem_mid|]].
  { exists sz, (Blk (a + sz) nsz Used :: l2'), fl, s. split_and!; auto with kernel. }
  replace (l1 ++ Blk a sz Pending :: Blk (a + sz) nsz Free :: l2')
    with ((l1 ++ [Blk a sz Pending]) ++ Blk (a + sz) nsz Free :: l2') in Hi by by rewrite <- app_assoc.
  destruct (fl_remove_spec _ _ _ _ _ _ Hi) as (fl' & s1 & E1 & Hi1 & Hlo & Hsame).
  rewrite <- !app_assoc in Hi1, Hlo. simpl in Hi1, Hlo.
  rewrite (bind_Ret _ _ _ _ _ E1).
  destruct (load_tag _ _ _ _ Hi1 (elem_mid _ _ _)) as [Lh1 _].
  destruct (load_tag _ _ _ (Blk (a + sz) nsz Pending) Hi1 ltac:(apply elem_right; left)) as [Ln1 _].
  simpl in *. rewrite (bind_Ret _ _ _ _ _ Lh1), (bind_Ret _ _ _ _ _ Ln1).
  rewrite !enc_size by (done || simpl; lia). simpl.
  destruct (merge_eq _ _ _ _ _ _ _ _ Hi1) as [M1 M2]. cbn zeta in M2. rewrite (bind_Ret _ _ _ _ _ M1), M2.
  pose proof (hinv_merge _ _ _ _ _ _ _ _ Hi1 ltac:(done)) as Hi2.
  exists (sz + nsz), l2', fl', (set_kmem (tag_mem (Blk a (sz + nsz) Pending) (kmem s1)) s1).
  split_and!; try done.
  - intros b Hb. by right.
  - eapply untouched_trans; [eapply (untouched_links _ _ _ _ _ _ Ht); [|exact Hlo]|].
    { intros b. apply elem_around. }
    assert (Hu : untouched (l1 ++ l2') (kmem s1) (tag_mem (Blk a (sz + nsz) Pending) (kmem s1))).
    { eapply untouched_around; [exact (sh_tiles _ _ _ _ _ (hi_shape _ _ _ Hi2))|].
      intros w Hw. apply tag_mem_outside; [|done].
      exact (proj1 (proj2 (proj2 (block_in _ _ _ _ Hi2 (elem_mid _ _ _))))). }
    eapply untouched_sub; [|exact Hu]. intros b [->|Hb]%elem_around_inv; done.
Qed.

Lemma coalesce_prev_spec s l1 a sz l2 fl :
  hinv s (l1 ++ Blk a sz Pending :: l2) fl -> settled (l1 ++ l2) ->
  exists a' s', coalesce_prev a s = Ret a' s' /\ merged l1 l2 a s a' s'.
Proof.
  intros Hi Hset. pose proof (sh_tiles _ _ _ _ _ (hi_shape _ _ _ Hi)) as Ht.
  destruct (load_tag _ _ _ _ Hi (elem_mid _ _ _)) as [Lh _]. simpl in Lh.
  pose proof (block_in _ _ _ _ Hi (elem_mid _ _ _)) as (_&_&Hok&_&Hlt).
  assert (Hstop : merged l1 l2 a s a s).
  { exists l1, sz, l2, fl. split_and!; auto with kernel.
    pose proof (proj1 (sh_tags _ _ _ _ _ (hi_shape _ _ _ Hi) _ (elem_mid _ _ _))) as Htag.
    simpl in Htag. by rewrite Htag, enc_alloc. }
  unfold coalesce_prev. rewrite Z.gtb_ltb.
  destruct (contiguous_prev _ _ _ _ _ Ht) as [[-> He]|(l1' & [pa psz pst] & -> & Ha & Hgt)];
    unfold b_end in *; simpl in *.
  { rewrite (proj2 (Z.ltb_ge _ _)) by lia. by exists a, s. }
  rewrite (proj2 (Z.ltb_lt _ _)) by lia. rewrite <- app_assoc in Hi, Ht. simpl in Hi, Ht.
  destruct (load_tag _ _ _ _ Hi (elem_mid _ _ _)) as [Lp Lf]. unfold b_end in Lf. simpl in Lp, Lf.
  pose proof (block_in _ _ _ _ Hi (elem_mid _ _ _)) as (_&_&Hokp&_&Hltp). simpl in *.
  unfold FTR_SIZE. replace (a - 8) with (pa + psz - 8) by lia. rewrite (bind_Ret _ _ _ _ _ Lf), enc_size by (done || simpl; lia). simpl.
  replace (a - psz) with pa by lia. rewrite (bind_Ret _ _ _ _ _ Lp), enc_alloc by done. simpl.
  destruct pst; simpl; [by exists a, s| |].
  2: { destruct (Hset (Blk pa psz Pending)); [|done]. rewrite <- app_assoc. apply elem_mid. }
  destruct (fl_remove_spec _ _ _ _ _ _ Hi) as (fl' & s1 & E1 & Hi1 & Hlo & Hsame).
  rewrite (bind_Ret _ _ _ _ _ E1). subst a.
  destruct (load_tag _ _ _ _ Hi1 (elem_mid _ _ _)) as [Lp1 _].
  destruct (load_tag _ _ _ (Blk (pa + psz) sz Pending) Hi1 ltac:(apply elem_right; left)) as [Lh1 _].
  simpl in *. rewrite (bind_Ret _ _ _ _ _ Lp1), (bind_Ret _ _ _ _ _ Lh1).
  rewrite !enc_size by (done || simpl; lia). simpl.
  destruct (merge_eq _ _ _ _ _ _ _ _ Hi1) as [M1 M2]. cbn zeta in M2.
  rewrite (bind_Ret _ _ _ _ _ M1), (bind_Ret _ _ _ _ _ M2).
  pose proof (hinv_merge _ _ _ _ _ _ _ _ Hi1 ltac:(done)) as Hi2.
  eexists pa, _. split; [reflexivity|]. exists l1', (psz + sz), l2, fl'.
  assert (Hin : forall b, b ∈ l1' ++ l2 -> b ∈ l1' ++ Blk pa psz Free :: l2) by (intros; by apply elem_around).
  split_and!; try done.
  - unfold used. rewrite !filter_app, filter_cons. simpl. by rewrite app_nil_r.
  - eapply settled_sub; [|exact Hset]. intros b Hb. rewrite <- app_assoc. simpl. by apply elem_around.
  - rewrite <- app_assoc. simpl.
    eapply untouched_trans; [eapply (untouched_links _ _ _ _ _ _ Ht); [|exact Hlo]|].
    { intros b. rewrite !elem_of_app, !elem_of_cons. tauto. }
    eapply untouched_sub; [|eapply (untouched_around _ l1' (Blk pa (psz + sz) Pending) l2)].
    + intros b [->|Hb]%elem_around_inv; done.
    + exact (sh_tiles _ _ _ _ _ (hi_shape _ _ _ Hi2)).
    + intros w Hw. apply tag_mem_outside; [|done].
      exact (proj1 (proj2 (proj2 (block_in _ _ _ _ Hi2 (elem_mid _ _ _))))).
  - destruct Hok, Hokp. simpl. rewrite tag_mem_other by (unfold b_end; simpl; lia).
    pose proof (proj1 (sh_tags _ _ _ _ _ (hi_shape _ _ _ Hi1) (Blk (pa + psz) sz Pending)
      ltac:(apply elem_right; left))) as Htag. simpl in Htag. by rewrite Htag, enc_alloc.
  - destruct Hok, Hokp. lia.
Qed.

Lemma coalesce_spec s l1 a sz l2 fl :
  hinv s (l1 ++ Blk a sz Pending :: l2) fl -> settled (l1 ++ l2) ->
  exists a' s', coalesce a s = Ret a' s' /\ merged l1 l2 a s a' s'.
Proof.
  intros Hi Hset.
  destruct (coalesce_next_spec _ _ _ _ _ _ Hi Hset) as (sz1 & l2' & fl1 & s1 & E1 & Hi1 & Hus & Hsub & Hun & Hsm).
  assert (Hset1 : settled (l1 ++ l2')).
  { eapply settled_sub; [|exact Hset]. intros b [?|?]%elem_of_app; apply elem_of_app; auto. }
  destruct (coalesce_prev_spec _ _ _ _ _ _ Hi1 Hset1) as 
    (a' & s2 & E2 & l1'' & sz' & l2'' & fl2 & Hi2 & Hus2 & Hset2 & Hun2 & Hsm2 & Hfl & Hin).
  exists a', s2. unfold coalesce. rewrite (bind_Ret _ _ _ _ _ E1). split; [done|].
  exists l1'', sz', l2'', fl2. split_and!; try done.
  - rewrite Hus2. unfold used in *. rewrite !filter_app. by rewrite Hus.
  - eapply untouched_trans; [done|]. eapply untouched_sub; [|exact Hun2].
    intros b Hb Hu. apply elem_of_app in Hb as [Hb|Hb]; apply elem_of_app; [by left|right].
    assert (b ∈ used l2') as []%list_elem_of_filter; [|done].
    rewrite Hus. by apply list_elem_of_filter.
  - by eapply same_trans.
Qed.

(** ** First fit *)

(** [r] is the first node of [l] whose block holds [T] bytes, 0 if there is
    none. *)
Definition first_fit (bl : list blk) (l : list Z) (T r : Z) : Prop :=
  let small x := forall n, Blk x n Free ∈ bl -> n < T in
  (r = 0 /\ forall x, x ∈ l -> small x) \/
  (exists f1 f2 sz, l = f1 ++ r :: f2 /\ Blk r sz Free ∈ bl /\ T <= sz /\ forall x, x ∈ f1 -> small x).

Lemma find_loop_spec s bl fl T : hinv s bl fl ->
  forall l fuel p h, dll (kmem s) p h l -> (forall x, x ∈ l -> x ∈ fl) -> (length l < fuel)%nat ->
  exists r, find_loop fuel h T s = Ret r s /\ first_fit bl l T r.
Proof.
  intros Hi. induction l as [|x l IH]; intros fuel p h Hd Hin Hf; (destruct fuel as [|fuel]; [simpl in Hf; lia|]).
  { simpl in Hd. subst. exists 0. split; [done|]. left. split; [done|]. intros x Hx. by apply elem_of_nil in Hx. }
  destruct Hd as (-> & _ & Hd).
  destruct (proj1 (sh_free _ _ _ _ _ (hi_shape _ _ _ Hi) x) (Hin x ltac:(left))) as (n & Hx).
  destruct (load_tag _ _ _ _ Hi Hx) as [Lx _]. destruct (block_in _ _ _ _ Hi Hx) as (H1&H2&Hok&_&Hlt).
  unfold b_end, HEAP_BASE in H1, H2. simpl in *. destruct Hok.
  rewrite (proj2 (Z.eqb_neq x 0)) by lia. rewrite (bind_Ret _ _ _ _ _ Lx), enc_size by (done || simpl; lia).
  simpl. rewrite Z.geb_leb. destruct (Z.leb_spec T n) as [HT|HT].
  { exists x. split; [done|]. right. exists [], l, n. split_and!; try done. intros y Hy. by apply elem_of_nil in Hy. }
  unfold off_next_free. rewrite (bind_Ret _ _ _ _ _ (load_eq s (x + 16) (hi_acc _ _ _ Hi) ltac:(unfold HEAP_BASE; lia))).
  destruct (IH fuel x _ Hd ltac:(intros; apply Hin; by right) ltac:(lia)) as (r & E & Hr).
  assert (Hsm : forall k, Blk x k Free ∈ bl -> k < T).
  { intros k Hk. pose proof (contiguous_inj _ _ _ _ _ (sh_tiles _ _ _ _ _ (hi_shape _ _ _ Hi)) Hx Hk eq_refl). by simplify_eq. }
  exists r. split; [done|]. destruct Hr as [[-> Hr]|(f1 & f2 & sz & -> & Hb & HTs & Hr)]; [left|right].
  - split; [done|]. intros y Hy. apply elem_of_cons in Hy as [->|Hy]; [done|by apply Hr].
  - exists (x :: f1), f2, sz. split_and!; try done. intros y Hy. apply elem_of_cons in Hy as [->|Hy]; [done|by apply Hr].
Qed.

Lemma contiguous_length a bl e : contiguous a bl e -> 64 * Z.of_nat (length bl) <= e - a.
Proof.
  revert a. induction bl as [|b bl IH]; intros a; simpl; [lia|].
  intros (<- & [? _] & Hc). apply IH in Hc. unfold b_end in Hc. lia.
Qed.

(** The search never runs out of fuel on a well-formed heap. *)
Lemma list_fuel_enough s bl fl : hinv s bl fl -> (length fl < list_fuel s)%nat.
Proof.
  intros Hi. pose proof (hi_shape _ _ _ Hi) as [Ht _ _ Hnd Hf].
  assert (Hle : (length fl <= length (b_addr <$> bl))%nat).
  { apply submseteq_length, NoDup_submseteq; [done|]. intros x (n & Hx)%Hf.
    apply list_elem_of_fmap. by exists (Blk x n Free). }
  rewrite length_fmap in Hle. pose proof (contiguous_length _ _ _ Ht). unfold list_fuel.
  pose proof (Z.div_le_mono (64 * Z.of_nat (length bl)) (g_heap_curr s - HEAP_BASE) 16). dm_lia.
Qed.

Lemma fl_find_fit_spec s bl fl size : hinv s bl fl ->
  exists r, fl_find_fit size s = Ret r s /\ first_fit bl fl (total_size_for_payload size) r.
Proof.
  intros Hi. unfold fl_find_fit. rewrite bind_get.
  eapply find_loop_spec; [done|exact (sh_dll _ _ _ _ _ (hi_shape _ _ _ Hi))|done|by eapply list_fuel_enough].
Qed.

(** ** Sizes *)
Lemma total_size_eq size : 0 < size <= 2 ^ 64 - 64 ->
  total_size_for_payload size = 16 * ((size + 15) / 16) + 48.
Proof.
  intros Hs. unfold total_size_for_payload, ALIGNMENT, OVERHEAD.
  change HDR_SIZE with 32. unfold FTR_SIZE. change (32 + 8) with 40.
  rewrite (ALIGN_UP_16 size) by dm_lia. rewrite wrap_small by dm_lia. rewrite ALIGN_UP_16 by dm_lia. dm_lia.
Qed.

Lemma total_size_ok size : 0 < size <= 2 ^ 64 - 64 ->
  size_ok (total_size_for_payload size) /\ size + 40 <= total_size_for_payload size <= size + 63.
Proof. intros Hs. rewrite total_size_eq by done. unfold size_ok. split; [split|]; dm_lia. Qed.

(** ** Growth *)
(** The mapping loop: [n] pages from [start]. *)
Definition map_body (p4 va : Z) : K st unit :=
  in_back (let! phys := hb_frame_alloc in
           hb_PagingMapMemory p4 va phys heap_page_flags).

Definition grown (s : st) (start n : Z) (s' : st) : Prop :=
  (exists b, s' = set_kback b s) /\ hb_inv (kback s') /\ hb_ReadCR3 (kback s') = hb_ReadCR3 (kback s) /\
  hb_room (kback s) - n <= hb_room (kback s') /\
  (forall v, hb_mapped (kback s) v = true -> hb_mapped (kback s') v = true) /\
  (forall i, 0 <= i < n -> hb_mapped (kback s') (start + 4096 * i) = true).

Lemma map_loop_spec s start n :
  hb_inv (kback s) -> Z.of_nat n <= hb_room (kback s) -> start mod 4096 = 0 ->
  (forall i, 0 <= i < Z.of_nat n -> hb_window (start + 4096 * i)) ->
  wp (for_steps n start PAGE_SIZE (map_body (pml4_of_cr3 (hb_ReadCR3 (kback s)))) s)
    (fun _ s' => grown s start (Z.of_nat n) s').
Proof.
  intros Hb Hroom Hal Hwin.
  eapply wp_mono; [apply (wp_for_steps (fun va s' => exists i, va = start + 4096 * i /\ 0 <= i /\ grown s start i s'))|].
  - exists 0. split_and!; [lia|lia|]. unfold grown. split_and!; try done; try lia. exists (kback s). by destruct s.
  - intros j s1 (k & Hk & ->) (i & Hi & Hi0 & (b & ->) & Hb1 & Hcr & Hr & Hold & Hnew). unfold PAGE_SIZE in *.
    assert (i = Z.of_nat k) as -> by lia.
    replace (start + Z.of_nat k * 4096) with (start + 4096 * Z.of_nat k) by lia.
    simpl in *. rewrite <- Hcr. apply wp_zoom. simpl. eapply wp_mono.
    { eapply hb_map_law; [done|lia|apply Hwin; lia|dm_lia]. }
    intros [] b' (Hb' & Hm & Hk' & Hcr' & Hr'). exists (Z.of_nat k + 1).
    split_and!; [lia|lia|]. unfold grown. simpl. split_and!; try done; try lia.
    + by exists b'.
    + auto.
    + intros i' Hi'. destruct (decide (i' = Z.of_nat k)) as [->|]; [done|]. apply Hk', Hnew. lia.
  - intros [] s' (i & Hi & _ & Hg). unfold PAGE_SIZE in *. by replace (Z.of_nat n) with i by lia.
Qed.

Definition pages_for (bytes : Z) : Z := (bytes + 4095) / 4096.

(** The memory after the four stores that make the new block. *)
Definition fresh_mem (a n : Z) (m : gmap Z Z) : gmap Z Z :=
  <[a + n - 8 := n]> (<[a + 8 := 0]> (<[a + 16 := 0]> (<[a := n]> m))).

Lemma fresh_tagged a n m : 64 <= n -> tagged (fresh_mem a n m) (Blk a n Pending).
Proof.
  intros. unfold tagged, fresh_mem, b_end. rewrite enc_free_word. simpl. split; [|by rewrite rd_insert_eq].
  by rd_solve.
Qed.

Lemma fresh_outside a n m w : 64 <= n -> ~ (a <= w < a + n) -> rd (fresh_mem a n m) w = rd m w.
Proof. intros. unfold fresh_mem. by rd_solve. Qed.

(** [h->size_and_flags = n; h->prev_free = h->next_free = NULL; FOOTER_OF(h)->...]. *)
Lemma fresh_eq {A} s a n (k : K st A) : (forall w, a <= w < a + n -> mapped s w) -> size_ok n -> n < 2 ^ 63 ->
  bind (store a n) (fun _ => bind (store (a + off_next_free) 0) (fun _ => bind (store (a + off_prev_free) 0)
    (fun _ => bind (FOOTER_OF a) (fun f => bind (store f n) (fun _ => k))))) s =
  k (set_kmem (fresh_mem a n (kmem s)) s).
Proof.
  intros Hm Hok Hlt. pose proof Hok as [? _]. unfold off_next_free, off_prev_free, FOOTER_OF.
  rewrite (bind_Ret _ _ _ _ _ (store_mapped s a n (Hm a ltac:(lia)))). set (s1 := set_kmem _ s).
  rewrite (bind_Ret _ _ _ _ _ (store_mapped s1 (a + 16) 0 (Hm (a + 16) ltac:(lia)))). set (s2 := set_kmem _ s1).
  rewrite (bind_Ret _ _ _ _ _ (store_mapped s2 (a + 8) 0 (Hm (a + 8) ltac:(lia)))). set (s3 := set_kmem _ s2).
  rewrite bind_assoc, (bind_Ret _ _ _ _ _ (load_mapped s3 a (Hm a ltac:(lia)))).
  rewrite (bind_Ret _ _ _ _ _ (eq_refl : ret _ _ = Ret _ _)).
  replace (rd (kmem s3) a) with (enc (Blk a n Pending)).
  2: { rewrite enc_free_word. simpl. by rd_solve. }
  rewrite enc_size by done. simpl b_size. unfold FTR_SIZE.
  by rewrite (bind_Ret _ _ _ _ _ (store_mapped s3 (a + n - 8) n (Hm (a + n - 8) ltac:(lia)))).
Qed.

Lemma page_of_run a n w : a mod 4096 = 0 -> a <= w < a + 4096 * n ->
  exists i, 0 <= i < n /\ page_of w = a + 4096 * i.
Proof. intros. exists ((w - a) / 4096). unfold page_of. dm_lia. Qed.

Lemma heap_map_more_spec s bl fl bytes :
  hinv s bl fl -> 0 < bytes -> g_heap_curr s + 4096 * pages_for bytes <= HEAP_LIMIT ->
  pages_for bytes <= hb_room (kback s) -> (forall va, HEAP_BASE <= va < HEAP_LIMIT -> hb_window va) ->
  let n := 4096 * pages_for bytes in
  exists s', heap_map_more bytes s = Ret tt s' /\
    hinv s' (bl ++ [Blk (g_heap_curr s) n Free]) (g_heap_curr s :: fl) /\
    untouched bl (kmem s) (kmem s') /\ g_heap_lock s' = g_heap_lock s /\ g_heap_curr s' = g_heap_curr s + n /\
    hb_room (kback s) - pages_for bytes <= hb_room (kback s').
Proof.
  intros Hi Hpos Hlim Hroom Hwin n. pose proof Hi as [Hs Hc Hp Hacc Hb].
  assert (Hpf : 0 < pages_for bytes) by (unfold pages_for; dm_lia).
  assert (Hn : size_ok n) by (unfold size_ok, n; split; [lia|dm_lia]).
  assert (Hlt : n < 2 ^ 32) by (unfold n, HEAP_LIMIT in *; lia).
  unfold heap_map_more. rewrite bind_get.
  rewrite (ALIGN_UP_page (g_heap_curr s)) by (unfold HEAP_LIMIT, HEAP_BASE in *; lia).
  rewrite (ALIGN_UP_page bytes) by (unfold n, pages_for, HEAP_LIMIT in *; dm_lia).
  replace (4096 * ((g_heap_curr s + 4095) / 4096)) with (g_heap_curr s) by dm_lia.
  change (4096 * ((bytes + 4095) / 4096)) with n.
  rewrite (wrap_small 64 (g_heap_curr s + n)) by (unfold HEAP_LIMIT, HEAP_BASE in *; lia).
  rewrite Z.gtb_ltb, (proj2 (Z.ltb_ge _ _)) by done. simpl (when _ _).
  rewrite (bind_Ret _ _ _ _ _ (eq_refl : ret _ _ = Ret _ _)).
  replace (Z.to_nat ((g_heap_curr s + n - g_heap_curr s + 4095) / 4096)) with (Z.to_nat (pages_for bytes))
    by (unfold n; f_equal; dm_lia).
  pose proof (map_loop_spec s (g_heap_curr s) (Z.to_nat (pages_for bytes)) Hb ltac:(lia) Hp) as Hl.
  rewrite Z2Nat.id in Hl by lia. specialize (Hl ltac:(intros; apply Hwin; unfold n in *; lia)).
  apply wp_ret_inv in Hl as ([] & s1 & El & (b & ->) & Hb1 & _ & Hr1 & Hold & Hnew). simpl in *.
  unfold map_body in El. rewrite (bind_Ret _ _ _ _ _ El). set (s1 := set_kback b s) in *.
  assert (Hm : forall w, g_heap_curr s <= w < g_heap_curr s + n -> mapped s1 w).
  { intros w Hw. destruct (page_of_run _ _ _ Hp Hw) as (i & Hi1 & Hpg). unfold mapped. rewrite Hpg. by apply Hnew. }
  assert (Hm0 : forall w, HEAP_BASE <= w < g_heap_curr s -> mapped s1 w) by (intros w Hw; apply Hold, Hacc, Hw).
  rewrite wrap_small by (unfold HEAP_LIMIT in *; lia).
  replace (g_heap_curr s + n - g_heap_curr s) with n by lia. rewrite fresh_eq by (done || lia).
  set (m3 := fresh_mem (g_heap_curr s) n (kmem s1)).
  assert (Hg : hshape m3 (g_heap_curr s + n) (g_free_list s) (bl ++ [Blk (g_heap_curr s) n Pending]) fl).
  { eapply shape_grow; [done|done| |by apply fresh_tagged; destruct Hn].
    intros w Hw. apply fresh_outside; [by destruct Hn|lia]. }
  destruct (shape_push _ _ _ _ _ _ _ _ Hg) as (Hg' & Hlo & Hh & _).
  pose proof Hn as [Hn64 _].
  assert (Hflm : g_free_list s <> 0 -> mapped s1 (g_free_list s + 8)).
  { intros Hz. apply Hm0. destruct (node_in _ _ _ _ Hi (Hh Hz)). lia. }
  rewrite (bind_Ret _ _ _ _ _ (fl_push_eq (set_kmem m3 s1) (g_heap_curr s)
    (Hm (g_heap_curr s + 8) ltac:(lia)) (Hm (g_heap_curr s + 16) ltac:(lia)) Hflm)).
  eexists. split; [reflexivity|]. split_and!; simpl; try done.
  - constructor; simpl; try done; try (unfold n; dm_lia).
    intros w Hw. simpl in *. destruct (Z.lt_ge_cases w (g_heap_curr s)); [apply Hm0; lia|apply Hm; lia].
  - eapply untouched_trans; [|eapply untouched_links; [exact (sh_tiles _ _ _ _ _ Hg')| |exact Hlo]].
    + intros c w Hcb _ Hw. pose proof (contiguous_in _ _ _ _ (sh_tiles _ _ _ _ _ Hs) Hcb) as (_&?&_).
      apply fresh_outside; [by destruct Hn|lia].
    + intros c Hcb. by apply elem_left.
Qed.

(** ** Splitting *)

(** [SET_ALLOC(h); FOOTER_OF(h)->size_and_flags = h->size_and_flags;] when the
    header holds the size [n] with the flag clear or set. *)
Lemma mark_used_eq {A} s a n (k : K st A) : accessible s -> HEAP_BASE <= a -> a + n <= g_heap_curr s ->
  size_ok n -> n < 2 ^ 63 -> Z.lor (rd (kmem s) a) 1 = enc (Blk a n Used) ->
  bind (SET_ALLOC a) (fun _ => bind (sync_footer a) (fun _ => k)) s =
  k (set_kmem (tag_mem (Blk a n Used) (kmem s)) s).
Proof.
  intros Hacc H1 H2 Hok Hlt Hw. pose proof Hok as [? _].
  rewrite (bind_Ret _ _ _ _ _ (SET_ALLOC_eq s a Hacc ltac:(lia))), Hw.
  rewrite (bind_Ret _ _ _ _ _ (sync_footer_eq (set_kmem (<[a := enc (Blk a n Used)]> (kmem s)) s)
    (Blk a n Used) Hacc H1 H2 Hok Hlt (rd_insert_eq _ _ _))). done.
Qed.

(** The two blocks a free block of size [sz] becomes when [T] bytes are taken. *)
Definition carve (a sz T : Z) : list blk :=
  if T + 80 <=? sz then [Blk a T Used; Blk (a + T) (sz - T) Free] else [Blk a sz Used].

Lemma split_spec s l1 a sz l2 fl T :
  hinv s (l1 ++ Blk a sz Pending :: l2) fl -> size_ok T -> T + 80 <= sz ->
  let m := fresh_mem (a + T) (sz - T) (tag_mem (Blk a T Used) (<[a := T]> (kmem s))) in
  hinv (set_kmem m s) (l1 ++ [Blk a T Used; Blk (a + T) (sz - T) Pending] ++ l2) fl /\
  untouched (l1 ++ l2) (kmem s) m.
Proof.
  intros Hi HT Hle m. pose proof HT as [? ?].
  pose proof (block_in _ _ _ _ Hi (elem_mid _ _ _)) as (_&_&[? ?]&_). simpl in *.
  assert (Hok2 : size_ok (sz - T)) by (unfold size_ok; split; [lia|dm_lia]).
  assert (Hout : forall w, ~ (a <= w < a + sz) -> rd m w = rd (kmem s) w).
  { intros w Hw. unfold m. rewrite fresh_outside by lia. rewrite tag_mem_other; unfold b_end; simpl; try lia.
    rd_solve. done. }
  split; [|exact (untouched_around _ _ _ _ _ _ _ (sh_tiles _ _ _ _ _ (hi_shape _ _ _ Hi)) Hout)].
  apply (hinv_retile s m l1 [Blk a sz Pending] [Blk a T Used; Blk (a + T) (sz - T) Pending] l2 fl a (a + sz));
    try done.
  - simpl. unfold b_end. simpl. split_and!; done || lia.
  - intros b Hb. apply list_elem_of_singleton in Hb as ->. done.
  - intros b Hb. apply elem_of_cons in Hb as [->|Hb]; [done|]. apply list_elem_of_singleton in Hb as ->. done.
  - intros b Hb. apply elem_of_cons in Hb as [->|Hb].
    + unfold m. destruct (tag_mem_tagged (Blk a T Used) (<[a := T]> (kmem s))) as [T1 T2].
      unfold tagged, b_end in *. simpl in *. rewrite !fresh_outside by lia. done.
    + apply list_elem_of_singleton in Hb as ->. apply fresh_tagged. lia.
Qed.

Lemma allocate_from_block_spec s l1 a sz l2 fl size :
  hinv s (l1 ++ Blk a sz Free :: l2) fl -> 0 < size <= 2 ^ 64 - 64 -> total_size_for_payload size <= sz ->
  exists fl' s', allocate_from_block a size s = Ret a s' /\
    hinv s' (l1 ++ carve a sz (total_size_for_payload size) ++ l2) fl' /\
    untouched (l1 ++ l2) (kmem s) (kmem s') /\ same s s'.
Proof.
  intros Hi Hsz HT. destruct (total_size_ok size Hsz) as [HTok _]. set (T := total_size_for_payload size) in *.
  pose proof HTok as [? ?].
  destruct (load_tag _ _ _ _ Hi (elem_mid _ _ _)) as [Lh _].
  pose proof (block_in _ _ _ _ Hi (elem_mid _ _ _)) as (H1&H2&Hok&_&Hlt). unfold b_end in H2. simpl in *.
  destruct (fl_remove_spec _ _ _ _ _ _ Hi) as (fl1 & s1 & E1 & Hi1 & Hlo & Hsame).
  pose proof (untouched_links _ _ _ (l1 ++ l2) _ _ (sh_tiles _ _ _ _ _ (hi_shape _ _ _ Hi))
    (fun b => elem_around _ b _ _) Hlo) as Hun.
  destruct (sh_tags _ _ _ _ _ (hi_shape _ _ _ Hi1) _ (elem_mid _ _ _)) as [T1 _]. rewrite enc_free_word in T1. simpl in T1.
  pose proof (hi_acc _ _ _ Hi1) as Hacc1. pose proof Hsame as (Hc1 & _ & _).
  unfold allocate_from_block, carve. fold T. rewrite (bind_Ret _ _ _ _ _ Lh), enc_size by (done || simpl; lia).
  rewrite (bind_Ret _ _ _ _ _ E1). change (total_size_for_payload MIN_SPLIT_SIZE) with 80.
  change (b_size (Blk a sz Free)) with sz.
  rewrite wrap_small, Z.geb_leb by lia. destruct (Z.leb_spec (T + 80) sz) as [Hs|Hs].
  - cbv beta iota zeta. rewrite (bind_Ret _ _ _ _ _ (SET_SIZE_eq s1 a T Hacc1 ltac:(lia))). rewrite T1.
    replace (Z.land sz 1) with 0 by (rewrite testbit_0_mod2; destruct Hok; dm_lia). rewrite Z.lor_0_r.
    rewrite (mark_used_eq _ a T) by (try done; simpl; try lia; rewrite rd_insert_eq; by apply enc_used_word).
    rewrite wrap_small by lia. set (s2 := set_kmem _ _).
    rewrite (fresh_eq s2 (a + T) (sz - T));
      [|intros w Hw; apply Hacc1; lia|unfold size_ok; destruct Hok; split; [lia|dm_lia]|lia].
    destruct (split_spec _ _ _ _ _ _ T Hi1 HTok Hs) as [Hi2 Hun2]. simpl in Hi2.
    replace (l1 ++ Blk a T Used :: Blk (a + T) (sz - T) Pending :: l2) with
      ((l1 ++ [Blk a T Used]) ++ Blk (a + T) (sz - T) Pending :: l2) in Hi2 by by rewrite <- app_assoc.
    destruct (fl_push_spec _ _ _ _ _ _ Hi2) as (fl3 & s3 & E3 & Hi3 & Hlo3 & Hsame3).
    subst s2. simpl. rewrite (bind_Ret _ _ _ _ _ E3). exists fl3, s3. split_and!; try done.
    + by rewrite <- app_assoc in Hi3.
    + eapply untouched_trans; [exact Hun|]. eapply untouched_trans; [exact Hun2|].
      eapply untouched_links; [exact (sh_tiles _ _ _ _ _ (hi_shape _ _ _ Hi3))| |exact Hlo3].
      intros b. rewrite !elem_of_app, !elem_of_cons. tauto.
    + eapply same_trans; [exact Hsame|]. by eapply same_trans; [|exact Hsame3].
  - cbv beta iota. rewrite (mark_used_eq s1 a sz) by (try done; try lia; rewrite T1; by apply enc_used_word).
    eexists fl1, _. split; [reflexivity|]. split_and!; try done.
    + apply (hinv_retag _ _ _ _ Pending); done.
    + eapply untouched_trans; [exact Hun|]. eapply untouched_around; [exact (sh_tiles _ _ _ _ _ (hi_shape _ _ _ Hi1))|].
      intros w Hw. by apply tag_mem_outside.
Qed.

End inv.
End KmallocInv.
