(* ===== verification/KmallocSpec.v ===== *)
(** The contract of the kernel heap and its refinement by
    [src/src/mm/kmalloc.c]: the abstract heap maps each live payload address to
    its words; every public operation implements the obvious change of that map,
    keeps all other payloads' contents and releases the lock. *)
From S2P Require Import Prelude Lock Kmalloc HeapShape KmallocInv.

Module KmallocSpec.
Import HeapShape KmallocInv.

Section spec.
Context {B : Type} {HB : HeapBacking B} {HL : HeapBackingLaws B}.
Notation st := (kheap B).

(** ** The abstract heap *)

(** [k] words of memory from [p]. *)
Definition words (m : gmap Z Z) (p k : Z) : list Z := (fun i => rd m (p + 8 * i)) <$> seqZ 0 k.

(** [A] maps the payload pointer of every block handed out to its contents. *)
Definition view (bl : list blk) (m : gmap Z Z) (A : gmap Z (list Z)) : Prop :=
  forall p ws, A !! p = Some ws <->
    exists sz, Blk (p - 32) sz Used ∈ bl /\ ws = words m p ((sz - 40) / 8).

Definition heap_rep (s : st) (A : gmap Z (list Z)) : Prop :=
  exists bl fl, hinv s bl fl /\ settled bl /\ g_heap_lock s = 0 /\ view bl (kmem s) A.

(** Bytes of a payload. *)
Definition bytes (ws : list Z) : Z := 8 * Z.of_nat (length ws).

(** The growth step of [kmalloc(size)] has frames and address space for it. *)
Definition growth_ok (s : st) (size : Z) : Prop :=
  let n := pages_for (Z.max (128 * 4096) (total_size_for_payload size)) in
  n <= hb_room (kback s) /\ g_heap_curr s + 4096 * n <= HEAP_LIMIT /\
  forall va, HEAP_BASE <= va < HEAP_LIMIT -> hb_window va.

Lemma words_length m p k : 0 <= k -> bytes (words m p k) = 8 * k.
Proof. intros. unfold bytes, words. rewrite length_fmap, length_seqZ. lia. Qed.

Lemma words_ext m m' p k :
  (forall i, 0 <= i < k -> rd m' (p + 8 * i) = rd m (p + 8 * i)) -> words m' p k = words m p k.
Proof.
  intros H. unfold words. apply list_fmap_ext. intros j i Hi.
  apply lookup_seqZ in Hi as [-> ?]. apply H. lia.
Qed.

Lemma words_lookup m p k i w : words m p k !! i = Some w ->
  Z.of_nat i < k /\ w = rd m (p + 8 * Z.of_nat i).
Proof.
  unfold words. rewrite list_lookup_fmap. intros (j & Hj & ->)%fmap_Some.
  apply lookup_seqZ in Hj as [-> ?]. split; [lia|]. f_equal. 
Qed.

(** The size of a handed-out block and of its payload. *)
Lemma payload_size sz : size_ok sz -> 0 <= (sz - 40) / 8 /\ 8 * ((sz - 40) / 8) = sz - 40.
Proof. intros [? ?]. dm_lia. Qed.

(** The contents of a handed-out block depend on its own words only. *)
Lemma words_untouched us m m' a sz : untouched us m m' -> Blk a sz Used ∈ us -> size_ok sz ->
  words m' (a + 32) ((sz - 40) / 8) = words m (a + 32) ((sz - 40) / 8).
Proof.
  intros Hu Hb Hok. pose proof (payload_size sz Hok). apply words_ext. intros i Hi.
  apply (Hu _ _ Hb eq_refl). unfold b_end. simpl. lia.
Qed.

(** ** Changing the abstract heap *)

Lemma used_elem b bl : b ∈ used bl <-> b_st b = Used /\ b ∈ bl.
Proof. unfold used. by rewrite list_elem_of_filter. Qed.

Lemma view_keep bl bl' m m' A :
  view bl m A -> (forall b, b ∈ bl -> size_ok (b_size b)) -> untouched bl m m' ->
  (forall a sz, Blk a sz Used ∈ bl' <-> Blk a sz Used ∈ bl) -> view bl' m' A.
Proof.
  intros Hv Hc Hu Hs p ws. rewrite (Hv p ws). split; intros (sz & Hb & ->); exists sz; rewrite Hs in *;
    (split; [done|]); pose proof (words_untouched _ _ _ _ _ Hu Hb (Hc _ Hb)) as E;
    by replace (p - 32 + 32) with p in E by lia.
Qed.

Lemma view_add bl bl' m A a sz :
  view bl m A -> (forall b n, Blk b n Used ∈ bl' <-> b = a /\ n = sz \/ Blk b n Used ∈ bl) ->
  (forall n, Blk a n Used ∉ bl) -> view bl' m (<[a + 32 := words m (a + 32) ((sz - 40) / 8)]> A).
Proof.
  intros Hv Hs Hnew p ws. rewrite lookup_insert. case_decide as Hp.
  - subst p. replace (a + 32 - 32) with a by lia. split.
    + intros [= <-]. exists sz. split; [|done]. apply Hs. by left.
    + intros (n & [[_ ->]|Hb]%Hs & ->); [done|]. by destruct (Hnew n).
  - rewrite (Hv p ws). split; intros (n & Hb & ->); exists n; (split; [|done]).
    + apply Hs. by right.
    + apply Hs in Hb as [[? _]|?]; [lia|done].
Qed.

Lemma view_remove bl bl' m A a :
  view bl m A -> (forall b n, Blk b n Used ∈ bl' <-> Blk b n Used ∈ bl /\ b <> a) ->
  view bl' m (delete (a + 32) A).
Proof.
  intros Hv Hs p ws. rewrite lookup_delete. case_decide as Hp.
  - subst p. split; [done|]. intros (n & [_ Hb]%Hs & _). lia.
  - rewrite (Hv p ws). split; intros (n & Hb & ->); exists n; (split; [|done]).
    + apply Hs. split; [done|lia].
    + by apply Hs in Hb as [? _].
Qed.

(** Payloads of distinct live pointers do not overlap, are 16-byte aligned and
    lie inside the arena. *)
Lemma rep_layout s A p ws : heap_rep s A -> A !! p = Some ws ->
  p mod 16 = 0 /\ HEAP_BASE < p /\ p + bytes ws <= g_heap_curr s /\
  forall q us, A !! q = Some us -> p <> q -> p + bytes ws <= q \/ q + bytes us <= p.
Proof.
  intros (bl & fl & Hi & _ & _ & Hv) (sz & Hb & ->)%Hv.
  destruct (block_in _ _ _ _ Hi Hb) as (?&?&Hok&?&?). simpl in *.
  pose proof (payload_size _ Hok). rewrite words_length by lia. unfold b_end in *. simpl in *.
  split_and!; [dm_lia|lia|lia|]. intros q us (n & Hb' & ->)%Hv Hpq.
  destruct (block_in _ _ _ _ Hi Hb') as (?&?&Hok'&_&_). simpl in *. pose proof (payload_size _ Hok').
  rewrite words_length by lia.
  destruct (contiguous_disjoint _ _ _ _ _ (sh_tiles _ _ _ _ _ (hi_shape _ _ _ Hi)) Hb Hb') as [He|[?|?]];
    unfold b_end in *; simpl in *; [|lia|lia]. by simplify_eq; lia.
Qed.

(** ** Locking *)
Lemma hinv_set_lock s bl fl l : hinv s bl fl -> hinv (set_lock l s) bl fl.
Proof. intros [? ? ? ? ?]. by constructor. Qed.

Lemma lock_eq (s : st) : g_heap_lock s = 0 -> lock_heap s = Ret tt (set_lock 1 s).
Proof. apply spinlock_acquire_free. Qed.

Lemma unlock_eq (s : st) : g_heap_lock s = 1 -> unlock_heap s = Ret tt (set_lock 0 s).
Proof. apply spinlock_release_held. Qed.

(** ** Allocation *)
Definition carved (sz T : Z) : Z := if T + 80 <=? sz then T else sz.

Lemma carve_used a sz T b n : Blk b n Used ∈ carve a sz T <-> b = a /\ n = carved sz T.
Proof.
  unfold carve, carved. case_match; rewrite ?elem_of_cons, ?elem_of_nil; naive_solver.
Qed.

Lemma carve_settled a sz T : settled (carve a sz T).
Proof.
  unfold settled, carve. intros b. case_match; rewrite ?elem_of_cons, ?elem_of_nil; naive_solver.
Qed.

(** [s] has a free block that holds [size] bytes, found by [fl_find_fit]; then
    the rest of [kmalloc] hands out (a part of) it. *)
Lemma allocate_spec s bl fl size r sz :
  hinv s bl fl -> settled bl -> Blk r sz Free ∈ bl -> 0 < size <= 2 ^ 64 - 64 ->
  total_size_for_payload size <= sz ->
  exists n bl' fl' s', allocate_from_block r size s = Ret r s' /\ hinv s' bl' fl' /\ settled bl' /\
    total_size_for_payload size <= n /\ untouched bl (kmem s) (kmem s') /\ same s s' /\
    (forall b k, Blk b k Used ∈ bl' <-> b = r /\ k = n \/ Blk b k Used ∈ bl) /\
    (forall k, Blk r k Used ∉ bl).
Proof.
  intros Hi Hset Hr Hsz HT. apply list_elem_of_split in Hr as (l1 & l2 & ->).
  destruct (allocate_from_block_spec _ _ _ _ _ _ _ Hi Hsz HT) as (fl' & s' & E & Hi' & Hu & Hsm).
  exists (carved sz (total_size_for_payload size)). eexists _, fl', s'. split; [exact E|]. split; [exact Hi'|].
  split_and!; try done.
  - intros b. rewrite !elem_of_app. intros [Hb|[Hb|Hb]]; [|by eapply carve_settled|]; apply Hset; auto with kernel.
  - unfold carved. case_match; lia.
  - eapply untouched_sub; [|exact Hu]. intros b [->|Hb]%elem_around_inv; done.
  - intros b k. rewrite !elem_of_app, elem_of_cons, carve_used. split; [naive_solver|]. intros [?|[?|[?|?]]]; naive_solver.
  - intros k Hk. pose proof (contiguous_inj _ _ _ _ _ (sh_tiles _ _ _ _ _ (hi_shape _ _ _ Hi)) (elem_mid _ _ _) Hk eq_refl). done.
Qed.

(** The search of [kmalloc], growing the heap when nothing fits. *)
Definition find_or_grow (size : Z) : K st Z :=
  let! h := fl_find_fit size in
  if h =? 0 then
    let grow := total_size_for_payload size in
    let grow := if grow <? 128 * PAGE_SIZE then 128 * PAGE_SIZE else grow in
    do! heap_map_more grow in
    fl_find_fit size
  else ret h.

(** Pages the growth step of [kmalloc(size)] maps, when it is taken. *)
Definition kmalloc_cost (size : Z) : Z := pages_for (Z.max (128 * 4096) (total_size_for_payload size)).

(** At most [n] pages of address space and of backing were used up. *)
Definition spent (n : Z) (s s' : st) : Prop :=
  g_heap_curr s' <= g_heap_curr s + 4096 * n /\ hb_room (kback s) - n <= hb_room (kback s').

Lemma spent_refl n s : 0 <= n -> spent n s s.
Proof. intros. split; lia. Qed.

Lemma kmalloc_cost_pos size : 0 < kmalloc_cost size.
Proof. unfold kmalloc_cost, pages_for. dm_lia. Qed.

Lemma find_or_grow_spec s bl fl size :
  hinv s bl fl -> settled bl -> 0 < size <= 2 ^ 64 - 64 -> growth_ok s size ->
  exists r sz bl' fl' s', find_or_grow size s = Ret r s' /\ hinv s' bl' fl' /\ settled bl' /\
    Blk r sz Free ∈ bl' /\ total_size_for_payload size <= sz /\ r <> 0 /\
    untouched bl (kmem s) (kmem s') /\ g_heap_lock s' = g_heap_lock s /\
    (forall b k, Blk b k Used ∈ bl' <-> Blk b k Used ∈ bl) /\ (forall b, b ∈ bl -> b ∈ bl') /\
    spent (kmalloc_cost size) s s'.
Proof.
  intros Hi Hset Hsz (Hroom & Hlim & Hwin). pose proof (kmalloc_cost_pos size) as Hcost. destruct (total_size_ok size Hsz) as [[HT64 _] _].
  unfold find_or_grow. destruct (fl_find_fit_spec _ _ _ size Hi) as (r & E & Hr).
  rewrite (bind_Ret _ _ _ _ _ E). destruct (Z.eqb_spec r 0) as [->|Hr0].
  2: { destruct Hr as [[-> _]|(f1&f2&sz&_&Hb&HT&_)]; [done|].
       exists r, sz, bl, fl, s. split_and!; try done. all: apply spent_refl; lia. }
  set (T := total_size_for_payload size) in *. cbv zeta.
  replace (if T <? 128 * PAGE_SIZE then 128 * PAGE_SIZE else T) with (Z.max (128 * 4096) T)
    by (unfold PAGE_SIZE; destruct (Z.ltb_spec T (128 * 4096)); lia).
  destruct (heap_map_more_spec _ _ _ (Z.max (128 * 4096) T) Hi ltac:(lia) Hlim Hroom Hwin)
    as (s1 & E1 & Hi1 & Hu1 & Hl1 & Hc1 & Hr1).
  rewrite (bind_Ret _ _ _ _ _ E1). destruct (fl_find_fit_spec _ _ _ size Hi1) as (r & E2 & Hr2). fold T in Hr2.
  assert (HTn : T <= 4096 * pages_for (Z.max (128 * 4096) T)) by (unfold pages_for; dm_lia).
  destruct Hr2 as [[-> Hr2]|(f1&f2&sz&_&Hb&HT&_)].
  { exfalso. specialize (Hr2 (g_heap_curr s) ltac:(left) _ ltac:(apply elem_mid)). lia. }
  exists r, sz. eexists _, _, s1. split; [exact E2|]. split; [exact Hi1|]. split_and!; try done.
  - intros b [->|Hb']%elem_around_inv; [done|]. apply Hset. by rewrite app_nil_r in Hb'.
  - destruct (block_in _ _ _ _ Hi1 Hb) as (?&_). unfold HEAP_BASE in *. simpl in *. lia.
  - intros b k. rewrite elem_of_app, list_elem_of_singleton. naive_solver.
  - intros b Hb'. by apply elem_left.
  - unfold spent, kmalloc_cost. fold T. rewrite Hc1. lia.
Qed.

Lemma kmalloc_unfold size (s : st) : size <> 0 -> g_heap_lock s = 0 ->
  kmalloc size s =
  (let! h := find_or_grow size in
   if h =? 0 then do! unlock_heap in ret 0 else
   let! a := allocate_from_block h size in
   do! unlock_heap in ret (a + HDR_SIZE)) (set_lock 1 s).
Proof.
  intros Hz Hl. unfold kmalloc. rewrite (proj2 (Z.eqb_neq _ _) Hz), (bind_Ret _ _ _ _ _ (lock_eq s Hl)).
  unfold find_or_grow. by rewrite bind_assoc.
Qed.

Lemma kmalloc_hinv s bl fl size :
  hinv s bl fl -> settled bl -> g_heap_lock s = 0 -> 0 < size <= 2 ^ 64 - 64 -> growth_ok s size ->
  exists a n bl' fl' s', kmalloc size s = Ret (a + 32) s' /\ hinv s' bl' fl' /\ settled bl' /\
    g_heap_lock s' = 0 /\ total_size_for_payload size <= n /\ untouched bl (kmem s) (kmem s') /\
    (forall b k, Blk b k Used ∈ bl' <-> b = a /\ k = n \/ Blk b k Used ∈ bl) /\ (forall k, Blk a k Used ∉ bl) /\
    spent (kmalloc_cost size) s s'.
Proof.
  intros Hi Hset Hl Hsz Hg. rewrite kmalloc_unfold by lia.
  destruct (find_or_grow_spec (set_lock 1 s) bl fl size (hinv_set_lock _ _ _ _ Hi) Hset Hsz Hg)
    as (r & sz & bl1 & fl1 & s1 & E1 & Hi1 & Hset1 & Hb & HT & Hr & Hu1 & Hl1 & Hus & _ & [Hsp1 Hsp2]).
  rewrite (bind_Ret _ _ _ _ _ E1), (proj2 (Z.eqb_neq _ _) Hr).
  destruct (allocate_spec _ _ _ _ _ _ Hi1 Hset1 Hb Hsz HT)
    as (n & bl' & fl' & s2 & E2 & Hi2 & Hset2 & Hn & Hu2 & (Hc2 & Hl2 & Hk2) & Hus2 & Hnew).
  rewrite (bind_Ret _ _ _ _ _ E2). rewrite (bind_Ret _ _ _ _ _ (unlock_eq s2 ltac:(by rewrite Hl2, Hl1))).
  exists r, n, bl', fl', (set_lock 0 s2). split; [done|]. split_and!; try done.
  - by apply hinv_set_lock.
  - eapply untouched_trans; [exact Hu1|]. eapply untouched_sub; [|exact Hu2].
    intros [a k []] Hx Hst; try done. by apply Hus.
  - intros b k. by rewrite Hus2, Hus.
  - intros k Hk. apply (Hnew k). by apply Hus.
  - unfold spent. simpl. by rewrite Hc2, Hk2.
Qed.

(** ** Release *)

(** [CLR_ALLOC(h); FOOTER_OF(h)->size_and_flags = h->size_and_flags;] on a block
    that is handed out. *)
Lemma mark_pending_eq {A} s l1 a sz l2 fl (k : K st A) :
  hinv s (l1 ++ Blk a sz Used :: l2) fl ->
  bind (CLR_ALLOC a) (fun _ => bind (sync_footer a) (fun _ => k)) s =
  k (set_kmem (tag_mem (Blk a sz Pending) (kmem s)) s).
Proof.
  intros Hi. pose proof (block_in _ _ _ _ Hi (elem_mid _ _ _)) as (H1&H2&Hok&_&Hlt).
  destruct (sh_tags _ _ _ _ _ (hi_shape _ _ _ Hi) _ (elem_mid _ _ _)) as [T1 _].
  pose proof (hi_acc _ _ _ Hi) as Hacc. unfold b_end in *. simpl in *. pose proof Hok as [? _].
  rewrite (bind_Ret _ _ _ _ _ (CLR_ALLOC_eq s a Hacc ltac:(lia))), T1, enc_size by (done || simpl; lia).
  change (b_size (Blk a sz Used)) with sz. set (s1 := set_kmem _ s).
  rewrite (bind_Ret _ _ _ _ _ (sync_footer_eq s1 (Blk a sz Pending) Hacc H1 H2 Hok ltac:(simpl; lia)
    ltac:(rewrite enc_free_word; apply rd_insert_eq))).
  subst s1. unfold tag_mem. by rewrite enc_free_word.
Qed.

Lemma kfree_hinv s l1 a sz l2 fl :
  hinv s (l1 ++ Blk a sz Used :: l2) fl -> settled (l1 ++ l2) -> g_heap_lock s = 0 ->
  exists bl' fl' s', kfree (a + 32) s = Ret tt s' /\ hinv s' bl' fl' /\ settled bl' /\ g_heap_lock s' = 0 /\
    untouched (l1 ++ l2) (kmem s) (kmem s') /\ (forall b k, Blk b k Used ∈ bl' <-> Blk b k Used ∈ l1 ++ l2) /\
    IS_ALLOC (rd (kmem s') a) = false /\ g_heap_curr s' = g_heap_curr s /\ kback s' = kback s.
Proof.
  intros Hi Hset Hl. pose proof (block_in _ _ _ _ Hi (elem_mid _ _ _)) as (H1&_&Hok&_&_). simpl in *.
  unfold kfree. rewrite (proj2 (Z.eqb_neq _ _)) by (unfold HEAP_BASE in *; lia).
  rewrite (bind_Ret _ _ _ _ _ (lock_eq s Hl)). change HDR_SIZE with 32. replace (a + 32 - 32) with a by lia.
  apply (hinv_set_lock _ _ _ 1) in Hi. destruct (load_tag _ _ _ _ Hi (elem_mid _ _ _)) as [Lh _]. simpl in Lh.
  cbv zeta. rewrite (bind_Ret _ _ _ _ _ Lh), enc_alloc by done. cbv beta iota.
  change (negb match b_st (Blk a sz Used) with Used => true | _ => false end) with false. cbv iota.
  rewrite (mark_pending_eq _ _ _ _ _ _ _ Hi).
  pose proof (hinv_retag _ _ _ _ Used Pending _ _ Hi ltac:(done) ltac:(done)) as Hi1. set (s1 := set_kmem _ _) in *.
  assert (Hu1 : untouched (l1 ++ l2) (kmem s) (kmem s1)).
  { eapply untouched_around; [exact (sh_tiles _ _ _ _ _ (hi_shape _ _ _ Hi1))|].
    intros w Hw. by apply tag_mem_outside. }
  destruct (coalesce_spec _ _ _ _ _ _ Hi1 Hset) as (c & s2 & E2 & l1' & sz' & l2' & fl2 & Hi2 & Hus & Hset2 & Hu2 & Hsm2 & Hfl2 & Hc).
  rewrite (bind_Ret _ _ _ _ _ E2).
  destruct (fl_push_spec _ _ _ _ _ _ Hi2) as (fl3 & s3 & E3 & Hi3 & Hlo3 & Hsm3).
  rewrite (bind_Ret _ _ _ _ _ E3). destruct Hsm2 as (Hc2 & Hl2 & Hb2). destruct Hsm3 as (Hc3 & Hl3 & Hb3).
  rewrite (unlock_eq s3) by (by rewrite Hl3, Hl2). eexists _, fl3, (set_lock 0 s3). split; [done|].
  pose proof (sh_tiles _ _ _ _ _ (hi_shape _ _ _ Hi3)) as Ht3.
  assert (Hmem : forall b, b ∈ used (l1' ++ l2') <-> b ∈ used (l1 ++ l2)) by (intros b; by rewrite Hus).
  split; [by apply hinv_set_lock|]. split_and!; simpl; try done; try congruence.
  - intros b [->|Hb]%elem_around_inv; [done|by apply Hset2].
  - eapply untouched_trans; [exact Hu1|]. eapply untouched_trans; [exact Hu2|].
    eapply untouched_sub; [|eapply (untouched_links _ _ _ (l1' ++ l2') _ _ Ht3); [|exact Hlo3]].
    + intros b Hb Hst. apply (used_elem b). apply Hmem. by apply used_elem.
    + intros b Hb. by apply elem_around.
  - intros b k. split.
    + intros [?|Hb]%elem_around_inv; [done|]. apply (used_elem (Blk b k Used)), Hmem, used_elem. done.
    + intros Hb. apply elem_around. apply (used_elem (Blk b k Used)), Hmem, used_elem. done.
  - rewrite Hlo3; [done|]. intros x n Hx.
    pose proof (block_in _ _ _ _ Hi3 Hx) as (_&_&[? _]&_).
    pose proof (block_in _ _ _ _ Hi3 (elem_mid _ _ _)) as (_&_&[? _]&_).
    destruct (contiguous_disjoint _ _ _ _ _ Ht3 Hx (elem_mid _ _ _)) as [He|[?|?]];
      unfold b_end in *; simpl in *; [simplify_eq; lia|lia|lia].
  - by rewrite Hc3, Hc2.
  - by rewrite Hb3, Hb2.
Qed.

Lemma hinv_sizes s bl fl b : hinv s bl fl -> b ∈ bl -> size_ok (b_size b).
Proof. intros Hi Hb. by destruct (block_in _ _ _ _ Hi Hb) as (_&_&?&_). Qed.

(** ** The public operations on the abstract heap *)

(** [kmalloc] on the abstract heap. *)
Lemma kmalloc_rep s A size :
  heap_rep s A -> 0 < size <= 2 ^ 64 - 64 -> growth_ok s size ->
  exists p ws s', kmalloc size s = Ret p s' /\ heap_rep s' (<[p := ws]> A) /\ A !! p = None /\
    size <= bytes ws /\ p mod 16 = 0 /\ HEAP_BASE < p /\ p + bytes ws <= HEAP_LIMIT /\
    (forall q us, A !! q = Some us -> p + bytes ws <= q \/ q + bytes us <= p) /\
    spent (kmalloc_cost size) s s'.
Proof.
  intros (bl & fl & Hi & Hset & Hl & Hv) Hsz Hg.
  destruct (kmalloc_hinv _ _ _ _ Hi Hset Hl Hsz Hg) as (a & n & bl' & fl' & s' & E & Hi' & Hset' & Hl' & Hn & Hu & Hus & Hnew & Hsp).
  assert (Hok : size_ok n).
  { apply (hinv_sizes _ _ _ (Blk a n Used) Hi'). apply Hus. by left. }
  pose proof (payload_size _ Hok). destruct (total_size_ok size Hsz) as [_ ?].
  pose proof (view_keep bl bl _ (kmem s') _ Hv (fun b => hinv_sizes _ _ _ b Hi) Hu ltac:(done)) as Hv1.
  pose proof (view_add bl bl' _ _ a n Hv1 Hus Hnew) as Hv2.
  assert (HA : A !! (a + 32) = None).
  { destruct (A !! (a + 32)) as [ws|] eqn:EA; [|done]. apply Hv in EA as (k & Hb & _).
    replace (a + 32 - 32) with a in Hb by lia. by destruct (Hnew k). }
  assert (Hrep : heap_rep s' (<[a + 32 := words (kmem s') (a + 32) ((n - 40) / 8)]> A)).
  { exists bl', fl'. done. }
  destruct (rep_layout _ _ (a + 32) _ Hrep (lookup_insert_eq _ _ _)) as (L1 & L2 & L3 & L4).
  eexists (a + 32), _, s'. split; [exact E|]. split; [exact Hrep|]. split_and!; try done.
  - rewrite words_length; lia.
  - pose proof (hi_curr _ _ _ Hi'). lia.
  - intros q us Hq. assert (Hne : a + 32 <> q) by congruence. apply L4; [|done]. by rewrite lookup_insert_ne.
Qed.

(** C2. [kmalloc(size)] for any size that does not wrap its own size computation,
    when the frames and the address space it may have to grow into exist:
    returns a fresh pointer, 16-byte aligned, whose payload holds at least
    [size] bytes, lies inside the heap window and overlaps no live payload;
    every other payload keeps its contents and the lock is free again. *)
Theorem kmalloc_correct s A size :
  heap_rep s A -> 0 < size <= 2 ^ 64 - 64 -> growth_ok s size ->
  exists p ws s', kmalloc size s = Ret p s' /\ heap_rep s' (<[p := ws]> A) /\ A !! p = None /\
    size <= bytes ws /\ p mod 16 = 0 /\ HEAP_BASE < p /\ p + bytes ws <= HEAP_LIMIT /\
    forall q us, A !! q = Some us -> p + bytes ws <= q \/ q + bytes us <= p.
Proof.
  intros Hr Hs Hg. destruct (kmalloc_rep s A size Hr Hs Hg) as (p & ws & s' & H1 & H2 & H3 & H4 & H5 & H6 & H7 & H8 & _).
  by exists p, ws, s'.
Qed.

(** [kfree] of a live pointer. *)
Lemma kfree_rep s A p ws : heap_rep s A -> A !! p = Some ws ->
  exists s', kfree p s = Ret tt s' /\ heap_rep s' (delete p A) /\ IS_ALLOC (rd (kmem s') (p - 32)) = false /\
    kback s' = kback s /\ g_heap_curr s' = g_heap_curr s.
Proof.
  intros (bl & fl & Hi & Hset & Hl & Hv) (sz & Hb & ->)%Hv.
  apply list_elem_of_split in Hb as (l1 & l2 & ->).
  assert (Hset0 : settled (l1 ++ l2)) by (eapply settled_sub; [|exact Hset]; intros b; apply elem_around).
  destruct (kfree_hinv _ _ _ _ _ _ Hi Hset0 Hl) as (bl' & fl' & s' & E & Hi' & Hset' & Hl' & Hu & Hus & Hfl & Hc & Hbk).
  replace (p - 32 + 32) with p in E by lia. exists s'. split_and!; try done. exists bl', fl'. split_and!; try done.
  assert (Hrm : view (l1 ++ l2) (kmem s) (delete (p - 32 + 32) A)).
  { eapply view_remove; [exact Hv|]. intros b n. split.
    - intros Hb. split; [by apply elem_around|].
      exact (contiguous_other _ _ _ _ _ _ (sh_tiles _ _ _ _ _ (hi_shape _ _ _ Hi)) Hb).
    - intros [[He|?]%elem_around_inv Hne]; [congruence|done]. }
  replace (p - 32 + 32) with p in Hrm by lia.
  eapply view_keep; [exact Hrm| |exact Hu|exact Hus]. intros b Hb. eapply hinv_sizes; [exact Hi|by apply elem_around].
Qed.

(** C7. [kfree] of a live pointer takes exactly that pointer out of the abstract
    heap (all other payloads keep their contents, the lock is released), and a
    second [kfree] of the same pointer is detected: it panics, with the lock
    released and the heap as it was. *)
Theorem kfree_correct s A p ws :
  heap_rep s A -> A !! p = Some ws ->
  exists s', kfree p s = Ret tt s' /\ heap_rep s' (delete p A) /\
    exists msg, kfree p s' = Panic msg s'.
Proof.
  intros Hr Hp. destruct (kfree_rep _ _ _ _ Hr Hp) as (s' & E & Hr' & Hfl & Hb & Hc).
  destruct (rep_layout _ _ _ _ Hr Hp) as (_ & H1 & H2 & _).
  exists s'. split_and!; try done. destruct Hr as (bl & fl & Hi & _ & _ & Hv).
  apply Hv in Hp as (sz & Hblk & _). destruct (block_in _ _ _ _ Hi Hblk) as (?&?&[? _]&_).
  unfold b_end in *. simpl in *. destruct Hr' as (bl' & fl' & Hi' & _ & Hl' & _). eexists.
  unfold kfree. rewrite (proj2 (Z.eqb_neq _ _)) by (unfold HEAP_BASE in *; lia).
  rewrite (bind_Ret _ _ _ _ _ (lock_eq s' Hl')). change HDR_SIZE with 32. cbv zeta.
  rewrite (bind_Ret _ _ _ _ _ (load_eq (set_lock 1 s') (p - 32) (hi_acc _ _ _ Hi') ltac:(simpl; lia))).
  simpl. rewrite Hfl. simpl. rewrite (bind_Ret _ _ _ _ _ (unlock_eq (set_lock 1 s') eq_refl)).
  unfold panic. f_equal. destruct s'. simpl in *. by subst.
Qed.

(** ** Writing to a payload *)

(** Memory that agrees with the heap's outside one handed-out payload. *)
Lemma hinv_payload s bl fl a sz m' :
  hinv s bl fl -> Blk a sz Used ∈ bl ->
  (forall w, ~ (a + 32 <= w < a + sz - 8) -> rd m' w = rd (kmem s) w) -> hinv (set_kmem m' s) bl fl.
Proof.
  intros Hi Hb Hw. destruct (block_in _ _ _ _ Hi Hb) as (_&_&[? ?]&_).
  destruct (sh_tags _ _ _ _ _ (hi_shape _ _ _ Hi) _ Hb) as [T1 T2]. unfold b_end in *. simpl in *.
  apply list_elem_of_split in Hb as (l1 & l2 & ->).
  apply (hinv_retile s m' l1 [Blk a sz Used] [Blk a sz Used] l2 fl a (a + sz)); try done.
  - intros b Hb. apply list_elem_of_singleton in Hb as ->. done.
  - intros b Hb. apply list_elem_of_singleton in Hb as ->. done.
  - intros w Hx. apply Hw. lia.
  - intros b Hb. apply list_elem_of_singleton in Hb as ->. unfold tagged, b_end. simpl.
    rewrite !Hw by lia. done.
Qed.

(** The copy loop of [krealloc]. *)
Lemma memcpy_words_spec s dst src n :
  (forall k, 0 <= k < n / 8 -> mapped s (src + 8 * k) /\ mapped s (dst + 8 * k)) ->
  dst + n <= src \/ src + n <= dst -> 0 <= n ->
  exists m', memcpy_words dst src n s = Ret tt (set_kmem m' s) /\
    (forall w, ~ (dst <= w < dst + n) -> rd m' w = rd (kmem s) w) /\
    (forall k, 0 <= k < n / 8 -> rd m' (dst + 8 * k) = rd (kmem s) (src + 8 * k)).
Proof.
  intros Hm Hd Hn.
  set (I := fun i (s' : st) => exists m', s' = set_kmem m' s /\
    (forall w, ~ (dst <= w < dst + n) -> rd m' w = rd (kmem s) w) /\
    (forall k, 0 <= k < i -> rd m' (dst + 8 * k) = rd (kmem s) (src + 8 * k))).
  assert (Hw : wp (memcpy_words dst src n s) (fun _ s' => I (n / 8) s')).
  2: { apply wp_ret_inv in Hw as ([] & s' & E & m' & -> & H1 & H2). by exists m'. }
  apply (wp_for_range I); [dm_lia|exists (kmem s); split_and!; [by destruct s|done|lia]|].
  intros j s1 Hj (m' & -> & H1 & H2). destruct (Hm j Hj) as [M1 M2].
  rewrite (bind_Ret _ _ _ _ _ (load_mapped (set_kmem m' s) (src + 8 * j) M1)).
  rewrite (store_mapped (set_kmem m' s) (dst + 8 * j) _ M2). simpl.
  eexists. split; [reflexivity|]. split.
  - intros w Hx. rewrite rd_insert_ne by dm_lia. by apply H1.
  - intros k Hk. rewrite rd_insert. case_decide as He.
    + replace k with j by lia. apply H1. dm_lia.
    + apply H2. lia.
Qed.

Lemma words_prefix m m' p k k' :
  k <= k' -> (forall i, 0 <= i < k -> rd m' (p + 8 * i) = rd m (p + 8 * i)) ->
  words m p k `prefix_of` words m' p k'.
Proof.
  intros Hk H. destruct (Z.lt_ge_cases k 0) as [?|?].
  { unfold words. rewrite (seqZ_nil 0 k) by lia. apply prefix_nil. }
  rewrite <- (words_ext m m' p k) by done. unfold words.
  replace k' with (k + (k' - k)) by lia. rewrite (seqZ_app _ k) by lia. rewrite fmap_app. by apply prefix_app_r.
Qed.

Lemma used_other s bl fl a sz b n w : hinv s bl fl -> Blk a sz Used ∈ bl -> Blk b n Used ∈ bl -> b <> a ->
  b <= w < b + n -> ~ (a <= w < a + sz).
Proof.
  intros Hi Ha Hb Hne Hw.
  destruct (contiguous_disjoint _ _ _ _ _ (sh_tiles _ _ _ _ _ (hi_shape _ _ _ Hi)) Ha Hb) as [?|[?|?]];
    unfold b_end in *; simpl in *; [congruence|lia|lia].
Qed.

Lemma view_payload s bl fl a sz m' A :
  hinv s bl fl -> Blk a sz Used ∈ bl -> view bl (kmem s) A ->
  (forall w, ~ (a <= w < a + sz) -> rd m' w = rd (kmem s) w) ->
  view bl m' (<[a + 32 := words m' (a + 32) ((sz - 40) / 8)]> A).
Proof.
  intros Hi Ha Hv Hw p ws. rewrite lookup_insert. case_decide as Hp.
  - subst p. replace (a + 32 - 32) with a by lia. split.
    + intros [= <-]. by exists sz.
    + intros (n & Hb & ->).
      pose proof (contiguous_inj _ _ _ _ _ (sh_tiles _ _ _ _ _ (hi_shape _ _ _ Hi)) Ha Hb eq_refl). by simplify_eq.
  - rewrite (Hv p ws). assert (Hsame : forall n, Blk (p - 32) n Used ∈ bl ->
      words m' p ((n - 40) / 8) = words (kmem s) p ((n - 40) / 8)).
    { intros n Hb. pose proof (payload_size n (hinv_sizes _ _ _ _ Hi Hb)). apply words_ext. intros i Hx. apply Hw.
      eapply used_other; [exact Hi|exact Ha|exact Hb|lia|lia]. }
    split; intros (n & Hb & ->); exists n; (split; [done|]); [symmetry|]; by apply Hsame.
Qed.

Lemma live_mapped s A p ws k : heap_rep s A -> A !! p = Some ws -> 0 <= k < Z.of_nat (length ws) ->
  mapped s (p + 8 * k).
Proof.
  intros Hr Hp Hk. destruct (rep_layout _ _ _ _ Hr Hp) as (_ & H1 & H2 & _). unfold bytes in *.
  destruct Hr as (bl & fl & Hi & _). apply (hi_acc _ _ _ Hi). lia.
Qed.

(** Copying one live payload into a larger one. *)
Lemma memcpy_rep s A p q ws us :
  heap_rep s A -> A !! p = Some ws -> A !! q = Some us -> p <> q -> bytes ws <= bytes us ->
  exists s' us', memcpy_words q p (bytes ws) s = Ret tt s' /\ heap_rep s' (<[q := us']> A) /\
    ws `prefix_of` us' /\ length us' = length us /\ g_heap_curr s' = g_heap_curr s /\ kback s' = kback s.
Proof.
  intros Hr Hp Hq Hne Hle. destruct (rep_layout _ _ _ _ Hr Hp) as (_ & _ & _ & Hdis).
  specialize (Hdis _ _ Hq Hne).
  assert (Hdiv : bytes ws / 8 = Z.of_nat (length ws)) by (unfold bytes; dm_lia).
  destruct (memcpy_words_spec s q p (bytes ws)) as (m' & E & Hout & Hcopy).
  { rewrite Hdiv. intros k Hk. split; [by eapply live_mapped|].
    eapply live_mapped; [exact Hr|exact Hq|]. unfold bytes in Hle. lia. }
  { unfold bytes in *. lia. }
  { unfold bytes. lia. }
  rewrite Hdiv in Hcopy. destruct Hr as (bl & fl & Hi & Hset & Hl & Hv).
  apply Hv in Hp as (n & Hbp & Ewp). apply Hv in Hq as (k & Hbq & Ewq).
  pose proof (payload_size _ (hinv_sizes _ _ _ _ Hi Hbp)). pose proof (payload_size _ (hinv_sizes _ _ _ _ Hi Hbq)).
  simpl in *. assert (Hbw : bytes ws = n - 40) by (subst ws; rewrite words_length; lia).
  assert (Hbu : bytes us = k - 40) by (subst us; rewrite words_length; lia).
  exists (set_kmem m' s), (words m' q ((k - 40) / 8)). split; [done|]. split_and!.
  - exists bl, fl. split_and!; try done.
    + eapply hinv_payload; [done|exact Hbq|]. intros w Hw. apply Hout. lia.
    + pose proof (view_payload _ _ _ _ _ m' _ Hi Hbq Hv) as Hv'. replace (q - 32 + 32) with q in Hv' by lia.
      apply Hv'. intros w Hw. apply Hout. lia.
  - rewrite Ewp. assert (Heq : words (kmem s) p ((n - 40) / 8) = words m' q ((n - 40) / 8)).
    { unfold words. apply list_fmap_ext. intros j i Hj. apply lookup_seqZ in Hj as [-> Hj]. symmetry.
      apply Hcopy. unfold bytes in *. lia. }
    rewrite Heq. apply words_prefix; [|done]. lia.
  - rewrite Ewq. unfold words. by rewrite !length_fmap, !length_seqZ.
  - done.
  - done.
Qed.

(** The fallback of [krealloc]: allocate, copy, free. *)
Lemma realloc_move s A p ws newsize :
  heap_rep s A -> A !! p = Some ws -> bytes ws < newsize <= 2 ^ 64 - 64 -> growth_ok s newsize ->
  exists q us s', (let! np := kmalloc newsize in
    if np =? 0 then ret 0 else
    do! memcpy_words np p (bytes ws) in do! kfree p in ret np) s = Ret q s' /\
    heap_rep s' (<[q := us]> (delete p A)) /\ ws `prefix_of` us /\ newsize <= bytes us /\ A !! q = None /\
    spent (kmalloc_cost newsize) s s'.
Proof.
  intros Hr Hp Hsz Hg. assert (0 <= bytes ws) by (unfold bytes; lia).
  destruct (kmalloc_rep s A newsize Hr ltac:(lia) Hg) as (q & us & s1 & E1 & Hr1 & HA & Hn & _ & Hq & _ & _ & Hsp).
  rewrite (bind_Ret _ _ _ _ _ E1), (proj2 (Z.eqb_neq _ _)) by (unfold HEAP_BASE in *; lia).
  assert (Hne : p <> q) by congruence.
  destruct (memcpy_rep s1 _ p q ws us Hr1) as (s2 & us' & E2 & Hr2 & Hpre & Hlen & Hc2 & Hb2); try done.
  { by rewrite lookup_insert_ne. } { by rewrite lookup_insert_eq. } { lia. }
  rewrite (bind_Ret _ _ _ _ _ E2). rewrite insert_insert_eq in Hr2.
  destruct (kfree_rep s2 _ p ws Hr2) as (s3 & E3 & Hr3 & _ & Hb3 & Hc3). { by rewrite lookup_insert_ne. }
  rewrite (bind_Ret _ _ _ _ _ E3). exists q, us', s3. split; [done|].
  rewrite <- delete_insert_ne by done. split; [done|]. split; [done|]. split; [unfold bytes in *; lia|]. split; [done|].
  unfold spent in *. rewrite Hb3, Hb2, Hc3, Hc2. exact Hsp.
Qed.

(** Growing a handed-out block over its free right neighbour. *)
Lemma grow_in_place s l1 a sz n l2 fl A :
  hinv s (l1 ++ Blk a sz Used :: Blk (a + sz) n Free :: l2) fl ->
  settled (l1 ++ Blk a sz Used :: Blk (a + sz) n Free :: l2) -> g_heap_lock s = 1 ->
  view (l1 ++ Blk a sz Used :: Blk (a + sz) n Free :: l2) (kmem s) A ->
  exists s' us, (do! fl_remove (a + sz) in
    let! wh := load a in
    let! wn := load (a + sz) in
    do! SET_SIZE a (u64 (BLK_SIZE wh + BLK_SIZE wn)) in
    do! SET_ALLOC a in
    do! sync_footer a in
    do! unlock_heap in
    ret (a + 32)) s = Ret (a + 32) s' /\
    heap_rep s' (<[a + 32 := us]> A) /\ bytes us = sz + n - 40 /\
    words (kmem s) (a + 32) ((sz - 40) / 8) `prefix_of` us /\ g_heap_curr s' = g_heap_curr s /\ kback s' = kback s.
Proof.
  intros Hi Hset Hl Hv. set (bl := l1 ++ _) in *.
  replace bl with ((l1 ++ [Blk a sz Used]) ++ Blk (a + sz) n Free :: l2) in Hi
    by by (unfold bl; rewrite <- app_assoc).
  destruct (fl_remove_spec _ _ _ _ _ _ Hi) as (fl' & s1 & E1 & Hi1 & Hlo & Hc1 & Hl1 & Hb1).
  rewrite (bind_Ret _ _ _ _ _ E1). rewrite <- app_assoc in Hi, Hi1, Hlo. simpl in Hi, Hi1, Hlo.
  destruct (load_tag _ _ _ _ Hi1 (elem_mid _ _ _)) as [Lh _].
  destruct (load_tag _ _ _ (Blk (a + sz) n Pending) Hi1 ltac:(apply elem_right; left)) as [Ln _].
  pose proof (block_in _ _ _ _ Hi1 (elem_mid _ _ _)) as (H1&H2&Hok1&_&Hlt1).
  pose proof (block_in _ _ _ (Blk (a + sz) n Pending) Hi1 ltac:(apply elem_right; left)) as (_&H3&Hok2&_&Hlt2).
  unfold b_end in *. simpl in *. rewrite (bind_Ret _ _ _ _ _ Lh), (bind_Ret _ _ _ _ _ Ln).
  rewrite !enc_size by (done || simpl; lia). simpl b_size.
  destruct (merge_eq _ _ _ _ _ _ _ _ Hi1) as [M1 _]. rewrite (bind_Ret _ _ _ _ _ M1).
  pose proof (hinv_merge _ _ _ _ _ _ _ _ Hi1 ltac:(done)) as Hi2.
  pose proof (hinv_sizes _ _ _ _ Hi2 (elem_mid _ _ _)) as Hok. simpl in Hok.
  rewrite (mark_used_eq _ a (sz + n)); [|exact (hi_acc _ _ _ Hi1)|done|simpl; lia|done|lia|].
  2: { simpl. rewrite rd_insert_eq, <- (enc_used_word a) by done. by rewrite <- Z.lor_assoc. }
  assert (Htm : tag_mem (Blk a (sz + n) Used) (<[a := enc (Blk a (sz + n) Used)]> (kmem s1)) =
    tag_mem (Blk a (sz + n) Used) (kmem s1)) by (unfold tag_mem; simpl; by rewrite insert_insert_eq).
  simpl (kmem (set_kmem _ _)). rewrite Htm. set (m2 := tag_mem _ _) in *.
  rewrite (bind_Ret _ _ _ _ _ (unlock_eq (set_kmem m2 (set_kmem _ s1)) ltac:(simpl; by rewrite Hl1, Hl))).
  exists (set_lock 0 (set_kmem m2 s1)), (words m2 (a + 32) ((sz + n - 40) / 8)). split; [done|].
  pose proof (sh_tiles _ _ _ _ _ (hi_shape _ _ _ Hi)) as Ht. fold bl in Ht.
  assert (Hun : untouched (l1 ++ l2) (kmem s) m2).
  { eapply untouched_trans; [eapply (untouched_links _ _ _ _ _ _ Ht); [|exact Hlo]|].
    { unfold bl. intros b. rewrite !elem_of_app, !elem_of_cons. tauto. }
    eapply untouched_around; [exact (sh_tiles _ _ _ _ _ (hi_shape _ _ _ Hi2))|].
    intros w Hw. by apply tag_mem_outside. }
  pose proof (payload_size _ Hok). pose proof (payload_size _ Hok1). split_and!.
  - eexists _, fl'. split; [apply hinv_set_lock; exact Hi2|]. split_and!; [|done|].
    { intros b [->|Hb]%elem_around_inv; [done|]. apply Hset. unfold bl. rewrite !elem_of_app, !elem_of_cons in *. tauto. }
    rewrite <- insert_delete_eq. eapply (view_add (l1 ++ l2)).
    + eapply (view_keep (l1 ++ l2)); [|intros b Hb; eapply (hinv_sizes _ _ _ _ Hi); unfold bl;
        rewrite !elem_of_app, !elem_of_cons in *; tauto|exact Hun|done].
      eapply view_remove; [exact Hv|]. intros b k. split.
      * intros Hb. split; [unfold bl; rewrite !elem_of_app, !elem_of_cons in *; tauto|].
        exact (contiguous_other _ _ _ _ _ _ (sh_tiles _ _ _ _ _ (hi_shape _ _ _ Hi2)) Hb).
      * unfold bl. rewrite !elem_of_app, !elem_of_cons. intros [[?|[?|[?|?]]] Hne]; simplify_eq; auto.
    + intros b k. rewrite !elem_of_app, !elem_of_cons. split; [naive_solver|]. intros [[-> ->]|[?|?]]; auto.
    + intros k Hk. exact (contiguous_other _ _ _ _ _ _ (sh_tiles _ _ _ _ _ (hi_shape _ _ _ Hi2)) Hk eq_refl).
  - rewrite words_length; lia.
  - destruct Hok2. apply words_prefix; [lia|]. intros i Hx. unfold m2.
    rewrite tag_mem_other by (unfold b_end; simpl; lia).
    eapply (links_only_inside _ _ _ (Blk a sz Used) _ _ _ Ht); [apply elem_mid|done|unfold b_end; simpl; lia|exact Hlo].
  - exact Hc1.
  - exact Hb1.
Qed.

Lemma heap_rep_unlock s bl fl A : hinv (set_lock 1 s) bl fl -> settled bl -> view bl (kmem s) A ->
  heap_rep (set_lock 0 (set_lock 1 s)) A.
Proof. intros Hi Hset Hv. exists bl, fl. split_and!; [by apply hinv_set_lock|done|done|done]. Qed.

(** What [krealloc] sees of the right neighbour of the block it resizes. *)
Lemma realloc_next s l1 a sz l2 fl :
  hinv s (l1 ++ Blk a sz Used :: l2) fl -> settled (l1 ++ Blk a sz Used :: l2) ->
  let nfree := (if a + sz <? g_heap_curr s then let! wn := load (a + sz) in ret (negb (IS_ALLOC wn))
                else ret false) in
  (nfree s = Ret false s) \/
  (exists n l2', l2 = Blk (a + sz) n Free :: l2' /\ nfree s = Ret true s /\
     load (a + sz) s = Ret n s /\ USABLE n = n - 40 /\ size_ok n /\ n < 2 ^ 32).
Proof.
  intros Hi Hset nfree.
  destruct (contiguous_next _ _ _ _ _ (sh_tiles _ _ _ _ _ (hi_shape _ _ _ Hi)))
    as [[-> He]|([na n nst] & l2' & -> & Ha & Hlt)]; unfold b_end, nfree in *; simpl in *.
  { left. by rewrite (proj2 (Z.ltb_ge _ _)) by lia. }
  rewrite (proj2 (Z.ltb_lt _ _)) by lia. subst na.
  destruct (load_tag _ _ _ (Blk (a + sz) n nst) Hi ltac:(apply elem_right; left)) as [Ln _].
  destruct (block_in _ _ _ (Blk (a + sz) n nst) Hi ltac:(apply elem_right; left)) as (_&_&Hok&_&Hn).
  simpl in *. rewrite (bind_Ret _ _ _ _ _ Ln), enc_alloc by done. simpl.
  destruct nst; simpl; [by left| |by destruct (Hset (Blk (a + sz) n Pending)); [apply elem_right; left|]].
  right. exists n, l2'. change (enc (Blk (a + sz) n Free)) with (n + 0) in Ln. rewrite Z.add_0_r in Ln.
  split_and!; try done. unfold USABLE. rewrite <- (enc_free_word 0 n) at 1. rewrite enc_size by (done || simpl; lia).
  change (b_size (Blk 0 n Pending)) with n. change OVERHEAD with 40. destruct Hok. apply wrap_small. lia.
Qed.

Lemma krealloc_rep s A p ws newsize :
  heap_rep s A -> A !! p = Some ws -> 0 < newsize <= 2 ^ 64 - 64 -> growth_ok s newsize ->
  exists q us s', krealloc p newsize s = Ret q s' /\ heap_rep s' (<[q := us]> (delete p A)) /\
    ws `prefix_of` us /\ newsize <= bytes us /\ (q = p \/ A !! q = None) /\ spent (kmalloc_cost newsize) s s'.
Proof.
  intros Hr Hp Hsz Hg. pose proof Hr as (bl & fl & Hi & Hset & Hl & Hv).
  destruct (rep_layout _ _ _ _ Hr Hp) as (_ & Hpos & _ & _).
  pose proof (proj1 (Hv _ _) Hp) as (sz & Hb & Ews). set (a := p - 32) in *.
  pose proof (hinv_sizes _ _ _ _ Hi Hb) as Hok. simpl in Hok. pose proof (payload_size _ Hok).
  assert (Hbw : bytes ws = sz - 40) by (subst ws; rewrite words_length; lia).
  assert (Hpa : p = a + 32) by lia. destruct (block_in _ _ _ _ Hi Hb) as (_&_&_&_&Hlt). simpl in Hlt.
  unfold krealloc. rewrite (proj2 (Z.eqb_neq p 0)) by (unfold HEAP_BASE in *; lia).
  rewrite (proj2 (Z.eqb_neq newsize 0)) by lia. rewrite (bind_Ret _ _ _ _ _ (lock_eq s Hl)).
  change HDR_SIZE with 32. fold a. cbv zeta. apply (hinv_set_lock _ _ _ 1) in Hi.
  destruct (load_tag _ _ _ _ Hi Hb) as [Lh _]. simpl in Lh. rewrite (bind_Ret _ _ _ _ _ Lh).
  assert (Husa : USABLE (enc (Blk a sz Used)) = bytes ws).
  { unfold USABLE. rewrite enc_size by (done || simpl; lia). change OVERHEAD with 40. simpl.
    destruct Hok. rewrite wrap_small by lia. lia. }
  rewrite Husa. rewrite Z.geb_leb. destruct (Z.leb_spec newsize (bytes ws)) as [Hle|Hgt].
  { rewrite (bind_Ret _ _ _ _ _ (unlock_eq (set_lock 1 s) eq_refl)). exists p, ws. eexists. split; [reflexivity|].
    rewrite insert_delete_eq, insert_id by done. split; [by eapply heap_rep_unlock|]. split; [done|]. split; [lia|]. split; [by left|].
    unfold spent. simpl. pose proof (kmalloc_cost_pos newsize). lia. }
  unfold NEXT_BLOCK. rewrite bind_assoc, (bind_Ret _ _ _ _ _ Lh), enc_size by (done || simpl; lia).
  rewrite (bind_Ret _ _ _ _ _ (eq_refl : ret _ _ = Ret _ _)), bind_get.
  change (b_size (Blk a sz Used)) with sz.
  assert (Hmove : exists q us s', (do! unlock_heap in let! np := kmalloc newsize in
    if np =? 0 then ret 0 else do! memcpy_words np p (bytes ws) in do! kfree p in ret np) (set_lock 1 s) = Ret q s' /\
    heap_rep s' (<[q := us]> (delete p A)) /\ ws `prefix_of` us /\ newsize <= bytes us /\ (q = p \/ A !! q = None) /\
    spent (kmalloc_cost newsize) s s').
  { rewrite (bind_Ret _ _ _ _ _ (unlock_eq (set_lock 1 s) eq_refl)).
    destruct (realloc_move (set_lock 0 (set_lock 1 s)) A p ws newsize) as (q & us & s' & E & ? & ? & ? & ? & ?);
      [by eapply heap_rep_unlock|done|lia|done|]. exists q, us, s'. split; [exact E|]. split; [done|]. split; [done|].
    split; [done|]. split; [by right|done]. }
  apply list_elem_of_split in Hb as (l1 & l2 & ->).
  destruct (realloc_next _ _ _ _ _ _ Hi Hset) as [Hn|(n & l2' & -> & Hn & Ln & Hu & Hokn & Hltn)].
  { rewrite (bind_Ret _ _ _ _ _ Hn). exact Hmove. }
  rewrite (bind_Ret _ _ _ _ _ Hn). cbv iota. rewrite bind_assoc, (bind_Ret _ _ _ _ _ Ln), Hu.
  rewrite (bind_Ret _ _ _ _ _ (eq_refl : ret _ _ = Ret _ _)). change OVERHEAD with 40. destruct Hokn, Hok.
  rewrite !wrap_small by (rewrite ?wrap_small; lia). rewrite Z.geb_leb.
  destruct (Z.leb_spec newsize (bytes ws + 40 + (n - 40))); [|exact Hmove].
  destruct (grow_in_place _ _ _ _ _ _ _ _ Hi Hset eq_refl Hv) as (s' & us & E & Hr' & Hbu & Hpre & Hc' & Hb').
  rewrite Hpa. exists (a + 32), us, s'. split; [exact E|]. rewrite insert_delete_eq.
  split; [done|]. split; [by rewrite Ews, Hpa|]. split; [lia|]. split; [by left|].
  unfold spent. rewrite Hc', Hb'. simpl. pose proof (kmalloc_cost_pos newsize). lia.
Qed.

(** C6. [krealloc] of a live pointer to any size that does not wrap: the result
    is the same pointer or a fresh one, its payload holds the new size, starts
    with the whole old contents, and replaces the old pointer in the abstract
    heap; no other payload changes and the lock is released.  All three paths
    (already large enough, merge with the free right neighbour, move) are
    covered. *)
Theorem krealloc_correct s A p ws newsize :
  heap_rep s A -> A !! p = Some ws -> 0 < newsize <= 2 ^ 64 - 64 -> growth_ok s newsize ->
  exists q us s', krealloc p newsize s = Ret q s' /\ heap_rep s' (<[q := us]> (delete p A)) /\
    ws `prefix_of` us /\ newsize <= bytes us /\ (q = p \/ A !! q = None).
Proof.
  intros Hr Hp Hsz Hg. destruct (krealloc_rep s A p ws newsize Hr Hp Hsz Hg) as (q & us & s' & E & ? & ? & ? & ? & _).
  by exists q, us, s'.
Qed.

Lemma kmalloc_init_rep (s : st) :
  hb_inv (kback s) -> 64 <= hb_room (kback s) ->
  (forall va, HEAP_BASE <= va < HEAP_LIMIT -> hb_window va) -> g_heap_lock s = 0 ->
  exists s', kmalloc_init s = Ret tt s' /\ heap_rep s' ∅ /\ g_heap_curr s' = HEAP_BASE + 64 * 4096 /\
    hinv s' [Blk HEAP_BASE (64 * 4096) Free] [HEAP_BASE] /\ hb_room (kback s) - 64 <= hb_room (kback s').
Proof.
  intros Hb Hr Hw Hl. unfold kmalloc_init. rewrite bind_modify. set (s0 := set_fl 0 (set_curr HEAP_BASE s)).
  assert (Hi0 : hinv s0 [] []).
  { constructor; simpl; try done; [|intros w; simpl; lia]. constructor; simpl; try done.
    - intros b Hb'. by apply elem_of_nil in Hb'.
    - apply NoDup_nil_2.
    - intros x. split; [intros Hx; by apply elem_of_nil in Hx|]. intros (n & Hx). by apply elem_of_nil in Hx. }
  destruct (heap_map_more_spec s0 [] [] (64 * PAGE_SIZE) Hi0) as (s' & E & Hi & _ & Hl' & Hc & Hroom); try done.
  exists s'. split; [exact E|]. split; [|by rewrite Hc].
  eexists _, _. split; [exact Hi|]. split_and!; [|by rewrite Hl'|].
  - intros b Hb'. apply list_elem_of_singleton in Hb' as ->. done.
  - intros p ws. rewrite lookup_empty. split; [done|]. intros (n & Hx & _).
    apply list_elem_of_singleton in Hx. done.
Qed.

(** [kmalloc_init] from any earlier state of the arena variables: the heap is
    empty, well formed and unlocked, with 256 KiB in one free block at
    [HEAP_BASE]. *)
Theorem kmalloc_init_correct (s : st) :
  hb_inv (kback s) -> 64 <= hb_room (kback s) ->
  (forall va, HEAP_BASE <= va < HEAP_LIMIT -> hb_window va) -> g_heap_lock s = 0 ->
  exists s', kmalloc_init s = Ret tt s' /\ heap_rep s' ∅ /\ g_heap_curr s' = HEAP_BASE + 64 * 4096 /\
    hinv s' [Blk HEAP_BASE (64 * 4096) Free] [HEAP_BASE].
Proof. intros Hb Hr Hw Hl. destruct (kmalloc_init_rep s Hb Hr Hw Hl) as (s' & E & Hs & Hc & Hi & _). by exists s'. Qed.

(** C13. The block size [kmalloc] computes has room for the payload and the tags
    exactly when the request is at most [2^64 - 64]; every larger request wraps
    to a block of at most 48 bytes, too small even for one 16-byte payload. *)
Theorem total_size_for_payload_bounds size : 0 < size < 2 ^ 64 ->
  (size <= 2 ^ 64 - 64 -> size + OVERHEAD <= total_size_for_payload size <= size + 63 /\
     total_size_for_payload size mod 16 = 0) /\
  (2 ^ 64 - 64 < size -> 0 <= total_size_for_payload size <= 48).
Proof.
  intros Hs. split.
  { intros Hle. destruct (total_size_ok size ltac:(lia)) as [[_ ?] ?]. change OVERHEAD with 40. lia. }
  intros Hgt. unfold total_size_for_payload. cbv zeta. change ALIGNMENT with 16. change OVERHEAD with 40.
  change 16 with (2 ^ 4). rewrite !ALIGN_UP_spec by lia. change (2 ^ 4 - 1) with 15. change (2 ^ 4) with 16.
  unfold wrap. dm_lia.
Qed.

End spec.
End KmallocSpec.

(** * A concrete backing

    Page tables as the set of mapped pages, frames as a counter: enough to run
    the heap. *)
Module TableBacking.
Import HeapShape KmallocInv KmallocSpec.

Record tb : Type := Tb { tb_next : Z; tb_pages : gset Z }.
Definition tb_frames : Z := 2 ^ 16.

#[export] Instance tb_backing : HeapBacking tb := {|
  hb_ReadCR3 _ := 0x1000;
  hb_frame_alloc := fun b => if tb_next b <? tb_frames
    then Ret (4096 * tb_next b) (Tb (tb_next b + 1) (tb_pages b)) else Panic "OOM" b;
  hb_PagingMapMemory _ va _ _ := modify (fun b => Tb (tb_next b) ({[va]} ∪ tb_pages b));
  hb_mapped b va := bool_decide (va ∈ tb_pages b);
|}.

#[export] Program Instance tb_laws : HeapBackingLaws tb := {|
  hb_inv _ := True;
  hb_room b := tb_frames - tb_next b;
  hb_window _ := True;
|}.
Next Obligation.
  intros b va _ Hr _ _. unfold bind. simpl in *. rewrite (proj2 (Z.ltb_lt _ _)) by lia. simpl.
  split; [done|]. split; [apply bool_decide_eq_true_2; set_solver|]. split; [|split; [done|lia]].
  intros v Hv%bool_decide_eq_true_1. apply bool_decide_eq_true_2. set_solver.
Qed.

Definition boot : kheap tb := KHeap 0 0 0 ∅ (Tb 16 ∅).
Definition state_of {A} (o : outcome (kheap tb) A) : kheap tb :=
  match o with Ret _ s | Panic _ s | Fault _ s | Hang s => s end.
Definition heap0 : kheap tb := Eval vm_compute in state_of (kmalloc_init boot).
Definition heap1 : kheap tb := Eval vm_compute in state_of (kmalloc 100 heap0).

Lemma window_all : forall va, HEAP_BASE <= va < HEAP_LIMIT -> hb_window va.
Proof. done. Qed.

Lemma heap0_rep : heap_rep heap0 ∅.
Proof.
  destruct (kmalloc_init_rep (HL := tb_laws) boot I ltac:(vm_compute; discriminate) window_all eq_refl) as (s' & E & Hr & _).
  replace heap0 with s'; [done|]. assert (E0 : kmalloc_init boot = Ret tt heap0) by (vm_compute; reflexivity). congruence.
Qed.

Lemma growth0 : growth_ok heap0 100.
Proof. split; [|split]; [vm_compute; discriminate|vm_compute; discriminate|done]. Qed.

Lemma heap1_rep : exists ws, heap_rep heap1 {[HEAP_BASE + 32 := ws]} /\ bytes ws = 120.
Proof.
  destruct (kmalloc_rep heap0 ∅ 100 heap0_rep ltac:(lia) growth0) as (p & ws & s' & E & Hr & _ & _ & Hp & _).
  assert (E0 : kmalloc 100 heap0 = Ret (HEAP_BASE + 32) heap1) by (vm_compute; reflexivity).
  assert (p = HEAP_BASE + 32 /\ s' = heap1) as [-> ->] by (split; congruence).
  exists ws. split; [done|]. destruct Hr as (bl & fl & Hi & _ & _ & Hv).
  destruct (proj1 (Hv _ _) (lookup_insert_eq _ _ _)) as (sz & Hb & ->).
  replace (HEAP_BASE + 32 - 32) with HEAP_BASE in Hb by lia.
  pose proof (hinv_sizes _ _ _ _ Hi Hb) as Hok. cbn [b_size] in Hok. pose proof (payload_size _ Hok). rewrite words_length by lia.
  destruct (sh_tags _ _ _ _ _ (hi_shape _ _ _ Hi) _ Hb) as [T1 _]. unfold enc in T1. cbn [b_addr b_size b_st] in *.
  assert (T0 : rd (kmem heap1) HEAP_BASE = 161) by (vm_compute; reflexivity). rewrite T0 in T1. lia.
Qed.

Lemma kmalloc_init_correct_witness :
  exists s', kmalloc_init boot = Ret tt s' /\ heap_rep s' ∅ /\ g_heap_curr s' = HEAP_BASE + 64 * 4096 /\
    hinv s' [Blk HEAP_BASE (64 * 4096) Free] [HEAP_BASE].
Proof.
  apply (kmalloc_init_correct boot); [exact I|vm_compute; discriminate|exact window_all|reflexivity].
Defined.

Lemma kmalloc_correct_witness :
  exists p ws s', kmalloc 100 heap0 = Ret p s' /\ heap_rep s' (<[p := ws]> ∅) /\ (∅ : gmap Z (list Z)) !! p = None /\
    100 <= bytes ws /\ p mod 16 = 0 /\ HEAP_BASE < p /\ p + bytes ws <= HEAP_LIMIT /\
    forall q us, (∅ : gmap Z (list Z)) !! q = Some us -> p + bytes ws <= q \/ q + bytes us <= p.
Proof. apply (kmalloc_correct heap0 ∅ 100 heap0_rep); [lia|exact growth0]. Defined.

Lemma kfree_correct_witness :
  exists ws s', kfree (HEAP_BASE + 32) heap1 = Ret tt s' /\
    heap_rep s' (delete (HEAP_BASE + 32) {[HEAP_BASE + 32 := ws]}) /\
    exists msg, kfree (HEAP_BASE + 32) s' = Panic msg s'.
Proof.
  destruct heap1_rep as (ws & Hr & _). exists ws.
  apply (kfree_correct heap1 _ (HEAP_BASE + 32) ws Hr). apply lookup_insert_eq.
Defined.

Lemma krealloc_correct_witness :
  exists ws q us s', bytes ws = 120 /\ krealloc (HEAP_BASE + 32) 5000 heap1 = Ret q s' /\
    heap_rep s' (<[q := us]> (delete (HEAP_BASE + 32) {[HEAP_BASE + 32 := ws]})) /\ ws `prefix_of` us /\
    5000 <= bytes us /\ (q = HEAP_BASE + 32 \/ ({[HEAP_BASE + 32 := ws]} : gmap Z (list Z)) !! q = None).
Proof.
  destruct heap1_rep as (ws & Hr & Hb).
  destruct (krealloc_correct heap1 _ (HEAP_BASE + 32) ws 5000 Hr (lookup_insert_eq _ _ _) ltac:(lia))
    as (q & us & s' & H); [split; [vm_compute; discriminate|split; [vm_compute; discriminate|done]]|].
  exists ws, q, us, s'. done.
Defined.

Lemma total_size_for_payload_bounds_witness :
  (100 + OVERHEAD <= total_size_for_payload 100 <= 163 /\ total_size_for_payload 100 mod 16 = 0) /\
  0 <= total_size_for_payload (2 ^ 64 - 1) <= 48.
Proof.
  split; [apply (total_size_for_payload_bounds 100); lia|apply (total_size_for_payload_bounds (2 ^ 64 - 1)); lia].
Defined.

(** A request whose size computation wraps is not refused: on the freshly
    initialised heap [kmalloc(2^64 - 1)] returns a pointer to 8 usable bytes, so
    a caller that trusts the request size writes far past the block. *)
Theorem kmalloc_wrapping_request :
  exists s', kmalloc (2 ^ 64 - 1) heap0 = Ret (HEAP_BASE + 32) s' /\
    kmalloc_usable_size (HEAP_BASE + 32) s' = Ret 8 s'.
Proof. exists (state_of (kmalloc (2 ^ 64 - 1) heap0)). split; vm_compute; reflexivity. Qed.

End TableBacking.
