(* ===== verification/KHeap.v ===== *)
(** The interface the rest of the kernel uses the heap through: the C entry
    points, loads and stores of 8-byte words, and what they promise about the
    abstract heap, the map from live payload pointers to their words.  The
    instance is [mm/kmalloc.c] as modelled in [Kmalloc]. *)
From S2P Require Import Prelude Lock Kmalloc HeapShape KmallocInv KmallocSpec.

Class KernelHeap (H : Type) : Type := {
  kh_malloc : Z -> K H Z;
  kh_realloc : Z -> Z -> K H Z;
  kh_free : Z -> K H unit;
  kh_load : Z -> K H Z;
  kh_store : Z -> Z -> K H unit;
}.

(** [kh_rep h n A]: [h] is a quiescent heap with live payloads [A] and growth
    budget [n]; a request costs [kh_cost size] of it. *)
Class KernelHeapLaws (H : Type) `{KernelHeap H} : Type := {
  kh_rep : H -> Z -> gmap Z (list Z) -> Prop;
  kh_cost : Z -> Z;
  kh_cost_nonneg : forall size, 0 <= kh_cost size;
  kh_malloc_law : forall h n A size, kh_rep h n A -> 0 < size <= 2 ^ 32 -> kh_cost size <= n ->
    exists p ws h', kh_malloc size h = Ret p h' /\ kh_rep h' (n - kh_cost size) (<[p := ws]> A) /\
      A !! p = None /\ size <= 8 * Z.of_nat (length ws);
  kh_realloc_law : forall h n A p ws size, kh_rep h n A -> A !! p = Some ws -> 0 < size <= 2 ^ 32 -> kh_cost size <= n ->
    exists q us h', kh_realloc p size h = Ret q h' /\ kh_rep h' (n - kh_cost size) (<[q := us]> (delete p A)) /\
      ws `prefix_of` us /\ size <= 8 * Z.of_nat (length us) /\ (q = p \/ A !! q = None);
  kh_realloc_null : forall size h, kh_realloc 0 size h = kh_malloc size h;
  kh_free_law : forall h n A p ws, kh_rep h n A -> A !! p = Some ws ->
    exists h', kh_free p h = Ret tt h' /\ kh_rep h' n (delete p A);
  kh_load_law : forall h n A p ws i w, kh_rep h n A -> A !! p = Some ws -> ws !! i = Some w ->
    kh_load (p + 8 * Z.of_nat i) h = Ret w h;
  kh_store_law : forall h n A p ws i v, kh_rep h n A -> A !! p = Some ws -> (i < length ws)%nat ->
    exists h', kh_store (p + 8 * Z.of_nat i) v h = Ret tt h' /\ kh_rep h' n (<[p := <[i := v]> ws]> A);
  kh_layout : forall h n A p ws, kh_rep h n A -> A !! p = Some ws ->
    p mod 16 = 0 /\ 0 < p /\ p + 8 * Z.of_nat (length ws) < 2 ^ 64;
}.

(** * One owner among others

    [framed h n A]: the payloads [A] and the budget [n] are part of what the heap
    has.  It satisfies the same laws, so whatever is proved of a client against
    the interface also holds when other tasks own payloads and allocate. *)
Section framed.
Context {H : Type} `{KernelHeap H} {HL : KernelHeapLaws H}.

Definition framed (h : H) (n : Z) (A : gmap Z (list Z)) : Prop :=
  exists n' A', kh_rep h n' A' /\ n <= n' /\ A ⊆ A'.

Program Definition framed_laws : KernelHeapLaws H := {|
  kh_rep := framed;
  kh_cost := kh_cost;
|}.
Next Obligation. exact kh_cost_nonneg. Qed.
Next Obligation.
  intros h n A size (n' & A' & Hr & Hn & HA) Hsz Hc.
  destruct (kh_malloc_law h n' A' size Hr Hsz ltac:(lia)) as (p & ws & h' & E & Hr' & Hp & Hl).
  exists p, ws, h'. split; [done|]. split; [|split; [by eapply lookup_weaken_None|done]].
  exists (n' - kh_cost size), (<[p := ws]> A'). split; [done|]. split; [lia|by apply insert_mono].
Qed.
Next Obligation.
  intros h n A p ws size (n' & A' & Hr & Hn & HA) Hp Hsz Hc.
  destruct (kh_realloc_law h n' A' p ws size Hr ltac:(by eapply lookup_weaken) Hsz ltac:(lia)) as (q & us & h' & E & Hr' & Hpre & Hl & Hq).
  exists q, us, h'. split; [done|]. split; [|split; [done|split; [done|]]].
  - exists (n' - kh_cost size), (<[q := us]> (delete p A')). split; [done|]. split; [lia|]. by apply insert_mono, delete_mono.
  - destruct Hq as [->|Hq]; [by left|right; by eapply lookup_weaken_None].
Qed.
Next Obligation. apply kh_realloc_null. Qed.
Next Obligation.
  intros h n A p ws (n' & A' & Hr & Hn & HA) Hp.
  destruct (kh_free_law h n' A' p ws Hr ltac:(by eapply lookup_weaken)) as (h' & E & Hr').
  exists h'. split; [done|]. exists n', (delete p A'). split; [done|]. split; [done|by apply delete_mono].
Qed.
Next Obligation.
  intros h n A p ws i w (n' & A' & Hr & Hn & HA) Hp Hi. eapply kh_load_law; [done| |done]. by eapply lookup_weaken.
Qed.
Next Obligation.
  intros h n A p ws i v (n' & A' & Hr & Hn & HA) Hp Hi.
  destruct (kh_store_law h n' A' p ws i v Hr ltac:(by eapply lookup_weaken) Hi) as (h' & E & Hr').
  exists h'. split; [done|]. exists n', (<[p := <[i := v]> ws]> A'). split; [done|]. split; [done|by apply insert_mono].
Qed.
Next Obligation.
  intros h n A p ws (n' & A' & Hr & Hn & HA) Hp. eapply kh_layout; [done|]. by eapply lookup_weaken.
Qed.
End framed.

(** * The instance *)
Section instance.
Context {B : Type} {HB : HeapBacking B} {HL : HeapBackingLaws B}.
Import HeapShape KmallocInv KmallocSpec.

#[export] Instance kmalloc_heap : KernelHeap (kheap B) := {|
  kh_malloc := kmalloc;
  kh_realloc := krealloc;
  kh_free := kfree;
  kh_load := load;
  kh_store := store;
|}.

Definition budget_rep (s : kheap B) (n : Z) (A : gmap Z (list Z)) : Prop :=
  heap_rep s A /\ n <= hb_room (kback s) /\ g_heap_curr s + 4096 * n <= HEAP_LIMIT /\
  (forall va, HEAP_BASE <= va < HEAP_LIMIT -> hb_window va).

Lemma words_insert m p k (i : nat) v :
  Z.of_nat i < k -> words (<[p + 8 * Z.of_nat i := v]> m) p k = <[i := v]> (words m p k).
Proof.
  intros Hi. apply list_eq. intros j. unfold words. destruct (decide (j = i)) as [->|Hne].
  - rewrite list_lookup_insert_eq by (rewrite length_fmap, length_seqZ; lia).
    rewrite list_lookup_fmap, lookup_seqZ_lt by lia. cbn. by rewrite rd_insert_eq.
  - rewrite list_lookup_insert_ne by done. rewrite !list_lookup_fmap.
    destruct (seqZ 0 k !! j) as [x|] eqn:Ej; [|done]. apply lookup_seqZ in Ej as [-> ?]. cbn.
    by rewrite rd_insert_ne by lia.
Qed.

Lemma payload_store s A p ws i v :
  heap_rep s A -> A !! p = Some ws -> (i < length ws)%nat ->
  store (p + 8 * Z.of_nat i) v s = Ret tt (set_kmem (<[p + 8 * Z.of_nat i := v]> (kmem s)) s) /\
  heap_rep (set_kmem (<[p + 8 * Z.of_nat i := v]> (kmem s)) s) (<[p := <[i := v]> ws]> A).
Proof.
  intros Hr Hp Hi. split; [apply store_mapped; eapply live_mapped; [done|done|lia]|].
  destruct Hr as (bl & fl & Hinv & Hset & Hl & Hv). pose proof Hp as (sz & Hb & Ews)%Hv.
  pose proof (payload_size _ (hinv_sizes _ _ _ _ Hinv Hb)) as [? ?]. simpl in *.
  assert (Hlen : Z.of_nat (length ws) = (sz - 40) / 8) by (subst ws; unfold words; rewrite length_fmap, length_seqZ; lia).
  exists bl, fl. split_and!; try done.
  - eapply hinv_payload; [done|exact Hb|]. intros w Hw. rewrite rd_insert_ne; [done|]. lia.
  - pose proof (view_payload _ _ _ _ _ (<[p + 8 * Z.of_nat i := v]> (kmem s)) _ Hinv Hb Hv) as Hv'.
    replace (p - 32 + 32) with p in Hv' by lia. rewrite words_insert, <- Ews in Hv' by lia.
    apply Hv'. intros w Hw. rewrite rd_insert_ne; [done|]. lia.
Qed.

#[export] Program Instance kmalloc_heap_laws : KernelHeapLaws (kheap B) := {|
  kh_rep := budget_rep;
  kh_cost := kmalloc_cost;
|}.
Next Obligation. intros size. cbn. pose proof (kmalloc_cost_pos size). lia. Qed.
Next Obligation.
  intros s n A size (Hr & Hn & Hc & Hw) Hsz Hcost. cbn in *.
  pose proof (kmalloc_cost_pos size).
  destruct (kmalloc_rep s A size Hr ltac:(lia)) as (p & ws & s' & E & Hr' & HA & Hl & _ & _ & _ & _ & [Hs1 Hs2]).
  { split_and!; [unfold kmalloc_cost in *; lia|unfold kmalloc_cost in *; lia|done]. }
  exists p, ws, s'. split_and!; try done. split_and!; try done; lia.
Qed.
Next Obligation.
  intros s n A p ws size (Hr & Hn & Hc & Hw) Hp Hsz Hcost. cbn in *. pose proof (kmalloc_cost_pos size).
  destruct (krealloc_rep s A p ws size Hr Hp ltac:(lia)) as (q & us & s' & E & Hr' & Hpre & Hl & Hq & [Hs1 Hs2]).
  { split_and!; [unfold kmalloc_cost in *; lia|unfold kmalloc_cost in *; lia|done]. }
  exists q, us, s'. split; [exact E|]. split; [|done]. split_and!; try done; lia.
Qed.
Next Obligation. done. Qed.
Next Obligation.
  intros s n A p ws (Hr & Hn & Hc & Hw) Hp. destruct (kfree_rep s A p ws Hr Hp) as (s' & E & Hr' & _ & Hb & Hcur).
  exists s'. split; [exact E|]. split_and!; try done; [by rewrite Hb|by rewrite Hcur].
Qed.
Next Obligation.
  intros s n A p ws i w (Hr & _) Hp Hi. cbn. pose proof (lookup_lt_Some _ _ _ Hi).
  rewrite load_mapped by (eapply live_mapped; [done|done|lia]). f_equal.
  destruct Hr as (bl & fl & _ & _ & _ & Hv). apply Hv in Hp as (sz & _ & ->). by apply words_lookup in Hi as [_ ->].
Qed.
Next Obligation.
  intros s n A p ws i v (Hr & Hn & Hc & Hw) Hp Hi. destruct (payload_store s A p ws i v Hr Hp Hi) as [E Hr'].
  eexists. split; [exact E|]. split_and!; done.
Qed.
Next Obligation.
  intros s n A p ws (Hr & Hn & Hc & Hw) Hp. destruct (rep_layout s A p ws Hr Hp) as (? & ? & ? & _).
  unfold bytes in *. unfold HEAP_LIMIT, HEAP_BASE in *. 
  destruct Hr as (bl & fl & Hinv & _). pose proof (hi_curr _ _ _ Hinv). unfold HEAP_LIMIT, HEAP_BASE in *. lia.
Qed.
End instance.
