(* ===== verification/PageTree.v ===== *)
(** Four-level page tables as words of memory: the hardware walk, the tree of
    tables a root owns, and the effect of the three kinds of write the paging
    code performs (clearing a fresh table, linking it, writing a leaf).  Shared
    by [Paging] ([src/src/paging.c]) and [PagingBootstrap]
    ([src/src/paging/paging_bootstrap.c]). *)
From S2P Require Import Prelude.

Module PageTree.

(** ** Entries *)
Definition PTE_P : Z := Z.shiftl 1 0.
Definition PTE_W : Z := Z.shiftl 1 1.
Definition PTE_U : Z := Z.shiftl 1 2.
Definition PTE_PS : Z := Z.shiftl 1 7.
Definition PTE_NX : Z := Z.shiftl 1 63.
Definition ADDR_MASK : Z := 0x000FFFFFFFFFF000.

(** An entry that points to a table: page frame [f], flags below the PS bit. *)
Definition table_entry (e f : Z) : Prop :=
  exists fl, e = Z.lor f fl /\ 0 <= fl < 128 /\ f mod 4096 = 0 /\ 0 <= f < 2 ^ 46.

(** How the walk reads an entry of a table at depth [d] (0 for the PML4, 3 for a
    PT): not present, the end of the walk, or a link. *)
Inductive ekind : Type := Absent | Leaf | Link.
Definition kind (d : nat) (e : Z) : ekind :=
  if negb (is_set e PTE_P) then Absent
  else match d with
       | 0%nat => Link
       | 1%nat | 2%nat => if is_set e PTE_PS then Leaf else Link
       | _ => Leaf
       end.

Section tree.
Context (hh : Z).

(** Address of entry [i] of the table in page frame [t], seen through the direct
    map at [hh]. *)
Definition slot (t i : Z) : Z := t + hh + 8 * i.

Lemma slot_inj t u i j : t mod 4096 = 0 -> u mod 4096 = 0 -> 0 <= i < 512 -> 0 <= j < 512 ->
  slot t i = slot u j -> t = u /\ i = j.
Proof. unfold slot. intros. dm_lia. Qed.

(** The walk from table [t] at depth [d] along the indices [ks]: the entry that
    ends it and its depth. *)
Fixpoint walk (m : gmap Z Z) (d : nat) (t : Z) (ks : list Z) : option (nat * Z) :=
  match ks with
  | [] => None
  | k :: ks' =>
      let e := rd m (slot t k) in
      match kind d e with
      | Absent => None
      | Leaf => Some (d, e)
      | Link => walk m (S d) (Z.land e ADDR_MASK) ks'
      end
  end.

(** What the processor allows at the end of the walk: a write needs the W bit at
    every level, a user access the U bit at every level, and a set NX bit at any
    level forbids execution. *)
Record access : Type := Access { may_write : bool; may_user : bool; may_exec : bool }.
Definition entry_access (e : Z) : access := Access (is_set e PTE_W) (is_set e PTE_U) (negb (is_set e PTE_NX)).
Definition meet (a b : access) : access :=
  Access (may_write a && may_write b) (may_user a && may_user b) (may_exec a && may_exec b).
Fixpoint rights (m : gmap Z Z) (d : nat) (t : Z) (ks : list Z) : option access :=
  match ks with
  | [] => None
  | k :: ks' =>
      let e := rd m (slot t k) in
      match kind d e with
      | Absent => None
      | Leaf => Some (entry_access e)
      | Link => meet (entry_access e) <$> rights m (S d) (Z.land e ADDR_MASK) ks'
      end
  end.

(** The table reached by following links only. *)
Fixpoint descend (m : gmap Z Z) (d : nat) (t : Z) (ks : list Z) : option Z :=
  match ks with
  | [] => Some t
  | k :: ks' =>
      match kind d (rd m (slot t k)) with
      | Link => descend m (S d) (Z.land (rd m (slot t k)) ADDR_MASK) ks'
      | _ => None
      end
  end.

Definition idx_ok (i : Z) : Prop := 0 <= i < 512.

Lemma descend_app m d t ks ks' :
  descend m d t (ks ++ ks') = u ← descend m d t ks; descend m (d + length ks) u ks'.
Proof.
  revert d t. induction ks as [|k ks IH]; intros d t; simpl.
  { by rewrite Nat.add_0_r. }
  destruct (kind d (rd m (slot t k))); simpl; try done. rewrite IH.
  by replace (S d + length ks)%nat with (d + S (length ks))%nat by lia.
Qed.

Lemma walk_descend m d t ks ks' u : descend m d t ks = Some u ->
  walk m d t (ks ++ ks') = walk m (d + length ks) u ks'.
Proof.
  revert d t. induction ks as [|k ks IH]; intros d t; simpl.
  { intros [= ->]. by rewrite Nat.add_0_r. }
  destruct (kind d (rd m (slot t k))); try done. intros H. rewrite (IH _ _ H).
  by replace (S d + length ks)%nat with (d + S (length ks))%nat by lia.
Qed.

(** ** The tables a root owns: each is named by the path that leads to it. *)
Record tree (m : gmap Z Z) (root : Z) (own : gmap Z (list Z)) : Prop := {
  tr_root : own !! root = Some [];
  tr_reach : forall p ks, own !! p = Some ks -> descend m 0 root ks = Some p;
  tr_page : forall p ks, own !! p = Some ks ->
    0 <= p < 2 ^ 46 /\ p mod 4096 = 0 /\ (length ks <= 3)%nat /\ Forall idx_ok ks;
  tr_next : forall p ks i, own !! p = Some ks -> (length ks < 3)%nat -> idx_ok i ->
    let e := rd m (slot p i) in kind (length ks) e = Link ->
    table_entry e (Z.land e ADDR_MASK) /\ own !! Z.land e ADDR_MASK = Some (ks ++ [i]);
}.

Lemma tree_inj m root own p q ks :
  tree m root own -> own !! p = Some ks -> own !! q = Some ks -> p = q.
Proof. intros Ht Hp Hq. apply (tr_reach _ _ _ Ht) in Hp, Hq. congruence. Qed.

(** Where two memories agree on every owned slot except the one at path [Q], the
    walks and descents that avoid [Q] agree. *)
Definition agree_except (m m' : gmap Z Z) (own : gmap Z (list Z)) (Q : list Z) : Prop :=
  forall p ks i, own !! p = Some ks -> idx_ok i -> ks ++ [i] <> Q -> rd m' (slot p i) = rd m (slot p i).

Lemma walk_frame m m' root own Q : tree m root own -> agree_except m m' own Q ->
  forall ks' p ks, own !! p = Some ks -> (length ks + length ks' <= 4)%nat -> Forall idx_ok ks' ->
  ~ (Q `prefix_of` ks ++ ks') ->
  walk m' (length ks) p ks' = walk m (length ks) p ks' /\
  ((length ks + length ks' <= 3)%nat -> descend m' (length ks) p ks' = descend m (length ks) p ks').
Proof.
  intros Ht Ha. induction ks' as [|k ks' IH]; intros p ks Hp Hl Hok HQ; [done|].
  apply Forall_cons in Hok as [Hk Hok]. simpl in *.
  rewrite (Ha p ks k Hp Hk).
  2: { intros HQe. apply HQ. subst Q. exists ks'. by rewrite <- app_assoc. }
  destruct (kind (length ks) (rd m (slot p k))) eqn:Ek; [done|done|].
  destruct (decide (length ks < 3)%nat) as [H3|H3].
  - destruct (tr_next _ _ _ Ht p ks k Hp H3 Hk Ek) as [_ Hn].
    replace (S (length ks)) with (length (ks ++ [k])) by (rewrite length_app; simpl; lia).
    destruct (IH _ _ Hn) as [IH1 IH2]; [rewrite length_app; simpl; lia|done|by rewrite <- app_assoc|].
    split; [done|]. intros Hl'. apply IH2. rewrite length_app. simpl. lia.
  - exfalso. revert Ek. unfold kind. destruct (length ks) as [|[|[|n]]]; [lia|lia|lia|].
    by destruct (negb _).
Qed.

Lemma agree_none m m' own : (forall p ks i, own !! p = Some ks -> idx_ok i -> rd m' (slot p i) = rd m (slot p i)) ->
  forall Q, agree_except m m' own Q.
Proof. intros H Q p ks i Hp Hi _. by eapply H. Qed.

(** ** Flags *)

(** [M] selects the frame bits of an entry: clear below bit 12, set from there to
    bit 45. *)
Definition frame_mask (M : Z) : bool :=
  forallb (fun n => negb (Z.testbit M n)) (seqZ 0 12) && forallb (Z.testbit M) (seqZ 12 34).

Lemma frame_mask_spec M f fl : frame_mask M = true -> f mod 4096 = 0 -> 0 <= f < 2 ^ 46 -> 0 <= fl < 4096 ->
  Z.land (Z.lor f fl) M = f.
Proof.
  intros [HL HH]%andb_true_iff Hal Hf Hfl. rewrite forallb_forall in HL, HH.
  assert (Hin : forall a k n, 0 <= n < k -> List.In (a + n) (seqZ a k)).
  { intros a k n Hn. apply list_elem_of_In, elem_of_seqZ. lia. }
  assert (Hlow : forall z n, 0 <= z < 2 ^ n -> 0 <= n -> forall j, n <= j -> Z.testbit z j = false).
  { intros z n Hz Hn0 j Hj. rewrite <- (Z.mod_small z (2 ^ n)) by done. by apply Z.mod_pow2_bits_high. }
  apply Z.bits_inj'. intros n Hn. rewrite Z.land_spec, Z.lor_spec.
  assert (Hfb : n < 12 -> Z.testbit f n = false).
  { intros. replace f with (f / 2 ^ 12 * 2 ^ 12) by (change (2 ^ 12) with 4096; dm_lia).
    apply Z.mul_pow2_bits_low. lia. }
  destruct (decide (n < 12)) as [H12|H12].
  - rewrite (Hfb H12). rewrite <- (Z.add_0_l n) at 2. rewrite (proj1 (negb_true_iff _) (HL _ (Hin 0 12 n ltac:(lia)))).
    apply andb_false_r.
  - rewrite (Hlow fl 12) by lia. rewrite orb_false_r. destruct (decide (n < 46)) as [H46|H46].
    + replace n with (12 + (n - 12)) at 2 by lia. rewrite (HH _ (Hin 12 34 (n - 12) ltac:(lia))). apply andb_true_r.
    + by rewrite (Hlow f 46) by lia.
Qed.

Lemma table_entry_mask e f : table_entry e f -> Z.land e ADDR_MASK = f.
Proof. intros (fl & -> & Hfl & Hal & Hf). apply frame_mask_spec; [reflexivity|done|lia|lia]. Qed.

Lemma is_set_bit e k : 0 <= k -> is_set e (Z.shiftl 1 k) = Z.testbit e k.
Proof.
  intros Hk. unfold is_set. rewrite Z.shiftl_1_l.
  destruct (Z.testbit e k) eqn:Eb.
  - destruct (Z.eqb_spec (Z.land e (2 ^ k)) 0) as [H0|]; [|done]. exfalso.
    apply (f_equal (fun z => Z.testbit z k)) in H0.
    by rewrite Z.land_spec, Eb, Z.pow2_bits_true, Z.testbit_0_l in H0 by lia.
  - rewrite (proj2 (Z.eqb_eq _ _)); [done|]. apply Z.bits_inj'. intros n Hn. rewrite Z.land_spec, Z.testbit_0_l.
    destruct (decide (n = k)) as [->|]; [by rewrite Eb|]. by rewrite Z.pow2_bits_false, andb_false_r by lia.
Qed.

Lemma aligned_low_bit f n : f mod 4096 = 0 -> 0 <= n < 12 -> Z.testbit f n = false.
Proof.
  intros Hf Hn. replace f with (f / 2 ^ 12 * 2 ^ 12) by (change (2 ^ 12) with 4096; dm_lia).
  apply Z.mul_pow2_bits_low. lia.
Qed.

Lemma table_entry_not_huge e f : table_entry e f -> is_set e PTE_PS = false.
Proof.
  intros (fl & -> & Hfl & Hal & Hf).
  unfold PTE_PS. rewrite is_set_bit, Z.lor_spec, aligned_low_bit by (done || lia). rewrite orb_false_l.
  rewrite <- (Z.mod_small fl (2 ^ 7)) by lia. by rewrite Z.mod_pow2_bits_high by lia.
Qed.

Lemma table_entry_exec e f : table_entry e f -> is_set e PTE_NX = false.
Proof.
  intros (fl & -> & Hfl & Hal & Hf).
  assert (Hhigh : forall z, 0 <= z < 2 ^ 46 -> Z.testbit z 63 = false).
  { intros z Hz. rewrite <- (Z.mod_small z (2 ^ 46)) by done. by apply Z.mod_pow2_bits_high. }
  unfold PTE_NX. rewrite is_set_bit, Z.lor_spec, !Hhigh by lia. done.
Qed.

Lemma table_entry_kind d e f : table_entry e f -> is_set e PTE_P = true -> (d < 3)%nat -> kind d e = Link.
Proof.
  intros He HP Hd. unfold kind. rewrite HP, (table_entry_not_huge e f He). destruct d as [|[|[|]]]; [done|done|done|lia].
Qed.

Lemma kind_absent d e : (d < 3)%nat -> kind d e = Absent -> is_set e PTE_P = false.
Proof.
  intros Hd. unfold kind. destruct (is_set e PTE_P); [|done]. simpl.
  destruct d as [|[|[|]]]; try done; by destruct (is_set _ _).
Qed.

Lemma kind_link d e : kind d e = Link -> is_set e PTE_P = true.
Proof. unfold kind. by destruct (is_set e PTE_P). Qed.

Lemma kind_0 d : kind d 0 = Absent.
Proof. done. Qed.

(** ** Writable links

    Every link of an owned table has the W bit, so that the leaf alone decides
    whether a page may be written. *)
Definition writable_links (m : gmap Z Z) (own : gmap Z (list Z)) : Prop :=
  forall p ks i, own !! p = Some ks -> (length ks < 3)%nat -> idx_ok i ->
    kind (length ks) (rd m (slot p i)) = Link -> is_set (rd m (slot p i)) PTE_W = true.

Lemma rights_walk m root own : tree m root own -> writable_links m own ->
  forall ks' p ks d e, own !! p = Some ks -> (length ks + length ks' <= 4)%nat -> Forall idx_ok ks' ->
  walk m (length ks) p ks' = Some (d, e) ->
  exists u, rights m (length ks) p ks' = Some (Access (is_set e PTE_W) u (negb (is_set e PTE_NX))).
Proof.
  intros Ht Hw. induction ks' as [|k ks' IH]; intros p ks d e Hp Hl Hok; [done|].
  apply Forall_cons in Hok as [Hk Hok]. cbn [walk rights length] in *.
  destruct (kind (length ks) (rd m (slot p k))) eqn:Ek; [done| |].
  - intros [= <- <-]. by eexists.
  - destruct (decide (length ks < 3)%nat) as [H3|H3].
    + destruct (tr_next _ _ _ Ht p ks k Hp H3 Hk Ek) as [Hte Hn].
      replace (S (length ks)) with (length (ks ++ [k])) by (rewrite length_app; simpl; lia). intros Hwalk.
      destruct (IH _ _ d e Hn ltac:(rewrite length_app; simpl; lia) Hok Hwalk) as [u ->]. simpl.
      unfold meet, entry_access. cbn [may_write may_user may_exec].
      rewrite (Hw p ks k Hp H3 Hk Ek), (table_entry_exec _ _ Hte). by eexists.
    + exfalso. revert Ek. unfold kind. destruct (length ks) as [|[|[|n]]]; [lia|lia|lia|]. by destruct (negb _).
Qed.

Lemma writable_links_root m root : (forall i, idx_ok i -> rd m (slot root i) = 0) -> writable_links m {[root := []]}.
Proof. intros Hz p ks i [<- <-]%lookup_singleton_Some _ Hi. by rewrite Hz. Qed.

Lemma prefix_snoc_cases (Q qs : list Z) j : Q `prefix_of` qs ++ [j] -> qs ++ [j] = Q \/ Q `prefix_of` qs.
Proof.
  intros [r E]. destruct r as [|x r _] using rev_ind.
  - left. by rewrite app_nil_r in E.
  - right. rewrite app_assoc in E. apply app_inj_2 in E as [-> _]; [|done]. by exists r.
Qed.

Lemma snoc_not_prefix (ks : list Z) i : ~ (ks ++ [i] `prefix_of` ks).
Proof. intros H%prefix_length. rewrite length_app in H. simpl in H. lia. Qed.

Lemma descend_owned m m' root own Q p ks : tree m root own -> agree_except m m' own Q ->
  own !! p = Some ks -> ~ (Q `prefix_of` ks) -> descend m' 0 root ks = Some p.
Proof.
  intros Ht Ha Hp HQ. destruct (tr_page _ _ _ Ht _ _ Hp) as (_&_&Hl&Hok).
  destruct (walk_frame _ _ _ _ _ Ht Ha ks root [] (tr_root _ _ _ Ht) ltac:(simpl; lia) Hok HQ) as [_ Hd].
  simpl in Hd. rewrite Hd by lia. by apply (tr_reach _ _ _ Ht).
Qed.

(** Owned tables that lie behind an entry that is not a link do not exist. *)
Lemma owned_behind m root own p ks i q r : tree m root own -> own !! p = Some ks ->
  kind (length ks) (rd m (slot p i)) <> Link -> own !! q = Some ((ks ++ [i]) ++ r) -> False.
Proof.
  intros Ht Hp Hk Hq. apply (tr_reach _ _ _ Ht) in Hp, Hq.
  rewrite <- app_assoc, descend_app, Hp in Hq. simpl in Hq.
  by destruct (kind (length ks) (rd m (slot p i))).
Qed.

(** A cleared root owns itself only and translates nothing. *)
Lemma tree_root m root : (forall i, idx_ok i -> rd m (slot root i) = 0) -> root mod 4096 = 0 -> 0 <= root < 2 ^ 46 ->
  tree m root {[root := []]}.
Proof.
  intros Hz Hal Hb. constructor.
  - apply lookup_insert_eq.
  - intros p ks [<- <-]%lookup_singleton_Some. done.
  - intros p ks [<- <-]%lookup_singleton_Some. split_and!; [lia|lia|done|simpl; lia|constructor].
  - intros p ks i [<- <-]%lookup_singleton_Some _ Hi. simpl. rewrite Hz by done. done.
Qed.

(** Linking a fresh, cleared table changes no translation. *)
Section link.
Context (m m' : gmap Z Z) (root : Z) (own : gmap Z (list Z)) (p i f e : Z) (ks : list Z).
Hypothesis Ht : tree m root own.
Hypothesis Hp : own !! p = Some ks.
Hypothesis Hlen : (length ks < 3)%nat.
Hypothesis Hi : idx_ok i.
Hypothesis Habs : kind (length ks) (rd m (slot p i)) = Absent.
Hypothesis Hf : own !! f = None.
Hypothesis He : table_entry e f.
Hypothesis HeP : is_set e PTE_P = true.
Hypothesis Hnew : rd m' (slot p i) = e.
Hypothesis Hzero : forall j, idx_ok j -> rd m' (slot f j) = 0.
Hypothesis Hother : forall a, a <> slot p i -> (forall j, idx_ok j -> a <> slot f j) -> rd m' a = rd m a.

Lemma link_agree : agree_except m m' own (ks ++ [i]).
Proof.
  intros q qs j Hq Hj HQ. destruct (tr_page _ _ _ Ht _ _ Hq) as (_&Hqa&_). destruct (tr_page _ _ _ Ht _ _ Hp) as (_&Hpa&_).
  destruct He as (_&_&_&Hfa&_). apply Hother.
  - intros Hs. apply slot_inj in Hs as [-> ->]; try done. apply HQ. congruence.
  - intros j' Hj' Hs. apply slot_inj in Hs as [-> ->]; try done. congruence.
Qed.

Lemma link_reach : descend m' 0 root (ks ++ [i]) = Some f.
Proof.
  rewrite descend_app, (descend_owned _ _ _ _ _ _ _ Ht link_agree Hp (snoc_not_prefix _ _)). simpl.
  by rewrite Hnew, (table_entry_kind _ _ f), (table_entry_mask _ f).
Qed.

Lemma link_tree : tree m' root (<[f := ks ++ [i]]> own).
Proof.
  pose proof (tr_root _ _ _ Ht) as Hr. destruct (tr_page _ _ _ Ht _ _ Hp) as (_&Hpa&_&Hksok).
  constructor.
  - rewrite lookup_insert_ne; [done|congruence].
  - intros q qs. rewrite lookup_insert. case_decide as Hqf.
    + intros [= <-]. subst q. apply link_reach.
    + intros Hq. apply (descend_owned _ _ _ _ _ _ _ Ht link_agree Hq). intros [r ->].
      eapply (owned_behind _ _ _ _ _ i q r Ht Hp); [by rewrite Habs|exact Hq].
  - intros q qs. rewrite lookup_insert. case_decide as Hqf; [|apply (tr_page _ _ _ Ht)].
    intros [= <-]. subst q. destruct He as (_&_&_&?&?). split_and!; try done; try lia.
    + rewrite length_app. simpl. lia.
    + apply Forall_app. by split; [|constructor].
  - intros q qs j. rewrite (lookup_insert own f q). case_decide as Hqf.
    + intros _ _ Hj. subst q. simpl. by rewrite Hzero, kind_0.
    + intros Hq Hl Hj. simpl. destruct (decide (q = p /\ j = i)) as [[-> ->]|Hne].
      * assert (qs = ks) as -> by congruence. rewrite Hnew. intros _. rewrite (table_entry_mask _ f) by done.
        by rewrite lookup_insert_eq.
      * assert (Hrd : rd m' (slot q j) = rd m (slot q j)).
        { apply (link_agree q qs j Hq Hj). intros HQ. apply app_inj_2 in HQ as [-> [= ->]]; [|done].
          apply Hne. split; [|done]. by eapply tree_inj. }
        rewrite Hrd. intros Hk. destruct (tr_next _ _ _ Ht q qs j Hq Hl Hj Hk) as [? Hn]. split; [done|].
        rewrite lookup_insert_ne; [done|congruence].
Qed.

Lemma link_writable : is_set e PTE_W = true -> writable_links m own -> writable_links m' (<[f := ks ++ [i]]> own).
Proof.
  intros HW Hw q qs j. rewrite (lookup_insert own f q). case_decide as Hqf.
  - intros _ _ Hj. subst q. by rewrite Hzero, kind_0.
  - intros Hq Hl Hj. destruct (decide (q = p /\ j = i)) as [[-> ->]|Hne]; [by rewrite Hnew|].
    rewrite (link_agree q qs j Hq Hj); [by apply Hw|]. intros HQ. apply app_inj_2 in HQ as [-> [= ->]]; [|done].
    apply Hne. split; [|done]. by eapply tree_inj.
Qed.

Lemma link_walk κ : length κ = 4%nat -> Forall idx_ok κ -> walk m' 0 root κ = walk m 0 root κ.
Proof.
  intros Hl Hok. destruct (decide (ks ++ [i] `prefix_of` κ)) as [[r ->]|HQ].
  - rewrite (walk_descend _ _ _ _ _ _ link_reach).
    rewrite <- app_assoc, (walk_descend _ _ _ _ _ _ (tr_reach _ _ _ Ht _ _ Hp)). simpl. rewrite Habs.
    rewrite !Forall_app in Hok. destruct Hok as [_ Hr]. destruct r as [|j r]; [done|]. simpl.
    apply Forall_cons in Hr as [Hj _]. by rewrite Hzero, kind_0.
  - apply (walk_frame _ _ _ _ _ Ht link_agree κ root [] (tr_root _ _ _ Ht)); [simpl; lia|done|done].
Qed.
End link.

(** Overwriting an entry by one that is no link: the tables behind it are no
    longer owned, the paths through it end there, all others are as before. *)
Definition cut (own : gmap Z (list Z)) (Q : list Z) : gmap Z (list Z) :=
  filter (fun x => ~ (Q `prefix_of` x.2)) own.

Lemma cut_lookup own Q p ks : cut own Q !! p = Some ks <-> own !! p = Some ks /\ ~ (Q `prefix_of` ks).
Proof. unfold cut. by rewrite map_lookup_filter_Some. Qed.

Lemma entry_write m m' root own p i e ks :
  tree m root own -> own !! p = Some ks -> idx_ok i -> kind (length ks) e <> Link ->
  rd m' (slot p i) = e -> (forall a, a <> slot p i -> rd m' a = rd m a) ->
  tree m' root (cut own (ks ++ [i])) /\
  forall κ, length κ = 4%nat -> Forall idx_ok κ ->
    walk m' 0 root κ =
      if decide (ks ++ [i] `prefix_of` κ)
      then match kind (length ks) e with Leaf => Some (length ks, e) | _ => None end
      else walk m 0 root κ.
Proof.
  intros Ht Hp Hi Hk Hnew Hother. destruct (tr_page _ _ _ Ht _ _ Hp) as (_&Hpa&_&_).
  assert (Ha : agree_except m m' own (ks ++ [i])).
  { intros q qs j Hq Hj HQ. destruct (tr_page _ _ _ Ht _ _ Hq) as (_&Hqa&_). apply Hother.
    intros Hs. apply slot_inj in Hs as [-> ->]; try done. apply HQ. congruence. }
  split.
  - constructor.
    + apply cut_lookup. split; [apply (tr_root _ _ _ Ht)|]. intros H%prefix_length.
      rewrite length_app in H. simpl in H. lia.
    + intros q qs [Hq HQ]%cut_lookup. by apply (descend_owned _ _ _ _ _ _ _ Ht Ha Hq).
    + intros q qs [Hq _]%cut_lookup. by apply (tr_page _ _ _ Ht).
    + intros q qs j [Hq HQ]%cut_lookup Hl Hj. simpl.
      destruct (decide (qs ++ [j] = ks ++ [i])) as [He|He].
      * apply app_inj_2 in He as [-> [= ->]]; [|done].
        assert (q = p) as -> by by eapply tree_inj. by rewrite Hnew.
      * rewrite (Ha q qs j Hq Hj He). intros Hkk. destruct (tr_next _ _ _ Ht q qs j Hq Hl Hj Hkk) as [? Hn].
        split; [done|]. apply cut_lookup. split; [done|]. intros Hpre.
        apply prefix_snoc_cases in Hpre as [?|?]; [by apply He|done].
  - intros κ Hl Hok. case_decide as HQ.
    + destruct HQ as [r ->]. rewrite <- app_assoc.
      rewrite (walk_descend _ _ _ _ _ _ (descend_owned _ _ _ _ _ _ _ Ht Ha Hp (snoc_not_prefix _ _))).
      simpl. rewrite Hnew. by destruct (kind (length ks) e).
    + by apply (walk_frame _ _ _ _ _ Ht Ha κ root [] (tr_root _ _ _ Ht)); [simpl; lia| |].
Qed.

Lemma write_writable m m' root own own' p i e ks :
  tree m root own -> own !! p = Some ks -> idx_ok i -> kind (length ks) e <> Link ->
  rd m' (slot p i) = e -> (forall a, a <> slot p i -> rd m' a = rd m a) -> own' ⊆ own ->
  writable_links m own -> writable_links m' own'.
Proof.
  intros Ht Hp Hi Hk Hnew Hother Hsub Hw q qs j Hq Hl Hj. pose proof (lookup_weaken _ _ _ _ Hq Hsub) as Hq'.
  destruct (decide (slot q j = slot p i)) as [Hs|Hs]; [|rewrite (Hother _ Hs); by apply Hw].
  destruct (tr_page _ _ _ Ht _ _ Hq') as (_ & Ha & _), (tr_page _ _ _ Ht _ _ Hp) as (_ & Hb & _).
  apply slot_inj in Hs as [-> ->]; try done. assert (qs = ks) as -> by congruence. by rewrite Hnew.
Qed.

Lemma cut_subseteq own Q : cut own Q ⊆ own.
Proof. apply map_filter_subseteq. Qed.

(** Writing an entry of a last-level table changes the translation of its own path
    only. *)
Lemma leaf_write m m' root own p i e ks :
  tree m root own -> own !! p = Some ks -> length ks = 3%nat -> idx_ok i ->
  rd m' (slot p i) = e -> (forall a, a <> slot p i -> rd m' a = rd m a) ->
  tree m' root own /\
  forall κ, length κ = 4%nat -> Forall idx_ok κ ->
    walk m' 0 root κ =
      if decide (κ = ks ++ [i]) then (if is_set e PTE_P then Some (3%nat, e) else None) else walk m 0 root κ.
Proof.
  intros Ht Hp Hlen Hi Hnew Hother.
  destruct (entry_write m m' root own p i e ks Ht Hp Hi) as [Ht' Hw]; try done.
  { rewrite Hlen. unfold kind. by destruct (is_set e PTE_P). }
  assert (Hc : cut own (ks ++ [i]) = own).
  { apply map_eq. intros q. apply option_eq. intros qs. rewrite cut_lookup. split; [by intros []|].
    intros Hq. split; [done|]. intros Hpre%prefix_length. destruct (tr_page _ _ _ Ht _ _ Hq) as (_&_&?&_).
    rewrite length_app in Hpre. simpl in Hpre. lia. }
  rewrite Hc in Ht'. split; [done|]. intros κ Hl Hok. rewrite (Hw κ Hl Hok).
  destruct (decide (κ = ks ++ [i])) as [->|Hκ].
  - rewrite decide_True by done. rewrite Hlen. unfold kind. by destruct (is_set e PTE_P).
  - rewrite decide_False; [done|]. intros [r ->]. apply Hκ. rewrite !length_app in Hl. simpl in Hl.
    destruct r; [by rewrite app_nil_r|]. simpl in Hl. lia.
Qed.


End tree.
End PageTree.
