(* ===== verification/Paging.v ===== *)
(** The paging layer, [src/src/paging.c] with [include/paging/paging.h] and
    [include/paging/frame_supplier.h]: mapping, lookup, unmapping and
    duplication of four-level page tables through the direct map.  Frames for
    new tables come from whichever supplier [g_boot_phys_page] points to, an
    interface here ([FrameSource]).  The debug prints are left out. *)
From S2P Require Import Prelude PageTree.

(** The supplier behind [g_boot_phys_page]: NULL or a function returning one
    physical page. *)
Class FrameSource (S : Type) : Type := {
  g_boot_phys_page : S -> option (K S Z);
}.

Definition PagingGetFreeFrame {S} `{FrameSource S} : K S Z := fun s =>
  match g_boot_phys_page s with Some f => f s | None => Ret 0 s end.

(** What the paging layer relies on: a frame handed out was available, is no
    longer, and is a nonzero page of the direct map. *)
Class FrameSourceLaws (S : Type) `{FrameSource S} : Type := {
  fs_inv : S -> Prop;
  fs_avail : S -> Z -> Prop;
  fs_room : S -> Z;
  fs_law : forall s, fs_inv s -> 0 < fs_room s ->
    wp (PagingGetFreeFrame s) (fun f s' => fs_inv s' /\ fs_avail s f /\ ~ fs_avail s' f /\
      (forall g, fs_avail s' g -> fs_avail s g) /\ fs_room s - 1 <= fs_room s' /\
      0 < f < 2 ^ 46 /\ f mod 4096 = 0);
}.

Module Paging.
Import PageTree.

Definition HIGHER_HALF_MEMORY_OFFSET : Z := 0xFFFF800000000000.
Definition PAGE_FLAG_MASK : Z := Z.lor 0xFFF (Z.shiftl 1 63).
Definition PAGE_ADDRESS_MASK : Z := u64 (Z.lnot PAGE_FLAG_MASK).
Definition TranslateToHighHalfMemoryAddress (physicalAddress : Z) : Z :=
  u64 (physicalAddress + HIGHER_HALF_MEMORY_OFFSET).
Definition TranslateToPhysicalMemoryAddress (virtualAddress : Z) : Z :=
  u64 (virtualAddress - HIGHER_HALF_MEMORY_OFFSET).
Definition IsHigherHalf (physicalAddress : Z) : bool := physicalAddress >=? HIGHER_HALF_MEMORY_OFFSET.

Record PageTableOffset : Type := Offsets { p4Offset : Z; pdpOffset : Z; pdOffset : Z; ptOffset : Z }.

Definition VirtualAddressToOffsets (address : Z) : PageTableOffset :=
  Offsets (Z.shiftr (Z.land address (Z.shiftl 0x1FF 39)) 39)
          (Z.shiftr (Z.land address (Z.shiftl 0x1FF 30)) 30)
          (Z.shiftr (Z.land address (Z.shiftl 0x1FF 21)) 21)
          (Z.shiftr (Z.land address (Z.shiftl 0x1FF 12)) 12).

Definition OffsetToVirtualAddress (offset : PageTableOffset) : Z :=
  let address := 0 in
  let address := Z.lor address (u64 (Z.shiftl (p4Offset offset) 39)) in
  let address := Z.lor address (u64 (Z.shiftl (pdpOffset offset) 30)) in
  let address := Z.lor address (u64 (Z.shiftl (pdOffset offset) 21)) in
  let address := Z.lor address (u64 (Z.shiftl (ptOffset offset) 12)) in
  address.

Section paging.
Context {S : Type} `{FrameSource S}.

(** Memory as the kernel sees it through the direct map, and the supplier. *)
Record pgs : Type := PGS { pmem : gmap Z Z; psrc : S }.
Definition set_pmem (m : gmap Z Z) (s : pgs) : pgs := PGS m (psrc s).
Definition set_psrc (x : S) (s : pgs) : pgs := PGS (pmem s) x.

(** [table->entries[offset]], and assignment to it.  The table of a failed
    [GetOrAllocEntry] is NULL, and its entries are not accessible. *)
Definition entry (table offset : Z) : K pgs Z :=
  fun s => if table =? 0 then Fault (8 * offset) s else Ret (rd (pmem s) (table + 8 * offset)) s.
Definition set_entry (table offset v : Z) : K pgs unit :=
  if table =? 0 then fault (8 * offset) else modify (fun s => set_pmem (<[table + 8 * offset := v]> (pmem s)) s).

(** [memset(p, 0, 0x1000)] on a page, word by word. *)
Definition zero_words (m : gmap Z Z) (p : Z) : gmap Z Z :=
  foldr (fun i m => <[p + 8 * i := 0]> m) m (seqZ 0 512).
Definition memset_page (p : Z) : K pgs unit := modify (fun s => set_pmem (zero_words (pmem s) p) s).

(** [memcpy(dst, src, 0x1000)] of a page, word by word. *)
Definition memcpy_page (dst src : Z) : K pgs unit :=
  for_range 0 512 (fun i => let! w := entry src i in set_entry dst i w).

Definition get_free_frame : K pgs Z := zoom psrc set_psrc PagingGetFreeFrame.

Definition GetOrAllocEntry (table offset flags : Z) : K pgs Z :=
  let! address := entry table offset in
  if negb (is_set address PTE_P) then
    let! address := get_free_frame in
    do! set_entry table offset address in
    if address =? 0 then ret 0 else
    let! e := entry table offset in
    do! set_entry table offset (Z.lor e (Z.lor flags PTE_P)) in
    do! memset_page (TranslateToHighHalfMemoryAddress address) in
    ret (TranslateToHighHalfMemoryAddress (Z.land address PAGE_ADDRESS_MASK))
  else ret (TranslateToHighHalfMemoryAddress (Z.land address PAGE_ADDRESS_MASK)).

Definition GetOrNullifyEntry (table offset : Z) : K pgs Z :=
  let! address := entry table offset in
  if negb (is_set address PTE_P) then ret 0
  else ret (TranslateToHighHalfMemoryAddress (Z.land address PAGE_ADDRESS_MASK)).

Definition PagingMapMemory (p4 virtualMemory physicalMemory flags : Z) : K pgs unit :=
  let higherPermissions := Z.lor PTE_W PTE_U in
  let offset := VirtualAddressToOffsets virtualMemory in
  let p4Virtual := TranslateToHighHalfMemoryAddress p4 in
  let! pdp := GetOrAllocEntry p4Virtual (p4Offset offset) higherPermissions in
  let! pd := GetOrAllocEntry pdp (pdpOffset offset) higherPermissions in
  let! pt := GetOrAllocEntry pd (pdOffset offset) higherPermissions in
  set_entry pt (ptOffset offset) (Z.lor (Z.lor physicalMemory flags) PTE_P).

Definition PagingIdentityMap (p4 virtualMemory flags : Z) : K pgs unit :=
  PagingMapMemory p4 virtualMemory virtualMemory flags.

Definition PagingPhysicalMemory (p4 virtualMemory : Z) : K pgs Z :=
  let offset := VirtualAddressToOffsets virtualMemory in
  let p4Virtual := TranslateToHighHalfMemoryAddress p4 in
  let! pdp := GetOrNullifyEntry p4Virtual (p4Offset offset) in
  if pdp =? 0 then ret 0 else
  let! pd := GetOrNullifyEntry pdp (pdpOffset offset) in
  if pd =? 0 then ret 0 else
  let! pt := GetOrNullifyEntry pd (pdOffset offset) in
  if pt =? 0 then ret 0 else
  let! e := entry pt (ptOffset offset) in
  ret (Z.land e (u64 (Z.lnot PAGE_FLAG_MASK))).

Definition PagingUnmapMemory (p4 virtualMemory : Z) : K pgs unit :=
  let offset := VirtualAddressToOffsets virtualMemory in
  let p4Virtual := TranslateToHighHalfMemoryAddress p4 in
  let! pdp := GetOrNullifyEntry p4Virtual (p4Offset offset) in
  if pdp =? 0 then ret tt else
  let! pd := GetOrNullifyEntry pdp (pdpOffset offset) in
  if pd =? 0 then ret tt else
  let! pt := GetOrNullifyEntry pd (pdOffset offset) in
  if pt =? 0 then ret tt else
  set_entry pt (ptOffset offset) 0.

(** [level] counts down to the data pages, so the recursion is structural. *)
Fixpoint DuplicateRecursive (self e : Z) (level : nat) {struct level} : K pgs Z :=
  let flags := Z.lor (Z.lor PTE_P PTE_U) PTE_W in
  let virt := TranslateToHighHalfMemoryAddress (Z.land e PAGE_ADDRESS_MASK) in
  let! newPage := get_free_frame in
  let newVirtual := TranslateToHighHalfMemoryAddress newPage in
  do! PagingMapMemory self newVirtual newPage flags in
  do! memset_page newVirtual in
  do! (match level with
       | O => memcpy_page newVirtual virt
       | Datatypes.S level' =>
           for_range 0 512 (fun i =>
             let! v := entry virt i in
             when (is_set v PTE_P)
               (let! d := DuplicateRecursive self v level' in set_entry newVirtual i d))
       end) in
  ret (Z.lor newPage (Z.land e PAGE_FLAG_MASK)).

Definition PagingDuplicate (p4 newTable : Z) : K pgs unit :=
  let p4Virtual := TranslateToHighHalfMemoryAddress p4 in
  do! memset_page newTable in
  do! for_range 0 256 (fun i =>
        let! e := entry p4Virtual i in
        when (is_set e PTE_P)
          (let! d := DuplicateRecursive p4 e 3 in set_entry newTable i d)) in
  for_range 256 512 (fun i => let! e := entry p4Virtual i in set_entry newTable i e).

End paging.
Arguments pgs S : clear implicits.

(** ** Index arithmetic *)
Definition path_of (va : Z) : list Z :=
  let o := VirtualAddressToOffsets va in [p4Offset o; pdpOffset o; pdOffset o; ptOffset o].

Lemma index_field a k : 0 <= k -> Z.shiftr (Z.land a (Z.shiftl 0x1FF k)) k = a / 2 ^ k mod 512.
Proof.
  intros Hk. rewrite Z.shiftr_land, <- Z.shiftr_div_pow2 by done. change 512 with (2 ^ 9).
  rewrite <- (land_low 9) by lia. f_equal. rewrite Z.shiftr_shiftl_l, Z.sub_diag by lia. done.
Qed.

Lemma path_eq va : path_of va = [va / 2 ^ 39 mod 512; va / 2 ^ 30 mod 512; va / 2 ^ 21 mod 512; va / 2 ^ 12 mod 512].
Proof. unfold path_of, VirtualAddressToOffsets. cbn [p4Offset pdpOffset pdOffset ptOffset]. by rewrite !index_field by lia. Qed.

Lemma path_ok va : length (path_of va) = 4%nat /\ Forall idx_ok (path_of va).
Proof.
  rewrite path_eq. split; [done|]. repeat constructor; unfold idx_ok; try apply Z.mod_pos_bound; lia.
Qed.

Lemma path_same va va' : path_of va = path_of va' <-> va / 4096 mod 2 ^ 36 = va' / 4096 mod 2 ^ 36.
Proof.
  rewrite !path_eq. assert (Hd : forall z, z / 2 ^ 12 = z / 4096) by done. split.
  - intros [= H1 H2 H3 H4]. dm_lia.
  - intros He. assert (Hq : forall z, z / 2 ^ 39 mod 512 = z / 4096 mod 2 ^ 36 / 2 ^ 27 /\
      z / 2 ^ 30 mod 512 = z / 4096 mod 2 ^ 36 / 2 ^ 18 mod 512 /\
      z / 2 ^ 21 mod 512 = z / 4096 mod 2 ^ 36 / 2 ^ 9 mod 512 /\
      z / 2 ^ 12 mod 512 = z / 4096 mod 2 ^ 36 mod 512) by (intros z; dm_lia).
    destruct (Hq va) as (->&->&->&->), (Hq va') as (->&->&->&->). by rewrite He.
Qed.

(** ** Words and masks *)
Lemma rd_zero_in m p i : 0 <= i < 512 -> rd (zero_words m p) (p + 8 * i) = 0.
Proof.
  intros Hi. assert (Hin : i ∈ seqZ 0 512) by (apply elem_of_seqZ; lia). unfold zero_words. revert Hin.
  induction (seqZ 0 512) as [|j l IH]; intros Hin; [by apply elem_of_nil in Hin|].
  cbn [foldr]. rewrite rd_insert. case_decide; [done|]. apply IH. apply elem_of_cons in Hin as [->|?]; done.
Qed.

Lemma rd_zero_out m p a : (forall i, 0 <= i < 512 -> a <> p + 8 * i) -> rd (zero_words m p) a = rd m a.
Proof.
  intros Ha. unfold zero_words. assert (Hin : forall i, i ∈ seqZ 0 512 -> a <> p + 8 * i).
  { intros i Hi%elem_of_seqZ. apply Ha. lia. }
  induction (seqZ 0 512) as [|j l IH]; [done|]. cbn [foldr]. rewrite rd_insert_ne.
  - apply IH. intros i Hi. apply Hin. by right.
  - intros E. apply (Hin j); [left|done].
Qed.

Lemma translate_eq p : 0 <= p < 2 ^ 46 -> TranslateToHighHalfMemoryAddress p = p + HIGHER_HALF_MEMORY_OFFSET.
Proof. intros. unfold TranslateToHighHalfMemoryAddress, HIGHER_HALF_MEMORY_OFFSET. apply wrap_small. lia. Qed.

Lemma table_entry_page_mask e f : table_entry e f -> Z.land e PAGE_ADDRESS_MASK = f.
Proof. intros (fl & -> & Hfl & Hal & Hf). apply frame_mask_spec; [reflexivity|done|lia|lia]. Qed.

Lemma frame_page_mask f : f mod 4096 = 0 -> 0 <= f < 2 ^ 46 -> Z.land f PAGE_ADDRESS_MASK = f.
Proof. intros. rewrite <- (Z.lor_0_r f) at 1. apply frame_mask_spec; [reflexivity|done|lia|lia]. Qed.

(** ** The tree invariant under the mapping operations *)
Section theorems.
Context {S : Type} {FS : FrameSource S} {FL : FrameSourceLaws S}.
Notation st := (pgs S).
Notation HH := HIGHER_HALF_MEMORY_OFFSET.

(** A root with its tables, none of which the supplier still has. *)
Record pinv (s : st) (root : Z) (own : gmap Z (list Z)) : Prop := {
  pi_tree : tree HH (pmem s) root own;
  pi_src : fs_inv (psrc s);
  pi_sep : forall p, is_Some (own !! p) -> ~ fs_avail (psrc s) p;
}.

Definition lookup_va (s : st) (root va : Z) : option (nat * Z) := walk HH (pmem s) 0 root (path_of va).

(** No 2 MiB or 1 GiB leaf on the way. *)
Definition no_huge (s : st) (root va : Z) : Prop :=
  forall d e, lookup_va s root va = Some (d, e) -> d = 3%nat.

Definition same_walks (s s' : st) (root : Z) : Prop :=
  forall κ, length κ = 4%nat -> Forall idx_ok κ -> walk HH (pmem s') 0 root κ = walk HH (pmem s) 0 root κ.

Lemma small_flags fl : 0 <= fl < 128 -> 0 <= Z.lor fl PTE_P < 128.
Proof.
  intros Hf. change PTE_P with 1. assert (0 <= Z.lor fl 1) by (apply Z.lor_nonneg; lia). split; [done|].
  destruct (decide (Z.lor fl 1 = 0)) as [->|Hn]; [lia|]. apply (Z.log2_lt_pow2 _ 7); [lia|].
  rewrite Z.log2_lor by lia. apply Z.max_lub_lt; [|done].
  destruct (decide (fl = 0)) as [->|]; [done|]. apply Z.log2_lt_pow2; lia.
Qed.

(** Tables reached through the direct map are never at NULL. *)
Lemma entry_direct (s : st) p i : 0 <= p -> entry (p + HH) i s = Ret (rd (pmem s) (slot HH p i)) s.
Proof. intros Hp. unfold entry. rewrite (proj2 (Z.eqb_neq _ 0)); [done|]. unfold HIGHER_HALF_MEMORY_OFFSET. lia. Qed.

Lemma set_entry_direct p i v : 0 <= p ->
  set_entry (S := S) (p + HH) i v = modify (fun s => set_pmem (<[p + HH + 8 * i := v]> (pmem s)) s).
Proof. intros Hp. unfold set_entry. rewrite (proj2 (Z.eqb_neq _ 0)); [done|]. unfold HIGHER_HALF_MEMORY_OFFSET. lia. Qed.

(** One level of descent: the next table is owned afterwards, linked if it was
    missing, and no translation changes. *)
Lemma GetOrAllocEntry_spec s root own p ks i flags :
  pinv s root own -> own !! p = Some ks -> (length ks < 3)%nat -> idx_ok i ->
  kind (length ks) (rd (pmem s) (slot HH p i)) <> Leaf -> 0 < fs_room (psrc s) -> 0 <= flags < 128 ->
  exists q s' own', GetOrAllocEntry (p + HH) i flags s = Ret (q + HH) s' /\
    pinv s' root own' /\ own' !! q = Some (ks ++ [i]) /\ own ⊆ own' /\ same_walks s s' root /\
    fs_room (psrc s) - 1 <= fs_room (psrc s') /\ (forall g, fs_avail (psrc s') g -> fs_avail (psrc s) g) /\
    (is_set flags PTE_W = true -> writable_links HH (pmem s) own -> writable_links HH (pmem s') own').
Proof.
  intros [Ht Hsrc Hsep] Hp Hl Hi Hk Hr Hfl. destruct (tr_page _ _ _ _ Ht _ _ Hp) as (Hp0&Hpa&_&_).
  unfold GetOrAllocEntry. set (e := rd (pmem s) (slot HH p i)) in *.
  rewrite (bind_Ret (entry _ _) _ s e s) by (apply entry_direct; lia).
  destruct (kind (length ks) e) eqn:Ek; [|done|].
  - assert (HP : is_set e PTE_P = false) by by eapply kind_absent.
    rewrite HP. cbn [negb].
    pose proof (fs_law _ Hsrc Hr) as Hlaw. apply wp_ret_inv in Hlaw as (f & src' & Ef & Hinv' & Hav & Hnav & Hsub & Hroom & Hf & Hfa).
    assert (Hown : own !! f = None) by (destruct (own !! f) eqn:Eo; [|done]; by destruct (Hsep f ltac:(eauto))).
    rewrite (bind_Ret get_free_frame _ s f (set_psrc src' s)) by (unfold get_free_frame, zoom; by rewrite Ef).
    set (fl := Z.lor flags PTE_P). set (a := p + HH + 8 * i).
    set (m' := zero_words (<[a := Z.lor f fl]> (<[a := f]> (pmem s))) (f + HH)).
    assert (Hm : rd m' (slot HH p i) = Z.lor f fl).
    { unfold m'. rewrite rd_zero_out; [unfold a, slot; by rewrite rd_insert_eq|]. intros j Hj Hs.
      apply (slot_inj HH p f i j) in Hs as [-> _]; try done. congruence. }
    assert (Hte : table_entry (Z.lor f fl) f).
    { exists fl. split_and!; try done; try lia; apply small_flags; lia. }
    assert (HPs : is_set (Z.lor f fl) PTE_P = true).
    { unfold PTE_P. rewrite is_set_bit by lia. unfold fl, PTE_P. by rewrite !Z.lor_spec, !orb_true_r. }
    assert (Hz : forall j, idx_ok j -> rd m' (slot HH f j) = 0) by (intros j Hj; by apply rd_zero_in).
    assert (Ho : forall b, b <> slot HH p i -> (forall j, idx_ok j -> b <> slot HH f j) -> rd m' b = rd (pmem s) b).
    { intros b Hb1 Hb2. unfold m'. rewrite rd_zero_out by (intros j Hj; by apply Hb2).
      rewrite !rd_insert_ne; [done| |]; intros Hx; by apply Hb1. }
    exists f, (PGS m' src'), (<[f := ks ++ [i]]> own). split; [|split_and!].
    + rewrite !set_entry_direct, bind_modify, (proj2 (Z.eqb_neq f 0)) by lia.
      rewrite (bind_Ret (entry _ _) _ _ f (set_pmem (<[a := f]> (pmem s)) (set_psrc src' s)))
        by (rewrite entry_direct by lia; simpl; unfold a, slot; by rewrite rd_insert_eq).
      rewrite set_entry_direct, bind_modify by lia. unfold memset_page. rewrite bind_modify. unfold ret.
      rewrite frame_page_mask, translate_eq by (done || lia). done.
    + constructor; simpl; [|done|].
      * eapply link_tree; [exact Ht|exact Hp|done|done|exact Ek|done|exact Hte|done|done|done|done].
      * intros q [qs Hq]. rewrite lookup_insert in Hq. case_decide as Hqf; [by subst|].
        intros Hav'. apply (Hsep q); eauto.
    + apply lookup_insert_eq.
    + apply insert_subseteq. done.
    + intros κ Hκ Hok. simpl. eapply link_walk; [exact Ht|exact Hp|done|done|exact Ek|done|exact Hte|done|done|done|done|done|done].
    + done.
    + done.
    + intros HW. apply (link_writable HH (pmem s) m' root own p i f (Z.lor f fl) ks); try done.
      revert HW. unfold PTE_W. rewrite !is_set_bit by lia. unfold fl. rewrite !Z.lor_spec. intros ->. by rewrite orb_true_r.
  - destruct (tr_next _ _ _ _ Ht p ks i Hp Hl Hi Ek) as [Hte Hn]. fold e in Hte, Hn.
    assert (HP : is_set e PTE_P = true) by by eapply kind_link.
    rewrite HP. simpl. exists (Z.land e ADDR_MASK), s, own. split_and!; try done; [|lia].
    unfold ret. rewrite (table_entry_page_mask _ _ Hte), translate_eq; [done|]. by destruct Hte as (_&_&_&_&?).
Qed.
Lemma same_walks_trans s1 s2 s3 root : same_walks s1 s2 root -> same_walks s2 s3 root -> same_walks s1 s3 root.
Proof. intros H1 H2 κ Hl Hok. by rewrite (H2 κ Hl Hok), (H1 κ Hl Hok). Qed.

Lemma no_huge_kind s root own va p ks k r :
  pinv s root own -> no_huge s root va -> own !! p = Some ks -> path_of va = ks ++ k :: r -> (length ks < 3)%nat ->
  kind (length ks) (rd (pmem s) (slot HH p k)) <> Leaf.
Proof.
  intros [Ht _ _] Hn Hp Hpath Hl Hk. specialize (Hn (length ks) (rd (pmem s) (slot HH p k))).
  unfold lookup_va in Hn. rewrite Hpath, (walk_descend _ _ _ _ _ _ _ (tr_reach _ _ _ _ Ht _ _ Hp)) in Hn.
  simpl in Hn. rewrite Hk in Hn. specialize (Hn eq_refl). lia.
Qed.

Lemma no_huge_walks s s' root va : same_walks s s' root -> no_huge s root va -> no_huge s' root va.
Proof. intros Hw Hn d e. unfold lookup_va. rewrite Hw by apply path_ok. apply Hn. Qed.

Lemma set_entry_pinv s root own p ks i e :
  pinv s root own -> own !! p = Some ks -> length ks = 3%nat -> idx_ok i ->
  let s' := set_pmem (<[p + HH + 8 * i := e]> (pmem s)) s in
  pinv s' root own /\ (forall va, lookup_va s' root va =
    if decide (path_of va = ks ++ [i]) then (if is_set e PTE_P then Some (3%nat, e) else None) else lookup_va s root va) /\
  (writable_links HH (pmem s) own -> writable_links HH (pmem s') own).
Proof.
  intros [Ht Hsrc Hsep] Hp Hl Hi s'.
  assert (Hnew : rd (pmem s') (slot HH p i) = e) by (simpl; unfold slot; apply rd_insert_eq).
  assert (Hother : forall a, a <> slot HH p i -> rd (pmem s') a = rd (pmem s) a).
  { intros a Ha. simpl. apply rd_insert_ne. unfold slot in Ha. congruence. }
  destruct (leaf_write HH (pmem s) (pmem s') root own p i e ks Ht Hp Hl Hi Hnew Hother) as [Ht' Hw].
  split_and!; [by constructor|intros va; apply Hw; apply path_ok|].
  apply (write_writable HH (pmem s) (pmem s') root own own p i e ks Ht Hp Hi); try done.
  rewrite Hl. unfold kind. by destruct (is_set e PTE_P).
Qed.

Lemma map_memory_spec s root own va phys flags :
  pinv s root own -> no_huge s root va -> 3 <= fs_room (psrc s) ->
  exists s' own', PagingMapMemory root va phys flags s = Ret tt s' /\ pinv s' root own' /\ own ⊆ own' /\
    (forall v, lookup_va s' root v = if decide (path_of v = path_of va)
       then Some (3%nat, Z.lor (Z.lor phys flags) PTE_P) else lookup_va s root v) /\
    fs_room (psrc s) - 3 <= fs_room (psrc s') /\ (forall g, fs_avail (psrc s') g -> fs_avail (psrc s) g) /\
    (writable_links HH (pmem s) own -> writable_links HH (pmem s') own').
Proof.
  intros Hi Hn Hr. pose proof (tr_root _ _ _ _ (pi_tree _ _ _ Hi)) as Hroot.
  destruct (tr_page _ _ _ _ (pi_tree _ _ _ Hi) _ _ Hroot) as (Hrp&_).
  destruct (path_ok va) as [_ Hok]. unfold PagingMapMemory. rewrite translate_eq by done.
  assert (Hfl : 0 <= Z.lor PTE_W PTE_U < 128) by (by vm_compute).
  set (i0 := p4Offset _). set (i1 := pdpOffset _). set (i2 := pdOffset _). set (i3 := ptOffset _).
  assert (Hpath : path_of va = [i0; i1; i2; i3]) by done. rewrite Hpath in Hok |- *.
  apply Forall_cons in Hok as [H0 Hok]. apply Forall_cons in Hok as [H1 Hok].
  apply Forall_cons in Hok as [H2 Hok]. apply Forall_cons in Hok as [H3 _].
  destruct (GetOrAllocEntry_spec s root own root [] i0 (Z.lor PTE_W PTE_U) Hi Hroot)
    as (t1 & s1 & own1 & E1 & Hi1 & Ht1 & Hs1 & Hw1 & Hr1 & Hav1 & Hl1); try done;
    [simpl; lia|by apply (no_huge_kind s root own va root [] i0 [i1; i2; i3] Hi Hn Hroot Hpath ltac:(simpl; lia))|lia|].
  apply (no_huge_walks _ _ _ _ Hw1) in Hn as Hn1.
  destruct (GetOrAllocEntry_spec s1 root own1 t1 [i0] i1 (Z.lor PTE_W PTE_U) Hi1 Ht1)
    as (t2 & s2 & own2 & E2 & Hi2 & Ht2 & Hs2 & Hw2 & Hr2 & Hav2 & Hl2); try done;
    [simpl; lia|by apply (no_huge_kind s1 root own1 va t1 [i0] i1 [i2; i3] Hi1 Hn1 Ht1 Hpath ltac:(simpl; lia))|lia|].
  apply (no_huge_walks _ _ _ _ Hw2) in Hn1 as Hn2.
  destruct (GetOrAllocEntry_spec s2 root own2 t2 [i0; i1] i2 (Z.lor PTE_W PTE_U) Hi2 Ht2)
    as (t3 & s3 & own3 & E3 & Hi3 & Ht3 & Hs3 & Hw3 & Hr3 & Hav3 & Hl3); try done;
    [simpl; lia|by apply (no_huge_kind s2 root own2 va t2 [i0; i1] i2 [i3] Hi2 Hn2 Ht2 Hpath ltac:(simpl; lia))|lia|].
  rewrite (bind_Ret _ _ _ _ _ E1), (bind_Ret _ _ _ _ _ E2), (bind_Ret _ _ _ _ _ E3).
  destruct (set_entry_pinv s3 root own3 t3 [i0; i1; i2] i3 (Z.lor (Z.lor phys flags) PTE_P) Hi3 Ht3 eq_refl H3) as (Hi4 & Hw4 & Hl4).
  destruct (tr_page _ _ _ _ (pi_tree _ _ _ Hi3) _ _ Ht3) as (Ht30&_). rewrite set_entry_direct by lia.
  eexists _, own3. split; [reflexivity|]. split; [exact Hi4|]. split; [by do 2 (etransitivity; [eassumption|])|].
  split; [|split; [simpl; lia|split; [simpl; auto|intros Hl; by apply Hl4, Hl3, Hl2, Hl1]]]. intros v. specialize (Hw4 v). cbv zeta in Hw4. rewrite Hw4.
  change ([i0; i1; i2] ++ [i3]) with [i0; i1; i2; i3].
  assert (HP : is_set (Z.lor (Z.lor phys flags) PTE_P) PTE_P = true).
  { unfold PTE_P at 2. rewrite is_set_bit by lia. unfold PTE_P. by rewrite !Z.lor_spec, !orb_true_r. }
  rewrite HP. clear Hw4. case_decide; [done|].
  unfold lookup_va. rewrite (Hw3 (path_of v)), (Hw2 (path_of v)), (Hw1 (path_of v)) by apply path_ok. done.
Qed.

Lemma GetOrNullifyEntry_spec s root own p ks i :
  pinv s root own -> own !! p = Some ks -> (length ks < 3)%nat -> idx_ok i ->
  kind (length ks) (rd (pmem s) (slot HH p i)) <> Leaf ->
  (GetOrNullifyEntry (p + HH) i s = Ret 0 s /\ descend HH (pmem s) 0 root (ks ++ [i]) = None) \/
  (exists q, GetOrNullifyEntry (p + HH) i s = Ret (q + HH) s /\ own !! q = Some (ks ++ [i]) /\ q + HH <> 0).
Proof.
  intros [Ht _ _] Hp Hl Hi Hk. unfold GetOrNullifyEntry. set (e := rd (pmem s) (slot HH p i)) in *.
  destruct (tr_page _ _ _ _ Ht _ _ Hp) as (Hp0&_). rewrite (bind_Ret (entry _ _) _ s e s) by (apply entry_direct; lia). destruct (kind (length ks) e) eqn:Ek; [|done|].
  - left. assert (HP : is_set e PTE_P = false) by by eapply kind_absent.
    rewrite HP. split; [done|]. rewrite descend_app, (tr_reach _ _ _ _ Ht _ _ Hp). simpl. fold e. by rewrite Ek.
  - right. destruct (tr_next _ _ _ _ Ht p ks i Hp Hl Hi Ek) as [Hte Hn]. fold e in Hte, Hn.
    assert (HP : is_set e PTE_P = true) by by eapply kind_link.
    exists (Z.land e ADDR_MASK). rewrite HP. cbn [negb]. destruct Hte as (fl & Hfl & Hrest).
    rewrite (table_entry_page_mask e (Z.land e ADDR_MASK)) by by exists fl.
    destruct Hrest as (?&?&?). rewrite translate_eq by done. split_and!; try done. unfold HIGHER_HALF_MEMORY_OFFSET. lia.
Qed.

(** The last-level table of a path, when every link is there. *)
Definition pt_of (s : st) (root va : Z) : option Z := descend HH (pmem s) 0 root (take 3 (path_of va)).

Lemma descend_stop m d t ks ks' : descend HH m d t ks = None -> descend HH m d t (ks ++ ks') = None.
Proof. intros H. by rewrite descend_app, H. Qed.

(** The three lookups common to [PagingPhysicalMemory] and [PagingUnmapMemory]. *)
Lemma find_pt_spec {A} s root own va (z : A) (k : Z -> K st A) :
  pinv s root own -> no_huge s root va ->
  let o := VirtualAddressToOffsets va in
  (let! pdp := GetOrNullifyEntry (TranslateToHighHalfMemoryAddress root) (p4Offset o) in
   if pdp =? 0 then ret z else
   let! pd := GetOrNullifyEntry pdp (pdpOffset o) in
   if pd =? 0 then ret z else
   let! pt := GetOrNullifyEntry pd (pdOffset o) in
   if pt =? 0 then ret z else k pt) s =
  match pt_of s root va with Some t => k (t + HH) s | None => Ret z s end /\
  (forall t, pt_of s root va = Some t -> own !! t = Some (take 3 (path_of va))).
Proof.
  intros Hi Hn o. pose proof (tr_root _ _ _ _ (pi_tree _ _ _ Hi)) as Hroot.
  destruct (tr_page _ _ _ _ (pi_tree _ _ _ Hi) _ _ Hroot) as (Hrp&_). rewrite translate_eq by done.
  destruct (path_ok va) as [_ Hok]. unfold pt_of.
  set (i0 := p4Offset _). set (i1 := pdpOffset _). set (i2 := pdOffset _). set (i3 := ptOffset o).
  assert (Hpath : path_of va = [i0; i1; i2; i3]) by done. rewrite Hpath in Hok |- *. cbn [take].
  apply Forall_cons in Hok as [H0 Hok]. apply Forall_cons in Hok as [H1 Hok]. apply Forall_cons in Hok as [H2 _].
  destruct (GetOrNullifyEntry_spec s root own root [] i0 Hi Hroot) as [[E1 D1]|(t1 & E1 & O1 & N1)]; [simpl; lia|done| | |].
  { apply (no_huge_kind s root own va root [] i0 [i1; i2; i3] Hi Hn Hroot Hpath); simpl; lia. }
  { rewrite (bind_Ret _ _ _ _ _ E1). apply (descend_stop _ _ _ _ [i1; i2]) in D1. simpl app in D1. by rewrite D1. }
  rewrite (bind_Ret _ _ _ _ _ E1), (proj2 (Z.eqb_neq _ _) N1).
  destruct (GetOrNullifyEntry_spec s root own t1 [i0] i1 Hi O1) as [[E2 D2]|(t2 & E2 & O2 & N2)]; [simpl; lia|done| | |].
  { apply (no_huge_kind s root own va t1 [i0] i1 [i2; i3] Hi Hn O1 Hpath); simpl; lia. }
  { rewrite (bind_Ret _ _ _ _ _ E2). apply (descend_stop _ _ _ _ [i2]) in D2. simpl app in D2. by rewrite D2. }
  rewrite (bind_Ret _ _ _ _ _ E2), (proj2 (Z.eqb_neq _ _) N2).
  destruct (GetOrNullifyEntry_spec s root own t2 [i0; i1] i2 Hi O2) as [[E3 D3]|(t3 & E3 & O3 & N3)]; [simpl; lia|done| | |].
  { apply (no_huge_kind s root own va t2 [i0; i1] i2 [i3] Hi Hn O2 Hpath); simpl; lia. }
  { rewrite (bind_Ret _ _ _ _ _ E3). simpl app in D3. rewrite D3. done. }
  rewrite (bind_Ret _ _ _ _ _ E3), (proj2 (Z.eqb_neq _ _) N3).
  pose proof (tr_reach _ _ _ _ (pi_tree _ _ _ Hi) _ _ O3) as D3. simpl app in D3. rewrite D3.
  split; [done|]. by intros t [= <-].
Qed.

Lemma lookup_pt s root own va t : pinv s root own -> pt_of s root va = Some t ->
  let e := rd (pmem s) (slot HH t (ptOffset (VirtualAddressToOffsets va))) in
  lookup_va s root va = if is_set e PTE_P then Some (3%nat, e) else None.
Proof.
  intros Hi Hd e. unfold lookup_va, pt_of in *.
  replace (path_of va) with (take 3 (path_of va) ++ [ptOffset (VirtualAddressToOffsets va)]) by done.
  rewrite (walk_descend _ _ _ _ _ _ _ Hd). change (0 + length (take 3 (path_of va)))%nat with 3%nat.
  cbn [walk]. fold e. unfold kind. by destruct (is_set e PTE_P).
Qed.

Lemma lookup_pt_none s root own va : pinv s root own -> no_huge s root va -> pt_of s root va = None ->
  lookup_va s root va = None.
Proof.
  intros Hi Hn Hd. destruct (lookup_va s root va) as [[d e]|] eqn:El; [|done]. exfalso.
  pose proof (Hn _ _ El) as ->. revert El Hd. unfold lookup_va, pt_of, path_of.
  destruct (VirtualAddressToOffsets va) as [i0 i1 i2 i3]. cbn [p4Offset pdpOffset pdOffset ptOffset take walk descend].
  do 3 (match goal with |- context [kind ?d ?e] => destruct (kind d e); try done end).
Qed.

(** C4. [PagingMapMemory] on a well-formed tree whose path to the page meets no
    large-page leaf, with three frames in reserve: returns; the page now
    translates to exactly the given frame and flags; every other virtual page
    translates as before; the tables it added are fresh frames and the tree is
    well formed. *)
Theorem PagingMapMemory_correct s root own va phys flags :
  pinv s root own -> no_huge s root va -> 3 <= fs_room (psrc s) ->
  exists s' own', PagingMapMemory root va phys flags s = Ret tt s' /\ pinv s' root own' /\ own ⊆ own' /\
    forall v, lookup_va s' root v = if decide (v / 4096 mod 2 ^ 36 = va / 4096 mod 2 ^ 36)
       then Some (3%nat, Z.lor (Z.lor phys flags) PTE_P) else lookup_va s root v.
Proof.
  intros Hi Hn Hr. destruct (map_memory_spec s root own va phys flags Hi Hn Hr) as (s' & own' & E & Hi' & Hs & Hw & _).
  exists s', own'. split_and!; try done. intros v. rewrite Hw.
  destruct (decide (path_of v = path_of va)) as [Hp|Hp].
  - rewrite decide_True; [done|]. by apply path_same.
  - rewrite decide_False; [done|]. by rewrite <- path_same.
Qed.

Lemma physical_memory_eq s root own va : pinv s root own -> no_huge s root va ->
  PagingPhysicalMemory root va s =
  Ret (match pt_of s root va with
       | Some t => Z.land (rd (pmem s) (slot HH t (ptOffset (VirtualAddressToOffsets va)))) PAGE_ADDRESS_MASK
       | None => 0 end) s.
Proof.
  intros Hi Hn. unfold PagingPhysicalMemory. cbv zeta.
  destruct (find_pt_spec s root own va 0 (fun pt => let! e := entry pt (ptOffset (VirtualAddressToOffsets va)) in
    ret (Z.land e PAGE_ADDRESS_MASK)) Hi Hn) as [E Hown]. refine (eq_trans E _).
  destruct (pt_of s root va) as [t|]; [|done].
  destruct (tr_page _ _ _ _ (pi_tree _ _ _ Hi) _ _ (Hown t eq_refl)) as (Ht0&_).
  by rewrite (bind_Ret _ _ _ _ _ (entry_direct _ _ _ (proj1 Ht0))).
Qed.

Lemma unmap_memory_spec s root own va : pinv s root own -> no_huge s root va ->
  exists s', PagingUnmapMemory root va s = Ret tt s' /\ pinv s' root own /\
    (forall v, lookup_va s' root v = if decide (path_of v = path_of va) then None else lookup_va s root v) /\
    PagingPhysicalMemory root va s' = Ret 0 s'.
Proof.
  intros Hi Hn. set (o := VirtualAddressToOffsets va).
  destruct (find_pt_spec s root own va tt (fun pt => set_entry pt (ptOffset o) 0) Hi Hn) as [E Hown].
  destruct (pt_of s root va) as [t|] eqn:Ept.
  - specialize (Hown t eq_refl). destruct (path_ok va) as [_ Hok].
    assert (Hi3 : idx_ok (ptOffset o)) by (eapply Forall_elem; [exact Hok|unfold path_of; set_solver]).
    destruct (set_entry_pinv s root own t _ (ptOffset o) 0 Hi Hown eq_refl Hi3) as (Hi' & Hw & _).
    cbv zeta in Hi', Hw. set (s' := set_pmem _ s) in *.
    destruct (tr_page _ _ _ _ (pi_tree _ _ _ Hi) _ _ Hown) as (Ht0&_). rewrite set_entry_direct in E by lia.
    exists s'. split; [exact E|]. split; [exact Hi'|].
    assert (Hw' : forall v, lookup_va s' root v =
      if decide (path_of v = path_of va) then None else lookup_va s root v).
    { intros v. rewrite Hw. clear Hw.
      change (take 3 (path_of va) ++ [ptOffset o]) with (path_of va). by case_decide. }
    split; [exact Hw'|].
    rewrite (physical_memory_eq _ root own va Hi').
    2: { intros d e. rewrite Hw', decide_True by done. done. }
    f_equal. destruct (pt_of s' root va) as [u|] eqn:Eu; [|done].
    assert (u = t) as ->.
    { destruct (find_pt_spec s' root own va tt (fun pt => set_entry pt (ptOffset o) 0) Hi') as [_ Hu].
      { intros d e. rewrite Hw', decide_True by done. done. }
      by eapply (tree_inj _ _ _ _ _ _ _ (pi_tree _ _ _ Hi')); [exact (Hu _ Eu)|]. }
    simpl. fold o. unfold slot. by rewrite rd_insert_eq.
  - exists s. split; [exact E|]. split_and!; try done.
    + intros v. case_decide as Hv; [|done]. unfold lookup_va. rewrite Hv. by apply (lookup_pt_none s root own va Hi Hn).
    + rewrite (physical_memory_eq _ root own va Hi Hn). by rewrite Ept.
Qed.

(** C14. Round trip: after mapping a frame with flags outside the address field,
    [PagingPhysicalMemory] returns the frame and changes nothing; after
    [PagingUnmapMemory] it returns NULL, and the translations of all other pages
    are those of before the mapping. *)
Theorem paging_map_unmap_roundtrip s root own va phys flags :
  pinv s root own -> no_huge s root va -> 3 <= fs_room (psrc s) ->
  phys mod 4096 = 0 -> 0 <= phys < 2 ^ 46 -> Z.land flags PAGE_ADDRESS_MASK = 0 ->
  exists s1 s2, PagingMapMemory root va phys flags s = Ret tt s1 /\
    PagingPhysicalMemory root va s1 = Ret phys s1 /\
    PagingUnmapMemory root va s1 = Ret tt s2 /\ PagingPhysicalMemory root va s2 = Ret 0 s2 /\
    forall v, lookup_va s2 root v =
      if decide (v / 4096 mod 2 ^ 36 = va / 4096 mod 2 ^ 36) then None else lookup_va s root v.
Proof.
  intros Hi Hn Hr Hal Hb Hfl. destruct (map_memory_spec s root own va phys flags Hi Hn Hr) as (s1 & own1 & E1 & Hi1 & _ & Hw1 & _).
  assert (Hl1 : lookup_va s1 root va = Some (3%nat, Z.lor (Z.lor phys flags) PTE_P)) by (rewrite Hw1; by rewrite decide_True).
  assert (Hn1 : no_huge s1 root va) by (intros d e; rewrite Hl1; by intros [= <- _]).
  destruct (unmap_memory_spec s1 root own1 va Hi1 Hn1) as (s2 & E2 & _ & Hw2 & E3).
  exists s1, s2. split_and!; try done.
  - rewrite (physical_memory_eq _ _ _ _ Hi1 Hn1). f_equal. destruct (pt_of s1 root va) as [t|] eqn:Ept.
    + pose proof (lookup_pt _ _ _ _ _ Hi1 Ept) as Hlp. cbv zeta in Hlp. rewrite Hl1 in Hlp.
      set (e := rd (pmem s1) _) in *. assert (e = Z.lor (Z.lor phys flags) PTE_P) as -> by (destruct (is_set e PTE_P); congruence).
      rewrite !Z.land_lor_distr_l, Hfl, (frame_page_mask phys Hal Hb). change (Z.land PTE_P PAGE_ADDRESS_MASK) with 0.
      by rewrite !Z.lor_0_r.
    + rewrite (lookup_pt_none _ _ _ _ Hi1 Hn1 Ept) in Hl1. done.
  - intros v. rewrite Hw2, Hw1. destruct (decide (path_of v = path_of va)) as [Hp|Hp].
    + rewrite decide_True; [done|]. by apply path_same.
    + rewrite decide_False; [done|]. by rewrite <- path_same.
Qed.

End theorems.

Lemma lor_disjoint a b k : 0 <= k -> 0 <= b < 2 ^ k -> Z.lor (a * 2 ^ k) b = a * 2 ^ k + b.
Proof.
  intros Hk Hb. assert (Hland : Z.land (a * 2 ^ k) b = 0).
  { apply Z.bits_inj'. intros n Hn. rewrite Z.land_spec, Z.testbit_0_l. destruct (decide (n < k)).
    - by rewrite Z.mul_pow2_bits_low by lia.
    - rewrite <- (Z.mod_small b (2 ^ k)) by done. by rewrite Z.mod_pow2_bits_high, andb_false_r by lia. }
  by rewrite <- Z.lxor_lor, <- Z.add_nocarry_lxor.
Qed.

Lemma assemble a b c d : idx_ok a -> idx_ok b -> idx_ok c -> idx_ok d ->
  OffsetToVirtualAddress (Offsets a b c d) = 4096 * (((a * 512 + b) * 512 + c) * 512 + d).
Proof.
  unfold idx_ok, OffsetToVirtualAddress. intros Ha Hb Hc Hd. cbn [p4Offset pdpOffset pdOffset ptOffset].
  rewrite !Z.shiftl_mul_pow2, !wrap_small, Z.lor_0_l by lia.
  rewrite (lor_disjoint a (b * 2 ^ 30) 39) by lia.
  replace (a * 2 ^ 39 + b * 2 ^ 30) with ((a * 512 + b) * 2 ^ 30) by lia. rewrite (lor_disjoint _ (c * 2 ^ 21) 30) by lia.
  replace ((a * 512 + b) * 2 ^ 30 + c * 2 ^ 21) with (((a * 512 + b) * 512 + c) * 2 ^ 21) by lia.
  rewrite (lor_disjoint _ (d * 2 ^ 12) 21) by lia. lia.
Qed.

(** Decomposing an address assembled from four indices gives the indices
    back, and assembling the indices of an address gives its page with the bits
    above 47 cleared: the assembled address of a higher-half page is not
    canonical. *)
Theorem offsets_roundtrip :
  (forall a b c d, idx_ok a -> idx_ok b -> idx_ok c -> idx_ok d ->
     VirtualAddressToOffsets (OffsetToVirtualAddress (Offsets a b c d)) = Offsets a b c d) /\
  (forall va, 0 <= va < 2 ^ 64 ->
     OffsetToVirtualAddress (VirtualAddressToOffsets va) = 4096 * (va / 4096 mod 2 ^ 36)).
Proof.
  split.
  - intros a b c d Ha Hb Hc Hd. rewrite assemble by done. unfold VirtualAddressToOffsets. rewrite !index_field by lia.
    unfold idx_ok in *. f_equal; dm_lia.
  - intros va Hva. unfold VirtualAddressToOffsets. rewrite !index_field by lia.
    rewrite assemble by (apply Z.mod_pos_bound; lia). dm_lia.
Qed.

End Paging.
