(* ===== verification/HeapPaging.v ===== *)
(** The kernel heap on top of the real frame allocator and paging layer: the
    composition of [mm/kmalloc.c], [paging.c] and [neo_framealloc.c] after the
    memory bring-up of [kernel.c] (which points [g_boot_phys_page] at
    [frame_alloc]).  Discharges the interfaces [FrameSource] and [HeapBacking]
    the two upper components are verified against. *)
From S2P Require Import Prelude Lock NeoFrame PageTree Paging Kmalloc HeapShape KmallocInv KmallocSpec.

Module HeapPaging.
Import NeoFrame PageTree Paging KmallocInv KmallocSpec.

(** ** The frame allocator as the supplier of table frames *)
#[export] Instance pmm_source : FrameSource pmm := {| g_boot_phys_page _ := Some frame_alloc |}.

(** Frame 0 is never free, and every frame is inside the direct map. *)
Definition pmm_ok (p : pmm) : Prop :=
  pmm_wf p /\ ~ frame_free_at p 0 /\ g_frame_count p <= 2 ^ 34.

Lemma frame_alloc_law p : pmm_ok p -> 0 < g_free_count p ->
  wp (frame_alloc p) (fun f p' => pmm_ok p' /\ frame_free_at p f /\ ~ frame_free_at p' f /\
    (forall g, frame_free_at p' g -> frame_free_at p g) /\ g_free_count p - 1 <= g_free_count p' /\
    0 < f < 2 ^ 46 /\ f mod 4096 = 0).
Proof.
  intros (Hwf & H0 & Hc) Hpos. destruct (frame_alloc_next_fit p Hwf Hpos) as (i & p' & -> & Hnf & Ht).
  pose proof (next_fit_range p i Hwf Hnf) as Hi. pose proof (taken_wf _ _ _ (wf_core _ Hwf) Hi (proj1 Hnf) Ht) as Htw. simpl.
  assert (Hfree : frame_free_at p (i * 4096)).
  { unfold frame_free_at. rewrite Z.div_mul by lia. split_and!; [dm_lia|lia|lia|]. apply (proj1 Hnf). }
  assert (Hi0 : i <> 0) by (intros ->; by apply H0).
  assert (Hsub : forall g, frame_free_at p' g -> frame_free_at p g /\ g <> i * 4096).
  { destruct Ht as (bm & Hlen & Hbits & ->). unfold frame_free_at. simpl. intros g (Hg1 & Hg2 & Hg3).
    rewrite Hbits in Hg3 by dm_lia. case_decide as Hd; [done|]. split_and!; try done; try lia. dm_lia. }
  assert (Hcnt : g_frame_count p' = g_frame_count p /\ g_free_count p' = g_free_count p - 1)
    by (destruct Ht as (bm & _ & _ & ->); done).
  split_and!; try done; try lia; try dm_lia.
  - split_and!; [done|intros H%Hsub; destruct H; by apply H0|lia].
  - intros H%Hsub. by destruct H.
  - intros g H%Hsub. by destruct H.
Qed.

#[export] Program Instance pmm_source_laws : FrameSourceLaws pmm := {|
  fs_inv := pmm_ok;
  fs_avail := frame_free_at;
  fs_room := g_free_count;
|}.
Next Obligation. apply frame_alloc_law. Qed.

(** ** Paging and frames behind the heap *)
Record kmm : Type := KMM { km_pg : pgs pmm; km_cr3 : Z }.
Definition set_pg (g : pgs pmm) (k : kmm) : kmm := KMM g (km_cr3 k).
Definition set_frames (p : pmm) (k : kmm) : kmm := KMM (set_psrc p (km_pg k)) (km_cr3 k).

Definition km_root (k : kmm) : Z := pml4_of_cr3 (km_cr3 k).
Definition km_lookup (k : kmm) (va : Z) : option (nat * Z) := lookup_va (km_pg k) (km_root k) va.

(** What the processor allows at an address, all four levels taken together. *)
Definition km_rights (k : kmm) (va : Z) : option access :=
  rights HIGHER_HALF_MEMORY_OFFSET (pmem (km_pg k)) 0 (km_root k) (path_of va).
Definition km_links_writable (k : kmm) (own : gmap Z (list Z)) : Prop :=
  writable_links HIGHER_HALF_MEMORY_OFFSET (pmem (km_pg k)) own.

#[export] Instance kmm_backing : HeapBacking kmm := {|
  hb_ReadCR3 := km_cr3;
  hb_frame_alloc := zoom (fun k => psrc (km_pg k)) set_frames frame_alloc;
  hb_PagingMapMemory p4 va phys flags := zoom km_pg set_pg (PagingMapMemory p4 va phys flags);
  hb_mapped k va := match km_lookup k va with Some _ => true | None => false end;
|}.

Definition heap_va (va : Z) : Prop := HEAP_BASE <= va < HEAP_LIMIT.

(** The leaf entry of a heap page backed by frame [f]. *)
Definition heap_pte (f : Z) : Z := Z.lor (Z.lor f heap_page_flags) PTE_P.

(** Every table of the tree is linked writable.  The heap window holds 4 KiB writable, non-executable pages only; their frames
    have left the allocator, are no page tables, and no two pages share one. *)
Record kmm_inv (k : kmm) : Prop := {
  ki_tree : exists own, pinv (km_pg k) (km_root k) own /\ km_links_writable k own /\
    forall va d e, heap_va va -> km_lookup k va = Some (d, e) ->
      d = 3%nat /\ exists f, e = heap_pte f /\ f mod 4096 = 0 /\ 0 < f < 2 ^ 46 /\
        ~ frame_free_at (psrc (km_pg k)) f;
  ki_inj : forall va va' f, heap_va va -> heap_va va' -> f mod 4096 = 0 -> 0 < f < 2 ^ 46 ->
    km_lookup k va = Some (3%nat, heap_pte f) -> km_lookup k va' = Some (3%nat, heap_pte f) ->
    va / 4096 = va' / 4096;
}.

Lemma heap_pte_frame f : f mod 4096 = 0 -> 0 <= f < 2 ^ 46 -> Z.land (heap_pte f) PAGE_ADDRESS_MASK = f.
Proof.
  intros Hal Hb. unfold heap_pte. rewrite !Z.land_lor_distr_l, (frame_page_mask f Hal Hb).
  change (Z.land heap_page_flags PAGE_ADDRESS_MASK) with 0. change (Z.land PTE_P PAGE_ADDRESS_MASK) with 0.
  by rewrite !Z.lor_0_r.
Qed.

Lemma heap_path va va' : heap_va va -> heap_va va' -> path_of va = path_of va' <-> va / 4096 = va' / 4096.
Proof.
  unfold heap_va, HEAP_LIMIT, HEAP_BASE. intros H1 H2. rewrite path_same. split; [|by intros ->]. intros He. dm_lia.
Qed.

(** The body of the mapping loop of [heap_map_more]. *)
Lemma map_heap_page k va : kmm_inv k -> 4 <= g_free_count (psrc (km_pg k)) -> heap_va va ->
  exists k' f, (let! phys := hb_frame_alloc in hb_PagingMapMemory (km_root k) va phys heap_page_flags) k = Ret tt k' /\
    kmm_inv k' /\ km_cr3 k' = km_cr3 k /\ g_free_count (psrc (km_pg k)) - 4 <= g_free_count (psrc (km_pg k')) /\
    frame_free_at (psrc (km_pg k)) f /\
    (forall v, km_lookup k' v = if decide (path_of v = path_of va) then Some (3%nat, heap_pte f) else km_lookup k v).
Proof.
  intros [(own & Hp & Hlw & Hleaf) Hinj] Hr Hva. pose proof Hp as [Ht Hsrc Hsep].
  pose proof (frame_alloc_law _ Hsrc ltac:(lia)) as Hl.
  apply wp_ret_inv in Hl as (f & p' & Ef & Hok & Hfree & Hnf & Hsub & Hroom & Hf & Hfa).
  set (g1 := set_psrc p' (km_pg k)).
  assert (Hp1 : pinv g1 (km_root k) own).
  { constructor; [exact Ht|exact Hok|]. intros q Hq Hav. apply (Hsep q Hq). by apply Hsub. }
  destruct (map_memory_spec g1 (km_root k) own va f heap_page_flags Hp1)
    as (g2 & own2 & E2 & Hp2 & Hs2 & Hw2 & Hr2 & Hmono & Hlw2).
  { intros d e Hl. by destruct (Hleaf va d e Hva Hl). }
  { simpl in *. lia. }
  exists (set_pg g2 (set_frames p' k)), f. split.
  { simpl. unfold bind, zoom. rewrite Ef. simpl. unfold g1 in E2. by rewrite E2. }
  assert (Hw : forall v, km_lookup (set_pg g2 (set_frames p' k)) v =
    if decide (path_of v = path_of va) then Some (3%nat, heap_pte f) else km_lookup k v) by (intros v; apply Hw2).
  assert (Hold : forall v, heap_va v -> km_lookup k v = Some (3%nat, heap_pte f) -> False).
  { intros v Hv Hl. destruct (Hleaf v _ _ Hv Hl) as (_ & f' & He & Ha' & Hb' & Hn).
    apply (f_equal (fun e => Z.land e PAGE_ADDRESS_MASK)) in He. rewrite !heap_pte_frame in He by lia. by subst f'. }
  split; [|split; [reflexivity|split; [|split; [exact Hfree|exact Hw]]]].
  2: { change (psrc (km_pg (set_pg g2 (set_frames p' k)))) with (psrc g2). unfold g1 in Hr2. cbn [psrc set_psrc] in Hr2.
       cbn [fs_room pmm_source_laws] in Hr2. lia. }
  constructor.
  - exists own2. split; [exact Hp2|]. split; [exact (Hlw2 Hlw)|]. intros v d e Hv. rewrite Hw. case_decide as Hd.
    + intros [= <- <-]. split; [done|]. exists f. split_and!; try done; try lia. simpl. intros Hx%Hmono. done.
    + intros Hl. destruct (Hleaf v d e Hv Hl) as (-> & f' & -> & ? & ? & Hn). split; [done|]. exists f'. split_and!; try done; try lia.
      simpl. intros Hx%Hmono. by apply Hn, Hsub.
  - intros v v' f' Hv Hv' Ha' Hb'. rewrite !Hw. repeat case_decide; intros L1 L2.
    + apply heap_path; congruence.
    + injection L1 as Hff. exfalso. apply (f_equal (fun e => Z.land e PAGE_ADDRESS_MASK)) in Hff.
      rewrite !heap_pte_frame in Hff by lia. subst f'. by apply (Hold v').
    + injection L2 as Hff. exfalso. apply (f_equal (fun e => Z.land e PAGE_ADDRESS_MASK)) in Hff.
      rewrite !heap_pte_frame in Hff by lia. subst f'. by apply (Hold v).
    + by eapply Hinj.
Qed.

#[export] Program Instance kmm_laws : HeapBackingLaws kmm := {|
  hb_inv := kmm_inv;
  hb_room k := g_free_count (psrc (km_pg k)) / 4;
  hb_window := heap_va;
|}.
Next Obligation.
  intros k va Hi Hr Hva Hal. cbv beta in *.
  destruct (map_heap_page k va Hi ltac:(dm_lia) Hva) as (k' & f & E & Hi' & Hc & Hroom & _ & Hw).
  apply wp_ret_inv. exists tt, k'. split; [exact E|]. split; [done|]. split_and!.
  - simpl. rewrite Hw. by rewrite decide_True.
  - intros v. simpl. rewrite Hw. by case_decide.
  - done.
  - dm_lia.
Qed.

(** A heap page may be written and may not be executed: its leaf says so, and every
    table above it is linked writable. *)
Lemma heap_pte_W f : is_set (heap_pte f) PTE_W = true.
Proof. unfold PTE_W. rewrite is_set_bit by lia. unfold heap_pte. rewrite !Z.lor_spec. by rewrite orb_true_r. Qed.

Lemma heap_pte_NX f : is_set (heap_pte f) PTE_NX = true.
Proof. unfold PTE_NX. rewrite is_set_bit by lia. unfold heap_pte. rewrite !Z.lor_spec. by rewrite orb_true_r. Qed.

Lemma heap_rights k va f : kmm_inv k -> km_lookup k va = Some (3%nat, heap_pte f) ->
  exists u, km_rights k va = Some (Access true u false).
Proof.
  intros [(own & Hp & Hlw & _) _] Hl. destruct (path_ok va) as [Hlen Hok].
  destruct (rights_walk _ _ _ own (pi_tree _ _ _ Hp) Hlw (path_of va) (km_root k) [] _ _
    (tr_root _ _ _ _ (pi_tree _ _ _ Hp)) ltac:(simpl; lia) Hok Hl) as [u Hu].
  exists u. unfold km_rights. cbn [length] in Hu. by rewrite Hu, heap_pte_W, heap_pte_NX.
Qed.

(** Every byte of the arena is on a writable, non-executable page of its own
    frame. *)
Lemma arena_backed (s : kheap kmm) bl fl va : hinv s bl fl -> HEAP_BASE <= va < g_heap_curr s ->
  exists f, km_lookup (kback s) (page_of va) = Some (3%nat, heap_pte f) /\
    (exists u, km_rights (kback s) (page_of va) = Some (Access true u false)) /\ f mod 4096 = 0 /\ 0 < f < 2 ^ 46 /\
    ~ frame_free_at (psrc (km_pg (kback s))) f /\
    forall va', HEAP_BASE <= va' < g_heap_curr s -> km_lookup (kback s) (page_of va') = Some (3%nat, heap_pte f) ->
      va' / 4096 = va / 4096.
Proof.
  intros Hi Hva. destruct Hi as [_ Hc _ Hacc Hk]. pose proof Hk as [(own & _ & _ & Hleaf) Hinj].
  assert (Hpg : forall v, HEAP_BASE <= v < g_heap_curr s -> heap_va (page_of v)).
  { intros v Hv. unfold heap_va, page_of, HEAP_LIMIT, HEAP_BASE in *. dm_lia. }
  specialize (Hacc va Hva). simpl in Hacc.
  destruct (km_lookup (kback s) (page_of va)) as [[d e]|] eqn:El; [|done].
  destruct (Hleaf _ _ _ (Hpg va Hva) El) as (-> & f & -> & Hal & Hb & Hn). exists f. split_and!; try done; try lia.
  { by apply (heap_rights _ _ f). }
  intros va' Hva' El'. pose proof (Hinj _ _ f (Hpg _ Hva') (Hpg _ Hva) Hal Hb El' El) as He.
  unfold page_of in He. dm_lia.
Qed.

(** C5. The composed system: [kmalloc] over the paging layer over the frame
    allocator.  With enough free frames and heap window, the payload it returns
    lies entirely on present 4 KiB pages which the processor, taking the flags of
    all four levels together, lets the kernel write and not execute; their frames
    have been taken from the frame allocator, and no other page of the heap is
    backed by any of these frames. *)
Theorem kernel_kmalloc_backed (s : kheap kmm) A size :
  heap_rep s A -> 0 < size <= 2 ^ 28 ->
  let n := pages_for (Z.max (128 * 4096) (total_size_for_payload size)) in
  4 * n <= g_free_count (psrc (km_pg (kback s))) -> g_heap_curr s + 4096 * n <= HEAP_LIMIT ->
  exists p ws s', kmalloc size s = Ret p s' /\ heap_rep s' (<[p := ws]> A) /\ size <= bytes ws /\
    forall va, p <= va < p + bytes ws -> exists f,
      km_lookup (kback s') (page_of va) = Some (3%nat, heap_pte f) /\
      (exists u, km_rights (kback s') (page_of va) = Some (Access true u false)) /\
      ~ frame_free_at (psrc (km_pg (kback s'))) f /\
      forall va', HEAP_BASE <= va' < g_heap_curr s' -> km_lookup (kback s') (page_of va') = Some (3%nat, heap_pte f) ->
        va' / 4096 = va / 4096.
Proof.
  intros Hr Hsz n Hfree Hlim.
  destruct (kmalloc_rep s A size Hr ltac:(lia)) as (p & ws & s' & E & Hr' & _ & Hn & _ & Hp & _).
  { unfold growth_ok. fold n. split; [|by split]. change (hb_room (kback s)) with (g_free_count (psrc (km_pg (kback s))) / 4).
    dm_lia. }
  exists p, ws, s'. split_and!; try done. intros va Hva.
  destruct (rep_layout _ _ _ _ Hr' (lookup_insert_eq _ _ _)) as (_ & _ & Hend & _).
  pose proof Hr' as (bl & fl & Hi & _).
  destruct (arena_backed s' bl fl va Hi ltac:(lia)) as (f & El & Hrt & _ & _ & Hnf & Huniq).
  by exists f.
Qed.

(** ** A concrete machine: 1024 frames, frame 0 reserved, an empty root table. *)
Definition demo_pmm : pmm := Pmm 0 0 (1 :: replicate 127 0) (254 :: replicate 127 255) 1024 (1024 * 4096) 1023 1 0.
Definition demo_kmm : kmm := KMM (PGS ∅ demo_pmm) 0x400000.

Lemma demo_pmm_ok : pmm_ok demo_pmm.
Proof.
  split; [|split].
  - constructor; [|vm_compute; split; discriminate|reflexivity]. constructor.
    + vm_compute. split; [reflexivity|discriminate].
    + reflexivity.
    + vm_compute. split; [reflexivity|discriminate].
    + vm_compute. discriminate.
    + vm_compute. discriminate.
    + intros i Hi. assert (Hall : forallb (fun i => bit (g_alloc_bm demo_pmm) i || bit (g_usable_bm demo_pmm) i)
        (seqZ 0 1024) = true) by (vm_compute; reflexivity).
      rewrite forallb_forall in Hall. specialize (Hall i). rewrite <- list_elem_of_In, elem_of_seqZ in Hall.
      specialize (Hall ltac:(simpl in Hi; lia)). intros Hb. by rewrite Hb in Hall.
    + vm_compute. reflexivity.
  - intros (_ & _ & Hb). vm_compute in Hb. discriminate.
  - vm_compute. discriminate.
Qed.

Lemma demo_lookup va : km_lookup demo_kmm va = None.
Proof. unfold km_lookup, lookup_va, demo_kmm, path_of. simpl. unfold rd. by rewrite lookup_empty. Qed.

Lemma demo_inv : kmm_inv demo_kmm.
Proof.
  constructor.
  - exists {[km_root demo_kmm := []]}. split.
    + constructor; [|exact demo_pmm_ok|].
      * apply tree_root; [intros i _; unfold rd; simpl; by rewrite lookup_empty|reflexivity|by vm_compute].
      * intros p [ks [<- _]%lookup_singleton_Some] (_ & Hb & _). vm_compute in Hb. by destruct Hb.
    + split; [apply writable_links_root; intros i _; unfold rd; simpl; by rewrite lookup_empty|].
      intros va d e _. by rewrite demo_lookup.
  - intros va va' f _ _ _ _. by rewrite demo_lookup.
Qed.

Definition demo_boot : kheap kmm := KHeap 0 0 0 ∅ demo_kmm.
Definition demo_heap : kheap kmm :=
  match kmalloc_init demo_boot with Ret _ s | Panic _ s | Fault _ s | Hang s => s end.

Lemma demo_heap_rep : heap_rep demo_heap ∅.
Proof.
  destruct (kmalloc_init_rep (HL := kmm_laws) demo_boot demo_inv ltac:(vm_compute; discriminate) (fun va H => H) eq_refl)
    as (s' & E & Hr & _).
  unfold demo_heap. by rewrite E.
Qed.

Lemma kernel_kmalloc_backed_witness :
  exists p ws s', kmalloc 100 demo_heap = Ret p s' /\ heap_rep s' (<[p := ws]> ∅) /\ 100 <= bytes ws /\
    forall va, p <= va < p + bytes ws -> exists f,
      km_lookup (kback s') (page_of va) = Some (3%nat, heap_pte f) /\
      (exists u, km_rights (kback s') (page_of va) = Some (Access true u false)) /\
      ~ frame_free_at (psrc (km_pg (kback s'))) f /\
      forall va', HEAP_BASE <= va' < g_heap_curr s' -> km_lookup (kback s') (page_of va') = Some (3%nat, heap_pte f) ->
        va' / 4096 = va / 4096.
Proof.
  apply (kernel_kmalloc_backed demo_heap ∅ 100 demo_heap_rep); [lia|vm_compute; discriminate|vm_compute; discriminate].
Defined.

(** Witnesses for the paging layer on the same machine. *)
Definition demo_own : gmap Z (list Z) := {[0x400000 := []]}.
Definition demo_pgs : pgs pmm := PGS ∅ demo_pmm.

Lemma demo_pinv : pinv demo_pgs 0x400000 demo_own.
Proof.
  constructor; [|exact demo_pmm_ok|].
  - apply tree_root; [intros i _; unfold rd; simpl; by rewrite lookup_empty|reflexivity|by vm_compute].
  - unfold demo_own. intros p [ks [<- _]%lookup_singleton_Some] (_ & Hb & _). vm_compute in Hb. by destruct Hb.
Qed.

Lemma demo_no_huge : no_huge demo_pgs 0x400000 HEAP_BASE.
Proof. intros d e He. vm_compute in He. discriminate. Qed.

Lemma PagingMapMemory_correct_witness :
  exists s' own', PagingMapMemory 0x400000 HEAP_BASE 0x5000 3 demo_pgs = Ret tt s' /\ pinv s' 0x400000 own' /\
    demo_own ⊆ own' /\
    forall v, lookup_va s' 0x400000 v = if decide (v / 4096 mod 2 ^ 36 = HEAP_BASE / 4096 mod 2 ^ 36)
       then Some (3%nat, Z.lor (Z.lor 0x5000 3) PTE_P) else lookup_va demo_pgs 0x400000 v.
Proof.
  apply (PagingMapMemory_correct demo_pgs 0x400000 demo_own HEAP_BASE 0x5000 3 demo_pinv demo_no_huge).
  vm_compute. discriminate.
Defined.

Lemma paging_map_unmap_roundtrip_witness :
  exists s1 s2, PagingMapMemory 0x400000 HEAP_BASE 0x5000 heap_page_flags demo_pgs = Ret tt s1 /\
    PagingPhysicalMemory 0x400000 HEAP_BASE s1 = Ret 0x5000 s1 /\
    PagingUnmapMemory 0x400000 HEAP_BASE s1 = Ret tt s2 /\ PagingPhysicalMemory 0x400000 HEAP_BASE s2 = Ret 0 s2 /\
    forall v, lookup_va s2 0x400000 v =
      if decide (v / 4096 mod 2 ^ 36 = HEAP_BASE / 4096 mod 2 ^ 36) then None else lookup_va demo_pgs 0x400000 v.
Proof.
  apply (paging_map_unmap_roundtrip demo_pgs 0x400000 demo_own HEAP_BASE 0x5000 heap_page_flags demo_pinv demo_no_huge);
    [vm_compute; discriminate|reflexivity|lia|reflexivity].
Defined.

Lemma offsets_roundtrip_witness :
  VirtualAddressToOffsets (OffsetToVirtualAddress (Offsets 288 0 5 511)) = Offsets 288 0 5 511 /\
  OffsetToVirtualAddress (VirtualAddressToOffsets HEAP_BASE) = 0x900000000000.
Proof.
  split.
  - apply (proj1 offsets_roundtrip); unfold idx_ok; lia.
  - rewrite (proj2 offsets_roundtrip) by (unfold HEAP_BASE; lia). reflexivity.
Defined.

End HeapPaging.
