(* ===== verification/PagingBootstrap.v ===== *)
(** The construction of the kernel's own address space,
    [src/src/paging/paging_bootstrap.c]: page tables from the early allocator,
    the identity window, the kernel image, the direct map of physical memory in
    2 MiB pages where possible, the pre-switch audit and the CR3 switch. *)
From S2P Require Import Prelude Limine EarlyAlloc PageTree Paging.

Module PagingBootstrap.
Import EarlyAlloc PageTree.

Definition PAGE_2M_SIZE : Z := 2 * 1024 * 1024.
Definition PAGE_1G_SIZE : Z := Z.shiftl 1 30.
Definition ADDR_MASK_2M : Z := 0x000FFFFFFFFFE000.
Definition ADDR_MASK_1G : Z := 0x000FFFFFC0000000.

(** What the boot protocol, the linker and the CPU provide: Limine's responses,
    the section bounds, RSP and the addresses of two of the functions. *)
Record boot_env : Type := BootEnv {
  be_limine : limine;
  text_start : Z; text_end : Z;
  rodata_start : Z; rodata_end : Z;
  data_start : Z; bss_end : Z;
  be_rsp : Z;
  be_rip : Z;
}.

(** Diagnostics printed by the probes. *)
Inductive report : Type :=
| Probe (label : string) (va : Z) (result : option (Z * Z))
| HhdmProbe (label : string) (phys va : Z) (result : option (Z * Z))
| Scan (lo hi : Z) (present : bool).

(** The file's statics, the words of memory reached through Limine's direct map,
    the early allocator, CR3 and the console. *)
Record pb : Type := PB {
  pt_mem : gmap Z Z;
  pt_early : early;
  g_pml4_phys : Z;
  g_pml4_virt : Z;
  g_hhdm : Z;
  cr3 : Z;
  console : list report;
}.
Definition set_mem (m : gmap Z Z) (s : pb) : pb :=
  PB m (pt_early s) (g_pml4_phys s) (g_pml4_virt s) (g_hhdm s) (cr3 s) (console s).
Definition set_early (e : early) (s : pb) : pb :=
  PB (pt_mem s) e (g_pml4_phys s) (g_pml4_virt s) (g_hhdm s) (cr3 s) (console s).
Definition set_pml4 (p v : Z) (s : pb) : pb :=
  PB (pt_mem s) (pt_early s) p v (g_hhdm s) (cr3 s) (console s).
Definition set_hhdm (h : Z) (s : pb) : pb :=
  PB (pt_mem s) (pt_early s) (g_pml4_phys s) (g_pml4_virt s) h (cr3 s) (console s).
Definition writeCR3 (v : Z) : K pb unit :=
  modify (fun s => PB (pt_mem s) (pt_early s) (g_pml4_phys s) (g_pml4_virt s) (g_hhdm s) v (console s)).
Definition print (r : report) : K pb unit :=
  modify (fun s => PB (pt_mem s) (pt_early s) (g_pml4_phys s) (g_pml4_virt s) (g_hhdm s) (cr3 s) (console s ++ [r])).

(** ** Memory map summaries *)
Definition get_total_usable_mem_bytes (env : boot_env) : Z :=
  match memmap_req (be_limine env) with
  | None | Some [] => 0
  | Some es => foldl (fun total e =>
      if me_type e =? LIMINE_MEMMAP_USABLE then u64 (total + me_length e) else total) 0 es
  end.

Definition get_max_phys (env : boot_env) : Z :=
  match memmap_req (be_limine env) with
  | None => 0
  | Some es => foldl (fun max_phys e =>
      let end_ := u64 (me_base e + me_length e) in if end_ >? max_phys then end_ else max_phys) 0 es
  end.

(** ** Helpers *)
Definition memzero_page (p : Z) : K pb unit :=
  modify (fun s => set_mem (Paging.zero_words (pt_mem s) p) s).
Definition phys_to_virt (phys : Z) : K pb Z := gets (fun s => u64 (phys + g_hhdm s)).
Definition vaddr_indices (v : Z) : Z * Z * Z * Z :=
  (Z.land (Z.shiftr v 39) 0x1FF, Z.land (Z.shiftr v 30) 0x1FF,
   Z.land (Z.shiftr v 21) 0x1FF, Z.land (Z.shiftr v 12) 0x1FF).
Definition virt_to_phys_kernel (vaddr kphys_base kvirt_base : Z) : Z :=
  u64 (kphys_base + u64 (vaddr - kvirt_base)).

(** [t->e[idx]] and assignment to it. *)
Definition ent (t idx : Z) : K pb Z := gets (fun s => rd (pt_mem s) (t + 8 * idx)).
Definition set_ent (t idx v : Z) : K pb unit :=
  modify (fun s => set_mem (<[t + 8 * idx := v]> (pt_mem s)) s).

(** ** Table allocation *)

(** Returns the pointer and, as [*out_phys], the frame. *)
Definition alloc_table : K pb (Z * Z) :=
  let! phys := zoom pt_early set_early early_alloc_page in
  let! s := get in
  do! when (g_hhdm s =? 0) (panic "paging_bootstrap: HHDM required for table zeroing") in
  let! pt := phys_to_virt phys in
  do! memzero_page pt in
  ret (pt, phys).

Definition get_or_make_next (cur idx : Z) : K pb (Z * Z) :=
  let! e := ent cur idx in
  if is_set e PTE_P then
    do! when (is_set e PTE_PS) (panic "paging_bootstrap: attempted descent through huge-page leaf") in
    let child_phys := Z.land e ADDR_MASK in
    let! v := phys_to_virt child_phys in
    ret (v, child_phys)
  else
    let2! (child, child_phys) := alloc_table in
    do! set_ent cur idx (Z.lor (Z.lor (Z.land child_phys ADDR_MASK) PTE_P) PTE_W) in
    ret (child, child_phys).

Definition get_or_make_pd (pml4 pml4i pdpti : Z) : K pb (Z * Z) :=
  let2! (pdpt, _) := get_or_make_next pml4 pml4i in
  get_or_make_next pdpt pdpti.

(** ** Mapping helpers *)
Definition map_4k (pml4 va pa flags : Z) : K pb unit :=
  let '(i0, i1, i2, i3) := vaddr_indices va in
  let2! (pdpt, _) := get_or_make_next pml4 i0 in
  let2! (pd, _) := get_or_make_next pdpt i1 in
  let2! (pt, _) := get_or_make_next pd i2 in
  set_ent pt i3 (Z.lor (Z.lor (Z.land pa ADDR_MASK) (Z.land flags (u64 (Z.lnot ADDR_MASK)))) PTE_P).

Definition map_2m (pml4 va pa flags : Z) : K pb unit :=
  let '(i0, i1, i2, _) := vaddr_indices va in
  let2! (pd, _) := get_or_make_pd pml4 i0 i1 in
  set_ent pd i2 (Z.lor (Z.lor (Z.lor (Z.lor (Z.land pa ADDR_MASK_2M) (Z.land flags (u64 (Z.lnot ADDR_MASK))))
    PTE_P) PTE_W) PTE_PS).

Definition map_1g (pml4 va pa flags : Z) : K pb unit :=
  let '(i0, i1, _, _) := vaddr_indices va in
  let2! (pdpt, _) := get_or_make_next pml4 i0 in
  set_ent pdpt i1 (Z.lor (Z.lor (Z.lor (Z.lor (Z.land pa ADDR_MASK_1G) (Z.land flags (u64 (Z.lnot ADDR_MASK))))
    PTE_P) PTE_W) PTE_PS).

(** Rounds a loop over [\[lo, hi)] in steps of [step] needs, and one to spare. *)
Definition rounds (lo hi step : Z) : nat := S (Z.to_nat ((hi - lo + step - 1) / step)).

Definition map_range_4k (pml4 va pa len flags : Z) : K pb unit :=
  let end_ := u64 (va + len) in
  do! while_loop (rounds va end_ PAGE_SIZE) (fun '(va, _) => va <? end_)
        (fun '(va, pa) => do! map_4k pml4 va pa flags in
                          ret (u64 (va + PAGE_SIZE), u64 (pa + PAGE_SIZE))) (va, pa) in
  ret tt.

(** One of the 4 KiB loops of [map_range_huge_first]. *)
Definition map_small (pml4 base_flags : Z) (l : Z * Z) : K pb (Z * Z) :=
  let '(va, pa) := l in
  do! map_4k pml4 va pa (Z.lor (Z.lor base_flags PTE_W) PTE_NX) in
  ret (u64 (va + PAGE_SIZE), u64 (pa + PAGE_SIZE)).

Definition map_range_huge_first (pml4 va pa len base_flags : Z) : K pb unit :=
  let end_ := u64 (pa + len) in
  let2! (va, pa) := while_loop (rounds pa end_ PAGE_SIZE)
      (fun '(va, pa) => (pa <? end_) && negb (Z.land (Z.lor pa va) (PAGE_2M_SIZE - 1) =? 0))
      (map_small pml4 base_flags) (va, pa) in
  let2! (va, pa) := while_loop (rounds pa end_ PAGE_2M_SIZE)
      (fun '(_, pa) => u64 (pa + PAGE_2M_SIZE) <=? end_)
      (fun '(va, pa) => do! map_2m pml4 va pa (Z.lor base_flags PTE_NX) in
                        ret (u64 (va + PAGE_2M_SIZE), u64 (pa + PAGE_2M_SIZE))) (va, pa) in
  do! while_loop (rounds pa end_ PAGE_SIZE) (fun '(_, pa) => pa <? end_) (map_small pml4 base_flags) (va, pa) in
  ret tt.

(** ** Kernel and direct-map builders *)
Definition map_identity_minimal (pml4 : Z) : K pb unit :=
  for_steps 512 0 PAGE_SIZE (fun p => map_4k pml4 p p (Z.lor PTE_W PTE_NX)).

Definition map_kernel_higher_half (env : boot_env) (pml4 : Z) : K pb unit :=
  match Kaddress_req (be_limine env) with
  | None => panic "paging_bootstrap: kernel address request missing"
  | Some ka =>
      let kphys_base := physical_base ka in
      let kvirt_base := virtual_base ka in
      let t0 := ALIGN_DOWN (text_start env) PAGE_SIZE in
      let t1 := ALIGN_UP (text_end env) PAGE_SIZE in
      let r0 := ALIGN_DOWN (rodata_start env) PAGE_SIZE in
      let r1 := ALIGN_UP (rodata_end env) PAGE_SIZE in
      let d0 := ALIGN_DOWN (data_start env) PAGE_SIZE in
      let d1 := ALIGN_UP (bss_end env) PAGE_SIZE in
      do! when (t1 >? t0) (map_range_4k pml4 t0 (virt_to_phys_kernel t0 kphys_base kvirt_base) (u64 (t1 - t0)) 0) in
      do! when (r1 >? r0) (map_range_4k pml4 r0 (virt_to_phys_kernel r0 kphys_base kvirt_base) (u64 (r1 - r0)) PTE_NX) in
      when (d1 >? d0) (map_range_4k pml4 d0 (virt_to_phys_kernel d0 kphys_base kvirt_base) (u64 (d1 - d0))
                         (Z.lor PTE_W PTE_NX))
  end.

(** The [switch] of [map_hhdm]. *)
Definition hhdm_include (type : Z) : bool :=
  (type =? LIMINE_MEMMAP_USABLE) || (type =? LIMINE_MEMMAP_BOOTLOADER_RECLAIMABLE) ||
  (type =? LIMINE_MEMMAP_ACPI_RECLAIMABLE) || (type =? LIMINE_MEMMAP_ACPI_NVS) ||
  (type =? LIMINE_MEMMAP_KERNEL_AND_MODULES) || (type =? LIMINE_MEMMAP_FRAMEBUFFER).

Definition map_hhdm_entry (pml4 : Z) (e : limine_memmap_entry) : K pb unit :=
  let! s := get in
  if negb (hhdm_include (me_type e)) then ret tt else
  let base := ALIGN_DOWN (me_base e) PAGE_SIZE in
  let end_ := ALIGN_UP (u64 (me_base e + me_length e)) PAGE_SIZE in
  if end_ <=? base then ret tt else
  map_range_huge_first pml4 (u64 (g_hhdm s + base)) base (u64 (end_ - base)) 0.

Definition map_hhdm (env : boot_env) (pml4 : Z) : K pb unit :=
  let! s := get in
  do! when (g_hhdm s =? 0) (panic "paging_bootstrap: HHDM offset missing") in
  match memmap_req (be_limine env) with
  | None | Some [] => panic "paging_bootstrap: memmap missing"
  | Some es => do! for_each es (map_hhdm_entry pml4) in map_2m pml4 (g_hhdm s) 0 PTE_NX
  end.

(** ** The walker and the probes *)

(** [Some (pa, level)] where the C function returns true. *)
Definition walk_va_to_pa (va pml4_root : Z) : K pb (option (Z * Z)) :=
  let '(i0, i1, i2, i3) := vaddr_indices va in
  let! pml4e := ent pml4_root i0 in
  if negb (is_set pml4e PTE_P) then ret None else
  let! pdpt := phys_to_virt (Z.land pml4e ADDR_MASK) in
  let! pdpte := ent pdpt i1 in
  if negb (is_set pdpte PTE_P) then ret None else
  if is_set pdpte PTE_PS then ret (Some (Z.lor (Z.land pdpte ADDR_MASK_1G) (Z.land va (PAGE_1G_SIZE - 1)), 3)) else
  let! pd := phys_to_virt (Z.land pdpte ADDR_MASK) in
  let! pde := ent pd i2 in
  if negb (is_set pde PTE_P) then ret None else
  if is_set pde PTE_PS then ret (Some (Z.lor (Z.land pde ADDR_MASK_2M) (Z.land va (PAGE_2M_SIZE - 1)), 2)) else
  let! pt := phys_to_virt (Z.land pde ADDR_MASK) in
  let! pte := ent pt i3 in
  if negb (is_set pte PTE_P) then ret None else
  ret (Some (Z.lor (Z.land pte ADDR_MASK) (Z.land va (PAGE_SIZE - 1)), 1)).

Definition probe_va (label : string) (va tbl : Z) : K pb unit :=
  let! r := walk_va_to_pa va tbl in print (Probe label va r).

Definition probe_hhdm_phys (label : string) (phys pml4 : Z) : K pb unit :=
  let! s := get in
  let va := u64 (g_hhdm s + phys) in
  let! r := walk_va_to_pa va pml4 in print (HhdmProbe label phys va r).

(** Loop variables: the scan position, [prev_state] (-1 before the first round)
    and [run_start]. *)
Definition scan_hhdm_range (phys_start length stride pml4 : Z) : K pb unit :=
  let stride := if stride =? 0 then PAGE_2M_SIZE else stride in
  let! s := get in
  let end_ := u64 (phys_start + length) in
  let2! (_, prev_state, run_start) :=
    while_loop (rounds phys_start end_ stride) (fun '(phys, _, _) => phys <? end_)
      (fun '(phys, prev_state, run_start) =>
         let! r := walk_va_to_pa (u64 (g_hhdm s + phys)) pml4 in
         let state := match r with Some _ => 1 | None => 0 end in
         if prev_state =? -1 then ret (u64 (phys + stride), state, phys)
         else if negb (state =? prev_state) then
           do! print (Scan run_start phys (negb (prev_state =? 0))) in
           ret (u64 (phys + stride), state, phys)
         else ret (u64 (phys + stride), prev_state, run_start)) (phys_start, -1, phys_start) in
  print (Scan run_start end_ (prev_state >? 0)).

(** ** Coverage enforcement *)
Definition ensure_hhdm_cover_phys_page (pml4 phys_page : Z) : K pb unit :=
  let page := ALIGN_DOWN phys_page PAGE_SIZE in
  let! s := get in
  let va := u64 (g_hhdm s + page) in
  let! r := walk_va_to_pa va pml4 in
  match r with
  | Some _ => ret tt
  | None => map_4k pml4 va page (Z.lor PTE_W PTE_NX)
  end.

Definition ensure_hhdm_cover_phys_range (pml4 phys len : Z) : K pb unit :=
  if len =? 0 then ret tt else
  let page := ALIGN_DOWN phys PAGE_SIZE in
  let end_ := ALIGN_UP (u64 (phys + len)) PAGE_SIZE in
  do! while_loop (rounds page end_ PAGE_SIZE) (fun page => page <? end_)
        (fun page => do! ensure_hhdm_cover_phys_page pml4 page in ret (u64 (page + PAGE_SIZE))) page in
  ret tt.

(** ** Audit and switch *)

(** [if (!walk_va_to_pa(va, t, ...)) panic(msg);], giving the address found. *)
Definition require_mapped (va t : Z) (msg : string) : K pb Z :=
  let! r := walk_va_to_pa va t in
  match r with Some (pa, _) => ret pa | None => panic msg end.

Definition pre_switch_audit_and_patch (env : boot_env) (new_pml4 new_pml4_phys : Z) : K pb unit :=
  let! s := get in
  let old_cr3 := Z.land (cr3 s) ADDR_MASK in
  let rsp_va := be_rsp env in
  let max_phys := get_max_phys env in
  let! rsp_phys :=
    (if (rsp_va >=? g_hhdm s) && (rsp_va <? u64 (g_hhdm s + max_phys)) then ret (u64 (rsp_va - g_hhdm s))
     else require_mapped rsp_va new_pml4 "paging_bootstrap: stack VA missing before CR3 switch") in
  do! ensure_hhdm_cover_phys_range new_pml4 0 PAGE_2M_SIZE in
  do! ensure_hhdm_cover_phys_page new_pml4 rsp_phys in
  do! ensure_hhdm_cover_phys_page new_pml4 old_cr3 in
  do! ensure_hhdm_cover_phys_page new_pml4 new_pml4_phys in
  do! probe_va "stack" rsp_va new_pml4 in
  do! probe_va "rip" (be_rip env) new_pml4 in
  do! probe_va "HHDM+0" (g_hhdm s) new_pml4 in
  do! probe_va "HHDM+oldCR3" (u64 (g_hhdm s + old_cr3)) new_pml4 in
  do! probe_va "HHDM+newCR3" (u64 (g_hhdm s + new_pml4_phys)) new_pml4 in
  do! require_mapped rsp_va new_pml4 "paging_bootstrap: stack missing after patching" in
  do! require_mapped (be_rip env) new_pml4 "paging_bootstrap: kernel RIP missing after patching" in
  do! require_mapped (g_hhdm s) new_pml4 "paging_bootstrap: HHDM+0 missing after patching" in
  do! require_mapped (u64 (g_hhdm s + old_cr3)) new_pml4 "paging_bootstrap: old CR3 page missing from HHDM" in
  do! require_mapped (u64 (g_hhdm s + new_pml4_phys)) new_pml4 "paging_bootstrap: new CR3 page missing from HHDM" in
  ret tt.

Definition install_new_cr3 (env : boot_env) (new_pml4_phys new_pml4 : Z) : K pb unit :=
  do! pre_switch_audit_and_patch env new_pml4 new_pml4_phys in
  writeCR3 new_pml4_phys.

Definition paging_bootstrap (env : boot_env) : K pb unit :=
  match hhdm_request (be_limine env) with
  | None => panic "paging_bootstrap: HHDM response missing"
  | Some offset =>
      do! modify (set_hhdm offset) in
      do! when (offset =? 0) (panic "paging_bootstrap: HHDM offset is zero") in
      let2! (v, p) := alloc_table in
      do! modify (set_pml4 p v) in
      do! map_identity_minimal v in
      do! map_kernel_higher_half env v in
      do! map_hhdm env v in
      do! probe_hhdm_phys "low+0" 0 v in
      let! s := get in
      do! probe_hhdm_phys "old CR3 page" (Z.land (cr3 s) ADDR_MASK) v in
      do! probe_hhdm_phys "new CR3 page" p v in
      do! scan_hhdm_range 0 (16 * 1024 * 1024) PAGE_2M_SIZE v in
      install_new_cr3 env p v
  end.

End PagingBootstrap.
