(* ===== verification/PagingBootstrapSpec.v ===== *)
(** What [src/src/paging/paging_bootstrap.c] builds: the invariant of the tables
    under construction, the effect of the mapping helpers on every translation,
    the coverage of the direct map, the protection of the kernel image and the
    conditions under which CR3 is switched. *)
From S2P Require Import Prelude Limine EarlyAlloc PageTree Paging PagingBootstrap.

Module PagingBootstrapSpec.
Import EarlyAlloc PageTree PagingBootstrap.
Import Paging (path_of, path_ok, path_eq, path_same, rd_zero_in, rd_zero_out, lor_disjoint).

(** ** The invariant *)

Definition early_room (e : early) : Z := (g_end e - g_cursor e) / 4096.
Definition early_good (e : early) : Prop :=
  0 < g_base e <= g_cursor e /\ g_cursor e mod 4096 = 0 /\ g_cursor e <= g_end e /\ g_end e <= 2 ^ 46.

(** The tables of [root], all linked writable and on pages the early allocator has
    handed out. *)
Record binv (s : pb) (root : Z) (own : gmap Z (list Z)) : Prop := {
  bi_hh : 0 < g_hhdm s /\ g_hhdm s + 2 ^ 46 < 2 ^ 64;
  bi_tree : tree (g_hhdm s) (pt_mem s) root own;
  bi_early : early_good (pt_early s);
  bi_sep : forall p, is_Some (own !! p) -> g_base (pt_early s) <= p < g_cursor (pt_early s);
  bi_write : writable_links (g_hhdm s) (pt_mem s) own;
}.

Definition walk_of (s : pb) (root va : Z) : option (nat * Z) := walk (g_hhdm s) (pt_mem s) 0 root (path_of va).

(** What the processor allows at [va], all levels of the walk taken together. *)
Definition rights_of (s : pb) (root va : Z) : option access := rights (g_hhdm s) (pt_mem s) 0 root (path_of va).

Lemma rights_of_walk s root own va d e : binv s root own -> walk_of s root va = Some (d, e) ->
  exists u, rights_of s root va = Some (Access (is_set e PTE_W) u (negb (is_set e PTE_NX))).
Proof.
  intros Hi Hw. destruct (path_ok va) as [Hl Hok].
  apply (rights_walk _ _ _ own (bi_tree _ _ _ Hi) (bi_write _ _ _ Hi) (path_of va) root [] d e
    (tr_root _ _ _ _ (bi_tree _ _ _ Hi))); [simpl; lia|done|exact Hw].
Qed.

(** Everything but the tables and the early allocator's cursor is as before. *)
Definition same_rest (s s' : pb) : Prop :=
  g_hhdm s' = g_hhdm s /\ cr3 s' = cr3 s /\ g_pml4_phys s' = g_pml4_phys s /\ g_pml4_virt s' = g_pml4_virt s /\
  console s' = console s /\ g_base (pt_early s') = g_base (pt_early s) /\ g_end (pt_early s') = g_end (pt_early s).

Lemma same_rest_refl s : same_rest s s.
Proof. done. Qed.
Lemma same_rest_trans s1 s2 s3 : same_rest s1 s2 -> same_rest s2 s3 -> same_rest s1 s3.
Proof. unfold same_rest. intros (?&?&?&?&?&?&?) (?&?&?&?&?&?&?). split_and!; congruence. Qed.
#[local] Hint Resolve same_rest_refl : kernel.

(** ** Fresh tables *)
Lemma early_page s : early_good (pt_early s) -> 0 < early_room (pt_early s) ->
  let f := g_cursor (pt_early s) in
  exists e', zoom pt_early set_early early_alloc_page s = Ret f (set_early e' s) /\ early_good e' /\
    g_base e' = g_base (pt_early s) /\ g_cursor e' = f + 4096 /\ g_end e' = g_end (pt_early s) /\
    early_room e' = early_room (pt_early s) - 1 /\ 0 < f < 2 ^ 46 /\ f mod 4096 = 0.
Proof.
  intros (Hc & Hal & Hle & Hend) Hr f. unfold early_room in Hr.
  exists (Early (g_base (pt_early s)) (f + 4096) (g_end (pt_early s)) (g_region_forced (pt_early s))).
  split.
  - unfold zoom, early_alloc_page, bind, get, put, ret, PAGE_SIZE. rewrite wrap_small by (unfold f in *; dm_lia).
    rewrite Z.gtb_ltb, (proj2 (Z.ltb_ge _ _)) by dm_lia. done.
  - unfold early_good, early_room. simpl. unfold f in *. split_and!; dm_lia.
Qed.

Lemma frame_mask_addr f : f mod 4096 = 0 -> 0 <= f < 2 ^ 46 -> Z.land f ADDR_MASK = f.
Proof. intros. rewrite <- (Z.lor_0_r f) at 1. apply frame_mask_spec; [reflexivity|done|lia|lia]. Qed.

Lemma v_eq s root own p ks : binv s root own -> own !! p = Some ks -> u64 (p + g_hhdm s) = p + g_hhdm s.
Proof.
  intros Hi Hp. destruct (tr_page _ _ _ _ (bi_tree _ _ _ Hi) _ _ Hp) as (?&_). destruct (bi_hh _ _ _ Hi).
  apply wrap_small. lia.
Qed.

Lemma get_or_make_next_spec s root own p ks i :
  binv s root own -> own !! p = Some ks -> (length ks < 3)%nat -> idx_ok i ->
  kind (length ks) (rd (pt_mem s) (slot (g_hhdm s) p i)) <> Leaf -> 0 < early_room (pt_early s) ->
  exists q s' own', get_or_make_next (p + g_hhdm s) i s = Ret (q + g_hhdm s, q) s' /\
    binv s' root own' /\ own' !! q = Some (ks ++ [i]) /\ own ⊆ own' /\ same_rest s s' /\
    (forall va, walk_of s' root va = walk_of s root va) /\
    early_room (pt_early s) - 1 <= early_room (pt_early s').
Proof.
  intros Hi Hp Hl Hix Hk Hr. pose proof Hi as [Hhh Ht He Hsep Hwl]. set (hh := g_hhdm s) in *.
  destruct (tr_page _ _ _ _ Ht _ _ Hp) as (_&Hpa&_&_).
  unfold get_or_make_next. set (e := rd (pt_mem s) (slot hh p i)) in *.
  rewrite (bind_Ret (ent _ _) _ s e s) by done.
  destruct (kind (length ks) e) eqn:Ek; [|done|].
  - assert (HP : is_set e PTE_P = false) by by eapply kind_absent. rewrite HP.
    destruct (early_page s He Hr) as (e' & Ee & He' & Hbase & Hcur & Hend & Hroom & Hf & Hfa).
    set (f := g_cursor (pt_early s)) in *.
    assert (Hown : own !! f = None) by (destruct (own !! f) eqn:Eo; [|done]; specialize (Hsep f ltac:(eauto)); unfold f in *; lia).
    set (w := Z.lor (Z.lor (Z.land f ADDR_MASK) PTE_P) PTE_W). set (m1 := Paging.zero_words (pt_mem s) (f + hh)).
    set (m' := <[p + hh + 8 * i := w]> m1).
    rewrite (bind_Ret _ _ _ (f + hh, f) (set_mem m1 (set_early e' s))).
    2: { unfold alloc_table. rewrite (bind_Ret _ _ _ _ _ Ee), bind_get.
         rewrite (proj2 (Z.eqb_neq _ _)) by (simpl; unfold hh in *; lia). simpl when.
         rewrite (bind_Ret (ret tt) _ _ tt (set_early e' s)) by done.
         rewrite (bind_Ret (phys_to_virt f) _ _ (f + hh) (set_early e' s)).
         { done. } unfold phys_to_virt, gets. simpl. fold hh. rewrite wrap_small by (unfold hh in *; lia). done. }
    assert (Hte : table_entry w f).
    { exists 3. unfold w. rewrite (frame_mask_addr f) by (done || lia). split_and!; try lia.
      rewrite <- Z.lor_assoc. done. }
    assert (HPs : is_set w PTE_P = true).
    { unfold PTE_P. rewrite is_set_bit by lia. unfold w, PTE_P. by rewrite !Z.lor_spec, !orb_true_r. }
    assert (Hne : forall j, idx_ok j -> slot hh p i <> slot hh f j).
    { intros j Hj Hs. apply slot_inj in Hs as [-> _]; try done. congruence. }
    assert (Hnew : rd m' (slot hh p i) = w) by (unfold m', slot; apply rd_insert_eq).
    assert (Hz : forall j, idx_ok j -> rd m' (slot hh f j) = 0).
    { intros j Hj. unfold m'. rewrite rd_insert_ne by (by apply Hne). by apply rd_zero_in. }
    assert (Ho : forall b, b <> slot hh p i -> (forall j, idx_ok j -> b <> slot hh f j) -> rd m' b = rd (pt_mem s) b).
    { intros b Hb1 Hb2. unfold m'. rewrite rd_insert_ne by (intros Hx; by apply Hb1). by apply rd_zero_out. }
    exists f, (set_mem m' (set_early e' s)), (<[f := ks ++ [i]]> own). split; [reflexivity|].
    split; [|split; [|split; [|split; [|split]]]].
    + constructor; [exact Hhh| |exact He'| |].
      * eapply link_tree; [exact Ht|exact Hp|done|done|exact Ek|done|exact Hte|done|done|done|done].
      * intros q [qs Hq]. rewrite lookup_insert in Hq. cbn [pt_early set_mem set_early]. rewrite Hbase, Hcur.
        destruct He as ((? & ?) & _). case_decide as Hqf; [subst q; unfold f; lia|].
        specialize (Hsep q ltac:(eauto)). unfold f. lia.
      * apply (link_writable hh (pt_mem s) m' root own p i f w ks); try done.
        unfold w. rewrite !is_set_lor. change (is_set PTE_W PTE_W) with true. by rewrite orb_true_r.
    + apply lookup_insert_eq.
    + by apply insert_subseteq.
    + by repeat split.
    + intros va. destruct (path_ok va).
      change (walk hh m' 0 root (path_of va) = walk hh (pt_mem s) 0 root (path_of va)).
      eapply link_walk; [exact Ht|exact Hp|done|done|exact Ek|done|exact Hte|done|done|done|done|done|done].
    + cbn [pt_early set_mem set_early]. lia.
  - destruct (tr_next _ _ _ _ Ht p ks i Hp Hl Hix Ek) as [Hte Hn]. fold e in Hte, Hn.
    rewrite (kind_link _ _ Ek), (table_entry_not_huge _ _ Hte). simpl when.
    rewrite (bind_Ret (ret tt) _ _ tt s) by done.
    rewrite (bind_Ret (phys_to_virt _) _ _ (Z.land e ADDR_MASK + hh) s).
    2: { unfold phys_to_virt, gets. by rewrite (v_eq s root own _ _ Hi Hn). }
    exists (Z.land e ADDR_MASK), s, own. split_and!; auto with kernel. lia.
Qed.

(** A large-page leaf on the way stops the descent with a panic that changes
    nothing. *)
Lemma get_or_make_next_leaf s p (ks : list Z) i : (length ks < 3)%nat ->
  kind (length ks) (rd (pt_mem s) (slot (g_hhdm s) p i)) = Leaf ->
  get_or_make_next (p + g_hhdm s) i s = Panic "paging_bootstrap: attempted descent through huge-page leaf" s.
Proof.
  intros Hl Hk. unfold get_or_make_next. set (e := rd (pt_mem s) (slot (g_hhdm s) p i)) in *.
  rewrite (bind_Ret (ent _ _) _ s e s) by done. revert Hk. unfold kind.
  destruct (is_set e PTE_P); [|done]. simpl. destruct (length ks) as [|[|[|]]]; [done| | |lia];
    by destruct (is_set e PTE_PS).
Qed.

(** ** One page *)
Lemma indices_eq va : let '(i0, i1, i2, i3) := vaddr_indices va in path_of va = [i0; i1; i2; i3].
Proof.
  unfold vaddr_indices. rewrite path_eq. change 0x1FF with (2 ^ 9 - 1). rewrite !land_low by lia.
  by rewrite !Z.shiftr_div_pow2 by lia.
Qed.

Lemma indices_ok va i0 i1 i2 i3 : path_of va = [i0; i1; i2; i3] -> idx_ok i0 /\ idx_ok i1 /\ idx_ok i2 /\ idx_ok i3.
Proof.
  intros Hp. destruct (path_ok va) as [_ Hok]. rewrite Hp in Hok.
  repeat (apply Forall_cons in Hok as [? Hok]). done.
Qed.

(** The deepest entry a walk may end at without hiding depth [d]. *)
Definition ends_below (s : pb) (root va : Z) (d : nat) : Prop :=
  forall k e, walk_of s root va = Some (k, e) -> (d <= k)%nat.

Lemma ends_below_kind s root own va p ks k r d :
  binv s root own -> ends_below s root va d -> own !! p = Some ks -> path_of va = ks ++ k :: r -> (length ks < d)%nat ->
  kind (length ks) (rd (pt_mem s) (slot (g_hhdm s) p k)) <> Leaf.
Proof.
  intros [_ Ht _ _ _] Hn Hp Hpath Hl Hk. specialize (Hn (length ks) (rd (pt_mem s) (slot (g_hhdm s) p k))).
  unfold walk_of in Hn. rewrite Hpath, (walk_descend _ _ _ _ _ _ _ (tr_reach _ _ _ _ Ht _ _ Hp)) in Hn.
  cbn [walk] in Hn. rewrite Nat.add_0_l, Hk in Hn. specialize (Hn eq_refl). lia.
Qed.

Lemma ends_below_same s s' root va d :
  (forall v, walk_of s' root v = walk_of s root v) -> ends_below s root va d -> ends_below s' root va d.
Proof. intros Hw Hn k e. rewrite Hw. apply Hn. Qed.

(** Writing entry [i] of an owned table with something that is no link. *)
Lemma set_ent_spec s root own p ks i e :
  binv s root own -> own !! p = Some ks -> idx_ok i -> kind (length ks) e = Leaf ->
  exists s', set_ent (p + g_hhdm s) i e s = Ret tt s' /\ binv s' root (cut own (ks ++ [i])) /\ same_rest s s' /\
    pt_early s' = pt_early s /\
    forall va, walk_of s' root va =
      if decide (ks ++ [i] `prefix_of` path_of va) then Some (length ks, e) else walk_of s root va.
Proof.
  intros [Hhh Ht He Hsep Hwl] Hp Hi Hk. set (m' := <[p + g_hhdm s + 8 * i := e]> (pt_mem s)).
  assert (Hnl : kind (length ks) e <> Link) by by rewrite Hk.
  assert (Hnew : rd m' (slot (g_hhdm s) p i) = e) by (unfold m', slot; apply rd_insert_eq).
  assert (Hother : forall a, a <> slot (g_hhdm s) p i -> rd m' a = rd (pt_mem s) a).
  { intros a Ha. unfold m'. apply rd_insert_ne. unfold slot in Ha. congruence. }
  destruct (entry_write (g_hhdm s) (pt_mem s) m' root own p i e ks Ht Hp Hi Hnl Hnew Hother) as [Ht' Hw].
  - exists (set_mem m' s). split; [reflexivity|]. split; [|split; [repeat split|split; [reflexivity|]]].
    + constructor; [exact Hhh|exact Ht'|exact He| |].
      * intros q [qs [Hq _]%cut_lookup]. apply Hsep. eauto.
      * by apply (write_writable (g_hhdm s) (pt_mem s) m' root own _ p i e ks Ht Hp Hi Hnl Hnew Hother (cut_subseteq _ _)).
    + intros va. destruct (path_ok va) as [Hl Hok]. pose proof (Hw (path_of va) Hl Hok) as Hwv. rewrite Hk in Hwv. exact Hwv.
Qed.

Definition pte_4k (pa flags : Z) : Z :=
  Z.lor (Z.lor (Z.land pa ADDR_MASK) (Z.land flags (u64 (Z.lnot ADDR_MASK)))) PTE_P.
Definition pte_2m (pa flags : Z) : Z :=
  Z.lor (Z.lor (Z.lor (Z.lor (Z.land pa ADDR_MASK_2M) (Z.land flags (u64 (Z.lnot ADDR_MASK)))) PTE_P) PTE_W) PTE_PS.

Lemma pte_2m_bits pa flags : let e := pte_2m pa flags in
  is_set e PTE_P = true /\ is_set e PTE_PS = true /\ is_set e PTE_W = true.
Proof.
  cbv zeta. unfold pte_2m. rewrite !is_set_lor. change (is_set PTE_P PTE_P) with true.
  change (is_set PTE_PS PTE_PS) with true. change (is_set PTE_W PTE_W) with true. by rewrite !orb_true_r.
Qed.

Lemma map_4k_spec s root own va pa flags :
  binv s root own -> ends_below s root va 3 -> 3 <= early_room (pt_early s) ->
  exists s' own', map_4k (root + g_hhdm s) va pa flags s = Ret tt s' /\ binv s' root own' /\ same_rest s s' /\
    (forall v, walk_of s' root v = if decide (path_of v = path_of va) then Some (3%nat, pte_4k pa flags)
       else walk_of s root v) /\ early_room (pt_early s) - 3 <= early_room (pt_early s').
Proof.
  intros Hi Hn Hr. pose proof (tr_root _ _ _ _ (bi_tree _ _ _ Hi)) as Hroot. unfold map_4k.
  pose proof (indices_eq va) as Hpath. destruct (vaddr_indices va) as [[[i0 i1] i2] i3].
  destruct (indices_ok _ _ _ _ _ Hpath) as (H0 & H1 & H2 & H3).
  destruct (get_or_make_next_spec s root own root [] i0 Hi Hroot ltac:(simpl; lia) H0) as
    (t1 & s1 & own1 & E1 & Hi1 & Ht1 & _ & Hs1 & Hw1 & Hr1); [apply (ends_below_kind s root own va root [] i0 [i1; i2; i3] 3); (done || simpl; lia)|lia|].
  pose proof (ends_below_same _ _ _ _ _ Hw1 Hn) as Hn1. pose proof Hs1 as (Hh1 & _).
  destruct (get_or_make_next_spec s1 root own1 t1 [i0] i1 Hi1 Ht1 ltac:(simpl; lia) H1) as
    (t2 & s2 & own2 & E2 & Hi2 & Ht2 & _ & Hs2 & Hw2 & Hr2); [apply (ends_below_kind s1 root own1 va t1 [i0] i1 [i2; i3] 3); (done || simpl; lia)|lia|].
  pose proof (ends_below_same _ _ _ _ _ Hw2 Hn1) as Hn2. pose proof Hs2 as (Hh2 & _).
  destruct (get_or_make_next_spec s2 root own2 t2 [i0; i1] i2 Hi2 Ht2 ltac:(simpl; lia) H2) as
    (t3 & s3 & own3 & E3 & Hi3 & Ht3 & _ & Hs3 & Hw3 & Hr3); [apply (ends_below_kind s2 root own2 va t2 [i0; i1] i2 [i3] 3); (done || simpl; lia)|lia|].
  pose proof Hs3 as (Hh3 & _). rewrite (bind_Ret _ _ _ _ _ E1), <- Hh1, (bind_Ret _ _ _ _ _ E2), <- Hh2, (bind_Ret _ _ _ _ _ E3), <- Hh3.
  destruct (set_ent_spec s3 root own3 t3 [i0; i1; i2] i3 (pte_4k pa flags) Hi3 Ht3 H3) as (s4 & E4 & Hi4 & Hs4 & He4 & Hw4).
  { unfold kind, pte_4k. rewrite is_set_lor. change (is_set PTE_P PTE_P) with true. by rewrite orb_true_r. }
  exists s4. eexists. split; [exact E4|]. split; [exact Hi4|]. split; [|split].
  - eauto using same_rest_trans.
  - intros v. rewrite Hw4. change ([i0; i1; i2] ++ [i3]) with [i0; i1; i2; i3]. rewrite <- Hpath.
    destruct (decide (path_of v = path_of va)) as [Hv|Hv].
    + rewrite decide_True; [done|]. by rewrite Hv.
    + rewrite decide_False; [by rewrite Hw3, Hw2, Hw1|]. intros Hpre. apply Hv.
      destruct (path_ok v) as [Hl _], (path_ok va) as [Hl' _]. apply prefix_length_eq in Hpre; [done|lia].
  - rewrite He4. lia.
Qed.

Lemma map_2m_spec s root own va pa flags :
  binv s root own -> ends_below s root va 2 -> 2 <= early_room (pt_early s) ->
  exists s' own', map_2m (root + g_hhdm s) va pa flags s = Ret tt s' /\ binv s' root own' /\ same_rest s s' /\
    (forall v, walk_of s' root v = if decide (take 3 (path_of v) = take 3 (path_of va)) then Some (2%nat, pte_2m pa flags)
       else walk_of s root v) /\ early_room (pt_early s) - 2 <= early_room (pt_early s').
Proof.
  intros Hi Hn Hr. pose proof (tr_root _ _ _ _ (bi_tree _ _ _ Hi)) as Hroot. unfold map_2m, get_or_make_pd.
  pose proof (indices_eq va) as Hpath. destruct (vaddr_indices va) as [[[i0 i1] i2] i3].
  destruct (indices_ok _ _ _ _ _ Hpath) as (H0 & H1 & H2 & H3).
  destruct (get_or_make_next_spec s root own root [] i0 Hi Hroot ltac:(simpl; lia) H0) as
    (t1 & s1 & own1 & E1 & Hi1 & Ht1 & _ & Hs1 & Hw1 & Hr1); [apply (ends_below_kind s root own va root [] i0 [i1; i2; i3] 2); (done || simpl; lia)|lia|].
  pose proof (ends_below_same _ _ _ _ _ Hw1 Hn) as Hn1. pose proof Hs1 as (Hh1 & _).
  destruct (get_or_make_next_spec s1 root own1 t1 [i0] i1 Hi1 Ht1 ltac:(simpl; lia) H1) as
    (t2 & s2 & own2 & E2 & Hi2 & Ht2 & _ & Hs2 & Hw2 & Hr2); [apply (ends_below_kind s1 root own1 va t1 [i0] i1 [i2; i3] 2); (done || simpl; lia)|lia|].
  pose proof Hs2 as (Hh2 & _). rewrite bind_assoc, (bind_Ret _ _ _ _ _ E1), <- Hh1, (bind_Ret _ _ _ _ _ E2), <- Hh2.
  destruct (set_ent_spec s2 root own2 t2 [i0; i1] i2 (pte_2m pa flags) Hi2 Ht2 H2) as (s3 & E3 & Hi3 & Hs3 & He3 & Hw3).
  { unfold kind. destruct (pte_2m_bits pa flags) as (HP & HPS & _). rewrite HP, HPS. done. }
  exists s3. eexists. split; [exact E3|]. split; [exact Hi3|]. split; [|split].
  - eauto using same_rest_trans.
  - intros v. rewrite Hw3. change ([i0; i1] ++ [i2]) with [i0; i1; i2]. rewrite Hpath. cbn [take].
    destruct (path_ok v) as [Hl _]. destruct (decide (take 3 (path_of v) = [i0; i1; i2])) as [Hv|Hv].
    + rewrite decide_True; [done|]. rewrite <- Hv. apply prefix_take.
    + rewrite decide_False; [by rewrite Hw2, Hw1|]. intros [r Hpre]. apply Hv. by rewrite Hpre.
  - rewrite He3. lia.
Qed.

(** ** The walker *)

(** The address and page-size level the walker reports for the entry that ends
    the walk. *)
Definition pa_of (w : option (nat * Z)) (va : Z) : option (Z * Z) :=
  match w with
  | Some (1%nat, e) => Some (Z.lor (Z.land e ADDR_MASK_1G) (Z.land va (PAGE_1G_SIZE - 1)), 3)
  | Some (2%nat, e) => Some (Z.lor (Z.land e ADDR_MASK_2M) (Z.land va (PAGE_2M_SIZE - 1)), 2)
  | Some (3%nat, e) => Some (Z.lor (Z.land e ADDR_MASK) (Z.land va (PAGE_SIZE - 1)), 1)
  | _ => None
  end.

(** One link followed by the walker. *)
Lemma follow s root own p ks i : binv s root own -> own !! p = Some ks -> (length ks < 3)%nat -> idx_ok i ->
  let e := rd (pt_mem s) (slot (g_hhdm s) p i) in
  kind (length ks) e = Link ->
  phys_to_virt (Z.land e ADDR_MASK) s = Ret (Z.land e ADDR_MASK + g_hhdm s) s /\
  own !! Z.land e ADDR_MASK = Some (ks ++ [i]).
Proof.
  intros Hi Hp Hl Hix e Hk. destruct (tr_next _ _ _ _ (bi_tree _ _ _ Hi) p ks i Hp Hl Hix Hk) as [_ Hn].
  fold e in Hn. split; [|done]. unfold phys_to_virt, gets. by rewrite (v_eq s root own _ _ Hi Hn).
Qed.

Lemma walk_va_to_pa_eq s root own va : binv s root own ->
  walk_va_to_pa va (root + g_hhdm s) s = Ret (pa_of (walk_of s root va) va) s.
Proof.
  intros Hi. pose proof (tr_root _ _ _ _ (bi_tree _ _ _ Hi)) as Hroot.
  unfold walk_va_to_pa, walk_of. pose proof (indices_eq va) as Hpath. destruct (vaddr_indices va) as [[[i0 i1] i2] i3].
  destruct (indices_ok _ _ _ _ _ Hpath) as (H0 & H1 & H2 & H3). rewrite Hpath. cbn [walk].
  set (e0 := rd (pt_mem s) (slot (g_hhdm s) root i0)). rewrite (bind_Ret (ent _ _) _ s e0 s) by done.
  destruct (is_set e0 PTE_P) eqn:P0; [|unfold kind; by rewrite P0].
  assert (K0 : kind 0 e0 = Link) by (unfold kind; by rewrite P0). rewrite K0. cbn [negb].
  destruct (follow s root own root [] i0 Hi Hroot ltac:(simpl; lia) H0 K0) as [F0 O0].
  fold e0 in F0, O0. rewrite (bind_Ret _ _ _ _ _ F0).
  set (e1 := rd (pt_mem s) (slot (g_hhdm s) (Z.land e0 ADDR_MASK) i1)). rewrite (bind_Ret (ent _ _) _ s e1 s) by done.
  destruct (is_set e1 PTE_P) eqn:P1; [|unfold kind; by rewrite P1]. cbn [negb].
  destruct (is_set e1 PTE_PS) eqn:S1; [unfold kind; by rewrite P1, S1|].
  assert (K1 : kind 1 e1 = Link) by (unfold kind; by rewrite P1, S1). rewrite K1.
  destruct (follow s root own (Z.land e0 ADDR_MASK) [i0] i1 Hi O0 ltac:(simpl; lia) H1 K1) as [F1 O1].
  fold e1 in F1, O1. rewrite (bind_Ret _ _ _ _ _ F1).
  set (e2 := rd (pt_mem s) (slot (g_hhdm s) (Z.land e1 ADDR_MASK) i2)). rewrite (bind_Ret (ent _ _) _ s e2 s) by done.
  destruct (is_set e2 PTE_P) eqn:P2; [|unfold kind; by rewrite P2]. cbn [negb].
  destruct (is_set e2 PTE_PS) eqn:S2; [unfold kind; by rewrite P2, S2|].
  assert (K2 : kind 2 e2 = Link) by (unfold kind; by rewrite P2, S2). rewrite K2.
  destruct (follow s root own (Z.land e1 ADDR_MASK) [i0; i1] i2 Hi O1 ltac:(simpl; lia) H2 K2) as [F2 _].
  fold e2 in F2. rewrite (bind_Ret _ _ _ _ _ F2).
  set (e3 := rd (pt_mem s) (slot (g_hhdm s) (Z.land e2 ADDR_MASK) i3)). rewrite (bind_Ret (ent _ _) _ s e3 s) by done.
  unfold kind. by destruct (is_set e3 PTE_P).
Qed.

(** ** What a fresh entry translates to *)
Definition maps_to (w : option (nat * Z)) (va pa : Z) : Prop :=
  exists lvl, pa_of w va = Some (pa, lvl).

Lemma low_bits_lor q r k : 0 <= k -> q mod 2 ^ k = 0 -> Z.lor q (Z.land r (2 ^ k - 1)) = q + r mod 2 ^ k.
Proof.
  intros Hk Hq. rewrite land_low by done. replace q with (q / 2 ^ k * 2 ^ k) by dm_lia.
  apply lor_disjoint; [done|]. apply Z.mod_pos_bound. lia.
Qed.

Lemma flag_bits_mask M flags : Z.land (u64 (Z.lnot ADDR_MASK)) M = 0 -> Z.land (Z.land flags (u64 (Z.lnot ADDR_MASK))) M = 0.
Proof. intros H. by rewrite <- Z.land_assoc, H, Z.land_0_r. Qed.

Lemma pte_4k_pa pa flags va : pa mod 4096 = 0 -> 0 <= pa < 2 ^ 46 ->
  pa_of (Some (3%nat, pte_4k pa flags)) va = Some (pa + va mod 4096, 1).
Proof.
  intros Hal Hb. unfold pa_of, pte_4k. rewrite !Z.land_lor_distr_l, flag_bits_mask by done.
  rewrite !(frame_mask_addr pa) by done. change (Z.land PTE_P ADDR_MASK) with 0. rewrite !Z.lor_0_r.
  unfold PAGE_SIZE. change 4096 with (2 ^ 12) at 1. by rewrite low_bits_lor by (done || lia).
Qed.

Lemma mask_2m pa : pa mod 2 ^ 21 = 0 -> 0 <= pa < 2 ^ 46 -> Z.land pa ADDR_MASK_2M = pa.
Proof.
  intros Hal Hb. change ADDR_MASK_2M with (Z.land ADDR_MASK (Z.lnot (2 ^ 13 - 1))).
  rewrite Z.land_assoc, (frame_mask_addr pa) by dm_lia.
  apply Z.bits_inj'. intros n Hn. rewrite Z.land_spec, Z.lnot_spec by done.
  replace pa with (pa / 2 ^ 21 * 2 ^ 21) by (change (2 ^ 21) with 2097152; dm_lia).
  destruct (decide (n < 21)); [by rewrite Z.mul_pow2_bits_low by lia|].
  replace (Z.testbit (2 ^ 13 - 1) n) with false; [by rewrite andb_true_r|].
  symmetry. change (2 ^ 13 - 1) with (Z.ones 13). apply Z.ones_spec_high. lia.
Qed.

Lemma pte_2m_pa pa flags va : pa mod 2 ^ 21 = 0 -> 0 <= pa < 2 ^ 46 ->
  pa_of (Some (2%nat, pte_2m pa flags)) va = Some (pa + va mod 2 ^ 21, 2).
Proof.
  intros Hal Hb. unfold pa_of, pte_2m. rewrite !Z.land_lor_distr_l, flag_bits_mask by done.
  rewrite !(mask_2m pa) by done.
  change (Z.land PTE_P ADDR_MASK_2M) with 0. change (Z.land PTE_W ADDR_MASK_2M) with 0.
  change (Z.land PTE_PS ADDR_MASK_2M) with 0. rewrite !Z.lor_0_r.
  change (PAGE_2M_SIZE - 1) with (2 ^ 21 - 1). by rewrite low_bits_lor by (done || lia).
Qed.

(** ** Ranges *)

(** Addresses closer than 2^47 share a page (a 2 MiB region) when they agree on
    all (on the first three) indices. *)
Lemma near_path u v : -2 ^ 47 < u - v < 2 ^ 47 -> path_of u = path_of v <-> u / 4096 = v / 4096.
Proof. intros Hd. rewrite path_same. split; [|by intros ->]. intros He. dm_lia. Qed.

Lemma near_path_2m u v : -2 ^ 47 < u - v < 2 ^ 47 ->
  take 3 (path_of u) = take 3 (path_of v) <-> u / 2 ^ 21 = v / 2 ^ 21.
Proof.
  intros Hd. rewrite !path_eq. cbn [take].
  assert (Hq : forall z, z / 2 ^ 39 mod 512 = z / 2 ^ 21 / 2 ^ 18 mod 512 /\ z / 2 ^ 30 mod 512 = z / 2 ^ 21 / 2 ^ 9 mod 512)
    by (intros z; dm_lia).
  split.
  - intros [= E0 E1 E2]. destruct (Hq u) as [Q1 Q2], (Hq v) as [Q3 Q4]. rewrite Q1, Q3 in E0. rewrite Q2, Q4 in E1.
    clear Q1 Q2 Q3 Q4 Hq. dm_lia.
  - intros He. destruct (Hq u) as [-> ->], (Hq v) as [-> ->]. by rewrite He.
Qed.

(** From [s0] to [s] the range [\[lo, cur)] has been mapped with offset [delta]
    and entries satisfying [good]; nothing else has changed translation. *)
Record prog (s0 s : pb) (root lo cur delta : Z) (good : Z -> Prop) (own : gmap Z (list Z)) : Prop := {
  pg_inv : binv s root own;
  pg_rest : same_rest s0 s;
  pg_region : forall v, lo <= v < cur -> exists d e lvl,
    walk_of s root v = Some (d, e) /\ pa_of (Some (d, e)) v = Some (v - delta, lvl) /\ good e /\ (2 <= d)%nat;
  pg_others : forall v, (forall u, lo <= u < cur -> path_of u <> path_of v) -> walk_of s root v = walk_of s0 root v;
}.

Lemma prog_start s root own lo delta good : binv s root own -> prog s s root lo lo delta good own.
Proof. intros Hi. constructor; auto with kernel. intros v Hv. lia. Qed.

Lemma prog_fresh s0 s root lo cur delta good own v : prog s0 s root lo cur delta good own ->
  cur / 4096 <= v / 4096 -> cur mod 4096 = 0 -> v - lo < 2 ^ 46 -> walk_of s root v = walk_of s0 root v.
Proof.
  intros Hp Hv Hal Hb. apply (pg_others _ _ _ _ _ _ _ _ Hp). intros u Hu He.
  apply near_path in He; [|dm_lia]. dm_lia.
Qed.

Section one_range.
Context (s0 : pb) (root lo hi delta flags : Z) (good : Z -> Prop).
Hypothesis Hspan : hi - lo <= 2 ^ 46.
Hypothesis Hdelta : delta mod 4096 = 0.
Hypothesis Hpa : 0 <= lo - delta /\ hi - delta <= 2 ^ 46.
Hypothesis Hends : forall v, lo <= v < hi -> ends_below s0 root v 3.

Lemma prog_4k s own cur : (forall pa, good (pte_4k pa flags)) ->
  prog s0 s root lo cur delta good own -> cur mod 4096 = 0 -> lo <= cur -> cur + 4096 <= hi -> 3 <= early_room (pt_early s) ->
  exists s' own', map_4k (root + g_hhdm s) cur (cur - delta) flags s = Ret tt s' /\
    prog s0 s' root lo (cur + 4096) delta good own' /\ early_room (pt_early s) - 3 <= early_room (pt_early s').
Proof.
  intros Hgood Hp Hal H1 H2 Hr.
  assert (Hn : ends_below s root cur 3).
  { intros k e. rewrite (prog_fresh _ _ _ _ _ _ _ _ cur Hp) by lia. apply Hends. lia. }
  destruct (map_4k_spec s root own cur (cur - delta) flags (pg_inv _ _ _ _ _ _ _ _ Hp) Hn Hr)
    as (s' & own' & E & Hi' & Hs' & Hw & Hroom).
  exists s', own'. split; [done|]. split; [|done]. constructor.
  - done.
  - eapply same_rest_trans; [exact (pg_rest _ _ _ _ _ _ _ _ Hp)|done].
  - intros v Hv. rewrite Hw. case_decide as Hd.
    + apply near_path in Hd; [|lia]. exists 3%nat, (pte_4k (cur - delta) flags), 1. split_and!; [done| |auto|lia].
      rewrite pte_4k_pa by dm_lia. f_equal. f_equal. dm_lia.
    + apply (pg_region _ _ _ _ _ _ _ _ Hp). rewrite near_path in Hd by lia. dm_lia.
  - intros v Hv. rewrite Hw, decide_False.
    + apply (pg_others _ _ _ _ _ _ _ _ Hp). intros u Hu. apply Hv. lia.
    + intros He. apply (Hv cur); [lia|done].
Qed.

Lemma prog_2m s own cur : (forall pa, good (pte_2m pa flags)) ->
  prog s0 s root lo cur delta good own -> cur mod 2 ^ 21 = 0 -> delta mod 2 ^ 21 = 0 -> lo <= cur -> cur + 2 ^ 21 <= hi ->
  2 <= early_room (pt_early s) ->
  exists s' own', map_2m (root + g_hhdm s) cur (cur - delta) flags s = Ret tt s' /\
    prog s0 s' root lo (cur + 2 ^ 21) delta good own' /\ early_room (pt_early s) - 2 <= early_room (pt_early s').
Proof.
  intros Hgood Hp Hal Hd2 H1 H2 Hr.
  assert (Hn : ends_below s root cur 2).
  { intros k e. rewrite (prog_fresh _ _ _ _ _ _ _ _ cur Hp) by (lia || dm_lia). intros Hk.
    apply (Hends cur ltac:(lia)) in Hk. lia. }
  destruct (map_2m_spec s root own cur (cur - delta) flags (pg_inv _ _ _ _ _ _ _ _ Hp) Hn Hr)
    as (s' & own' & E & Hi' & Hs' & Hw & Hroom).
  exists s', own'. split; [done|]. split; [|done]. constructor.
  - done.
  - eapply same_rest_trans; [exact (pg_rest _ _ _ _ _ _ _ _ Hp)|done].
  - intros v Hv. rewrite Hw. case_decide as Hd.
    + apply near_path_2m in Hd; [|lia]. exists 2%nat, (pte_2m (cur - delta) flags), 2. split_and!; [done| |auto|lia].
      rewrite pte_2m_pa by dm_lia. f_equal. f_equal. dm_lia.
    + apply (pg_region _ _ _ _ _ _ _ _ Hp). rewrite near_path_2m in Hd by lia. dm_lia.
  - intros v Hv. rewrite Hw, decide_False.
    + apply (pg_others _ _ _ _ _ _ _ _ Hp). intros u Hu. apply Hv. lia.
    + intros He. set (u := cur + v mod 2 ^ 21). apply (Hv u); [unfold u; dm_lia|].
      rewrite !path_eq in *. cbn [take] in He. injection He as E0 E1 E2. unfold u.
      f_equal; [dm_lia|f_equal; [dm_lia|f_equal; [dm_lia|f_equal; dm_lia]]].
Qed.
End one_range.

(** A loop that advances both addresses by [step], each round one [prog] step that
    costs at most [c] tables. *)
Lemma step_loop s0 root lo delta good step c cond (body : Z * Z -> K pb (Z * Z)) n : forall fuel a s own,
  (n <= fuel)%nat -> prog s0 s root lo a delta good own -> 0 <= c -> c * Z.of_nat n <= early_room (pt_early s) ->
  (forall j, 0 <= j < Z.of_nat n -> cond (a + step * j, a + step * j - delta) = true) ->
  cond (a + step * Z.of_nat n, a + step * Z.of_nat n - delta) = false ->
  (forall j s own, 0 <= j < Z.of_nat n -> prog s0 s root lo (a + step * j) delta good own -> c <= early_room (pt_early s) ->
     exists s' own', body (a + step * j, a + step * j - delta) s = Ret (a + step * j + step, a + step * j + step - delta) s' /\
       prog s0 s' root lo (a + step * j + step) delta good own' /\
       early_room (pt_early s) - c <= early_room (pt_early s')) ->
  exists s' own', while_loop fuel cond body (a, a - delta) s =
      Ret (a + step * Z.of_nat n, a + step * Z.of_nat n - delta) s' /\
    prog s0 s' root lo (a + step * Z.of_nat n) delta good own' /\
    early_room (pt_early s) - c * Z.of_nat n <= early_room (pt_early s').
Proof.
  induction n as [|n IH]; intros fuel a s own Hf Hp Hc Hroom Ht Hs Hb.
  - replace (a + step * Z.of_nat 0) with a in * by lia. exists s, own. split_and!; [|done|lia].
    destruct fuel; simpl; by rewrite Hs.
  - destruct fuel as [|fuel]; [lia|]. simpl while_loop.
    pose proof (Ht 0 ltac:(lia)) as Ht0. replace (a + step * 0) with a in Ht0 by lia. rewrite Ht0.
    destruct (Hb 0 s own ltac:(lia)) as (s1 & own1 & E1 & Hp1 & Hr1).
    { by replace (a + step * 0) with a by lia. } { nia. }
    replace (a + step * 0) with a in * by lia. rewrite (bind_Ret _ _ _ _ _ E1).
    destruct (IH fuel (a + step) s1 own1 ltac:(lia) Hp1 Hc) as (s2 & own2 & E2 & Hp2 & Hr2).
    + nia.
    + intros j Hj. specialize (Ht (j + 1) ltac:(lia)). by replace (a + step + step * j) with (a + step * (j + 1)) by lia.
    + by replace (a + step + step * Z.of_nat n) with (a + step * Z.of_nat (S n)) by lia.
    + intros j s' own' Hj. specialize (Hb (j + 1) s' own' ltac:(lia)).
      by replace (a + step + step * j) with (a + step * (j + 1)) by lia.
    + exists s2, own2. replace (a + step * Z.of_nat (S n)) with (a + step + step * Z.of_nat n) by lia. split_and!; [done|done|nia].
Qed.

Lemma rounds_enough lo hi step n : 0 < step -> hi = lo + step * Z.of_nat n -> (n <= rounds lo hi step)%nat.
Proof.
  intros Hs ->. unfold rounds. replace (lo + step * Z.of_nat n - lo + step - 1) with (step - 1 + Z.of_nat n * step) by lia.
  rewrite Z.div_add by lia. rewrite (Z.div_small (step - 1)) by lia. lia.
Qed.

Lemma map_range_4k_spec s root own va pa n flags (good : Z -> Prop) :
  binv s root own -> va mod 4096 = 0 -> pa mod 4096 = 0 -> 0 <= va -> va + 4096 * Z.of_nat n < 2 ^ 64 ->
  0 <= pa -> pa + 4096 * Z.of_nat n <= 2 ^ 46 ->
  (forall v, va <= v < va + 4096 * Z.of_nat n -> ends_below s root v 3) -> (forall f, good (pte_4k f flags)) ->
  3 * Z.of_nat n <= early_room (pt_early s) ->
  exists s' own', map_range_4k (root + g_hhdm s) va pa (4096 * Z.of_nat n) flags s = Ret tt s' /\
    prog s s' root va (va + 4096 * Z.of_nat n) (va - pa) good own' /\
    early_room (pt_early s) - 3 * Z.of_nat n <= early_room (pt_early s').
Proof.
  intros Hi Hva Hpa Hva0 Hva1 Hpa0 Hpa1 Hends Hgood Hr. unfold map_range_4k. set (hi := va + 4096 * Z.of_nat n) in *.
  rewrite (wrap_small 64 hi) by lia. replace (va, pa) with (va, va - (va - pa)) by (f_equal; lia).
  destruct (step_loop s root va (va - pa) good 4096 3 (fun '(v, _) => v <? hi)
    (fun '(v, p) => do! map_4k (root + g_hhdm s) v p flags in ret (u64 (v + PAGE_SIZE), u64 (p + PAGE_SIZE)))
    n (rounds va hi PAGE_SIZE) va s own) as (s' & own' & E & Hp & Hroom); try done.
  - by apply rounds_enough.
  - by apply prog_start.
  - intros j Hj. apply Z.ltb_lt. unfold hi. lia.
  - apply Z.ltb_ge. unfold hi. lia.
  - intros j s1 own1 Hj Hp1 Hr1.
    destruct (prog_4k s root va hi (va - pa) flags good ltac:(unfold hi; lia) ltac:(dm_lia) ltac:(unfold hi; lia) Hends
      s1 own1 (va + 4096 * j) Hgood Hp1) as (s2 & own2 & E2 & Hp2 & Hr2); try lia; [dm_lia|].
    exists s2, own2. pose proof (pg_rest _ _ _ _ _ _ _ _ Hp1) as (Hh & _). rewrite Hh in E2.
    rewrite (bind_Ret _ _ _ _ _ E2). unfold ret, PAGE_SIZE. rewrite !wrap_small by lia.
    split_and!; try done. do 2 f_equal. lia.
  - rewrite (bind_Ret _ _ _ _ _ E). by exists s', own'.
Qed.

Lemma both_aligned x y : (Z.land (Z.lor x y) (PAGE_2M_SIZE - 1) =? 0) = (x mod 2 ^ 21 =? 0) && (y mod 2 ^ 21 =? 0).
Proof.
  change (PAGE_2M_SIZE - 1) with (2 ^ 21 - 1). rewrite Z.land_lor_distr_l, !land_low by lia.
  destruct (Z.eqb_spec (x mod 2 ^ 21) 0) as [Hx|Hx]; destruct (Z.eqb_spec (y mod 2 ^ 21) 0) as [Hy|Hy]; simpl.
  - by rewrite Hx, Hy.
  - rewrite (proj2 (Z.eqb_neq _ _)); [done|]. by intros [_ ?]%Z.lor_eq_0_iff.
  - rewrite (proj2 (Z.eqb_neq _ _)); [done|]. by intros [? _]%Z.lor_eq_0_iff.
  - rewrite (proj2 (Z.eqb_neq _ _)); [done|]. by intros [? _]%Z.lor_eq_0_iff.
Qed.

(** Writable and not executable. *)
Definition rw_nx (e : Z) : Prop := is_set e PTE_W = true /\ is_set e PTE_NX = true.

Lemma pte_4k_rw_nx f flags : is_set (Z.land flags (u64 (Z.lnot ADDR_MASK))) PTE_W = true ->
  is_set (Z.land flags (u64 (Z.lnot ADDR_MASK))) PTE_NX = true -> rw_nx (pte_4k f flags).
Proof. intros HW HN. unfold rw_nx, pte_4k. rewrite !is_set_lor, HW, HN, !orb_true_r. done. Qed.

Lemma pte_2m_rw_nx f flags : is_set (Z.land flags (u64 (Z.lnot ADDR_MASK))) PTE_NX = true -> rw_nx (pte_2m f flags).
Proof.
  intros HN. unfold rw_nx, pte_2m. rewrite !is_set_lor, HN. change (is_set PTE_W PTE_W) with true.
  by rewrite !orb_true_r.
Qed.

(** The direct-map range [\[hh + pa, hh + pa + len)]. *)
Section huge_first.
Context (s0 : pb) (root pa len : Z) (own0 : gmap Z (list Z)).
Let hh := g_hhdm s0.
Let lo := hh + pa.
Let hi := hh + pa + len.
Hypothesis Hi0 : binv s0 root own0.
Hypothesis Hhh : hh mod 2 ^ 21 = 0.
Hypothesis Hpa : pa mod 4096 = 0 /\ 0 <= pa.
Hypothesis Hlen : len mod 4096 = 0 /\ 0 <= len.
Hypothesis Hmax : pa + len <= 2 ^ 46.
Hypothesis Hends : forall v, lo <= v < hi -> ends_below s0 root v 3.

Let head := Z.min len ((- pa) mod 2 ^ 21).
Let n2 := (len - head) / 2 ^ 21.
Let tail := len - head - 2 ^ 21 * n2.
Let flags4 := Z.lor (Z.lor 0 PTE_W) PTE_NX.

Lemma small_step s own cur : prog s0 s root lo cur hh rw_nx own -> cur mod 4096 = 0 -> lo <= cur -> cur + 4096 <= hi ->
  3 <= early_room (pt_early s) ->
  exists s' own', map_small (root + hh) 0 (cur, cur - hh) s = Ret (cur + 4096, cur + 4096 - hh) s' /\
    prog s0 s' root lo (cur + 4096) hh rw_nx own' /\ early_room (pt_early s) - 3 <= early_room (pt_early s').
Proof.
  intros Hp Hal H1 H2 Hr. destruct (bi_hh _ _ _ Hi0) as [Hh1 Hh2]. fold hh in Hh1, Hh2.
  destruct (prog_4k s0 root lo hi hh flags4 rw_nx ltac:(unfold hi, lo; lia) ltac:(clear - Hhh; dm_lia)
    ltac:(unfold lo, hi; lia) Hends s own cur) as (s' & own' & E & Hp' & Hr'); try done.
  { intros f. by apply pte_4k_rw_nx. }
  exists s', own'. pose proof (pg_rest _ _ _ _ _ _ _ _ Hp) as (Hh & _). rewrite Hh in E. fold hh in E.
  unfold map_small. rewrite (bind_Ret _ _ _ _ _ E). unfold ret, PAGE_SIZE. unfold hi, lo in *.
  rewrite !wrap_small by lia. split_and!; try done. do 2 f_equal. lia.
Qed.

Lemma head_facts : 0 <= head <= len /\ head mod 4096 = 0 /\ head < 2 ^ 21 /\ (head < len -> (pa + head) mod 2 ^ 21 = 0) /\
  (forall x, 0 <= x < head -> (pa + x) mod 2 ^ 21 <> 0) /\ 0 <= n2 /\ 0 <= tail < 2 ^ 21 /\ tail mod 4096 = 0 /\
  n2 <= len / 2 ^ 21.
Proof.
  unfold tail, n2, head. destruct Hpa, Hlen. change (2 ^ 21) with 2097152. split_and!; try dm_lia; intros; dm_lia.
Qed.

Lemma huge_first_spec : 3 * (1024 + len / 2 ^ 21) <= early_room (pt_early s0) ->
  exists s' own', map_range_huge_first (root + hh) (u64 (hh + pa)) pa len 0 s0 = Ret tt s' /\
    prog s0 s' root lo hi hh rw_nx own' /\
    early_room (pt_early s0) - 3 * (1024 + len / 2 ^ 21) <= early_room (pt_early s').
Proof.
  intros Hr. destruct (bi_hh _ _ _ Hi0) as [Hh1 Hh2]. fold hh in Hh1, Hh2.
  destruct head_facts as (Hhd & Hhdal & Hhd2 & Hbd & Hnb & Hn2 & Htl & Htlal & Hn2le).
  unfold map_range_huge_first. rewrite (wrap_small 64 (hh + pa)), (wrap_small 64 (pa + len)) by lia. fold lo.
  replace (lo, pa) with (lo, lo - hh) by (unfold lo; f_equal; lia).
  set (end_ := pa + len).
  set (k1 := Z.to_nat (head / 4096)). assert (Hk1 : 4096 * Z.of_nat k1 = head) by (unfold k1; dm_lia).
  destruct (step_loop s0 root lo hh rw_nx 4096 3
    (fun '(va, pa) => (pa <? end_) && negb (Z.land (Z.lor pa va) (PAGE_2M_SIZE - 1) =? 0))
    (map_small (root + hh) 0) k1 (rounds pa end_ PAGE_SIZE) lo s0 own0) as (s1 & own1 & E1 & Hp1 & Hr1).
  { unfold rounds, PAGE_SIZE, end_. assert (Z.of_nat k1 <= (pa + len - pa + 4096 - 1) / 4096) by dm_lia. lia. }
  { by apply prog_start. } { lia. } { lia. }
  { intros j Hj. rewrite both_aligned. apply andb_true_intro. split; [apply Z.ltb_lt; unfold lo, end_; lia|].
    specialize (Hnb (4096 * j) ltac:(lia)). rewrite (proj2 (Z.eqb_neq _ _)); [done|].
    replace (lo + 4096 * j - hh) with (pa + 4096 * j) by (unfold lo; lia). done. }
  { rewrite both_aligned, Hk1. destruct (Z.eqb_spec head len) as [He|He].
    - rewrite (proj2 (Z.ltb_ge _ _)); [done|]. unfold lo, end_. lia.
    - specialize (Hbd ltac:(lia)). replace (lo + head - hh) with (pa + head) by (unfold lo; lia).
      replace (lo + head) with (hh + (pa + head)) by (unfold lo; lia).
      rewrite Hbd, (proj2 (Z.eqb_eq ((hh + (pa + head)) mod 2 ^ 21) 0)); [by rewrite andb_false_r|].
      rewrite Z.add_mod, Hhh, Hbd by lia. done. }
  { intros j s own Hj Hp Hrm. apply (small_step s own); try done; unfold lo, hi in *; dm_lia. }
  rewrite (bind_Ret _ _ _ _ _ E1), Hk1. cbv beta iota. rewrite Hk1 in Hp1.
  set (k2 := Z.to_nat n2). assert (Hk2 : Z.of_nat k2 = n2) by lia. set (a1 := lo + head) in *.
  destruct (step_loop s0 root lo hh rw_nx (2 ^ 21) 2 (fun '(_, pa) => u64 (pa + PAGE_2M_SIZE) <=? end_)
    (fun '(va, pa) => do! map_2m (root + hh) va pa (Z.lor 0 PTE_NX) in ret (u64 (va + PAGE_2M_SIZE), u64 (pa + PAGE_2M_SIZE)))
    k2 (rounds (a1 - hh) end_ PAGE_2M_SIZE) a1 s1 own1) as (s2 & own2 & E2 & Hp2 & Hr2).
  { unfold rounds, PAGE_2M_SIZE, end_, a1, lo. assert (n2 <= (pa + len - (hh + pa + head - hh) + 2 * 1024 * 1024 - 1) / (2 * 1024 * 1024))
      by (unfold n2; change (2 ^ 21) with 2097152; dm_lia). lia. }
  { done. } { lia. } { lia. }
  { intros j Hj. change PAGE_2M_SIZE with (2 ^ 21). unfold a1, lo. apply Z.leb_le. unfold end_, tail in *.
    change (2 ^ 21) with 2097152 in *. rewrite wrap_small; lia. }
  { change PAGE_2M_SIZE with (2 ^ 21). unfold a1, lo. apply Z.leb_gt. unfold end_, tail in *.
    change (2 ^ 21) with 2097152 in *. rewrite wrap_small; lia. }
  { intros j s own Hj Hp Hrm.
    assert (Hal1 : (pa + head) mod 2 ^ 21 = 0) by (apply Hbd; unfold tail in *; change (2 ^ 21) with 2097152 in *; lia).
    assert (Hal : (a1 + 2 ^ 21 * j) mod 2 ^ 21 = 0).
    { unfold a1, lo. replace (hh + pa + head + 2 ^ 21 * j) with (hh + (pa + head) + j * 2 ^ 21) by lia.
      rewrite Z.mod_add, Z.add_mod, Hhh, Hal1 by lia. done. }
    assert (Hfit : a1 + 2 ^ 21 * j + 2 ^ 21 <= hi) by (unfold a1, hi, lo, tail in *; change (2 ^ 21) with 2097152 in *; lia).
    destruct (prog_2m s0 root lo hi hh (Z.lor 0 PTE_NX) rw_nx ltac:(unfold hi, lo; lia) ltac:(clear - Hhh; dm_lia)
      ltac:(unfold lo, hi; lia) Hends
      s own (a1 + 2 ^ 21 * j)) as (s' & own' & E & Hp' & Hr'); try done; [by intros f; apply pte_2m_rw_nx|unfold a1; lia|].
    exists s', own'. pose proof (pg_rest _ _ _ _ _ _ _ _ Hp) as (Hh & _). rewrite Hh in E. fold hh in E.
    rewrite (bind_Ret _ _ _ _ _ E). unfold ret. change PAGE_2M_SIZE with (2 ^ 21). unfold a1, hi, lo in *.
    rewrite !wrap_small by lia. split_and!; try done. do 2 f_equal. lia. }
  rewrite (bind_Ret _ _ _ _ _ E2), Hk2. cbv beta iota. rewrite Hk2 in Hp2, Hr2. set (a2 := a1 + 2 ^ 21 * n2) in *.
  set (k3 := Z.to_nat (tail / 4096)). assert (Hk3 : 4096 * Z.of_nat k3 = tail) by (unfold k3; dm_lia).
  assert (Ha2 : a2 + tail = hi) by (unfold a2, a1, hi, lo, tail; lia).
  assert (Ha2al : a2 mod 4096 = 0) by (unfold a2, a1, lo; change (2 ^ 21) with 2097152 in *; dm_lia).
  destruct (step_loop s0 root lo hh rw_nx 4096 3 (fun '(_, pa) => pa <? end_) (map_small (root + hh) 0)
    k3 (rounds (a2 - hh) end_ PAGE_SIZE) a2 s2 own2) as (s3 & own3 & E3 & Hp3 & Hr3).
  { apply rounds_enough; [done|]. unfold PAGE_SIZE, end_, hi in *. lia. }
  { done. } { lia. } { lia. }
  { intros j Hj. apply Z.ltb_lt. unfold end_, hi in *. lia. }
  { apply Z.ltb_ge. unfold end_, hi in *. lia. }
  { intros j s own Hj Hp Hrm. apply (small_step s own); try done; unfold a2, a1 in *; try lia; dm_lia. }
  rewrite (bind_Ret _ _ _ _ _ E3). exists s3, own3. split; [done|]. rewrite Hk3, Ha2 in Hp3. split; [done|]. lia.
Qed.
End huge_first.

(** ** The direct map *)

(** The page-rounded physical range of a memory-map entry. *)
Definition pg_lo (e : limine_memmap_entry) : Z := 4096 * (me_base e / 4096).
Definition pg_hi (e : limine_memmap_entry) : Z := 4096 * ((me_base e + me_length e + 4095) / 4096).
Definition in_range (e : limine_memmap_entry) (phys : Z) : Prop :=
  hhdm_include (me_type e) = true /\ pg_lo e <= phys < pg_hi e.
Definition tables_for (e : limine_memmap_entry) : Z := 3 * (1024 + (pg_hi e - pg_lo e) / 2 ^ 21).

(** Physical address [phys] is reached at [hh + phys], writable and not
    executable. *)
Definition hhdm_covers (s : pb) (root phys : Z) : Prop :=
  exists d e lvl, walk_of s root (g_hhdm s + phys) = Some (d, e) /\
    pa_of (Some (d, e)) (g_hhdm s + phys) = Some (phys, lvl) /\ rw_nx e /\ (2 <= d)%nat.

Definition mem_ok (e : limine_memmap_entry) : Prop :=
  entry_ok e /\ (hhdm_include (me_type e) = true -> pg_hi e <= 2 ^ 46).

(** Page-rounded ranges of different entries of the direct map do not meet; entries
    that are left out of it may lie anywhere. *)
Definition apart (e e' : limine_memmap_entry) : Prop :=
  hhdm_include (me_type e) = true -> hhdm_include (me_type e') = true -> pg_hi e <= pg_lo e' \/ pg_hi e' <= pg_lo e.

(** What mapping one entry does to the direct map. *)
Definition adds_range (s : pb) (root : Z) (e : limine_memmap_entry) (s' : pb) : Prop :=
  (forall phys, in_range e phys -> hhdm_covers s' root phys) /\
  (forall v, (forall phys, in_range e phys -> path_of (g_hhdm s + phys) <> path_of v) -> walk_of s' root v = walk_of s root v).

Lemma map_hhdm_entry_spec s root own e :
  binv s root own -> g_hhdm s mod 2 ^ 21 = 0 -> mem_ok e ->
  (forall phys, in_range e phys -> ends_below s root (g_hhdm s + phys) 3) ->
  tables_for e <= early_room (pt_early s) ->
  exists s' own', map_hhdm_entry (root + g_hhdm s) e s = Ret tt s' /\ binv s' root own' /\ same_rest s s' /\
    adds_range s root e s' /\ early_room (pt_early s) - tables_for e <= early_room (pt_early s').
Proof.
  intros Hi Hhh [(Hb & Hl & Hmax) Hmem] Hends Hr. unfold map_hhdm_entry. rewrite bind_get.
  assert (Hlo : ALIGN_DOWN (me_base e) PAGE_SIZE = pg_lo e) by (apply ALIGN_DOWN_page; lia).
  assert (Hhi : ALIGN_UP (u64 (me_base e + me_length e)) PAGE_SIZE = pg_hi e)
    by (rewrite wrap_small, ALIGN_UP_page by lia; done).
  assert (Hord : pg_lo e <= pg_hi e) by (unfold pg_lo, pg_hi; dm_lia).
  assert (Ht : 0 <= tables_for e).
  { unfold tables_for. assert (0 <= (pg_hi e - pg_lo e) / 2 ^ 21) by (apply Z.div_pos; lia). lia. }
  assert (Hskip : (hhdm_include (me_type e) = true -> pg_hi e <= pg_lo e) -> adds_range s root e s).
  { intros Hno. split; [|done]. intros phys [Hin Hp]. specialize (Hno Hin). lia. }
  destruct (hhdm_include (me_type e)) eqn:Einc; cbn [negb].
  2: { exists s, own. split_and!; [done|done|auto with kernel|by apply Hskip|lia]. }
  rewrite Hlo, Hhi. destruct (Z.leb_spec (pg_hi e) (pg_lo e)) as [He|He].
  { exists s, own. split_and!; [done|done|auto with kernel|by apply Hskip|lia]. }
  specialize (Hmem eq_refl). assert (Hlo0 : 0 <= pg_lo e) by (unfold pg_lo; dm_lia).
  rewrite (wrap_small 64 (pg_hi e - pg_lo e)) by lia.
  destruct (huge_first_spec s root (pg_lo e) (pg_hi e - pg_lo e) own Hi Hhh) as (s' & own' & E & Hp & Hroom).
  { unfold pg_lo. split; dm_lia. } { unfold pg_hi, pg_lo in *. split; dm_lia. } { lia. }
  { intros v Hv. replace v with (g_hhdm s + (v - g_hhdm s)) by lia. apply Hends. split; [done|lia]. } { done. }
  exists s', own'. split; [exact E|]. destruct Hp as [Hi' Hs' Hreg Hoth]. pose proof Hs' as (Hh & _).
  split; [done|split; [done|split; [split|done]]].
  - intros phys [_ Hin]. destruct (Hreg (g_hhdm s + phys) ltac:(lia)) as (d & en & lvl & H1 & H2 & H3 & H4).
    unfold hhdm_covers. rewrite Hh. exists d, en, lvl. split_and!; try done.
    by replace (g_hhdm s + phys - g_hhdm s) with phys in H2 by lia.
  - intros v Hv. apply Hoth. intros u Hu. replace u with (g_hhdm s + (u - g_hhdm s)) by lia. apply Hv. split; [done|lia].
Qed.

(** Two direct-map addresses with the same indices are on the same page. *)
Lemma range_path hh e phys x : hh mod 2 ^ 21 = 0 -> mem_ok e -> in_range e phys -> 0 <= x < 2 ^ 46 -> ~ in_range e x -> path_of (hh + phys) <> path_of (hh + x).
Proof.
  intros Hhh Hok Hp Hx Hn He. apply Hn. destruct Hok as [(?&?&?) Hm]. destruct Hp as [Hin Hp]. specialize (Hm Hin).
  apply near_path in He; [|unfold pg_lo in *; dm_lia]. split; [done|]. unfold pg_lo, pg_hi in *. dm_lia.
Qed.

Definition total_tables (es : list limine_memmap_entry) : Z := foldr (fun e n => tables_for e + n) 0 es.

Lemma hhdm_covers_walk s s' root phys : g_hhdm s' = g_hhdm s ->
  walk_of s' root (g_hhdm s + phys) = walk_of s root (g_hhdm s + phys) -> hhdm_covers s root phys -> hhdm_covers s' root phys.
Proof. intros Hh Hw. unfold hhdm_covers. by rewrite Hh, Hw. Qed.

Lemma in_range_bound e phys : mem_ok e -> in_range e phys -> 0 <= phys < 2 ^ 46.
Proof. intros [(?&?&?) Hm] [Hin Hp]. specialize (Hm Hin). unfold pg_lo in *. dm_lia. Qed.

Lemma tables_nonneg e : mem_ok e -> 0 <= tables_for e.
Proof.
  intros [(?&?&?) _]. unfold tables_for. assert (0 <= (pg_hi e - pg_lo e) / 2 ^ 21); [|lia].
  apply Z.div_pos; [|lia]. unfold pg_hi, pg_lo. dm_lia.
Qed.

Lemma map_hhdm_entries es : forall s root own, binv s root own -> g_hhdm s mod 2 ^ 21 = 0 -> Forall mem_ok es ->
  ForallOrdPairs apart es ->
  (forall e phys, e ∈ es -> in_range e phys -> ends_below s root (g_hhdm s + phys) 3) ->
  total_tables es <= early_room (pt_early s) ->
  exists s' own', for_each es (map_hhdm_entry (root + g_hhdm s)) s = Ret tt s' /\ binv s' root own' /\ same_rest s s' /\
    (forall e phys, e ∈ es -> in_range e phys -> hhdm_covers s' root phys) /\
    (forall v, (forall e phys, e ∈ es -> in_range e phys -> path_of (g_hhdm s + phys) <> path_of v) ->
       walk_of s' root v = walk_of s root v) /\
    early_room (pt_early s) - total_tables es <= early_room (pt_early s').
Proof.
  induction es as [|e es IH]; intros s root own Hi Hhh Hok Hap Hends Hr.
  { exists s, own. split_and!; auto with kernel; [intros e phys He; by apply elem_of_nil in He|simpl; lia]. }
  apply Forall_cons in Hok as [He Hok]. inversion_clear Hap as [|? ? Hap1 Hap2]. simpl in Hr |- *.
  assert (Hrest : 0 <= total_tables es).
  { clear -Hok. induction Hok as [|x l Hx _ IHl]; simpl; [lia|]. pose proof (tables_nonneg x Hx). lia. }
  destruct (map_hhdm_entry_spec s root own e Hi Hhh He) as (s1 & own1 & E1 & Hi1 & Hs1 & [Hcov Hkeep] & Hr1).
  { intros phys Hp. apply (Hends e phys); [left|done]. } { lia. }
  pose proof Hs1 as (Hh1 & _). rewrite (bind_Ret _ _ _ _ _ E1).
  assert (Hdisj : forall e' phys, e' ∈ es -> in_range e' phys -> ~ in_range e phys).
  { intros e' phys He' [Hi' Hp'] [Hie Hp]. destruct (Forall_elem _ _ _ Hap1 He' Hie Hi'); lia. }
  destruct (IH s1 root own1 Hi1) as (s2 & own2 & E2 & Hi2 & Hs2 & Hcov2 & Hkeep2 & Hr2).
  { by rewrite Hh1. } { done. } { done. }
  { intros e' phys He' Hp k en. rewrite Hh1, Hkeep; [apply (Hends e' phys); [by right|done]|]. intros q Hq.
    apply (range_path _ e); try done; [|by eapply Hdisj]. eapply in_range_bound; [|done]. by apply (Forall_elem _ _ _ Hok). }
  { lia. }
  rewrite Hh1 in E2. exists s2, own2. split; [exact E2|]. split; [done|].
  split; [by eapply same_rest_trans|]. pose proof Hs2 as (Hh2 & _). split_and!; [| |lia].
  - intros e' phys Hin Hp. apply elem_of_cons in Hin as [->|Hin]; [|by eapply Hcov2].
    eapply (hhdm_covers_walk s1); [by rewrite Hh2| |by apply Hcov].
    apply Hkeep2. intros e' q He' Hq. pose proof (Forall_elem _ _ _ Hok He') as Hok'. rewrite Hh1.
    apply (range_path _ e'); try done; [by apply (in_range_bound e)|]. intros Hp'. by apply (Hdisj e' phys).
  - intros v Hv. rewrite Hkeep2, Hkeep; [done|intros; apply (Hv e); [left|done]|]. rewrite Hh1. intros e' q He'. apply Hv. by right.
Qed.

(** The physical addresses the direct map covers. *)
Definition hhdm_has (es : list limine_memmap_entry) (phys : Z) : Prop :=
  0 <= phys < 2 ^ 21 \/ exists e, e ∈ es /\ in_range e phys.

Lemma map_hhdm_spec env es s root own :
  memmap_req (be_limine env) = Some es -> es <> [] ->
  binv s root own -> g_hhdm s mod 2 ^ 21 = 0 -> Forall mem_ok es -> ForallOrdPairs apart es ->
  (forall phys, 0 <= phys < 2 ^ 46 -> ends_below s root (g_hhdm s + phys) 3) ->
  total_tables es + 2 <= early_room (pt_early s) ->
  exists s' own', map_hhdm env (root + g_hhdm s) s = Ret tt s' /\ binv s' root own' /\ same_rest s s' /\
    (forall phys, hhdm_has es phys -> hhdm_covers s' root phys) /\
    (forall v, (forall phys, hhdm_has es phys -> path_of (g_hhdm s + phys) <> path_of v) -> walk_of s' root v = walk_of s root v) /\
    early_room (pt_early s) - total_tables es - 2 <= early_room (pt_early s').
Proof.
  intros Hmm Hne Hi Hhh Hok Hap Hends Hr. destruct (bi_hh _ _ _ Hi) as [Hh0 Hhmax].
  unfold map_hhdm. rewrite bind_get, (proj2 (Z.eqb_neq _ _)) by lia. simpl when.
  rewrite (bind_Ret (ret tt) _ _ tt s) by done. rewrite Hmm. destruct es as [|e0 es0]; [done|].
  set (es := e0 :: es0) in *.
  destruct (map_hhdm_entries es s root own Hi Hhh Hok Hap) as (s1 & own1 & E1 & Hi1 & Hs1 & Hcov & Hkeep & Hr1).
  { intros e phys He Hp. apply Hends. eapply in_range_bound; [|done]. by apply (Forall_elem _ _ _ Hok). } { lia. }
  pose proof Hs1 as (Hh1 & _). rewrite (bind_Ret _ _ _ _ _ E1).
  assert (Hends1 : ends_below s1 root (g_hhdm s) 2).
  { intros k en Hw. destruct (decide (Exists (fun e => in_range e 0) es)) as [Hex|Hno].
    - apply List.Exists_exists in Hex as (e & He%list_elem_of_In & Hp).
      destruct (Hcov e 0 He Hp) as (d & en' & lvl & Hw' & _ & _ & Hd). rewrite Hh1, Z.add_0_r in Hw'. congruence.
    - rewrite <- (Z.add_0_r (g_hhdm s)), Hkeep in Hw; [pose proof (Hends 0 ltac:(lia) _ _ Hw); lia|].
      intros e q He Hp. apply (range_path _ e); try done; [by apply (Forall_elem _ _ _ Hok)|].
      intros H0. apply Hno. apply List.Exists_exists. exists e. split; [by apply list_elem_of_In|done]. }
  destruct (map_2m_spec s1 root own1 (g_hhdm s) 0 PTE_NX Hi1 Hends1) as (s2 & own2 & E2 & Hi2 & Hs2 & Hw2 & Hr2); [lia|].
  rewrite Hh1 in E2. pose proof Hs2 as (Hh2 & _). assert (Hh12 : g_hhdm s2 = g_hhdm s) by congruence.
  exists s2, own2. split; [exact E2|]. split; [done|]. split; [by eapply same_rest_trans|]. split_and!; [| |lia].
  - intros phys Hphys.
    assert (Hb : 0 <= phys < 2 ^ 46).
    { destruct Hphys as [?|(e & He & Hp)]; [lia|]. eapply in_range_bound; [|exact Hp]. by apply (Forall_elem _ _ _ Hok). }
    destruct (decide (phys < 2 ^ 21)) as [Hlow|Hlow].
    + exists 2%nat, (pte_2m 0 PTE_NX), 2. rewrite Hh12, Hw2, decide_True.
      2: { apply near_path_2m; [lia|]. change (2 ^ 21) with 2097152 in *. dm_lia. }
      split_and!; [done| |by apply pte_2m_rw_nx|lia]. rewrite pte_2m_pa by (done || lia). do 2 f_equal.
      change (2 ^ 21) with 2097152 in *. dm_lia.
    + destruct Hphys as [?|(e & He & Hp)]; [lia|]. apply (hhdm_covers_walk s1); [done| |by eapply Hcov].
      rewrite Hw2, decide_False; [done|]. rewrite Hh1, near_path_2m by lia.
      change (2 ^ 21) with 2097152 in *. dm_lia.
  - intros v Hv. rewrite Hw2, decide_False; [apply Hkeep; intros e phys He Hp; apply Hv; right; eauto|].
    intros He. apply (Hv (v mod 2 ^ 21)); [left; change (2 ^ 21) with 2097152; dm_lia|].
    rewrite !path_eq in *. cbn [take] in He. injection He as E0' E1' E2'.
    f_equal; [dm_lia|f_equal; [dm_lia|f_equal; [dm_lia|f_equal; dm_lia]]].
Qed.


(** C15. [map_hhdm]: when the direct-map window is still empty of large pages, the
    page-rounded ranges of the memory-map entries of the included types do not meet
    (the other entries may overlap anything) and the early allocator has pages for
    the tables, it returns; afterwards every byte of every included entry, and the
    first 2 MiB, is reached at its direct-map address by the walker, and the
    processor, taking the flags of all levels of the walk together, allows it to be
    written and not to be executed. *)
Theorem map_hhdm_correct env es s root own :
  memmap_req (be_limine env) = Some es -> es <> [] ->
  binv s root own -> g_hhdm s mod 2 ^ 21 = 0 -> Forall mem_ok es -> ForallOrdPairs apart es ->
  (forall phys, 0 <= phys < 2 ^ 46 -> ends_below s root (g_hhdm s + phys) 3) ->
  total_tables es + 2 <= early_room (pt_early s) ->
  exists s' own', map_hhdm env (root + g_hhdm s) s = Ret tt s' /\ binv s' root own' /\ same_rest s s' /\
    forall phys, 0 <= phys < 2 ^ 21 \/ (exists e, e ∈ es /\ in_range e phys) ->
      hhdm_covers s' root phys /\ (exists u, rights_of s' root (g_hhdm s + phys) = Some (Access true u false)) /\
      exists lvl, walk_va_to_pa (g_hhdm s + phys) (root + g_hhdm s) s' = Ret (Some (phys, lvl)) s'.
Proof.
  intros Hmm Hne Hi Hhh Hok Hap Hends Hr.
  destruct (map_hhdm_spec env es s root own Hmm Hne Hi Hhh Hok Hap Hends Hr) as (s' & own' & E & Hi' & Hs' & Hc & _).
  exists s', own'. split; [exact E|]. split; [done|]. split; [done|]. intros phys Hp. specialize (Hc phys Hp). split; [done|].
  destruct Hs' as (Hh & _), Hc as (d & e & lvl & Hw & Hpa & [HW HN] & _). split.
  { rewrite Hh in Hw. destruct (rights_of_walk _ _ _ _ _ _ Hi' Hw) as [u ->]. rewrite HW, HN. by exists u. }
  exists lvl. rewrite <- Hh, (walk_va_to_pa_eq s' root own' _ Hi'). by rewrite Hw, Hpa.
Qed.

(** ** The kernel image *)
Definition perm (w nx : bool) (e : Z) : Prop := is_set e PTE_W = w /\ is_set e PTE_NX = nx.

Lemma pte_4k_perm f flags : perm (is_set (Z.land flags (u64 (Z.lnot ADDR_MASK))) PTE_W)
  (is_set (Z.land flags (u64 (Z.lnot ADDR_MASK))) PTE_NX) (pte_4k f flags).
Proof.
  assert (Haddr : forall b, Z.land ADDR_MASK b = 0 -> is_set (Z.land f ADDR_MASK) b = false).
  { intros b Hb. unfold is_set. by rewrite <- Z.land_assoc, Hb, Z.land_0_r. }
  unfold perm, pte_4k. rewrite !is_set_lor, !Haddr by done.
  change (is_set PTE_P PTE_W) with false. change (is_set PTE_P PTE_NX) with false. by rewrite !orb_false_r.
Qed.

(** The three sections, page-rounded, in the order of the linker script. *)
Record layout (env : boot_env) (ka : limine_kernel_address) (t0 t1 r0 r1 d0 d1 : Z) : Prop := {
  ly_t0 : ALIGN_DOWN (text_start env) PAGE_SIZE = 4096 * t0;
  ly_t1 : ALIGN_UP (text_end env) PAGE_SIZE = 4096 * t1;
  ly_r0 : ALIGN_DOWN (rodata_start env) PAGE_SIZE = 4096 * r0;
  ly_r1 : ALIGN_UP (rodata_end env) PAGE_SIZE = 4096 * r1;
  ly_d0 : ALIGN_DOWN (data_start env) PAGE_SIZE = 4096 * d0;
  ly_d1 : ALIGN_UP (bss_end env) PAGE_SIZE = 4096 * d1;
  ly_order : 0 <= t0 < t1 /\ t1 <= r0 < r1 /\ r1 <= d0 < d1;
  ly_virt : virtual_base ka mod 4096 = 0 /\ 0 <= virtual_base ka <= 4096 * t0 /\ 4096 * d1 < 2 ^ 64;
  ly_phys : physical_base ka mod 4096 = 0 /\ 0 <= physical_base ka /\
    physical_base ka + (4096 * d1 - virtual_base ka) <= 2 ^ 46;
}.

(** Every address of [\[lo, hi)] translates to the image's load address, through
    entries with these permissions. *)
Definition section_mapped (s : pb) (root : Z) (ka : limine_kernel_address) (lo hi : Z) (w nx : bool) : Prop :=
  forall v, lo <= v < hi -> exists d e lvl, walk_of s root v = Some (d, e) /\
    pa_of (Some (d, e)) v = Some (physical_base ka + (v - virtual_base ka), lvl) /\ perm w nx e.

(** What the processor allows on all of [\[lo, hi)]. *)
Definition section_rights (s : pb) (root lo hi : Z) (w x : bool) : Prop :=
  forall v, lo <= v < hi -> exists u, rights_of s root v = Some (Access w u x).

Lemma section_mapped_rights s root own ka lo hi w nx : binv s root own -> section_mapped s root ka lo hi w nx ->
  section_rights s root lo hi w (negb nx).
Proof.
  intros Hi Hm v Hv. destruct (Hm v Hv) as (d & e & lvl & Hw & _ & <- & <-). exact (rights_of_walk _ _ _ _ _ _ Hi Hw).
Qed.

Lemma section_spec s root own ka lo hi flags w nx :
  binv s root own -> 0 <= lo < hi -> virtual_base ka mod 4096 = 0 /\ 0 <= virtual_base ka <= 4096 * lo /\ 4096 * hi < 2 ^ 64 ->
  physical_base ka mod 4096 = 0 /\ 0 <= physical_base ka /\ physical_base ka + (4096 * hi - virtual_base ka) <= 2 ^ 46 ->
  (forall v, 4096 * lo <= v < 4096 * hi -> ends_below s root v 3) ->
  is_set (Z.land flags (u64 (Z.lnot ADDR_MASK))) PTE_W = w ->
  is_set (Z.land flags (u64 (Z.lnot ADDR_MASK))) PTE_NX = nx -> 3 * (hi - lo) <= early_room (pt_early s) ->
  exists s' own', when (4096 * hi >? 4096 * lo) (map_range_4k (root + g_hhdm s) (4096 * lo)
      (virt_to_phys_kernel (4096 * lo) (physical_base ka) (virtual_base ka)) (u64 (4096 * hi - 4096 * lo)) flags) s = Ret tt s' /\
    binv s' root own' /\ same_rest s s' /\ section_mapped s' root ka (4096 * lo) (4096 * hi) w nx /\
    (forall v, (forall u, 4096 * lo <= u < 4096 * hi -> path_of u <> path_of v) -> walk_of s' root v = walk_of s root v) /\
    early_room (pt_early s) - 3 * (hi - lo) <= early_room (pt_early s').
Proof.
  intros Hi Hord (Hv1 & Hv2 & Hv3) (Hp1 & Hp2 & Hp3) Hends HW HN Hr.
  rewrite Z.gtb_ltb, (proj2 (Z.ltb_lt _ _)) by lia. simpl when. unfold virt_to_phys_kernel. rewrite !wrap_small by (rewrite ?wrap_small; lia).
  destruct (map_range_4k_spec s root own (4096 * lo) (physical_base ka + (4096 * lo - virtual_base ka)) (Z.to_nat (hi - lo)) flags
    (perm w nx) Hi) as (s' & own' & E & Hp & Hroom); try lia; try dm_lia.
  { intros v Hv. apply Hends. lia. } { intros f. rewrite <- HW, <- HN. apply pte_4k_perm. }
  replace (4096 * Z.of_nat (Z.to_nat (hi - lo))) with (4096 * hi - 4096 * lo) in * by lia.
  exists s', own'. destruct Hp as [Hi' Hs' Hreg Hoth]. replace (4096 * lo + (4096 * hi - 4096 * lo)) with (4096 * hi) in * by lia.
  split_and!; try done; try lia. intros v Hv. destruct (Hreg v Hv) as (d & e & lvl & H1 & H2 & H3 & _).
  exists d, e, lvl. split_and!; try apply H3; try done. rewrite H2. do 2 f_equal. lia.
Qed.

Lemma section_keep s s' root ka lo hi w nx lo' hi' : section_mapped s root ka lo hi w nx ->
  (forall v, (forall u, lo' <= u < hi' -> path_of u <> path_of v) -> walk_of s' root v = walk_of s root v) ->
  lo mod 4096 = 0 -> hi mod 4096 = 0 -> lo' mod 4096 = 0 -> hi' mod 4096 = 0 ->
  hi <= lo' -> hi' - lo <= 2 ^ 46 -> section_mapped s' root ka lo hi w nx.
Proof.
  intros Hm Hk ? ? ? ? Hd Hb v Hv. rewrite Hk; [by apply Hm|]. intros u Hu He. apply near_path in He; [|lia]. dm_lia.
Qed.

Lemma map_kernel_spec env ka s root own t0 t1 r0 r1 d0 d1 :
  Kaddress_req (be_limine env) = Some ka -> layout env ka t0 t1 r0 r1 d0 d1 -> binv s root own ->
  (forall v, 4096 * t0 <= v < 4096 * d1 -> ends_below s root v 3) ->
  3 * (d1 - t0) <= early_room (pt_early s) ->
  exists s' own', map_kernel_higher_half env (root + g_hhdm s) s = Ret tt s' /\ binv s' root own' /\ same_rest s s' /\
    section_mapped s' root ka (4096 * t0) (4096 * t1) false false /\
    section_mapped s' root ka (4096 * r0) (4096 * r1) false true /\
    section_mapped s' root ka (4096 * d0) (4096 * d1) true true /\
    (forall v, (forall u, 4096 * t0 <= u < 4096 * d1 -> path_of u <> path_of v) -> walk_of s' root v = walk_of s root v) /\
    early_room (pt_early s) - 3 * (d1 - t0) <= early_room (pt_early s').
Proof.
  intros Hka Hly Hi Hends Hr. destruct (ly_order _ _ _ _ _ _ _ _ Hly) as (Ht & Hrr & Hd).
  destruct (ly_virt _ _ _ _ _ _ _ _ Hly) as (Hv1 & Hv2 & Hv3). destruct (ly_phys _ _ _ _ _ _ _ _ Hly) as (Hp1 & Hp2 & Hp3).
  unfold map_kernel_higher_half. rewrite Hka. cbv zeta.
  rewrite (ly_t0 _ _ _ _ _ _ _ _ Hly), (ly_t1 _ _ _ _ _ _ _ _ Hly), (ly_r0 _ _ _ _ _ _ _ _ Hly),
    (ly_r1 _ _ _ _ _ _ _ _ Hly), (ly_d0 _ _ _ _ _ _ _ _ Hly), (ly_d1 _ _ _ _ _ _ _ _ Hly).
  assert (Hsame : forall a b s1 s2 v, (forall x, (forall u, 4096 * a <= u < 4096 * b -> path_of u <> path_of x) ->
     walk_of s2 root x = walk_of s1 root x) -> t0 <= a -> b <= d1 -> 4096 * b <= v -> v < 4096 * d1 -> walk_of s2 root v = walk_of s1 root v).
  { intros a b s1 s2 v Hk Ha Hb Hv1' Hv2'. apply Hk. intros u Hu He. apply near_path in He; [|lia]. dm_lia. }
  destruct (section_spec s root own ka t0 t1 0 false false Hi) as (s1 & own1 & E1 & Hi1 & Hs1 & Hm1 & Hk1 & Hr1); try done; try lia.
  { intros v Hv. apply Hends. lia. }
  pose proof Hs1 as (Hh1 & _). rewrite (bind_Ret _ _ _ _ _ E1).
  destruct (section_spec s1 root own1 ka r0 r1 PTE_NX false true Hi1) as (s2 & own2 & E2 & Hi2 & Hs2 & Hm2 & Hk2 & Hr2); try done; try lia.
  { intros v Hv k e. rewrite (Hsame t0 t1 s s1 v) by (done || lia). apply Hends. lia. }
  pose proof Hs2 as (Hh2 & _). rewrite Hh1 in E2. rewrite (bind_Ret _ _ _ _ _ E2).
  destruct (section_spec s2 root own2 ka d0 d1 (Z.lor PTE_W PTE_NX) true true Hi2) as (s3 & own3 & E3 & Hi3 & Hs3 & Hm3 & Hk3 & Hr3);
    try done; try lia.
  { intros v Hv k e. rewrite (Hsame r0 r1 s1 s2 v), (Hsame t0 t1 s s1 v) by (done || lia). apply Hends. lia. }
  rewrite Hh2, Hh1 in E3. exists s3, own3. split; [exact E3|].
  split; [done|]. split; [eauto using same_rest_trans|]. split; [|split; [|split; [done|split]]].
  - eapply (section_keep s2 s3); [|exact Hk3|dm_lia|dm_lia|dm_lia|dm_lia|lia|lia].
    eapply (section_keep s1 s2); [done|exact Hk2|dm_lia|dm_lia|dm_lia|dm_lia|lia|lia].
  - eapply (section_keep s2 s3); [done|exact Hk3|dm_lia|dm_lia|dm_lia|dm_lia|lia|lia].
  - intros v Hv. rewrite Hk3, Hk2, Hk1; [done| | |]; intros u Hu; apply Hv; lia.
  - lia.
Qed.

(** C16. [map_kernel_higher_half] enforces W^X on the kernel image: with the
    sections laid out in order on separate pages, it returns with the text
    mapped executable and read-only, the read-only data neither writable nor
    executable, the data and bss writable and not executable, every byte at its
    load address, and translations outside the image unchanged.  The permissions
    are those of the leaf entries and those the processor allows, which takes the
    flags of all levels of the walk together. *)
Theorem map_kernel_wx env ka s root own t0 t1 r0 r1 d0 d1 :
  Kaddress_req (be_limine env) = Some ka -> layout env ka t0 t1 r0 r1 d0 d1 -> binv s root own ->
  (forall v, 4096 * t0 <= v < 4096 * d1 -> ends_below s root v 3) ->
  3 * (d1 - t0) <= early_room (pt_early s) ->
  exists s' own', map_kernel_higher_half env (root + g_hhdm s) s = Ret tt s' /\ binv s' root own' /\ same_rest s s' /\
    section_mapped s' root ka (4096 * t0) (4096 * t1) false false /\
    section_mapped s' root ka (4096 * r0) (4096 * r1) false true /\
    section_mapped s' root ka (4096 * d0) (4096 * d1) true true /\
    section_rights s' root (4096 * t0) (4096 * t1) false true /\
    section_rights s' root (4096 * r0) (4096 * r1) false false /\
    section_rights s' root (4096 * d0) (4096 * d1) true false /\
    (forall v, (forall u, 4096 * t0 <= u < 4096 * d1 -> path_of u <> path_of v) -> walk_of s' root v = walk_of s root v).
Proof.
  intros Hka Hly Hi Hends Hr.
  destruct (map_kernel_spec env ka s root own t0 t1 r0 r1 d0 d1 Hka Hly Hi Hends Hr) as (s' & own' & E & Hi' & Hs' & H1 & H2 & H3 & H4 & _).
  pose proof (section_mapped_rights s' root own' ka) as Hsec. exists s', own'. split_and!; try done.
  - exact (Hsec _ _ _ _ Hi' H1).
  - exact (Hsec _ _ _ _ Hi' H2).
  - exact (Hsec _ _ _ _ Hi' H3).
Qed.

(** ** The switch *)

(** Nothing but [writeCR3] assigns CR3. *)
Lemma alloc_table_cr3 : keeps cr3 alloc_table.
Proof.
  unfold alloc_table, phys_to_virt, memzero_page. apply keeps_bind; [by apply keeps_zoom|]. intros p.
  repeat first [apply keeps_bind; intros | apply keeps_modify; done | by auto with keeps].
Qed.

Lemma get_or_make_next_cr3 c i : keeps cr3 (get_or_make_next c i).
Proof.
  unfold get_or_make_next, ent, phys_to_virt, set_ent. apply keeps_bind; [by auto with keeps|]. intros e. destruct (is_set e PTE_P).
  - auto 6 with keeps.
  - apply keeps_bind; [apply alloc_table_cr3|]. intros [child phys]. apply keeps_bind; [by apply keeps_modify|]. auto with keeps.
Qed.

Lemma map_4k_cr3 t va pa fl : keeps cr3 (map_4k t va pa fl).
Proof.
  unfold map_4k. destruct (vaddr_indices va) as [[[i0 i1] i2] i3].
  do 3 (apply keeps_bind; [apply get_or_make_next_cr3|intros [? ?]]). by apply keeps_modify.
Qed.

Lemma walk_cr3 va t : keeps cr3 (walk_va_to_pa va t).
Proof.
  unfold walk_va_to_pa, ent, phys_to_virt. destruct (vaddr_indices va) as [[[i0 i1] i2] i3].
  repeat first [apply keeps_bind; intros | apply keeps_gets | apply keeps_ret | case_match].
Qed.

Lemma ensure_page_cr3 t p : keeps cr3 (ensure_hhdm_cover_phys_page t p).
Proof.
  unfold ensure_hhdm_cover_phys_page. apply keeps_bind; [apply keeps_get|]. intros s.
  apply keeps_bind; [apply walk_cr3|]. intros [r|]; [apply keeps_ret|apply map_4k_cr3].
Qed.

Lemma ensure_range_cr3 t p n : keeps cr3 (ensure_hhdm_cover_phys_range t p n).
Proof.
  unfold ensure_hhdm_cover_phys_range. destruct (n =? 0); [apply keeps_ret|].
  apply keeps_bind; [|intros; apply keeps_ret]. apply keeps_while. intros l.
  apply keeps_bind; [apply ensure_page_cr3|]. intros; apply keeps_ret.
Qed.

Lemma require_mapped_cr3 va t msg : keeps cr3 (require_mapped va t msg).
Proof.
  unfold require_mapped. apply keeps_bind; [apply walk_cr3|]. intros [[pa lvl]|]; [apply keeps_ret|apply keeps_panic].
Qed.

Lemma probe_cr3 l va t : keeps cr3 (probe_va l va t).
Proof. unfold probe_va. apply keeps_bind; [apply walk_cr3|]. intros r. by apply keeps_modify. Qed.

(** The walker only reads the tables through the direct map. *)
Lemma walk_reads va t s : exists r, walk_va_to_pa va t s = Ret r s /\
  forall s', pt_mem s' = pt_mem s -> g_hhdm s' = g_hhdm s -> walk_va_to_pa va t s' = Ret r s'.
Proof.
  unfold walk_va_to_pa, ent, phys_to_virt, gets, bind, ret. destruct (vaddr_indices va) as [[[i0 i1] i2] i3].
  repeat case_match; (eexists; split; [reflexivity|]); intros s' Hm Hh; rewrite ?Hm, ?Hh;
    repeat match goal with H : ?b = _ |- context [?b] => rewrite H end; done.
Qed.

Definition is_mapped (s : pb) (t va : Z) : Prop := exists pa lvl, walk_va_to_pa va t s = Ret (Some (pa, lvl)) s.

(** [o] either returns in a state satisfying [Q] or ends with CR3 equal to [old]. *)
Definition switched_or (old : Z) (Q : pb -> Prop) (o : outcome pb unit) : Prop :=
  match o with Ret _ s => Q s | _ => cr3 (final o) = old end.

Lemma switched_bind {A} old Q (c : K pb A) k s : keeps cr3 c -> cr3 s = old ->
  (forall a s', c s = Ret a s' -> cr3 s' = old -> switched_or old Q (k a s')) -> switched_or old Q (bind c k s).
Proof.
  intros Hc Hs Hk. pose proof (Hc s) as Hcs. unfold bind. destruct (c s) as [a s'|m s'|x s'|s'] eqn:Ec; simpl in *; try congruence.
  apply Hk; congruence.
Qed.

(** A passed check: the state is unchanged and the address is mapped in it. *)
Lemma require_mapped_ret va t msg s a s' : require_mapped va t msg s = Ret a s' -> s' = s /\ is_mapped s t va.
Proof.
  unfold require_mapped. destruct (walk_reads va t s) as (r & Er & _). rewrite (bind_Ret _ _ _ _ _ Er).
  destruct r as [[pa lvl]|]; [|done]. intros [= <- <-]. split; [done|]. by exists pa, lvl.
Qed.

(** C17. CR3 is switched only after the audit: for any state of the tables, if
    [install_new_cr3] returns, CR3 holds the new root and the stack, the code
    address, the start of the direct map and the direct-map pages of both root
    tables are mapped by the new tables; on every other outcome CR3 is what it
    was. *)
Theorem install_new_cr3_safe env new_pml4_phys new_pml4 s :
  switched_or (cr3 s) (fun s' => cr3 s' = new_pml4_phys /\
    forall va, va ∈ [be_rsp env; be_rip env; g_hhdm s; u64 (g_hhdm s + Z.land (cr3 s) ADDR_MASK);
                     u64 (g_hhdm s + new_pml4_phys)] -> is_mapped s' new_pml4 va)
    (install_new_cr3 env new_pml4_phys new_pml4 s).
Proof.
  set (Q := fun s' : pb => _). unfold install_new_cr3, pre_switch_audit_and_patch. rewrite bind_assoc, bind_get.
  assert (Hcheck : forall va msg s1 k, cr3 s1 = cr3 s -> (is_mapped s1 new_pml4 va -> switched_or (cr3 s) Q (k s1)) ->
    switched_or (cr3 s) Q (bind (require_mapped va new_pml4 msg) (fun _ => k) s1)).
  { intros va msg s1 k Hs1 Hk. apply switched_bind; [apply require_mapped_cr3|done|].
    intros a s' [-> Hm]%require_mapped_ret _. by apply Hk. }
  rewrite bind_assoc. apply switched_bind; [|done|].
  { case_match; [apply keeps_ret|apply require_mapped_cr3]. }
  intros rsp_phys s1 _ H1. rewrite bind_assoc. apply switched_bind; [apply ensure_range_cr3|done|]. intros [] s2 _ H2.
  do 3 (rewrite bind_assoc; apply switched_bind; [apply ensure_page_cr3|done|]; intros [] ? _ ?).
  do 5 (rewrite bind_assoc; apply switched_bind; [apply probe_cr3|done|]; intros [] ? _ ?).
  do 5 (rewrite bind_assoc; apply Hcheck; [done|intros ?]).
  match goal with |- switched_or _ _ (bind _ _ ?x) => set (sf := x) in * end.
  assert (Hstay : forall va, is_mapped sf new_pml4 va ->
    is_mapped (PB (pt_mem sf) (pt_early sf) (g_pml4_phys sf) (g_pml4_virt sf) (g_hhdm sf) new_pml4_phys (console sf)) new_pml4 va).
  { intros va (pa & lvl & Hw). destruct (walk_reads va new_pml4 sf) as (r & Er & Hr). exists pa, lvl.
    rewrite Hw in Er. injection Er as <-. by apply Hr. }
  unfold Q. simpl. split; [done|]. intros va Hva.
  repeat (apply elem_of_cons in Hva as [->|Hva]; [by apply Hstay|]). by apply elem_of_nil in Hva.
Qed.

(** ** A concrete machine: 128 MiB, an empty root at 1 MiB. *)
Definition demo_hh : Z := 0xFFFF800000000000.
Definition demo_kv : Z := 0xFFFFFFFF80000000.
Definition demo_es : list limine_memmap_entry :=
  [MemmapEntry 0x1000 0x9E000 LIMINE_MEMMAP_USABLE; MemmapEntry 0x100000 0x7F00000 LIMINE_MEMMAP_USABLE;
   MemmapEntry 0x7F00000 0x200000 LIMINE_MEMMAP_RESERVED; MemmapEntry 0xFD000000 0x300000 LIMINE_MEMMAP_FRAMEBUFFER].
Definition demo_ka : limine_kernel_address := KernelAddress 0x2000000 demo_kv.
Definition demo_env : boot_env :=
  BootEnv (Limine (Some demo_es) (Some demo_hh) (Some demo_ka) None)
    demo_kv (demo_kv + 0x4800) (demo_kv + 0x5000) (demo_kv + 0x7010) (demo_kv + 0x8000) (demo_kv + 0xC000)
    (demo_hh + 0x7000000) (demo_kv + 0x1000).
Definition demo_pb : pb := PB ∅ (Early 0x100000 0x101000 0x8000000 false) 0x100000 (demo_hh + 0x100000) demo_hh 0x5000 [].
Definition demo_own : gmap Z (list Z) := {[0x100000 := []]}.

Lemma demo_binv : binv demo_pb 0x100000 demo_own.
Proof.
  constructor.
  - by vm_compute.
  - apply tree_root; [intros i _; unfold rd; simpl; by rewrite lookup_empty|reflexivity|lia].
  - repeat split; vm_compute; discriminate.
  - unfold demo_own. intros p [ks [<- _]%lookup_singleton_Some]. by vm_compute.
  - apply writable_links_root. intros i _. unfold rd. simpl. by rewrite lookup_empty.
Qed.

Lemma demo_ends va d : ends_below demo_pb 0x100000 va d.
Proof.
  intros k e Hw. unfold walk_of in Hw. exfalso. revert Hw. unfold path_of. simpl. unfold rd. by rewrite lookup_empty.
Qed.

Lemma map_hhdm_correct_witness :
  exists s' own', map_hhdm demo_env (0x100000 + demo_hh) demo_pb = Ret tt s' /\ binv s' 0x100000 own' /\ same_rest demo_pb s' /\
    forall phys, 0 <= phys < 2 ^ 21 \/ (exists e, e ∈ demo_es /\ in_range e phys) ->
      hhdm_covers s' 0x100000 phys /\ (exists u, rights_of s' 0x100000 (demo_hh + phys) = Some (Access true u false)) /\
      exists lvl, walk_va_to_pa (demo_hh + phys) (0x100000 + demo_hh) s' = Ret (Some (phys, lvl)) s'.
Proof.
  apply (map_hhdm_correct demo_env demo_es demo_pb 0x100000 demo_own); try reflexivity; try discriminate.
  - exact demo_binv.
  - repeat constructor; vm_compute; try discriminate; intros; discriminate.
  - repeat constructor; vm_compute; discriminate.
Defined.

Lemma map_kernel_wx_witness :
  exists s' own', map_kernel_higher_half demo_env (0x100000 + demo_hh) demo_pb = Ret tt s' /\ binv s' 0x100000 own' /\
    same_rest demo_pb s' /\
    section_mapped s' 0x100000 demo_ka demo_kv (demo_kv + 0x5000) false false /\
    section_mapped s' 0x100000 demo_ka (demo_kv + 0x5000) (demo_kv + 0x8000) false true /\
    section_mapped s' 0x100000 demo_ka (demo_kv + 0x8000) (demo_kv + 0xC000) true true /\
    section_rights s' 0x100000 demo_kv (demo_kv + 0x5000) false true /\
    section_rights s' 0x100000 (demo_kv + 0x5000) (demo_kv + 0x8000) false false /\
    section_rights s' 0x100000 (demo_kv + 0x8000) (demo_kv + 0xC000) true false /\
    (forall v, (forall u, demo_kv <= u < demo_kv + 0xC000 -> path_of u <> path_of v) ->
       walk_of s' 0x100000 v = walk_of demo_pb 0x100000 v).
Proof.
  apply (map_kernel_wx demo_env demo_ka demo_pb 0x100000 demo_own (demo_kv / 4096) (demo_kv / 4096 + 5)
    (demo_kv / 4096 + 5) (demo_kv / 4096 + 8) (demo_kv / 4096 + 8) (demo_kv / 4096 + 12)).
  - reflexivity.
  - constructor; vm_compute; try reflexivity; repeat split; discriminate.
  - exact demo_binv.
  - intros v _. apply demo_ends.
  - vm_compute. discriminate.
Defined.

End PagingBootstrapSpec.
