(* ===== verification/PagingSwitch.v ===== *)
(** [paging_bootstrap] as a whole ([src/src/paging/paging_bootstrap.c]): the
    identity window, the probes, the audit that patches the direct map, and the
    theorem that on a sane boot environment all of it returns, with CR3 on the new
    tables and their translations known. *)
From S2P Require Import Prelude Limine EarlyAlloc PageTree Paging PagingBootstrap PagingBootstrapSpec.

Module PagingSwitch.
Import EarlyAlloc PageTree PagingBootstrap PagingBootstrapSpec.
Import Paging (path_of, path_ok, path_eq, path_same, rd_zero_in).

(** ** States that differ in the console only *)
Definition set_console (c : list report) (s : pb) : pb :=
  PB (pt_mem s) (pt_early s) (g_pml4_phys s) (g_pml4_virt s) (g_hhdm s) (cr3 s) c.

Lemma console_binv c s root own : binv s root own <-> binv (set_console c s) root own.
Proof. split; intros [H1 H2 H3 H4]; by constructor. Qed.

(** From [s] to [s'] translations are only added, at the pages of [touched], with
    [cost] tables at most. *)
Record grows (root cost : Z) (touched : Z -> Prop) (s s' : pb) : Prop := {
  gr_inv : exists own, binv s' root own;
  gr_rest : exists c, same_rest (set_console c s) s';
  gr_keep : forall v w, walk_of s root v = Some w -> walk_of s' root v = Some w;
  gr_other : forall v, (forall u, touched u -> path_of u <> path_of v) -> walk_of s' root v = walk_of s root v;
  gr_room : early_room (pt_early s) - cost <= early_room (pt_early s');
}.

Lemma grows_console c s root own (touched : Z -> Prop) : binv s root own -> grows root 0 touched s (set_console c s).
Proof.
  intros Hi. constructor; [exists own; by apply console_binv|by exists c|done|done|simpl; lia].
Qed.

Lemma grows_refl s root own (touched : Z -> Prop) : binv s root own -> grows root 0 touched s s.
Proof. intros Hi. constructor; [by exists own|by exists (console s)|done|done|lia]. Qed.

Lemma grows_trans root c1 c2 (t1 t2 t : Z -> Prop) s1 s2 s3 : grows root c1 t1 s1 s2 -> grows root c2 t2 s2 s3 ->
  (forall u, t1 u -> t u) -> (forall u, t2 u -> t u) -> grows root (c1 + c2) t s1 s3.
Proof.
  intros [_ [k1 H1] K1 O1 R1] [I2 [k2 H2] K2 O2 R2] Ht1 Ht2. constructor.
  - done.
  - exists k2. unfold same_rest in *. destruct H1 as (?&?&?&?&?&?&?), H2 as (?&?&?&?&?&?&?). simpl in *. split_and!; congruence.
  - intros v w Hw. auto.
  - intros v Hv. rewrite O2, O1; auto.
  - lia.
Qed.

Lemma grows_hhdm root c t s s' : grows root c t s s' -> g_hhdm s' = g_hhdm s /\ cr3 s' = cr3 s.
Proof. intros [_ [k (H1 & H2 & _)] _ _ _]. by split. Qed.

(** ** Walks *)
Lemma walk_depth hh m ks : forall d t k e, walk hh m d t ks = Some (k, e) -> (d <= k < d + length ks)%nat /\ kind k e = Leaf.
Proof.
  induction ks as [|i ks IH]; intros d t k e; [done|]. cbn [walk length]. destruct (kind d _) eqn:Ek; [done| |].
  - intros [= <- <-]. split; [lia|done].
  - intros [? ?]%IH. split; [lia|done].
Qed.

Lemma walk_pa s root va w : walk_of s root va = Some w -> exists r, pa_of (Some w) va = Some r.
Proof.
  destruct w as [k e]. intros [Hk Hl]%walk_depth. destruct (path_ok va) as [Hlen _]. rewrite Hlen in Hk.
  destruct k as [|[|[|[|k]]]]; [|by eexists|by eexists|by eexists|lia]. revert Hl. unfold kind. by destruct (negb _).
Qed.

Lemma same_page hh x y : hh mod 4096 = 0 -> x / 4096 = y / 4096 -> path_of (hh + x) = path_of (hh + y).
Proof. intros Hh He. apply path_same. replace ((hh + x) / 4096) with ((hh + y) / 4096) by dm_lia. done. Qed.

Lemma walk_of_page s root x : g_hhdm s mod 4096 = 0 -> walk_of s root (g_hhdm s + 4096 * (x / 4096)) = walk_of s root (g_hhdm s + x).
Proof. intros Hh. unfold walk_of. rewrite (same_page _ (4096 * (x / 4096)) x Hh); [done|]. dm_lia. Qed.

(** ** Probes and checks *)
Section probes.
Context (s : pb) (root : Z) (own : gmap Z (list Z)).
Hypothesis Hi : binv s root own.
Let t := root + g_hhdm s.

Lemma require_mapped_ok va w msg : walk_of s root va = Some w -> exists pa, require_mapped va t msg s = Ret pa s.
Proof.
  intros Hw. unfold require_mapped, t. rewrite (bind_Ret _ _ _ _ _ (walk_va_to_pa_eq s root own va Hi)).
  destruct (walk_pa s root va w Hw) as [[pa lvl] Hr]. rewrite Hw, Hr. by exists pa.
Qed.

Lemma probe_va_ok label va : exists c, probe_va label va t s = Ret tt (set_console c s).
Proof. unfold probe_va, t. rewrite (bind_Ret _ _ _ _ _ (walk_va_to_pa_eq s root own va Hi)). by eexists. Qed.

Lemma probe_hhdm_ok label phys : exists c, probe_hhdm_phys label phys t s = Ret tt (set_console c s).
Proof.
  unfold probe_hhdm_phys, t. rewrite bind_get. rewrite (bind_Ret _ _ _ _ _ (walk_va_to_pa_eq s root own _ Hi)). by eexists.
Qed.

Lemma scan_ok len stride : 0 <= len < 2 ^ 32 -> 0 < stride < 2 ^ 32 -> exists c, scan_hhdm_range 0 len stride t s = Ret tt (set_console c s).
Proof.
  intros Hl Hs. unfold scan_hhdm_range. rewrite (proj2 (Z.eqb_neq stride 0)), bind_get, Z.add_0_l, (wrap_small 64 len) by lia.
  match goal with |- context [while_loop ?n ?c ?b ?l0] => pose proof (wp_while (fun k '(phys, _, _) s' => (exists rs, s' = set_console rs s) /\
    0 <= phys < 2 ^ 33 /\ len - phys <= Z.of_nat k * stride) n c b l0 s) as Hw end.
  apply wp_ret_inv in Hw as ([[phys prev] run] & s1 & E & _ & k & [c ->] & _).
  - rewrite (bind_Ret _ _ _ _ _ E). by eexists.
  - split; [by exists (console s); destruct s|]. split; [lia|]. unfold rounds. rewrite Nat2Z.inj_succ, Z2Nat.id by (apply Z.div_pos; lia).
    pose proof (Z.div_mod (len - 0 + stride - 1) stride ltac:(lia)). pose proof (Z.mod_pos_bound (len - 0 + stride - 1) stride ltac:(lia)). nia.
  - intros k [[phys prev] run] s' ([c ->] & Hp & Hk) Hc%Z.ltb_lt. apply console_binv with (c := c) in Hi as Hi'.
    apply wp_ret_inv. change t with (root + g_hhdm (set_console c s)) at 1.
    rewrite (bind_Ret _ _ _ _ _ (walk_va_to_pa_eq (set_console c s) root own _ Hi')). rewrite (wrap_small 64 (phys + stride)) by lia.
    destruct (prev =? -1); [|destruct (negb _)]; (do 2 eexists; split; [reflexivity|]; split; [by eexists|]; lia).
  - intros [[phys prev] run] s' (_ & Hp & Hk). apply Z.ltb_ge. lia.
Qed.

(** Pages that are mapped already are left alone. *)
Lemma ensure_mapped x w : 0 <= x < 2 ^ 46 -> walk_of s root (g_hhdm s + 4096 * (x / 4096)) = Some w -> ensure_hhdm_cover_phys_page t x s = Ret tt s.
Proof.
  intros Hx Hw. destruct (bi_hh _ _ _ Hi). unfold ensure_hhdm_cover_phys_page. rewrite bind_get, ALIGN_DOWN_page, wrap_small by dm_lia.
  unfold t. rewrite (bind_Ret _ _ _ _ _ (walk_va_to_pa_eq s root own _ Hi)).
  destruct (walk_pa _ _ _ _ Hw) as [r Hr]. by rewrite Hw, Hr.
Qed.

Lemma ensure_range_mapped n : 0 < n <= 2 ^ 12 -> (forall x, 0 <= x < 4096 * n -> exists w, walk_of s root (g_hhdm s + x) = Some w) ->
  ensure_hhdm_cover_phys_range t 0 (4096 * n) s = Ret tt s.
Proof.
  intros Hn Hm. unfold ensure_hhdm_cover_phys_range. rewrite (proj2 (Z.eqb_neq _ _)), ALIGN_DOWN_page by lia.
  rewrite wrap_small, ALIGN_UP_page by lia. change (4096 * (0 / 4096)) with 0.
  replace (4096 * ((0 + 4096 * n + 4095) / 4096)) with (4096 * n) by dm_lia.
  match goal with |- context [while_loop ?f ?c ?b ?l0] => pose proof (wp_while (fun k page s' => s' = s /\
    0 <= page < 2 ^ 46 /\ page mod 4096 = 0 /\ 4096 * n - page <= Z.of_nat k * 4096) f c b l0 s) as Hw end.
  apply wp_ret_inv in Hw as (page & s1 & E & _ & k & -> & _).
  - by rewrite (bind_Ret _ _ _ _ _ E).
  - split_and!; try done. unfold rounds, PAGE_SIZE. rewrite Nat2Z.inj_succ, Z2Nat.id by (apply Z.div_pos; lia). dm_lia.
  - intros k page s' (-> & Hp & Hal & Hk) Hc%Z.ltb_lt. destruct (Hm page ltac:(lia)) as [w Hpg].
    apply wp_ret_inv. rewrite (bind_Ret _ _ _ _ _ (ensure_mapped page w Hp ltac:(replace (4096 * (page / 4096)) with page by dm_lia; done))).
    unfold PAGE_SIZE. rewrite wrap_small by lia. do 2 eexists. split; [reflexivity|]. split_and!; try done; try lia; dm_lia.
  - intros page s' (_ & Hp & _ & Hk). apply Z.ltb_ge. lia.
Qed.

Lemma ensure_page_ok x : g_hhdm s mod 4096 = 0 -> 0 <= x < 2 ^ 46 -> 3 <= early_room (pt_early s) ->
  exists s', ensure_hhdm_cover_phys_page t x s = Ret tt s' /\ grows root 3 (fun u => u = g_hhdm s + x) s s' /\
    exists w, walk_of s' root (g_hhdm s + x) = Some w.
Proof.
  intros Hh Hx Hr. destruct (bi_hh _ _ _ Hi). set (va := g_hhdm s + 4096 * (x / 4096)).
  destruct (walk_of s root va) as [w|] eqn:Ew.
  { exists s. rewrite (ensure_mapped x w) by done. split; [done|]. split; [|exists w; by rewrite <- walk_of_page].
    destruct (grows_refl s root own (fun u => u = g_hhdm s + x) Hi). constructor; try done. lia. }
  unfold ensure_hhdm_cover_phys_page. rewrite bind_get, ALIGN_DOWN_page, wrap_small by dm_lia. fold va.
  unfold t. rewrite (bind_Ret _ _ _ _ _ (walk_va_to_pa_eq s root own va Hi)), Ew. simpl pa_of.
  destruct (map_4k_spec s root own va (4096 * (x / 4096)) (Z.lor PTE_W PTE_NX) Hi) as (s' & own' & E & Hi' & Hs & Hw & Hroom).
  { intros k e. by rewrite Ew. } { done. }
  pose proof (same_page (g_hhdm s) (4096 * (x / 4096)) x Hh ltac:(dm_lia)) as Hpath. fold va in Hpath.
  exists s'. split; [exact E|]. split.
  - constructor; [by exists own'|by exists (console s); destruct s| | |lia].
    + intros v w Hv. rewrite Hw, decide_False; [done|]. intros He. unfold walk_of in *. rewrite He in Hv. congruence.
    + intros v Hv. rewrite Hw, decide_False; [done|]. rewrite Hpath. intros He. by apply (Hv _ eq_refl).
  - rewrite Hw, decide_True by done. by eexists.
Qed.
End probes.

Lemma probe_again c s root own label va : binv s root own ->
  exists c', probe_va label va (root + g_hhdm s) (set_console c s) = Ret tt (set_console c' s).
Proof. intros Hi%(console_binv c). exact (probe_va_ok (set_console c s) root own Hi label va). Qed.

Lemma probes_ok s root own : binv s root own -> exists c, forall k : K pb unit,
  (do! probe_hhdm_phys "low+0" 0 (root + g_hhdm s) in
   let! s' := get in
   do! probe_hhdm_phys "old CR3 page" (Z.land (cr3 s') ADDR_MASK) (root + g_hhdm s) in
   do! probe_hhdm_phys "new CR3 page" root (root + g_hhdm s) in
   do! scan_hhdm_range 0 (16 * 1024 * 1024) PAGE_2M_SIZE (root + g_hhdm s) in k) s = k (set_console c s).
Proof.
  intros Hi. destruct (probe_hhdm_ok s root own Hi "low+0" 0) as [c1 E1]. pose proof (proj1 (console_binv c1 _ _ _) Hi) as Hi1.
  destruct (probe_hhdm_ok _ root own Hi1 "old CR3 page" (Z.land (cr3 s) ADDR_MASK)) as [c2 E2]. pose proof (proj1 (console_binv c2 _ _ _) Hi) as Hi2.
  destruct (probe_hhdm_ok _ root own Hi2 "new CR3 page" root) as [c3 E3]. pose proof (proj1 (console_binv c3 _ _ _) Hi) as Hi3.
  destruct (scan_ok _ root own Hi3 (16 * 1024 * 1024) PAGE_2M_SIZE) as [c4 E4]; [lia|done|]. exists c4. intros k.
  rewrite (bind_Ret _ _ _ _ _ E1), bind_get. cbv beta. change (cr3 (set_console c1 s)) with (cr3 s).
  change (g_hhdm s) with (g_hhdm (set_console c1 s)). rewrite (bind_Ret _ _ _ _ _ E2).
  change (set_console c2 (set_console c1 s)) with (set_console c2 s). change (g_hhdm (set_console c1 s)) with (g_hhdm (set_console c2 s)).
  rewrite (bind_Ret _ _ _ _ _ E3). change (set_console c3 (set_console c2 s)) with (set_console c3 s).
  change (g_hhdm (set_console c2 s)) with (g_hhdm (set_console c3 s)). by rewrite (bind_Ret _ _ _ _ _ E4).
Qed.

(** ** The audit *)

(** What the audit needs of the tables: the code address and the first 2 MiB of
    the direct map are there, the stack is in the direct map, and there are pages for the
    tables of three patches. *)
Record auditable (env : boot_env) (s : pb) (root : Z) : Prop := {
  au_hh : g_hhdm s mod 4096 = 0;
  au_rip : exists w, walk_of s root (be_rip env) = Some w;
  au_low : forall x, 0 <= x < 2 ^ 21 -> exists w, walk_of s root (g_hhdm s + x) = Some w;
  au_stack : g_hhdm s <= be_rsp env < g_hhdm s + get_max_phys env /\ get_max_phys env <= 2 ^ 46;
  au_cr3 : 0 <= Z.land (cr3 s) ADDR_MASK < 2 ^ 46;
  au_root : 0 <= root < 2 ^ 46;
  au_room : 9 <= early_room (pt_early s);
}.

(** The pages the audit may add to the direct map. *)
Definition patched (env : boot_env) (s : pb) (root u : Z) : Prop :=
  u = be_rsp env \/ u = g_hhdm s + Z.land (cr3 s) ADDR_MASK \/ u = g_hhdm s + root.

(** A step that grows the tables, as a prefix of a sequence. *)
Lemma audit_ok env s root own : binv s root own -> auditable env s root ->
  exists s', pre_switch_audit_and_patch env (root + g_hhdm s) root s = Ret tt s' /\ grows root 9 (patched env s root) s s'.
Proof.
  intros Hi [Hh Hrip Hlow [Hst Hmax] Hcr Hroot Hroom]. destruct (bi_hh _ _ _ Hi) as [Hh0 Hh1].
  unfold pre_switch_audit_and_patch. rewrite bind_get. cbv zeta. set (old := Z.land (cr3 s) ADDR_MASK) in *.
  rewrite (wrap_small 64 (g_hhdm s + get_max_phys env)) by lia.
  rewrite (proj2 (Z.geb_le _ _)), (proj2 (Z.ltb_lt _ _)) by lia. simpl andb. cbv iota.
  rewrite (bind_Ret (ret _) _ s (u64 (be_rsp env - g_hhdm s)) s) by done. rewrite (wrap_small 64 (be_rsp env - g_hhdm s)) by lia.
  rewrite (bind_Ret _ _ _ _ _ (ensure_range_mapped s root own Hi 512 ltac:(lia) Hlow)).
  destruct (ensure_page_ok s root own Hi (be_rsp env - g_hhdm s)) as (s1 & E1 & G1 & w1 & W1); [done|lia|lia|].
  rewrite (bind_Ret _ _ _ _ _ E1). destruct (grows_hhdm _ _ _ _ _ G1) as [H1 C1], (gr_inv _ _ _ _ _ G1) as [own1 Hi1].
  pose proof (gr_room _ _ _ _ _ G1) as R1. rewrite <- H1.
  destruct (ensure_page_ok s1 root own1 Hi1 old) as (s2 & E2 & G2 & w2 & W2); [congruence|done|lia|].
  rewrite (bind_Ret _ _ _ _ _ E2). destruct (grows_hhdm _ _ _ _ _ G2) as [H2 C2], (gr_inv _ _ _ _ _ G2) as [own2 Hi2].
  pose proof (gr_room _ _ _ _ _ G2) as R2. rewrite <- H2.
  destruct (ensure_page_ok s2 root own2 Hi2 root) as (s3 & E3 & G3 & w3 & W3); [congruence|done|lia|].
  rewrite (bind_Ret _ _ _ _ _ E3). destruct (grows_hhdm _ _ _ _ _ G3) as [H3 C3], (gr_inv _ _ _ _ _ G3) as [own3 Hi3].
  assert (G : grows root (3 + 3 + 3) (patched env s root) s s3).
  { eapply (grows_trans root (3 + 3) 3 (patched env s root)); [eapply (grows_trans root 3 3); [exact G1|exact G2| |]|exact G3|done|];
      unfold patched; cbv beta; intros u; rewrite ?H2, ?H1; [intros ->; left; lia| |]; auto. }
  assert (Hkeep : forall v w, walk_of s root v = Some w -> walk_of s3 root v = Some w) by apply (gr_keep _ _ _ _ _ G).
  rewrite <- H3. clear E1 E2 E3.
  destruct (probe_va_ok s3 root own3 Hi3 "stack" (be_rsp env)) as [c1 P1]. rewrite (bind_Ret _ _ _ _ _ P1).
  destruct (probe_again c1 s3 root own3 "rip" (be_rip env) Hi3) as [c2 P2]. rewrite (bind_Ret _ _ _ _ _ P2).
  destruct (probe_again c2 s3 root own3 "HHDM+0" (g_hhdm s3) Hi3) as [c3 P3]. rewrite (bind_Ret _ _ _ _ _ P3).
  destruct (probe_again c3 s3 root own3 "HHDM+oldCR3" (u64 (g_hhdm s3 + old)) Hi3) as [c4 P4]. rewrite (bind_Ret _ _ _ _ _ P4).
  destruct (probe_again c4 s3 root own3 "HHDM+newCR3" (u64 (g_hhdm s3 + root)) Hi3) as [c5 P5]. rewrite (bind_Ret _ _ _ _ _ P5).
  clear P1 P2 P3 P4 P5. rewrite !wrap_small by lia. apply (console_binv c5) in Hi3 as Hi5.
  assert (Hreq : forall va msg w (k : K pb unit), walk_of s3 root va = Some w ->
    bind (require_mapped va (root + g_hhdm s3) msg) (fun _ => k) (set_console c5 s3) = k (set_console c5 s3)).
  { intros va msg w k Hw. destruct (require_mapped_ok (set_console c5 s3) root own3 Hi5 va w msg Hw) as [pa E].
    change (root + g_hhdm s3) with (root + g_hhdm (set_console c5 s3)). by rewrite (bind_Ret _ _ _ _ _ E). }
  destruct Hrip as [wr Wr]. destruct (Hlow 0 ltac:(lia)) as [w0 W0]. rewrite Z.add_0_r in W0.
  rewrite (Hreq (be_rsp env) _ w1).
  2: { replace (be_rsp env) with (g_hhdm s + (be_rsp env - g_hhdm s)) by lia. apply (gr_keep _ _ _ _ _ G3), (gr_keep _ _ _ _ _ G2), W1. }
  rewrite (Hreq (be_rip env) _ wr) by auto. rewrite (Hreq (g_hhdm s3) _ w0) by (rewrite H3, H2, H1; auto).
  rewrite (Hreq (g_hhdm s3 + old) _ w2) by (rewrite H3, H2; by apply (gr_keep _ _ _ _ _ G3)).
  rewrite (Hreq (g_hhdm s3 + root) _ w3) by (by rewrite H3).
  eexists. split; [reflexivity|]. eapply (grows_trans root (3 + 3 + 3) 0 _ (fun _ => False)); [exact G|by eapply grows_console|done|done].
Qed.

(** ** The root and the identity window *)
Lemma alloc_root s : 0 < g_hhdm s -> g_hhdm s + 2 ^ 46 < 2 ^ 64 -> early_good (pt_early s) -> 0 < early_room (pt_early s) ->
  let f := g_cursor (pt_early s) in
  exists s', alloc_table s = Ret (f + g_hhdm s, f) s' /\ binv s' f {[f := []]} /\ same_rest s s' /\
    (forall v, walk_of s' f v = None) /\ early_room (pt_early s') = early_room (pt_early s) - 1 /\ 0 < f < 2 ^ 46.
Proof.
  intros Hh0 Hh1 He Hr f. destruct (early_page s He Hr) as (e' & Ee & He' & Hb & Hc & Hend & Hroom & Hf & Hfa). fold f in Ee, Hf, Hfa, Hc.
  set (m1 := Paging.zero_words (pt_mem s) (f + g_hhdm s)). exists (set_mem m1 (set_early e' s)). split.
  { unfold alloc_table. rewrite (bind_Ret _ _ _ _ _ Ee), bind_get, (proj2 (Z.eqb_neq _ _)) by (simpl; lia). simpl when.
    rewrite (bind_Ret (ret tt) _ _ tt (set_early e' s)) by done.
    rewrite (bind_Ret (phys_to_virt f) _ _ (f + g_hhdm s) (set_early e' s)); [done|].
    unfold phys_to_virt, gets. simpl. by rewrite wrap_small by lia. }
  assert (Hz : forall i, idx_ok i -> rd m1 (slot (g_hhdm s) f i) = 0) by (intros i Hi; by apply rd_zero_in).
  split; [|split; [by repeat split|split; [|split; [exact Hroom|lia]]]].
  - constructor; [done|apply tree_root; [exact Hz|done|lia]|exact He'| |exact (writable_links_root _ _ _ Hz)].
    intros p [ks [<- _]%lookup_singleton_Some]. simpl. destruct He as ((? & ?) & _). rewrite Hb, Hc. unfold f. lia.
  - intros v. unfold walk_of. cbn [pt_mem g_hhdm set_mem set_early]. pose proof (indices_eq v) as Hp. destruct (vaddr_indices v) as [[[i0 i1] i2] i3].
    destruct (indices_ok _ _ _ _ _ Hp) as (H0 & _). rewrite Hp. cbn [walk]. by rewrite Hz.
Qed.

Lemma identity_spec s root own : binv s root own -> (forall v, 0 <= v < 2 ^ 21 -> ends_below s root v 3) -> 1536 <= early_room (pt_early s) ->
  exists s' own', map_identity_minimal (root + g_hhdm s) s = Ret tt s' /\ prog s s' root 0 (2 ^ 21) 0 rw_nx own' /\
    early_room (pt_early s) - 1536 <= early_room (pt_early s').
Proof.
  intros Hi Hends Hr.
  set (I := fun cur s' => exists own', prog s s' root 0 cur 0 rw_nx own' /\ cur mod 4096 = 0 /\
    early_room (pt_early s) - 3 * (cur / 4096) <= early_room (pt_early s')).
  assert (Hw : wp (map_identity_minimal (root + g_hhdm s) s) (fun _ s' => I (0 + Z.of_nat 512 * PAGE_SIZE) s')).
  { apply (wp_for_steps I).
    - exists own. split; [by apply prog_start|]. split; [done|]. change (0 / 4096) with 0. lia.
    - intros j s1 (k & Hk & ->) (own1 & Hp & Hal & Hroom). unfold PAGE_SIZE in *.
      pose proof (pg_rest _ _ _ _ _ _ _ _ Hp) as (Hh & _).
      destruct (prog_4k s root 0 (2 ^ 21) 0 (Z.lor PTE_W PTE_NX) rw_nx ltac:(lia) eq_refl ltac:(lia) Hends s1 own1 (0 + Z.of_nat k * 4096))
        as (s2 & own2 & E & Hp2 & Hr2); [by intros pa; apply pte_4k_rw_nx|done|done|lia|lia|dm_lia|].
      rewrite Z.sub_0_r, Hh in E. apply wp_ret_inv. exists tt, s2. split; [exact E|]. exists own2. split; [exact Hp2|]. split; dm_lia. }
  apply wp_ret_inv in Hw as ([] & s' & E & own' & Hp & _ & Hroom). exists s', own'. split; [exact E|]. by split.
Qed.

(** ** The whole of [paging_bootstrap] *)
Local Notation HH := Paging.HIGHER_HALF_MEMORY_OFFSET.

(** A sane boot environment: memory below 16 TiB in entries that do not meet, the
    direct map where [paging.h] expects it, the kernel image linked above the
    direct map, the code address in its text and the stack in the direct map. *)
Record boot_sane (env : boot_env) (es : list limine_memmap_entry) (ka : limine_kernel_address) (t0 t1 r0 r1 d0 d1 : Z) : Prop := {
  sn_map : memmap_req (be_limine env) = Some es;
  sn_some : es <> [];
  sn_mem : forall e, e ∈ es -> 0 <= me_base e /\ 0 <= me_length e /\ me_base e + me_length e <= 2 ^ 44;
  sn_apart : ForallOrdPairs apart es;
  sn_hhdm : hhdm_request (be_limine env) = Some HH;
  sn_ka : Kaddress_req (be_limine env) = Some ka;
  sn_layout : layout env ka t0 t1 r0 r1 d0 d1;
  sn_image : HH + 2 ^ 46 <= 4096 * t0;
  sn_rip : 4096 * t0 <= be_rip env < 4096 * t1;
  sn_rsp : HH <= be_rsp env < HH + get_max_phys env;
}.

(** Pages the tables may take. *)
Definition boot_tables (es : list limine_memmap_entry) (t0 d1 : Z) : Z := 1 + 1536 + 3 * (d1 - t0) + (total_tables es + 2) + 9.

Lemma highest_end es : (forall e, e ∈ es -> 0 <= me_base e /\ 0 <= me_length e /\ me_base e + me_length e <= 2 ^ 44) ->
  0 <= foldl (fun max_phys e => let end_ := u64 (me_base e + me_length e) in if end_ >? max_phys then end_ else max_phys) 0 es <= 2 ^ 44.
Proof.
  intros He. assert (Hf : forall a, 0 <= a <= 2 ^ 44 -> 0 <= foldl (fun max_phys e =>
    let end_ := u64 (me_base e + me_length e) in if end_ >? max_phys then end_ else max_phys) a es <= 2 ^ 44); [|apply Hf; lia].
  revert He. induction es as [|e l IH]; intros He a Ha; cbn [foldl]; [done|]. apply IH; [intros; apply He; by right|].
  destruct (He e ltac:(left)) as (?&?&?). rewrite wrap_small by lia. destruct (Z.gtb_spec (me_base e + me_length e) a); lia.
Qed.

Lemma max_phys_bound env es : memmap_req (be_limine env) = Some es -> (forall e, e ∈ es -> 0 <= me_base e /\ 0 <= me_length e /\ me_base e + me_length e <= 2 ^ 44) ->
  0 <= get_max_phys env <= 2 ^ 44.
Proof. intros Hm He. unfold get_max_phys. rewrite Hm. by apply highest_end. Qed.

Lemma sane_mem_ok es : (forall e, e ∈ es -> 0 <= me_base e /\ 0 <= me_length e /\ me_base e + me_length e <= 2 ^ 44) -> Forall mem_ok es.
Proof.
  intros He. apply List.Forall_forall. intros e Hin%list_elem_of_In. destruct (He e Hin) as (?&?&?).
  split; [by split_and!; lia|]. intros _. unfold pg_hi. dm_lia.
Qed.

Lemma hhdm_has_bound es phys : (forall e, e ∈ es -> 0 <= me_base e /\ 0 <= me_length e /\ me_base e + me_length e <= 2 ^ 44) ->
  hhdm_has es phys -> 0 <= phys < 2 ^ 44.
Proof. intros He [Hl|(e & Hin & _ & Hp)]; [lia|]. destruct (He e Hin) as (?&?&?). unfold pg_lo, pg_hi in Hp. dm_lia. Qed.

(** Addresses that no part of the construction maps. *)
Definition unused (t0 d1 v : Z) : Prop := 2 ^ 21 <= v < 2 ^ 47 \/ HH + 2 ^ 44 <= v < 4096 * t0 \/ 4096 * d1 <= v < 2 ^ 64.

(** The address space after the switch. *)
Record address_space (es : list limine_memmap_entry) (ka : limine_kernel_address) (t0 t1 r0 r1 d0 d1 : Z) (s : pb) (root : Z) (own : gmap Z (list Z)) : Prop := {
  as_inv : binv s root own;
  as_hhdm : g_hhdm s = HH;
  as_direct : forall phys, hhdm_has es phys -> hhdm_covers s root phys;
  as_text : section_mapped s root ka (4096 * t0) (4096 * t1) false false;
  as_rodata : section_mapped s root ka (4096 * r0) (4096 * r1) false true;
  as_data : section_mapped s root ka (4096 * d0) (4096 * d1) true true;
  as_unused : forall v, unused t0 d1 v -> walk_of s root v = None;
}.

Lemma space_grows es ka t0 t1 r0 r1 d0 d1 s s' root own own' cost touched : address_space es ka t0 t1 r0 r1 d0 d1 s root own ->
  grows root cost touched s s' -> binv s' root own' -> (forall u v, touched u -> unused t0 d1 v -> path_of u <> path_of v) ->
  address_space es ka t0 t1 r0 r1 d0 d1 s' root own'.
Proof.
  intros [_ Hh Hd Ht Hr Hdt Hu] G Hi Hsep. destruct (grows_hhdm _ _ _ _ _ G) as [Hh' _]. pose proof (gr_keep _ _ _ _ _ G) as Hk.
  assert (Hsec : forall lo hi w nx, section_mapped s root ka lo hi w nx -> section_mapped s' root ka lo hi w nx).
  { intros lo hi w nx Hm v Hv. destruct (Hm v Hv) as (d & e & lvl & Hw & Hrest). exists d, e, lvl. split; [by apply Hk|done]. }
  constructor; auto.
  - congruence.
  - intros phys Hp. destruct (Hd phys Hp) as (d & e & lvl & Hw & Hrest). exists d, e, lvl. rewrite Hh'. split; [by apply Hk|done].
  - intros v Hv. rewrite (gr_other _ _ _ _ _ G); [by apply Hu|]. intros u Ht'. by apply Hsep.
Qed.

Lemma hh_page x : 0 <= x < 2 ^ 47 -> (HH + x) / 4096 mod 2 ^ 36 = 2 ^ 35 + x / 4096.
Proof.
  intros Hx. replace (HH + x) with (x + (65535 * 2 ^ 36 + 2 ^ 35) * 4096) by (unfold Paging.HIGHER_HALF_MEMORY_OFFSET; lia).
  rewrite Z.div_add by lia. replace (x / 4096 + (65535 * 2 ^ 36 + 2 ^ 35)) with (2 ^ 35 + x / 4096 + 65535 * 2 ^ 36) by lia.
  rewrite Z.mod_add by lia. apply Z.mod_small. dm_lia.
Qed.

Lemma low_page v : 0 <= v < 2 ^ 47 -> v / 4096 mod 2 ^ 36 = v / 4096.
Proof. intros Hv. apply Z.mod_small. dm_lia. Qed.

Lemma high_page v : HH <= v < 2 ^ 64 -> v / 4096 mod 2 ^ 36 = 2 ^ 35 + (v - HH) / 4096.
Proof.
  intros Hv. replace v with (HH + (v - HH)) at 1 by lia. apply hh_page. unfold Paging.HIGHER_HALF_MEMORY_OFFSET in *. lia.
Qed.

Lemma low_high u v : 0 <= u < 2 ^ 47 -> HH <= v < 2 ^ 64 -> path_of u <> path_of v.
Proof.
  intros Hu Hv He. apply path_same in He. rewrite low_page, high_page in He by lia. assert (0 <= (v - HH) / 4096) by (apply Z.div_pos; lia). dm_lia.
Qed.

Lemma high_high u v : HH <= u < 2 ^ 64 -> HH <= v < 2 ^ 64 -> path_of u = path_of v -> (u - HH) / 4096 = (v - HH) / 4096.
Proof. intros Hu Hv He. apply path_same in He. rewrite !high_page in He by lia. lia. Qed.

Lemma direct_unused t0 d1 x v : HH + 2 ^ 46 <= 4096 * t0 -> t0 <= d1 -> 4096 * d1 < 2 ^ 64 -> 0 <= x < 2 ^ 44 -> unused t0 d1 v ->
  path_of (HH + x) <> path_of v.
Proof.
  intros Ht Htd Hd Hx Hv He. apply path_same in He. rewrite hh_page in He by lia. destruct Hv as [Hv|Hv].
  - rewrite low_page in He by lia. dm_lia.
  - assert (HH + 2 ^ 44 <= v < 2 ^ 64) by lia. rewrite high_page in He by lia.
    assert (2 ^ 44 / 4096 <= (v - HH) / 4096) by (apply Z.div_le_mono; lia). dm_lia.
Qed.

Section bootstrap.
Context (env : boot_env) (es : list limine_memmap_entry) (ka : limine_kernel_address) (t0 t1 r0 r1 d0 d1 : Z).
Hypothesis Hsane : boot_sane env es ka t0 t1 r0 r1 d0 d1.
Local Abbreviation space := (address_space es ka t0 t1 r0 r1 d0 d1).

Lemma image_bounds : HH + 2 ^ 46 <= 4096 * t0 /\ t0 < t1 <= d1 /\ r0 < r1 <= d1 /\ t0 <= r0 /\ t0 <= d0 < d1 /\ 4096 * d1 < 2 ^ 64.
Proof.
  destruct (ly_order _ _ _ _ _ _ _ _ (sn_layout _ _ _ _ _ _ _ _ _ Hsane)) as (?&?&?).
  destruct (ly_virt _ _ _ _ _ _ _ _ (sn_layout _ _ _ _ _ _ _ _ _ Hsane)) as (_&_&?). pose proof (sn_image _ _ _ _ _ _ _ _ _ Hsane). lia.
Qed.

(** The three builders on an empty root. *)
Lemma builders_ok s root own : binv s root own -> g_hhdm s = HH -> (forall v, walk_of s root v = None) ->
  1536 + 3 * (d1 - t0) + (total_tables es + 2) <= early_room (pt_early s) ->
  exists s' own', (forall k : K pb unit,
      (do! map_identity_minimal (root + HH) in do! map_kernel_higher_half env (root + HH) in do! map_hhdm env (root + HH) in k) s = k s') /\
    space s' root own' /\ same_rest s s' /\ early_room (pt_early s) - (1536 + 3 * (d1 - t0) + (total_tables es + 2)) <= early_room (pt_early s').
Proof.
  intros Hi Hh Hnone Hr. destruct Hsane as [Hm Hne Hmem Hap Hhd Hka Hly _ _ _]. destruct image_bounds as (B1 & B2 & B3 & B4 & B5 & B6).
  assert (Ht : 0 <= total_tables es).
  { pose proof (sane_mem_ok es Hmem) as Hok. clear -Hok. induction Hok as [|e l He _ IH]; simpl; [lia|]. pose proof (tables_nonneg e He). lia. }
  assert (Hempty : forall v d, ends_below s root v d) by (intros v d k e; by rewrite Hnone).
  destruct (identity_spec s root own Hi (fun v _ => Hempty v 3%nat)) as (s1 & own1 & E1 & P1 & R1); [lia|].
  destruct (pg_rest _ _ _ _ _ _ _ _ P1) as (H1 & _).
  assert (W1 : forall v, HH <= v < 2 ^ 64 -> walk_of s1 root v = None).
  { intros v Hv. rewrite (pg_others _ _ _ _ _ _ _ _ P1); [done|]. intros u Hu. apply low_high; lia. }
  destruct (map_kernel_spec env ka s1 root own1 t0 t1 r0 r1 d0 d1 Hka Hly (pg_inv _ _ _ _ _ _ _ _ P1)) as (s2 & own2 & E2 & Hi2 & Hs2 & T2 & RO2 & D2 & O2 & R2).
  { intros v Hv k e. rewrite W1 by lia. done. } { lia. }
  pose proof Hs2 as (H2 & _).
  assert (W2 : forall v, HH <= v < 4096 * t0 \/ 4096 * d1 <= v < 2 ^ 64 -> walk_of s2 root v = None).
  { intros v Hv. rewrite O2; [apply W1; lia|]. intros u Hu He. apply high_high in He; [|lia|lia]. unfold Paging.HIGHER_HALF_MEMORY_OFFSET in *. dm_lia. }
  destruct (map_hhdm_spec env es s2 root own2 Hm Hne Hi2) as (s3 & own3 & E3 & Hi3 & Hs3 & C3 & O3 & R3).
  { by rewrite H2, H1, Hh. } { by apply sane_mem_ok. } { done. }
  { intros phys Hp k e. rewrite H2, H1, Hh, W2; [done|]. left. lia. } { lia. }
  pose proof Hs3 as (H3 & _). assert (H23 : g_hhdm s2 = HH) by congruence. rewrite H23 in O3.
  assert (Hkeep : forall v, 4096 * t0 <= v < 4096 * d1 -> walk_of s3 root v = walk_of s2 root v).
  { intros v Hv. apply O3. intros phys Hp He. pose proof (hhdm_has_bound es phys Hmem Hp).
    apply high_high in He; [|unfold Paging.HIGHER_HALF_MEMORY_OFFSET in *; lia|lia]. unfold Paging.HIGHER_HALF_MEMORY_OFFSET in *. dm_lia. }
  assert (Hsec : forall lo hi w nx, 4096 * t0 <= lo -> hi <= 4096 * d1 -> section_mapped s2 root ka lo hi w nx -> section_mapped s3 root ka lo hi w nx).
  { intros lo hi w nx Hlo Hhi Hms v Hv. rewrite Hkeep by lia. by apply Hms. }
  exists s3, own3. split.
  { intros k. by rewrite <- Hh, (bind_Ret _ _ _ _ _ E1), <- H1, (bind_Ret _ _ _ _ _ E2), <- H2, (bind_Ret _ _ _ _ _ E3). }
  split; [|split; [eapply same_rest_trans; [exact (pg_rest _ _ _ _ _ _ _ _ P1)|by eapply same_rest_trans]|lia]].
  constructor; try done; [congruence|apply Hsec; (lia || done)|apply Hsec; (lia || done)|apply Hsec; (lia || done)|].
  intros v Hv. rewrite O3; [|intros phys Hp; apply (direct_unused t0 d1); first [lia|done|by eapply hhdm_has_bound]].
  destruct Hv as [Hv|Hv]; [|apply W2; lia].
  rewrite O2, (pg_others _ _ _ _ _ _ _ _ P1); [done| |].
  - intros u Hu He. apply path_same in He. rewrite !low_page in He by lia. dm_lia.
  - intros u Hu He. symmetry in He. by apply low_high in He; [|lia|lia].
Qed.

Lemma space_auditable s root own : space s root own -> 0 <= Z.land (cr3 s) ADDR_MASK < 2 ^ 44 -> 0 <= root < 2 ^ 46 ->
  9 <= early_room (pt_early s) -> auditable env s root.
Proof.
  intros [_ Hh Hd Ht _ _ _] Hcr Hroot Hr. destruct Hsane as [Hm _ Hmem _ _ _ _ _ Hrip Hrsp]. pose proof (max_phys_bound env es Hm Hmem).
  constructor; [by rewrite Hh| | |rewrite Hh; lia|lia|lia|lia].
  - destruct (Ht _ Hrip) as (d & e & lvl & Hw & _). by exists (d, e).
  - intros x Hx. destruct (Hd x) as (d & e & lvl & Hw & _); [by left|]. by exists (d, e).
Qed.

(** The kernel moves to its own address space: in a sane boot environment with early pages
    enough for the tables, [paging_bootstrap] returns with CR3 on the new root, whose
    tables lie on pages the bump allocator has handed out; all memory of the map
    (and the first 2 MiB) is reached at its direct-map address, the kernel image is
    W^X, and the rest of the upper half, the heap window included, is unmapped. *)
Theorem paging_bootstrap_ok s : early_good (pt_early s) -> g_end (pt_early s) <= 2 ^ 44 -> 0 <= Z.land (cr3 s) ADDR_MASK < 2 ^ 44 ->
  boot_tables es t0 d1 <= early_room (pt_early s) ->
  let root := g_cursor (pt_early s) in
  exists s' own, paging_bootstrap env s = Ret tt s' /\ cr3 s' = root /\ space s' root own /\
    g_base (pt_early s') = g_base (pt_early s) /\ g_end (pt_early s') = g_end (pt_early s) /\
    early_room (pt_early s) - boot_tables es t0 d1 <= early_room (pt_early s').
Proof.
  intros He Hend Hcr Hr root. destruct image_bounds as (B1 & B2 & B3 & B4 & B5 & B6).
  destruct Hsane as [Hm _ Hmem _ Hhd _ _ _ Hrip Hrsp]. pose proof (max_phys_bound env es Hm Hmem) as Hmax. unfold boot_tables in Hr.
  assert (Ht : 0 <= total_tables es).
  { pose proof (sane_mem_ok es Hmem) as Hok. clear -Hok. induction Hok as [|e l Hx _ IH]; simpl; [lia|]. pose proof (tables_nonneg e Hx). lia. }
  unfold paging_bootstrap. rewrite Hhd, bind_modify. change (HH =? 0) with false. cbn [when].
  rewrite (bind_Ret (ret tt) _ _ tt (set_hhdm HH s)) by done.
  destruct (alloc_root (set_hhdm HH s)) as (s1 & E1 & Hi1 & Hs1 & W1 & R1 & Hroot); [done|done|done|cbn; lia|].
  cbn [pt_early g_hhdm set_hhdm] in *. fold root in E1, Hi1, W1, Hroot. rewrite (bind_Ret _ _ _ _ _ E1), bind_modify. cbv beta iota.
  pose proof Hs1 as (H1 & C1 & _ & _ & _ & Hb1 & He1). cbn in H1, C1, Hb1, He1.
  set (s2 := set_pml4 root (root + HH) s1).
  assert (Hi2 : binv s2 root {[root := []]}) by (destruct Hi1; by constructor).
  destruct (builders_ok s2 root {[root := []]} Hi2) as (s3 & own3 & E3 & A3 & Hs3 & R3); [done|done|cbn; lia|].
  rewrite E3. pose proof A3 as [Hi3 Hh3 _ _ _ _ _]. pose proof Hs3 as (_ & C3 & _ & _ & _ & Hb3 & He3). cbn in C3, Hb3, He3.
  rewrite <- Hh3. destruct (probes_ok s3 root own3 Hi3) as [c E4]. rewrite E4. set (s4 := set_console c s3).
  apply (console_binv c) in Hi3 as Hi4. fold s4 in Hi4. unfold install_new_cr3.
  assert (G4 : grows root 0 (fun _ => False) s3 s4) by by eapply grows_console.
  pose proof (space_grows _ _ _ _ _ _ _ _ s3 s4 root own3 own3 _ _ A3 G4 Hi4 ltac:(done)) as A4.
  assert (Hold : Z.land (cr3 s4) ADDR_MASK = Z.land (cr3 s) ADDR_MASK) by (cbn; congruence).
  destruct (audit_ok env s4 root own3 Hi4) as (s5 & E5 & G5); [by apply (space_auditable s4 root own3); (done || cbn in *; lia)|].
  change (g_hhdm s3) with (g_hhdm s4). rewrite (bind_Ret _ _ _ _ _ E5).
  destruct (gr_inv _ _ _ _ _ G5) as [own5 Hi5], (gr_rest _ _ _ _ _ G5) as [c5 (_ & C5 & _ & _ & _ & Hb5 & He5)]. cbn in Hb5, He5.
  pose proof (gr_room _ _ _ _ _ G5) as R5. cbn in R5.
  assert (A5 : space s5 root own5).
  { eapply (space_grows _ _ _ _ _ _ _ _ s4 s5); [exact A4|exact G5|done|]. intros u v Hu Hv. unfold patched in Hu. rewrite Hold in Hu.
    assert (exists x, u = HH + x /\ 0 <= x < 2 ^ 44) as (x & -> & Hx).
    { destruct Hu as [->|[->| ->]]; [exists (be_rsp env - HH); lia| |];
        (eexists; split; [cbn; rewrite Hh3; reflexivity|]); [lia|]. destruct He as (? & ? & ? & ?). unfold root, early_room in *. dm_lia. }
    apply (direct_unused t0 d1); (lia || done). }
  eexists _, own5. split; [reflexivity|]. split; [reflexivity|]. split.
  { destruct A5 as [[] A51 A52 A53 A54 A55 A56]. constructor; [by constructor|exact A51|exact A52|exact A53|exact A54|exact A55|exact A56]. }
  unfold boot_tables. cbn. change (pt_early s2) with (pt_early s1) in R3. split_and!; [congruence|congruence|lia].
Qed.
End bootstrap.
End PagingSwitch.
