(* ===== verification/Numeral.v ===== *)
(** Positional numerals, the reference for the digit loops of the kernel's
    number printers. *)
From S2P Require Import Prelude.

(** Value of a list of digits, least significant first. *)
Definition value_le (base : Z) (ds : list Z) : Z := foldr (fun d acc => d + base * acc) 0 ds.

(** [ds] is the numeral of [v] in [base], least significant digit first, with no
    superfluous zero. *)
Definition numeral (base : Z) (ds : list Z) (v : Z) : Prop :=
  Forall (fun d => 0 <= d < base) ds /\ value_le base ds = v /\ ds <> [] /\
  (last ds = Some 0 -> ds = [0]).

Lemma value_le_cons base d ds : value_le base (d :: ds) = d + base * value_le base ds.
Proof. done. Qed.

Lemma last_cons_ne {A} (d : A) ds : ds <> [] -> last (d :: ds) = last ds.
Proof. by destruct ds. Qed.

Lemma value_le_nonneg base ds : 0 <= base -> Forall (fun d => 0 <= d < base) ds -> 0 <= value_le base ds.
Proof. intros Hb. induction 1; cbn; [done|]. unfold value_le in *. nia. Qed.

Lemma value_le_lower base ds x :
  2 <= base -> Forall (fun d => 0 <= d < base) ds -> last ds = Some x -> x <> 0 ->
  base ^ (Z.of_nat (length ds) - 1) <= value_le base ds.
Proof.
  intros Hb Hds. revert x. induction Hds as [|d ds Hd Hds IH]; intros x Hl Hx; [done|].
  rewrite value_le_cons. destruct ds as [|d' ds'].
  - injection Hl as ->. cbn. lia.
  - specialize (IH x Hl Hx). cbn [length] in *.
    replace (Z.of_nat (S (S (length ds'))) - 1) with (Z.succ (Z.of_nat (S (length ds')) - 1)) by lia.
    rewrite Z.pow_succ_r by lia. nia.
Qed.

Lemma numeral_length base ds v n :
  2 <= base -> numeral base ds v -> v < base ^ Z.of_nat n -> (0 < n)%nat -> (length ds <= n)%nat.
Proof.
  intros Hb (Hds & <- & Hne & Hlast) Hv Hn. destruct (last ds) as [x|] eqn:El.
  - destruct (decide (x = 0)) as [->|Hx]; [rewrite (Hlast eq_refl); simpl; lia|].
    pose proof (value_le_lower base ds x Hb Hds El Hx) as Hlow.
    destruct (decide (length ds <= n)%nat); [done|].
    assert (base ^ Z.of_nat n <= base ^ (Z.of_nat (length ds) - 1)) by (apply Z.pow_le_mono_r; lia). lia.
  - by apply last_None in El.
Qed.

(** The same value, read from the most significant digit on. *)
Definition value_be (base acc : Z) (ds : list Z) : Z := fold_left (fun a d => a * base + d) ds acc.

Lemma value_be_rev base ds acc :
  value_be base acc (rev ds) = acc * base ^ Z.of_nat (length ds) + value_le base ds.
Proof.
  revert acc. induction ds as [|d ds IH]; intros acc; cbn [rev length].
  { cbn. lia. }
  unfold value_be. rewrite fold_left_app. fold (value_be base acc (rev ds)). rewrite IH, value_le_cons. cbn [fold_left].
  rewrite Nat2Z.inj_succ, Z.pow_succ_r by lia. nia.
Qed.

(** A numeral grows by its least significant digit. *)
Lemma numeral_cons base d ds v :
  2 <= base -> 0 <= d < base -> 0 < v -> numeral base ds v -> numeral base (d :: ds) (d + base * v).
Proof.
  intros Hb Hd Hv (Hds & Hval & Hne & Hlast). split_and!.
  - by constructor.
  - by rewrite value_le_cons, Hval.
  - done.
  - rewrite last_cons_ne by done. intros H0. rewrite (Hlast H0) in Hval. cbn in Hval. lia.
Qed.

Lemma numeral_digit base d : 0 <= d < base -> numeral base [d] d.
Proof. intros Hd. split_and!; [by constructor|cbn; lia|done|]. cbn. by intros [= ->]. Qed.
