(* ===== verification/CString.v ===== *)
(** The kernel's byte and string routines: [memset.c], [memcpy.c],
    [memmove.c], [memcmp.c], [strlen.c], [strncpy.c], [strtok.c],
    [str2int.c] and [int2srt.c] of [src/src].

    Memory is a finite map from mapped byte addresses to bytes; touching an
    address outside it faults.  Pointer arithmetic wraps at 64 bits.  Loops over
    a string run with one round of fuel per mapped byte: a string without
    terminator runs off the mapped range and faults. *)
From S2P Require Import Prelude.

Abbreviation bmem := (gmap Z Z).

Definition load8 (a : Z) : K bmem Z := fun m =>
  match m !! a with
  | Some b => Ret b m
  | None => Fault a m
  end.
Definition store8 (a b : Z) : K bmem unit := fun m =>
  match m !! a with
  | Some _ => Ret tt (<[a := b]> m)
  | None => Fault a m
  end.

(** [p[i]] and [p[i] = b] *)
Definition idx8 (p i : Z) : Z := u64 (p + i).
Definition load_char (p i : Z) : K bmem Z := let! b := load8 (idx8 p i) in ret (i8 b).

(** * Memory *)
Definition memset (bufptr value size : Z) : K bmem Z :=
  do! for_range 0 size (fun i => store8 (idx8 bufptr i) (u8 value)) in
  ret bufptr.

Definition memcpy (dstptr srcptr size : Z) : K bmem Z :=
  do! for_range 0 size (fun i => let! b := load8 (idx8 srcptr i) in store8 (idx8 dstptr i) b) in
  ret dstptr.

Definition memmove (dstptr srcptr size : Z) : K bmem Z :=
  do! (if dstptr <? srcptr then
         for_range 0 size (fun i => let! b := load8 (idx8 srcptr i) in store8 (idx8 dstptr i) b)
       else
         for_steps (Z.to_nat size) size (-1)
           (fun i => let! b := load8 (idx8 srcptr (i - 1)) in store8 (idx8 dstptr (i - 1)) b)) in
  ret dstptr.

Fixpoint memcmp_loop (n : nat) (a b i : Z) : K bmem Z :=
  match n with
  | O => ret 0
  | S n' =>
      let! x := load8 (idx8 a i) in
      let! y := load8 (idx8 b i) in
      if x <? y then ret (-1)
      else if y <? x then ret 1
      else memcmp_loop n' a b (i + 1)
  end.
Definition memcmp (aptr bptr size : Z) : K bmem Z := memcmp_loop (Z.to_nat size) aptr bptr 0.

(** * Strings *)
Fixpoint strlen_loop (fuel : nat) (str len : Z) : K bmem Z :=
  match fuel with
  | O => fun m => Hang m
  | S fuel' =>
      let! c := load_char str len in
      if c =? 0 then ret len else strlen_loop fuel' str (u64 (len + 1))
  end.
Definition strlen (str : Z) : K bmem Z :=
  let! m := get in strlen_loop (S (size m)) str 0.

Fixpoint strncpy_loop (n : nat) (dest src i : Z) : K bmem Z :=
  match n with
  | O => ret i
  | S n' =>
      let! c := load8 (idx8 src i) in
      if c =? 0 then ret i else
      do! store8 (idx8 dest i) c in strncpy_loop n' dest src (i + 1)
  end.
Definition strncpy (dest src n : Z) : K bmem Z :=
  let! i := strncpy_loop (Z.to_nat n) dest src 0 in
  do! for_range i n (fun i => store8 (idx8 dest i) 0) in
  ret dest.

(** Store of an 8-byte pointer, little-endian. *)
Definition store64 (a v : Z) : K bmem unit :=
  for_range 0 8 (fun k => store8 (idx8 a k) (u8 (Z.shiftr v (8 * k)))).

Section strtok.
(** The heap that [strtok] allocates its result from. *)
Context (kmalloc : Z -> K bmem Z).

(** First loop: cut the string at the separators, count them. *)
Fixpoint strtok_cut (n : nat) (srcstr sep i numparts : Z) : K bmem Z :=
  match n with
  | O => ret numparts
  | S n' =>
      let! c := load_char srcstr i in
      if c =? sep then
        do! store8 (idx8 srcstr i) 0 in strtok_cut n' srcstr sep (i + 1) (i32 (numparts + 1))
      else strtok_cut n' srcstr sep (i + 1) numparts
  end.

(** Second loop: one pointer after every terminator. *)
Fixpoint strtok_point (n : nat) (srcstr i currentpart : Z) : K bmem unit :=
  match n with
  | O => ret tt
  | S n' =>
      let! c := load_char srcstr i in
      if c =? 0 then
        let currentpart := u64 (currentpart + 8) in
        do! store64 currentpart (idx8 srcstr (i + 1)) in
        strtok_point n' srcstr (i + 1) currentpart
      else strtok_point n' srcstr (i + 1) currentpart
  end.

(** The result: number of parts and the array stored to [*output]. *)
Definition strtok (srcstr sep : Z) : K bmem (Z * Z) :=
  let! len := strlen srcstr in
  let len := i32 len in
  let! numparts := strtok_cut (Z.to_nat len) srcstr sep 0 0 in
  let numparts := i32 (numparts + 1) in
  let! output := kmalloc (u64 (numparts * 8)) in
  if output =? 0 then ret (0, 0) else
  do! store64 output srcstr in
  do! strtok_point (Z.to_nat len) srcstr 0 output in
  ret (numparts, output).
End strtok.

(** * Numbers

    Signed overflow, which C leaves undefined, wraps. *)
Fixpoint str2int_loop (fuel : nat) (str i result : Z) : K bmem Z :=
  match fuel with
  | O => fun m => Hang m
  | S fuel' =>
      let! c := load_char str i in
      if c =? 0 then ret result else
      if (c <? 48) || (c >? 57) then ret 0 else
      str2int_loop fuel' str (i32 (i + 1)) (i32 (i32 (result * 10) + (c - 48)))
  end.
Definition str2int (str : Z) : K bmem Z :=
  let! m := get in str2int_loop (S (size m)) str 0 0.

Fixpoint str2int2_loop (fuel : nat) (str i res : Z) : K bmem Z :=
  match fuel with
  | O => fun m => Hang m
  | S fuel' =>
      let! c := load_char str i in
      if c =? 0 then ret res else
      let digit := u64 (c - 48) in
      str2int2_loop fuel' str (u64 (i + 1)) (u64 (u64 (res * 10) + digit))
  end.
Definition str2int2 (str : Z) : K bmem Z :=
  let! m := get in str2int2_loop (S (size m)) str 0 0.

(** Digit loop of [int_to_str]: stores to the caller's buffer, least significant
    digit first, and returns the number of digits. *)
Fixpoint int_digits (fuel : nat) (buffer value i : Z) : K bmem Z :=
  match fuel with
  | O => fun m => Hang m
  | S fuel' =>
      let digit := Z.rem value 10 in
      do! store8 (idx8 buffer i) (u8 (48 + digit)) in
      let value := Z.quot value 10 in
      if value >? 0 then int_digits fuel' buffer value (i + 1) else ret (i + 1)
  end.

Definition swap8 (p i j : Z) : K bmem unit :=
  let! tmp := load8 (idx8 p i) in
  let! c := load8 (idx8 p j) in
  do! store8 (idx8 p i) c in
  store8 (idx8 p j) tmp.

Definition int_to_str (value buffer : Z) : K bmem Z :=
  let is_negative := value <? 0 in
  let value := if is_negative then i32 (- value) else value in
  let! i := int_digits 32 buffer value 0 in
  let! i := (if is_negative then do! store8 (idx8 buffer i) 45 in ret (i + 1) else ret i) in
  do! store8 (idx8 buffer i) 0 in
  do! for_range 0 (i / 2) (fun j => swap8 buffer j (i - j - 1)) in
  ret buffer.

(** [char tmp[21]], as the list of the digits written to it; the 22nd write
    would leave the array. *)
Fixpoint u64_digits (fuel : nat) (tmp : list Z) (val : Z) : K bmem (list Z) :=
  match fuel with
  | O => fun m => Hang m
  | S fuel' =>
      if Z.of_nat (length tmp) <? 21 then
        let tmp := tmp ++ [48 + val mod 10] in
        let val := val / 10 in
        if val >? 0 then u64_digits fuel' tmp val else ret tmp
      else fault 0
  end.

Definition u64_to_str (val buf : Z) : K bmem unit :=
  let! tmp := u64_digits 64 [] val in
  let i := Z.of_nat (length tmp) in
  do! store8 (idx8 buf i) 0 in
  do! for_range 0 i (fun j =>
        match tmp !! Z.to_nat (i - j - 1) with
        | Some c => store8 (idx8 buf j) c
        | None => fault 0
        end) in
  store8 (idx8 buf i) 0.
