(* ===== verification/CStringSpec.v ===== *)
(** What the byte and string routines compute, stated on the bytes of memory:
    copies and comparisons, decimal conversions and their round trip, and the
    split of a string into its parts. *)
From S2P Require Import Prelude Numeral CString.

Module CStringSpec.

(** * Regions of memory *)
Definition mapped (m : bmem) (a n : Z) : Prop := forall x, a <= x < a + n -> is_Some (m !! x).
Definition in_space (a n : Z) : Prop := 0 <= a /\ a + n <= 2 ^ 64.

(** The bytes [l] lie at [a]. *)
Definition region (m : bmem) (a : Z) (l : list Z) : Prop :=
  forall i b, l !! i = Some b -> m !! (a + Z.of_nat i) = Some b.

Lemma idx8_in a n i : in_space a n -> 0 <= i < n -> idx8 a i = a + i.
Proof. intros [? ?] ?. apply wrap_small. lia. Qed.

Lemma wp_load8 a b (m : bmem) (Q : Z -> bmem -> Prop) : m !! a = Some b -> Q b m -> wp (load8 a m) Q.
Proof. intros H ?. unfold load8. by rewrite H. Qed.

Lemma wp_store8 a b (m : bmem) (Q : unit -> bmem -> Prop) : is_Some (m !! a) -> Q tt (<[a := b]> m) -> wp (store8 a b m) Q.
Proof. intros [x H] ?. unfold store8. by rewrite H. Qed.

(** * Copies *)

(** [m'] is [m] with [n] bytes of [m] at [src] copied to [dst + lo ..]. *)
Definition copied (m : bmem) (dst src lo hi : Z) (m' : bmem) : Prop :=
  forall x, m' !! x = if decide (dst + lo <= x < dst + hi) then m !! (src + (x - dst)) else m !! x.

(** One copied byte extends the copied interval at either end. *)
Lemma copied_step (m m' : bmem) dst src lo hi lo' hi' j b :
  copied m dst src lo hi m' -> m !! (src + j) = Some b ->
  lo' <= j < hi' -> (forall x, dst + lo' <= x < dst + hi' <-> x = dst + j \/ dst + lo <= x < dst + hi) ->
  copied m dst src lo' hi' (<[dst + j := b]> m').
Proof.
  intros H Hb Hj Hx x. destruct (decide (x = dst + j)) as [->|Hne].
  - rewrite lookup_insert_eq, decide_True by lia. by replace (src + (dst + j - dst)) with (src + j) by lia.
  - rewrite lookup_insert_ne by done. rewrite H.
    destruct (decide (dst + lo' <= x < dst + hi')) as [Hin|Hout].
    + rewrite decide_True; [done|]. apply Hx in Hin. naive_solver.
    + rewrite decide_False; [done|]. intros ?. apply Hout, Hx. by right.
Qed.

Lemma copied_empty m dst src lo : copied m dst src lo lo m.
Proof. intros x. by rewrite decide_False by lia. Qed.

Lemma mapped_at m a n i : mapped m a n -> 0 <= i < n -> is_Some (m !! (a + i)).
Proof. intros H ?. apply H. lia. Qed.

Section copies.
Context (m : bmem) (dst src n : Z).
Hypothesis (Hn : 0 <= n) (Hd : in_space dst n) (Hs : in_space src n).
Hypothesis (Md : mapped m dst n) (Ms : mapped m src n).

(** A copied memory maps what the original mapped in the destination. *)
Lemma copied_mapped lo hi m' : 0 <= lo -> hi <= n -> copied m dst src lo hi m' -> mapped m' dst n.
Proof.
  intros ? ? H x Hx. rewrite H. case_decide; [|by apply Md]. apply Ms. lia.
Qed.

(** Ascending copy: right whenever the source is not overwritten before it is
    read. *)
Lemma copy_up :
  dst <= src \/ src + n <= dst ->
  wp (for_range 0 n (fun i => let! b := load8 (idx8 src i) in store8 (idx8 dst i) b) m)
    (fun _ m' => copied m dst src 0 n m').
Proof.
  intros Hov. eapply wp_mono; [apply (wp_for_range (fun j m' => copied m dst src 0 j m'))|done].
  - done.
  - apply copied_empty.
  - intros j m' Hj HI. rewrite !(idx8_in _ n) by (done || lia).
    destruct (mapped_at m src n j Ms Hj) as [b Hb].
    apply wp_bind. eapply wp_load8 with (b := b).
    { rewrite HI. rewrite decide_False by lia. done. }
    apply wp_store8.
    { apply (copied_mapped 0 j m'); [lia|lia|done|lia]. }
    eapply copied_step; [exact HI|exact Hb|lia|]. intros x. lia.
Qed.

(** Descending copy: right when the destination does not lie below the source. *)
Lemma copy_down :
  src <= dst ->
  wp (for_steps (Z.to_nat n) n (-1)
        (fun i => let! b := load8 (idx8 src (i - 1)) in store8 (idx8 dst (i - 1)) b) m)
    (fun _ m' => copied m dst src 0 n m').
Proof.
  intros Hov. eapply wp_mono.
  - apply (wp_for_steps (fun j m' => 0 <= j <= n /\ copied m dst src j n m')).
    + split; [lia|apply copied_empty].
    + intros j m' (k & Hk & ->) [Hj HI]. set (j := n + Z.of_nat k * -1) in *.
      rewrite !(idx8_in _ n) by (done || lia).
      destruct (mapped_at m src n (j - 1) Ms ltac:(lia)) as [b Hb].
      apply wp_bind. eapply wp_load8 with (b := b).
      { rewrite HI. rewrite decide_False by lia. done. }
      apply wp_store8.
      { apply (copied_mapped j n m'); [lia|lia|done|lia]. }
      split; [lia|]. eapply copied_step; [exact HI|exact Hb|lia|]. intros x. lia.
  - intros _ m' [_ H]. by replace (n + Z.of_nat (Z.to_nat n) * -1) with 0 in H by lia.
Qed.
End copies.

(** * Reading strings *)
Lemma region_app m a l1 l2 : region m a (l1 ++ l2) <-> region m a l1 /\ region m (a + Z.of_nat (length l1)) l2.
Proof.
  split.
  - intros H. split; intros i b Hi.
    + apply H. by apply lookup_app_l_Some.
    + replace (a + Z.of_nat (length l1) + Z.of_nat i) with (a + Z.of_nat (length l1 + i)) by lia.
      apply H. rewrite lookup_app_r by lia. by replace (length l1 + i - length l1)%nat with i by lia.
  - intros [H1 H2] i b [Hi|[Hle Hi]]%lookup_app_Some; [by apply H1|].
    specialize (H2 _ _ Hi). by replace (a + Z.of_nat (length l1) + Z.of_nat (i - length l1)) with (a + Z.of_nat i) in H2 by lia.
Qed.

Lemma region_cons m a c l : region m a (c :: l) <-> m !! a = Some c /\ region m (a + 1) l.
Proof.
  rewrite (region_app m a [c] l). cbn [length]. change (Z.of_nat 1) with 1. split; intros [H1 H2]; (split; [|done]).
  - specialize (H1 O c eq_refl). by rewrite Z.add_0_r in H1.
  - intros [|[]] b Hb; cbn in Hb; simplify_eq. by rewrite Z.add_0_r.
Qed.

(** A region has no more bytes than memory. *)
Lemma region_size m a l : region m a l -> (length l <= size m)%nat.
Proof.
  intros H. assert (Hsub : list_to_set (seqZ a (Z.of_nat (length l))) ⊆ (dom m : gset Z)).
  { intros x Hx. apply elem_of_list_to_set, elem_of_seqZ in Hx.
    destruct (lookup_lt_is_Some_2 l (Z.to_nat (x - a)) ltac:(lia)) as [b Hb].
    apply elem_of_dom. exists b. specialize (H _ _ Hb). by replace (a + Z.of_nat (Z.to_nat (x - a))) with x in H by lia. }
  apply subseteq_size in Hsub. rewrite size_dom in Hsub.
  rewrite size_list_to_set in Hsub by apply NoDup_seqZ. rewrite length_seqZ in Hsub. lia.
Qed.

(** [cstring m a l]: the terminated string of the non-zero [char]s [l] lies at
    [a]. *)
Definition cstring (m : bmem) (a : Z) (l : list Z) : Prop :=
  region m a (l ++ [0]) /\ Forall (fun c => 0 < c < 128) l /\ in_space a (Z.of_nat (length l) + 1).

Lemma cstring_char m a pre c l :
  cstring m a (pre ++ c :: l) -> load_char a (Z.of_nat (length pre)) m = Ret c m /\ c <> 0.
Proof.
  intros (Hr & Hc & Hs). unfold load_char, load8.
  rewrite (idx8_in a _ (Z.of_nat (length pre)) Hs) by (rewrite length_app; simpl; lia).
  rewrite <- app_assoc in Hr. apply region_app in Hr as [_ [Hr _]%region_cons]. unfold bind. rewrite Hr. cbn.
  apply Forall_app in Hc as [_ [Hc _]%Forall_cons]. split; [|lia]. f_equal. unfold swrap. rewrite Z.mod_small; lia.
Qed.

Lemma cstring_end m a l : cstring m a l -> load_char a (Z.of_nat (length l)) m = Ret 0 m.
Proof.
  intros (Hr & Hc & Hs). unfold load_char, load8. rewrite (idx8_in a _ _ Hs) by lia.
  apply region_app in Hr as [_ [Hr _]%region_cons]. unfold bind. by rewrite Hr.
Qed.

Lemma cstring_fuel m a l : cstring m a l -> (length l < size m)%nat.
Proof. intros (Hr%region_size & _). rewrite length_app in Hr. simpl in Hr. lia. Qed.

Lemma strlen_loop_spec m a pre l fuel :
  cstring m a (pre ++ l) -> (length l < fuel)%nat ->
  strlen_loop fuel a (Z.of_nat (length pre)) m = Ret (Z.of_nat (length (pre ++ l))) m.
Proof.
  revert pre fuel. induction l as [|c l IH]; intros pre fuel Hc Hf; (destruct fuel as [|n]; [simpl in Hf; lia|]); cbn [strlen_loop].
  - rewrite app_nil_r in *. rewrite (bind_Ret _ _ _ _ _ (cstring_end _ _ _ Hc)). done.
  - destruct (cstring_char _ _ _ _ _ Hc) as [Hl Hne]. rewrite (bind_Ret _ _ _ _ _ Hl).
    rewrite (proj2 (Z.eqb_neq c 0) Hne). rewrite cons_middle, app_assoc in Hc.
    specialize (IH (pre ++ [c]) n Hc ltac:(simpl in Hf; lia)). rewrite length_app in IH. cbn [length] in IH.
    rewrite wrap_small by (destruct Hc as (_ & _ & ? & ?); rewrite !length_app in *; simpl in *; lia).
    replace (Z.of_nat (length pre) + 1) with (Z.of_nat (length pre + 1)) by lia. rewrite IH.
    by rewrite <- app_assoc.
Qed.

Lemma strlen_spec m a l : cstring m a l -> strlen a m = Ret (Z.of_nat (length l)) m.
Proof.
  intros Hc. unfold strlen. rewrite bind_get. apply (strlen_loop_spec m a [] l); [done|].
  apply cstring_fuel in Hc. lia.
Qed.

(** * Decimal strings *)
Definition dec (d : Z) : Z := 48 + d.
Abbreviation is_digits := (Forall (fun d => 0 <= d < 10)).

Lemma str2int2_loop_spec m a pre ds fuel res :
  cstring m a (map dec (pre ++ ds)) -> (length ds < fuel)%nat -> is_digits ds ->
  str2int2_loop fuel a (Z.of_nat (length pre)) (u64 res) m = Ret (u64 (value_be 10 res ds)) m.
Proof.
  revert pre fuel res. induction ds as [|d ds IH]; intros pre fuel res Hc Hf Hd;
    (destruct fuel as [|n]; [simpl in Hf; lia|]); cbn [str2int2_loop].
  - rewrite app_nil_r in *. apply cstring_end in Hc. rewrite length_map in Hc. by rewrite (bind_Ret _ _ _ _ _ Hc).
  - pose proof Hc as Hc'. rewrite map_app in Hc'. cbn [map] in Hc'. apply cstring_char in Hc' as [Hl Hne].
    rewrite length_map in Hl. rewrite (bind_Ret _ _ _ _ _ Hl). rewrite (proj2 (Z.eqb_neq _ 0) Hne).
    apply Forall_cons in Hd as [Hd Hds]. rewrite cons_middle, app_assoc in Hc.
    specialize (IH (pre ++ [d]) n (res * 10 + d) Hc ltac:(simpl in Hf; lia) Hds).
    rewrite length_app in IH. cbn [length] in IH.
    rewrite (wrap_small 64 (Z.of_nat (length pre) + 1))
      by (destruct Hc as (_ & _ & ? & ?); rewrite length_map, !length_app in *; simpl in *; lia).
    replace (Z.of_nat (length pre) + 1) with (Z.of_nat (length pre + 1)) by lia.
    replace (u64 (u64 (u64 res * 10) + u64 (dec d - 48))) with (u64 (res * 10 + d)); [exact IH|].
    unfold dec. replace (48 + d - 48) with d by lia. unfold wrap.
    rewrite Zplus_mod_idemp_r, Zplus_mod_idemp_l, (Zplus_mod (res mod 2 ^ 64 * 10)), Zmult_mod_idemp_l, <- Zplus_mod. done.
Qed.

(** [str2int2] reads the decimal value, modulo [2^64]. *)
Lemma str2int2_spec m a ds :
  cstring m a (map dec ds) -> is_digits ds -> str2int2 a m = Ret (u64 (value_be 10 0 ds)) m.
Proof.
  intros Hc Hd. unfold str2int2. rewrite bind_get. pose proof (cstring_fuel _ _ _ Hc) as Hf. rewrite length_map in Hf.
  apply (str2int2_loop_spec m a [] ds (S (size m)) 0); [done|lia|done].
Qed.


Lemma value_be_mono res ds : 0 <= res -> is_digits ds -> res <= value_be 10 res ds.
Proof.
  intros Hr Hd. revert res Hr. induction Hd as [|d ds Hd _ IH]; intros res Hr; cbn; [done|].
  fold (value_be 10 (res * 10 + d) ds). specialize (IH (res * 10 + d)). lia.
Qed.

Lemma str2int_loop_spec m a pre ds fuel res :
  cstring m a (map dec (pre ++ ds)) -> (length ds < fuel)%nat -> is_digits ds ->
  Z.of_nat (length (pre ++ ds)) < 2 ^ 31 -> 0 <= res -> value_be 10 res ds < 2 ^ 31 ->
  str2int_loop fuel a (Z.of_nat (length pre)) res m = Ret (value_be 10 res ds) m.
Proof.
  revert pre fuel res. induction ds as [|d ds IH]; intros pre fuel res Hc Hf Hd Hlen Hr Hv;
    (destruct fuel as [|n]; [simpl in Hf; lia|]); cbn [str2int_loop].
  - rewrite app_nil_r in *. apply cstring_end in Hc. rewrite length_map in Hc. by rewrite (bind_Ret _ _ _ _ _ Hc).
  - pose proof Hc as Hc'. rewrite map_app in Hc'. cbn [map] in Hc'. apply cstring_char in Hc' as [Hl Hne].
    rewrite length_map in Hl. rewrite (bind_Ret _ _ _ _ _ Hl). rewrite (proj2 (Z.eqb_neq _ 0) Hne).
    apply Forall_cons in Hd as [Hd Hds]. rewrite cons_middle, app_assoc in Hc.
    change (value_be 10 res (d :: ds)) with (value_be 10 (res * 10 + d) ds) in *.
    pose proof (value_be_mono (res * 10 + d) ds ltac:(lia) Hds).
    rewrite cons_middle, app_assoc in Hlen.
    specialize (IH (pre ++ [d]) n (res * 10 + d) Hc ltac:(simpl in Hf; lia) Hds Hlen ltac:(lia) Hv).
    rewrite !length_app in *. cbn [length] in *.
    unfold dec. rewrite (proj2 (Z.ltb_ge _ 48)), Z.gtb_ltb, (proj2 (Z.ltb_ge 57 _)) by lia. cbn [orb].
    rewrite (swrap_small 32 (Z.of_nat _ + 1)), (swrap_small 32 (res * 10)), (swrap_small 32 (res * 10 + _)) by lia.
    replace (Z.of_nat (length pre) + 1) with (Z.of_nat (length pre + 1)) by lia.
    by replace (res * 10 + (48 + d - 48)) with (res * 10 + d) by lia.
Qed.

(** [str2int] reads a decimal string whose value fits an [int]. *)
Lemma str2int_spec m a ds :
  cstring m a (map dec ds) -> is_digits ds -> Z.of_nat (length ds) < 2 ^ 31 -> value_be 10 0 ds < 2 ^ 31 ->
  str2int a m = Ret (value_be 10 0 ds) m.
Proof.
  intros Hc Hd Hl Hv. unfold str2int. rewrite bind_get. pose proof (cstring_fuel _ _ _ Hc) as Hf. rewrite length_map in Hf.
  apply (str2int_loop_spec m a [] ds); [done|lia|done|done|lia|done].
Qed.

(** * Writing strings *)

(** [m'] is [m] with the bytes [l] at [a]. *)
Definition written (m : bmem) (a : Z) (l : list Z) (m' : bmem) : Prop :=
  forall x, m' !! x = if decide (a <= x < a + Z.of_nat (length l)) then l !! Z.to_nat (x - a) else m !! x.

Lemma written_region m a l m' : written m a l m' -> region m' a l.
Proof.
  intros H i b Hi. pose proof (lookup_lt_Some _ _ _ Hi). rewrite H, decide_True by lia.
  by replace (Z.to_nat (a + Z.of_nat i - a)) with i by lia.
Qed.

Lemma written_nil m a : written m a [] m.
Proof. intros x. rewrite decide_False; [done|]. simpl. lia. Qed.

Lemma written_snoc m a l m' c :
  written m a l m' -> written m a (l ++ [c]) (<[a + Z.of_nat (length l) := c]> m').
Proof.
  intros H x. rewrite length_app. cbn [length]. destruct (decide (x = a + Z.of_nat (length l))) as [->|Hne].
  - rewrite lookup_insert_eq, decide_True by lia. rewrite lookup_app_r by lia.
    by replace (Z.to_nat _ - length l)%nat with O by lia.
  - rewrite lookup_insert_ne by done. rewrite H. destruct (decide (a <= x < a + Z.of_nat (length l))).
    + rewrite decide_True by lia. by rewrite lookup_app_l by lia.
    + by rewrite decide_False by lia.
Qed.

Lemma written_mapped m a l m' b n : written m a l m' -> mapped m b n -> mapped m' b n.
Proof.
  intros H Hm x Hx. rewrite H. case_decide; [|by apply Hm].
  apply lookup_lt_is_Some_2. lia.
Qed.

(** The decimal digits of a [uint64_t] fit [tmp]. *)
Lemma u64_digits_spec k fuel tmp v (m : bmem) :
  0 <= v < 10 ^ Z.of_nat k -> (0 < k <= fuel)%nat -> (length tmp + k <= 21)%nat ->
  exists ds, numeral 10 ds v /\ (length ds <= k)%nat /\ u64_digits fuel tmp v m = Ret (tmp ++ map dec ds) m.
Proof.
  revert fuel tmp v. induction k as [|k IH]; intros fuel tmp v Hv Hk Ht; [lia|].
  destruct fuel as [|fuel]; [lia|]. cbn [u64_digits]. rewrite (proj2 (Z.ltb_lt _ 21)) by lia.
  pose proof (Z.mod_pos_bound v 10 ltac:(lia)). pose proof (Z.div_mod v 10 ltac:(lia)) as Hdm.
  rewrite Z.gtb_ltb. destruct (Z.ltb_spec 0 (v / 10)) as [Hpos|Hzero].
  - rewrite Nat2Z.inj_succ, Z.pow_succ_r in Hv by lia.
    assert (0 < k)%nat by (destruct k; [cbn in Hv|]; lia).
    destruct (IH fuel (tmp ++ [48 + v mod 10]) (v / 10)) as (ds & Hn & Hl & Hrun);
      [lia|lia|rewrite length_app; simpl; lia|].
    exists (v mod 10 :: ds). split_and!.
    + replace v with (v mod 10 + 10 * (v / 10)) at 2 by lia. by apply numeral_cons.
    + simpl. lia.
    + rewrite Hrun. by rewrite <- app_assoc.
  - exists [v mod 10]. split_and!; [|simpl; lia|done].
    replace v with (v mod 10) at 2; [by apply numeral_digit|]. lia.
Qed.

(** The text of a number in memory: its decimal numeral, most significant digit
    first, terminated. *)
Definition decimal_at (m : bmem) (a v : Z) : Prop :=
  exists ds, numeral 10 ds v /\ cstring m a (map dec (rev ds)).

Lemma u64_to_str_written v buf m :
  0 <= v < 2 ^ 64 -> in_space buf 21 -> mapped m buf 21 ->
  exists ds, numeral 10 ds v /\ (length ds <= 20)%nat /\
    wp (u64_to_str v buf m) (fun _ m' => written m buf (map dec (rev ds) ++ [0]) m').
Proof.
  intros Hv Hs Hm. destruct (u64_digits_spec 20 64 [] v m) as (ds & Hn & Hl & Hrun); [split; [lia|]; cbn; lia|lia|simpl; lia|].
  exists ds. split_and!; [done|done|]. unfold u64_to_str. rewrite (bind_Ret _ _ _ _ _ Hrun).
  cbn [app]. rewrite length_map. set (n := length ds). rewrite !(idx8_in _ 21) by (done || lia).
  apply wp_bind, wp_store8; [apply Hm; lia|]. apply wp_bind.
  eapply wp_mono; [apply (wp_for_range (fun j m' => exists m1, written m buf (take (Z.to_nat j) (map dec (rev ds))) m1 /\
    m' = <[buf + Z.of_nat n := 0]> m1))|].
  - lia.
  - exists m. split; [apply written_nil|done].
  - intros j m' Hj (m1 & Hw & ->).
    destruct (lookup_lt_is_Some_2 (map dec (rev ds)) (Z.to_nat j)) as [c Hc]; [rewrite length_map, length_rev; lia|].
    assert (Hc' : map dec ds !! Z.to_nat (Z.of_nat n - j - 1) = Some c).
    { rewrite <- Hc. rewrite map_rev, rev_alt. fold (reverse (map dec ds)).
      rewrite reverse_lookup; rewrite length_map; [f_equal|]; lia. }
    rewrite Hc'. rewrite (idx8_in _ 21) by (done || lia). apply wp_store8.
    { apply lookup_insert_is_Some'. right. apply (written_mapped _ _ _ _ buf 21 Hw Hm). lia. }
    eexists. split.
    + rewrite (Z2Nat.inj_add j 1) by lia. rewrite Nat.add_1_r, (take_S_r _ _ _ Hc). apply written_snoc, Hw.
    + rewrite length_take, length_map, length_rev.
      replace (buf + Z.of_nat (Z.to_nat j `min` length ds)) with (buf + j) by lia.
      apply insert_insert_ne. lia.
  - intros [] m' (m1 & Hw & ->). rewrite Nat2Z.id, take_ge in Hw by (rewrite length_map, length_rev; lia).
    apply wp_store8; [rewrite lookup_insert_eq; eauto|]. rewrite insert_insert_eq.
    replace (Z.of_nat n) with (Z.of_nat (length (map dec (rev ds)))) by (rewrite length_map, length_rev; done).
    by apply written_snoc.
Qed.


(** ** In-place reversal *)
Section reversal.
Context (m : bmem) (a : Z) (l : list Z).
Let n : Z := Z.of_nat (length l).
Hypothesis (Hs : in_space a n) (Hr : region m a l).

(** Where the byte at [k] comes from after [j] swaps. *)
Definition mirror (j k : Z) : Z := if (k <? j) || (n - j <=? k) then n - 1 - k else k.

Definition half_reversed (j : Z) (m' : bmem) : Prop :=
  forall x, m' !! x = if decide (a <= x < a + n) then l !! Z.to_nat (mirror j (x - a)) else m !! x.

Lemma half_reversed_mapped j m' k : half_reversed j m' -> 0 <= j <= n -> 0 <= k < n -> is_Some (m' !! (a + k)).
Proof.
  intros H Hj Hk. rewrite H, decide_True by lia. apply lookup_lt_is_Some_2. unfold mirror.
  replace (a + k - a) with k by lia. destruct (Z.ltb_spec k j), (Z.leb_spec (n - j) k); cbn; lia.
Qed.

Lemma half_reversed_start : half_reversed 0 m.
Proof.
  intros x. case_decide; [|done]. unfold mirror.
  rewrite (proj2 (Z.ltb_ge _ 0)), (proj2 (Z.leb_gt _ _)) by lia. cbn.
  destruct (lookup_lt_is_Some_2 l (Z.to_nat (x - a)) ltac:(lia)) as [b Hb]. rewrite Hb.
  specialize (Hr _ _ Hb). by replace (a + Z.of_nat (Z.to_nat (x - a))) with x in Hr by lia.
Qed.

Lemma half_reversed_swap j m' :
  half_reversed j m' -> 0 <= j < n / 2 ->
  wp (swap8 a j (n - j - 1) m') (fun _ m2 => half_reversed (j + 1) m2).
Proof.
  intros H Hj. pose proof (Z.mul_div_le n 2 ltac:(lia)).
  unfold swap8. rewrite !(idx8_in _ n) by (done || lia).
  destruct (half_reversed_mapped j m' j H ltac:(lia) ltac:(lia)) as [u Hu].
  destruct (half_reversed_mapped j m' (n - j - 1) H ltac:(lia) ltac:(lia)) as [v Hv].
  apply wp_bind, (wp_load8 _ u); [done|]. apply wp_bind, (wp_load8 _ v); [done|].
  apply wp_bind, wp_store8; [rewrite Hu; eauto|].
  apply wp_store8; [rewrite lookup_insert_ne by lia; rewrite Hv; eauto|].
  rewrite H, decide_True in Hu by lia. rewrite H, decide_True in Hv by lia.
  replace (a + j - a) with j in Hu by lia. replace (a + (n - j - 1) - a) with (n - j - 1) in Hv by lia.
  unfold mirror in Hu, Hv. rewrite (proj2 (Z.ltb_ge j j)), (proj2 (Z.leb_gt _ j)) in Hu by lia.
  rewrite (proj2 (Z.ltb_ge _ j)), (proj2 (Z.leb_gt _ (n - j - 1))) in Hv by lia. cbn in Hu, Hv.
  intros x. destruct (decide (x = a + (n - j - 1))) as [->|].
  { rewrite lookup_insert_eq, decide_True by lia. rewrite <- Hu. f_equal. unfold mirror.
    destruct (Z.ltb_spec (a + (n - j - 1) - a) (j + 1)), (Z.leb_spec (n - (j + 1)) (a + (n - j - 1) - a)); cbn; lia. }
  rewrite lookup_insert_ne by done. destruct (decide (x = a + j)) as [->|].
  { rewrite lookup_insert_eq, decide_True by lia. rewrite <- Hv. f_equal. unfold mirror.
    destruct (Z.ltb_spec (a + j - a) (j + 1)), (Z.leb_spec (n - (j + 1)) (a + j - a)); cbn; lia. }
  rewrite lookup_insert_ne by done. rewrite H. case_decide; [|done]. f_equal. f_equal. unfold mirror.
  destruct (Z.ltb_spec (x - a) (j + 1)), (Z.leb_spec (n - (j + 1)) (x - a)),
    (Z.ltb_spec (x - a) j), (Z.leb_spec (n - j) (x - a)); cbn; lia.
Qed.

Lemma reverse_in_place :
  wp (for_range 0 (n / 2) (fun j => swap8 a j (n - j - 1)) m) (fun _ m' => written m a (rev l) m').
Proof.
  pose proof (Z.mul_div_le n 2 ltac:(lia)). pose proof (Z.mul_succ_div_gt n 2 ltac:(lia)).
  eapply wp_mono; [apply (wp_for_range half_reversed)|].
  - apply Z.div_pos; lia.
  - apply half_reversed_start.
  - intros j m' Hj Hh. by apply half_reversed_swap.
  - intros [] m' Hh x. rewrite Hh, length_rev. fold n. case_decide; [|done].
    rewrite rev_alt. fold (reverse l). rewrite reverse_lookup by lia. f_equal. unfold mirror.
    destruct (Z.ltb_spec (x - a) (n / 2)), (Z.leb_spec (n - n / 2) (x - a)); cbn; lia.
Qed.
End reversal.

(** ** [int_to_str] *)
Lemma int_digits_spec k fuel buf v l (m m1 : bmem) :
  0 <= v < 10 ^ Z.of_nat k -> (0 < k <= fuel)%nat -> in_space buf (Z.of_nat (length l + k)) ->
  mapped m buf (Z.of_nat (length l + k)) -> written m buf l m1 ->
  wp (int_digits fuel buf v (Z.of_nat (length l)) m1) (fun i m' => exists ds, numeral 10 ds v /\ (length ds <= k)%nat /\
    i = Z.of_nat (length (l ++ map dec ds)) /\ written m buf (l ++ map dec ds) m').
Proof.
  revert fuel v l m1. induction k as [|k IH]; intros fuel v l m1 Hv Hk Hs Hm Hw; [lia|].
  destruct fuel as [|fuel]; [lia|]. cbn [int_digits].
  rewrite Z.rem_mod_nonneg, Z.quot_div_nonneg by lia.
  pose proof (Z.mod_pos_bound v 10 ltac:(lia)). pose proof (Z.div_mod v 10 ltac:(lia)) as Hdm.
  rewrite (idx8_in _ _ _ Hs) by lia. rewrite (wrap_small 8) by lia.
  apply wp_bind, wp_store8; [apply (written_mapped _ _ _ _ buf _ Hw Hm); lia|].
  pose proof (written_snoc _ _ _ _ (48 + v mod 10) Hw) as Hw'.
  rewrite Z.gtb_ltb. destruct (Z.ltb_spec 0 (v / 10)) as [Hpos|Hzero].
  - rewrite Nat2Z.inj_succ, Z.pow_succ_r in Hv by lia.
    assert (0 < k)%nat by (destruct k; [cbn in Hv|]; lia).
    assert (Hl : (length (l ++ [(48 + v mod 10)%Z]) + k = length l + S k)%nat) by (rewrite length_app; simpl; lia).
    specialize (IH fuel (v / 10) (l ++ [48 + v mod 10]) (<[buf + Z.of_nat (length l):=48 + v mod 10]> m1) ltac:(lia) ltac:(lia)). rewrite Hl in IH.
    specialize (IH Hs Hm Hw'). rewrite length_app in IH. cbn [length] in IH. rewrite Nat2Z.inj_add in IH.
    eapply wp_mono; [apply IH|]. intros i m' (ds & Hn & Hl' & -> & Hwr). exists (v mod 10 :: ds).
    rewrite <- app_assoc in *. split_and!; [|simpl; lia|done|done].
    replace v with (v mod 10 + 10 * (v / 10)) at 2 by lia. by apply numeral_cons.
  - exists [v mod 10]. split_and!; [|simpl; lia|rewrite length_app; simpl; lia|done].
    replace v with (v mod 10) at 2; [by apply numeral_digit|]. lia.
Qed.

(** The text of an [int]: sign, numeral, terminator. *)
Definition int_text (v : Z) (ds : list Z) : list Z := (if v <? 0 then [45] else []) ++ map dec (rev ds).

Lemma written_trans m a l m1 l' m2 : written m a l m1 -> written m1 a l' m2 -> length l = length l' -> written m a l' m2.
Proof. intros H1 H2 Hl x. rewrite H2. case_decide; [done|]. rewrite H1, decide_False by lia. done. Qed.

Lemma written_shrink m a l c m1 m2 : written m a (l ++ [c]) m1 -> forall l', length l' = length l -> written m1 a l' m2 -> written m a (l' ++ [c]) m2.
Proof.
  intros H1 l' Hl H2 x. rewrite H2, H1, !length_app, Hl. cbn [length].
  destruct (decide (a <= x < a + Z.of_nat (length l))).
  - rewrite decide_True by lia. by rewrite lookup_app_l by lia.
  - case_decide; [|done]. rewrite !lookup_app_r by lia. by rewrite Hl.
Qed.

Lemma int_to_str_written v buf m :
  - 2 ^ 31 < v < 2 ^ 31 -> in_space buf 12 -> mapped m buf 12 ->
  wp (int_to_str v buf m) (fun r m' => r = buf /\
    exists ds, numeral 10 ds (Z.abs v) /\ (length ds <= 10)%nat /\ written m buf (int_text v ds ++ [0]) m').
Proof.
  intros Hv Hs Hm. unfold int_to_str.
  replace (if v <? 0 then i32 (- v) else v) with (Z.abs v)
    by (destruct (Z.ltb_spec v 0); [rewrite swrap_small; lia|lia]).
  apply wp_bind. eapply wp_mono.
  { apply (int_digits_spec 10 32 buf (Z.abs v) [] m m); [cbn; lia|lia| | |apply written_nil].
    - destruct Hs. split; simpl; lia.
    - intros x Hx. apply Hm. simpl in Hx. lia. }
  cbn [app]. intros i m1 (ds & Hn & Hl & -> & Hw). rewrite length_map.
  set (l := map dec ds ++ if v <? 0 then [45] else []).
  assert (Hll : (length l = length ds + length (if (v <? 0)%Z then [45%Z] else []))%nat) by (unfold l; by rewrite length_app, length_map).
  apply wp_bind. apply (wp_mono _ (fun i m2 => i = Z.of_nat (length l) /\ written m buf l m2)).
  { destruct (Z.ltb_spec v 0).
    - rewrite (idx8_in _ 12) by (done || lia). apply wp_bind, wp_store8; [apply (written_mapped _ _ _ _ buf _ Hw Hm); lia|].
      cbn. split; [simpl in Hll; lia|]. unfold l. rewrite <- (length_map dec ds). by apply written_snoc.
    - cbn. unfold l. rewrite app_nil_r. by rewrite length_map. }
  intros i m2 [-> Hw2]. assert (Hlb : (length l <= 11)%nat) by (destruct (v <? 0); simpl in Hll; lia).
  rewrite (idx8_in _ 12) by (done || lia).
  apply wp_bind, wp_store8; [apply (written_mapped _ _ _ _ buf _ Hw2 Hm); lia|].
  pose proof (written_snoc _ _ _ _ 0 Hw2) as Hw3.
  apply wp_bind. eapply wp_mono.
  { apply reverse_in_place with (l := l).
    - destruct Hs. split; lia.
    - by apply written_region, region_app in Hw3 as [? _]. }
  intros [] m' Hrev. split; [done|]. exists ds. split_and!; [done|done|].
  replace (int_text v ds) with (rev l).
  { eapply written_shrink; [exact Hw3|by rewrite length_rev|exact Hrev]. }
  unfold l, int_text. rewrite rev_app_distr, map_rev. by destruct (v <? 0).
Qed.


(** * Comparison *)

(** The reference: the order of the first difference. *)
Fixpoint lex_compare (l k : list Z) : Z :=
  match l, k with
  | x :: l', y :: k' => match x ?= y with Lt => -1 | Gt => 1 | Eq => lex_compare l' k' end
  | _, _ => 0
  end.

Lemma memcmp_loop_spec m a b pa pb l k :
  region m a (pa ++ l) -> region m b (pb ++ k) -> length pa = length pb -> length l = length k ->
  in_space a (Z.of_nat (length (pa ++ l))) -> in_space b (Z.of_nat (length (pb ++ k))) ->
  memcmp_loop (length l) a b (Z.of_nat (length pa)) m = Ret (lex_compare l k) m.
Proof.
  revert pa pb k. induction l as [|x l IH]; intros pa pb k Ha Hb Hp Hl Sa Sb; destruct k as [|y k]; try done.
  cbn [memcmp_loop length lex_compare].
  rewrite (idx8_in _ _ _ Sa) by (rewrite length_app; simpl; lia).
  rewrite (idx8_in _ _ _ Sb) by (rewrite length_app; simpl; lia).
  pose proof (proj1 (region_app _ _ _ _) Ha) as [_ [Hx _]%region_cons].
  pose proof (proj1 (region_app _ _ _ _) Hb) as [_ [Hy _]%region_cons].
  rewrite <- Hp in Hy. unfold bind, load8. rewrite Hx, Hy.
  destruct (Z.compare_spec x y) as [->|Hlt|Hgt].
  - rewrite Z.ltb_irrefl. rewrite (cons_middle y pa l), app_assoc in Ha, Sa. rewrite (cons_middle y pb k), app_assoc in Hb, Sb.
    specialize (IH (pa ++ [y]) (pb ++ [y]) k Ha Hb). rewrite !length_app in IH. cbn [length] in IH.
    replace (Z.of_nat (length pa) + 1) with (Z.of_nat (length pa + 1)) by lia.
    apply IH; [lia|simpl in Hl; lia| |]; by rewrite !length_app in *.
  - by rewrite (proj2 (Z.ltb_lt x y) Hlt).
  - rewrite (proj2 (Z.ltb_ge x y)) by lia. by rewrite (proj2 (Z.ltb_lt y x) Hgt).
Qed.

Lemma memcmp_spec m a b l k :
  region m a l -> region m b k -> length l = length k ->
  in_space a (Z.of_nat (length l)) -> in_space b (Z.of_nat (length l)) ->
  memcmp a b (Z.of_nat (length l)) m = Ret (lex_compare l k) m.
Proof.
  intros Ha Hb Hl Sa Sb. unfold memcmp. rewrite Nat2Z.id.
  apply (memcmp_loop_spec m a b [] []); try done. by rewrite Hl in Sb.
Qed.

Lemma lex_compare_0 l k : length l = length k -> lex_compare l k = 0 <-> l = k.
Proof.
  revert k. induction l as [|x l IH]; intros [|y k] Hl; try done. cbn.
  destruct (Z.compare_spec x y) as [->| |]; [|naive_solver lia|naive_solver lia].
  rewrite IH by (simpl in Hl; lia). naive_solver.
Qed.

(** * Properties *)

(** C18. [memmove] copies [size] bytes between any two mapped regions, however
    they overlap: afterwards the destination holds what the source held before,
    every other byte is unchanged, and the destination pointer is returned. *)
Theorem memmove_correct m dst src n :
  0 <= n -> in_space dst n -> in_space src n -> mapped m dst n -> mapped m src n ->
  exists m', memmove dst src n m = Ret dst m' /\
    forall x, m' !! x = if decide (dst <= x < dst + n) then m !! (src + (x - dst)) else m !! x.
Proof.
  intros Hn Hd Hs Md Ms.
  assert (H : wp (memmove dst src n m) (fun r m' => r = dst /\ copied m dst src 0 n m')).
  { unfold memmove. apply wp_bind. destruct (Z.ltb_spec dst src).
    - eapply wp_mono; [apply copy_up; (done || lia)|]. by intros [] m' H'.
    - eapply wp_mono; [apply copy_down; (done || lia)|]. by intros [] m' H'. }
  apply wp_ret_inv in H as (r & m' & -> & -> & H). exists m'. split; [done|].
  intros x. rewrite H. by rewrite Z.add_0_r.
Qed.

Lemma cstring_of_written m a l m' :
  written m a (l ++ [0]) m' -> Forall (fun c => 0 < c < 128) l -> in_space a (Z.of_nat (length l) + 1) -> cstring m' a l.
Proof. intros Hw Hc Hs. split_and!; [by apply written_region in Hw|done|done]. Qed.

Lemma dec_chars ds : is_digits ds -> Forall (fun c => 0 < c < 128) (map dec ds).
Proof. intros H. apply Forall_map. eapply Forall_impl; [exact H|]. unfold dec. simpl. lia. Qed.

Lemma numeral_read ds v : numeral 10 ds v -> is_digits (rev ds) /\ value_be 10 0 (rev ds) = v.
Proof.
  intros (Hd & Hv & _). split; [by apply Forall_rev|]. rewrite value_be_rev. lia.
Qed.

(** C19. Printing a 64-bit number and reading it back gives the number:
    [u64_to_str] writes at most 21 bytes, all inside the buffer, they are the
    canonical decimal numeral of the value and its terminator, and [str2int2] of
    the buffer returns the value. *)
Theorem u64_to_str_roundtrip v buf m :
  0 <= v < 2 ^ 64 -> in_space buf 21 -> mapped m buf 21 ->
  exists m' ds, u64_to_str v buf m = Ret tt m' /\ numeral 10 ds v /\
    cstring m' buf (map dec (rev ds)) /\
    (forall x, ~ buf <= x < buf + 21 -> m' !! x = m !! x) /\
    str2int2 buf m' = Ret v m'.
Proof.
  intros Hv Hs Hm. destruct (u64_to_str_written v buf m Hv Hs Hm) as (ds & Hn & Hl & H).
  apply wp_ret_inv in H as ([] & m' & Hrun & Hw). destruct (numeral_read ds v Hn) as [Hd Hval].
  assert (Hc : cstring m' buf (map dec (rev ds))).
  { apply (cstring_of_written m); [done|by apply dec_chars|]. destruct Hs. rewrite length_map, length_rev. split; lia. }
  exists m', ds. split_and!; [done|done|done| |].
  - intros x Hx. rewrite Hw, length_app, length_map, length_rev, decide_False; [done|]. simpl. lia.
  - rewrite (str2int2_spec m' buf (rev ds) Hc Hd), Hval. by rewrite wrap_small.
Qed.

(** [int_to_str] of every [int] except [INT_MIN] writes the sign and the
    canonical decimal numeral, inside 12 bytes; [str2int] reads a non-negative
    one back, and gives 0 for a negative one because of its sign character. *)
Theorem int_to_str_roundtrip v buf m :
  - 2 ^ 31 < v < 2 ^ 31 -> in_space buf 12 -> mapped m buf 12 ->
  exists m' ds, int_to_str v buf m = Ret buf m' /\ numeral 10 ds (Z.abs v) /\
    cstring m' buf (int_text v ds) /\
    (forall x, ~ buf <= x < buf + 12 -> m' !! x = m !! x) /\
    str2int buf m' = Ret (if v <? 0 then 0 else v) m'.
Proof.
  intros Hv Hs Hm. destruct (proj1 (wp_ret_inv _ _) (int_to_str_written v buf m Hv Hs Hm)) as (r & m' & Hrun & -> & ds & Hn & Hl & Hw).
  destruct (numeral_read ds _ Hn) as [Hd Hval].
  assert (Hlen : (length (int_text v ds) <= 11)%nat).
  { unfold int_text. rewrite length_app, length_map, length_rev. destruct (v <? 0); simpl; lia. }
  assert (Hc : cstring m' buf (int_text v ds)).
  { apply (cstring_of_written m); [done| |destruct Hs; split; lia].
    unfold int_text. apply Forall_app. split; [|by apply dec_chars]. destruct (v <? 0); by repeat constructor. }
  exists m', ds. split_and!; [done|done|done| |].
  - intros x Hx. rewrite Hw, length_app, decide_False; [done|]. simpl. lia.
  - unfold int_text in Hc. destruct (Z.ltb_spec v 0) as [Hneg|Hpos].
    + unfold str2int. rewrite bind_get. cbn [str2int_loop].
      destruct (cstring_char m' buf [] 45 (map dec (rev ds)) Hc) as [Hld _].
      change (Z.of_nat (length [])) with 0 in Hld. by rewrite (bind_Ret _ _ _ _ _ Hld).
    + cbn [app] in Hc. rewrite (str2int_spec m' buf (rev ds) Hc Hd); rewrite ?Hval, ?length_rev; [|lia|lia].
      by rewrite Z.abs_eq by lia.
Qed.

(** ** Witnesses *)
Lemma mapped_seq m a n : Forall (fun x => is_Some (m !! x)) (seqZ a n) -> mapped m a n.
Proof. intros H x Hx. apply (Forall_elem _ _ _ H). apply elem_of_seqZ. lia. Qed.

(** 32 mapped bytes at [0x1000]. *)
Definition demo_mem : bmem := list_to_map (zip (seqZ 0x1000 32) (seqZ 1 32)).

Lemma demo_mapped a n : 0x1000 <= a -> 0 <= n -> a + n <= 0x1020 -> mapped demo_mem a n.
Proof.
  intros Ha Hn Hb x Hx. assert (H : mapped demo_mem 0x1000 32); [|apply H; lia].
  apply mapped_seq. apply (bool_decide_unpack _). vm_compute. exact I.
Qed.

Lemma memmove_correct_witness :
  exists m', memmove 0x1004 0x1000 8 demo_mem = Ret 0x1004 m' /\ m' !! 0x1004 = Some 1 /\ m' !! 0x100b = Some 8.
Proof.
  destruct (memmove_correct demo_mem 0x1004 0x1000 8) as (m' & Hrun & Hm);
    [lia|split; lia|split; lia|apply demo_mapped; lia|apply demo_mapped; lia|].
  exists m'. split; [exact Hrun|]. rewrite !Hm. split; reflexivity.
Defined.

Lemma u64_to_str_roundtrip_witness :
  exists m', u64_to_str 18446744073709551615 0x1000 demo_mem = Ret tt m' /\ str2int2 0x1000 m' = Ret 18446744073709551615 m'.
Proof.
  destruct (u64_to_str_roundtrip 18446744073709551615 0x1000 demo_mem) as (m' & ds & Hrun & _ & _ & _ & Hread);
    [lia|split; lia|apply demo_mapped; lia|].
  exists m'. split; [exact Hrun|exact Hread].
Defined.

Lemma int_to_str_roundtrip_witness :
  exists m', int_to_str (-2026) 0x1000 demo_mem = Ret 0x1000 m' /\ str2int 0x1000 m' = Ret 0 m'.
Proof.
  destruct (int_to_str_roundtrip (-2026) 0x1000 demo_mem) as (m' & ds & Hrun & _ & _ & _ & Hread);
    [lia|split; lia|apply demo_mapped; lia|].
  exists m'. split; [exact Hrun|exact Hread].
Defined.

End CStringSpec.
