(* ===== verification/Printf.v ===== *)
(** The kernel's formatted output, [src/src/printf.c]: output functions, the
    integer conversion ([_ntoa_*]), the format interpreter ([_vsnprintf]) and
    the public entry points.

    Characters are [char] values (signed, [-128 .. 127]).  A C string that is
    only read is the list of its bytes {e with} its terminating 0; a pointer
    into it is a suffix of the list, and reading past the object faults.  A
    variable argument is a [va_arg]: the SysV ABI passes every integer and
    pointer in an 8-byte slot, so [va_arg(va, int)] reads the low half of a
    [Word].  Taking an argument that is missing or of another class faults.

    The floating-point conversions [_ftoa] and [_etoa] are parameters: the
    kernel is built with [-mno-sse], so their arithmetic runs on the x87 with
    excess precision and their results depend on the compiler's spills. *)
From Stdlib Require Import Ascii.
From S2P Require Import Prelude.

(** Character constants. *)
Definition chr (a : ascii) : Z := Z.of_nat (nat_of_ascii a).
Arguments chr a%_char_scope.
Fixpoint chars (s : string) : list Z :=
  match s with
  | EmptyString => []
  | String a s' => chr a :: chars s'
  end.
Definition cstr (s : string) : list Z := chars s ++ [0].

(** * Flags, [printf.c] lines 100-112 *)
Definition FLAGS_ZEROPAD : Z := Z.shiftl 1 0.
Definition FLAGS_LEFT : Z := Z.shiftl 1 1.
Definition FLAGS_PLUS : Z := Z.shiftl 1 2.
Definition FLAGS_SPACE : Z := Z.shiftl 1 3.
Definition FLAGS_HASH : Z := Z.shiftl 1 4.
Definition FLAGS_UPPERCASE : Z := Z.shiftl 1 5.
Definition FLAGS_CHAR : Z := Z.shiftl 1 6.
Definition FLAGS_SHORT : Z := Z.shiftl 1 7.
Definition FLAGS_LONG : Z := Z.shiftl 1 8.
Definition FLAGS_LONG_LONG : Z := Z.shiftl 1 9.
Definition FLAGS_PRECISION : Z := Z.shiftl 1 10.
Definition FLAGS_ADAPT_EXP : Z := Z.shiftl 1 11.
Definition PRINTF_NTOA_BUFFER_SIZE : Z := 32.

(** One variable argument. *)
Inductive va_arg : Type :=
| Word (w : Z)
| Str (s : list Z)
| Double (bits : Z).

(** The type of an output function: character, buffer, index, capacity. *)
Definition out_fct_type (S : Type) : Type := Z -> Z -> Z -> Z -> K S unit.

(** * Helpers *)
Section helpers.
Context {S : Type}.

(** [*p] *)
Definition deref (p : list Z) : K S Z :=
  match p with
  | c :: _ => ret c
  | [] => fault 0
  end.

Fixpoint strnlen_loop (s : list Z) (maxsize n : Z) : K S Z :=
  match s with
  | [] => fault 0
  | c :: s' =>
      if c =? 0 then ret n else
      if maxsize =? 0 then ret n else strnlen_loop s' (maxsize - 1) (n + 1)
  end.
Definition _strnlen_s (str : list Z) (maxsize : Z) : K S Z :=
  let! n := strnlen_loop str maxsize 0 in ret (u32 n).

Definition _is_digit (ch : Z) : bool := (ch >=? chr "0") && (ch <=? chr "9").

Fixpoint atoi_loop (str : list Z) (i : Z) : K S (Z * list Z) :=
  match str with
  | [] => fault 0
  | c :: str' =>
      if _is_digit c then atoi_loop str' (u32 (u32 (i * 10) + u32 (c - chr "0")))
      else ret (i, str)
  end.
Definition _atoi (str : list Z) : K S (Z * list Z) := atoi_loop str 0.

(** [va_arg(va, T)] for an integer or pointer, a string, a [double]. *)
Definition va_word (va : list va_arg) : K S (Z * list va_arg) :=
  match va with
  | Word w :: va' => ret (w, va')
  | _ => fault 0
  end.
Definition va_str (va : list va_arg) : K S (list Z * list va_arg) :=
  match va with
  | Str p :: va' => ret (p, va')
  | _ => fault 0
  end.
Definition va_double (va : list va_arg) : K S (Z * list va_arg) :=
  match va with
  | Double b :: va' => ret (b, va')
  | _ => fault 0
  end.
End helpers.

(** * Output *)
Section output.
Context {S : Type} (out : out_fct_type S) (buffer maxlen : Z).

(** [n] rounds of [out(c, buffer, idx++, maxlen)]. *)
Fixpoint pad (n : nat) (c idx : Z) : K S Z :=
  match n with
  | O => ret idx
  | Datatypes.S n' => do! out c buffer idx maxlen in pad n' c (u64 (idx + 1))
  end.

(** [while (len) out(buf[--len], buffer, idx++, maxlen);] *)
Fixpoint rev_loop (buf : list Z) (len : nat) (idx : Z) : K S Z :=
  match len with
  | O => ret idx
  | Datatypes.S len' =>
      match buf !! len' with
      | None => fault 0
      | Some c => do! out c buffer idx maxlen in rev_loop buf len' (u64 (idx + 1))
      end
  end.

Definition _out_rev (idx : Z) (buf : list Z) (len width flags : Z) : K S Z :=
  let start_idx := idx in
  let! idx :=
    (if negb (is_set flags FLAGS_LEFT) && negb (is_set flags FLAGS_ZEROPAD)
     then pad (Z.to_nat (width - len)) (chr " ") idx else ret idx) in
  let! idx := rev_loop buf (Z.to_nat len) idx in
  if is_set flags FLAGS_LEFT
  then pad (Z.to_nat (width - u64 (idx - start_idx))) (chr " ") idx
  else ret idx.

(** The conversion buffer [char buf[PRINTF_NTOA_BUFFER_SIZE]] of the [_ntoa_*]
    functions, as the list of the [len] characters written to it.
    [buf[len++] = c] faults when it would leave the array. *)
Definition buf_push (buf : list Z) (c : Z) : K S (list Z) :=
  if Z.of_nat (length buf) <? PRINTF_NTOA_BUFFER_SIZE then ret (buf ++ [c]) else fault 0.
Definition buf_len (buf : list Z) : Z := Z.of_nat (length buf).

(** [while ((len < bound) && (len < PRINTF_NTOA_BUFFER_SIZE)) buf[len++] = '0';] *)
Fixpoint zero_loop (fuel : nat) (buf : list Z) (bound : Z) : K S (list Z) :=
  if (buf_len buf <? bound) && (buf_len buf <? PRINTF_NTOA_BUFFER_SIZE) then
    match fuel with
    | O => fun s => Hang s
    | Datatypes.S fuel' => let! buf := buf_push buf (chr "0") in zero_loop fuel' buf bound
    end
  else ret buf.

(** [if (len < PRINTF_NTOA_BUFFER_SIZE) buf[len++] = c;] *)
Definition push_if_room (buf : list Z) (c : Z) : K S (list Z) :=
  if buf_len buf <? PRINTF_NTOA_BUFFER_SIZE then buf_push buf c else ret buf.

(** [// handle hash] of [_ntoa_format]. *)
Definition ntoa_hash (buf : list Z) (base prec width flags : Z) : K S (list Z) :=
  if is_set flags FLAGS_HASH then
    let len := buf_len buf in
    let buf :=
      if negb (is_set flags FLAGS_PRECISION) && negb (len =? 0)
         && ((len =? prec) || (len =? width))
      then let buf := removelast buf in
           if negb (buf_len buf =? 0) && (base =? 16) then removelast buf else buf
      else buf in
    let! buf :=
      (if (base =? 16) && negb (is_set flags FLAGS_UPPERCASE)
          && (buf_len buf <? PRINTF_NTOA_BUFFER_SIZE) then buf_push buf (chr "x")
       else if (base =? 16) && is_set flags FLAGS_UPPERCASE
          && (buf_len buf <? PRINTF_NTOA_BUFFER_SIZE) then buf_push buf (chr "X")
       else if (base =? 2) && (buf_len buf <? PRINTF_NTOA_BUFFER_SIZE) then buf_push buf (chr "b")
       else ret buf) in
    push_if_room buf (chr "0")
  else ret buf.

(** The sign character of [_ntoa_format]. *)
Definition ntoa_sign (buf : list Z) (negative : bool) (flags : Z) : K S (list Z) :=
  if buf_len buf <? PRINTF_NTOA_BUFFER_SIZE then
    if negative then buf_push buf (chr "-")
    else if is_set flags FLAGS_PLUS then buf_push buf (chr "+")
    else if is_set flags FLAGS_SPACE then buf_push buf (chr " ")
    else ret buf
  else ret buf.

Definition _ntoa_format (idx : Z) (buf : list Z) (negative : bool) (base prec width flags : Z) : K S Z :=
  let2! (buf, width) :=
    (if negb (is_set flags FLAGS_LEFT) then
       let width :=
         if negb (width =? 0) && is_set flags FLAGS_ZEROPAD
            && (negative || is_set flags (Z.lor FLAGS_PLUS FLAGS_SPACE))
         then u32 (width - 1) else width in
       let! buf := zero_loop 32 buf prec in
       let! buf := (if is_set flags FLAGS_ZEROPAD then zero_loop 32 buf width else ret buf) in
       ret (buf, width)
     else ret (buf, width)) in
  let! buf := ntoa_hash buf base prec width flags in
  let! buf := ntoa_sign buf negative flags in
  _out_rev idx buf (buf_len buf) width flags.

(** The digit loop of [_ntoa_long] and [_ntoa_long_long]. *)
Definition digit_char (digit flags : Z) : Z :=
  if digit <? 10 then i8 (chr "0" + digit)
  else i8 ((if is_set flags FLAGS_UPPERCASE then chr "A" else chr "a") + digit - 10).

Fixpoint digit_loop (fuel : nat) (buf : list Z) (value base flags : Z) : K S (list Z) :=
  match fuel with
  | O => fun s => Hang s
  | Datatypes.S fuel' =>
      if base =? 0 then fault 0 else
      let! buf := buf_push buf (digit_char (i8 (value mod base)) flags) in
      let value := value / base in
      if negb (value =? 0) && (buf_len buf <? PRINTF_NTOA_BUFFER_SIZE)
      then digit_loop fuel' buf value base flags
      else ret buf
  end.

(** [unsigned long] and [unsigned long long] are both 64 bits wide, so the two
    functions have the same text. *)
Definition _ntoa_long (idx value : Z) (negative : bool) (base prec width flags : Z) : K S Z :=
  let flags := if value =? 0 then Z.ldiff flags FLAGS_HASH else flags in
  let! buf :=
    (if negb (is_set flags FLAGS_PRECISION) || negb (value =? 0)
     then digit_loop 32 [] value base flags else ret []) in
  _ntoa_format idx buf negative (u32 base) prec width flags.

Definition _ntoa_long_long (idx value : Z) (negative : bool) (base prec width flags : Z) : K S Z :=
  let flags := if value =? 0 then Z.ldiff flags FLAGS_HASH else flags in
  let! buf :=
    (if negb (is_set flags FLAGS_PRECISION) || negb (value =? 0)
     then digit_loop 32 [] value base flags else ret []) in
  _ntoa_format idx buf negative (u32 base) prec width flags.
End output.

(** * The format interpreter, [_vsnprintf] *)
Section parsing.
Context {S : Type}.

(** [// evaluate flags] *)
Fixpoint eval_flags (format : list Z) (flags : Z) : K S (Z * list Z) :=
  match format with
  | [] => fault 0
  | c :: format' =>
      if c =? chr "0" then eval_flags format' (Z.lor flags FLAGS_ZEROPAD)
      else if c =? chr "-" then eval_flags format' (Z.lor flags FLAGS_LEFT)
      else if c =? chr "+" then eval_flags format' (Z.lor flags FLAGS_PLUS)
      else if c =? chr " " then eval_flags format' (Z.lor flags FLAGS_SPACE)
      else if c =? chr "#" then eval_flags format' (Z.lor flags FLAGS_HASH)
      else ret (flags, format)
  end.

(** [// evaluate width field]: width, flags, rest of the format, arguments. *)
Definition eval_width (format : list Z) (flags : Z) (va : list va_arg)
  : K S (Z * Z * list Z * list va_arg) :=
  let! c := deref format in
  if _is_digit c then
    let2! (width, format) := _atoi format in ret (width, flags, format, va)
  else if c =? chr "*" then
    let2! (x, va) := va_word va in
    let w := i32 x in
    if w <? 0 then ret (u32 (- w), Z.lor flags FLAGS_LEFT, tail format, va)
    else ret (u32 w, flags, tail format, va)
  else ret (0, flags, format, va).

(** [// evaluate precision field] *)
Definition eval_precision (format : list Z) (flags : Z) (va : list va_arg)
  : K S (Z * Z * list Z * list va_arg) :=
  let! c := deref format in
  if c =? chr "." then
    let flags := Z.lor flags FLAGS_PRECISION in
    let format := tail format in
    let! c := deref format in
    if _is_digit c then
      let2! (precision, format) := _atoi format in ret (precision, flags, format, va)
    else if c =? chr "*" then
      let2! (x, va) := va_word va in
      let prec := i32 x in
      ret ((if prec >? 0 then u32 prec else 0), flags, tail format, va)
    else ret (0, flags, format, va)
  else ret (0, flags, format, va).

(** [// evaluate length field]; [ptrdiff_t], [intmax_t] and [size_t] have the
    size of [long]. *)
Definition eval_length (format : list Z) (flags : Z) : K S (Z * list Z) :=
  let! c := deref format in
  if c =? chr "l" then
    let flags := Z.lor flags FLAGS_LONG in
    let format := tail format in
    let! c := deref format in
    if c =? chr "l" then ret (Z.lor flags FLAGS_LONG_LONG, tail format) else ret (flags, format)
  else if c =? chr "h" then
    let flags := Z.lor flags FLAGS_SHORT in
    let format := tail format in
    let! c := deref format in
    if c =? chr "h" then ret (Z.lor flags FLAGS_CHAR, tail format) else ret (flags, format)
  else if (c =? chr "t") || (c =? chr "j") || (c =? chr "z")
    then ret (Z.lor flags FLAGS_LONG, tail format)
  else ret (flags, format).
End parsing.

Section conversion.
Context {S : Type}.
(** [_ftoa] and [_etoa]. *)
Variables ftoa etoa : out_fct_type S -> Z -> Z -> Z -> Z -> Z -> Z -> Z -> K S Z.
Variables (out : out_fct_type S) (buffer maxlen : Z).

(** Base and flags of an integer conversion. *)
Definition conv_base (c : Z) : Z :=
  if (c =? chr "x") || (c =? chr "X") then 16
  else if c =? chr "o" then 8
  else if c =? chr "b" then 2
  else 10.

Definition conv_flags (c flags : Z) : Z :=
  let flags := if conv_base c =? 10 then Z.ldiff flags FLAGS_HASH else flags in
  let flags := if c =? chr "X" then Z.lor flags FLAGS_UPPERCASE else flags in
  let flags := if negb (c =? chr "i") && negb (c =? chr "d")
               then Z.ldiff flags (Z.lor FLAGS_PLUS FLAGS_SPACE) else flags in
  if is_set flags FLAGS_PRECISION then Z.ldiff flags FLAGS_ZEROPAD else flags.

(** [value > 0 ? value : 0 - value] *)
Definition magnitude (v : Z) : Z := if v >? 0 then v else 0 - v.

(** [case 'd'], ['i']: the signed conversions. *)
Definition conv_signed (idx base precision width flags : Z) (va : list va_arg)
  : K S (Z * list va_arg) :=
  let2! (x, va) := va_word va in
  if is_set flags FLAGS_LONG_LONG then
    let value := i64 x in
    let! idx := _ntoa_long_long out buffer maxlen idx (u64 (magnitude value)) (value <? 0)
                  base precision width flags in
    ret (idx, va)
  else if is_set flags FLAGS_LONG then
    let value := i64 x in
    let! idx := _ntoa_long out buffer maxlen idx (u64 (magnitude value)) (value <? 0)
                  base precision width flags in
    ret (idx, va)
  else
    let value := if is_set flags FLAGS_CHAR then i8 (i32 x)
                 else if is_set flags FLAGS_SHORT then swrap 16 (i32 x)
                 else i32 x in
    let! idx := _ntoa_long out buffer maxlen idx (u32 (magnitude value)) (value <? 0)
                  base precision width flags in
    ret (idx, va).

(** [case 'u'], ['x'], ['X'], ['o'], ['b']: the unsigned conversions. *)
Definition conv_unsigned (idx base precision width flags : Z) (va : list va_arg)
  : K S (Z * list va_arg) :=
  let2! (x, va) := va_word va in
  if is_set flags FLAGS_LONG_LONG then
    let! idx := _ntoa_long_long out buffer maxlen idx (u64 x) false base precision width flags in
    ret (idx, va)
  else if is_set flags FLAGS_LONG then
    let! idx := _ntoa_long out buffer maxlen idx (u64 x) false base precision width flags in
    ret (idx, va)
  else
    let value := if is_set flags FLAGS_CHAR then u8 (u32 x)
                 else if is_set flags FLAGS_SHORT then u16 (u32 x)
                 else u32 x in
    let! idx := _ntoa_long out buffer maxlen idx value false base precision width flags in
    ret (idx, va).

Definition conv_integer (c idx precision width flags : Z) (va : list va_arg) : K S (Z * list va_arg) :=
  let base := conv_base c in
  let flags := conv_flags c flags in
  if (c =? chr "i") || (c =? chr "d")
  then conv_signed idx base precision width flags va
  else conv_unsigned idx base precision width flags va.

(** [while (l++ < width) out(' ', ...)], from [l]; the second component is the
    value [l] is left with. *)
Definition pad_to (l width idx : Z) : K S (Z * Z) :=
  let! idx := pad out buffer maxlen (Z.to_nat (width - l)) (chr " ") idx in
  ret (idx, u32 (Z.max l width + 1)).

Definition conv_char (idx width flags : Z) (va : list va_arg) : K S (Z * list va_arg) :=
  let l := 1 in
  let2! (idx, l) := (if negb (is_set flags FLAGS_LEFT) then pad_to l width idx else ret (idx, l)) in
  let2! (x, va) := va_word va in
  do! out (i8 (i32 x)) buffer idx maxlen in
  let idx := u64 (idx + 1) in
  let2! (idx, _) := (if is_set flags FLAGS_LEFT then pad_to l width idx else ret (idx, l)) in
  ret (idx, va).

(** [while (( *p != 0) && (!(flags & FLAGS_PRECISION) || precision--))] *)
Fixpoint str_loop (p : list Z) (limited : bool) (precision idx : Z) : K S Z :=
  match p with
  | [] => fault 0
  | c :: p' =>
      if c =? 0 then ret idx else
      if limited && (precision =? 0) then ret idx else
      do! out c buffer idx maxlen in
      str_loop p' limited (precision - 1) (u64 (idx + 1))
  end.

Definition conv_string (idx precision width flags : Z) (va : list va_arg) : K S (Z * list va_arg) :=
  let2! (p, va) := va_str va in
  let! l := _strnlen_s p (if negb (precision =? 0) then precision else u64 (-1)) in
  let l := if is_set flags FLAGS_PRECISION then (if l <? precision then l else precision) else l in
  let2! (idx, l) := (if negb (is_set flags FLAGS_LEFT) then pad_to l width idx else ret (idx, l)) in
  let! idx := str_loop p (is_set flags FLAGS_PRECISION) precision idx in
  let2! (idx, _) := (if is_set flags FLAGS_LEFT then pad_to l width idx else ret (idx, l)) in
  ret (idx, va).

(** [sizeof(uintptr_t) == sizeof(long long)] holds. *)
Definition conv_pointer (idx precision flags : Z) (va : list va_arg) : K S (Z * list va_arg) :=
  let width := 8 * 2 in
  let flags := Z.lor flags (Z.lor FLAGS_ZEROPAD FLAGS_UPPERCASE) in
  let2! (x, va) := va_word va in
  let! idx := _ntoa_long_long out buffer maxlen idx (u64 x) false 16 precision width flags in
  ret (idx, va).

Definition conv_float (c idx precision width flags : Z) (va : list va_arg) : K S (Z * list va_arg) :=
  let flags := if c =? chr "F" then Z.lor flags FLAGS_UPPERCASE else flags in
  let2! (x, va) := va_double va in
  let! idx := ftoa out buffer idx maxlen x precision width flags in
  ret (idx, va).

Definition conv_exp (c idx precision width flags : Z) (va : list va_arg) : K S (Z * list va_arg) :=
  let flags := if (c =? chr "g") || (c =? chr "G") then Z.lor flags FLAGS_ADAPT_EXP else flags in
  let flags := if (c =? chr "E") || (c =? chr "G") then Z.lor flags FLAGS_UPPERCASE else flags in
  let2! (x, va) := va_double va in
  let! idx := etoa out buffer idx maxlen x precision width flags in
  ret (idx, va).

(** [// evaluate specifier] *)
Definition is_integer_conv (c : Z) : bool :=
  (c =? chr "d") || (c =? chr "i") || (c =? chr "u") || (c =? chr "x") || (c =? chr "X")
  || (c =? chr "o") || (c =? chr "b").

Definition eval_specifier (c idx precision width flags : Z) (va : list va_arg)
  : K S (Z * list va_arg) :=
  if is_integer_conv c then conv_integer c idx precision width flags va
  else if (c =? chr "f") || (c =? chr "F") then conv_float c idx precision width flags va
  else if (c =? chr "e") || (c =? chr "E") || (c =? chr "g") || (c =? chr "G")
    then conv_exp c idx precision width flags va
  else if c =? chr "c" then conv_char idx width flags va
  else if c =? chr "s" then conv_string idx precision width flags va
  else if c =? chr "p" then conv_pointer idx precision flags va
  else if c =? chr "%" then do! out (chr "%") buffer idx maxlen in ret (u64 (idx + 1), va)
  else do! out c buffer idx maxlen in ret (u64 (idx + 1), va).

(** One round of the interpreter after a ['%']: index, rest of the format,
    arguments. *)
Definition directive (format : list Z) (idx : Z) (va : list va_arg) : K S (Z * list Z * list va_arg) :=
  let2! (flags, format) := eval_flags format 0 in
  let2! (width, flags, format, va) := eval_width format flags va in
  let2! (precision, flags, format, va) := eval_precision format flags va in
  let2! (flags, format) := eval_length format flags in
  let! c := deref format in
  let2! (idx, va) := eval_specifier c idx precision width flags va in
  ret (idx, tail format, va).

(** [while ( *format) ...]; every round consumes at least one byte of the
    format, so one more than its length is enough fuel. *)
Fixpoint format_loop (fuel : nat) (format : list Z) (idx : Z) (va : list va_arg) : K S Z :=
  match fuel with
  | O => fun s => Hang s
  | Datatypes.S fuel' =>
      let! c := deref format in
      if c =? 0 then ret idx
      else if negb (c =? chr "%") then
        do! out c buffer idx maxlen in format_loop fuel' (tail format) (u64 (idx + 1)) va
      else
        let2! (idx, format, va) := directive (tail format) idx va in
        format_loop fuel' format idx va
  end.
End conversion.

(** * Memory and console behind the output functions *)
Record io (C : Type) : Type := IO {
  bytes : gmap Z Z;      (* byte memory the buffers live in *)
  console : C;           (* what [_putchar] writes to *)
}.
Arguments IO {C} bytes console.
Arguments bytes {C} i.
Arguments console {C} i.

Section printf.
Context {C : Type} (putchar : Z -> K C unit).
Variables ftoa etoa : out_fct_type (io C) -> Z -> Z -> Z -> Z -> Z -> Z -> Z -> K (io C) Z.

Definition set_bytes (m : gmap Z Z) (s : io C) : io C := IO m (console s).
Definition set_console (c : C) (s : io C) : io C := IO (bytes s) c.

Definition _out_buffer : out_fct_type (io C) := fun character buffer idx maxlen =>
  when (idx <? maxlen)
    (modify (fun s => set_bytes (<[u64 (buffer + idx) := character]> (bytes s)) s)).

Definition _out_null : out_fct_type (io C) := fun _ _ _ _ => ret tt.

Definition _out_char : out_fct_type (io C) := fun character _ _ _ =>
  when (negb (character =? 0)) (zoom console set_console (putchar character)).

(** The wrapper [out_fct_wrap_type] the buffer pointer stands for is the pair of
    the client's function and its argument. *)
Definition _out_fct (wrap : (Z -> Z -> K (io C) unit) * Z) : out_fct_type (io C) :=
  fun character _ _ _ => when (negb (character =? 0)) (wrap.1 character wrap.2).

Definition _vsnprintf (out : out_fct_type (io C)) (buffer maxlen : Z) (format : list Z)
  (va : list va_arg) : K (io C) Z :=
  let out := if buffer =? 0 then _out_null else out in
  let! idx := format_loop ftoa etoa out buffer maxlen (S (length format)) format 0 va in
  do! out 0 buffer (if idx <? maxlen then idx else u64 (maxlen - 1)) maxlen in
  ret (i32 idx).

(** The one-byte stack buffer of [printf_] is never written; its address is any
    non-null one. *)
Definition local_buffer : Z := 1.
Definition printf_ (format : list Z) (va : list va_arg) : K (io C) Z :=
  _vsnprintf _out_char local_buffer (u64 (-1)) format va.
Definition sprintf_ (buffer : Z) (format : list Z) (va : list va_arg) : K (io C) Z :=
  _vsnprintf _out_buffer buffer (u64 (-1)) format va.
Definition snprintf_ (buffer count : Z) (format : list Z) (va : list va_arg) : K (io C) Z :=
  _vsnprintf _out_buffer buffer count format va.
Definition vprintf_ (format : list Z) (va : list va_arg) : K (io C) Z :=
  _vsnprintf _out_char local_buffer (u64 (-1)) format va.
Definition vsnprintf_ (buffer count : Z) (format : list Z) (va : list va_arg) : K (io C) Z :=
  _vsnprintf _out_buffer buffer count format va.
Definition fctprintf (fct : Z -> Z -> K (io C) unit) (arg : Z) (format : list Z) (va : list va_arg)
  : K (io C) Z :=
  _vsnprintf (_out_fct (fct, arg)) local_buffer (u64 (-1)) format va.
End printf.
