(* ===== verification/PrintfSpec.v ===== *)
(** What the formatted output promises: every format and argument list
    determines one sequence of characters, whatever the output function is
    ([format_loop_traced]); [snprintf_] stores a truncated, terminated copy of
    it inside its buffer and nothing outside; integer conversions print
    numerals laid out as the flags ask. *)
From Stdlib Require Import Ascii.
From S2P Require Import Prelude Numeral CString CStringSpec Printf.

Module PrintfSpec.

(** * Emission of a fixed list of characters *)
Record env (S : Type) : Type := Env {
  e_out : out_fct_type S;
  e_buffer : Z;
  e_maxlen : Z;
  e_ftoa : out_fct_type S -> Z -> Z -> Z -> Z -> Z -> Z -> Z -> K S Z;
  e_etoa : out_fct_type S -> Z -> Z -> Z -> Z -> Z -> Z -> Z -> K S Z;
}.
Arguments e_out {S} e.
Arguments e_buffer {S} e.
Arguments e_maxlen {S} e.
Arguments e_ftoa {S} e.
Arguments e_etoa {S} e.

Fixpoint emit {S} (e : env S) (idx : Z) (l : list Z) : K S unit :=
  match l with
  | [] => ret tt
  | c :: l' => do! e_out e c (e_buffer e) idx (e_maxlen e) in emit e (u64 (idx + 1)) l'
  end.

(** The index after [l] has been written from [idx] on. *)
Fixpoint adv (idx : Z) (l : list Z) : Z :=
  match l with
  | [] => idx
  | _ :: l' => adv (u64 (idx + 1)) l'
  end.

Lemma emit_app {S} (e : env S) idx l1 l2 s :
  emit e idx (l1 ++ l2) s = bind (emit e idx l1) (fun _ => emit e (adv idx l1) l2) s.
Proof.
  revert idx s. induction l1 as [|c l1 IH]; intros idx s; simpl; [done|].
  unfold bind at 1 2 3. by destruct (e_out e c _ _ _ s).
Qed.

Lemma adv_app idx l1 l2 : adv idx (l1 ++ l2) = adv (adv idx l1) l2.
Proof. revert idx. induction l1 as [|c l1 IH]; intros idx; simpl; auto. Qed.

Lemma adv_range idx l : 0 <= idx < 2 ^ 64 -> 0 <= adv idx l < 2 ^ 64.
Proof. revert idx. induction l as [|c l IH]; intros idx ?; simpl; [done|]. apply IH. by apply wrap_range. Qed.

Lemma adv_length idx l : 0 <= idx < 2 ^ 64 -> adv idx l = u64 (idx + Z.of_nat (length l)).
Proof.
  revert idx. induction l as [|c l IH]; intros idx ?; cbn [adv length].
  - rewrite Z.add_0_r. symmetry. by apply wrap_small.
  - rewrite IH by by apply wrap_range. unfold wrap. rewrite Zplus_mod_idemp_l. f_equal. lia.
Qed.

(** How a computation ends, once its output is out. *)
Inductive ending (A : Type) : Type :=
| Done (a : A)
| Stuck (addr : Z).
Arguments Done {A} a.
Arguments Stuck {A} addr.

Definition finish {S A} (r : ending A) : K S A :=
  match r with
  | Done a => ret a
  | Stuck x => fault x
  end.

(** [traced idx c P]: a list of characters and an ending, the same for every
    output function, describe [c] from index [idx] on; on a normal end the value
    and the index reached satisfy [P]. *)
Definition traced {A} (idx : Z) (c : forall S, env S -> K S A) (P : A -> Z -> Prop) : Prop :=
  exists l r, (forall a, r = Done a -> P a (adv idx l)) /\
    forall S (e : env S) s, c S e s = bind (emit e idx l) (fun _ => finish r) s.

Lemma traced_ret {A} idx (a : A) (P : A -> Z -> Prop) : P a idx -> traced idx (fun S e => ret a) P.
Proof. intros HP. exists [], (Done a). split; [|done]. intros ? [=<-]. done. Qed.

Lemma traced_fault {A} idx x (P : A -> Z -> Prop) : traced idx (fun S e => fault x) P.
Proof. by exists [], (Stuck x). Qed.

Lemma traced_bind {A B} idx (c : forall S, env S -> K S A) (k : forall S, env S -> A -> K S B) P Q :
  traced idx c P -> (forall a i, P a i -> traced i (fun S e => k S e a) Q) ->
  traced idx (fun S e => bind (c S e) (k S e)) Q.
Proof.
  intros (l & r & HP & Hc) Hk. destruct r as [a|x].
  - destruct (Hk a _ (HP a eq_refl)) as (l2 & r2 & HQ & Hk2). exists (l ++ l2), r2. split.
    + intros b Hb. rewrite adv_app. auto.
    + intros S e s.
      unfold bind. rewrite Hc, emit_app. unfold bind. destruct (emit e idx l s); simpl; done.
  - exists l, (Stuck x). split; [done|]. intros S e s. unfold bind. rewrite Hc. unfold bind.
    by destruct (emit e idx l s).
Qed.

Lemma traced_mono {A} idx (c : forall S, env S -> K S A) (P Q : A -> Z -> Prop) :
  traced idx c P -> (forall a i, P a i -> Q a i) -> traced idx c Q.
Proof. intros (l & r & HP & Hc) H. exists l, r. split; [|done]. intros a Ha. by apply H, HP. Qed.

Lemma traced_out idx c :
  traced idx (fun S e => e_out e c (e_buffer e) idx (e_maxlen e)) (fun _ i => i = u64 (idx + 1)).
Proof.
  exists [c], (Done tt). split; [done|]. intros S e s. simpl. unfold bind.
  by destruct (e_out e c _ _ _ s) as [[] ?| | |].
Qed.

Lemma traced_if {A} idx (b : bool) (c d : forall S, env S -> K S A) P :
  traced idx c P -> traced idx d P -> traced idx (fun S e => if b then c S e else d S e) P.
Proof. by destruct b. Qed.

Definition at_idx {A} (idx : Z) (_ : A) (i : Z) : Prop := i = idx.

(** * Every function of the interpreter is traced *)
Create HintDb traced.
#[local] Hint Resolve traced_ret traced_fault traced_out : traced.

(** The state-only continuation of a bind. *)
Ltac traced_bind P := apply (traced_bind _ _ _ P).

Lemma traced_pad n c idx :
  traced idx (fun S e => pad (e_out e) (e_buffer e) (e_maxlen e) n c idx) (fun a i => a = i).
Proof.
  revert idx. induction n as [|n IH]; intros idx; simpl; [by apply traced_ret|].
  eapply traced_bind; [apply traced_out|]. intros [] i ->. apply IH.
Qed.

Lemma traced_rev_loop buf len idx :
  traced idx (fun S e => rev_loop (e_out e) (e_buffer e) (e_maxlen e) buf len idx) (fun a i => a = i).
Proof.
  revert idx. induction len as [|n IH]; intros idx; simpl; [by apply traced_ret|].
  destruct (buf !! n); [|apply traced_fault].
  eapply traced_bind; [apply traced_out|]. intros [] i ->. apply IH.
Qed.

Lemma traced_out_rev idx buf len width flags :
  traced idx (fun S e => _out_rev (e_out e) (e_buffer e) (e_maxlen e) idx buf len width flags) (fun a i => a = i).
Proof.
  unfold _out_rev. eapply (traced_bind _ _ _ (fun a i => a = i)).
  { apply traced_if; [apply traced_pad|by apply traced_ret]. }
  intros i1 i ->. eapply (traced_bind _ _ _ (fun a i => a = i)); [apply traced_rev_loop|].
  intros i2 i' ->. apply traced_if; [apply traced_pad|by apply traced_ret].
Qed.

(** Computations on the conversion buffer produce no output. *)
Definition silent {A} (c : forall S, K S A) (P : A -> Prop) : Prop :=
  forall idx, traced idx (fun S e => c S) (fun a i => i = idx /\ P a).

Lemma silent_ret {A} (a : A) (P : A -> Prop) : P a -> silent (fun S => ret a) P.
Proof. intros ? idx. by apply traced_ret. Qed.
Lemma silent_fault {A} x (P : A -> Prop) : silent (fun S => fault x) P.
Proof. intros idx. apply traced_fault. Qed.
Lemma silent_bind {A B} (c : forall S, K S A) (k : forall S, A -> K S B) P Q :
  silent c P -> (forall a, P a -> silent (fun S => k S a) Q) -> silent (fun S => bind (c S) (k S)) Q.
Proof.
  intros Hc Hk idx. eapply (traced_bind idx (fun S _ => c S) (fun S _ => k S)); [apply Hc|].
  intros a i [-> HP]. apply (Hk a HP).
Qed.
Lemma silent_if {A} (b : bool) (c d : forall S, K S A) P :
  silent c P -> silent d P -> silent (fun S => if b then c S else d S) P.
Proof. by destruct b. Qed.
#[local] Hint Resolve silent_ret silent_fault : traced.

Lemma traced_silent_bind {A B} idx (c : forall S, K S A) (k : forall S, env S -> A -> K S B) P Q :
  silent c P -> (forall a, P a -> traced idx (fun S e => k S e a) Q) ->
  traced idx (fun S e => bind (c S) (k S e)) Q.
Proof.
  intros Hc Hk. eapply (traced_bind idx (fun S _ => c S)); [apply Hc|]. intros a i [-> HP]. by apply Hk.
Qed.

Definition any {A} (_ : A) : Prop := True.
Ltac silent_auto :=
  repeat first
    [ apply silent_ret; done
    | apply silent_fault
    | apply silent_if
    | match goal with |- silent (fun S => if ?b then _ else _) _ => destruct b end ].

Lemma silent_buf_push buf c : silent (fun S => buf_push buf c) (fun b => b = buf ++ [c]).
Proof. unfold buf_push. silent_auto. Qed.

(** 32 rounds are enough for the buffer loops: each one adds a character. *)
Lemma silent_zero_loop fuel buf bound :
  (length buf + fuel >= 32)%nat -> silent (fun S => zero_loop fuel buf bound) any.
Proof.
  revert buf. induction fuel as [|n IH]; intros buf Hf; simpl; unfold buf_len, PRINTF_NTOA_BUFFER_SIZE.
  { rewrite (proj2 (Z.ltb_ge _ 32)) by lia. rewrite andb_false_r. by apply silent_ret. }
  apply silent_if; [|by apply silent_ret].
  eapply silent_bind; [apply silent_buf_push|]. intros ? ->. apply IH. rewrite length_app. simpl. lia.
Qed.

Lemma silent_digit_loop fuel buf value base flags :
  (length buf + fuel >= 32)%nat -> (0 < fuel)%nat -> silent (fun S => digit_loop fuel buf value base flags) any.
Proof.
  revert buf value. induction fuel as [|n IH]; intros buf value Hf H0; [lia|]. cbn [digit_loop].
  apply silent_if; [apply silent_fault|].
  eapply silent_bind; [apply silent_buf_push|]. intros ? ->.
  destruct (Z.ltb_spec (buf_len (buf ++ [digit_char (i8 (value mod base)) flags])) PRINTF_NTOA_BUFFER_SIZE) as [Hl|].
  - unfold buf_len, PRINTF_NTOA_BUFFER_SIZE in Hl. rewrite length_app in Hl. simpl in Hl.
    apply silent_if; [|by apply silent_ret]. apply IH; [rewrite length_app; simpl|]; lia.
  - rewrite andb_false_r. by apply silent_ret.
Qed.

Lemma silent_push_any buf c : silent (fun S => buf_push buf c) any.
Proof. unfold buf_push. silent_auto. Qed.

Lemma silent_push_if_room buf c : silent (fun S => push_if_room buf c) any.
Proof. unfold push_if_room. apply silent_if; [apply silent_push_any|by apply silent_ret]. Qed.

Lemma silent_ntoa_hash buf base prec width flags : silent (fun S => ntoa_hash buf base prec width flags) any.
Proof.
  unfold ntoa_hash. destruct (is_set flags FLAGS_HASH); [|by apply silent_ret].
  eapply silent_bind; [|intros buf' _; apply silent_push_if_room].
  repeat (apply silent_if; [apply silent_push_any|]). by apply silent_ret.
Qed.

Lemma silent_ntoa_sign buf negative flags : silent (fun S => ntoa_sign buf negative flags) any.
Proof.
  unfold ntoa_sign. apply silent_if; [|by apply silent_ret].
  repeat (apply silent_if; [apply silent_push_any|]). by apply silent_ret.
Qed.

Lemma traced_ntoa_format idx buf negative base prec width flags :
  traced idx (fun S e => _ntoa_format (e_out e) (e_buffer e) (e_maxlen e) idx buf negative base prec width flags)
    (fun a i => a = i).
Proof.
  unfold _ntoa_format. eapply traced_silent_bind with (P := any).
  { apply silent_if; [|by apply silent_ret].
    eapply silent_bind; [apply silent_zero_loop; lia|]. intros b _.
    eapply silent_bind; [apply silent_if; [apply silent_zero_loop; lia|by apply silent_ret]|].
    intros b' _. by apply silent_ret. }
  intros [b w] _. eapply traced_silent_bind; [apply silent_ntoa_hash|]. intros b1 _.
  eapply traced_silent_bind; [apply silent_ntoa_sign|]. intros b2 _. apply traced_out_rev.
Qed.

Lemma traced_ntoa_long idx value negative base prec width flags :
  traced idx (fun S e => _ntoa_long (e_out e) (e_buffer e) (e_maxlen e) idx value negative base prec width flags)
    (fun a i => a = i).
Proof.
  unfold _ntoa_long. eapply traced_silent_bind with (P := any).
  { apply silent_if; [apply silent_digit_loop; simpl; lia|by apply silent_ret]. }
  intros b _. apply traced_ntoa_format.
Qed.


(** ** Parsing a directive *)
Definition no_double (a : va_arg) : Prop := match a with Double _ => False | _ => True end.
Abbreviation integral := (Forall no_double).

Lemma silent_mono {A} (c : forall S, K S A) (P Q : A -> Prop) :
  silent c P -> (forall a, P a -> Q a) -> silent c Q.
Proof. intros Hc H idx. eapply traced_mono; [apply Hc|]. intros a i [-> ?]. auto. Qed.

(** What parsing a field leaves: no more format than before, integral
    arguments. *)
Definition field_ok (format : list Z) (x : Z * Z * list Z * list va_arg) : Prop :=
  (length x.1.2 <= length format)%nat /\ integral x.2.

Lemma length_tail {A} (l : list A) : (length (tail l) <= length l)%nat.
Proof. destruct l; simpl; lia. Qed.

(** A pair whose argument list is still integral. *)
Definition rest_ok {A} (x : A * list va_arg) : Prop := integral x.2.

Lemma silent_deref p : silent (fun S => deref p) any.
Proof. destruct p; [apply silent_fault|by apply silent_ret]. Qed.

Lemma silent_va_word va : integral va -> silent (fun S => va_word va) rest_ok.
Proof. destruct 1 as [|[w|p|b] va]; simpl; auto with traced. Qed.

Lemma silent_va_str va : integral va -> silent (fun S => va_str va) rest_ok.
Proof. destruct 1 as [|[w|p|b] va]; simpl; auto with traced. Qed.

Lemma silent_va_double va P : integral va -> silent (fun S => va_double va) P.
Proof. destruct 1 as [|[w|p|b] va]; simpl; auto with traced. done. Qed.

Lemma silent_atoi_loop str i : silent (fun S => atoi_loop str i) (fun x => (length x.2 <= length str)%nat).
Proof.
  revert i. induction str as [|c str IH]; intros i; simpl; [apply silent_fault|].
  apply silent_if; [|by apply silent_ret]. eapply silent_mono; [apply IH|]. simpl. lia.
Qed.

Lemma silent_strnlen_s p n : silent (fun S => _strnlen_s p n) any.
Proof.
  eapply silent_bind; [|intros; by apply silent_ret].
  instantiate (1 := any). generalize 0. revert n. induction p as [|c p IH]; intros n k; simpl; [apply silent_fault|].
  apply silent_if; [by apply silent_ret|]. apply silent_if; [by apply silent_ret|]. apply IH.
Qed.

Lemma silent_eval_flags format flags :
  silent (fun S => eval_flags format flags) (fun x => (length x.2 <= length format)%nat).
Proof.
  revert flags. induction format as [|c f IH]; intros flags; simpl; [apply silent_fault|].
  repeat (apply silent_if; [eapply silent_mono; [apply IH|]; simpl; lia|]). by apply silent_ret.
Qed.

Lemma silent_eval_width format flags va :
  integral va -> silent (fun S => eval_width format flags va) (field_ok format).
Proof.
  intros Hva. eapply silent_bind; [apply silent_deref|]. intros c _. apply silent_if.
  { eapply silent_bind; [apply silent_atoi_loop|]. intros [w f] ?. by apply silent_ret. }
  apply silent_if; [|by apply silent_ret].
  eapply silent_bind; [by apply silent_va_word|]. intros [x va'] ?.
  apply silent_if; apply silent_ret; (split; [apply length_tail|done]).
Qed.

Lemma silent_eval_precision format flags va :
  integral va -> silent (fun S => eval_precision format flags va) (field_ok format).
Proof.
  intros Hva. eapply silent_bind; [apply silent_deref|]. intros c _. apply silent_if; [|by apply silent_ret].
  pose proof (length_tail format).
  eapply silent_bind; [apply silent_deref|]. intros c' _. apply silent_if.
  { eapply silent_bind; [apply silent_atoi_loop|]. intros [w f] ?. apply silent_ret. split; [simpl in *; lia|done]. }
  apply silent_if; [|by apply silent_ret].
  eapply silent_bind; [by apply silent_va_word|]. intros [x va'] ?. apply silent_ret. split; [|done].
  pose proof (length_tail (tail format)). simpl. lia.
Qed.

Lemma silent_eval_length format flags :
  silent (fun S => eval_length format flags) (fun x => (length x.2 <= length format)%nat).
Proof.
  pose proof (length_tail format). pose proof (length_tail (tail format)).
  eapply silent_bind; [apply silent_deref|]. intros c _.
  repeat (apply silent_if; [solve [apply silent_ret; simpl; lia | eapply silent_bind; [apply silent_deref|]; intros c' _;
    apply silent_if; apply silent_ret; simpl; lia]|]). by apply silent_ret.
Qed.

(** A pointer that has been read is not at the end of its object. *)
Lemma silent_deref_in p : silent (fun S => deref p) (fun c => (0 < length p)%nat).
Proof. destruct p; [apply silent_fault|apply silent_ret; simpl; lia]. Qed.

(** ** Conversions *)

(** An index and the arguments left. *)
Definition moved (x : Z * list va_arg) (i : Z) : Prop := x.1 = i /\ integral x.2.

(** Close a conversion: print an integer, return the index. *)
Lemma traced_ntoa_ret idx value negative base prec width flags va :
  integral va ->
  traced idx (fun S e => let! idx := _ntoa_long (e_out e) (e_buffer e) (e_maxlen e) idx value negative base prec width flags
                         in ret (idx, va)) moved.
Proof. intros Hva. eapply traced_bind; [apply traced_ntoa_long|]. intros i ? <-. by apply traced_ret. Qed.

Lemma traced_conv_integer c idx precision width flags va :
  integral va ->
  traced idx (fun S e => conv_integer (e_out e) (e_buffer e) (e_maxlen e) c idx precision width flags va) moved.
Proof.
  intros Hva. unfold conv_integer. apply traced_if; (eapply traced_silent_bind; [by apply silent_va_word|]);
    intros [x va'] ?; repeat (apply traced_if; [by apply traced_ntoa_ret|]); by apply traced_ntoa_ret.
Qed.

Lemma traced_conv_pointer idx precision flags va :
  integral va ->
  traced idx (fun S e => conv_pointer (e_out e) (e_buffer e) (e_maxlen e) idx precision flags va) moved.
Proof.
  intros Hva. eapply traced_silent_bind; [by apply silent_va_word|]. intros [x va'] ?. by apply traced_ntoa_ret.
Qed.

Lemma traced_pad_to l width idx :
  traced idx (fun S e => pad_to (e_out e) (e_buffer e) (e_maxlen e) l width idx) (fun a i => a.1 = i).
Proof. eapply traced_bind; [apply traced_pad|]. intros i ? <-. by apply traced_ret. Qed.

Lemma traced_pad_if (b : bool) l width idx :
  traced idx (fun S e => if b then pad_to (e_out e) (e_buffer e) (e_maxlen e) l width idx else ret (idx, l))
    (fun a i => a.1 = i).
Proof. apply traced_if; [apply traced_pad_to|by apply traced_ret]. Qed.

Lemma traced_conv_char idx width flags va :
  integral va ->
  traced idx (fun S e => conv_char (e_out e) (e_buffer e) (e_maxlen e) idx width flags va) moved.
Proof.
  intros Hva. unfold conv_char. eapply traced_bind; [apply traced_pad_if|]. intros [i1 l1] ? <-.
  eapply traced_silent_bind; [by apply silent_va_word|]. intros [x va'] ?.
  eapply traced_bind; [apply traced_out|]. intros [] ? ->.
  eapply traced_bind; [apply traced_pad_if|]. intros [i2 l2] ? <-. by apply traced_ret.
Qed.

Lemma traced_str_loop p limited precision idx :
  traced idx (fun S e => str_loop (e_out e) (e_buffer e) (e_maxlen e) p limited precision idx) (fun a i => a = i).
Proof.
  revert precision idx. induction p as [|c p IH]; intros precision idx; simpl; [apply traced_fault|].
  apply traced_if; [by apply traced_ret|]. apply traced_if; [by apply traced_ret|].
  eapply traced_bind; [apply traced_out|]. intros [] ? ->. apply IH.
Qed.

Lemma traced_conv_string idx precision width flags va :
  integral va ->
  traced idx (fun S e => conv_string (e_out e) (e_buffer e) (e_maxlen e) idx precision width flags va) moved.
Proof.
  intros Hva. unfold conv_string. eapply traced_silent_bind; [by apply silent_va_str|]. intros [p va'] ?.
  eapply traced_silent_bind; [apply silent_strnlen_s|]. intros l _.
  eapply traced_bind; [apply traced_pad_if|]. intros [i1 l1] ? <-.
  eapply traced_bind; [apply traced_str_loop|]. intros i2 ? <-.
  eapply traced_bind; [apply traced_pad_if|]. intros [i3 l3] ? <-. by apply traced_ret.
Qed.

Lemma traced_specifier c idx precision width flags va :
  integral va ->
  traced idx (fun S e => eval_specifier (e_ftoa e) (e_etoa e) (e_out e) (e_buffer e) (e_maxlen e) c idx precision width flags va)
    moved.
Proof.
  intros Hva. unfold eval_specifier.
  assert (Hout : forall c, traced idx (fun S e => do! e_out e c (e_buffer e) idx (e_maxlen e) in ret (u64 (idx + 1), va)) moved).
  { intros x. eapply traced_bind; [apply traced_out|]. intros [] ? ->. by apply traced_ret. }
  apply traced_if; [by apply traced_conv_integer|].
  apply traced_if; [eapply traced_silent_bind with (P := fun _ => False); [by apply silent_va_double|]; done|].
  apply traced_if; [eapply traced_silent_bind with (P := fun _ => False); [by apply silent_va_double|]; done|].
  apply traced_if; [by apply traced_conv_char|].
  apply traced_if; [by apply traced_conv_string|].
  apply traced_if; [by apply traced_conv_pointer|].
  apply traced_if; apply Hout.
Qed.

Lemma traced_directive format idx va :
  integral va ->
  traced idx (fun S e => directive (e_ftoa e) (e_etoa e) (e_out e) (e_buffer e) (e_maxlen e) format idx va)
    (fun a i => a.1.1 = i /\ (length a.1.2 < length format)%nat /\ integral a.2).
Proof.
  intros Hva. unfold directive.
  eapply traced_silent_bind; [apply silent_eval_flags|]. intros [f1 fm1] L1.
  eapply traced_silent_bind; [by apply silent_eval_width|]. intros [[[w f2] fm2] va2] [L2 Hva2].
  eapply traced_silent_bind; [by apply silent_eval_precision|]. intros [[[p f3] fm3] va3] [L3 Hva3].
  eapply traced_silent_bind; [apply silent_eval_length|]. intros [f4 fm4] L4.
  eapply traced_silent_bind; [apply silent_deref_in|]. intros c L5.
  eapply traced_bind; [by apply traced_specifier|]. intros [i va4] ? [<- ?]. apply traced_ret. split_and!; [done| |done].
  destruct fm4; simpl in *; lia.
Qed.

(** The output of the interpreter and the way it ends depend on the format and
    the arguments only. *)
Lemma format_loop_traced fuel format idx va :
  integral va -> (length format < fuel)%nat ->
  traced idx (fun S e => format_loop (e_ftoa e) (e_etoa e) (e_out e) (e_buffer e) (e_maxlen e) fuel format idx va)
    (fun a i => a = i).
Proof.
  revert format idx va. induction fuel as [|n IH]; intros format idx va Hva Hf; cbn [format_loop]; [lia|].
  eapply traced_silent_bind; [apply silent_deref_in|]. intros c Hc.
  assert (length (tail format) < length format)%nat by (destruct format; simpl in *; lia).
  apply traced_if; [by apply traced_ret|]. apply traced_if.
  - eapply traced_bind; [apply traced_out|]. intros [] ? ->. apply IH; [done|lia].
  - eapply traced_bind; [by apply traced_directive|]. intros [[i fm] va'] ? (<- & ? & ?). apply IH; [done|simpl in *; lia].
Qed.

(** * The [snprintf] contract *)

(** The text of a format: what the interpreter sends to an output function that
    records it. *)
Definition out_record : out_fct_type (list Z) := fun c _ _ _ => modify (fun l => l ++ [c]).
Definition no_float {S} : out_fct_type S -> Z -> Z -> Z -> Z -> Z -> Z -> Z -> K S Z :=
  fun _ _ _ _ _ _ _ _ => fault 0.
Definition rendered (format : list Z) (va : list va_arg) : outcome (list Z) Z :=
  format_loop no_float no_float out_record 0 0 (S (length format)) format 0 va [].

Fixpoint store_bytes (a : Z) (l : list Z) (m : gmap Z Z) : gmap Z Z :=
  match l with
  | [] => m
  | c :: l' => store_bytes (a + 1) l' (<[a := c]> m)
  end.

Lemma lookup_store_bytes a l m x :
  store_bytes a l m !! x =
    if decide (a <= x < a + Z.of_nat (length l)) then l !! Z.to_nat (x - a) else m !! x.
Proof.
  revert a m. induction l as [|c l IH]; intros a m; cbn [store_bytes length].
  { rewrite decide_False by lia. done. }
  rewrite IH. destruct (decide (x = a)) as [->|].
  - rewrite decide_False, decide_True by lia. rewrite lookup_insert_eq. by rewrite Z.sub_diag.
  - destruct (decide (a + 1 <= x < a + 1 + Z.of_nat (length l))).
    + rewrite decide_True by lia. by replace (Z.to_nat (x - a)) with (Datatypes.S (Z.to_nat (x - (a + 1)))) by lia.
    + rewrite decide_False by lia. by rewrite lookup_insert_ne.
Qed.

Lemma store_bytes_app a l1 l2 m :
  store_bytes a (l1 ++ l2) m = store_bytes (a + Z.of_nat (length l1)) l2 (store_bytes a l1 m).
Proof.
  revert a m. induction l1 as [|c l1 IH]; intros a m; cbn [store_bytes length app].
  { by rewrite Z.add_0_r. }
  rewrite IH. f_equal. lia.
Qed.

Section contract.
Context {C : Type} (putchar : Z -> K C unit).
Variables ftoa etoa : out_fct_type (io C) -> Z -> Z -> Z -> Z -> Z -> Z -> Z -> K (io C) Z.

Lemma emit_record l idx s :
  emit (Env _ out_record 0 0 no_float no_float) idx l s = Ret tt (s ++ l).
Proof.
  revert idx s. induction l as [|c l IH]; intros idx s; cbn [emit]; [by rewrite app_nil_r|].
  unfold bind. cbn. rewrite IH. by rewrite <- app_assoc.
Qed.

(** Any output function sees the recorded text, in order. *)
Lemma format_loop_rendered format va n text :
  integral va -> rendered format va = Ret n text ->
  n = u64 (Z.of_nat (length text)) /\
  forall out buffer maxlen s, format_loop ftoa etoa out buffer maxlen (S (length format)) format 0 va s =
    bind (emit (Env _ out buffer maxlen ftoa etoa) 0 text) (fun _ => ret n) s.
Proof.
  intros Hva Hr. destruct (format_loop_traced (S (length format)) format 0 va Hva (Nat.lt_succ_diag_r _)) as (l & r & HP & H).
  pose proof (H _ (Env _ out_record 0 0 no_float no_float) []) as Hrec.
  cbn [e_out e_buffer e_maxlen e_ftoa e_etoa] in Hrec. unfold rendered in Hr.
  rewrite Hr in Hrec. unfold bind in Hrec. rewrite emit_record in Hrec. cbn in Hrec.
  destruct r as [a|x]; cbn in Hrec; try done. injection Hrec as -> ->. split.
  - rewrite (HP a eq_refl), adv_length by lia. by rewrite Z.add_0_l.
  - intros out buffer maxlen s. apply (H _ (Env _ out buffer maxlen ftoa etoa)).
Qed.

Lemma emit_buffer buffer count l idx s :
  0 <= buffer -> buffer + count <= 2 ^ 64 -> 0 <= idx -> idx + Z.of_nat (length l) < 2 ^ 64 ->
  emit (Env _ _out_buffer buffer count ftoa etoa) idx l s =
    Ret tt (set_bytes (store_bytes (buffer + idx) (take (Z.to_nat (count - idx)) l) (bytes s)) s).
Proof.
  intros Hb Hc. revert idx s. induction l as [|c l IH]; intros idx s Hi Hl; cbn [emit].
  { rewrite take_nil. by destruct s. }
  cbn [length] in Hl. unfold bind, e_out, e_buffer, e_maxlen, _out_buffer, when.
  destruct (Z.ltb_spec idx count).
  - unfold modify. rewrite (wrap_small 64 (idx + 1)), (wrap_small 64 (buffer + idx)) by lia.
    rewrite IH by lia. replace (Z.to_nat (count - idx)) with (S (Z.to_nat (count - (idx + 1)))) by lia.
    cbn [take store_bytes]. by rewrite Z.add_assoc.
  - cbn. rewrite (wrap_small 64 (idx + 1)) by lia. rewrite IH by lia.
    replace (Z.to_nat (count - (idx + 1))) with O by lia. by replace (Z.to_nat (count - idx)) with O by lia.
Qed.

Lemma emit_null l idx buffer count s : emit (Env (io C) _out_null buffer count ftoa etoa) idx l s = Ret tt s.
Proof. revert idx. induction l as [|c l IH]; intros idx; [done|]. apply IH. Qed.

(** Overwriting the last stored byte with the terminator. *)
Lemma store_terminated buffer count text m :
  0 < count ->
  <[buffer + Z.min (Z.of_nat (length text)) (count - 1) := 0]> (store_bytes buffer (take (Z.to_nat count) text) m)
  = store_bytes buffer (take (Z.to_nat (count - 1)) text ++ [0]) m.
Proof.
  intros Hc. apply map_eq. intros x. rewrite store_bytes_app. cbn [store_bytes]. rewrite length_take.
  replace (Z.of_nat (Z.to_nat (count - 1) `min` length text)) with (Z.min (Z.of_nat (length text)) (count - 1)) by lia.
  destruct (decide (x = buffer + Z.min (Z.of_nat (length text)) (count - 1))) as [->|].
  { by rewrite !lookup_insert_eq. }
  rewrite !lookup_insert_ne, !lookup_store_bytes, !length_take by done.
  repeat case_decide; try lia; [|done]. rewrite !lookup_take_lt by lia. done.
Qed.

(** The characters [printf_] hands to [_putchar]. *)
Definition putchars (l : list Z) : K C unit := for_each l (fun c => when (negb (c =? 0)) (putchar c)).

Lemma emit_char l idx buffer count s :
  emit (Env _ (_out_char putchar) buffer count ftoa etoa) idx l s = zoom console set_console (putchars l) s.
Proof.
  revert idx s. induction l as [|c l IH]; intros idx s; cbn [emit]; [by destruct s|].
  unfold putchars. cbn [for_each]. unfold bind, zoom, e_out, _out_char, when.
  destruct (c =? 0); cbn [negb].
  - cbn. rewrite IH. by unfold zoom.
  - unfold zoom. destruct (putchar c (console s)) as [[] t| | |]; try done.
Qed.
End contract.


(** * Integer conversions *)

Definition digit_sym (upper : bool) (d : Z) : Z :=
  if d <? 10 then chr "0" + d else (if upper then chr "A" else chr "a") + d - 10.

Lemma digit_char_sym d flags : 0 <= d < 16 -> digit_char (i8 d) flags = digit_sym (is_set flags FLAGS_UPPERCASE) d.
Proof.
  intros. unfold digit_char, digit_sym.
  assert (Hi : forall z, 0 <= z < 128 -> i8 z = z) by (intros; unfold swrap; rewrite Z.mod_small; lia).
  rewrite (Hi d) by lia. change (chr "0") with 48. change (chr "A") with 65. change (chr "a") with 97.
  destruct (Z.ltb_spec d 10); [apply Hi; lia|]. destruct (is_set _ _); apply Hi; lia.
Qed.

Lemma digit_loop_step {S} n buf v base flags (s : S) :
  (length buf < 32)%nat -> 2 <= base <= 16 ->
  let buf' := buf ++ [digit_sym (is_set flags FLAGS_UPPERCASE) (v mod base)] in
  digit_loop (Datatypes.S n) buf v base flags s =
    (if negb (v / base =? 0) && (buf_len buf' <? 32) then digit_loop n buf' (v / base) base flags else ret buf') s.
Proof.
  intros Hlen Hbase buf'. cbn [digit_loop]. rewrite (proj2 (Z.eqb_neq base 0)) by lia.
  unfold bind, buf_push. rewrite (proj2 (Z.ltb_lt _ _)) by (unfold PRINTF_NTOA_BUFFER_SIZE; lia).
  cbn [ret]. rewrite digit_char_sym; [done|]. pose proof (Z.mod_pos_bound v base). lia.
Qed.

(** The digit loop leaves the low [fuel] digits of the value in the buffer: all
    of them when they fit. *)
Lemma digit_loop_spec fuel buf v base flags :
  (0 < fuel)%nat -> (length buf + fuel = 32)%nat -> 0 <= v -> 2 <= base <= 16 ->
  exists ds, Forall (fun d => 0 <= d < base) ds /\ value_le base ds = v mod base ^ Z.of_nat fuel /\
    (1 <= length ds <= fuel)%nat /\ (v < base ^ Z.of_nat fuel -> numeral base ds v) /\
    forall S (s : S), digit_loop fuel buf v base flags s =
      Ret (buf ++ map (digit_sym (is_set flags FLAGS_UPPERCASE)) ds) s.
Proof.
  revert buf v. induction fuel as [|n IH]; intros buf v Hf Hlen Hv Hbase; [lia|].
  assert (Hd : 0 <= v mod base < base) by (apply Z.mod_pos_bound; lia).
  assert (Hq : v / base < v \/ v / base = 0) by (destruct (decide (v = 0)) as [->|]; [by right|left; apply Z.div_lt; lia]).
  pose proof (Z.div_pos v base ltac:(lia) ltac:(lia)) as Hq0.
  pose proof (Z.div_mod v base ltac:(lia)) as Hdm.
  rewrite Nat2Z.inj_succ, Z.pow_succ_r by lia.
  destruct (decide (v / base <> 0 /\ (0 < n)%nat)) as [[Hne Hn]|Hstop].
  - destruct (IH (buf ++ [digit_sym (is_set flags FLAGS_UPPERCASE) (v mod base)]) (v / base)) as (ds & Hds & Hval & Hl & Hnum & Hrun);
      [lia|rewrite length_app; simpl; lia|lia|lia|].
    exists (v mod base :: ds). repeat split.
    + by constructor.
    + rewrite value_le_cons, Hval. rewrite Z.rem_mul_r by (try apply Z.pow_pos_nonneg; lia). done.
    + simpl. lia.
    + simpl. lia.
    + by constructor.
    + rewrite value_le_cons. destruct Hnum as (_ & -> & _); [|lia].
      apply Z.div_lt_upper_bound; lia.
    + done.
    + destruct Hnum as (_ & Hv' & Hne' & Hlast); [apply Z.div_lt_upper_bound; lia|].
      rewrite last_cons_ne by done. intros H0. specialize (Hlast H0). subst ds. cbn in Hv'. lia.
    + intros S s. rewrite digit_loop_step by lia. cbv zeta. rewrite (proj2 (Z.eqb_neq _ _) Hne).
      rewrite (proj2 (Z.ltb_lt _ _)) by (unfold buf_len; rewrite length_app; simpl; lia). cbn [negb andb].
      rewrite Hrun, <- app_assoc. done.
  - exists [v mod base]. assert (Hcase : v / base = 0 \/ n = O) by lia. repeat split.
    + by constructor.
    + cbn. rewrite Z.mul_0_r, Z.add_0_r. destruct Hcase as [H0| ->].
      * assert (v < base) by (apply Z.div_small_iff in H0; lia).
        pose proof (Z.pow_pos_nonneg base (Z.of_nat n)). rewrite !Z.mod_small; nia.
      * by rewrite Z.mul_1_r.
    + simpl. lia.
    + simpl. lia.
    + by constructor.
    + cbn. rewrite Z.mul_0_r, Z.add_0_r. destruct Hcase as [H0| ->]; apply Z.mod_small;
        [apply Z.div_small_iff in H0; lia|cbn in *; lia].
    + done.
    + cbn. intros [= ->]. done.
    + intros S s. rewrite digit_loop_step by lia. cbv zeta. destruct Hcase as [H0| ->].
      * rewrite H0. done.
      * rewrite (proj2 (Z.ltb_ge _ _)) by (unfold buf_len; rewrite length_app; simpl; lia).
        by rewrite andb_false_r.
Qed.


(** ** Layout *)

(** [emits idx c l]: [c] started at [idx] writes exactly [l] and returns the
    next index. *)
Definition emits (idx : Z) (c : forall S, env S -> K S Z) (l : list Z) : Prop :=
  forall S (e : env S) s, c S e s = bind (emit e idx l) (fun _ => ret (adv idx l)) s.

Lemma emits_nil idx : emits idx (fun S e => ret idx) [].
Proof. done. Qed.

Lemma emits_bind idx c (k : forall S, env S -> Z -> K S Z) l1 l2 :
  emits idx c l1 -> emits (adv idx l1) (fun S e => k S e (adv idx l1)) l2 ->
  emits idx (fun S e => bind (c S e) (k S e)) (l1 ++ l2).
Proof.
  intros H1 H2 S e s. unfold bind. rewrite H1, emit_app, adv_app. unfold bind.
  destruct (emit e idx l1 s); simpl; try done. 
Qed.

Lemma emits_ret_l idx (k : forall S, env S -> Z -> K S Z) l :
  emits idx (fun S e => k S e idx) l -> emits idx (fun S e => bind (ret idx) (k S e)) l.
Proof. done. Qed.

Lemma emits_ret_r idx c l : emits idx c l -> emits idx (fun S e => bind (c S e) (fun i => ret i)) l.
Proof. intros H S e s. unfold bind. rewrite H. unfold bind. by destruct (emit e idx l s). Qed.

Lemma emits_pad n c idx :
  emits idx (fun S e => pad (e_out e) (e_buffer e) (e_maxlen e) n c idx) (replicate n c).
Proof.
  revert idx. induction n as [|n IH]; intros idx S e s; simpl; [done|].
  unfold bind. destruct (e_out e c _ _ _ s); try done. by rewrite IH.
Qed.

Lemma emits_rev_loop buf len idx :
  (len <= length buf)%nat ->
  emits idx (fun S e => rev_loop (e_out e) (e_buffer e) (e_maxlen e) buf len idx) (rev (take len buf)).
Proof.
  revert idx. induction len as [|n IH]; intros idx Hlen S e s; simpl; [done|].
  destruct (lookup_lt_is_Some_2 buf n ltac:(lia)) as [c Hc]. rewrite Hc.
  rewrite (take_S_r _ _ _ Hc), rev_app_distr. cbn. unfold bind.
  destruct (e_out e c _ _ _ s); try done. rewrite IH by lia. done.
Qed.

(** Spaces before, the buffer reversed, spaces after. *)
Definition padded (width flags : Z) (l : list Z) : list Z :=
  let sp := replicate (Z.to_nat (width - Z.of_nat (length l))) (chr " ") in
  if is_set flags FLAGS_LEFT then l ++ sp
  else if is_set flags FLAGS_ZEROPAD then l else sp ++ l.

Lemma emits_out_rev idx buf width flags :
  0 <= idx < 2 ^ 64 -> (length buf <= 32)%nat ->
  emits idx (fun S e => _out_rev (e_out e) (e_buffer e) (e_maxlen e) idx buf (buf_len buf) width flags)
    (padded width flags (rev buf)).
Proof.
  intros Hi Hb. unfold _out_rev, padded, buf_len. rewrite Nat2Z.id, length_rev.
  assert (Hrev : forall i, emits i (fun S e => rev_loop (e_out e) (e_buffer e) (e_maxlen e) buf (length buf) i) (rev buf)).
  { intros i. pose proof (emits_rev_loop buf (length buf) i ltac:(lia)) as H. by rewrite take_ge in H by lia. }
  destruct (is_set flags FLAGS_LEFT); cbn [negb andb].
  - apply emits_ret_l, emits_bind; [apply Hrev|].
    replace (u64 (adv idx (rev buf) - idx)) with (Z.of_nat (length buf)); [apply emits_pad|].
    rewrite adv_length by lia. unfold wrap. rewrite Zminus_mod_idemp_l, length_rev.
    rewrite Z.mod_small; lia.
  - destruct (is_set flags FLAGS_ZEROPAD); cbn [negb].
    + apply emits_ret_l, emits_ret_r, Hrev.
    + apply emits_bind; [apply emits_pad|]. apply emits_ret_r, Hrev.
Qed.

Lemma zero_loop_spec {S} fuel buf bound (s : S) :
  (length buf + fuel >= 32)%nat -> (length buf <= 32)%nat ->
  zero_loop fuel buf bound s =
    Ret (buf ++ replicate (Z.to_nat (Z.min bound 32 - Z.of_nat (length buf))) (chr "0")) s.
Proof.
  revert buf. induction fuel as [|n IH]; intros buf Hf Hb; cbn [zero_loop]; unfold buf_len, PRINTF_NTOA_BUFFER_SIZE.
  - rewrite (proj2 (Z.ltb_ge _ 32)) by lia. rewrite andb_false_r.
    replace (Z.to_nat _) with O by lia. by rewrite app_nil_r.
  - destruct (Z.ltb_spec (Z.of_nat (length buf)) bound), (Z.ltb_spec (Z.of_nat (length buf)) 32); cbn [andb];
      try (replace (Z.to_nat _) with O by lia; by rewrite app_nil_r).
    unfold bind, buf_push, PRINTF_NTOA_BUFFER_SIZE. rewrite (proj2 (Z.ltb_lt _ _)) by lia. cbn [ret].
    rewrite IH by (rewrite length_app; simpl; lia). rewrite <- app_assoc, length_app. cbn [length app].
    rewrite <- replicate_S. do 3 f_equal. lia.
Qed.


Definition sign_of (negative : bool) (flags : Z) : list Z :=
  if negative then [chr "-"]
  else if is_set flags FLAGS_PLUS then [chr "+"]
  else if is_set flags FLAGS_SPACE then [chr " "] else [].

(** The C standard's layout of a signed numeral in a field. *)
Definition layout (width flags : Z) (negative : bool) (digits : list Z) : list Z :=
  let sign := sign_of negative flags in
  let fill := Z.to_nat (width - Z.of_nat (length (sign ++ digits))) in
  if is_set flags FLAGS_LEFT then sign ++ digits ++ replicate fill (chr " ")
  else if is_set flags FLAGS_ZEROPAD then sign ++ replicate fill (chr "0") ++ digits
  else replicate fill (chr " ") ++ sign ++ digits.

Lemma ntoa_sign_spec {S} buf negative flags (s : S) :
  (length buf < 32)%nat -> ntoa_sign buf negative flags s = Ret (buf ++ rev (sign_of negative flags)) s.
Proof.
  intros Hb. unfold ntoa_sign, sign_of, buf_push, buf_len, PRINTF_NTOA_BUFFER_SIZE.
  rewrite (proj2 (Z.ltb_lt _ _)) by lia.
  destruct negative; [done|]. destruct (is_set flags FLAGS_PLUS); [done|].
  destruct (is_set flags FLAGS_SPACE); [done|]. simpl. by rewrite app_nil_r.
Qed.

Lemma ntoa_sign_full {S} buf negative flags (s : S) :
  (length buf = 32)%nat -> ntoa_sign buf negative flags s = Ret buf s.
Proof. intros Hb. unfold ntoa_sign, buf_len, PRINTF_NTOA_BUFFER_SIZE. by rewrite (proj2 (Z.ltb_ge _ _)) by lia. Qed.

Lemma is_set_lor_r z a b : is_set z (Z.lor a b) = is_set z a || is_set z b.
Proof.
  unfold is_set. rewrite Z.land_lor_distr_r.
  destruct (Z.eqb_spec (Z.land z a) 0) as [->|Ha]; [by rewrite Z.lor_0_l|].
  rewrite (proj2 (Z.eqb_neq _ _)); [done|]. intros H%Z.lor_eq_0_iff. tauto.
Qed.

Lemma sign_of_length negative flags :
  length (sign_of negative flags) = if negative || is_set flags (Z.lor FLAGS_PLUS FLAGS_SPACE) then 1%nat else O.
Proof.
  unfold sign_of. rewrite is_set_lor_r. by destruct negative, (is_set flags FLAGS_PLUS), (is_set flags FLAGS_SPACE).
Qed.

(** The part of [_ntoa_format] that fills the buffer, for a conversion without
    [#] and without precision. *)
Lemma ntoa_fill {S} buf negative base width flags (s : S) :
  (length buf <= 31)%nat -> 0 <= width < 2 ^ 32 -> is_set flags FLAGS_HASH = false ->
  (is_set flags FLAGS_LEFT = false -> is_set flags FLAGS_ZEROPAD = true -> width <= 32) ->
  exists width' zeros,
    (zeros = if negb (is_set flags FLAGS_LEFT) && is_set flags FLAGS_ZEROPAD
             then Z.to_nat (width - Z.of_nat (length (sign_of negative flags)) - Z.of_nat (length buf)) else O) /\
    (width' = width \/ is_set flags FLAGS_LEFT = false /\ is_set flags FLAGS_ZEROPAD = true) /\
    forall e idx, _ntoa_format (S := S) (e_out e) (e_buffer e) (e_maxlen e) idx buf negative base 0 width flags s =
      _out_rev (e_out e) (e_buffer e) (e_maxlen e) idx (buf ++ replicate zeros (chr "0") ++ rev (sign_of negative flags))
        (buf_len (buf ++ replicate zeros (chr "0") ++ rev (sign_of negative flags))) width' flags s.
Proof.
  intros Hb Hw Hhash Hz.
  assert (Hhs : forall b p w, ntoa_hash b base p w flags s = Ret b s) by (intros; unfold ntoa_hash; by rewrite Hhash).
  pose proof (sign_of_length negative flags) as Hsl.
  unfold _ntoa_format. destruct (is_set flags FLAGS_LEFT) eqn:EL; cbn [negb andb].
  - exists width, O. split_and!; [done|by left|]. intros e idx. unfold bind at 1. cbn [ret]. unfold bind. rewrite Hhs, ntoa_sign_spec by lia. done.
  - set (w := if negb (width =? 0) && _ && _ then _ else width). eexists w, _. split_and!; [done| |intros e idx].
    { destruct (is_set flags FLAGS_ZEROPAD); [by right|]. left. subst w. by rewrite andb_false_r. }
    unfold bind. rewrite zero_loop_spec by lia. cbv beta iota. replace (Z.to_nat (Z.min 0 32 - _)) with O by lia.
    rewrite app_nil_r. destruct (is_set flags FLAGS_ZEROPAD) eqn:EZ; cbn [ret].
    + rewrite zero_loop_spec by lia. unfold ret. cbv beta iota. rewrite Hhs. cbv beta iota.
      specialize (Hz eq_refl eq_refl).
      assert (Hwv : (w = width - Z.of_nat (length (sign_of negative flags)) \/ w = 0 /\ width = 0) /\ 0 <= w <= 32).
      { subst w. destruct (Z.eqb_spec width 0); cbn [negb andb]; [lia|].
        rewrite Hsl. destruct (negative || _); [rewrite wrap_small by lia|]; lia. }
      set (nz := Z.to_nat (Z.min w 32 - _)).
      assert (nz = Z.to_nat (width - Z.of_nat (length (sign_of negative flags)) - Z.of_nat (length buf))) as <- by lia.
      destruct (decide (length (buf ++ replicate nz (chr "0")) = 32%nat)) as [Hfull|].
      * rewrite ntoa_sign_full by done. rewrite length_app, length_replicate in Hfull.
        assert (length (sign_of negative flags) = O) as ->%nil_length_inv by lia. by rewrite app_nil_r.
      * rewrite ntoa_sign_spec, <- app_assoc; [done|]. rewrite length_app, length_replicate in *. lia.
    + unfold ret. cbv beta iota. rewrite Hhs. cbv beta iota. by rewrite ntoa_sign_spec by lia.
Qed.


Lemma ldiff_clear a b : is_set a b = false -> Z.ldiff a b = a.
Proof.
  unfold is_set. intros H%negb_false_iff%Z.eqb_eq. apply Z.bits_inj'. intros n Hn.
  rewrite Z.ldiff_spec. pose proof (f_equal (fun z => Z.testbit z n) H) as Hb. cbn beta in Hb.
  rewrite Z.land_spec, Z.bits_0 in Hb. by destruct (Z.testbit a n), (Z.testbit b n).
Qed.

Lemma rev_replicate {A} n (x : A) : rev (replicate n x) = replicate n x.
Proof. rewrite rev_alt. apply reverse_replicate. Qed.

Lemma ntoa_format_layout idx buf negative base width flags :
  0 <= idx < 2 ^ 64 -> (length buf <= 31)%nat -> 0 <= width < 2 ^ 32 -> is_set flags FLAGS_HASH = false ->
  (is_set flags FLAGS_LEFT = false -> is_set flags FLAGS_ZEROPAD = true -> width <= 32) ->
  emits idx (fun S e => _ntoa_format (e_out e) (e_buffer e) (e_maxlen e) idx buf negative base 0 width flags)
    (layout width flags negative (rev buf)).
Proof.
  intros Hi Hb Hw Hh Hz S e s.
  destruct (ntoa_fill buf negative base width flags s Hb Hw Hh Hz) as (w & zeros & Hzeros & Hw' & ->).
  pose proof (sign_of_length negative flags) as Hsl.
  rewrite emits_out_rev; [|done|rewrite !length_app, length_replicate, length_rev; destruct (is_set flags FLAGS_LEFT), (is_set flags FLAGS_ZEROPAD); cbn in *; destruct (negative || _); lia].
  enough (padded w flags (rev (buf ++ replicate zeros (chr "0") ++ rev (sign_of negative flags)))
          = layout width flags negative (rev buf)) as -> by done.
  unfold padded, layout. rewrite !rev_app_distr, rev_involutive, rev_replicate.
  rewrite !length_app, length_replicate, ?length_rev.
  destruct (is_set flags FLAGS_LEFT) eqn:EL, (is_set flags FLAGS_ZEROPAD) eqn:EZ; cbn in Hzeros; subst zeros;
    destruct Hw' as [->|[? ?]]; try done; cbn [replicate app length]; rewrite ?app_nil_r, <- ?app_assoc; try done.
  all: repeat (apply (f_equal2 app); [try done|try done]).
  all: apply (f_equal (fun n => replicate n _)); lia.
Qed.

(** The value printed in [base], at most 31 digits, as the flags lay it out. *)
Lemma ntoa_long_layout idx v negative base width flags :
  0 <= idx < 2 ^ 64 -> 2 <= base <= 16 -> 0 <= v < base ^ 31 -> 0 <= width < 2 ^ 32 ->
  is_set flags FLAGS_HASH = false -> is_set flags FLAGS_PRECISION = false ->
  (is_set flags FLAGS_LEFT = false -> is_set flags FLAGS_ZEROPAD = true -> width <= 32) ->
  exists ds, numeral base ds v /\
    emits idx (fun S e => _ntoa_long (e_out e) (e_buffer e) (e_maxlen e) idx v negative base 0 width flags)
      (layout width flags negative (map (digit_sym (is_set flags FLAGS_UPPERCASE)) (rev ds))).
Proof.
  intros Hi Hbase Hv Hw Hh Hp Hz.
  destruct (digit_loop_spec 32 [] v base flags) as (ds & Hds & Hval & Hl & Hnum & Hrun); [lia|done|lia|done|].
  assert (Hpow : base ^ Z.of_nat 32 = base * base ^ 31) by (rewrite <- Z.pow_succ_r; [done|lia]).
  specialize (Hnum ltac:(rewrite Hpow; nia)). exists ds. split; [done|].
  assert (Hlen : (length ds <= 31)%nat) by (eapply (numeral_length base ds v 31); [lia|done|lia|lia]).
  intros S e s. unfold _ntoa_long. cbv zeta. rewrite (ldiff_clear _ _ Hh).
  replace (if v =? 0 then flags else flags) with flags by by destruct (v =? 0).
  rewrite Hp. cbn [negb orb]. rewrite (bind_Ret _ _ s _ _ (Hrun S s)). cbn [app].
  rewrite (wrap_small 32 base) by lia. rewrite ntoa_format_layout; try done.
  - by rewrite <- map_rev.
  - by rewrite length_map.
Qed.


(** ** Which value an integer directive prints *)
Definition signed_conv (c : Z) : bool := (c =? chr "i") || (c =? chr "d").

(** The argument slot read at the width the length flags ask for. *)
Definition int_value (c flags x : Z) : Z :=
  let wide := is_set flags FLAGS_LONG_LONG || is_set flags FLAGS_LONG in
  if signed_conv c then
    if wide then i64 x else if is_set flags FLAGS_CHAR then i8 x
    else if is_set flags FLAGS_SHORT then swrap 16 x else i32 x
  else
    if wide then u64 x else if is_set flags FLAGS_CHAR then u8 x
    else if is_set flags FLAGS_SHORT then u16 x else u32 x.

Lemma wrap_wrap a b x : 0 <= a <= b -> wrap a (wrap b x) = wrap a x.
Proof.
  intros H. unfold wrap. apply Z.mod_mod_divide. exists (2 ^ (b - a)). rewrite <- Z.pow_add_r by lia. f_equal. lia.
Qed.

Lemma swrap_swrap a b x : 0 < a <= b -> swrap a (swrap b x) = swrap a x.
Proof.
  intros H. unfold swrap. f_equal.
  replace ((x + 2 ^ (b - 1)) mod 2 ^ b - 2 ^ (b - 1) + 2 ^ (a - 1)) with (wrap b (x + 2 ^ (b - 1)) + (2 ^ (a - 1) - 2 ^ (b - 1))) by (unfold wrap; lia).
  rewrite <- (Zplus_mod_idemp_l (wrap b _)). fold (wrap a (wrap b (x + 2 ^ (b - 1)))). rewrite wrap_wrap by lia.
  unfold wrap. rewrite Zplus_mod_idemp_l. f_equal. lia.
Qed.

Lemma swrap_range w x : 0 < w -> - 2 ^ (w - 1) <= swrap w x < 2 ^ (w - 1).
Proof.
  intros Hw. unfold swrap. pose proof (Z.mod_pos_bound (x + 2 ^ (w - 1)) (2 ^ w) ltac:(apply Z.pow_pos_nonneg; lia)).
  assert (2 ^ w = 2 * 2 ^ (w - 1)) by (rewrite <- Z.pow_succ_r by lia; f_equal; lia). lia.
Qed.

Lemma magnitude_wrap w v : - 2 ^ (w - 1) <= v < 2 ^ (w - 1) -> 0 < w -> wrap w (magnitude v) = Z.abs v.
Proof.
  intros Hv Hw. assert (2 ^ w = 2 * 2 ^ (w - 1)) by (rewrite <- Z.pow_succ_r by lia; f_equal; lia).
  unfold magnitude. rewrite Z.gtb_ltb. destruct (Z.ltb_spec 0 v); rewrite wrap_small; lia.
Qed.

Lemma int_value_small c flags x : Z.abs (int_value c flags x) < 2 ^ 64.
Proof.
  pose proof (swrap_range 64 x). pose proof (swrap_range 8 x). pose proof (swrap_range 16 x). pose proof (swrap_range 32 x).
  pose proof (wrap_range 64 x). pose proof (wrap_range 8 x). pose proof (wrap_range 16 x). pose proof (wrap_range 32 x).
  unfold int_value. repeat case_match; lia.
Qed.

Lemma wrap_abs w x : 0 <= w -> Z.abs (wrap w x) = wrap w x.
Proof. intros. pose proof (wrap_range w x). lia. Qed.

Lemma wrap_not_neg w x : 0 <= w -> (wrap w x <? 0) = false.
Proof. intros. apply Z.ltb_ge. pose proof (wrap_range w x). lia. Qed.

(** The conversion is one call of the printer, whatever the width. *)
Lemma conv_integer_ntoa {S} (e : env S) c idx precision width flags0 x va s :
  let flags := conv_flags c flags0 in
  conv_integer (e_out e) (e_buffer e) (e_maxlen e) c idx precision width flags0 (Word x :: va) s =
  bind (_ntoa_long (e_out e) (e_buffer e) (e_maxlen e) idx (Z.abs (int_value c flags x)) (int_value c flags x <? 0)
          (conv_base c) precision width flags) (fun i => ret (i, va)) s.
Proof.
  intros flags. unfold conv_integer. fold flags. unfold int_value. fold (signed_conv c).
  assert (Hs : forall w y, 0 < w <= 32 -> u32 (magnitude (swrap w y)) = Z.abs (swrap w y)).
  { intros w y Hw. apply magnitude_wrap; [|lia]. pose proof (swrap_range w y ltac:(lia)).
    assert (2 ^ (w - 1) <= 2 ^ (32 - 1)) by (apply Z.pow_le_mono_r; lia). lia. }
  destruct (signed_conv c).
  - unfold conv_signed. rewrite (bind_Ret _ _ s (x, va) s eq_refl).
    rewrite (magnitude_wrap 64 (i64 x)) by (try apply swrap_range; lia).
    destruct (is_set flags FLAGS_LONG_LONG), (is_set flags FLAGS_LONG); cbn [orb]; try done.
    rewrite !(swrap_swrap _ 32) by lia.
    destruct (is_set flags FLAGS_CHAR); [by rewrite Hs by lia|].
    destruct (is_set flags FLAGS_SHORT); by rewrite Hs by lia.
  - unfold conv_unsigned. rewrite (bind_Ret _ _ s (x, va) s eq_refl).
    destruct (is_set flags FLAGS_LONG_LONG), (is_set flags FLAGS_LONG); cbn [orb];
      try (by rewrite wrap_abs, wrap_not_neg by lia).
    rewrite !(wrap_wrap _ 32) by lia.
    destruct (is_set flags FLAGS_CHAR), (is_set flags FLAGS_SHORT);
      by rewrite wrap_abs, wrap_not_neg by lia.
Qed.


Lemma is_set_ldiff a b m : Z.land b m = 0 -> is_set (Z.ldiff a b) m = is_set a m.
Proof.
  intros H. unfold is_set. do 2 f_equal. apply Z.bits_inj'. intros n Hn.
  rewrite !Z.land_spec, Z.ldiff_spec. pose proof (f_equal (fun z => Z.testbit z n) H) as Hb. cbn beta in Hb.
  rewrite Z.land_spec, Z.bits_0 in Hb. by destruct (Z.testbit a n), (Z.testbit b n), (Z.testbit m n).
Qed.

(** Flags the conversion does not touch. *)
Lemma conv_flags_keeps c flags m :
  Z.land FLAGS_HASH m = 0 -> is_set FLAGS_UPPERCASE m = false -> Z.land (Z.lor FLAGS_PLUS FLAGS_SPACE) m = 0 ->
  is_set flags FLAGS_PRECISION = false -> is_set (conv_flags c flags) m = is_set flags m.
Proof.
  intros H1 H2 H3 Hp. unfold conv_flags.
  assert (Hu : forall (b : bool) z, is_set (if b then Z.lor z FLAGS_UPPERCASE else z) m = is_set z m).
  { intros [] z; [|done]. rewrite is_set_lor, H2. apply orb_false_r. }
  assert (Hl : forall (b : bool) z k, Z.land k m = 0 -> is_set (if b then Z.ldiff z k else z) m = is_set z m).
  { intros [] z k Hk; [|done]. by apply is_set_ldiff. }
  set (f := if negb _ && negb _ then _ else _).
  assert (Hprec : is_set f FLAGS_PRECISION = false).
  { subst f. destruct (negb _ && negb _); destruct (c =? chr "X"); destruct (conv_base c =? 10);
      rewrite ?is_set_ldiff, ?is_set_lor, ?is_set_ldiff, Hp by done; done. }
  rewrite Hprec. subst f. rewrite Hl by done. rewrite Hu. by apply Hl.
Qed.

Lemma conv_flags_hash c flags : is_set flags FLAGS_PRECISION = false -> is_set flags FLAGS_HASH = false -> is_set (conv_flags c flags) FLAGS_HASH = false.
Proof.
  intros Hp Hh. unfold conv_flags. rewrite (ldiff_clear _ _ Hh).
  replace (if conv_base c =? 10 then flags else flags) with flags by by destruct (conv_base c =? 10).
  assert (Hu : is_set (if c =? chr "X" then Z.lor flags FLAGS_UPPERCASE else flags) FLAGS_HASH = false).
  { destruct (c =? chr "X"); [|done]. by rewrite is_set_lor, Hh. }
  set (f := if negb _ && negb _ then _ else _).
  assert (Hf : is_set f FLAGS_HASH = false) by (subst f; destruct (negb _ && negb _); [by rewrite is_set_ldiff|done]).
  destruct (is_set f FLAGS_PRECISION); [by rewrite is_set_ldiff|done].
Qed.

Lemma conv_base_cases c : conv_base c = 16 \/ conv_base c = 8 \/ (conv_base c = 2 /\ c = chr "b") \/ conv_base c = 10.
Proof.
  unfold conv_base. destruct (_ || _); [by left|]. destruct (c =? chr "o"); [tauto|].
  destruct (Z.eqb_spec c (chr "b")); tauto.
Qed.

Lemma specifier_integer {S} (e : env S) c idx width flags0 x va ds s :
  let flags := conv_flags c flags0 in
  let v := int_value c flags x in
  let text := layout width flags (v <? 0) (map (digit_sym (is_set flags FLAGS_UPPERCASE)) (rev ds)) in
  is_integer_conv c = true ->
  emits idx (fun S e => _ntoa_long (e_out e) (e_buffer e) (e_maxlen e) idx (Z.abs v) (v <? 0) (conv_base c) 0 width flags) text ->
  eval_specifier (e_ftoa e) (e_etoa e) (e_out e) (e_buffer e) (e_maxlen e) c idx 0 width flags0 (Word x :: va) s
  = bind (emit e idx text) (fun _ => ret (adv idx text, va)) s.
Proof.
  intros flags v text Hc He. unfold eval_specifier. rewrite Hc, conv_integer_ntoa. fold flags v.
  unfold bind at 1. rewrite He. unfold bind. by destruct (emit e idx _ s).
Qed.



(** * Properties *)
Section properties.
Context {C : Type} (putchar : Z -> K C unit).
Variables ftoa etoa : out_fct_type (io C) -> Z -> Z -> Z -> Z -> Z -> Z -> Z -> K (io C) Z.

Lemma snprintf_stores format va n text buffer count s :
  integral va -> rendered format va = Ret n text -> Z.of_nat (length text) < 2 ^ 64 ->
  0 < buffer -> 0 < count -> buffer + count <= 2 ^ 64 ->
  snprintf_ ftoa etoa buffer count format va s =
    Ret (i32 n) (set_bytes (store_bytes buffer (take (Z.to_nat (count - 1)) text ++ [0]) (bytes s)) s).
Proof.
  intros Hva Hr Hlen Hb Hc Hbc. destruct (format_loop_rendered ftoa etoa format va n text Hva Hr) as [Hn Hloop].
  rewrite wrap_small in Hn by lia. unfold snprintf_, _vsnprintf. rewrite (proj2 (Z.eqb_neq buffer 0)) by lia.
  unfold bind at 1. rewrite Hloop. unfold bind at 1. rewrite emit_buffer by lia. cbn [ret].
  rewrite Z.sub_0_r, Z.add_0_r. unfold bind, _out_buffer.
  replace (if n <? count then n else u64 (count - 1)) with (Z.min n (count - 1))
    by (destruct (Z.ltb_spec n count); [lia|rewrite wrap_small; lia]).
  rewrite (proj2 (Z.ltb_lt _ count)) by lia. cbn [when]. unfold modify, ret. rewrite wrap_small by lia.
  cbn [bytes set_bytes]. rewrite Hn, store_terminated by done. done.
Qed.

(** C20. The contract of [snprintf_]: for every format and every list of
    non-floating arguments whose text is [text], a call with a buffer of [count]
    bytes stores the first [count - 1] characters of the text and a terminator
    there, changes no other byte, and returns the length of the whole text; with
    [count = 0] or a null buffer it stores nothing and returns the same length;
    and [printf_] sends exactly the non-zero characters of that text to
    [_putchar], in order. *)
Theorem snprintf_contract format va n text :
  integral va -> rendered format va = Ret n text -> Z.of_nat (length text) < 2 ^ 64 ->
  n = Z.of_nat (length text) /\
  (forall buffer count s, 0 < buffer -> 0 < count -> buffer + count <= 2 ^ 64 ->
    snprintf_ ftoa etoa buffer count format va s =
      Ret (i32 n) (set_bytes (store_bytes buffer (take (Z.to_nat (count - 1)) text ++ [0]) (bytes s)) s)) /\
  (forall buffer s, 0 <= buffer < 2 ^ 64 -> snprintf_ ftoa etoa buffer 0 format va s = Ret (i32 n) s) /\
  (forall count s, snprintf_ ftoa etoa 0 count format va s = Ret (i32 n) s) /\
  (forall s, printf_ putchar ftoa etoa format va s =
    bind (zoom console set_console (putchars putchar text)) (fun _ => ret (i32 n)) s).
Proof.
  intros Hva Hr Hlen. destruct (format_loop_rendered ftoa etoa format va n text Hva Hr) as [Hn Hloop].
  rewrite wrap_small in Hn by lia. split; [done|]. split_and!.
  - intros buffer count s Hb Hc Hbc. by apply snprintf_stores.
  - intros buffer s Hb. unfold snprintf_, _vsnprintf. unfold bind at 1. rewrite Hloop. unfold bind at 1.
    destruct (buffer =? 0); [by rewrite emit_null|].
    rewrite emit_buffer by lia. unfold ret, bind, _out_buffer. rewrite (proj2 (Z.ltb_ge n 0)) by lia. by destruct s.
  - intros count s. unfold snprintf_, _vsnprintf. rewrite Z.eqb_refl. unfold bind at 1. rewrite Hloop. unfold bind at 1.
    by rewrite emit_null.
  - intros s. unfold printf_, _vsnprintf. change (local_buffer =? 0) with false. cbv iota. unfold bind at 1. rewrite Hloop. unfold bind at 1. rewrite emit_char.
    unfold bind. destruct (zoom console set_console (putchars putchar text) s); done.
Qed.

(** The interpreter ends as the rendering of its format does, whatever it prints
    to. *)
Lemma vsnprintf_ends out buffer maxlen format va s :
  integral va -> (forall c b i m s, exists s', out c b i m s = Ret tt s') ->
  match rendered format va with
  | Ret n _ => exists s', _vsnprintf ftoa etoa out buffer maxlen format va s = Ret (i32 n) s'
  | Fault x _ => exists s', _vsnprintf ftoa etoa out buffer maxlen format va s = Fault x s'
  | _ => False
  end.
Proof.
  intros Hva Hout. unfold _vsnprintf, rendered.
  set (o := if buffer =? 0 then _out_null else out).
  assert (Ho : forall c b i m s, exists s', o c b i m s = Ret tt s').
  { intros. subst o. destruct (buffer =? 0); [by eexists|apply Hout]. }
  assert (He : forall l idx s, exists s', emit (Env _ o buffer maxlen ftoa etoa) idx l s = Ret tt s').
  { induction l as [|c l IH]; intros idx s0; [by exists s0|]. cbn [emit]. unfold bind.
    destruct (Ho c buffer idx maxlen s0) as [s1 H1]. cbn [e_out e_buffer e_maxlen]. rewrite H1. apply IH. }
  destruct (format_loop_traced (S (length format)) format 0 va Hva (Nat.lt_succ_diag_r _)) as (l & r & _ & H).
  pose proof (H _ (Env _ out_record 0 0 no_float no_float) []) as Hrec.
  cbn [e_out e_buffer e_maxlen e_ftoa e_etoa] in Hrec. rewrite Hrec, (bind_Ret _ _ _ _ _ (emit_record l 0 [])).
  pose proof (H _ (Env _ o buffer maxlen ftoa etoa) s) as Hl. cbn [e_out e_buffer e_maxlen e_ftoa e_etoa] in Hl.
  destruct (He l 0 s) as [s1 E1]. rewrite (bind_Ret _ _ _ _ _ E1) in Hl. unfold bind. rewrite Hl.
  destruct r as [a|x]; cbn [finish ret fault]; [|by exists s1].
  unfold ret. destruct (Ho 0 buffer (if a <? maxlen then a else u64 (maxlen - 1)) maxlen s1) as [s2 ->]. by exists s2.
Qed.

(** A format whose last character is a lone [%] makes the interpreter read
    past the terminator of the format string: it prints the literal text before
    the [%], emits the terminator itself as if it were a conversion character,
    and then faults on the byte after the format. *)
Theorem printf_trailing_percent out buffer maxlen text va s :
  buffer <> 0 -> Forall (fun c => c <> 0 /\ c <> chr "%") text ->
  _vsnprintf ftoa etoa out buffer maxlen (text ++ [chr "%"; 0]) va s =
    bind (emit (Env _ out buffer maxlen ftoa etoa) 0 (text ++ [0])) (fun _ => fault 0) s.
Proof.
  intros Hb Ht. unfold _vsnprintf. rewrite (proj2 (Z.eqb_neq buffer 0) Hb).
  enough (H : forall fuel idx s, (length text + 2 < fuel)%nat ->
    format_loop ftoa etoa out buffer maxlen fuel (text ++ [chr "%"; 0]) idx va s =
    bind (emit (Env _ out buffer maxlen ftoa etoa) idx (text ++ [0])) (fun _ => fault 0) s).
  { unfold bind at 1. rewrite H by (rewrite length_app; simpl; lia). unfold bind at 1 3.
    by destruct (emit _ 0 _ s). }
  induction Ht as [|c text [H0 Hp] _ IH]; intros fuel idx s0 Hf.
  - destruct fuel as [|[|fuel]]; [simpl in Hf; lia..|].
    change (bind (bind (bind (out 0 buffer idx maxlen) (fun _ => ret (u64 (idx + 1), va))) (fun '(i, v) => ret (i, @nil Z, v)))
              (fun '(i, f, v) => format_loop ftoa etoa out buffer maxlen (S fuel) f i v) s0
            = bind (bind (out 0 buffer idx maxlen) (fun _ => ret tt)) (fun _ => fault 0) s0).
    unfold bind. by destruct (out 0 buffer idx maxlen s0).
  - destruct fuel as [|fuel]; [simpl in Hf; lia|]. cbn [format_loop app emit].
    unfold bind at 1, deref, ret at 1. rewrite (proj2 (Z.eqb_neq c 0) H0), (proj2 (Z.eqb_neq _ _) Hp). cbn [negb].
    unfold bind at 1 2 3. cbn [e_out e_buffer e_maxlen tail].
    destruct (out c buffer idx maxlen s0); try done. rewrite IH by (simpl in Hf; lia). done.
Qed.
End properties.


(** ** Reading a printed number back *)
Lemma digit_sym_dec upper ds : Forall (fun d => 0 <= d < 10) ds -> map (digit_sym upper) ds = map CStringSpec.dec ds.
Proof.
  intros H. apply map_ext_in. intros d Hd%list_elem_of_In. pose proof (Forall_elem _ _ _ H Hd) as Hr. cbn in Hr.
  unfold digit_sym. by rewrite (proj2 (Z.ltb_lt d 10)) by lia.
Qed.

(** The text of ["%llu"]. *)
Lemma rendered_llu v :
  0 <= v < 2 ^ 64 ->
  exists n ds, numeral 10 ds v /\ rendered (cstr "%llu") [Word v] = Ret n (map CStringSpec.dec (rev ds)).
Proof.
  intros Hv. set (e := Env _ out_record 0 0 no_float no_float). set (fl := Z.lor FLAGS_LONG FLAGS_LONG_LONG).
  destruct (ntoa_long_layout 0 v false 10 0 fl) as (ds & Hn & He); try done; [cbn; lia|].
  assert (Hval : int_value (chr "u") (conv_flags (chr "u") fl) v = v) by (by apply wrap_small).
  assert (Hd : Forall (fun d => 0 <= d < 10) (rev ds)) by (apply Forall_rev, Hn).
  pose proof (specifier_integer e (chr "u") 0 0 fl v [] ds [] eq_refl) as Hrun. rewrite Hval in Hrun.
  rewrite (Z.abs_eq v), (proj2 (Z.ltb_ge v 0)) in Hrun by lia. specialize (Hrun He).
  rewrite (digit_sym_dec _ _ Hd) in Hrun. eexists _, ds. split; [done|].
  change (layout 0 _ false (map CStringSpec.dec (rev ds)))
    with (replicate (Z.to_nat (0 - Z.of_nat (length (map CStringSpec.dec (rev ds))))) (chr " ") ++ map CStringSpec.dec (rev ds)) in Hrun.
  replace (Z.to_nat (0 - _)) with O in Hrun by lia. cbn [replicate app] in Hrun.
  unfold bind in Hrun at 1. rewrite emit_record in Hrun. cbn [app] in Hrun.
  change (rendered (cstr "%llu") [Word v])
    with (bind (bind (eval_specifier no_float no_float out_record 0 0 (chr "u") 0 0 0 fl [Word v])
                  (fun '(i, va) => ret (i, [0], va)))
            (fun '(i, f, va) => format_loop no_float no_float out_record 0 0 5 f i va) []).
  unfold bind at 1 2. cbn [e e_out e_buffer e_maxlen e_ftoa e_etoa] in Hrun. rewrite Hrun. reflexivity.
Qed.

(** Printing a 64-bit number with [%llu] into a buffer of at least 21 bytes
    and reading the buffer with [str2int2] gives the number back. *)
Theorem snprintf_u64_roundtrip {C} (ftoa etoa : out_fct_type (io C) -> Z -> Z -> Z -> Z -> Z -> Z -> Z -> K (io C) Z) v buffer count s :
  0 <= v < 2 ^ 64 -> 0 < buffer -> 21 <= count -> buffer + count <= 2 ^ 64 ->
  exists n s', snprintf_ ftoa etoa buffer count (cstr "%llu") [Word v] s = Ret n s' /\
    str2int2 buffer (bytes s') = Ret v (bytes s').
Proof.
  intros Hv Hb Hc Hbc. destruct (rendered_llu v Hv) as (n & ds & Hn & Hr).
  assert (Hl : (length ds <= 20)%nat) by (apply (numeral_length 10 ds v 20); [lia|done|cbn; lia|lia]).
  assert (Hva : integral [Word v]) by (by repeat constructor).
  rewrite (snprintf_stores ftoa etoa _ _ n _ buffer count s Hva Hr)
    by (rewrite ?length_map, ?length_rev; lia).
  eexists _, _. split; [done|]. cbn [bytes set_bytes].
  rewrite take_ge by (rewrite length_map, length_rev; lia).
  destruct (CStringSpec.numeral_read ds v Hn) as [Hd Hval].
  rewrite (CStringSpec.str2int2_spec _ buffer (rev ds)); [|split_and!|done].
  - by rewrite Hval, wrap_small.
  - intros i b Hi. pose proof (lookup_lt_Some _ _ _ Hi). rewrite lookup_store_bytes, decide_True by lia.
    by replace (Z.to_nat (buffer + Z.of_nat i - buffer)) with i by lia.
  - by apply CStringSpec.dec_chars.
  - rewrite length_map, length_rev. split; lia.
Qed.


Lemma snprintf_contract_witness :
  exists text, rendered (cstr "pid %d: %s") [Word 7; Str (cstr "idle")] = Ret 11 text /\
    forall s, snprintf_ (C := unit) no_float no_float 0x1000 8 (cstr "pid %d: %s") [Word 7; Str (cstr "idle")] s =
      Ret 11 (set_bytes (store_bytes 0x1000 (chars "pid 7: " ++ [0]) (bytes s)) s).
Proof.
  exists (chars "pid 7: idle"). split; [vm_compute; reflexivity|]. intros s.
  destruct (snprintf_contract (fun _ : Z => (ret tt : K unit unit)) no_float no_float (cstr "pid %d: %s")
    [Word 7; Str (cstr "idle")] 11 (chars "pid 7: idle")) as (_ & H & _);
    [repeat constructor|vm_compute; reflexivity|vm_compute; reflexivity|].
  apply (H 0x1000 8 s); lia.
Defined.

Lemma printf_trailing_percent_witness :
  _vsnprintf (C := unit) no_float no_float _out_null 0x1000 8 (chars "50" ++ [chr "%"; 0]) [] (IO ∅ tt) = Fault 0 (IO ∅ tt).
Proof.
  rewrite (printf_trailing_percent no_float no_float _out_null 0x1000 8 (chars "50") [] (IO ∅ tt));
    [reflexivity|lia|repeat constructor; intros H; discriminate H].
Defined.

(** With [#], a numeral as long as the field is wide loses its two leading digits to the
    prefix: [%#4x] of 0x1234 prints "0x34". *)
Theorem printf_hash_drops_digits : rendered (cstr "%#4x") [Word 0x1234] = Ret 4 (chars "0x34").
Proof. vm_compute. reflexivity. Qed.

Lemma snprintf_u64_roundtrip_witness :
  exists n s', snprintf_ (C := unit) no_float no_float 0x1000 32 (cstr "%llu") [Word (2 ^ 64 - 1)] (IO ∅ tt) = Ret n s' /\
    str2int2 0x1000 (bytes s') = Ret (2 ^ 64 - 1) (bytes s').
Proof. apply snprintf_u64_roundtrip; lia. Defined.

End PrintfSpec.
