(* ===== verification/Sched.v ===== *)
(** The cooperative scheduler: [src/src/sched.c], [src/src/include/sched.h]
    and the context switch [src/src/sched_ll.asm].

    Process control blocks and task stacks live in the kernel heap, reached
    through the interface of [KHeap].  The CPU state is the stack pointer, the
    callee-saved registers and the instruction pointer.  A dispatch does not
    return to its caller: [schedule] therefore says whether control left for
    another context ([true]; execution goes on at [rip]) or came straight back. *)
From S2P Require Import Prelude KHeap.

Definition STACK_SIZE : Z := 16 * 1024.
Definition STACK_ALIGN : Z := 16.

(** [proc_state_t] *)
Inductive proc_state_t : Type := PROC_READY | PROC_RUNNING | PROC_BLOCKED.
Definition state_code (st : proc_state_t) : Z :=
  match st with PROC_READY => 0 | PROC_RUNNING => 1 | PROC_BLOCKED => 2 end.

(** [process_t]: [pid] at 0, [rsp] at 8, [state] at 16, [next] at 24. *)
Definition off_pid : Z := 0.
Definition off_rsp : Z := 8.
Definition off_state : Z := 16.
Definition off_next : Z := 24.
Definition sizeof_process_t : Z := 32.

Record cpu : Type := Cpu {
  rsp : Z; rbp : Z; rbx : Z; r12 : Z; r13 : Z; r14 : Z; r15 : Z; rip : Z;
}.
Definition set_rsp (v : Z) (c : cpu) : cpu :=
  Cpu v (rbp c) (rbx c) (r12 c) (r13 c) (r14 c) (r15 c) (rip c).

Section sched.
Context {H : Type} `{KernelHeap H}.
(** Link-time addresses: [task_returned], and the instruction after the call of
    [switch_to] in [schedule]. *)
Variables (task_returned_addr schedule_ra : Z).

Record sched : Type := Sched {
  current : Z;
  run_queue_head : Z;
  run_queue_tail : Z;
  next_pid : Z;
  allow_sched : bool;
  heap : H;
  regs : cpu;
}.

Definition set_current (v : Z) (s : sched) : sched :=
  Sched v (run_queue_head s) (run_queue_tail s) (next_pid s) (allow_sched s) (heap s) (regs s).
Definition set_queue (h t : Z) (s : sched) : sched :=
  Sched (current s) h t (next_pid s) (allow_sched s) (heap s) (regs s).
Definition set_next_pid (v : Z) (s : sched) : sched :=
  Sched (current s) (run_queue_head s) (run_queue_tail s) v (allow_sched s) (heap s) (regs s).
Definition set_allow (b : bool) (s : sched) : sched :=
  Sched (current s) (run_queue_head s) (run_queue_tail s) (next_pid s) b (heap s) (regs s).
Definition set_heap (h : H) (s : sched) : sched :=
  Sched (current s) (run_queue_head s) (run_queue_tail s) (next_pid s) (allow_sched s) h (regs s).
Definition set_regs (c : cpu) (s : sched) : sched :=
  Sched (current s) (run_queue_head s) (run_queue_tail s) (next_pid s) (allow_sched s) (heap s) c.

Definition in_heap {A} : K H A -> K sched A := zoom heap set_heap.
Definition ld (a : Z) : K sched Z := in_heap (kh_load a).
Definition st (a v : Z) : K sched unit := in_heap (kh_store a v).

(** Store to a 4-byte field in the low half of its word. *)
Definition st_int (a v : Z) : K sched unit :=
  let! w := ld a in st a (w - w mod 2 ^ 32 + u32 v).

(** [memset(p, 0, n)] of a word-aligned region. *)
Definition memset_words (p n : Z) : K sched unit :=
  for_range 0 (n / 8) (fun k => st (p + 8 * k) 0).

Definition task_returned : K sched unit := panic "scheduler: task returned unexpectedly".

Definition init_scheduler : K sched unit :=
  modify (fun s => set_allow false (set_next_pid 1 (set_queue 0 0 (set_current 0 s)))).

(** The synthetic frame of a new task: the words pushed below [stack_end]. *)
Definition build_frame (stack entry : Z) : K sched Z :=
  let stack_end := u64 (stack + STACK_SIZE) in
  let stack_end := Z.land stack_end (u64 (Z.lnot (STACK_ALIGN - 1))) in
  let sp := u64 (stack_end - 8) in
  do! st sp task_returned_addr in
  let sp := u64 (sp - 8) in do! st sp entry in
  let sp := u64 (sp - 8) in do! st sp 0 in
  let sp := u64 (sp - 8) in do! st sp 0 in
  let sp := u64 (sp - 8) in do! st sp 0 in
  let sp := u64 (sp - 8) in do! st sp 0 in
  let sp := u64 (sp - 8) in do! st sp 0 in
  let sp := u64 (sp - 8) in do! st sp 0 in
  ret sp.

(** The insertion at the tail of the circular run queue. *)
Definition enqueue (p : Z) : K sched unit :=
  let! s := get in
  if run_queue_head s =? 0 then
    do! modify (set_queue p p) in
    st (p + off_next) p
  else
    do! st (p + off_next) (run_queue_head s) in
    do! st (run_queue_tail s + off_next) p in
    modify (set_queue (run_queue_head s) p).

Definition create_process (entry : Z) : K sched Z :=
  if entry =? 0 then panic "scheduler: NULL task entry" else
  let! p := in_heap (kh_malloc sizeof_process_t) in
  if p =? 0 then panic "scheduler: failed to allocate process structure" else
  do! memset_words p sizeof_process_t in
  let! stack := in_heap (kh_malloc STACK_SIZE) in
  if stack =? 0 then panic "scheduler: failed to allocate task stack" else
  do! memset_words stack STACK_SIZE in
  let! s := get in
  do! st_int (p + off_pid) (next_pid s) in
  do! modify (set_next_pid (i32 (next_pid s + 1))) in
  do! st_int (p + off_state) (state_code PROC_READY) in
  let! sp := build_frame stack entry in
  do! st (p + off_rsp) sp in
  do! enqueue p in
  ret p.

(** ** [sched_ll.asm] *)

(** [push v].  While [current] is null the boot stack is in use; nothing ever
    resumes on it, so what is pushed there is not kept. *)
Definition push (v : Z) : K sched unit :=
  let! s := get in
  let sp := u64 (rsp (regs s) - 8) in
  do! modify (set_regs (set_rsp sp (regs s))) in
  if current s =? 0 then ret tt else st sp v.

Definition pop : K sched Z :=
  let! s := get in
  let! v := ld (rsp (regs s)) in
  do! modify (set_regs (set_rsp (u64 (rsp (regs s) + 8)) (regs s))) in
  ret v.

Definition save_context : K sched unit :=
  let! s := get in
  let c := regs s in
  do! push (rbp c) in do! push (rbx c) in do! push (r12 c) in
  do! push (r13 c) in do! push (r14 c) in do! push (r15 c) in
  let! s := get in
  st (current s + off_rsp) (rsp (regs s)).

Definition load_context (next : Z) : K sched unit :=
  do! modify (set_current next) in
  let! sp := ld (next + off_rsp) in
  let! s := get in
  do! modify (set_regs (set_rsp sp (regs s))) in
  let! v15 := pop in let! v14 := pop in let! v13 := pop in
  let! v12 := pop in let! vbx := pop in let! vbp := pop in
  let! ra := pop in
  let! s := get in
  modify (set_regs (Cpu (rsp (regs s)) vbp vbx v12 v13 v14 v15 ra)).

Definition switch_to (next : Z) : K sched unit :=
  let! s := get in
  do! when (negb (current s =? 0)) save_context in
  load_context next.

Definition schedule : K sched bool :=
  let! s := get in
  if run_queue_head s =? 0 then ret false else
  let! next := (if negb (current s =? 0) then ld (current s + off_next) else ret (run_queue_head s)) in
  if next =? 0 then ret false else
  if negb (current s =? 0) && (next =? current s) then ret false else
  do! when (negb (current s =? 0)) (st_int (current s + off_state) (state_code PROC_READY)) in
  do! st_int (next + off_state) (state_code PROC_RUNNING) in
  do! push schedule_ra in
  do! switch_to next in
  ret true.

Definition scheduler_start : K sched unit :=
  let! s := get in
  if run_queue_head s =? 0 then panic "scheduler: cannot start with an empty run queue" else
  if negb (current s =? 0) then panic "scheduler: start requested while a task is already current" else
  do! modify (set_allow false) in
  let! switched := schedule in
  if switched then ret tt else panic "scheduler: initial dispatch returned unexpectedly".
End sched.
Arguments sched H : clear implicits.
