(* ===== verification/SchedSpec.v ===== *)
(** The scheduler refines a round-robin machine: a list of tasks with saved
    contexts and the index of the running one.  Creating a task appends it with a
    context that enters it correctly; a yield saves the running context and
    resumes the next one exactly where it left off; and every task runs again
    after a bounded number of yields, whatever the tasks do in between. *)
From S2P Require Import Prelude Kmalloc KmallocSpec KHeap Sched.

Module SchedSpec.

Section spec.
Context {H : Type} {KH : KernelHeap H} {KL : KernelHeapLaws H}.
Variables (task_returned_addr schedule_ra : Z).
Notation sch := (sched H).

(** * Loads and stores on the abstract heap *)
Lemma set_heap_same (s : sch) : set_heap (heap s) s = s.
Proof. by destruct s. Qed.

Lemma ld_eq (s : sch) n A p ws (i : nat) w a :
  kh_rep (heap s) n A -> A !! p = Some ws -> ws !! i = Some w -> a = p + 8 * Z.of_nat i -> ld a s = Ret w s.
Proof.
  intros Hr Hp Hi ->. unfold ld, in_heap, zoom. rewrite (kh_load_law _ _ _ _ _ _ _ Hr Hp Hi). by rewrite set_heap_same.
Qed.

Lemma wp_ld (s : sch) n A p ws (i : nat) w a (Q : Z -> sch -> Prop) :
  kh_rep (heap s) n A -> A !! p = Some ws -> ws !! i = Some w -> a = p + 8 * Z.of_nat i -> Q w s -> wp (ld a s) Q.
Proof. intros. by erewrite ld_eq. Qed.

Lemma wp_st (s : sch) n A p ws (i : nat) v a (Q : unit -> sch -> Prop) :
  kh_rep (heap s) n A -> A !! p = Some ws -> (i < length ws)%nat -> a = p + 8 * Z.of_nat i ->
  (forall h', kh_rep h' n (<[p := <[i := v]> ws]> A) -> Q tt (set_heap h' s)) -> wp (st a v s) Q.
Proof.
  intros Hr Hp Hi -> HQ. destruct (kh_store_law _ _ _ _ _ _ v Hr Hp Hi) as (h' & E & Hr').
  unfold st, in_heap, zoom. rewrite E. by apply HQ.
Qed.

(** A 4-byte field whose word holds nothing else. *)
Lemma wp_st_int (s : sch) n A p ws (i : nat) w v a (Q : unit -> sch -> Prop) :
  kh_rep (heap s) n A -> A !! p = Some ws -> ws !! i = Some w -> 0 <= w < 2 ^ 32 -> a = p + 8 * Z.of_nat i ->
  (forall h', kh_rep h' n (<[p := <[i := u32 v]> ws]> A) -> Q tt (set_heap h' s)) -> wp (st_int a v s) Q.
Proof.
  intros Hr Hp Hi Hw Ha HQ. unfold st_int. apply wp_bind. eapply wp_ld; try done.
  eapply wp_st; try done; [by eapply lookup_lt_Some|]. intros h'. rewrite (Z.mod_small w) by lia.
  replace (w - w + u32 v) with (u32 v) by lia. apply HQ.
Qed.

(** * The abstract machine *)
Record aproc : Type := AProc { ap_pcb : Z; ap_stk : Z; ap_pid : Z; ap_ctx : cpu }.
Definition set_ctx (c : cpu) (p : aproc) : aproc := AProc (ap_pcb p) (ap_stk p) (ap_pid p) c.

(** The words of a process control block. *)
Definition pcb_words (ws : list Z) (pid sp state next : Z) : Prop :=
  ws !! 0%nat = Some pid /\ ws !! 1%nat = Some sp /\ ws !! 2%nat = Some state /\ ws !! 3%nat = Some next.

(** Stores to the fields. *)
Lemma pcb_set ws pid sp state next (i : nat) v :
  pcb_words ws pid sp state next ->
  pcb_words (<[i := v]> ws) (if decide (i = 0)%nat then v else pid) (if decide (i = 1)%nat then v else sp)
    (if decide (i = 2)%nat then v else state) (if decide (i = 3)%nat then v else next).
Proof.
  unfold pcb_words. intros (H0 & H1 & H2 & H3). destruct ws as [|a [|b [|c [|d ws]]]]; simpl in *; try done.
  simplify_eq. destruct i as [|[|[|[|i]]]]; done.
Qed.

Lemma pcb_length ws pid sp state next : pcb_words ws pid sp state next -> (4 <= length ws)%nat.
Proof. intros (_ & _ & _ & H3). apply lookup_lt_Some in H3. lia. Qed.

(** The context [c] saved in a stack payload [ws] at [stk], at word [k]. *)
Definition frame_words (stk : Z) (ws : list Z) (k : nat) (c : cpu) : Prop :=
  rsp c = stk + 8 * Z.of_nat (7 + k) /\
  ws !! k = Some (r15 c) /\ ws !! (1 + k)%nat = Some (r14 c) /\ ws !! (2 + k)%nat = Some (r13 c) /\
  ws !! (3 + k)%nat = Some (r12 c) /\ ws !! (4 + k)%nat = Some (rbx c) /\ ws !! (5 + k)%nat = Some (rbp c) /\
  ws !! (6 + k)%nat = Some (rip c).

Definition state_of (cur : option nat) (i : nat) : proc_state_t :=
  if decide (cur = Some i) then PROC_RUNNING else PROC_READY.

Definition succ_of (ps : list aproc) (i : nat) : option aproc := ps !! ((i + 1) mod length ps)%nat.

(** Task [p] at position [i] of the queue [ps] as memory holds it. *)
Definition proc_rep (A : gmap Z (list Z)) (ps : list aproc) (cur : option nat) (i : nat) (p : aproc) : Prop :=
  exists ws sp next, A !! ap_pcb p = Some ws /\ succ_of ps i = Some next /\
    pcb_words ws (u32 (ap_pid p)) sp (state_code (state_of cur i)) (ap_pcb next) /\
    is_Some (A !! ap_stk p) /\
    (cur <> Some i -> exists vs k, A !! ap_stk p = Some vs /\ frame_words (ap_stk p) vs k (ap_ctx p) /\ sp = ap_stk p + 8 * Z.of_nat k).

Record sched_rep (s : sch) (n : Z) (A : gmap Z (list Z)) (ps : list aproc) (cur : option nat) : Prop := {
  sr_heap : kh_rep (heap s) n A;
  sr_head : run_queue_head s = default 0 (ap_pcb <$> head ps);
  sr_tail : run_queue_tail s = default 0 (ap_pcb <$> last ps);
  sr_nodup : NoDup ((ap_pcb <$> ps) ++ (ap_stk <$> ps));
  sr_cur : match cur with
           | None => current s = 0
           | Some i => exists p, ps !! i = Some p /\ current s = ap_pcb p
           end;
  sr_procs : forall i p, ps !! i = Some p -> proc_rep A ps cur i p;
}.

(** The running task has room on its own stack for the frame of a yield. *)
Definition stack_ready (A : gmap Z (list Z)) (p : aproc) (c : cpu) : Prop :=
  exists ws k, A !! ap_stk p = Some ws /\ rsp c = ap_stk p + 8 * Z.of_nat k /\ (7 <= k <= length ws)%nat.

Definition set_rip (v : Z) (c : cpu) : cpu := Cpu (rsp c) (rbp c) (rbx c) (r12 c) (r13 c) (r14 c) (r15 c) v.

(** * The context switch *)
Lemma wp_push (s : sch) n A stk ws (k : nat) v (Q : unit -> sch -> Prop) :
  kh_rep (heap s) n A -> A !! stk = Some ws -> current s <> 0 ->
  rsp (regs s) = stk + 8 * Z.of_nat (S k) -> (S k <= length ws)%nat ->
  (forall h', kh_rep h' n (<[stk := <[k := v]> ws]> A) ->
     Q tt (set_heap h' (set_regs (set_rsp (stk + 8 * Z.of_nat k) (regs s)) s))) ->
  wp (push v s) Q.
Proof.
  intros Hr Hp Hc Hsp Hk HQ. destruct (kh_layout _ _ _ _ _ Hr Hp) as (_ & ? & ?).
  unfold push. rewrite bind_get. apply wp_bind. cbn [wp modify].
  rewrite Hsp. rewrite wrap_small by lia. replace (stk + 8 * Z.of_nat (S k) - 8) with (stk + 8 * Z.of_nat k) by lia.
  rewrite (proj2 (Z.eqb_neq _ _) Hc). eapply wp_st; try done.
Qed.

Lemma wp_pop (s : sch) n A stk ws (k : nat) v (Q : Z -> sch -> Prop) :
  kh_rep (heap s) n A -> A !! stk = Some ws -> rsp (regs s) = stk + 8 * Z.of_nat k -> ws !! k = Some v ->
  Q v (set_regs (set_rsp (stk + 8 * Z.of_nat (S k)) (regs s)) s) -> wp (pop s) Q.
Proof.
  intros Hr Hp Hsp Hk HQ. destruct (kh_layout _ _ _ _ _ Hr Hp) as (_ & ? & ?). pose proof (lookup_lt_Some _ _ _ Hk).
  unfold pop. rewrite bind_get. apply wp_bind. eapply wp_ld; try done. apply wp_bind. cbn [wp modify ret].
  rewrite Hsp. rewrite wrap_small by lia. by replace (stk + 8 * Z.of_nat k + 8) with (stk + 8 * Z.of_nat (S k)) by lia.
Qed.

(** The words a yield leaves on the outgoing stack. *)
Definition saved (ws : list Z) (k : nat) (c : cpu) (ra : Z) : list Z :=
  <[k := r15 c]> (<[1 + k := r14 c]> (<[2 + k := r13 c]> (<[3 + k := r12 c]>
    (<[4 + k := rbx c]> (<[5 + k := rbp c]> (<[6 + k := ra]> ws))))))%nat.

Lemma saved_frame stk ws k c ra :
  rsp c = stk + 8 * Z.of_nat (7 + k) -> (7 + k <= length ws)%nat ->
  frame_words stk (saved ws k c ra) k (set_rip ra c).
Proof.
  intros Hsp Hk. unfold saved, frame_words. split; [done|].
  repeat split; repeat (first [ rewrite list_lookup_insert_eq by (rewrite ?length_insert; lia); done
                              | rewrite list_lookup_insert_ne by lia ]).
Qed.

Lemma length_saved ws k c ra : length (saved ws k c ra) = length ws.
Proof. unfold saved. by rewrite !length_insert. Qed.

(** One push of the frame, with word [j] of the stack as its target. *)
Ltac push_one Hstep Hr j :=
  apply wp_bind; eapply (Hstep _ _ _ j); [exact Hr|done|done|rewrite ?length_insert; lia|];
  clear Hr; intros ? Hr; cbn [regs set_heap set_regs set_rsp].

(** The call of [switch_to] and its saving half. *)
Lemma wp_save (s : sch) n A stk ws (k : nat) ws1 (Q : unit -> sch -> Prop) :
  kh_rep (heap s) n A -> A !! stk = Some ws -> A !! current s = Some ws1 -> current s <> stk -> current s <> 0 ->
  rsp (regs s) = stk + 8 * Z.of_nat (7 + k) -> (7 + k <= length ws)%nat -> (2 <= length ws1)%nat ->
  (forall h' c', kh_rep h' n (<[current s := <[1%nat := stk + 8 * Z.of_nat k]> ws1]> (<[stk := saved ws k (regs s) schedule_ra]> A)) ->
     Q tt (set_heap h' (set_regs c' s))) ->
  wp (push schedule_ra s) (fun _ s1 => current s1 = current s /\ wp (save_context s1) Q).
Proof.
  intros Hr Hp Hcur Hne Hc0 Hsp Hk Hl1 HQ. unfold save_context.
  eapply (wp_push s n A stk ws (6 + k)); [done|done|done|done|lia|]. intros h1 Hr1. split; [done|]. rewrite bind_get. cbn [regs set_heap set_regs].
  assert (Hstep : forall (s0 : sch) A0 ws0 (j : nat) v Q0, kh_rep (heap s0) n (<[stk := ws0]> A0) -> current s0 = current s ->
    rsp (regs s0) = stk + 8 * Z.of_nat (S j) -> (S j <= length ws0)%nat ->
    (forall h', kh_rep h' n (<[stk := <[j := v]> ws0]> A0) -> Q0 tt (set_heap h' (set_regs (set_rsp (stk + 8 * Z.of_nat j) (regs s0)) s0))) ->
    wp (push v s0) Q0).
  { intros s0 A0 ws0 j v Q0 Hr0 Hc Hsp0 Hj HQ0. eapply wp_push; try done; [by rewrite lookup_insert_eq|by rewrite Hc|].
    intros h'. rewrite insert_insert_eq. apply HQ0. }
  push_one Hstep Hr1 (5 + k)%nat. push_one Hstep Hr1 (4 + k)%nat. push_one Hstep Hr1 (3 + k)%nat.
  push_one Hstep Hr1 (2 + k)%nat. push_one Hstep Hr1 (1 + k)%nat. push_one Hstep Hr1 k.
  rewrite bind_get. cbn [regs set_heap set_regs set_rsp rsp current].
  eapply (wp_st _ n _ (current s) ws1 1); [exact Hr1|by rewrite lookup_insert_ne|lia|done|]. intros hf Hrf.
  exact (HQ hf (set_rsp (stk + 8 * Z.of_nat k) (regs s)) Hrf).
Qed.

Ltac pop_one n A stk vs j :=
  apply wp_bind; eapply (wp_pop _ n A stk vs j); [done|done|done|done|]; cbn [regs set_regs set_rsp].

(** The loading half of [switch_to]. *)
Lemma wp_load (s : sch) n A next ws stk vs (k : nat) c (Q : unit -> sch -> Prop) :
  kh_rep (heap s) n A -> A !! next = Some ws -> ws !! 1%nat = Some (stk + 8 * Z.of_nat k) ->
  A !! stk = Some vs -> frame_words stk vs k c ->
  Q tt (set_regs c (set_current next s)) -> wp (load_context next s) Q.
Proof.
  intros Hr Hn Hsp Hs (Hrsp & F1 & F2 & F3 & F4 & F5 & F6 & F7) HQ. unfold load_context.
  apply wp_bind. cbn [wp modify]. apply wp_bind. eapply (wp_ld _ n A next ws 1); try done.
  rewrite bind_get. apply wp_bind. cbn [wp modify].
  pop_one n A stk vs k. pop_one n A stk vs (1 + k)%nat. pop_one n A stk vs (2 + k)%nat. pop_one n A stk vs (3 + k)%nat.
  pop_one n A stk vs (4 + k)%nat. pop_one n A stk vs (5 + k)%nat. pop_one n A stk vs (6 + k)%nat.
  rewrite bind_get. cbn [wp modify regs set_regs set_rsp rsp].
  replace (Cpu _ _ _ _ _ _ _ _) with c; [exact HQ|]. destruct c. cbn in *. by rewrite Hrsp.
Qed.

(** The whole switch, from the call on. *)
Lemma wp_switch (s : sch) n A stk ws (k : nat) ws1 next wn stk2 vs (k2 : nat) c (Q : bool -> sch -> Prop) :
  kh_rep (heap s) n A -> A !! stk = Some ws -> A !! current s = Some ws1 -> current s <> stk -> current s <> 0 ->
  rsp (regs s) = stk + 8 * Z.of_nat (7 + k) -> (7 + k <= length ws)%nat -> (2 <= length ws1)%nat ->
  A !! next = Some wn -> next <> current s -> next <> stk -> wn !! 1%nat = Some (stk2 + 8 * Z.of_nat k2) ->
  A !! stk2 = Some vs -> stk2 <> current s -> stk2 <> stk -> frame_words stk2 vs k2 c ->
  (forall h', kh_rep h' n (<[current s := <[1%nat := stk + 8 * Z.of_nat k]> ws1]> (<[stk := saved ws k (regs s) schedule_ra]> A)) ->
     Q true (set_heap h' (set_regs c (set_current next s)))) ->
  wp ((do! push schedule_ra in do! switch_to next in ret true) s) Q.
Proof.
  intros Hr Hstk Hcur Hne Hc0 Hsp Hk Hl Hn Hn1 Hn2 Hwn Hs2 Hs21 Hs22 Hf HQ. apply wp_bind.
  eapply wp_mono; [apply (wp_save s n A stk ws k ws1 (fun _ s' => exists h' c', s' = set_heap h' (set_regs c' s) /\
    kh_rep h' n (<[current s := <[1%nat := stk + 8 * Z.of_nat k]> ws1]> (<[stk := saved ws k (regs s) schedule_ra]> A)))); try done|].
  { intros h' c' Hr'. by exists h', c'. }
  intros [] s1 [Hc1 Hsave]. apply wp_bind. unfold switch_to. rewrite bind_get, Hc1, (proj2 (Z.eqb_neq _ _) Hc0).
  cbn [negb when]. apply wp_bind. eapply wp_mono; [exact Hsave|]. intros [] s2 (h & c2 & -> & Hr2).
  eapply (wp_load _ n _ next wn stk2 vs k2 c); [exact Hr2|by rewrite !lookup_insert_ne|done|by rewrite !lookup_insert_ne|done|].
  exact (HQ h Hr2).
Qed.

(** * Yield *)
Lemma nodup_pcb_stk ps i j p q :
  NoDup ((ap_pcb <$> ps) ++ (ap_stk <$> ps)) -> ps !! i = Some p -> ps !! j = Some q -> ap_pcb p <> ap_stk q.
Proof.
  intros Hnd Hi Hj He. apply NoDup_app in Hnd as (_ & Hd & _). apply (Hd (ap_pcb p)).
  - apply list_elem_of_fmap_2. by eapply list_elem_of_lookup_2.
  - rewrite He. apply list_elem_of_fmap_2. by eapply list_elem_of_lookup_2.
Qed.

Lemma nodup_pcb ps i j p q :
  NoDup ((ap_pcb <$> ps) ++ (ap_stk <$> ps)) -> ps !! i = Some p -> ps !! j = Some q -> i <> j -> ap_pcb p <> ap_pcb q.
Proof.
  intros Hnd Hi Hj Hne He. apply NoDup_app in Hnd as (Hd & _ & _). apply Hne.
  eapply (NoDup_lookup _ _ _ (ap_pcb p) Hd); rewrite list_lookup_fmap; [by rewrite Hi|by rewrite Hj, He].
Qed.

Lemma nodup_stk ps i j p q :
  NoDup ((ap_pcb <$> ps) ++ (ap_stk <$> ps)) -> ps !! i = Some p -> ps !! j = Some q -> i <> j -> ap_stk p <> ap_stk q.
Proof.
  intros Hnd Hi Hj Hne He. apply NoDup_app in Hnd as (_ & _ & Hd). apply Hne.
  eapply (NoDup_lookup _ _ _ (ap_stk p) Hd); rewrite list_lookup_fmap; [by rewrite Hi|by rewrite Hj, He].
Qed.

Lemma pcb_nonzero s n A ps cur i p : sched_rep s n A ps cur -> ps !! i = Some p -> ap_pcb p <> 0.
Proof.
  intros Hs Hi. destruct (sr_procs _ _ _ _ _ Hs i p Hi) as (ws & sp & next & Hp & _).
  destruct (kh_layout _ _ _ _ _ (sr_heap _ _ _ _ _ Hs) Hp) as (_ & ? & _). lia.
Qed.


(** Changing a saved context does not change the queue. *)
Lemma succ_of_ctx ps i p c r next :
  ps !! i = Some p -> succ_of ps r = Some next ->
  exists next', succ_of (<[i := set_ctx c p]> ps) r = Some next' /\ ap_pcb next' = ap_pcb next.
Proof.
  intros Hi Hn. unfold succ_of in *. rewrite length_insert.
  destruct (decide (i = (r + 1) mod length ps)%nat) as [He|Hne].
  - rewrite He in *. rewrite list_lookup_insert_eq by (by eapply lookup_lt_Some). simplify_eq. by eexists.
  - rewrite list_lookup_insert_ne by done. by exists next.
Qed.

Lemma fmap_ctx {B} (f : aproc -> B) (ps : list aproc) (i : nat) p c :
  (forall c p, f (set_ctx c p) = f p) -> ps !! i = Some p -> f <$> <[i := set_ctx c p]> ps = f <$> ps.
Proof.
  intros Hf Hi. rewrite list_fmap_insert, Hf. apply list_insert_id. by rewrite list_lookup_fmap, Hi.
Qed.

(** The queue a yield leaves: every block as it was, except the two states and
    the saved stack pointer; the outgoing context is on its stack. *)
Lemma switched_procs A A' ps (i j : nat) p q k wi wj sp :
  (forall r x, ps !! r = Some x -> proc_rep A ps (Some i) r x) ->
  NoDup ((ap_pcb <$> ps) ++ (ap_stk <$> ps)) ->
  ps !! i = Some p -> ps !! j = Some q -> i <> j ->
  A !! ap_pcb p = Some wi -> A !! ap_pcb q = Some wj ->
  A' !! ap_pcb p = Some (<[1%nat := ap_stk p + 8 * Z.of_nat k]> (<[2%nat := 0]> wi)) ->
  A' !! ap_pcb q = Some (<[2%nat := 1]> wj) ->
  (forall x, x <> ap_pcb p -> x <> ap_pcb q -> x <> ap_stk p -> A' !! x = A !! x) ->
  (exists vs, A' !! ap_stk p = Some vs /\ frame_words (ap_stk p) vs k sp) ->
  forall r x, <[i := set_ctx sp p]> ps !! r = Some x -> proc_rep A' (<[i := set_ctx sp p]> ps) (Some j) r x.
Proof.
  intros Hps Hnd Hi Hj Hij Hwi Hwj Hp' Hq' Hoth (vs & Hvs & Hfr) r x Hx.
  destruct (decide (r = i)) as [->|Hri].
  - rewrite list_lookup_insert_eq in Hx by (by eapply lookup_lt_Some). injection Hx as <-.
    destruct (Hps i p Hi) as (ws & sp0 & next & Hws & Hn & Hpcb & _). simplify_eq.
    destruct (succ_of_ctx ps i p sp i next Hi Hn) as (next' & Hn' & Hnp).
    eexists _, _, next'. split; [exact Hp'|]. split; [exact Hn'|]. split.
    + unfold state_of. rewrite decide_False by congruence. rewrite Hnp.
      exact (pcb_set _ _ _ _ _ 1 _ (pcb_set _ _ _ _ _ 2 0 Hpcb)).
    + split; [by exists vs|]. intros _. by exists vs, k.
  - rewrite list_lookup_insert_ne in Hx by done.
    destruct (Hps r x Hx) as (ws & sp0 & next & Hws & Hn & Hpcb & Hstk & Hframe).
    destruct (succ_of_ctx ps i p sp r next Hi Hn) as (next' & Hn' & Hnp).
    specialize (Hframe ltac:(congruence)) as (us & m & Hus & Hfu & Hsp).
    assert (Hsame : A' !! ap_stk x = A !! ap_stk x).
    { apply Hoth; [apply not_eq_sym; by eapply nodup_pcb_stk|apply not_eq_sym; by eapply nodup_pcb_stk|by eapply nodup_stk]. }
    destruct (decide (r = j)) as [->|Hrj].
    + simplify_eq. eexists _, _, next'. split; [exact Hq'|]. split; [exact Hn'|]. split; [|split; [by rewrite Hsame|done]].
      unfold state_of. rewrite decide_True by done. rewrite Hnp. exact (pcb_set _ _ _ _ _ 2 1 Hpcb).
    + exists ws, sp0, next'. split; [rewrite Hoth; [done|..]|].
      { by eapply nodup_pcb. } { by eapply nodup_pcb. } { by eapply nodup_pcb_stk. }
      split; [exact Hn'|]. split.
      * rewrite Hnp. unfold state_of in *. rewrite !decide_False in * by congruence. done.
      * split; [by rewrite Hsame|]. intros _. exists us, m. by rewrite Hsame.
Qed.

Lemma schedule_switch (s : sch) n A ps (i : nat) p q :
  sched_rep s n A ps (Some i) -> ps !! i = Some p -> (2 <= length ps)%nat -> succ_of ps i = Some q ->
  stack_ready A p (regs s) ->
  wp (schedule schedule_ra s) (fun b s' => b = true /\ regs s' = ap_ctx q /\ exists A',
    sched_rep s' n A' (<[i := set_ctx (set_rip schedule_ra (regs s)) p]> ps) (Some ((i + 1) mod length ps)%nat) /\
    next_pid s' = next_pid s /\
    forall x, x <> ap_pcb p -> x <> ap_pcb q -> x <> ap_stk p -> A' !! x = A !! x).
Proof.
  intros Hs Hi Hlen Hq (vs & k0 & Hvs & Hsp & Hk0). pose proof Hs as [Hh Hhd Htl Hnd (p' & Hp' & Hcur) Hps].
  assert (p' = p) as -> by congruence. clear Hp'.
  assert (Hilt : (i < length ps)%nat) by (by eapply lookup_lt_Some).
  set (j := ((i + 1) mod length ps)%nat) in *.
  assert (Hij : i <> j).
  { subst j. destruct (decide (i + 1 = length ps)%nat) as [He|]; [rewrite He, Nat.Div0.mod_same; lia|]. rewrite Nat.mod_small; lia. }
  destruct (Hps i p Hi) as (wi & spi & next & Hwi & Hn & (P0 & P1 & P2 & P3) & _).
  destruct (Hps j q Hq) as (wj & spj & nextj & Hwj & _ & (Q0 & Q1 & Q2 & Q3) & _ & Hfq).
  assert (next = q) as -> by congruence.
  specialize (Hfq ltac:(congruence)) as (us & m & Hus & Hfu & Hspj).
  pose proof (pcb_nonzero _ _ _ _ _ _ _ Hs Hi) as Hp0. pose proof (pcb_nonzero _ _ _ _ _ _ _ Hs Hq) as Hq0.
  pose proof (nodup_pcb _ _ _ _ _ Hnd Hi Hq Hij) as Hpq.
  pose proof (nodup_pcb_stk _ _ _ _ _ Hnd Hi Hi). pose proof (nodup_pcb_stk _ _ _ _ _ Hnd Hq Hi).
  pose proof (nodup_pcb_stk _ _ _ _ _ Hnd Hi Hq). pose proof (nodup_pcb_stk _ _ _ _ _ Hnd Hq Hq).
  pose proof (nodup_stk _ _ _ _ _ Hnd Hi Hq Hij).
  assert (Hhd0 : run_queue_head s <> 0).
  { rewrite Hhd. destruct ps as [|p0 ps0]; [simpl in Hlen; lia|]. by eapply (pcb_nonzero s n A (p0 :: ps0) _ 0). }
  unfold schedule. rewrite bind_get, (proj2 (Z.eqb_neq _ _) Hhd0), Hcur, (proj2 (Z.eqb_neq _ _) Hp0). cbn [negb].
  apply wp_bind. eapply (wp_ld _ n A _ wi 3); try done.
  rewrite (proj2 (Z.eqb_neq _ _) Hq0), (proj2 (Z.eqb_neq _ _) (not_eq_sym Hpq)). cbn [negb andb when].
  apply wp_bind. eapply (wp_st_int _ n A _ wi 2); [done|done|exact P2|unfold state_of; case_decide; simpl; lia|done|].
  intros h1 Hh1. apply wp_bind. eapply (wp_st_int _ n _ (ap_pcb q) wj 2);
    [exact Hh1|by rewrite lookup_insert_ne|exact Q2|unfold state_of; case_decide; simpl; lia|done|].
  intros h2 Hh2. change (u32 (state_code PROC_READY)) with 0 in *. change (u32 (state_code PROC_RUNNING)) with 1 in *.
  set (A2 := <[ap_pcb q := <[2%nat := 1]> wj]> (<[ap_pcb p := <[2%nat := 0]> wi]> A)) in *.
  assert (exists k, k0 = (7 + k)%nat) as [k ->] by (exists (k0 - 7)%nat; lia).
  apply (wp_switch (set_heap h2 s) n A2 (ap_stk p) vs k (<[2%nat := 0]> wi) (ap_pcb q) (<[2%nat := 1]> wj) (ap_stk q) us m (ap_ctx q));
    cbn [heap set_heap current regs]; rewrite ?Hcur; try done; try (by apply not_eq_sym).
  - unfold A2. by rewrite !lookup_insert_ne.
  - unfold A2. by rewrite lookup_insert_ne, lookup_insert_eq.
  - lia.
  - rewrite length_insert. apply lookup_lt_Some in P3. lia.
  - unfold A2. by rewrite lookup_insert_eq.
  - by rewrite list_lookup_insert_ne, <- Hspj.
  - unfold A2. by rewrite !lookup_insert_ne.
  - intros h3 Hh3. split; [done|]. split; [done|]. eexists. split; [split|split; [done|]]; cbn [heap set_heap set_regs set_current run_queue_head run_queue_tail current].
    + exact Hh3.
    + rewrite Hhd. clear -Hi. destruct ps as [|p0 ps0], i; try done. by injection Hi as ->.
    + rewrite Htl. f_equal. rewrite <- !fmap_last, fmap_ctx; done.
    + rewrite !fmap_ctx; done.
    + exists q. split; [|done]. by rewrite list_lookup_insert_ne.
    + eapply (switched_procs A _ ps i j p q k wi wj); try done.
      * by rewrite lookup_insert_eq.
      * unfold A2. by rewrite !lookup_insert_ne, lookup_insert_eq by (by apply not_eq_sym).
      * intros x X1 X2 X3. unfold A2. by rewrite !lookup_insert_ne by (by apply not_eq_sym).
      * eexists. split; [by rewrite lookup_insert_ne, lookup_insert_eq|]. apply saved_frame; [done|lia].
    + intros x X1 X2 X3. unfold A2. by rewrite !lookup_insert_ne by (by apply not_eq_sym).
Qed.


(** With one runnable task, or none, a yield comes straight back. *)
Lemma schedule_alone (s : sch) n A ps cur :
  sched_rep s n A ps cur -> (length ps <= 1)%nat -> (cur = None -> ps = []) -> schedule schedule_ra s = Ret false s.
Proof.
  intros Hs Hlen Hnone. pose proof Hs as [Hh Hhd _ _ Hcur Hps]. unfold schedule. rewrite bind_get.
  destruct ps as [|p [|]]; [by rewrite Hhd| |simpl in Hlen; lia]. cbn in Hhd.
  pose proof (pcb_nonzero _ _ _ _ _ 0 p Hs eq_refl) as Hp0. rewrite Hhd, (proj2 (Z.eqb_neq _ _) Hp0).
  destruct cur as [i|]; [|by specialize (Hnone eq_refl)]. destruct Hcur as (p' & Hp' & ->).
  destruct i as [|i]; [|done]. injection Hp' as ->. rewrite (proj2 (Z.eqb_neq _ _) Hp0). cbn [negb].
  destruct (Hps 0%nat p' eq_refl) as (ws & sp & next & Hws & Hn & (_ & _ & _ & P3) & _). injection Hn as <-.
  rewrite (bind_Ret _ _ s _ _ (ld_eq s n A _ ws 3 _ (ap_pcb p' + off_next) Hh Hws P3 eq_refl)).
  rewrite (proj2 (Z.eqb_neq _ _) Hp0), Z.eqb_refl. done.
Qed.

(** * The first dispatch *)
Lemma schedule_first (s : sch) n A p ps :
  sched_rep s n A (p :: ps) None ->
  wp (schedule schedule_ra s) (fun b s' => b = true /\ regs s' = ap_ctx p /\ exists A', sched_rep s' n A' (p :: ps) (Some 0%nat) /\
    forall x, x <> ap_pcb p -> A' !! x = A !! x).
Proof.
  intros Hs. pose proof Hs as [Hh Hhd Htl Hnd Hcur Hps]. cbn in Hcur, Hhd.
  pose proof (pcb_nonzero _ _ _ _ _ 0 p Hs eq_refl) as Hp0.
  destruct (Hps 0%nat p eq_refl) as (ws & sp & next & Hws & Hn & Hpcb & Hst & Hfr).
  specialize (Hfr ltac:(done)) as (vs & k & Hvs & Hf & Hsp). pose proof Hpcb as (P0 & P1 & P2 & P3).
  pose proof (nodup_pcb_stk (p :: ps) 0 0 p p Hnd eq_refl eq_refl) as Hne.
  unfold schedule. rewrite bind_get, Hhd, Hcur, (proj2 (Z.eqb_neq _ _) Hp0). cbn [negb Z.eqb].
  rewrite (bind_Ret _ _ s (ap_pcb p) s eq_refl), (proj2 (Z.eqb_neq _ _) Hp0). cbn [andb when].
  rewrite (bind_Ret _ _ s tt s eq_refl). apply wp_bind.
  eapply (wp_st_int _ n A _ ws 2); [done|done|exact P2|simpl; lia|done|]. intros h1 Hh1.
  change (u32 (state_code PROC_RUNNING)) with 1 in Hh1.
  unfold push, switch_to. apply wp_bind. rewrite bind_get. cbn [current set_heap]. rewrite Hcur. cbn [Z.eqb].
  apply wp_bind. cbn [wp modify ret]. apply wp_bind. rewrite bind_get. cbn [current set_regs set_heap]. rewrite Hcur. cbn [Z.eqb negb when].
  apply wp_bind. cbn [wp ret]. eapply (wp_load _ n _ (ap_pcb p) (<[2%nat := 1]> ws) (ap_stk p) vs k (ap_ctx p)).
  - exact Hh1.
  - by rewrite lookup_insert_eq.
  - rewrite list_lookup_insert_ne by lia. by rewrite P1, Hsp.
  - by rewrite lookup_insert_ne.
  - done.
  - cbn [wp]. split; [done|]. split; [done|]. eexists. split; [split|]; cbn [heap set_heap set_regs set_current run_queue_head run_queue_tail current]; try done.
    + by exists p.
    + intros i x Hx. destruct (decide (i = 0%nat)) as [->|Hi].
      * injection Hx as <-. eexists _, _, next. split; [by rewrite lookup_insert_eq|]. split; [done|].
        split; [|split; [by rewrite lookup_insert_ne|done]]. unfold state_of. rewrite decide_True by done. exact (pcb_set _ _ _ _ _ 2 1 Hpcb).
      * destruct (Hps i x Hx) as (wx & sx & nx & Hwx & Hnx & Hpx & Hsx & Hfx). exists wx, sx, nx.
        pose proof (nodup_pcb (p :: ps) 0 i p x Hnd eq_refl Hx ltac:(done)).
        pose proof (nodup_pcb_stk (p :: ps) 0 i p x Hnd eq_refl Hx).
        split; [by rewrite lookup_insert_ne|]. split; [done|]. unfold state_of in *.
        rewrite decide_False in * by congruence. split; [done|]. split; [by rewrite lookup_insert_ne|]. intros _.
        specialize (Hfx ltac:(done)) as (us & m & Hus & ? & ?). exists us, m. by rewrite lookup_insert_ne.
    + intros x Hx. by rewrite lookup_insert_ne.
Qed.

(** * Creating a task *)
Lemma wp_memset (s : sch) n A p ws len (Q : unit -> sch -> Prop) :
  kh_rep (heap s) n A -> A !! p = Some ws -> 0 <= len -> len <= 8 * Z.of_nat (length ws) ->
  (forall h' ws', kh_rep h' n (<[p := ws']> A) -> length ws' = length ws ->
     (forall k : nat, Z.of_nat k < len / 8 -> ws' !! k = Some 0) -> Q tt (set_heap h' s)) ->
  wp (memset_words p len s) Q.
Proof.
  intros Hr Hp H0 Hlen HQ. unfold memset_words. eapply wp_mono.
  - apply (wp_for_range (fun j s' => exists h' ws', s' = set_heap h' s /\ kh_rep h' n (<[p := ws']> A) /\ length ws' = length ws /\
      forall k : nat, Z.of_nat k < j -> ws' !! k = Some 0)).
    + dm_lia.
    + exists (heap s), ws. rewrite set_heap_same, insert_id by done. split_and!; try done. lia.
    + intros j s' Hj (h & ws' & -> & Hr' & Hl & Hz).
      eapply (wp_st (set_heap h s) n _ p ws' (Z.to_nat j)); [exact Hr'|by rewrite lookup_insert_eq|dm_lia|lia|].
      intros h2 Hr2. rewrite insert_insert_eq in Hr2. eexists h2, _. split; [done|]. split; [exact Hr2|].
      rewrite length_insert. split; [done|]. intros k Hk. destruct (decide (k = Z.to_nat j)) as [->|].
      * rewrite list_lookup_insert_eq; [done|]. dm_lia.
      * rewrite list_lookup_insert_ne by done. apply Hz. lia.
  - intros [] s' (h & ws' & -> & Hr' & Hl & Hz). by eapply HQ.
Qed.

Lemma align_down_16 x : 0 <= x < 2 ^ 64 -> x mod 16 = 0 -> Z.land x (u64 (Z.lnot (STACK_ALIGN - 1))) = x.
Proof.
  intros Hx Hm. change (Z.land x (u64 (Z.lnot (STACK_ALIGN - 1)))) with (ALIGN_DOWN x (2 ^ 4)).
  rewrite (ALIGN_DOWN_spec 4 x) by lia. change (2 ^ 4) with 16. lia.
Qed.

(** The context a new task starts in. *)
Definition entry_ctx (stk entry : Z) : cpu := Cpu (stk + 16376) 0 0 0 0 0 0 entry.

(** The frame built on a cleared stack. *)
Definition entry_frame (ws : list Z) (entry : Z) : list Z :=
  <[2040%nat := 0]> (<[2041%nat := 0]> (<[2042%nat := 0]> (<[2043%nat := 0]> (<[2044%nat := 0]>
    (<[2045%nat := 0]> (<[2046%nat := entry]> (<[2047%nat := task_returned_addr]> ws))))))).

Ltac frame_store n stk Hr j :=
  apply wp_bind; eapply (wp_st _ n _ stk _ j); [exact Hr|by rewrite lookup_insert_eq|rewrite ?length_insert; lia|lia|];
  clear Hr; intros ? Hr; rewrite insert_insert_eq in Hr.

Lemma wp_build_frame (s : sch) n A stk ws entry (Q : Z -> sch -> Prop) :
  kh_rep (heap s) n A -> A !! stk = Some ws -> (2048 <= length ws)%nat ->
  (forall h', kh_rep h' n (<[stk := entry_frame ws entry]> A) -> Q (stk + 8 * 2040) (set_heap h' s)) ->
  wp (build_frame task_returned_addr stk entry s) Q.
Proof.
  intros Hr Hp Hl HQ. destruct (kh_layout _ _ _ _ _ Hr Hp) as (Ha & ? & ?). unfold build_frame, STACK_SIZE.
  rewrite (wrap_small 64 (stk + 16 * 1024)) by lia. rewrite align_down_16 by (try lia; dm_lia).
  cbv zeta.
  assert (Hw : forall k, 0 < k <= 2048 -> u64 (stk + 8 * k - 8) = stk + 8 * (k - 1)) by (intros; rewrite wrap_small; lia).
  replace (stk + 16 * 1024) with (stk + 8 * 2048) by lia.
  rewrite !Hw by lia. apply wp_bind. eapply (wp_st _ n A stk ws 2047); [done|done|lia|lia|]. clear Hr. intros h1 Hr.
  frame_store n stk Hr 2046%nat. frame_store n stk Hr 2045%nat. frame_store n stk Hr 2044%nat. frame_store n stk Hr 2043%nat.
  frame_store n stk Hr 2042%nat. frame_store n stk Hr 2041%nat. frame_store n stk Hr 2040%nat.
  exact (HQ _ Hr).
Qed.


(** A store to the first of two fresh payloads. *)
Lemma wp_st_under (s : sch) n A p stk w v (i : nat) x a (Q : unit -> sch -> Prop) :
  kh_rep (heap s) n (<[stk := v]> (<[p := w]> A)) -> p <> stk -> (i < length w)%nat -> a = p + 8 * Z.of_nat i ->
  (forall h', kh_rep h' n (<[stk := v]> (<[p := <[i := x]> w]> A)) -> Q tt (set_heap h' s)) -> wp (st a x s) Q.
Proof.
  intros Hr Hne Hi Ha HQ. eapply (wp_st s n _ p w i); [exact Hr|by rewrite lookup_insert_ne, lookup_insert_eq|done|done|].
  intros h' Hr'. apply HQ. by rewrite insert_insert_ne, insert_insert_eq in Hr'.
Qed.

Lemma wp_st_int_under (s : sch) n A p stk w v (i : nat) x a (Q : unit -> sch -> Prop) :
  kh_rep (heap s) n (<[stk := v]> (<[p := w]> A)) -> p <> stk -> w !! i = Some 0 -> a = p + 8 * Z.of_nat i ->
  (forall h', kh_rep h' n (<[stk := v]> (<[p := <[i := u32 x]> w]> A)) -> Q tt (set_heap h' s)) -> wp (st_int a x s) Q.
Proof.
  intros Hr Hne Hi Ha HQ. eapply (wp_st_int s n _ p w i 0); [exact Hr|by rewrite lookup_insert_ne, lookup_insert_eq|done|lia|done|].
  intros h' Hr'. apply HQ. by rewrite insert_insert_ne, insert_insert_eq in Hr'.
Qed.

(** Everything of [create_process] up to the insertion in the run queue: two
    fresh payloads, the control block and the stack of the new task. *)
Lemma wp_create_parts (s : sch) n A entry (k : Z -> K sch Z) (Q : Z -> sch -> Prop) :
  kh_rep (heap s) n A -> entry <> 0 -> 0 <= kh_cost STACK_SIZE -> kh_cost sizeof_process_t + kh_cost STACK_SIZE <= n ->
  (forall h' p stk w v vs, kh_rep h' (n - kh_cost sizeof_process_t - kh_cost STACK_SIZE) (<[stk := v]> (<[p := w]> A)) ->
     A !! p = None -> A !! stk = None -> p <> stk -> p <> 0 -> stk mod 16 = 0 -> (2048 <= length vs)%nat ->
     v = entry_frame vs entry ->
     pcb_words w (u32 (next_pid s)) (stk + 8 * 2040) (state_code PROC_READY) 0 ->
     wp (k p (set_heap h' (set_next_pid (i32 (next_pid s + 1)) s))) Q) ->
  wp ((let! p := in_heap (kh_malloc sizeof_process_t) in
       if p =? 0 then panic "scheduler: failed to allocate process structure" else
       do! memset_words p sizeof_process_t in
       let! stack := in_heap (kh_malloc STACK_SIZE) in
       if stack =? 0 then panic "scheduler: failed to allocate task stack" else
       do! memset_words stack STACK_SIZE in
       let! s := get in
       do! st_int (p + off_pid) (next_pid s) in
       do! modify (set_next_pid (i32 (next_pid s + 1))) in
       do! st_int (p + off_state) (state_code PROC_READY) in
       let! sp := build_frame task_returned_addr stack entry in
       do! st (p + off_rsp) sp in k p) s) Q.
Proof.
  intros Hr He Hc0 Hc HQ.
  destruct (kh_malloc_law _ _ _ sizeof_process_t Hr ltac:(unfold sizeof_process_t; lia) ltac:(lia)) as (p & w0 & h1 & E1 & Hr1 & Hp & Hl0).
  destruct (kh_layout _ _ _ _ _ Hr1 (lookup_insert_eq _ _ _)) as (_ & Hp0 & _).
  apply wp_bind. unfold in_heap, zoom. rewrite E1. cbn [wp]. rewrite (proj2 (Z.eqb_neq p 0)) by lia.
  apply wp_bind. eapply (wp_memset _ _ _ p w0 sizeof_process_t); [exact Hr1|apply lookup_insert_eq|unfold sizeof_process_t; lia|done|].
  intros h2 w1 Hr2 Hl1 Hz1. rewrite insert_insert_eq in Hr2.
  destruct (kh_malloc_law _ _ _ STACK_SIZE Hr2 ltac:(unfold STACK_SIZE; lia) ltac:(lia)) as (stk & v0 & h3 & E3 & Hr3 & Hs & Hlv).
  destruct (kh_layout _ _ _ _ _ Hr3 (lookup_insert_eq _ _ _)) as (Hal & Hs0 & _).
  assert (Hne : p <> stk) by (intros <-; by rewrite lookup_insert_eq in Hs). rewrite lookup_insert_ne in Hs by done.
  apply wp_bind. unfold in_heap, zoom. cbn [heap set_heap]. rewrite E3. cbn [wp]. rewrite (proj2 (Z.eqb_neq stk 0)) by lia.
  apply wp_bind. eapply (wp_memset _ _ _ stk v0 STACK_SIZE); [exact Hr3|apply lookup_insert_eq|unfold STACK_SIZE; lia|done|].
  intros h4 vs Hr4 Hl4 Hz4. rewrite insert_insert_eq in Hr4. rewrite bind_get. cbn [next_pid set_heap].
  change (sizeof_process_t / 8) with 4 in Hz1. unfold sizeof_process_t in Hl0. unfold STACK_SIZE in Hlv.
  apply wp_bind. eapply (wp_st_int_under _ _ A p stk w1 vs 0); [exact Hr4|done|apply Hz1; lia|unfold off_pid; lia|].
  intros h5 Hr5. apply wp_bind. cbn [wp modify].
  apply wp_bind. eapply (wp_st_int_under _ _ A p stk _ vs 2); [exact Hr5|done|rewrite list_lookup_insert_ne by lia; apply Hz1; lia|unfold off_state; lia|].
  intros h6 Hr6. apply wp_bind. eapply (wp_build_frame _ _ _ stk vs entry); [exact Hr6|apply lookup_insert_eq|lia|].
  intros h7 Hr7. rewrite insert_insert_eq in Hr7. apply wp_bind.
  eapply (wp_st_under _ _ A p stk _ _ 1); [exact Hr7|done|rewrite !length_insert; lia|unfold off_rsp; lia|]. intros h8 Hr8.
  apply (HQ h8 p stk _ _ vs Hr8); try done; [lia|lia|].
  refine (pcb_set _ _ _ _ _ 1 _ (pcb_set _ _ _ _ _ 2 _ (pcb_set _ _ _ _ _ 0 _ (_ : pcb_words w1 0 0 0 0)))).
  unfold pcb_words. split_and!; apply Hz1; lia.
Qed.

Lemma entry_frame_words stk vs entry :
  (2048 <= length vs)%nat -> frame_words stk (entry_frame vs entry) 2040 (entry_ctx stk entry) /\
  entry_frame vs entry !! 2047%nat = Some task_returned_addr.
Proof.
  intros Hl. unfold frame_words, entry_frame, entry_ctx. cbn [rsp rbp rbx r12 r13 r14 r15 rip].
  split; [split; [lia|]|]; repeat split;
  repeat (first [ rewrite list_lookup_insert_eq by (rewrite ?length_insert; lia); done
                | rewrite list_lookup_insert_ne by lia ]).
Qed.


(** ** The run queue grows at its tail *)
Lemma succ_of_snoc ps new i next :
  succ_of ps i = Some next -> (i < length ps)%nat ->
  succ_of (ps ++ [new]) i = Some (if decide (S i = length ps) then new else next).
Proof.
  intros Hn Hi. unfold succ_of in *. rewrite length_app. cbn [length]. case_decide as He.
  - rewrite Nat.mod_small by lia. replace (i + 1)%nat with (length ps) by lia.
    rewrite lookup_app_r by lia. by rewrite Nat.sub_diag.
  - rewrite Nat.mod_small in Hn by lia. rewrite Nat.mod_small by lia. by apply lookup_app_l_Some.
Qed.

Lemma succ_of_last ps new : succ_of (ps ++ [new]) (length ps) = Some (default new (head ps)).
Proof.
  unfold succ_of. rewrite length_app. cbn [length]. rewrite Nat.Div0.mod_same. by destruct ps.
Qed.

(** Old tasks of a queue that grew by [new]: only the last one's [next] moved. *)
Lemma grown_procs A A' ps cur new i p :
  (forall i p, ps !! i = Some p -> proc_rep A ps cur i p) -> ps !! i = Some p ->
  (forall ws, A !! ap_pcb p = Some ws -> A' !! ap_pcb p = Some (if decide (S i = length ps) then <[3%nat := ap_pcb new]> ws else ws)) ->
  A' !! ap_stk p = A !! ap_stk p ->
  proc_rep A' (ps ++ [new]) cur i p.
Proof.
  intros Hps Hi Hpcb Hstk. destruct (Hps i p Hi) as (ws & sp & next & Hws & Hn & Hw & Hs & Hf).
  eexists _, sp, _. split; [by apply Hpcb|]. split; [apply succ_of_snoc; [done|by eapply lookup_lt_Some]|].
  rewrite Hstk. split; [|done]. case_decide; [|done]. exact (pcb_set _ _ _ _ _ 3 _ Hw).
Qed.

Lemma proc_in_dom A ps cur i p : (forall i p, ps !! i = Some p -> proc_rep A ps cur i p) -> ps !! i = Some p ->
  is_Some (A !! ap_pcb p) /\ is_Some (A !! ap_stk p).
Proof. intros Hps Hi. destruct (Hps i p Hi) as (ws & _ & _ & ? & _ & _ & ? & _). eauto. Qed.

Lemma grown_nodup A ps cur new :
  (forall i p, ps !! i = Some p -> proc_rep A ps cur i p) -> NoDup ((ap_pcb <$> ps) ++ (ap_stk <$> ps)) ->
  A !! ap_pcb new = None -> A !! ap_stk new = None -> ap_pcb new <> ap_stk new ->
  NoDup ((ap_pcb <$> ps ++ [new]) ++ (ap_stk <$> ps ++ [new])).
Proof.
  intros Hps Hnd Hp Hs Hne.
  assert (Hout : forall x, A !! x = None -> x ∉ (ap_pcb <$> ps) ++ (ap_stk <$> ps)).
  { intros x Hx [Hin|Hin]%elem_of_app; apply list_elem_of_fmap in Hin as (y & -> & Hy);
      apply list_elem_of_lookup in Hy as [i Hy]; destruct (proc_in_dom _ _ _ _ _ Hps Hy) as [[? ?] [? ?]]; congruence. }
  assert (Hperm : (ap_pcb <$> ps ++ [new]) ++ (ap_stk <$> ps ++ [new]) ≡ₚ
    ap_pcb new :: ap_stk new :: (ap_pcb <$> ps) ++ (ap_stk <$> ps)).
  { rewrite !fmap_app. cbn [fmap list_fmap]. solve_Permutation. }
  rewrite Hperm, !NoDup_cons. split_and!; [|by apply Hout|done].
  rewrite elem_of_cons. intros [?|?]; [done|]. by apply (Hout _ Hp).
Qed.

(** The payloads of a heap that grew by the task [new]: its control block and its
    stack are fresh, and but for the control blocks of the queue [ps] all others as before. *)
Definition only_grew (A A' : gmap Z (list Z)) (ps : list aproc) (new : aproc) : Prop :=
  A !! ap_pcb new = None /\ A !! ap_stk new = None /\ dom A' = {[ap_pcb new; ap_stk new]} ∪ dom A /\ forall x us, A !! x = Some us -> x ∉ ap_pcb <$> ps -> A' !! x = Some us.

(** What is left of the heap's view of a task list when it grows. *)
Lemma wp_enqueue (s : sch) n A ps cur new w vs entry :
  kh_rep (heap s) n (<[ap_stk new := entry_frame vs entry]> (<[ap_pcb new := w]> A)) ->
  run_queue_head s = default 0 (ap_pcb <$> head ps) -> run_queue_tail s = default 0 (ap_pcb <$> last ps) ->
  NoDup ((ap_pcb <$> ps) ++ (ap_stk <$> ps)) ->
  match cur with None => current s = 0 | Some i => exists p, ps !! i = Some p /\ current s = ap_pcb p end ->
  (forall i p, ps !! i = Some p -> proc_rep A ps cur i p) -> (forall p, head ps = Some p -> ap_pcb p <> 0) ->
  A !! ap_pcb new = None -> A !! ap_stk new = None -> ap_pcb new <> ap_stk new -> (2048 <= length vs)%nat ->
  pcb_words w (u32 (ap_pid new)) (ap_stk new + 8 * 2040) (state_code PROC_READY) 0 ->
  ap_ctx new = entry_ctx (ap_stk new) entry ->
  wp (enqueue (ap_pcb new) s) (fun _ s' => regs s' = regs s /\ next_pid s' = next_pid s /\ exists A',
    sched_rep s' n A' (ps ++ [new]) cur /\ A' !! ap_stk new = Some (entry_frame vs entry) /\ only_grew A A' ps new).
Proof.
  intros Hr Hhd Htl Hnd Hcur Hps Hnz Hp Hs Hne Hvs Hw Hctx.
  pose proof (grown_nodup A ps cur new Hps Hnd Hp Hs Hne) as Hnd'.
  assert (Hcurlt : cur <> Some (length ps)).
  { intros ->. destruct Hcur as (p & Hlt & _). apply lookup_lt_Some in Hlt. lia. }
  destruct (entry_frame_words (ap_stk new) vs entry Hvs) as [Hfr _].
  assert (Hnew : forall A' next, succ_of (ps ++ [new]) (length ps) = Some next ->
    A' !! ap_pcb new = Some (<[3%nat := ap_pcb next]> w) -> A' !! ap_stk new = Some (entry_frame vs entry) ->
    proc_rep A' (ps ++ [new]) cur (length ps) new).
  { intros A' next Hn H1 H2. eexists _, _, next. split; [exact H1|]. split; [done|]. split.
    - unfold state_of. rewrite decide_False by done. exact (pcb_set _ _ _ _ _ 3 _ Hw).
    - split; [by eexists|]. intros _. eexists _, 2040%nat. split; [exact H2|]. rewrite Hctx. by split. }
  pose proof (pcb_length _ _ _ _ _ Hw) as Hlw. rewrite succ_of_last in Hnew.
  unfold enqueue. rewrite bind_get. destruct ps as [|p0 ps0].
  - cbn in Hhd. rewrite Hhd. cbn [Z.eqb]. apply wp_bind. cbn [wp modify].
    eapply (wp_st_under _ n A (ap_pcb new) (ap_stk new) w _ 3); [exact Hr|done|lia|unfold off_next; lia|].
    intros h' Hr'. split; [done|]. split; [done|].
    exists (<[ap_stk new := entry_frame vs entry]> (<[ap_pcb new := <[3%nat := ap_pcb new]> w]> A)). split; [|split; [by rewrite lookup_insert_eq|]].
    2: { split; [done|]. split; [done|]. split; [rewrite !dom_insert_L; clear; set_solver|]. intros x us Hx _. by rewrite !lookup_insert_ne by congruence. }
    split; cbn [heap set_heap set_queue run_queue_head run_queue_tail current]; try done.
    + destruct cur as [i|]; [|done]. destruct Hcur as (p & Hlt & _). done.
    + intros i p Hi. destruct i as [|i]; [|done]. injection Hi as <-.
      apply (Hnew _ new); [done|by rewrite lookup_insert_ne, lookup_insert_eq|by rewrite lookup_insert_eq].
  - cbn in Hhd. rewrite Hhd, (proj2 (Z.eqb_neq _ _) (Hnz _ eq_refl)).
    apply wp_bind. eapply (wp_st_under _ n A (ap_pcb new) (ap_stk new) w _ 3); [exact Hr|done|lia|unfold off_next; lia|].
    intros h1 Hr1. set (ps := p0 :: ps0) in *.
    destruct (last ps) as [pl|] eqn:El; [|by apply last_None in El]. change (run_queue_tail s = ap_pcb pl) in Htl. rewrite Htl.
    assert (Hlast : ps !! (length ps - 1)%nat = Some pl) by (rewrite Nat.sub_1_r; by rewrite <- last_lookup).
    destruct (Hps _ _ Hlast) as (wl & spl & nl & Hwl & _ & Hpl & _). pose proof (pcb_length _ _ _ _ _ Hpl).
    assert (Hlp : forall x, A !! x = None -> ap_pcb pl <> x) by congruence.
    apply wp_bind. eapply (wp_st _ n _ (ap_pcb pl) wl 3);
      [exact Hr1|by rewrite !lookup_insert_ne by (apply not_eq_sym, Hlp; done)|lia|unfold off_next; lia|].
    intros h2 Hr2. cbn [wp modify]. split; [done|]. split; [done|].
    exists (<[ap_pcb pl := <[3%nat := ap_pcb new]> wl]> (<[ap_stk new := entry_frame vs entry]> (<[ap_pcb new := <[3%nat := ap_pcb p0]> w]> A))).
    split; [|split; [by rewrite lookup_insert_ne, lookup_insert_eq by (by apply Hlp)|]].
    2: { split; [done|]. split; [done|]. split; [rewrite !dom_insert_L; apply elem_of_dom_2 in Hwl; clear - Hwl; set_solver|]. intros x us Hx Hout.
         rewrite (lookup_insert_ne _ (ap_pcb pl)); [by rewrite !lookup_insert_ne by congruence|].
         intros <-. apply Hout, list_elem_of_fmap. exists pl. split; [done|by eapply list_elem_of_lookup_2]. }
    split; cbn [heap set_heap set_queue run_queue_head run_queue_tail current]; try done.
    + by rewrite last_snoc.
    + destruct cur as [i|]; [|done]. destruct Hcur as (p & Hlt & Hc). exists p. split; [by apply lookup_app_l_Some|done].
    + intros i p Hi. apply lookup_snoc_Some in Hi as [[Hi Hip]|[-> <-]].
      * destruct (proc_in_dom _ _ _ _ _ Hps Hip) as [[? Hd1] [? Hd2]].
        apply (grown_procs A _ ps cur new i p Hps Hip).
        -- intros ws Hws. case_decide as He.
           ++ replace (length ps - 1)%nat with i in Hlast by lia. simplify_eq. by rewrite lookup_insert_eq.
           ++ rewrite lookup_insert_ne by (apply (nodup_pcb ps _ i _ _ Hnd Hlast Hip); lia).
              by rewrite !lookup_insert_ne by congruence.
        -- rewrite lookup_insert_ne by exact (nodup_pcb_stk _ _ _ _ _ Hnd Hlast Hip). by rewrite !lookup_insert_ne by congruence.
      * apply (Hnew _ p0); [done|..]; rewrite lookup_insert_ne by (by apply Hlp); [|by rewrite lookup_insert_eq].
        by rewrite lookup_insert_ne, lookup_insert_eq.
Qed.


Lemma create_process_rep (s : sch) n A ps cur entry :
  sched_rep s n A ps cur -> entry <> 0 -> 0 <= kh_cost STACK_SIZE -> kh_cost sizeof_process_t + kh_cost STACK_SIZE <= n ->
  wp (create_process task_returned_addr entry s) (fun p s' => exists stk A' vs,
    sched_rep s' (n - kh_cost sizeof_process_t - kh_cost STACK_SIZE) A'
      (ps ++ [AProc p stk (next_pid s) (entry_ctx stk entry)]) cur /\
    A' !! stk = Some vs /\ vs !! 2047%nat = Some task_returned_addr /\ stk mod 16 = 0 /\
    next_pid s' = i32 (next_pid s + 1) /\ regs s' = regs s /\
    only_grew A A' ps (AProc p stk (next_pid s) (entry_ctx stk entry))).
Proof.
  intros Hs He Hc0 Hc. pose proof Hs as [Hh Hhd Htl Hnd Hcur Hps].
  unfold create_process. rewrite (proj2 (Z.eqb_neq _ _) He).
  apply (wp_create_parts s n A entry (fun p => do! enqueue p in ret p)); try done.
  intros h' p stk w v vs Hr Hp Hstk Hne Hp0 Hal Hl -> Hw.
  apply wp_bind. set (new := AProc p stk (next_pid s) (entry_ctx stk entry)).
  eapply wp_mono; [eapply (wp_enqueue _ (n - kh_cost sizeof_process_t - kh_cost STACK_SIZE) A ps cur new w vs entry); try done|].
  - intros q Hq. destruct ps as [|p0 ps0]; [done|]. injection Hq as ->. by eapply (pcb_nonzero s n A (q :: ps0) cur 0).
  - intros [] s' (Hregs & Hpid & A' & Hs' & HA' & Hg). cbn [wp ret]. exists stk, A'. eexists. split; [exact Hs'|].
    split; [exact HA'|]. split; [by apply (entry_frame_words stk)|]. done.
Qed.

(** Only the payloads of its tasks matter to the scheduler. *)
Lemma sched_rep_other (s : sch) n A ps cur h' n' A' :
  sched_rep s n A ps cur -> kh_rep h' n' A' -> (forall x, x ∈ (ap_pcb <$> ps) ++ (ap_stk <$> ps) -> A' !! x = A !! x) ->
  sched_rep (set_heap h' s) n' A' ps cur.
Proof.
  intros [_ Hhd Htl Hnd Hcur Hps] Hr Hk. split; try done. intros i p Hi.
  destruct (Hps i p Hi) as (ws & sp & next & Hws & Hn & Hw & Hs & Hf). exists ws, sp, next.
  assert (Hpcb : A' !! ap_pcb p = A !! ap_pcb p) by (apply Hk, elem_of_app; left; apply list_elem_of_fmap; exists p; split; [done|by eapply list_elem_of_lookup_2]).
  assert (Hstk : A' !! ap_stk p = A !! ap_stk p) by (apply Hk, elem_of_app; right; apply list_elem_of_fmap; exists p; split; [done|by eapply list_elem_of_lookup_2]).
  by rewrite Hpcb, Hstk.
Qed.

Lemma task_payloads (s : sch) n A ps cur x : sched_rep s n A ps cur -> x ∈ (ap_pcb <$> ps) ++ (ap_stk <$> ps) -> is_Some (A !! x).
Proof.
  intros Hs [Hx|Hx]%elem_of_app; apply list_elem_of_fmap in Hx as (p & -> & Hp); apply list_elem_of_lookup in Hp as [i Hi];
    by destruct (proc_in_dom _ _ _ _ _ (sr_procs _ _ _ _ _ Hs) Hi).
Qed.

(** * Executions *)

(** The scheduler's data is intact and the running task [i] could yield. *)
Definition ready (s : sch) (ps : list aproc) (i : nat) : Prop :=
  exists n A p, sched_rep s n A ps (Some i) /\ ps !! i = Some p /\ stack_ready A p (regs s).

(** Executions with a number of yields: the running task may do anything that
    keeps the scheduler's data intact; a yield is a call of [schedule]. *)
Inductive execution (s0 : sch) (ps0 : list aproc) (i0 : nat) : nat -> sch -> list aproc -> nat -> Prop :=
| exec_start : execution s0 ps0 i0 0 s0 ps0 i0
| exec_task k s ps i s' :
    execution s0 ps0 i0 k s ps i -> ready s' ps i -> execution s0 ps0 i0 k s' ps i
| exec_yield k s ps i s' p :
    execution s0 ps0 i0 k s ps i -> ready s ps i -> ps !! i = Some p -> schedule schedule_ra s = Ret true s' ->
    execution s0 ps0 i0 (S k) s' (<[i := set_ctx (set_rip schedule_ra (regs s)) p]> ps) ((i + 1) mod length ps).

Lemma succ_of_is_Some ps i : (0 < length ps)%nat -> is_Some (succ_of ps i).
Proof. intros H0. apply lookup_lt_is_Some_2. apply Nat.mod_upper_bound. lia. Qed.

Lemma execution_position s0 ps0 i0 k s ps i n0 A0 :
  sched_rep s0 n0 A0 ps0 (Some i0) -> (2 <= length ps0)%nat -> execution s0 ps0 i0 k s ps i ->
  ap_pcb <$> ps = ap_pcb <$> ps0 /\ i = ((i0 + k) mod length ps0)%nat /\ exists n A, sched_rep s n A ps (Some i).
Proof.
  intros Hs0 Hlen. assert (Hi0 : (i0 < length ps0)%nat).
  { destruct (sr_cur _ _ _ _ _ Hs0) as (p & Hp & _). by eapply lookup_lt_Some. }
  induction 1 as [|k s ps i s' _ IH (n & A & p & Hr & _)|k s ps i s' p _ IH (n & A & p' & Hr & Hp' & Hst) Hp Hsch].
  - split; [done|]. split; [rewrite Nat.add_0_r, Nat.mod_small; done|]. by exists n0, A0.
  - destruct IH as (? & ? & _). split; [done|]. split; [done|]. by exists n, A.
  - destruct IH as (Hpcb & -> & _). assert (p' = p) as -> by congruence.
    assert (Hl : length ps = length ps0) by (apply (f_equal length) in Hpcb; by rewrite !length_fmap in Hpcb).
    destruct (succ_of_is_Some ps ((i0 + k) mod length ps0)%nat) as [q Hq]; [lia|].
    pose proof (schedule_switch _ _ _ _ _ _ _ Hr Hp ltac:(lia) Hq Hst) as Hw. rewrite Hsch in Hw.
    destruct Hw as (_ & _ & A' & Hr' & _). split; [by rewrite fmap_ctx|]. split; [|by exists n, A'].
    rewrite Hl, Nat.Div0.add_mod_idemp_l. f_equal. lia.
Qed.
End spec.

(** * Properties *)
Section properties.
Context {H : Type} {KH : KernelHeap H} {KL : KernelHeapLaws H}.
Variables (task_returned_addr schedule_ra : Z).

(** C23. [create_process] on a well-formed scheduler, with the memory for it:
    appends one ready task to the circular run queue, all other tasks as they
    were, with a fresh pid, a 16-byte aligned stack of its own, and a saved
    context that starts the entry point with cleared callee-saved registers, a
    stack pointer that is 8 modulo 16 as the SysV ABI asks, and [task_returned]
    as the return address on top of the stack. *)
Theorem create_process_correct (s : sched H) n A ps cur entry :
  sched_rep s n A ps cur -> entry <> 0 -> 0 <= kh_cost STACK_SIZE -> kh_cost sizeof_process_t + kh_cost STACK_SIZE <= n ->
  exists p stk s' A' vs, create_process task_returned_addr entry s = Ret p s' /\
    sched_rep s' (n - kh_cost sizeof_process_t - kh_cost STACK_SIZE) A'
      (ps ++ [AProc p stk (next_pid s) (entry_ctx stk entry)]) cur /\
    rip (entry_ctx stk entry) = entry /\ rsp (entry_ctx stk entry) mod 16 = 8 /\
    rsp (entry_ctx stk entry) = stk + 8 * 2047 /\ A' !! stk = Some vs /\ vs !! 2047%nat = Some task_returned_addr /\
    next_pid s' = i32 (next_pid s + 1) /\ regs s' = regs s.
Proof.
  intros Hs He Hc0 Hc.
  destruct (proj1 (wp_ret_inv _ _) (create_process_rep task_returned_addr s n A ps cur entry Hs He Hc0 Hc))
    as (p & s' & E & stk & A' & vs & Hs' & H1 & H2 & H3 & H4 & H5 & _).
  exists p, stk, s', A', vs. split_and!; try done; cbn [rsp entry_ctx]; dm_lia.
Qed.

(** C9. A yield is one step of the round-robin machine: with at least two tasks
    and the running task on its own stack, [schedule] returns to no one but the
    next task of the queue, with exactly the registers, stack pointer and
    instruction pointer that task had saved; the yielding task's own registers
    are saved so that it will continue behind its call of [switch_to]; no other
    memory changes. *)
Theorem schedule_refines (s : sched H) n A ps (i : nat) p q :
  sched_rep s n A ps (Some i) -> ps !! i = Some p -> (2 <= length ps)%nat -> succ_of ps i = Some q ->
  stack_ready A p (regs s) ->
  exists s' A', schedule schedule_ra s = Ret true s' /\ current s' = ap_pcb q /\ regs s' = ap_ctx q /\
    sched_rep s' n A' (<[i := set_ctx (set_rip schedule_ra (regs s)) p]> ps) (Some ((i + 1) mod length ps)%nat) /\
    forall x, x <> ap_pcb p -> x <> ap_pcb q -> x <> ap_stk p -> A' !! x = A !! x.
Proof.
  intros Hs Hi Hlen Hq Hst.
  destruct (proj1 (wp_ret_inv _ _) (schedule_switch schedule_ra s n A ps i p q Hs Hi Hlen Hq Hst))
    as (b & s' & E & -> & Hregs & A' & Hs' & _ & Hoth).
  exists s', A'. split_and!; try done. destruct (sr_cur _ _ _ _ _ Hs') as (q' & Hq' & ->).
  destruct (decide (i = (i + 1) mod length ps)%nat) as [He|Hne].
  - rewrite <- He in Hq'. rewrite list_lookup_insert_eq in Hq' by (by eapply lookup_lt_Some). injection Hq' as <-.
    unfold succ_of in Hq. rewrite <- He in Hq. simplify_eq. done.
  - rewrite list_lookup_insert_ne in Hq' by done. unfold succ_of in Hq. by simplify_eq.
Qed.

(** C24. No task starves: in every execution, whatever the tasks do between their
    yields, task [j] of [n] is the current one after some [k < n] yields. *)
Theorem round_robin_liveness (s0 : sched H) n A ps0 (i0 : nat) :
  sched_rep s0 n A ps0 (Some i0) -> (2 <= length ps0)%nat ->
  forall j p, ps0 !! j = Some p ->
  exists k, (k < length ps0)%nat /\
    forall s ps i, execution schedule_ra s0 ps0 i0 k s ps i -> i = j /\ current s = ap_pcb p.
Proof.
  intros Hs Hlen j p Hj. pose proof (lookup_lt_Some _ _ _ Hj).
  destruct (sr_cur _ _ _ _ _ Hs) as (p0 & Hp0 & _). apply lookup_lt_Some in Hp0.
  exists ((j + length ps0 - i0) mod length ps0)%nat. split; [apply Nat.mod_upper_bound; lia|].
  intros s ps i Hex. destruct (execution_position schedule_ra _ _ _ _ _ _ _ _ _ Hs Hlen Hex) as (Hpcb & -> & n' & A' & Hs').
  assert (Hij : ((i0 + (j + length ps0 - i0) mod length ps0) mod length ps0 = j)%nat).
  { rewrite Nat.Div0.add_mod_idemp_r. replace (i0 + (j + length ps0 - i0))%nat with (j + 1 * length ps0)%nat by lia.
    rewrite Nat.Div0.mod_add. by apply Nat.mod_small. }
  rewrite Hij in *. split; [done|]. destruct (sr_cur _ _ _ _ _ Hs') as (q & Hq & ->).
  pose proof (f_equal (fun l => l !! j) Hpcb) as He. cbn beta in He. rewrite !list_lookup_fmap, Hq, Hj in He. by injection He.
Qed.
End properties.


(** * Witnesses: the scheduler on the kernel heap *)
Section witnesses.
Import KmallocSpec TableBacking.

(** A task that is resumed from its saved frame can yield at once. *)
Lemma frame_ready {H} {KH : KernelHeap H} {KL : KernelHeapLaws H} (A : gmap Z (list Z)) p vs k :
  A !! ap_stk p = Some vs -> frame_words (ap_stk p) vs k (ap_ctx p) -> stack_ready A p (ap_ctx p).
Proof.
  intros Hs (Hsp & _ & _ & _ & _ & _ & _ & Hl). apply lookup_lt_Some in Hl.
  exists vs, (7 + k)%nat. split_and!; [done|done|lia|lia].
Qed.

Definition boot_sched : sched (kheap tb) := Sched 0 0 0 1 false heap0 (Cpu 0 0 0 0 0 0 0 0).

Lemma boot_rep : sched_rep boot_sched 1000 ∅ [] None.
Proof.
  split; try done; [|apply NoDup_nil_2].
  split; [exact heap0_rep|]. split; [vm_compute; discriminate|]. split; [vm_compute; discriminate|exact window_all].
Qed.

Lemma costs : kh_cost (KernelHeapLaws := kmalloc_heap_laws (HL := tb_laws)) sizeof_process_t = 128 /\
  kh_cost (KernelHeapLaws := kmalloc_heap_laws (HL := tb_laws)) STACK_SIZE = 128.
Proof. split; vm_compute; reflexivity. Qed.

Lemma create_process_correct_witness :
  exists p stk s' A', create_process 0x8000 0x9000 boot_sched = Ret p s' /\
    sched_rep s' 744 A' [AProc p stk 1 (entry_ctx stk 0x9000)] None /\ rsp (entry_ctx stk 0x9000) mod 16 = 8.
Proof.
  destruct costs as [C1 C2].
  destruct (create_process_correct 0x8000 boot_sched 1000 ∅ [] None 0x9000 boot_rep ltac:(lia) ltac:(rewrite C2; lia) ltac:(rewrite C1, C2; lia))
    as (p & stk & s' & A' & vs & E & Hs & _ & Hal & _).
  exists p, stk, s', A'. split; [exact E|]. split; [|exact Hal]. rewrite C1, C2 in Hs. exact Hs.
Defined.

(** Two tasks, the first one running. *)
Lemma demo_pair : exists (s : sched (kheap tb)) A p q, sched_rep s 488 A [p; q] (Some 0%nat) /\ stack_ready A p (regs s).
Proof.
  destruct costs as [C1 C2].
  destruct (proj1 (wp_ret_inv _ _) (create_process_rep 0x8000 boot_sched 1000 ∅ [] None 0x9000 boot_rep ltac:(lia) ltac:(rewrite C2; lia) ltac:(rewrite C1, C2; lia)))
    as (p & s1 & _ & stk & A1 & vs & Hs1 & _).
  rewrite C1, C2 in Hs1.
  destruct (proj1 (wp_ret_inv _ _) (create_process_rep 0x8000 s1 _ A1 _ None 0xa000 Hs1 ltac:(lia) ltac:(rewrite C2; lia) ltac:(rewrite C1, C2; lia)))
    as (p2 & s2 & _ & stk2 & A2 & vs2 & Hs2 & _).
  rewrite C1, C2 in Hs2. cbn [app] in Hs2.
  destruct (proj1 (wp_ret_inv _ _) (schedule_first 0x7000 s2 _ A2 _ _ Hs2)) as (b & s3 & _ & _ & Hregs & A3 & Hs3 & Hoth).
  eexists s3, A3, _, _. split; [exact Hs3|]. rewrite Hregs.
  destruct (sr_procs _ _ _ _ _ Hs2 0%nat _ eq_refl) as (ws & sp & next & Hws & _ & _ & _ & Hf).
  destruct (Hf ltac:(done)) as (us & k & Hus & Hfr & _). eapply frame_ready; [|exact Hfr].
  rewrite Hoth; [exact Hus|]. apply not_eq_sym. exact (nodup_pcb_stk _ 0 0 _ _ (sr_nodup _ _ _ _ _ Hs2) eq_refl eq_refl).
Qed.

Lemma schedule_refines_witness :
  exists (s s' : sched (kheap tb)) A A' p q, schedule 0x7000 s = Ret true s' /\ regs s' = ap_ctx q /\
    sched_rep s 488 A [p; q] (Some 0%nat) /\ sched_rep s' 488 A' [set_ctx (set_rip 0x7000 (regs s)) p; q] (Some 1%nat).
Proof.
  destruct demo_pair as (s & A & p & q & Hs & Hst).
  destruct (schedule_refines 0x7000 s 488 A [p; q] 0 p q Hs eq_refl (le_n 2) eq_refl Hst) as (s' & A' & E & _ & Hr & Hs' & _).
  exists s, s', A, A', p, q. split; [exact E|]. split; [exact Hr|]. split; [exact Hs|exact Hs'].
Defined.

Lemma round_robin_liveness_witness :
  exists (s : sched (kheap tb)) A p q, sched_rep s 488 A [p; q] (Some 0%nat) /\
    exists k, (k < 2)%nat /\ forall s' ps i, execution 0x7000 s [p; q] 0 k s' ps i -> i = 1%nat /\ current s' = ap_pcb q.
Proof.
  destruct demo_pair as (s & A & p & q & Hs & Hst). exists s, A, p, q. split; [exact Hs|].
  exact (round_robin_liveness 0x7000 s 488 A [p; q] 0 Hs (le_n 2) 1 q eq_refl).
Defined.
End witnesses.

End SchedSpec.
