(* ===== verification/Putchar.v ===== *)
(** The kernel's character sink, [src/src/putchar.c]: routing of a character to
    the framebuffer terminal, the bootloader terminal and the serial port, and the
    timestamped line buffer in front of the serial port; and the serial printers of
    [src/src/serial.c].

    What a routine writes to a device is an [effect]; the state keeps the
    effects in order.  The time-stamp counter is a parameter that may depend on
    everything that happened before it is read. *)
From Stdlib Require Import Ascii.
From S2P Require Import Prelude CString Printf.

Inductive effect : Type :=
| TermWrite (c : Z)       (* term_write(term_context, &c, 1) *)
| EarlyWrite (c : Z)      (* the bootloader terminal's callback *)
| SerialOut (c : Z).      (* serial_debug(c) *)

Definition LOGBUF_SIZE : Z := 256.
Definition tsc_hz : Z := 2000000000.

Record con : Type := Con {
  kerror_mode : Z;
  bootspace : Z;
  timestamp : Z;           (* k_mode.timestamp *)
  term_context : Z;        (* NULL until the framebuffer terminal exists *)
  voyager_pml4 : Z;        (* paging_pml4_phys() *)
  cr3 : Z;
  logbuf : list Z;
  loglen : Z;
  effects : list effect;   (* newest last *)
}.

Definition set_kerror (v : Z) (s : con) : con :=
  Con v (bootspace s) (timestamp s) (term_context s) (voyager_pml4 s) (cr3 s) (logbuf s) (loglen s) (effects s).
Definition set_log (b : list Z) (n : Z) (s : con) : con :=
  Con (kerror_mode s) (bootspace s) (timestamp s) (term_context s) (voyager_pml4 s) (cr3 s) b n (effects s).
Definition set_effects (l : list effect) (s : con) : con :=
  Con (kerror_mode s) (bootspace s) (timestamp s) (term_context s) (voyager_pml4 s) (cr3 s) (logbuf s) (loglen s) l.

Definition emit_effect (e : effect) : K con unit := modify (fun s => set_effects (effects s ++ [e]) s).
Definition serial_debug (c : Z) : K con unit := emit_effect (SerialOut c).

(** A C string in a local buffer: the characters up to its terminator, then the
    loop [for (p = buf; *p; p++) serial_debug( *p);]. *)
Fixpoint serial_string (l : list Z) : K con unit :=
  match l with
  | [] => fault 0
  | c :: l' => if c =? 0 then ret tt else do! serial_debug c in serial_string l'
  end.

Section putchar.
Variable clock : list effect -> Z.
Definition get_ts : K con Z := gets (fun s => u64 (clock (effects s))).

Definition ticks_to_ms (ticks : Z) : Z := u64 (ticks * 1000) / tsc_hz.

(** [char tsbuf[32]; u64_to_str(v, tsbuf);]: the bytes of the local buffer
    afterwards.  The static [u64_to_str] of [putchar.c] is, statement for
    statement, the one of [int2srt.c]. *)
Definition local_buf : bmem := list_to_map (zip (seqZ 0 32) (replicate 32 0)).
Definition u64_text (v : Z) : option (list Z) :=
  match u64_to_str v 0 local_buf with
  | Ret _ m => Some ((fun i => default 0 (m !! i)) <$> seqZ 0 32)
  | _ => None
  end.
Definition serial_u64 (v : Z) : K con unit :=
  match u64_text v with
  | Some l => serial_string l
  | None => fault 0
  end.

Definition flush_serial_line : K con unit :=
  let! s := get in
  if loglen s =? 0 then ret tt else
  do! modify (fun s => set_log (<[Z.to_nat (loglen s) := 0]> (logbuf s)) (loglen s) s) in
  let! ticks := get_ts in
  let ms := ticks_to_ms ticks in
  do! serial_debug (chr "[") in
  do! serial_u64 ms in
  do! serial_debug (chr "m") in
  do! serial_debug (chr "s") in
  do! serial_debug (chr "]") in
  do! serial_debug (chr " ") in
  let! s := get in
  do! for_range 0 (loglen s) (fun i =>
        match logbuf s !! Z.to_nat i with
        | Some c => serial_debug c
        | None => fault 0
        end) in
  do! serial_debug 10 in
  modify (fun s => set_log (logbuf s) 0 s).

Definition buffer_or_flush (c : Z) : K con unit :=
  let! s := get in
  if (c =? 10) || (loglen s =? LOGBUF_SIZE - 1) then flush_serial_line
  else modify (fun s => set_log (<[Z.to_nat (loglen s) := c]> (logbuf s)) (u64 (loglen s + 1)) s).

(** The two-way branch on [k_mode.timestamp] that every route ends in. *)
Definition log_char (c : Z) : K con unit :=
  let! s := get in
  if timestamp s =? 0 then serial_debug c else buffer_or_flush c.

Definition voyager_page_tables_active : K con bool :=
  gets (fun s => if voyager_pml4 s =? 0 then false
                 else Z.land (cr3 s) (u64 (Z.lnot 0xfff)) =? Z.land (voyager_pml4 s) (u64 (Z.lnot 0xfff))).

(** [printf_(format, args)] with the console as output device. *)
Definition printf_console (putchar : Z -> K con unit) (format : list Z) (va : list va_arg) : K con unit := fun s =>
  match printf_ putchar (fun _ _ _ _ _ _ _ _ => fault 0) (fun _ _ _ _ _ _ _ _ => fault 0) format va (IO ∅ s) with
  | Ret _ i => Ret tt (console i)
  | Panic m i => Panic m (console i)
  | Fault a i => Fault a (console i)
  | Hang i => Hang (console i)
  end.
(** [printf_("%s\n", msg)] *)
Definition printf_line (putchar : Z -> K con unit) (msg : string) : K con unit :=
  printf_console putchar (chars "%s" ++ [10; 0]) [Str (cstr msg)].

(** [_putchar] reports a missing terminal with [printf_], which calls [_putchar]
    again: the fuel bounds the depth of that recursion. *)
Fixpoint _putchar (fuel : nat) (character : Z) : K con unit :=
  match fuel with
  | O => fun s => Hang s
  | S fuel' =>
      let! s := get in
      if kerror_mode s =? 1 then
        do! emit_effect (TermWrite character) in log_char character
      else if kerror_mode s =? 2 then log_char character
      else if bootspace s =? 1 then log_char character
      else if bootspace s =? 2 then
        let! act := voyager_page_tables_active in
        do! when (negb act) (emit_effect (EarlyWrite character)) in
        log_char character
      else if bootspace s =? 3 then
        let! act := voyager_page_tables_active in
        if negb act then emit_effect (EarlyWrite character) else log_char character
      else if negb (term_context s =? 0) then
        do! emit_effect (TermWrite character) in log_char character
      else
        do! log_char character in
        do! printf_line (_putchar fuel') "ERROR: TERMINAL WRITE FAILURE!" in
        printf_line (_putchar fuel') "Defaulting to serial"
  end.

(** ** [serial.c] *)
Definition serial_print (str : list Z) : K con unit :=
  let! ts := get_ts in
  do! serial_debug (chr "[") in
  do! serial_u64 ts in
  do! serial_debug (chr "]") in
  do! serial_debug (chr " ") in
  serial_string str.

Definition serial_print_with_ts (msg : list Z) : K con unit :=
  let! ts := get_ts in
  do! serial_debug (chr "[") in
  do! serial_u64 ts in
  do! serial_debug (chr "]") in
  do! serial_debug (chr " ") in
  do! serial_string msg in
  serial_debug 10.

Definition serial_print_line (str : list Z) : K con unit :=
  let! ts := get_ts in
  do! serial_debug (chr "[") in
  do! serial_u64 ts in
  do! serial_debug (chr "]") in
  do! serial_debug (chr " ") in
  do! serial_string str in
  serial_debug 10.
End putchar.
