(* ===== verification/PutcharSpec.v ===== *)
(** What reaches the serial port: a line sent through [_putchar] comes out with
    its timestamp, a line that is too long loses a character, and a missing
    terminal makes [_putchar] recurse for ever. *)
From Stdlib Require Import Ascii.
From S2P Require Import Prelude Numeral CString CStringSpec Printf PrintfSpec Putchar.

Module PutcharSpec.
Import CStringSpec PrintfSpec.

(** [l] sent to the serial port. *)
Definition serials (l : list Z) (s : con) : con := set_effects (effects s ++ map SerialOut l) s.

Lemma serials_app l k s : serials k (serials l s) = serials (l ++ k) s.
Proof. unfold serials, set_effects. cbn. by rewrite map_app, app_assoc. Qed.

Lemma serials_nil s : serials [] s = s.
Proof. unfold serials, set_effects. rewrite app_nil_r. by destruct s. Qed.

Lemma serial_debug_eq c s : serial_debug c s = Ret tt (serials [c] s).
Proof. done. Qed.

Lemma serial_string_eq l rest s :
  Forall (fun c => c <> 0) l -> serial_string (l ++ 0 :: rest) s = Ret tt (serials l s).
Proof.
  intros Hl. revert s. induction Hl as [|c l Hc _ IH]; intros s; cbn [app serial_string].
  - cbn. by rewrite serials_nil.
  - rewrite (proj2 (Z.eqb_neq c 0) Hc). rewrite (bind_Ret _ _ _ _ _ (serial_debug_eq c s)), IH. by rewrite serials_app.
Qed.

(** The local buffer of [u64_to_str]. *)
Lemma local_mapped n : 0 <= n <= 32 -> mapped local_buf 0 n.
Proof.
  intros Hn x Hx. assert (H : mapped local_buf 0 32); [|apply H; lia].
  apply mapped_seq. apply (bool_decide_unpack _). vm_compute. exact I.
Qed.

Lemma serial_u64_eq v s :
  0 <= v < 2 ^ 64 -> exists ds, numeral 10 ds v /\ serial_u64 v s = Ret tt (serials (map dec (rev ds)) s).
Proof.
  intros Hv. destruct (u64_to_str_written v 0 local_buf Hv ltac:(split; lia) ltac:(apply local_mapped; lia)) as (ds & Hn & Hl & Hw).
  apply wp_ret_inv in Hw as ([] & m' & E & Hw). exists ds. split; [done|]. unfold serial_u64, u64_text. rewrite E.
  set (txt := map dec (rev ds)) in *. assert (Hlt : (length txt <= 20)%nat) by (unfold txt; rewrite length_map, length_rev; lia).
  set (l := (fun i => default 0 (m' !! i)) <$> seqZ 0 32).
  replace l with (txt ++ 0 :: drop (length txt + 1) l).
  { apply serial_string_eq. eapply Forall_impl; [apply dec_chars, Forall_rev, Hn|]. simpl. lia. }
  rewrite <- (take_drop (length txt + 1) l) at 2. rewrite cons_middle, app_assoc. f_equal.
  apply (list_eq_same_length _ _ (length txt + 1)).
  - rewrite length_take. unfold l. rewrite length_fmap, length_seqZ. lia.
  - rewrite length_app. simpl. lia.
  - intros k y x Hk Hy Hx. rewrite lookup_take_lt in Hx by lia. unfold l in Hx.
    rewrite list_lookup_fmap, lookup_seqZ_lt in Hx by lia. cbn in Hx. rewrite Hw, length_app in Hx. cbn [length] in Hx.
    rewrite decide_True in Hx by lia. rewrite Z.sub_0_r, Z.add_0_l, Nat2Z.id in Hx. rewrite Hy in Hx. by injection Hx.
Qed.

(** * The line buffer *)
Definition buffered (s : con) (l : list Z) : Prop :=
  take (length l) (logbuf s) = l /\ loglen s = Z.of_nat (length l) /\ length (logbuf s) = 256%nat /\ (length l <= 255)%nat.

(** Everything but the buffer and the effects. *)
Definition same_mode (s s' : con) : Prop :=
  kerror_mode s' = kerror_mode s /\ bootspace s' = bootspace s /\ timestamp s' = timestamp s /\
  term_context s' = term_context s /\ voyager_pml4 s' = voyager_pml4 s /\ cr3 s' = cr3 s.

Lemma same_mode_refl s : same_mode s s.
Proof. done. Qed.

Lemma same_mode_trans s1 s2 s3 : same_mode s1 s2 -> same_mode s2 s3 -> same_mode s1 s3.
Proof. unfold same_mode. intros (? & ? & ? & ? & ? & ?) (? & ? & ? & ? & ? & ?). split_and!; congruence. Qed.

Lemma ticks_to_ms_range t : 0 <= ticks_to_ms t < 2 ^ 64.
Proof.
  unfold ticks_to_ms, tsc_hz. pose proof (wrap_range 64 (t * 1000)). split; [apply Z.div_pos; lia|].
  apply Z.div_lt_upper_bound; lia.
Qed.

Lemma serial_range s (buf : list Z) l :
  take (length l) buf = l ->
  for_range 0 (Z.of_nat (length l)) (fun i => match buf !! Z.to_nat i with Some c => serial_debug c | None => fault 0 end) s
  = Ret tt (serials l s).
Proof.
  intros Hb.
  assert (H : wp (for_range 0 (Z.of_nat (length l)) (fun i => match buf !! Z.to_nat i with Some c => serial_debug c | None => fault 0 end) s)
    (fun _ s' => s' = serials (take (Z.to_nat (Z.of_nat (length l))) l) s)).
  { apply (wp_for_range (fun j s' => s' = serials (take (Z.to_nat j) l) s)); [lia|by rewrite serials_nil|].
    intros j s' Hj ->. destruct (lookup_lt_is_Some_2 l (Z.to_nat j) ltac:(lia)) as [c Hc].
    assert (Hbc : buf !! Z.to_nat j = Some c) by (rewrite <- (lookup_take_lt buf (length l)) by lia; by rewrite Hb).
    rewrite Hbc, serial_debug_eq. cbn. rewrite serials_app. replace (Z.to_nat (j + 1)) with (S (Z.to_nat j)) by lia.
    by rewrite (take_S_r _ _ _ Hc). }
  apply wp_ret_inv in H as ([] & s' & -> & ->). by rewrite Nat2Z.id, take_ge by lia.
Qed.

Section clocked.
Variable clock : list effect -> Z.

(** The text a flush sends: timestamp prefix, line, newline. *)
Definition stamped (ds l : list Z) : list Z := chars "[" ++ map dec (rev ds) ++ chars "ms] " ++ l ++ [10].

Lemma flush_eq s l :
  buffered s l -> l <> [] ->
  exists ds s', numeral 10 ds (ticks_to_ms (u64 (clock (effects s)))) /\ flush_serial_line clock s = Ret tt s' /\
    effects s' = effects s ++ map SerialOut (stamped ds l) /\ buffered s' [] /\ same_mode s s'.
Proof.
  intros (Hb & Hl & H256 & H255) Hne. destruct (serial_u64_eq (ticks_to_ms (u64 (clock (effects s))))
    (serials [chr "["] (set_log (<[length l := 0]> (logbuf s)) (loglen s) s)) (ticks_to_ms_range _)) as (ds & Hn & Eu).
  assert (Hl0 : (loglen s =? 0) = false) by (apply Z.eqb_neq; destruct l; [done|simpl in Hl; lia]).
  exists ds. eexists. split; [done|]. unfold flush_serial_line. rewrite bind_get, Hl0.
  rewrite bind_modify. rewrite Hl, Nat2Z.id.
  unfold get_ts. rewrite (bind_Ret _ _ _ _ _ (eq_refl : gets _ _ = Ret _ _)). cbn [effects set_log].
  rewrite <- Hl. rewrite (bind_Ret _ _ _ _ _ (serial_debug_eq _ _)). rewrite (bind_Ret _ _ _ _ _ Eu).
  do 4 rewrite (bind_Ret _ _ _ _ _ (serial_debug_eq _ _)). rewrite bind_get. rewrite !serials_app.
  cbn [loglen serials set_effects set_log logbuf]. rewrite Hl.
  assert (Hb0 : take (length l) (<[length l := 0]> (logbuf s)) = l) by (by rewrite take_insert_ge).
  rewrite (bind_Ret _ _ _ _ _ (serial_range _ _ l Hb0)).
  rewrite (bind_Ret _ _ _ _ _ (serial_debug_eq _ _)). split; [reflexivity|]. cbn. split.
  - unfold stamped. rewrite !map_app, <- !app_assoc. cbn. rewrite <- ?app_assoc, ?map_app. done.
  - split; [|done]. unfold buffered. cbn. rewrite length_insert. split_and!; (done || lia).
Qed.

Lemma buffer_eq s l c :
  buffered s l -> c <> 10 -> (length l < 255)%nat ->
  exists s', buffer_or_flush clock c s = Ret tt s' /\ effects s' = effects s /\ buffered s' (l ++ [c]) /\ same_mode s s'.
Proof.
  intros (Hb & Hl & H256 & H255) Hc Hlt. unfold buffer_or_flush. rewrite bind_get.
  rewrite (proj2 (Z.eqb_neq c 10) Hc), (proj2 (Z.eqb_neq _ _)) by (unfold LOGBUF_SIZE; lia). cbn [orb].
  eexists. split; [reflexivity|]. split; [done|]. split; [|done]. unfold buffered. cbn.
  rewrite Hl, Nat2Z.id, length_insert, length_app. cbn [length]. split_and!; [|rewrite wrap_small; lia|done|lia].
  rewrite Nat.add_1_r. rewrite (take_S_r _ _ c) by (apply list_lookup_insert_eq; lia). by rewrite take_insert_ge, Hb by lia.
Qed.

(** A character that finds the buffer full flushes it and is not kept. *)
Lemma full_eq s l c :
  buffered s l -> (length l = 255)%nat -> buffer_or_flush clock c s = flush_serial_line clock s.
Proof.
  intros (_ & Hl & _) H. unfold buffer_or_flush. rewrite bind_get, Hl, H. change (Z.of_nat 255 =? LOGBUF_SIZE - 1) with true.
  by rewrite orb_true_r.
Qed.

(** ** Routing *)
Definition serial_only (s : con) : Prop :=
  kerror_mode s = 2 \/ (kerror_mode s <> 1 /\ kerror_mode s <> 2 /\ bootspace s = 1).

Lemma putchar_serial fuel c s : serial_only s -> _putchar clock (S fuel) c s = log_char clock c s.
Proof.
  intros Hs. cbn [_putchar]. rewrite bind_get.
  destruct Hs as [->|(H1 & H2 & ->)]; [done|].
  by rewrite (proj2 (Z.eqb_neq _ _) H1), (proj2 (Z.eqb_neq _ _) H2).
Qed.

Lemma serial_only_mode s s' : same_mode s s' -> serial_only s -> serial_only s'.
Proof. unfold serial_only. intros (-> & -> & _). done. Qed.

Lemma log_char_buffer c s : timestamp s <> 0 -> log_char clock c s = buffer_or_flush clock c s.
Proof. intros H. unfold log_char. by rewrite bind_get, (proj2 (Z.eqb_neq _ _) H). Qed.

Lemma feed_line line s pre :
  serial_only s -> timestamp s <> 0 -> buffered s pre -> Forall (fun c => c <> 10) line -> (length (pre ++ line) <= 255)%nat ->
  exists s', for_each line (_putchar clock 1) s = Ret tt s' /\ effects s' = effects s /\ buffered s' (pre ++ line) /\ same_mode s s'.
Proof.
  intros Hs Ht Hb Hl. revert s pre Hs Ht Hb. induction Hl as [|c line Hc _ IH]; intros s pre Hs Ht Hb Hlen.
  { exists s. by rewrite app_nil_r. }
  rewrite length_app in Hlen. cbn [length] in Hlen.
  destruct (buffer_eq s pre c Hb Hc ltac:(lia)) as (s1 & E1 & He1 & Hb1 & Hm1).
  destruct (IH s1 (pre ++ [c])) as (s2 & E2 & He2 & Hb2 & Hm2).
  { by eapply serial_only_mode. } { destruct Hm1 as (_ & _ & -> & _). done. } { done. }
  { rewrite !length_app. simpl. lia. }
  exists s2. cbn [for_each]. rewrite (bind_Ret _ _ _ tt s1) by (by rewrite putchar_serial, log_char_buffer).
  split; [exact E2|]. rewrite <- app_assoc in Hb2. split_and!; [congruence|done|by eapply same_mode_trans].
Qed.

(** ** The missing terminal *)
Definition log_ready (s : con) : Prop := timestamp s = 0 \/ exists l, buffered s l.

(** [s'] differs from [s] by serial output and the line buffer. *)
Definition logged (s s' : con) : Prop :=
  same_mode s s' /\ log_ready s' /\ exists out, effects s' = effects s ++ map SerialOut out.

Lemma flush_logged s l : buffered s l -> exists s', flush_serial_line clock s = Ret tt s' /\ logged s s'.
Proof.
  intros Hl. destruct l as [|x l].
  - exists s. unfold flush_serial_line. rewrite bind_get. split; [by destruct Hl as (_ & -> & _)|].
    split; [done|]. split; [right; by exists []|]. exists []. by rewrite app_nil_r.
  - destruct (flush_eq s (x :: l) Hl ltac:(done)) as (ds & s' & _ & E & He & Hb & Hm). exists s'.
    split; [done|]. split; [done|]. split; [right; eauto|eauto].
Qed.

Lemma log_char_ready c s : log_ready s -> exists s', log_char clock c s = Ret tt s' /\ logged s s'.
Proof.
  unfold log_char. rewrite bind_get. intros Hs. destruct (Z.eqb_spec (timestamp s) 0) as [Ht|Ht].
  { eexists. split; [reflexivity|]. split; [done|]. split; [by left|by exists [c]]. }
  destruct Hs as [?|[l Hl]]; [done|].
  destruct (decide (length l = 255)%nat) as [Hfull|Hroom]; [rewrite (full_eq s l) by done; by eapply flush_logged|].
  destruct (Z.eq_dec c 10) as [->|Hc]; [unfold buffer_or_flush; rewrite bind_get; by eapply flush_logged|].
  destruct (buffer_eq s l c Hl Hc ltac:(destruct Hl as (_ & _ & _ & ?); lia)) as (s' & E & He & Hb & Hm).
  exists s'. split; [done|]. split; [done|]. split; [right; eauto|]. exists []. by rewrite app_nil_r.
Qed.

(** ** The framebuffer terminal *)
Definition shown (s : con) : list Z := omap (fun e => match e with TermWrite c => Some c | _ => None end) (effects s).

Definition screen (s : con) : Prop :=
  kerror_mode s = 0 /\ bootspace s = 0 /\ term_context s <> 0 /\ log_ready s.

Lemma logged_shown s s' : logged s s' -> shown s' = shown s.
Proof.
  intros (_ & _ & out & He). unfold shown. rewrite He, omap_app.
  replace (omap _ (map SerialOut out)) with (@nil Z); [by rewrite app_nil_r|]. clear. induction out as [|x out IH]; [done|exact IH].
Qed.

Lemma putchar_screen fuel c s :
  screen s -> exists s', _putchar clock (S fuel) c s = Ret tt s' /\ screen s' /\ shown s' = shown s ++ [c].
Proof.
  intros (Hk & Hb & Ht & Hl). cbn [_putchar]. rewrite bind_get, Hk, Hb, (proj2 (Z.eqb_neq _ _) Ht). cbn [negb Z.eqb].
  set (s0 := set_effects (effects s ++ [TermWrite c]) s). rewrite (bind_Ret _ _ _ tt s0) by done.
  destruct (log_char_ready c s0 Hl) as (s' & E & Hlog). exists s'. split; [done|].
  rewrite (logged_shown _ _ Hlog). destruct Hlog as ((Ek & Eb & _ & Et & _) & Hr & _). split.
  - unfold screen. rewrite Ek, Eb, Et. done.
  - unfold s0, shown. cbn. by rewrite omap_app.
Qed.

Lemma putchars_screen fuel text s :
  screen s -> Forall (fun c => c <> 0) text ->
  exists s', putchars (_putchar clock (S fuel)) text s = Ret tt s' /\ screen s' /\ shown s' = shown s ++ text.
Proof.
  intros Hs Ht. revert s Hs. induction Ht as [|c text Hc _ IH]; intros s Hs; [exists s; by rewrite app_nil_r|].
  destruct (putchar_screen fuel c s Hs) as (s1 & E1 & Hs1 & Hw1). destruct (IH s1 Hs1) as (s2 & E2 & Hs2 & Hw2).
  exists s2. split; [|split; [done|by rewrite Hw2, Hw1, <- app_assoc]].
  unfold putchars. cbn [for_each]. rewrite (proj2 (Z.eqb_neq c 0) Hc). cbn [negb when]. by rewrite (bind_Ret _ _ _ _ _ E1).
Qed.

(** [printf_] is a loop of [_putchar] over the rendered text. *)
Lemma printf_console_eq putchar format va n text s :
  integral va -> rendered format va = Ret n text ->
  printf_console putchar format va s = putchars putchar text s.
Proof.
  intros Hi Hr. unfold printf_console, printf_, _vsnprintf. change (local_buffer =? 0) with false. cbv iota.
  destruct (format_loop_rendered (C := con) (fun _ _ _ _ _ _ _ _ => fault 0) (fun _ _ _ _ _ _ _ _ => fault 0) _ _ _ _ Hi Hr) as [_ Hl].
  unfold bind at 1. rewrite Hl. unfold bind. rewrite emit_char. unfold zoom.
  cbn [console]. by destruct (putchars putchar text s) as [[]| | |].
Qed.

Lemma printf_line_eq putchar msg n text s :
  rendered (chars "%s" ++ [10; 0]) [Str (cstr msg)] = Ret n text ->
  printf_line putchar msg s = putchars putchar text s.
Proof. apply printf_console_eq. repeat constructor. Qed.

Lemma bind_hang {S A B} (c : K S A) (k : A -> K S B) s s' : c s = Hang s' -> bind c k s = Hang s'.
Proof. unfold bind. by intros ->. Qed.

Lemma putchars_hang (putchar : Z -> K con unit) c l s s' :
  c <> 0 -> putchar c s = Hang s' -> putchars putchar (c :: l) s = Hang s'.
Proof. intros Hc E. apply bind_hang. by rewrite (proj2 (Z.eqb_neq c 0) Hc). Qed.

Definition stuck (s : con) : Prop :=
  term_context s = 0 /\ kerror_mode s <> 1 /\ kerror_mode s <> 2 /\
  bootspace s <> 1 /\ bootspace s <> 2 /\ bootspace s <> 3 /\ log_ready s.

Lemma putchar_stuck fuel c s : stuck s -> exists s', _putchar clock fuel c s = Hang s'.
Proof.
  revert c s. induction fuel as [|fuel IH]; intros c s (Ht & Hk1 & Hk2 & Hb1 & Hb2 & Hb3 & Hl); [by exists s|].
  destruct (log_char_ready c s Hl) as (s1 & E1 & (Ek & Eb & _ & Et & _) & Hl1 & _).
  destruct (IH (chr "E") s1) as (s2 & E2). { unfold stuck. by rewrite Ek, Eb, Et. }
  exists s2. cbn [_putchar]. rewrite bind_get. rewrite !(proj2 (Z.eqb_neq _ _)) by done. rewrite Ht. cbn [negb Z.eqb].
  rewrite (bind_Ret _ _ _ _ _ E1). apply bind_hang.
  rewrite (printf_line_eq _ _ 31 (chars "ERROR: TERMINAL WRITE FAILURE!" ++ [10])) by (vm_compute; reflexivity).
  by apply (putchars_hang _ (chr "E") (chars "RROR: TERMINAL WRITE FAILURE!" ++ [10])).
Qed.
End clocked.

(** * Properties *)

(** In the serial modes with timestamps on, the characters of a non-empty
    line of at most 255 characters followed by a newline reach the serial port
    as ["[<ms>ms] "] and the line and a newline, where [<ms>] is the canonical
    decimal numeral of the millisecond clock when the newline arrives; nothing is
    sent before the newline and the buffer is empty again afterwards. *)
Theorem serial_line_correct clock s line :
  serial_only s -> timestamp s <> 0 -> buffered s [] ->
  Forall (fun c => c <> 10) line -> (0 < length line <= 255)%nat ->
  exists ds s', for_each (line ++ [10]) (_putchar clock 1) s = Ret tt s' /\
    numeral 10 ds (ticks_to_ms (u64 (clock (effects s)))) /\
    effects s' = effects s ++ map SerialOut (stamped ds line) /\ buffered s' [] /\ same_mode s s'.
Proof.
  intros Hs Ht Hb Hl Hlen. destruct (feed_line clock line s [] Hs Ht Hb Hl ltac:(simpl; lia)) as (s1 & E1 & He1 & Hb1 & Hm1).
  cbn [app] in Hb1. destruct (flush_eq clock s1 line Hb1 ltac:(by destruct line; [simpl in Hlen; lia|])) as (ds & s2 & Hn & E2 & He2 & Hb2 & Hm2).
  rewrite He1 in Hn, He2. exists ds, s2. split; [|split_and!; [done|done|done|by eapply same_mode_trans]].
  rewrite for_each_app, (bind_Ret _ _ _ _ _ E1). cbn [for_each].
  assert (Ht1 : timestamp s1 <> 0) by (destruct Hm1 as (_ & _ & -> & _); done).
  rewrite (bind_Ret _ _ _ tt s2); [done|]. rewrite putchar_serial by (by eapply serial_only_mode).
  rewrite log_char_buffer by done. unfold buffer_or_flush. by rewrite bind_get.
Qed.

(** A line longer than the 255-byte log buffer loses a character: the
    character that arrives when the buffer is full flushes the buffer and is
    itself neither sent nor kept. *)
Theorem serial_long_line_drops clock s line c :
  serial_only s -> timestamp s <> 0 -> buffered s [] ->
  Forall (fun c => c <> 10) line -> length line = 255%nat ->
  exists ds s', for_each (line ++ [c]) (_putchar clock 1) s = Ret tt s' /\
    numeral 10 ds (ticks_to_ms (u64 (clock (effects s)))) /\
    effects s' = effects s ++ map SerialOut (stamped ds line) /\ buffered s' [].
Proof.
  intros Hs Ht Hb Hl Hlen. destruct (feed_line clock line s [] Hs Ht Hb Hl ltac:(simpl; lia)) as (s1 & E1 & He1 & Hb1 & Hm1).
  cbn [app] in Hb1. destruct (flush_eq clock s1 line Hb1 ltac:(by destruct line; [simpl in Hlen; lia|])) as (ds & s2 & Hn & E2 & He2 & Hb2 & Hm2).
  rewrite He1 in Hn, He2. exists ds, s2. split; [|done].
  rewrite for_each_app, (bind_Ret _ _ _ _ _ E1). cbn [for_each].
  assert (Ht1 : timestamp s1 <> 0) by (destruct Hm1 as (_ & _ & -> & _); done).
  rewrite (bind_Ret _ _ _ tt s2); [done|]. rewrite putchar_serial by (by eapply serial_only_mode).
  rewrite log_char_buffer by done. by rewrite (full_eq clock s1 line).
Qed.

(** Without a framebuffer terminal, outside the error modes and the three boot
    phases, [_putchar] reports the problem with [printf_], which calls [_putchar]
    again: no recursion depth suffices, the kernel overflows its stack instead of
    falling back to the serial port. *)
Theorem putchar_recurses clock s c : stuck s -> forall fuel, exists s', _putchar clock fuel c s = Hang s'.
Proof. intros Hs fuel. by apply putchar_stuck. Qed.

(** * Witnesses *)
Definition boot_console (phase ts : Z) : con := Con 0 phase ts 0 0 0 (replicate 256 0) 0 [].

Lemma boot_buffered phase ts : buffered (boot_console phase ts) [].
Proof. repeat split. simpl. lia. Qed.

Lemma serial_line_correct_witness :
  exists ds s', for_each (chars "boot" ++ [10]) (_putchar (fun _ => 5000000000) 1) (boot_console 1 1) = Ret tt s' /\
    numeral 10 ds 2500 /\ effects s' = map SerialOut (stamped ds (chars "boot")).
Proof.
  destruct (serial_line_correct (fun _ => 5000000000) (boot_console 1 1) (chars "boot")) as (ds & s' & E & Hn & He & _).
  - right. simpl. lia.
  - simpl. lia.
  - apply boot_buffered.
  - repeat constructor; vm_compute; discriminate.
  - simpl. lia.
  - exists ds, s'. split; [exact E|]. split; [exact Hn|exact He].
Defined.

Lemma serial_long_line_drops_witness :
  exists ds s', for_each (replicate 255 65 ++ [66]) (_putchar (fun _ => 0) 1) (boot_console 1 1) = Ret tt s' /\
    effects s' = map SerialOut (stamped ds (replicate 255 65)) /\ buffered s' [].
Proof.
  destruct (serial_long_line_drops (fun _ => 0) (boot_console 1 1) (replicate 255 65) 66) as (ds & s' & E & _ & He & Hb).
  - right. simpl. lia.
  - simpl. lia.
  - apply boot_buffered.
  - apply Forall_replicate. lia.
  - by rewrite length_replicate.
  - exists ds, s'. split; [exact E|]. split; [exact He|exact Hb].
Defined.

Lemma putchar_recurses_witness : exists s', _putchar (fun _ => 0) 3 65 (boot_console 0 0) = Hang s'.
Proof.
  apply (putchar_recurses (fun _ => 0) (boot_console 0 0) 65). unfold stuck, log_ready. simpl. split_and!; try lia.
Defined.
End PutcharSpec.
