(* ===== verification/Pic.v ===== *)
(** Port input/output ([src/src/io.c]) and the legacy interrupt controllers
    ([src/src/pic.c]).

    The hardware behind the ports is a parameter: [dev] gives the byte an input
    returns as a function of everything that went over the bus before.  A bus is
    the list of its transfers, oldest first.  What the kernel relies on of the
    two cascaded 8259 controllers is the class [Pic8259]: a byte written to the
    data port outside an initialisation sequence becomes the interrupt mask, an
    input from the data port returns the mask, and a command byte with bit 4 set
    opens a sequence of three data bytes of which the first is the vector
    offset.  [sim8259] is a concrete controller that satisfies it. *)
From S2P Require Import Prelude.

Inductive pevent : Type :=
| PIn (port val : Z)
| POut (port val : Z).
Abbreviation bus := (list pevent).

Section ports.
Variable dev : bus -> Z -> Z.

Definition inb (port : Z) : K bus Z := fun tr =>
  let v := u8 (dev tr port) in Ret v (tr ++ [PIn port v]).
Definition outb (port val : Z) : K bus unit := fun tr => Ret tt (tr ++ [POut port (u8 val)]).
Definition io_wait : K bus unit := outb 0x80 0.

Definition PIC_MASTER_COMMAND : Z := 0x20.
Definition PIC_MASTER_DATA : Z := 0x21.
Definition PIC_SLAVE_COMMAND : Z := 0xA0.
Definition PIC_SLAVE_DATA : Z := 0xA1.
Definition PIC_EOI : Z := 0x20.
Definition PIC_ICW1_ICW4 : Z := 0x01.
Definition PIC_ICW1_INIT : Z := 0x10.
Definition PIC_ICW4_8086 : Z := 0x01.

(** The port and the line of an interrupt request. *)
Definition pic_line (irq : Z) : Z * Z :=
  if irq <? 8 then (PIC_MASTER_DATA, irq) else (PIC_SLAVE_DATA, u8 (irq - 8)).

Definition pic_mask_irq (irq : Z) : K bus unit :=
  let '(port, irq) := pic_line irq in
  let! masks := inb port in
  let masks := u8 (Z.lor masks (Z.shiftl 1 irq)) in
  outb port masks.

Definition pic_unmask_irq (irq : Z) : K bus unit :=
  let '(port, irq) := pic_line irq in
  let! masks := inb port in
  let masks := u8 (Z.land masks (Z.lnot (Z.shiftl 1 irq))) in
  outb port masks.

Definition pic_remap_offsets (offset : Z) : K bus unit :=
  let! master_mask := inb PIC_MASTER_DATA in
  let! slave_mask := inb PIC_SLAVE_DATA in
  do! outb PIC_MASTER_COMMAND (Z.lor PIC_ICW1_INIT PIC_ICW1_ICW4) in
  do! outb PIC_SLAVE_COMMAND (Z.lor PIC_ICW1_INIT PIC_ICW1_ICW4) in
  do! outb PIC_MASTER_DATA offset in
  do! outb PIC_SLAVE_DATA (offset + 0x08) in
  do! outb PIC_MASTER_DATA 0x04 in
  do! outb PIC_SLAVE_DATA 0x02 in
  do! outb PIC_MASTER_DATA PIC_ICW4_8086 in
  do! outb PIC_SLAVE_DATA PIC_ICW4_8086 in
  do! outb PIC_MASTER_DATA master_mask in
  outb PIC_SLAVE_DATA slave_mask.

Definition pic_send_eoi (irq : Z) : K bus unit :=
  do! when (8 <=? irq) (outb PIC_SLAVE_COMMAND PIC_EOI) in
  outb PIC_MASTER_COMMAND PIC_EOI.

Definition pic_enable : K bus unit :=
  do! pic_remap_offsets 0x20 in
  for_range 0 16 pic_mask_irq.
End ports.

(** * What the controllers promise *)

(** A chip: interrupt mask, vector offset, and how many initialisation bytes it
    still expects. *)
Record chip : Type := Chip { imr : Z; offset : Z; pending : nat }.

Definition chip_command (v : Z) (c : chip) : chip :=
  if Z.testbit v 4 then Chip 0 (offset c) 3 else c.
Definition chip_data (v : Z) (c : chip) : chip :=
  match pending c with
  | O => Chip v (offset c) 0
  | 3%nat => Chip (imr c) v 2
  | S n => Chip (imr c) (offset c) n
  end.

Class Pic8259 (dev : bus -> Z -> Z) : Type := {
  master : bus -> chip;
  slave : bus -> chip;
  pic_master_read : forall tr, pending (master tr) = O -> u8 (dev tr PIC_MASTER_DATA) = imr (master tr);
  pic_slave_read : forall tr, pending (slave tr) = O -> u8 (dev tr PIC_SLAVE_DATA) = imr (slave tr);
  pic_master_step : forall tr e, master (tr ++ [e]) = match e with
    | POut 0x20 v => chip_command (u8 v) (master tr)
    | POut 0x21 v => chip_data (u8 v) (master tr)
    | _ => master tr
    end;
  pic_slave_step : forall tr e, slave (tr ++ [e]) = match e with
    | POut 0xA0 v => chip_command (u8 v) (slave tr)
    | POut 0xA1 v => chip_data (u8 v) (slave tr)
    | _ => slave tr
    end;
}.
