(* ===== verification/PicSpec.v ===== *)
(** The interrupt controllers as the kernel sees them: a vector base and a set of
    masked lines. *)
From S2P Require Import Prelude Pic.

Module PicSpec.

(** Abstract operations on the set of masked lines. *)
Inductive pic_op : Type := OpMask (irq : Z) | OpUnmask (irq : Z) | OpEoi (irq : Z).

Definition op_irq (o : pic_op) : Z := match o with OpMask i | OpUnmask i | OpEoi i => i end.

Definition abs_op (o : pic_op) (M : gset Z) : gset Z :=
  match o with
  | OpMask i => {[i]} ∪ M
  | OpUnmask i => M ∖ {[i]}
  | OpEoi _ => M
  end.

Lemma masks_elem (l : list Z) M i : i ∈ foldl (fun M o => abs_op o M) M (OpMask <$> l) <-> i ∈ l \/ i ∈ M.
Proof. revert M. induction l as [|x l IH]; intros M; cbn; [set_solver|]. rewrite IH. set_solver. Qed.

Lemma u8_u8 x : u8 (u8 x) = u8 x.
Proof. apply wrap_small. by apply wrap_range. Qed.

(** The set bits of a line number in a byte of masks. *)
Lemma testbit_set m i j :
  0 <= i < 8 -> 0 <= j < 8 -> Z.testbit (u8 (Z.lor m (Z.shiftl 1 i))) j = bool_decide (j = i) || Z.testbit m j.
Proof.
  intros Hi Hj. rewrite wrap_testbit by lia. rewrite (proj2 (Z.ltb_lt j 8)) by lia. cbn [andb].
  rewrite Z.lor_spec, Z.shiftl_spec by lia. rewrite orb_comm. f_equal.
  case_bool_decide as H; [subst; by rewrite Z.sub_diag|].
  destruct (Z.lt_trichotomy (j - i) 0) as [?|[?|?]]; [by rewrite Z.testbit_neg_r|lia|].
  change 1 with (2 ^ 0). by rewrite Z.pow2_bits_false by lia.
Qed.

Lemma testbit_clear m i j :
  0 <= i < 8 -> 0 <= j < 8 -> Z.testbit (u8 (Z.land m (Z.lnot (Z.shiftl 1 i)))) j = negb (bool_decide (j = i)) && Z.testbit m j.
Proof.
  intros Hi Hj. rewrite wrap_testbit by lia. rewrite (proj2 (Z.ltb_lt j 8)) by lia. cbn [andb].
  rewrite Z.land_spec, Z.lnot_spec, Z.shiftl_spec by lia. rewrite andb_comm. f_equal. f_equal.
  case_bool_decide as H; [subst; by rewrite Z.sub_diag|].
  destruct (Z.lt_trichotomy (j - i) 0) as [?|[?|?]]; [by rewrite Z.testbit_neg_r|lia|].
  change 1 with (2 ^ 0). by rewrite Z.pow2_bits_false by lia.
Qed.

Section pic.
Context (dev : bus -> Z -> Z) {HP : Pic8259 dev}.

Definition run_op (o : pic_op) : K bus unit :=
  match o with
  | OpMask i => pic_mask_irq dev i
  | OpUnmask i => pic_unmask_irq dev i
  | OpEoi i => pic_send_eoi i
  end.

Definition line_masked (tr : bus) (irq : Z) : bool :=
  if irq <? 8 then Z.testbit (imr (master tr)) irq else Z.testbit (imr (slave tr)) (irq - 8).

(** Both controllers initialised, with the vector base [o], and masking exactly [M]. *)
Definition pic_state (tr : bus) (o : Z) (M : gset Z) : Prop :=
  pending (master tr) = O /\ pending (slave tr) = O /\ offset (master tr) = o /\ offset (slave tr) = o + 8 /\
  forall irq, 0 <= irq < 16 -> line_masked tr irq = bool_decide (irq ∈ M).

(** Evaluate the chips over a chain of transfers at known ports. *)
Ltac chips := repeat (first [rewrite pic_master_step | rewrite pic_slave_step]; cbn [PIC_MASTER_COMMAND PIC_MASTER_DATA
  PIC_SLAVE_COMMAND PIC_SLAVE_DATA]).

Lemma chip_data_mask v c : pending c = O -> chip_data v c = Chip v (offset c) 0.
Proof. unfold chip_data. by intros ->. Qed.

(** A read-modify-write of the mask bit of one line. *)
Definition line_update (f : Z -> Z -> Z) (irq : Z) : K bus unit :=
  let '(port, irq) := pic_line irq in
  let! masks := inb dev port in
  outb port (u8 (f masks irq)).

Lemma line_update_spec f g i tr b M M' :
  (forall m k j, 0 <= k < 8 -> 0 <= j < 8 -> Z.testbit (u8 (f m k)) j = g (bool_decide (j = k)) (Z.testbit m j)) ->
  (forall x, g false x = x) ->
  (forall j, bool_decide (j ∈ M') = g (bool_decide (j = i)) (bool_decide (j ∈ M))) ->
  0 <= i < 16 -> pic_state tr b M -> exists tr', line_update f i tr = Ret tt tr' /\ pic_state tr' b M'.
Proof.
  intros Hf Hg HM' Hi (Hm & Hs & Hbm & Hbs & HM). unfold line_update, pic_line.
  destruct (Z.ltb_spec i 8); eexists; (split; [reflexivity|]); unfold pic_state, line_masked, PIC_MASTER_DATA, PIC_SLAVE_DATA; chips.
  - rewrite pic_master_read, chip_data_mask by done. cbn [pending imr offset]. split_and!; try done.
    intros j Hj. specialize (HM j Hj). unfold line_masked in HM. rewrite HM', <- HM.
    destruct (Z.ltb_spec j 8); [by rewrite !u8_u8, Hf by lia|].
    by rewrite bool_decide_false, Hg by lia.
  - rewrite pic_slave_read, chip_data_mask by done. cbn [pending imr offset]. split_and!; try done.
    intros j Hj. specialize (HM j Hj). unfold line_masked in HM. rewrite HM', <- HM.
    destruct (Z.ltb_spec j 8); [by rewrite bool_decide_false, Hg by lia|].
    rewrite !u8_u8. rewrite (wrap_small 8 (i - 8)), Hf by lia.
    f_equal. apply bool_decide_ext. lia.
Qed.

Lemma run_op_spec o tr b M :
  0 <= op_irq o < 16 -> pic_state tr b M ->
  exists tr', run_op o tr = Ret tt tr' /\ pic_state tr' b (abs_op o M).
Proof.
  intros Ho Hst. destruct o as [i|i|i]; cbn [op_irq run_op abs_op] in *.
  - apply (line_update_spec (fun m k => Z.lor m (Z.shiftl 1 k)) orb i tr b M); try done.
    + intros. by apply testbit_set.
    + intros j. repeat case_bool_decide; set_solver.
  - apply (line_update_spec (fun m k => Z.land m (Z.lnot (Z.shiftl 1 k))) (fun x y => negb x && y) i tr b M); try done.
    + intros. by apply testbit_clear.
    + intros j. repeat case_bool_decide; set_solver.
  - destruct Hst as (Hm & Hs & Hbm & Hbs & HM). unfold pic_send_eoi, when.
    destruct (Z.leb_spec 8 i); eexists; (split; [reflexivity|]); unfold pic_state, line_masked, PIC_MASTER_COMMAND, PIC_SLAVE_COMMAND; chips;
      done.
Qed.

Lemma pic_run_spec ops tr b M :
  Forall (fun o => 0 <= op_irq o < 16) ops -> pic_state tr b M ->
  exists tr', for_each ops run_op tr = Ret tt tr' /\ pic_state tr' b (foldl (fun M o => abs_op o M) M ops).
Proof.
  intros Hops. revert tr M. induction Hops as [|o ops Ho _ IH]; intros tr M Hst; [by exists tr|].
  destruct (run_op_spec o tr b M Ho Hst) as (tr1 & E1 & H1). destruct (IH _ _ H1) as (tr2 & E2 & H2).
  exists tr2. split; [|done]. cbn [for_each]. by rewrite (bind_Ret _ _ _ _ _ E1).
Qed.

(** The masks the controllers had before are written back after the remapping. *)
Lemma remap_spec tr b :
  0 <= b < 248 -> pending (master tr) = O -> pending (slave tr) = O ->
  exists tr' M, pic_remap_offsets dev b tr = Ret tt tr' /\ pic_state tr' b M.
Proof.
  intros Hb Hm Hs. eexists _, (list_to_set (filter (fun i => line_masked tr i = true) (seqZ 0 16))).
  split; [reflexivity|]. unfold pic_state, line_masked. unfold PIC_MASTER_COMMAND, PIC_SLAVE_COMMAND, PIC_MASTER_DATA, PIC_SLAVE_DATA.
  chips. rewrite !u8_u8. unfold chip_command. change (Z.testbit (u8 (Z.lor PIC_ICW1_INIT PIC_ICW1_ICW4)) 4) with true. cbv iota.
  unfold chip_data. cbn [pending imr offset]. fold PIC_SLAVE_DATA PIC_MASTER_DATA.
  rewrite (wrap_small 8 b), (wrap_small 8 (b + 8)) by lia.
  split_and!; try done. intros i Hi.
  rewrite (pic_master_read tr Hm), pic_slave_read by (chips; done). chips.
  fold (line_masked tr i). symmetry. apply eq_true_iff_eq. rewrite bool_decide_eq_true, elem_of_list_to_set, list_elem_of_filter, elem_of_seqZ.
  intuition lia.
Qed.
End pic.

(** * Property *)

(** C25. [pic_enable] leaves the two controllers operational with vectors 0x20 to
    0x2F and all sixteen lines masked; from then on every sequence of
    [pic_mask_irq], [pic_unmask_irq] and [pic_send_eoi] on valid lines keeps the
    vectors and masks exactly the lines of the abstract set. *)
Theorem pic_refines dev `{Pic8259 dev} tr ops :
  pending (master tr) = O -> pending (slave tr) = O -> Forall (fun o => 0 <= op_irq o < 16) ops ->
  exists tr', bind (pic_enable dev) (fun _ => for_each ops (run_op dev)) tr = Ret tt tr' /\
    pic_state dev tr' 0x20 (foldl (fun M o => abs_op o M) (list_to_set (seqZ 0 16)) ops).
Proof.
  intros Hm Hs Hops. destruct (remap_spec dev tr 0x20 ltac:(lia) Hm Hs) as (tr1 & M1 & E1 & H1).
  destruct (pic_run_spec dev (OpMask <$> seqZ 0 16) tr1 0x20 M1) as (tr2 & E2 & H2); [|done|].
  { apply Forall_fmap, Forall_forall. intros i Hi%elem_of_seqZ. simpl. lia. }
  assert (H3 : pic_state dev tr2 0x20 (list_to_set (seqZ 0 16))).
  { destruct H2 as (? & ? & ? & ? & HM). split_and!; try done. intros i Hi. rewrite (HM i Hi).
    rewrite !bool_decide_true; [done|apply elem_of_list_to_set, elem_of_seqZ; lia|].
    apply masks_elem. left. apply elem_of_seqZ. lia. }
  destruct (pic_run_spec dev ops tr2 0x20 _ Hops H3) as (tr3 & E3 & H4). exists tr3. split; [|done].
  unfold pic_enable. rewrite bind_assoc, (bind_Ret _ _ _ _ _ E1). rewrite for_each_fmap in E2.
  by rewrite (bind_Ret _ _ _ tt tr2) by (by rewrite for_range_each).
Qed.

(** * A concrete controller *)
Definition sim_step (cmd data : Z) (c : chip) (e : pevent) : chip :=
  match e with
  | PIn _ _ => c
  | POut p v => if p =? cmd then chip_command (u8 v) c else if p =? data then chip_data (u8 v) c else c
  end.
Definition sim_chip (cmd data : Z) (tr : bus) : chip := foldl (sim_step cmd data) (Chip 0 0 0) tr.
Definition sim_dev (tr : bus) (port : Z) : Z :=
  if port =? PIC_MASTER_DATA then imr (sim_chip PIC_MASTER_COMMAND PIC_MASTER_DATA tr)
  else if port =? PIC_SLAVE_DATA then imr (sim_chip PIC_SLAVE_COMMAND PIC_SLAVE_DATA tr)
  else 0xFF.

Lemma sim_imr_range cmd data tr : 0 <= imr (sim_chip cmd data tr) < 2 ^ 8.
Proof.
  unfold sim_chip. induction tr as [|e tr IH] using rev_ind; [cbn; lia|]. rewrite foldl_app. cbn.
  destruct e as [|p v]; [done|]. cbn. pose proof (wrap_range 8 v). unfold chip_command, chip_data.
  repeat case_match; cbn; try lia; apply IH || apply H; lia.
Qed.

#[export] Program Instance sim8259 : Pic8259 sim_dev := {|
  master := sim_chip PIC_MASTER_COMMAND PIC_MASTER_DATA;
  slave := sim_chip PIC_SLAVE_COMMAND PIC_SLAVE_DATA;
|}.
Next Obligation. intros. unfold sim_dev. cbn. apply wrap_small, sim_imr_range. Qed.
Next Obligation. intros. unfold sim_dev. cbn. apply wrap_small, sim_imr_range. Qed.
Next Obligation.
  intros. unfold sim_chip. rewrite foldl_app. cbn. destruct e as [|p v]; [done|]. unfold PIC_MASTER_COMMAND, PIC_MASTER_DATA. cbn.
  destruct (Z.eqb_spec p 0x20) as [->|]; [done|]. destruct (Z.eqb_spec p 0x21) as [->|]; [done|]. repeat (done || case_match).
Qed.
Next Obligation.
  intros. unfold sim_chip. rewrite foldl_app. cbn. destruct e as [|p v]; [done|]. unfold PIC_SLAVE_COMMAND, PIC_SLAVE_DATA. cbn.
  destruct (Z.eqb_spec p 0xA0) as [->|]; [done|]. destruct (Z.eqb_spec p 0xA1) as [->|]; [done|]. repeat (done || case_match).
Qed.

Lemma pic_refines_witness :
  exists tr', bind (pic_enable sim_dev) (fun _ => for_each [OpUnmask 1; OpEoi 1; OpUnmask 0] (run_op sim_dev)) [] = Ret tt tr' /\
    line_masked sim_dev tr' 1 = false /\ line_masked sim_dev tr' 9 = true.
Proof.
  destruct (pic_refines sim_dev [] [OpUnmask 1; OpEoi 1; OpUnmask 0]) as (tr' & E & _ & _ & _ & _ & HM).
  - reflexivity.
  - reflexivity.
  - repeat constructor; simpl; lia.
  - exists tr'. split; [exact E|]. split; [rewrite HM by lia|rewrite HM by lia]; vm_compute; reflexivity.
Defined.
End PicSpec.
