(* ===== verification/Keyboard.v ===== *)
(** The PS/2 keyboard driver, [src/src/drivers/keyboard/keyboard.c], with its
    scancode tables ([include/drivers/keyboard/keyboard_map.h]).

    The controller is the device behind the ports ([dev], see [Pic]); messages
    go through [printf_] to [_putchar] ([clock] and [depth] as in [Putchar]:
    the time-stamp counter and the recursion depth the stack allows). *)
From Stdlib Require Import Ascii.
From S2P Require Import Prelude CString Printf Putchar Pic.

Definition KBD_STACK_SIZE : Z := 255.
Definition KEYBOARD_DATA_PORT : Z := 0x60.
Definition KEYBOARD_STATUS_PORT : Z := 0x64.

(** [keyboard_map[128]], in the groups of ten of the source. *)
Definition keyboard_map : list Z :=
  chars "  12345678" ++
  chars "90-=  qwer" ++
  chars "tyuiop[]  " ++
  chars "asdfghjkl;" ++
  chars " `  zxcvbn" ++
  chars "m,./ *    " ++
  chars "          " ++
  chars " 789-456 1" ++
  chars "230.      " ++
  chars "          " ++
  chars "          " ++
  chars "          " ++
  chars "        ".

(** [keyboard_charmap[128]], the second table of the header. *)
Definition keyboard_charmap : list Z :=
  chars "  12345678" ++
  chars "90-=  qwer" ++
  chars "tyuiop[]  " ++
  chars "asdfghjkl;" ++
  chars " `  zxcvbn" ++
  chars "m,./ *    " ++
  chars "          " ++
  chars " 789-456 1" ++
  chars "230.      " ++
  chars "          " ++
  chars "          " ++
  chars "          " ++
  chars "        ".

Record kbd : Type := Kbd {
  k_char : Z;
  kbd_stack : list Z;
  kbd_head : Z;
  kbd_tail : Z;
  kcon : con;
  kbus : bus;
}.

Definition set_k_char (c : Z) (s : kbd) : kbd := Kbd c (kbd_stack s) (kbd_head s) (kbd_tail s) (kcon s) (kbus s).
Definition set_stack (l : list Z) (s : kbd) : kbd := Kbd (k_char s) l (kbd_head s) (kbd_tail s) (kcon s) (kbus s).
Definition set_head (h : Z) (s : kbd) : kbd := Kbd (k_char s) (kbd_stack s) h (kbd_tail s) (kcon s) (kbus s).
Definition set_tail (t : Z) (s : kbd) : kbd := Kbd (k_char s) (kbd_stack s) (kbd_head s) t (kcon s) (kbus s).
Definition set_kcon (c : con) (s : kbd) : kbd := Kbd (k_char s) (kbd_stack s) (kbd_head s) (kbd_tail s) c (kbus s).
Definition set_kbus (b : bus) (s : kbd) : kbd := Kbd (k_char s) (kbd_stack s) (kbd_head s) (kbd_tail s) (kcon s) b.

(** [kbd_stack[i]] *)
Definition stack_get (i : Z) : K kbd Z := fun s =>
  match (if (0 <=? i) then kbd_stack s !! Z.to_nat i else None) with
  | Some c => Ret c s
  | None => Fault i s
  end.
Definition stack_set (i v : Z) : K kbd unit := fun s =>
  if (0 <=? i) && (i <? Z.of_nat (length (kbd_stack s))) then Ret tt (set_stack (<[Z.to_nat i := v]> (kbd_stack s)) s)
  else Fault i s.

Section keyboard.
Variable clock : list effect -> Z.
Variable depth : nat.
Variable dev : bus -> Z -> Z.

Definition on_con {A} (c : K con A) : K kbd A := zoom kcon set_kcon c.
Definition on_bus {A} (c : K bus A) : K kbd A := zoom kbus set_kbus c.
Definition set_kerror_mode (v : Z) : K kbd unit := on_con (modify (set_kerror v)).
Definition kprint (msg : string) : K kbd unit := on_con (printf_line (_putchar clock depth) msg).

Definition kbd_push (data : Z) : K kbd unit :=
  let! s := get in
  let next := u16 ((kbd_head s + 1) mod KBD_STACK_SIZE) in
  if next =? kbd_tail s then
    do! set_kerror_mode 1 in
    do! kprint "ERROR: Keyboard buffer overflow!" in
    set_kerror_mode 0
  else
    do! stack_set (kbd_head s) data in
    modify (set_head next).

Definition kbd_pop : K kbd Z :=
  let! s := get in
  if kbd_tail s =? kbd_head s then ret 0 else
  let! data := stack_get (kbd_tail s) in
  do! modify (set_tail (u16 ((kbd_tail s + 1) mod KBD_STACK_SIZE))) in
  ret data.

Definition keyboard_handler : K kbd unit :=
  let! status := on_bus (inb dev KEYBOARD_STATUS_PORT) in
  if Z.land status 1 =? 0 then ret tt else
  let! keycode := on_bus (inb dev KEYBOARD_DATA_PORT) in
  if is_set keycode 0x80 then ret tt else
  if 128 <=? keycode then ret tt else
  if keycode =? 0x1c then
    do! modify (set_k_char (chr "+")) in
    kbd_push 10
  else
    match keyboard_map !! Z.to_nat keycode with
    | None => fault keycode
    | Some mapped =>
        do! modify (set_k_char mapped) in
        when (negb (mapped =? 0)) (kbd_push mapped)
    end.

Definition k_getchar : K kbd Z :=
  let! s := get in
  do! modify (set_k_char 0) in
  ret (k_char s).

Definition keyboard_init : K kbd unit :=
  do! on_bus (pic_unmask_irq dev 1) in
  kprint "Keyboard Init".
End keyboard.
