(* ===== verification/KeyboardSpec.v ===== *)
(** The keyboard ring is a bounded first-in first-out queue, also when the
    interrupt handler runs between any two instructions of [kbd_pop]. *)
From Stdlib Require Import Ascii.
From S2P Require Import Prelude Numeral CString CStringSpec Printf PrintfSpec Putchar PutcharSpec Pic Keyboard.

Module KeyboardSpec.
Import PrintfSpec PutcharSpec.

(** * The ring as a queue *)
Definition capacity : nat := 254.
Definition used (s : kbd) : Z := (kbd_head s - kbd_tail s) mod KBD_STACK_SIZE.
Definition slot (s : kbd) (k : Z) : nat := Z.to_nat ((kbd_tail s + k) mod KBD_STACK_SIZE).
Definition queue (s : kbd) : list Z := (fun k => default 0 (kbd_stack s !! slot s k)) <$> seqZ 0 (used s).

Definition ring_ok (s : kbd) : Prop :=
  length (kbd_stack s) = 255%nat /\ 0 <= kbd_head s < KBD_STACK_SIZE /\ 0 <= kbd_tail s < KBD_STACK_SIZE.

Lemma used_range s : 0 <= used s < KBD_STACK_SIZE.
Proof. apply Z.mod_pos_bound. done. Qed.

Lemma queue_length s : Z.of_nat (length (queue s)) = used s.
Proof. unfold queue. rewrite length_fmap, length_seqZ. pose proof (used_range s). lia. Qed.

Lemma queue_bounded s : (length (queue s) <= capacity)%nat.
Proof. pose proof (queue_length s). pose proof (used_range s). unfold capacity, KBD_STACK_SIZE in *. lia. Qed.

Lemma head_slot s : ring_ok s -> slot s (used s) = Z.to_nat (kbd_head s).
Proof.
  intros (_ & Hh & Ht). unfold slot, used. f_equal. rewrite Zplus_mod_idemp_r.
  replace (kbd_tail s + (kbd_head s - kbd_tail s)) with (kbd_head s) by lia. by apply Z.mod_small.
Qed.

Lemma ring_slot_inj s j k : 0 <= j < KBD_STACK_SIZE -> 0 <= k < KBD_STACK_SIZE -> slot s j = slot s k -> j = k.
Proof.
  intros Hj Hk H. unfold slot in H.
  pose proof (Z.mod_pos_bound (kbd_tail s + j) KBD_STACK_SIZE ltac:(done)).
  pose proof (Z.mod_pos_bound (kbd_tail s + k) KBD_STACK_SIZE ltac:(done)).
  assert (E : (kbd_tail s + j) mod KBD_STACK_SIZE = (kbd_tail s + k) mod KBD_STACK_SIZE) by lia.
  unfold KBD_STACK_SIZE in *. dm_lia.
Qed.

Lemma slot_range s k : (slot s k < 255)%nat.
Proof. unfold slot. pose proof (Z.mod_pos_bound (kbd_tail s + k) KBD_STACK_SIZE ltac:(done)). unfold KBD_STACK_SIZE in *. lia. Qed.

(** The state after writing [d] at the head and moving it. *)
Definition pushed (d : Z) (s : kbd) : kbd :=
  set_head ((kbd_head s + 1) mod KBD_STACK_SIZE) (set_stack (<[Z.to_nat (kbd_head s) := d]> (kbd_stack s)) s).

Lemma next_u16 x : u16 ((x + 1) mod KBD_STACK_SIZE) = (x + 1) mod KBD_STACK_SIZE.
Proof. apply wrap_small. pose proof (Z.mod_pos_bound (x + 1) KBD_STACK_SIZE ltac:(done)). unfold KBD_STACK_SIZE in *. lia. Qed.

Lemma full_iff s : ring_ok s -> (kbd_head s + 1) mod KBD_STACK_SIZE = kbd_tail s <-> length (queue s) = capacity.
Proof.
  intros (_ & Hh & Ht). pose proof (queue_length s). unfold used, capacity, KBD_STACK_SIZE in *. dm_lia.
Qed.

Lemma empty_iff s : ring_ok s -> kbd_tail s = kbd_head s <-> queue s = [].
Proof.
  intros (_ & Hh & Ht). rewrite <- length_zero_iff_nil. pose proof (queue_length s). unfold used, KBD_STACK_SIZE in *. dm_lia.
Qed.

Lemma pushed_queue s d :
  ring_ok s -> (length (queue s) < capacity)%nat -> ring_ok (pushed d s) /\ queue (pushed d s) = queue s ++ [d].
Proof.
  intros Hok Hlt. pose proof Hok as (Hl & Hh & Ht). split.
  { split; cbn; [by rewrite length_insert|]. split; [by apply Z.mod_pos_bound|done]. }
  pose proof (queue_length s) as Hq. pose proof (used_range s).
  assert (Hu : used (pushed d s) = used s + 1).
  { unfold capacity in Hlt. unfold used in *. cbn [pushed set_head set_stack kbd_head kbd_tail]. rewrite Zminus_mod_idemp_l.
    unfold KBD_STACK_SIZE in *. dm_lia. }
  unfold queue. rewrite Hu, seqZ_app, fmap_app by lia. f_equal.
  - apply list_fmap_ext. intros i k Hk%lookup_seqZ. cbn. change (slot (pushed d s) k) with (slot s k).
    rewrite list_lookup_insert_ne; [done|]. intros E. rewrite <- (head_slot s Hok) in E.
    apply ring_slot_inj in E; [lia|done|unfold KBD_STACK_SIZE in *; lia].
  - rewrite Z.add_0_l, seqZ_cons by lia. cbn [fmap list_fmap Z.pred]. change (slot (pushed d s) (used s)) with (slot s (used s)). rewrite (head_slot s Hok).
    cbn. rewrite list_lookup_insert_eq; [done|]. unfold KBD_STACK_SIZE in *. lia.
Qed.

Definition popped (s : kbd) : kbd := set_tail ((kbd_tail s + 1) mod KBD_STACK_SIZE) s.

Lemma popped_queue s c q :
  ring_ok s -> queue s = c :: q -> kbd_stack s !! Z.to_nat (kbd_tail s) = Some c /\ ring_ok (popped s) /\ queue (popped s) = q.
Proof.
  intros Hok Hq. pose proof Hok as (Hl & Hh & Ht). pose proof (queue_length s) as Hlen. rewrite Hq in Hlen. cbn [length] in Hlen.
  assert (Hu : used s = used (popped s) + 1).
  { unfold used in *. cbn [popped set_tail kbd_head kbd_tail]. rewrite Zminus_mod_idemp_r. unfold KBD_STACK_SIZE in *. dm_lia. }
  unfold queue in Hq. rewrite seqZ_cons in Hq by lia. cbn in Hq. injection Hq as Hc Hrest.
  split; [|split].
  - unfold slot in Hc. rewrite Z.add_0_r, Z.mod_small in Hc by done.
    destruct (lookup_lt_is_Some_2 (kbd_stack s) (Z.to_nat (kbd_tail s))) as [x Hx]; [unfold KBD_STACK_SIZE in *; lia|].
    rewrite Hx in Hc. cbn in Hc. by subst.
  - split; [done|]. split; [done|]. by apply Z.mod_pos_bound.
  - unfold queue. rewrite <- Hrest. replace (Z.pred (used s)) with (used (popped s)) by lia. change (Z.succ 0) with 1.
    rewrite <- (fmap_add_seqZ 1 0), <- list_fmap_compose. apply list_fmap_ext. intros i k _. cbn. unfold slot. cbn.
    rewrite Zplus_mod_idemp_l. by rewrite Z.add_assoc.
Qed.

(** * The operations *)

(** The bounded queue: a full queue refuses the character. *)
Definition enq (c : Z) (q : list Z) : list Z := if (length q <? capacity)%nat then q ++ [c] else q.

(** The character a make code stands for; break codes and the 0xE0 prefix stand
    for none. *)
Definition scan_char (code : Z) : option Z :=
  if 128 <=? code then None else if code =? 0x1c then Some 10 else keyboard_map !! Z.to_nat code.

Definition enq_opt (c : option Z) (q : list Z) : list Z := match c with Some c => enq c q | None => q end.

Lemma enq_head c d q : exists q', enq c (d :: q) = d :: q'.
Proof. unfold enq. case_match; simpl; eauto. Qed.

Lemma enq_opt_head c d q : exists q', enq_opt c (d :: q) = d :: q'.
Proof. destruct c; [apply enq_head|simpl; eauto]. Qed.

(** Every character of the keyboard: printable, or the newline of Enter. *)
Definition key_char (c : Z) : Prop := 32 <= c < 127 \/ c = 10.

Lemma keyboard_map_total code : 0 <= code < 128 -> exists c, keyboard_map !! Z.to_nat code = Some c /\ 32 <= c < 127.
Proof.
  intros Hc. assert (H : Forall (fun c => 32 <= c < 127) keyboard_map).
  { apply (bool_decide_unpack _). vm_compute. exact I. }
  destruct (lookup_lt_is_Some_2 keyboard_map (Z.to_nat code)) as [c Hl]; [change (length keyboard_map) with 128%nat; lia|].
  exists c. split; [done|]. by eapply (Forall_lookup_1 _ _ _ _ H).
Qed.

Section driver.
Variable clock : list effect -> Z.
Variable depth : nat.
Variable dev : bus -> Z -> Z.
Hypothesis depth_pos : (0 < depth)%nat.

Definition ready (s : kbd) : Prop := ring_ok s /\ log_ready (kcon s).

(** In error mode 1 a message is written whatever the other modes are. *)
Lemma putchars_error text c :
  kerror_mode c = 1 -> log_ready c ->
  exists c', putchars (_putchar clock depth) text c = Ret tt c' /\ log_ready c'.
Proof.
  destruct depth as [|d]; [lia|]. intros Hk Hl. revert c Hk Hl. induction text as [|x text IH]; intros c Hk Hl; [by exists c|].
  unfold putchars. cbn [for_each]. destruct (Z.eqb_spec x 0) as [->|Hx].
  { destruct (IH c Hk Hl) as (c' & E & H). exists c'. split; [|done]. exact E. }
  assert (Hl1 : log_ready (set_effects (effects c ++ [TermWrite x]) c)) by exact Hl.
  destruct (log_char_ready clock x _ Hl1) as (c1 & E1 & (Hk1 & _) & Hr1 & _). cbn in Hk1.
  destruct (IH c1 ltac:(congruence) Hr1) as (c' & E & H). exists c'. split; [|done].
  rewrite (bind_Ret _ _ _ tt c1); [exact E|]. cbn [negb when]. cbn [_putchar]. rewrite bind_get, Hk. exact E1.
Qed.

Lemma kbd_push_spec s d :
  ready s -> exists s', kbd_push clock depth d s = Ret tt s' /\ ready s' /\ queue s' = enq d (queue s) /\ kbus s' = kbus s.
Proof.
  intros [Hok Hl]. unfold kbd_push. rewrite bind_get, next_u16. unfold enq.
  destruct (Z.eqb_spec ((kbd_head s + 1) mod KBD_STACK_SIZE) (kbd_tail s)) as [E|E].
  - apply full_iff in E; [|done]. rewrite (proj2 (Nat.ltb_ge _ _)) by lia.
    destruct (putchars_error (chars "ERROR: Keyboard buffer overflow!" ++ [10]) (set_kerror 1 (kcon s)) eq_refl Hl) as (c' & Ep & Hl').
    eexists. unfold set_kerror_mode, kprint, on_con. rewrite (bind_Ret _ _ _ tt (set_kcon (set_kerror 1 (kcon s)) s)) by done.
    rewrite (bind_Ret _ _ _ tt (set_kcon c' s)).
    + split; [reflexivity|]. split; [|done]. split; [done|exact Hl'].
    + unfold zoom. cbn [kcon set_kcon]. rewrite (printf_line_eq _ _ 33 (chars "ERROR: Keyboard buffer overflow!" ++ [10]))
        by (vm_compute; reflexivity). by rewrite Ep.
  - assert (Hlt : (length (queue s) < capacity)%nat).
    { pose proof (queue_bounded s). rewrite (full_iff s Hok) in E. lia. }
    rewrite (proj2 (Nat.ltb_lt _ _)) by done. exists (pushed d s). destruct (pushed_queue s d Hok Hlt) as [Hok' Hq].
    split; [|split; [by split|done]]. unfold stack_set. destruct Hok as (Hlen & Hh & _). unfold bind. rewrite Hlen.
    rewrite (proj2 (Z.leb_le 0 _)), (proj2 (Z.ltb_lt _ _)) by (unfold KBD_STACK_SIZE in *; lia). done.
Qed.

Lemma kbd_pop_spec s :
  ring_ok s -> kbd_pop s = match queue s with
                           | [] => Ret 0 s
                           | c :: _ => Ret c (popped s)
                           end.
Proof.
  intros Hok. unfold kbd_pop. rewrite bind_get. destruct (Z.eqb_spec (kbd_tail s) (kbd_head s)) as [E|E].
  - apply empty_iff in E; [|done]. by rewrite E.
  - rewrite (empty_iff s Hok) in E. destruct (queue s) as [|c q] eqn:Eq; [done|].
    destruct (popped_queue s c q Hok Eq) as (Hc & _). unfold stack_get, bind. destruct Hok as (_ & _ & Ht).
    rewrite (proj2 (Z.leb_le 0 _)) by lia. rewrite Hc, next_u16. done.
Qed.

(** What the controller holds when the handler runs: the status byte and the
    data byte that follows it on the bus. *)
Definition pending_char (tr : bus) : option Z :=
  if Z.land (u8 (dev tr KEYBOARD_STATUS_PORT)) 1 =? 0 then None
  else scan_char (u8 (dev (tr ++ [PIn KEYBOARD_STATUS_PORT (u8 (dev tr KEYBOARD_STATUS_PORT))]) KEYBOARD_DATA_PORT)).

Lemma bit7 x : 0 <= x < 2 ^ 8 -> is_set x 0x80 = (128 <=? x).
Proof.
  intros Hx. apply eq_true_iff_eq. revert x Hx.
  assert (H : Forall (fun x => is_set x 0x80 = (128 <=? x)) (seqZ 0 256)) by (apply (bool_decide_unpack _); vm_compute; exact I).
  intros x Hx. rewrite Forall_forall in H. rewrite (H x); [done|]. apply elem_of_seqZ. lia.
Qed.

Lemma keyboard_handler_spec s :
  ready s -> exists s', keyboard_handler clock depth dev s = Ret tt s' /\ ready s' /\
    queue s' = enq_opt (pending_char (kbus s)) (queue s).
Proof.
  intros Hr. unfold keyboard_handler, pending_char. set (st := u8 (dev (kbus s) KEYBOARD_STATUS_PORT)).
  set (s1 := set_kbus (kbus s ++ [PIn KEYBOARD_STATUS_PORT st]) s).
  rewrite (bind_Ret _ _ _ st s1) by done.
  destruct (Z.land st 1 =? 0); [by exists s1|].
  set (code := u8 (dev (kbus s ++ [PIn KEYBOARD_STATUS_PORT st]) KEYBOARD_DATA_PORT)).
  set (s2 := set_kbus (kbus s1 ++ [PIn KEYBOARD_DATA_PORT code]) s1).
  rewrite (bind_Ret _ _ _ code s2) by done. assert (Hc : 0 <= code < 2 ^ 8) by (by apply wrap_range).
  rewrite (bit7 code Hc). unfold scan_char. destruct (Z.leb_spec 128 code); [by exists s2|].
  destruct (Z.eqb_spec code 0x1c) as [|Hne].
  - rewrite bind_modify. destruct (kbd_push_spec (set_k_char (chr "+") s2) 10) as (s' & E & Hr' & Hq & _); [exact Hr|].
    exists s'. split_and!; [done..|]. exact Hq.
  - destruct (keyboard_map_total code ltac:(lia)) as (c & Hl & Hc0). rewrite Hl. rewrite bind_modify.
    rewrite (proj2 (Z.eqb_neq c 0)) by lia. destruct (kbd_push_spec (set_k_char c s2) c) as (s' & E & Hr' & Hq & _); [exact Hr|].
    exists s'. split_and!; [done..|]. exact Hq.
Qed.

(** * Interleaving

    [kbd_pop] reads the indices, reads the slot, and writes the tail; the
    interrupt handler may run before each of these accesses and runs to
    completion.  Between them other code may use the bus and the console. *)
Inductive pc : Type := Idle | Checked | Loaded (data : Z).
Inductive label : Type := LIrq (c : option Z) | LPop (c : Z) | LEmpty | LTau.

Inductive kstep : kbd * pc -> label -> kbd * pc -> Prop :=
| step_irq s s' p : keyboard_handler clock depth dev s = Ret tt s' -> kstep (s, p) (LIrq (pending_char (kbus s))) (s', p)
| step_bus s b p : kstep (s, p) LTau (set_kbus b s, p)
| step_con s c p : log_ready c -> kstep (s, p) LTau (set_kcon c s, p)
| step_empty s : (kbd_tail s =? kbd_head s) = true -> kstep (s, Idle) LEmpty (s, Idle)
| step_check s : (kbd_tail s =? kbd_head s) = false -> kstep (s, Idle) LTau (s, Checked)
| step_load s c : stack_get (kbd_tail s) s = Ret c s -> kstep (s, Checked) LTau (s, Loaded c)
| step_advance s c : kstep (s, Loaded c) (LPop c) (set_tail (u16 ((kbd_tail s + 1) mod KBD_STACK_SIZE)) s, Idle).

Inductive ksteps : kbd * pc -> list label -> kbd * pc -> Prop :=
| ksteps_nil m : ksteps m [] m
| ksteps_cons m1 l m2 ls m3 : kstep m1 l m2 -> ksteps m2 ls m3 -> ksteps m1 (l :: ls) m3.

(** The abstract bounded queue. *)
Inductive qstep : list Z -> label -> list Z -> Prop :=
| q_irq c q : qstep q (LIrq c) (enq_opt c q)
| q_pop c q : qstep (c :: q) (LPop c) q
| q_empty : qstep [] LEmpty []
| q_tau q : qstep q LTau q.

Inductive qsteps : list Z -> list label -> list Z -> Prop :=
| qsteps_nil q : qsteps q [] q
| qsteps_cons q1 l q2 ls q3 : qstep q1 l q2 -> qsteps q2 ls q3 -> qsteps q1 (l :: ls) q3.

Definition pc_ok (s : kbd) (p : pc) : Prop :=
  match p with
  | Idle => True
  | Checked => queue s <> []
  | Loaded c => exists q, queue s = c :: q
  end.

Definition machine_ok (m : kbd * pc) : Prop := ready m.1 /\ pc_ok m.1 m.2.

Lemma pc_ok_enq s s' p c : queue s' = enq_opt c (queue s) -> pc_ok s p -> pc_ok s' p.
Proof.
  intros Hq. destruct p as [| |d]; cbn; [done| |].
  - rewrite Hq. destruct (queue s) as [|x q]; [done|]. intros _. destruct (enq_opt_head c x q) as [q' ->]. done.
  - intros [q Eq]. rewrite Hq, Eq. apply enq_opt_head.
Qed.

(** One step of the interleaved program is one step of the queue. *)
Lemma kstep_simulates m l m' :
  machine_ok m -> kstep m l m' -> machine_ok m' /\ qstep (queue m.1) l (queue m'.1).
Proof.
  intros [Hr Hp] Hs. destruct Hs as [s s' p E|s b p|s c p Hc|s E|s E|s c E|s c]; cbn [fst snd] in *.
  - destruct (keyboard_handler_spec s Hr) as (s1 & E1 & Hr1 & Hq). rewrite E in E1. injection E1 as <-.
    split; [split; [done|by eapply pc_ok_enq]|]. rewrite Hq. constructor.
  - split; [by split|constructor].
  - split; [split; [by split; [destruct Hr|]|done]|constructor].
  - apply Z.eqb_eq, (empty_iff s) in E; [|apply Hr]. split; [by split|]. rewrite E. constructor.
  - apply Z.eqb_neq in E. rewrite (empty_iff s) in E by apply Hr. split; [by split|constructor].
  - split; [|constructor]. split; [done|]. destruct (queue s) as [|d q] eqn:Eq; [done|]. exists q. cbn [fst].
    destruct Hr as [Hok _]. destruct (popped_queue s d q Hok Eq) as (Hd & _). unfold stack_get in E.
    destruct Hok as (_ & _ & Ht). rewrite (proj2 (Z.leb_le 0 _)), Hd in E by lia. injection E as <-. exact Eq.
  - destruct Hp as [q Eq]. destruct Hr as [Hok Hl]. destruct (popped_queue s c q Hok Eq) as (_ & Hok' & Hq').
    rewrite next_u16. fold (popped s). split; [split; [by split|done]|]. cbn [fst]. rewrite Eq, Hq'. constructor.
Qed.

Lemma ksteps_simulate m ls m' :
  machine_ok m -> ksteps m ls m' -> machine_ok m' /\ qsteps (queue m.1) ls (queue m'.1).
Proof.
  intros Hm Hs. induction Hs as [m|m1 l m2 ls m3 H1 _ IH]; [split; [done|constructor]|].
  destruct (kstep_simulates _ _ _ Hm H1) as [H2 Hq]. destruct (IH H2) as [H3 Hqs]. split; [done|by econstructor].
Qed.

(** Nothing blocks: the handler returns and the slot read succeeds in every state
    the program can be in. *)
Lemma machine_progress s p : machine_ok (s, p) ->
  (exists s', keyboard_handler clock depth dev s = Ret tt s') /\ exists l m', kstep (s, p) l m' /\ (m'.2 <> p \/ l = LEmpty).
Proof.
  intros [Hr Hp]. split.
  { destruct (keyboard_handler_spec s Hr) as (s' & E & _). eauto. }
  destruct p as [| |c]; cbn in *.
  - destruct (kbd_tail s =? kbd_head s) eqn:E; [exists LEmpty, (s, Idle); split; [by constructor|by right]|].
    exists LTau, (s, Checked). split; [by constructor|by left].
  - destruct (queue s) as [|d q] eqn:Eq; [done|]. destruct Hr as [Hok _]. destruct (popped_queue s d q Hok Eq) as (Hd & _).
    exists LTau, (s, Loaded d). split; [|by left]. constructor. unfold stack_get. destruct Hok as (_ & _ & Ht).
    by rewrite (proj2 (Z.leb_le 0 _)), Hd by lia.
  - exists (LPop c). eexists. split; [constructor|by left].
Qed.

(** [kbd_pop] is the uninterrupted run of the three accesses. *)
Lemma kbd_pop_steps s c s' :
  ring_ok s -> kbd_pop s = Ret c s' ->
  ksteps (s, Idle) [LEmpty] (s', Idle) /\ c = 0 \/ ksteps (s, Idle) [LTau; LTau; LPop c] (s', Idle).
Proof.
  intros Hok E. unfold kbd_pop in E. rewrite bind_get in E. destruct (kbd_tail s =? kbd_head s) eqn:Eh.
  - injection E as <- <-. left. split; [|done]. econstructor; [by apply step_empty|constructor].
  - right. apply bind_Ret_inv in E as (d & s1 & Ed & E). assert (s1 = s) as ->.
    { unfold stack_get in Ed. by repeat case_match; simplify_eq. }
    injection E as <- <-. econstructor; [by apply step_check|]. econstructor; [by apply step_load|].
    econstructor; [apply step_advance|constructor].
Qed.

(** Conservation: characters leave in the order they were accepted. *)
Fixpoint accepted (q : list Z) (ls : list label) : list Z :=
  match ls with
  | [] => []
  | LIrq (Some c) :: ls => (if (length q <? capacity)%nat then [c] else []) ++ accepted (enq c q) ls
  | LPop _ :: ls => accepted (tail q) ls
  | _ :: ls => accepted q ls
  end.

Definition taken (ls : list label) : list Z := omap (fun l => match l with LPop c => Some c | _ => None end) ls.

Lemma qsteps_fifo q ls q' : qsteps q ls q' -> q ++ accepted q ls = taken ls ++ q'.
Proof.
  induction 1 as [q|q1 l q2 ls q3 H _ IH]; [cbn; by rewrite app_nil_r|].
  destruct H as [[c|] q|c q| |q]; cbn [accepted enq_opt] in *; try done.
  - unfold enq in *. destruct (length q <? capacity)%nat; [by rewrite <- app_assoc in IH|done].
  - cbn in *. by f_equal.
Qed.

Lemma pending_key_char tr c : pending_char tr = Some c -> key_char c.
Proof.
  unfold pending_char, scan_char. set (code := u8 (dev (_ ++ _) _)). pose proof (wrap_range 8 _ : 0 <= 8 -> 0 <= code < 2 ^ 8) as Hr.
  case_match; [done|]. destruct (Z.leb_spec 128 code); [done|]. case_match; [intros [= <-]; by right|].
  destruct (keyboard_map_total code) as (d & -> & Hd); [split; [apply Hr; lia|lia]|]. intros [= <-]. by left.
Qed.

Lemma ksteps_key_chars m ls m' :
  ksteps m ls m' -> machine_ok m -> Forall key_char (queue m.1) -> Forall key_char (taken ls ++ queue m'.1).
Proof.
  induction 1 as [m|m1 l m2 ls m3 H _ IH]; intros Hm Hq; [done|].
  destruct (kstep_simulates _ _ _ Hm H) as [Hm2 Hs].
  assert (Hc : forall c, l = LIrq (Some c) -> key_char c).
  { intros c ->. inversion H; subst. by eapply pending_key_char. }
  remember (queue m1.1) as q1 eqn:E1. remember (queue m2.1) as q2 eqn:E2.
  destruct Hs as [[c|] q|c q| |q]; cbn in IH |- *; try (by apply IH).
  - apply IH; [done|]. unfold enq. case_match; [|done]. apply Forall_app. split; [done|]. constructor; [by apply Hc|done].
  - apply Forall_cons in Hq as [Hc8 Hq]. constructor; [done|]. by apply IH.
Qed.
End driver.

(** * Properties *)

(** C26. The keyboard ring is a first-in first-out queue of at most 254
    characters under every interleaving of the interrupt handler with the
    accesses of [kbd_pop]: each step is a step of the bounded queue, the
    characters taken followed by those still queued are the initial contents
    followed by the accepted characters, the handler returns in every reachable
    state and no access is out of range. *)
Theorem keyboard_refines clock depth dev s ls s' p :
  (0 < depth)%nat -> ready s -> ksteps clock depth dev (s, Idle) ls (s', p) ->
  qsteps (queue s) ls (queue s') /\ queue s ++ accepted (queue s) ls = taken ls ++ queue s' /\
  (length (queue s') <= capacity)%nat /\
  (exists s2, keyboard_handler clock depth dev s' = Ret tt s2) /\
  exists l m, kstep clock depth dev (s', p) l m /\ (m.2 <> p \/ l = LEmpty).
Proof.
  intros Hd Hr Hs. destruct (ksteps_simulate clock depth dev Hd (s, Idle) ls (s', p)) as [Hm Hq]; [by split|done|].
  split; [done|]. split; [by apply qsteps_fifo|]. split; [apply queue_bounded|]. by apply machine_progress.
Qed.

(** No scancode produces a backspace: starting from an empty ring, no
    interleaving of interrupts and reads ever delivers ['\b'], so the line
    editor of the shell cannot be reached from the keyboard. *)
Theorem keyboard_no_backspace clock depth dev s ls s' p :
  (0 < depth)%nat -> ready s -> queue s = [] -> ksteps clock depth dev (s, Idle) ls (s', p) -> 8 ∉ taken ls ++ queue s'.
Proof.
  intros Hd Hr Hq Hs Hin. eapply (ksteps_key_chars clock depth dev Hd (s, Idle) ls (s', p)) in Hs.
  - apply (Forall_elem _ _ _ Hs) in Hin. unfold key_char in Hin. lia.
  - by split.
  - cbn. by rewrite Hq.
Qed.

(** * Witnesses *)

(** A controller on which the keys H and Enter were typed: the data port returns
    one code per input. *)
Definition two_keys (tr : bus) (port : Z) : Z :=
  if port =? KEYBOARD_STATUS_PORT then 1
  else if (length tr <? 2)%nat then 0x23 else 0x1c.

Definition kbd0 : kbd := Kbd 0 (replicate 255 0) 0 0 (PutcharSpec.boot_console 1 0) [].

Lemma kbd0_ready : ready kbd0.
Proof. split; [split; [done|]|by left]. cbn. unfold KBD_STACK_SIZE. lia. Qed.

(** The handler runs twice while a read is between its check and its load. *)
Lemma kbd0_run : exists s' s1 s2,
  keyboard_handler (fun _ => 0) 1 two_keys kbd0 = Ret tt s1 /\ keyboard_handler (fun _ => 0) 1 two_keys s1 = Ret tt s2 /\
  ksteps (fun _ => 0) 1 two_keys (kbd0, Idle) [LIrq (Some 104); LTau; LIrq (Some 10); LTau; LPop 104] (s', Idle).
Proof.
  do 3 eexists. split; [vm_compute; reflexivity|]. split; [vm_compute; reflexivity|].
  eapply ksteps_cons. { refine (step_irq _ _ _ kbd0 _ Idle _). vm_compute. reflexivity. }
  eapply ksteps_cons. { apply step_check. vm_compute. reflexivity. }
  eapply ksteps_cons. { refine (step_irq _ _ _ _ _ Checked _). vm_compute. reflexivity. }
  eapply ksteps_cons. { apply (step_load _ _ _ _ 104). vm_compute. reflexivity. }
  eapply ksteps_cons. { apply step_advance. } constructor.
Qed.

Lemma keyboard_refines_witness : exists s' ls, taken ls = [104] /\ queue s' = [10] /\ qsteps [] ls (queue s').
Proof.
  destruct kbd0_run as (s' & _ & _ & _ & _ & Hs). exists s', [LIrq (Some 104); LTau; LIrq (Some 10); LTau; LPop 104].
  destruct (keyboard_refines (fun _ => 0) 1 two_keys kbd0 _ s' Idle ltac:(lia) kbd0_ready Hs) as (Hq & Hf & _).
  split; [reflexivity|]. split; [|exact Hq]. cbn in Hf. injection Hf as <-. reflexivity.
Defined.

Lemma keyboard_no_backspace_witness : exists s' ls, ksteps (fun _ => 0) 1 two_keys (kbd0, Idle) ls (s', Idle) /\ taken ls = [104] /\ 8 ∉ taken ls ++ queue s'.
Proof.
  destruct kbd0_run as (s' & _ & _ & _ & _ & Hs). eexists s', _. split; [exact Hs|]. split; [reflexivity|].
  eapply (keyboard_no_backspace (fun _ => 0) 1 two_keys kbd0); [lia|apply kbd0_ready|reflexivity|exact Hs].
Defined.
End KeyboardSpec.
