(* ===== verification/HeapBytes.v ===== *)
(** Byte accesses to heap memory.  The heap interface of [KHeap] moves 8-byte
    words; a byte access touches one lane of the little-endian word around it. *)
From S2P Require Import Prelude KHeap.

Definition lane (w i : Z) : Z := Z.shiftr w (8 * i) mod 2 ^ 8.
Definition set_lane (w i v : Z) : Z :=
  Z.lor (Z.ldiff w (Z.shiftl 255 (8 * i))) (Z.shiftl (u8 v) (8 * i)).

Section access.
Context {H : Type} `{KernelHeap H}.
Definition heap_ld8 (a : Z) : K H Z :=
  let! w := kh_load (a - a mod 8) in ret (lane w (a mod 8)).
Definition heap_st8 (a v : Z) : K H unit :=
  let! w := kh_load (a - a mod 8) in kh_store (a - a mod 8) (set_lane w (a mod 8) v).
End access.

(** * The bytes of a payload *)
Definition byte_at (ws : list Z) (k : Z) : Z := lane (default 0 (ws !! Z.to_nat (k / 8))) (k mod 8).

(** [text] is stored at the start of the payload. *)
Definition holds (ws text : list Z) : Prop :=
  Z.of_nat (length text) <= 8 * Z.of_nat (length ws) /\
  forall k c, text !! k = Some c -> byte_at ws (Z.of_nat k) = u8 c.

Lemma lane_set_lane w i j v :
  0 <= i < 8 -> 0 <= j < 8 -> lane (set_lane w i v) j = if decide (i = j) then u8 v else lane w j.
Proof.
  intros Hi Hj. unfold lane, set_lane. apply Z.bits_inj'. intros n Hn.
  assert (Hb : forall x, Z.testbit (Z.shiftr x (8 * j) mod 2 ^ 8) n = (n <? 8) && Z.testbit x (n + 8 * j)).
  { intros x. destruct (Z.ltb_spec n 8); cbn [andb].
    - by rewrite Z.mod_pow2_bits_low, Z.shiftr_spec by lia.
    - by rewrite Z.mod_pow2_bits_high by lia. }
  rewrite Hb, Z.lor_spec, Z.ldiff_spec, !Z.shiftl_spec by lia.
  assert (H255 : forall m, Z.testbit 255 m = (0 <=? m) && (m <? 8)).
  { intros m. change 255 with (Z.ones 8). rewrite Z.testbit_ones by lia. done. }
  rewrite H255, wrap_testbit by lia. case_decide as He.
  - subst j. replace (n + 8 * i - 8 * i) with n by lia. rewrite wrap_testbit by lia.
    rewrite (proj2 (Z.leb_le 0 n)) by lia. destruct (n <? 8); cbn; [by rewrite andb_false_r|done].
  - rewrite Hb. destruct (Z.ltb_spec n 8); cbn [andb]; [|done].
    destruct (Z.leb_spec 0 (n + 8 * j - 8 * i)); [rewrite (proj2 (Z.ltb_ge _ 8)) by lia|].
    + cbn. by rewrite andb_true_r, orb_false_r.
    + rewrite (Z.testbit_neg_r v) by lia. cbn. by rewrite andb_false_r, andb_true_r, orb_false_r.
Qed.

Section laws.
Context {H : Type} `{KernelHeap H} {HL : KernelHeapLaws H}.

Lemma word_lookup (ws : list Z) k : 0 <= k < 8 * Z.of_nat (length ws) -> exists w, ws !! Z.to_nat (k / 8) = Some w.
Proof. intros Hk. apply lookup_lt_is_Some_2. dm_lia. Qed.

Lemma byte_addr p k : p mod 16 = 0 -> 0 <= k ->
  (p + k) - (p + k) mod 8 = p + 8 * Z.of_nat (Z.to_nat (k / 8)) /\ (p + k) mod 8 = k mod 8.
Proof. intros Hp Hk. rewrite Z2Nat.id by dm_lia. dm_lia. Qed.

Lemma heap_ld8_spec h n A p ws k :
  kh_rep h n A -> A !! p = Some ws -> 0 <= k < 8 * Z.of_nat (length ws) -> heap_ld8 (p + k) h = Ret (byte_at ws k) h.
Proof.
  intros Hr Hp Hk. destruct (kh_layout _ _ _ _ _ Hr Hp) as (Ha & _). destruct (byte_addr p k Ha ltac:(lia)) as [E1 E2].
  destruct (word_lookup ws k Hk) as [w Hw]. unfold heap_ld8. rewrite E1, E2.
  rewrite (bind_Ret _ _ _ _ _ (kh_load_law _ _ _ _ _ _ _ Hr Hp Hw)). unfold byte_at. by rewrite Hw.
Qed.

Lemma heap_st8_spec h n A p ws k v :
  kh_rep h n A -> A !! p = Some ws -> 0 <= k < 8 * Z.of_nat (length ws) ->
  exists h' ws', heap_st8 (p + k) v h = Ret tt h' /\ kh_rep h' n (<[p := ws']> A) /\ length ws' = length ws /\
    forall j, 0 <= j -> byte_at ws' j = if decide (j = k) then u8 v else byte_at ws j.
Proof.
  intros Hr Hp Hk. destruct (kh_layout _ _ _ _ _ Hr Hp) as (Ha & _). destruct (byte_addr p k Ha ltac:(lia)) as [E1 E2].
  destruct (word_lookup ws k Hk) as [w Hw]. pose proof (lookup_lt_Some _ _ _ Hw) as Hlt.
  destruct (kh_store_law h n A p ws _ (set_lane w (k mod 8) v) Hr Hp Hlt) as (h' & E & Hr').
  exists h'. eexists. split; [|split; [exact Hr'|]].
  { unfold heap_st8. rewrite E1, E2. by rewrite (bind_Ret _ _ _ _ _ (kh_load_law _ _ _ _ _ _ _ Hr Hp Hw)). }
  split; [apply length_insert|]. intros j Hj. unfold byte_at.
  destruct (decide (j / 8 = k / 8)) as [Eq|Ne].
  - rewrite Eq, list_lookup_insert_eq, Hw by done. cbn. rewrite lane_set_lane by (apply Z.mod_pos_bound; lia).
    repeat case_decide; try done; exfalso; dm_lia.
  - rewrite list_lookup_insert_ne by (intros ?; dm_lia). rewrite decide_False; [done|]. intros ->. done.
Qed.
End laws.
