(* ===== verification/Shell.v ===== *)
(** The Voyager shell, [src/src/shell.c].

    The shell runs as a task: its command buffer lives in the kernel heap
    ([KHeap]), its output goes through [printf_] to [_putchar] ([Putchar]).  The
    keyboard is seen through the values that successive calls of [kbd_pop]
    return, 0 for an empty queue ([Keyboard] says which sequences are possible);
    [keys] holds those still to come, and waiting for one that never comes is a
    [Hang].  [yield] is what the other tasks do to the heap while the shell is
    in [schedule()].  The routines of other components that the commands call act on
    the rest of the kernel, of which the heap is a part, and on the console; the class
    [ShellCommands] names them and [ShellSystem] has the kernel's own. *)
From Stdlib Require Import Ascii.
From S2P Require Import Prelude CString Printf Putchar KHeap HeapBytes.

Definition VSH_CMD_BUFFER_SIZE : Z := 100.
Definition KERNEL_VERSION : string := "0.0.5".
Definition BUILD_GCC : string := "gcc version 13.4.0 (GCC)".
Definition BUILD_TARGET : string := "x86_64-elf".
Definition THREAD_MODEL : string := "Single".
Definition BUILD_LINKER : string := "GNU ld (GNU Binutils) 2.41".
Definition BUILD_NASM : string := "NASM version 2.16.01 compiled on Aug 24 2025".
Definition BUILD_GAS : string :=
  "GNU assembler version 2.41 (x86_64-elf) using BFD version (GNU Binutils) 2.41".

(** The routines of other components that a command calls: [print_sys_time],
    [print_date], [memtest_run], [create_process(soak)] and [cpuid_readout]. *)
Inductive command : Type := PrintSysTime | PrintDate | MemtestRun | CreateSoak | CpuidReadout.
Class ShellCommands (H : Type) : Type := { run : command -> K (H * con) unit }.

Section shell.
Context {H : Type} `{KernelHeap H} `{ShellCommands H}.

Record sh : Type := Sh {
  sheap : H;
  scon : con;
  keys : list Z;              (* results of the coming kbd_pop calls *)
  calls : list command;       (* commands dispatched, oldest first *)
}.

Definition set_sheap (h : H) (s : sh) : sh := Sh h (scon s) (keys s) (calls s).
Definition set_scon (c : con) (s : sh) : sh := Sh (sheap s) c (keys s) (calls s).
Definition set_keys (k : list Z) (s : sh) : sh := Sh (sheap s) (scon s) k (calls s).
Definition set_calls (l : list command) (s : sh) : sh := Sh (sheap s) (scon s) (keys s) l.

Definition on_heap {A} (c : K H A) : K sh A := zoom sheap set_sheap c.

Variable clock : list effect -> Z.
Variable depth : nat.
Variable yield : K H unit.

Definition schedule_ : K sh unit := on_heap yield.
Definition kbd_pop_ : K sh Z := fun s =>
  match keys s with
  | [] => Hang s
  | c :: k => Ret c (set_keys k s)
  end.

(** [printf_(format, args)] with the console as output. *)
Definition print (format : list Z) (va : list va_arg) : K sh unit :=
  zoom scon set_scon (printf_console (_putchar clock depth) format va).
Definition print_s (s : list Z) : K sh unit := print (cstr "%s") [Str (s ++ [0])].
Definition print_line (s : string) : K sh unit := print (chars "%s" ++ [10; 0]) [Str (cstr s)].
Definition print_plain (s : string) : K sh unit := print (cstr s) [].

(** ** [shell_streq]: a string in the heap against a literal *)
Fixpoint streq_loop (a : Z) (b : list Z) : K sh bool :=
  let! ca := on_heap (heap_ld8 a) in
  match b with
  | [] => ret (ca =? 0)
  | cb :: b' =>
      if ca =? 0 then ret false
      else if ca =? cb then streq_loop (a + 1) b'
      else ret false
  end.
Definition shell_streq (a : Z) (b : string) : K sh bool :=
  if a =? 0 then ret false else streq_loop a (chars b).

(** ** [vsh_readline] *)
Fixpoint readline_loop (fuel : nat) (buffer bufsize pos : Z) : K sh Z :=
  match fuel with
  | O => fun s => Hang s
  | S fuel' =>
      let! c := kbd_pop_ in
      if c =? 0 then do! schedule_ in readline_loop fuel' buffer bufsize pos else
      if (c =? 10) || (c =? 13) then
        do! on_heap (heap_st8 (buffer + pos) 0) in
        do! print_line "" in
        ret buffer
      else if c =? 8 then
        if pos >? 0 then
          do! print_s [8; 32; 8] in
          readline_loop fuel' buffer bufsize (pos - 1)
        else readline_loop fuel' buffer bufsize pos
      else
        let! r := (if pos + 1 >=? bufsize then
                     let newsize := u64 (bufsize + VSH_CMD_BUFFER_SIZE) in
                     let! grown := on_heap (kh_realloc buffer newsize) in
                     if grown =? 0 then
                       do! print_line "vsh: Command Buffer Allocation Error!" in
                       do! on_heap (kh_free buffer) in
                       ret None
                     else ret (Some (grown, newsize))
                   else ret (Some (buffer, bufsize))) in
        match r with
        | None => ret 0
        | Some (buffer, bufsize) =>
            do! on_heap (heap_st8 (buffer + pos) c) in
            do! print_s [c] in
            readline_loop fuel' buffer bufsize (pos + 1)
        end
  end.

(** One round of fuel for each call of [kbd_pop]. *)
Definition vsh_readline : K sh Z :=
  let bufsize := VSH_CMD_BUFFER_SIZE in
  let! buffer := on_heap (kh_malloc bufsize) in
  if buffer =? 0 then
    do! print_line "vsh: Command Buffer Allocation Error!" in ret 0
  else
    let! s := get in
    readline_loop (S (length (keys s))) buffer bufsize 0.

(** ** [cmd_parser] *)
Definition call (c : command) : K sh unit :=
  do! modify (fun s => set_calls (calls s ++ [c]) s) in
  zoom (fun s => (sheap s, scon s)) (fun x s => set_scon x.2 (set_sheap x.1 s)) (run c).
(** [cli; hlt]: the processor stops. *)
Definition halt : K sh unit := fun s => Hang s.

Definition uname : K sh unit :=
  do! print_plain "Kernel Version: " in
  do! print_line KERNEL_VERSION in
  do! print_plain "GNU Version: " in
  do! print_line BUILD_GCC in
  do! print_plain "Linker Version: " in
  do! print_line BUILD_LINKER in
  do! print_plain "NASM Version: " in
  do! print_line BUILD_NASM in
  do! print_plain "GNU Assembler Version: " in
  do! print_line BUILD_GAS in
  do! print_plain "Binary Target: " in
  do! print_line BUILD_TARGET in
  do! print_plain "Thread Model: " in
  print_line THREAD_MODEL.

Definition cmd_parser (str : Z) : K sh unit :=
  if str =? 0 then ret tt else
  let! c0 := on_heap (heap_ld8 str) in
  if c0 =? 0 then ret tt else
  let! t := shell_streq str "time" in
  if t then call PrintSysTime else
  let! t := shell_streq str "time -d" in
  if t then call PrintDate else
  let! t := shell_streq str "memtest" in
  if t then call MemtestRun else
  let! t := (let! t := shell_streq str "halt" in if t then ret true else shell_streq str "Halt") in
  do! when t (do! print_s (chars "Halting System...") in halt) in
  let! t := shell_streq str "soak" in
  if t then call CreateSoak else
  let! t := shell_streq str "uname" in
  if t then uname else
  let! t := shell_streq str "cpuid" in
  if t then call CpuidReadout else
  print_line "unknown command".

(** ** [vsh_loop]: one round of the endless loop, and its first [n] rounds *)
Definition vsh_round : K sh unit :=
  do! print_s (chars ":> ") in
  let! line := vsh_readline in
  do! when (negb (line =? 0)) (do! cmd_parser line in on_heap (kh_free line)) in
  schedule_.
Fixpoint vsh_loop (n : nat) : K sh unit :=
  match n with
  | O => ret tt
  | S n' => do! vsh_round in vsh_loop n'
  end.
End shell.
