(* ===== verification/ShellSpec.v ===== *)
(** The shell reads the line that was typed, dispatches it by the command table
    and gives its buffer back. *)
From Stdlib Require Import Ascii.
From S2P Require Import Prelude Numeral CString CStringSpec Printf PrintfSpec Putchar PutcharSpec Kmalloc KmallocSpec KHeap HeapBytes Shell.

Module ShellSpec.
Import PrintfSpec PutcharSpec.

(** * What the user sees: an abstract line editor

    A key changes the line and echoes some characters: 0 is no key, 8 rubs out,
    anything else is appended. *)
Definition edit (st : list Z * list Z) (k : Z) : list Z * list Z :=
  let '(line, out) := st in
  if k =? 0 then (line, out)
  else if k =? 8 then
    match line with
    | [] => (line, out)
    | _ => (take (length line - 1) line, out ++ [8; 32; 8])
    end
  else (line ++ [k], out ++ [k]).
Definition edited (ks line out : list Z) : list Z * list Z := foldl edit (line, out) ks.

Definition line_end (k : Z) : Prop := k = 10 \/ k = 13.
Definition key_ok (k : Z) : Prop := -128 <= k < 128 /\ ~ line_end k.

Lemma edit_out line out k : edit (line, out) k = ((edit (line, []) k).1, out ++ (edit (line, []) k).2).
Proof. unfold edit. repeat case_match; cbn; by rewrite ?app_nil_r. Qed.

Lemma edited_out ks line out : edited ks line out = ((edited ks line []).1, out ++ (edited ks line []).2).
Proof.
  revert line out. induction ks as [|k ks IH]; intros line out; [cbn; by rewrite app_nil_r|].
  unfold edited in *. cbn [foldl]. rewrite edit_out. destruct (edit (line, []) k) as [l o]. cbn [fst snd].
  rewrite (IH l (out ++ o)), (IH l o). cbn. by rewrite app_assoc.
Qed.

Lemma edited_cons k ks line : edited (k :: ks) line [] =
  let '(l, o) := edit (line, []) k in ((edited ks l []).1, o ++ (edited ks l []).2).
Proof. unfold edited. cbn [foldl]. destruct (edit (line, []) k) as [l o]. apply edited_out. Qed.

(** * Output *)
Section output.
Context {H : Type} `{KernelHeap H}.
Variable clock : list effect -> Z.
Variable depth : nat.

(** [s'] is [s] with [text] on the screen. *)
Definition typed (text : list Z) (s s' : sh (H := H)) : Prop :=
  sheap s' = sheap s /\ keys s' = keys s /\ calls s' = calls s /\ screen (scon s') /\ shown (scon s') = shown (scon s) ++ text.

Lemma print_typed format va n text s :
  integral va -> rendered format va = Ret n text -> Forall (fun c => c <> 0) text -> screen (scon s) ->
  exists s', print clock (S depth) format va s = Ret tt s' /\ typed text s s'.
Proof.
  intros Hi Hr Ht Hs. destruct (putchars_screen clock depth text (scon s) Hs Ht) as (c & E & Hc & Hw).
  exists (set_scon c s). unfold print, zoom. by rewrite (printf_console_eq _ _ _ n text), E.
Qed.

Lemma rendered_key c : c <> 0 -> rendered (cstr "%s") [Str [c; 0]] = Ret 1 [c].
Proof. intros Hc. destruct c; [done|vm_compute; reflexivity..]. Qed.

Lemma print_key_typed c s : c <> 0 -> screen (scon s) -> exists s', print_s clock (S depth) [c] s = Ret tt s' /\ typed [c] s s'.
Proof. intros Hc. eapply print_typed; [repeat constructor|by apply rendered_key|by repeat constructor]. Qed.

Lemma print_rubout_typed s : screen (scon s) -> exists s', print_s clock (S depth) [8; 32; 8] s = Ret tt s' /\ typed [8; 32; 8] s s'.
Proof. eapply print_typed; [repeat constructor|vm_compute; reflexivity|by repeat constructor]. Qed.

Lemma print_newline_typed s : screen (scon s) -> exists s', print_line clock (S depth) "" s = Ret tt s' /\ typed [10] s s'.
Proof. eapply print_typed; [repeat constructor|vm_compute; reflexivity|by repeat constructor]. Qed.

Lemma bind_typed (c k : K sh unit) t1 t2 s :
  (screen (scon s) -> exists s1, c s = Ret tt s1 /\ typed t1 s s1) ->
  (forall s1, screen (scon s1) -> exists s2, k s1 = Ret tt s2 /\ typed t2 s1 s2) ->
  screen (scon s) -> exists s2, bind c (fun _ => k) s = Ret tt s2 /\ typed (t1 ++ t2) s s2.
Proof.
  intros Hc Hk Hs. destruct (Hc Hs) as (s1 & E1 & Eh & Ek & Ec & Hs1 & Hw). destruct (Hk s1 Hs1) as (s2 & E2 & Eh2 & Ek2 & Ec2 & Hs2 & Hw2).
  exists s2. rewrite (bind_Ret _ _ _ _ _ E1). split; [done|]. unfold typed. rewrite Hw2, Hw, app_assoc. split_and!; congruence || done.
Qed.

Lemma print_text format va n text s :
  integral va -> rendered format va = Ret n text -> forallb (fun c => negb (c =? 0)) text = true -> screen (scon s) ->
  exists s', print clock (S depth) format va s = Ret tt s' /\ typed text s s'.
Proof.
  intros Hi Hr Ht. eapply print_typed; [done..|]. apply List.Forall_forall. intros x Hx.
  eapply List.forallb_forall in Ht; [|done]. intros ->. done.
Qed.

(** What the command [uname] shows. *)
Definition uname_text : list Z :=
  chars "Kernel Version: " ++ chars KERNEL_VERSION ++ [10] ++
  chars "GNU Version: " ++ chars BUILD_GCC ++ [10] ++
  chars "Linker Version: " ++ chars BUILD_LINKER ++ [10] ++
  chars "NASM Version: " ++ chars BUILD_NASM ++ [10] ++
  chars "GNU Assembler Version: " ++ chars BUILD_GAS ++ [10] ++
  chars "Binary Target: " ++ chars BUILD_TARGET ++ [10] ++
  chars "Thread Model: " ++ chars THREAD_MODEL ++ [10].

Ltac text_solve := eapply print_text; [repeat constructor|vm_compute; reflexivity|reflexivity|..].

Lemma uname_typed s : screen (scon s) -> exists s', uname clock (S depth) s = Ret tt s' /\ typed uname_text s s'.
Proof.
  intros Hs. assert (Hgo : exists t, t = uname_text /\ exists s', uname clock (S depth) s = Ret tt s' /\ typed t s s').
  { eexists. split; [|unfold uname; do 13 (eapply bind_typed; [text_solve|intros ? ?|done]); text_solve; done].
    vm_compute. reflexivity. }
  destruct Hgo as (t & -> & Hgo). exact Hgo.
Qed.
End output.

(** * Reading a line *)
Section readline.
Context {H : Type} `{KernelHeap H} {HL : KernelHeapLaws H}.
Variable clock : list effect -> Z.
Variable depth : nat.
Variable yield : K H unit.
(** The other tasks leave the payloads and the budget of the shell alone. *)
Hypothesis yield_ok : forall h n A, kh_rep h n A -> exists h', yield h = Ret tt h' /\ kh_rep h' n A.

(** Budget for [k] growth steps of a buffer of [b] bytes. *)
Fixpoint grow_cost (k : nat) (b : Z) : Z :=
  match k with
  | O => 0
  | S k' => kh_cost (b + VSH_CMD_BUFFER_SIZE) + grow_cost k' (b + VSH_CMD_BUFFER_SIZE)
  end.

Lemma grow_cost_nonneg k b : 0 <= grow_cost k b.
Proof. revert b. induction k as [|k IH]; intros b; cbn; [done|]. pose proof (kh_cost_nonneg (b + VSH_CMD_BUFFER_SIZE)). specialize (IH (b + VSH_CMD_BUFFER_SIZE)). lia. Qed.

Lemma grow_cost_S k b : grow_cost k b <= grow_cost (S k) b.
Proof.
  revert b. induction k as [|k IH]; intros b; cbn [grow_cost].
  - pose proof (kh_cost_nonneg (b + VSH_CMD_BUFFER_SIZE)). lia.
  - specialize (IH (b + VSH_CMD_BUFFER_SIZE)). cbn [grow_cost] in IH. lia.
Qed.

Lemma on_heap_eq {A} (c : K H A) (s : sh) a h : c (sheap s) = Ret a h -> on_heap c s = Ret a (set_sheap h s).
Proof. unfold on_heap, zoom. by intros ->. Qed.

(** The command buffer: [buffer] is a live payload that starts with [line] and
    has more than [length line] of its [bufsize] bytes left. *)
Definition buffer_ok (h : H) (n : Z) (A : gmap Z (list Z)) (buffer bufsize : Z) (line : list Z) : Prop :=
  exists ws, kh_rep h n (<[buffer := ws]> A) /\ A !! buffer = None /\ holds ws line /\
    Z.of_nat (length line) < bufsize <= 8 * Z.of_nat (length ws) /\ bufsize <= 2 ^ 32.

Lemma holds_store ws ws' line c :
  holds ws line -> Z.of_nat (length line) < 8 * Z.of_nat (length ws) -> length ws' = length ws ->
  (forall j, 0 <= j -> byte_at ws' j = if decide (j = Z.of_nat (length line)) then u8 c else byte_at ws j) ->
  holds ws' (line ++ [c]).
Proof.
  intros [_ Hb] Hlt Hlen Hj. split; [rewrite length_app; simpl; lia|]. intros k x Hk. rewrite Hj by lia.
  apply lookup_app_Some in Hk as [Hk|[Hge Hk]].
  - pose proof (lookup_lt_Some _ _ _ Hk). rewrite decide_False by lia. by apply Hb.
  - apply list_lookup_singleton_Some in Hk as [? <-]. by rewrite decide_True by lia.
Qed.

Lemma holds_prefix ws line k : holds ws line -> holds ws (take k line).
Proof.
  intros [Hl Hb]. split; [rewrite length_take; lia|]. intros j c Hj. apply Hb. by apply lookup_take_Some in Hj as [? _].
Qed.

Lemma holds_grow ws us line : ws `prefix_of` us -> holds ws line -> holds us line.
Proof.
  intros [x ->] [Hl Hb]. split; [rewrite length_app; lia|]. intros k c Hk. rewrite <- (Hb k c Hk).
  pose proof (lookup_lt_Some _ _ _ Hk). unfold byte_at. f_equal. f_equal. apply lookup_app_l. dm_lia.
Qed.

Lemma store_char h n A buffer bufsize line c :
  buffer_ok h n A buffer bufsize line ->
  exists h' ws', heap_st8 (buffer + Z.of_nat (length line)) c h = Ret tt h' /\ kh_rep h' n (<[buffer := ws']> A) /\
    bufsize <= 8 * Z.of_nat (length ws') /\ holds ws' (line ++ [c]).
Proof.
  intros (ws & Hr & Hf & Hh & Hb & _).
  destruct (heap_st8_spec h n _ buffer ws (Z.of_nat (length line)) c Hr (lookup_insert_eq _ _ _) ltac:(lia)) as (h' & ws' & E & Hr' & Hlen & Hj).
  rewrite insert_insert_eq in Hr'. exists h', ws'. split_and!; [done|done|lia|]. by eapply holds_store; [done|lia|..].
Qed.

(** The growth step of the loop. *)
Lemma grow_step h n A buffer bufsize line k :
  buffer_ok h n A buffer bufsize line -> grow_cost (S k) bufsize <= n -> 0 < bufsize -> bufsize + VSH_CMD_BUFFER_SIZE <= 2 ^ 32 ->
  exists q h', kh_realloc buffer (u64 (bufsize + VSH_CMD_BUFFER_SIZE)) h = Ret q h' /\ q <> 0 /\
    buffer_ok h' (n - kh_cost (bufsize + VSH_CMD_BUFFER_SIZE)) A q (bufsize + VSH_CMD_BUFFER_SIZE) line.
Proof.
  intros (ws & Hr & Hf & Hh & Hb & Hmax) Hn Hpos Hle. cbn [grow_cost] in Hn. unfold VSH_CMD_BUFFER_SIZE in *. rewrite wrap_small by lia.
  pose proof (grow_cost_nonneg k (bufsize + 100)).
  destruct (kh_realloc_law h n _ buffer ws (bufsize + 100) Hr (lookup_insert_eq _ _ _) ltac:(lia) ltac:(lia))
    as (q & us & h' & E & Hr' & Hpre & Hl & Hq). rewrite delete_insert_eq, delete_id in Hr' by done.
  exists q, h'. split; [done|]. destruct (kh_layout _ _ _ _ _ Hr' (lookup_insert_eq _ _ _)) as (_ & Hp & _). split; [lia|].
  exists us. split; [done|]. split.
  { destruct Hq as [->|Hq]; [done|]. by apply lookup_insert_None in Hq as [? _]. }
  split; [by eapply holds_grow|]. lia.
Qed.

(** The result of the loop, with the keys [ks] still to come before the end of
    the line and [line] already in the buffer. *)
Definition line_read (s : sh (H := H)) n A bufsize line ks rest (q : Z) (s' : sh (H := H)) : Prop :=
  exists us n', kh_rep (sheap s') n' (<[q := us]> A) /\ A !! q = None /\ q <> 0 /\ holds us ((edited ks line []).1 ++ [0]) /\
    keys s' = rest /\ calls s' = calls s /\ screen (scon s') /\
    shown (scon s') = shown (scon s) ++ (edited ks line []).2 ++ [10] /\ n - grow_cost (length ks) bufsize <= n'.

Lemma buffer_ok_nonnull h n A buffer bufsize line : buffer_ok h n A buffer bufsize line -> buffer <> 0.
Proof. intros (ws & Hr & _). destruct (kh_layout _ _ _ _ _ Hr (lookup_insert_eq _ _ _)) as (_ & ? & _). lia. Qed.

Lemma end_of_line fuel s n A buffer bufsize line nl rest :
  keys s = nl :: rest -> line_end nl -> buffer_ok (sheap s) n A buffer bufsize line -> screen (scon s) ->
  exists q s', readline_loop clock (S depth) yield (S fuel) buffer bufsize (Z.of_nat (length line)) s = Ret q s' /\
    line_read s n A bufsize line [] rest q s'.
Proof.
  intros Hk Hnl Hb Hs. cbn [readline_loop]. unfold kbd_pop_. unfold bind at 1. rewrite Hk. cbv iota.
  assert (Hz : (nl =? 0) = false /\ (nl =? 10) || (nl =? 13) = true) by (by destruct Hnl as [->| ->]). destruct Hz as [-> ->].
  destruct (store_char _ _ _ _ _ _ 0 Hb) as (h' & ws' & E & Hr & Hl & Hh). pose proof Hb as (ws & _ & Hf & _).
  rewrite (bind_Ret _ _ _ _ _ (on_heap_eq _ (set_keys rest s) _ _ E)).
  destruct (print_newline_typed clock depth (set_sheap h' (set_keys rest s)) Hs) as (s' & Ep & Eh & Ek & Ec & Hs' & Hw).
  rewrite (bind_Ret _ _ _ _ _ Ep). exists buffer, s'. split; [reflexivity|]. exists ws', n. cbn in *. rewrite Eh.
  split_and!; try done; [by eapply buffer_ok_nonnull|]. lia.
Qed.

Lemma line_read_cons s s1 n n1 A b b1 line l o k ks rest q s' :
  edit (line, []) k = (l, o) -> shown (scon s1) = shown (scon s) ++ o -> calls s1 = calls s ->
  n - grow_cost (S (length ks)) b <= n1 - grow_cost (length ks) b1 ->
  line_read s1 n1 A b1 l ks rest q s' -> line_read s n A b line (k :: ks) rest q s'.
Proof.
  intros He Hw Hc Hn (us & n' & Hr & Hf & Hq & Hh & Hk & Hc' & Hs & Hw' & Hn'). exists us, n'.
  rewrite edited_cons, He. cbn [fst snd]. split_and!; try done; [congruence|by rewrite Hw', Hw, !app_assoc|cbn [length]; lia].
Qed.

Lemma buffer_ok_take h n A buffer bufsize line k : buffer_ok h n A buffer bufsize line -> buffer_ok h n A buffer bufsize (take k line).
Proof.
  intros (ws & Hr & Hf & Hh & Hb & Hm). exists ws. split; [done|]. split; [done|]. split; [by apply holds_prefix|].
  rewrite length_take. lia.
Qed.

(** The growth test at the end of the buffer. *)
Lemma room_step s n A buffer bufsize line k :
  buffer_ok (sheap s) n A buffer bufsize line -> grow_cost (S k) bufsize <= n -> 0 < bufsize ->
  bufsize + VSH_CMD_BUFFER_SIZE <= 2 ^ 32 ->
  exists b1 n1 q h1, (if Z.of_nat (length line) + 1 >=? bufsize then
       let newsize := u64 (bufsize + VSH_CMD_BUFFER_SIZE) in
       let! grown := on_heap (kh_realloc buffer newsize) in
       if grown =? 0 then
         do! print_line clock (S depth) "vsh: Command Buffer Allocation Error!" in
         do! on_heap (kh_free buffer) in
         ret None
       else ret (Some (grown, newsize))
     else ret (Some (buffer, bufsize))) s = Ret (Some (q, b1)) (set_sheap h1 s) /\
    buffer_ok h1 n1 A q b1 line /\ Z.of_nat (length line) + 1 < b1 <= bufsize + VSH_CMD_BUFFER_SIZE /\
    n - grow_cost (S k) bufsize <= n1 - grow_cost k b1 /\ grow_cost k b1 <= n1.
Proof.
  intros Hb Hn Hpos Hmax. rewrite Z.geb_leb. destruct (Z.leb_spec bufsize (Z.of_nat (length line) + 1)) as [Hge|Hlt].
  - destruct (grow_step _ _ _ _ _ _ _ Hb Hn Hpos Hmax) as (q & h' & E & Hq & Hb').
    exists (bufsize + VSH_CMD_BUFFER_SIZE), (n - kh_cost (bufsize + VSH_CMD_BUFFER_SIZE)), q, h'.
    rewrite (bind_Ret _ _ _ _ _ (on_heap_eq _ s _ _ E)), (proj2 (Z.eqb_neq _ _) Hq).
    split; [unfold VSH_CMD_BUFFER_SIZE in *; by rewrite (wrap_small 64) by lia|].
    split; [done|]. cbn [grow_cost] in *. destruct Hb as (ws & _ & _ & _ & ? & _). unfold VSH_CMD_BUFFER_SIZE in *. lia.
  - exists bufsize, n, buffer, (sheap s). split; [by destruct s|]. split; [done|].
    pose proof (grow_cost_S k bufsize). unfold VSH_CMD_BUFFER_SIZE. lia.
Qed.

Lemma readline_loop_spec ks fuel s n A buffer bufsize line nl rest :
  Forall key_ok ks -> (length ks < fuel)%nat -> keys s = ks ++ nl :: rest -> line_end nl ->
  buffer_ok (sheap s) n A buffer bufsize line -> screen (scon s) ->
  0 < bufsize -> bufsize + VSH_CMD_BUFFER_SIZE * Z.of_nat (length ks) <= 2 ^ 32 -> grow_cost (length ks) bufsize <= n ->
  exists q s', readline_loop clock (S depth) yield fuel buffer bufsize (Z.of_nat (length line)) s = Ret q s' /\
    line_read s n A bufsize line ks rest q s'.
Proof.
  intros Hks. revert fuel s n buffer bufsize line.
  induction Hks as [|k ks [Hr Hne] _ IH]; intros fuel s n buffer bufsize line Hfuel Hk Hnl Hb Hs Hpos Hmax Hn.
  { destruct fuel as [|fuel]; [simpl in Hfuel; lia|]. by eapply end_of_line. }
  destruct fuel as [|fuel]; [lia|]. cbn [length app] in *. pose proof (grow_cost_S (length ks) bufsize) as Hmono.
  assert (Hmax' : bufsize + VSH_CMD_BUFFER_SIZE * Z.of_nat (length ks) <= 2 ^ 32) by (unfold VSH_CMD_BUFFER_SIZE in *; lia).
  assert (Hend : (k =? 10) || (k =? 13) = false).
  { apply orb_false_iff. split; apply Z.eqb_neq; intros ->; apply Hne; unfold line_end; auto. }
  cbn [readline_loop]. unfold kbd_pop_. unfold bind at 1. rewrite Hk, Hend. set (s0 := set_keys (ks ++ nl :: rest) s).
  destruct (Z.eqb_spec k 0) as [Hz|Hz].
  - (* no key: the other tasks run *)
    destruct Hb as (ws & Hrep & Hb). destruct (yield_ok _ _ _ Hrep) as (h' & E & Hrep').
    unfold schedule_. rewrite (bind_Ret _ _ _ _ _ (on_heap_eq _ s0 _ _ E)).
    destruct (IH fuel (set_sheap h' s0) n buffer bufsize line) as (q & s' & E' & Hl); try done; try lia; [by exists ws|].
    exists q, s'. split; [done|]. subst k. eapply (line_read_cons _ _ _ _ _ _ _ _ line []); [done|by rewrite app_nil_r|done| |exact Hl]. lia.
  - destruct (Z.eqb_spec k 8) as [->|H8].
    + (* rub out *)
      rewrite Z.gtb_ltb. destruct line as [|x line'] eqn:El.
      * destruct (IH fuel s0 n buffer bufsize []) as (q & s' & E' & Hl); try done; try lia.
        exists q, s'. split; [exact E'|]. eapply (line_read_cons _ _ _ _ _ _ _ _ [] []); [done|by rewrite app_nil_r|done| |exact Hl]. lia.
      * rewrite <- El in *. assert (Hlen : (length line = S (length line'))%nat) by (by subst).
        rewrite (proj2 (Z.ltb_lt _ _)) by lia.
        destruct (print_rubout_typed clock depth s0 Hs) as (s1 & E1 & Eh & Ek & Ec & Hs1 & Hw). rewrite (bind_Ret _ _ _ _ _ E1).
        destruct (IH fuel s1 n buffer bufsize (take (length line - 1) line)) as (q & s' & E' & Hl); try done; try lia; try exact Ek;
          [by rewrite Eh; apply buffer_ok_take|].
        replace (Z.of_nat (length line) - 1) with (Z.of_nat (length (take (length line - 1) line))) by (rewrite length_take; lia).
        exists q, s'. split; [exact E'|].
        eapply (line_read_cons _ _ _ _ _ _ _ _ (take (length line - 1) line) [8; 32; 8]); [by subst line|done|done| |exact Hl]. lia.
    + (* an ordinary character *)
      destruct (room_step s0 n A buffer bufsize line (length ks)) as (b1 & n1 & q1 & h1 & E1 & Hb1 & Hlt & Hn1 & Hn1'); try done.
      { unfold VSH_CMD_BUFFER_SIZE in *. lia. }
      rewrite (bind_Ret _ _ _ _ _ E1). cbv iota beta.
      destruct (store_char _ _ _ _ _ _ k Hb1) as (h2 & ws2 & E2 & Hr2 & Hlen2 & Hh2).
      rewrite (bind_Ret _ _ _ _ _ (on_heap_eq _ (set_sheap h1 s0) _ _ E2)).
      destruct (print_key_typed clock depth k (set_sheap h2 (set_sheap h1 s0)) Hz Hs) as (s3 & E3 & Eh & Ek & Ec & Hs3 & Hw).
      rewrite (bind_Ret _ _ _ _ _ E3).
      destruct (IH fuel s3 n1 q1 b1 (line ++ [k])) as (q & s' & E' & Hl); try done; try lia; try exact Ek.
      { rewrite Eh. exists ws2. destruct Hb1 as (ws & _ & Hf & _ & _ & Hm). rewrite length_app. cbn. split_and!; try done; lia. }
      rewrite length_app in E'. cbn [length] in E'. rewrite Nat2Z.inj_add in E'.
      exists q, s'. split; [exact E'|].
      eapply (line_read_cons _ _ _ _ _ _ _ _ (line ++ [k]) [k]); [|exact Hw|exact Ec|exact Hn1|exact Hl].
      unfold edit. by rewrite (proj2 (Z.eqb_neq _ _) Hz), (proj2 (Z.eqb_neq _ _) H8).
Qed.

Lemma vsh_readline_spec ks s n A nl rest :
  Forall key_ok ks -> keys s = ks ++ nl :: rest -> line_end nl -> kh_rep (sheap s) n A -> screen (scon s) ->
  VSH_CMD_BUFFER_SIZE * Z.of_nat (S (length ks)) <= 2 ^ 32 ->
  kh_cost VSH_CMD_BUFFER_SIZE + grow_cost (length ks) VSH_CMD_BUFFER_SIZE <= n ->
  exists q s', vsh_readline clock (S depth) yield s = Ret q s' /\
    line_read s (n - kh_cost VSH_CMD_BUFFER_SIZE) A VSH_CMD_BUFFER_SIZE [] ks rest q s'.
Proof.
  intros Hks Hk Hnl Hr Hs Hmax Hn. pose proof (grow_cost_nonneg (length ks) VSH_CMD_BUFFER_SIZE).
  destruct (kh_malloc_law _ _ _ VSH_CMD_BUFFER_SIZE Hr ltac:(unfold VSH_CMD_BUFFER_SIZE; lia) ltac:(lia)) as (p & ws & h' & E & Hr' & Hf & Hl).
  destruct (kh_layout _ _ _ _ _ Hr' (lookup_insert_eq _ _ _)) as (_ & Hp & _).
  unfold vsh_readline. rewrite (bind_Ret _ _ _ _ _ (on_heap_eq _ s _ _ E)), (proj2 (Z.eqb_neq _ _)) by lia.
  rewrite bind_get. cbn [keys set_sheap].
  destruct (readline_loop_spec ks (S (length (keys s))) (set_sheap h' s) (n - kh_cost VSH_CMD_BUFFER_SIZE) A p VSH_CMD_BUFFER_SIZE [] nl rest)
    as (q & s' & E' & Hl'); try done.
  - rewrite Hk, length_app. lia.
  - exists ws. split; [done|]. split; [done|]. split; [split; [simpl; lia|done]|]. unfold VSH_CMD_BUFFER_SIZE in *. simpl. lia.
  - unfold VSH_CMD_BUFFER_SIZE in *. lia.
  - lia.
  - by exists q, s'.
Qed.

(** * Dispatch *)
Inductive reaction : Type := Nothing | Run (c : command) | Uname | Halted | Unknown.

Definition dispatch (line : list Z) : reaction :=
  if decide (line = []) then Nothing
  else if decide (line = chars "time") then Run PrintSysTime
  else if decide (line = chars "time -d") then Run PrintDate
  else if decide (line = chars "memtest") then Run MemtestRun
  else if decide (line = chars "halt" \/ line = chars "Halt") then Halted
  else if decide (line = chars "soak") then Run CreateSoak
  else if decide (line = chars "uname") then Uname
  else if decide (line = chars "cpuid") then Run CpuidReadout
  else Unknown.

(** A character of the line: neither the terminator nor outside [char]. *)
Definition line_char (c : Z) : Prop := -128 <= c < 128 /\ c <> 0.

Lemma u8_char c d : -128 <= c < 128 -> 0 <= d < 128 -> u8 c = d <-> c = d.
Proof. intros Hc Hd. unfold wrap. change (2 ^ 8) with 256. dm_lia. Qed.

Lemma set_sheap_id (s : sh (H := H)) : set_sheap (sheap s) s = s.
Proof. by destruct s. Qed.

Lemma on_heap_same {B} (c : K H B) s a : c (sheap s) = Ret a (sheap s) -> on_heap c s = Ret a s.
Proof. intros E. rewrite (on_heap_eq _ _ _ _ E). by rewrite set_sheap_id. Qed.

Section parse.
Variables (s : sh (H := H)) (n : Z) (A : gmap Z (list Z)) (p : Z) (ws line : list Z).
Hypothesis Hrep : kh_rep (sheap s) n A.
Hypothesis Hlive : A !! p = Some ws.
Hypothesis Hheld : holds ws (line ++ [0]).
Hypothesis Hchars : Forall line_char line.

Lemma line_byte (k : nat) c : (line ++ [0]) !! k = Some c -> on_heap (heap_ld8 (p + Z.of_nat k)) s = Ret (u8 c) s.
Proof.
  intros Hk. pose proof (lookup_lt_Some _ _ _ Hk). destruct Hheld as [Hlen Hb]. apply on_heap_same.
  rewrite (heap_ld8_spec _ _ _ _ _ _ Hrep Hlive) by lia. by rewrite (Hb k c Hk).
Qed.

Lemma streq_loop_spec b (k : nat) :
  Forall (fun c => 0 < c < 128) b -> (k <= length line)%nat ->
  streq_loop (p + Z.of_nat k) b s = Ret (bool_decide (drop k line = b)) s.
Proof.
  intros Hb. revert k. induction Hb as [|cb b Hcb _ IH]; intros k Hk; cbn [streq_loop].
  - destruct (decide (k = length line)) as [->|Hne].
    + rewrite (bind_Ret _ _ _ _ _ (line_byte (length line) 0 ltac:(by rewrite lookup_app_r, Nat.sub_diag by lia))).
      rewrite drop_ge by lia. done.
    + destruct (lookup_lt_is_Some_2 line k ltac:(lia)) as [c Hc].
      rewrite (bind_Ret _ _ _ _ _ (line_byte k c ltac:(by apply lookup_app_l_Some))).
      rewrite (drop_S _ _ _ Hc), bool_decide_false by done. destruct (Forall_lookup_1 _ _ _ _ Hchars Hc) as [? Hz].
      unfold ret. f_equal. apply Z.eqb_neq. rewrite (u8_char c 0) by lia. done.
  - destruct (decide (k = length line)) as [->|Hne].
    + rewrite (bind_Ret _ _ _ _ _ (line_byte (length line) 0 ltac:(by rewrite lookup_app_r, Nat.sub_diag by lia))).
      rewrite drop_ge by lia. done.
    + destruct (lookup_lt_is_Some_2 line k ltac:(lia)) as [c Hc].
      rewrite (bind_Ret _ _ _ _ _ (line_byte k c ltac:(by apply lookup_app_l_Some))).
      rewrite (drop_S _ _ _ Hc). destruct (Forall_lookup_1 _ _ _ _ Hchars Hc) as [? Hz].
      rewrite (proj2 (Z.eqb_neq (u8 c) 0)) by (rewrite (u8_char c 0) by lia; done).
      destruct (Z.eqb_spec (u8 c) cb) as [E|E]; rewrite (u8_char c cb) in E by lia.
      * subst cb. replace (p + Z.of_nat k + 1) with (p + Z.of_nat (S k)) by lia. rewrite IH by lia. f_equal.
        apply bool_decide_ext. split; [by intros ->|by intros [= ->]].
      * rewrite bool_decide_false by (by intros [= ? _]). done.
Qed.

Lemma literal_ok (b : string) : forallb (fun c => (0 <? c) && (c <? 128)) (chars b) = true -> Forall (fun c => 0 < c < 128) (chars b).
Proof.
  intros Hb. apply List.Forall_forall. intros x Hx. eapply List.forallb_forall in Hb; [|done].
  apply andb_true_iff in Hb as [?%Z.ltb_lt ?%Z.ltb_lt]. lia.
Qed.

Lemma shell_streq_spec (b : string) :
  p <> 0 -> forallb (fun c => (0 <? c) && (c <? 128)) (chars b) = true -> shell_streq p b s = Ret (bool_decide (line = chars b)) s.
Proof.
  intros Hp Hb. unfold shell_streq. rewrite (proj2 (Z.eqb_neq _ _) Hp).
  pose proof (streq_loop_spec (chars b) 0 (literal_ok b Hb) ltac:(lia)) as E. by rewrite Z.add_0_r, drop_0 in E.
Qed.

(** The reaction of the parser to the line, as an outcome. *)
Context {HC : ShellCommands H}.

Definition reacts (r : reaction) (o : outcome sh unit) : Prop :=
  match r with
  | Nothing => o = Ret tt s
  | Run c => o = call c s
  | Uname => exists s', o = Ret tt s' /\ typed uname_text s s'
  | Halted => exists s', o = Hang s' /\ typed (chars "Halting System...") s s'
  | Unknown => exists s', o = Ret tt s' /\ typed (chars "unknown command" ++ [10]) s s'
  end.

Ltac parse_step b Hp := rewrite (bind_Ret _ _ _ _ _ (shell_streq_spec b Hp eq_refl));
  case_bool_decide; [rewrite decide_True by done; reflexivity|rewrite decide_False by done].

Lemma cmd_parser_spec : p <> 0 -> screen (scon s) -> reacts (dispatch line) (cmd_parser clock (S depth) p s).
Proof.
  intros Hp Hs. unfold cmd_parser, dispatch. rewrite (proj2 (Z.eqb_neq _ _) Hp).
  destruct (decide (line = [])) as [El|Hne].
  { assert (E : on_heap (heap_ld8 p) s = Ret 0 s).
    { rewrite <- (Z.add_0_r p). apply (line_byte 0 0). by rewrite El. }
    by rewrite (bind_Ret _ _ _ _ _ E). }
  assert (exists c0, line !! 0%nat = Some c0) as [c0 Hc0] by (destruct line; [done|by eexists]).
  assert (E : on_heap (heap_ld8 p) s = Ret (u8 c0) s).
  { rewrite <- (Z.add_0_r p). apply (line_byte 0 c0). by apply lookup_app_l_Some. }
  destruct (Forall_lookup_1 _ _ _ _ Hchars Hc0) as [? Hz]. rewrite (bind_Ret _ _ _ _ _ E).
  rewrite (proj2 (Z.eqb_neq (u8 c0) 0)) by (rewrite (u8_char c0 0) by lia; done).
  parse_step "time" Hp. parse_step "time -d" Hp. parse_step "memtest" Hp. rewrite bind_assoc.
  rewrite (bind_Ret _ _ _ _ _ (shell_streq_spec "halt" Hp eq_refl)).
  assert (Hhalt : reacts Halted ((do! print_s clock (S depth) (chars "Halting System...") in halt) s)).
  { destruct (print_text clock depth (cstr "%s") [Str (chars "Halting System..." ++ [0])] 17 (chars "Halting System...") s) as (s' & Ep & Ht);
      [repeat constructor|vm_compute; reflexivity|reflexivity|exact Hs|]. exists s'. split; [|exact Ht].
    by rewrite (bind_Ret _ _ _ _ _ Ep). }
  assert (Hstop : forall k, reacts Halted (bind (when true (do! print_s clock (S depth) (chars "Halting System...") in halt)) k s)).
  { intros k. destruct Hhalt as (s' & Eh & Ht). exists s'. split; [|done]. by apply bind_hang. }
  destruct (decide (line = chars "halt")) as [Eh|Eh1]; [|rewrite bool_decide_false by done].
  { rewrite bool_decide_true, decide_True by auto. apply Hstop. }
  rewrite (bind_Ret _ _ _ _ _ (shell_streq_spec "Halt" Hp eq_refl)).
  destruct (decide (line = chars "Halt")) as [Eh|Eh2]; [|rewrite bool_decide_false by done].
  { rewrite bool_decide_true, decide_True by auto. apply Hstop. }
  rewrite decide_False by tauto. rewrite (bind_Ret _ _ _ tt s) by done.
  parse_step "soak" Hp. rewrite (bind_Ret _ _ _ _ _ (shell_streq_spec "uname" Hp eq_refl)).
  case_bool_decide; [rewrite decide_True by done; by apply uname_typed|rewrite decide_False by done].
  parse_step "cpuid" Hp. eapply (print_text clock depth); [repeat constructor|vm_compute; reflexivity|reflexivity|exact Hs].
Qed.
End parse.

Lemma edited_chars ks line out : Forall key_ok ks -> Forall line_char line -> Forall line_char (edited ks line out).1.
Proof.
  intros Hks. revert line out. induction Hks as [|k ks [Hk _] _ IH]; intros line out Hl; [done|].
  change (edited (k :: ks) line out) with (foldl edit (edit (line, out) k) ks). unfold edit.
  destruct (Z.eqb_spec k 0); [by apply IH|]. destruct (Z.eqb_spec k 8).
  - destruct line; [by apply IH|]. apply IH. by apply Forall_take.
  - apply IH. apply Forall_app. split; [done|]. constructor; [by split|constructor].
Qed.

Context {HC : ShellCommands H}.

Definition response (r : reaction) : list Z :=
  match r with
  | Nothing | Run _ => []
  | Uname => uname_text
  | Halted => chars "Halting System..."
  | Unknown => chars "unknown command" ++ [10]
  end.

Definition round_cost (k : nat) : Z := kh_cost VSH_CMD_BUFFER_SIZE + grow_cost k VSH_CMD_BUFFER_SIZE.

(** Two outcomes that both stop, in the same way. *)
Definition same_stop {S T A B} (o : outcome S A) (o' : outcome T B) : Prop :=
  match o, o' with
  | Panic m _, Panic m' _ => m = m'
  | Fault a _, Fault a' _ => a = a'
  | Hang _, Hang _ => True
  | _, _ => False
  end.

(** How a round goes on from [s1], where the line has been read into the payload [q]
    of a heap that has the payloads [A] besides.  A routine that returns with [q] still
    a payload decides what else the heap holds. *)
Definition answered (s1 : sh (H := H)) (n : Z) (A : gmap Z (list Z)) (q : Z) (r : reaction) (o : outcome sh unit) : Prop :=
  match r with
  | Run c =>
      match run c (sheap s1, scon s1) with
      | Ret _ (h2, k2) => forall n2 A2 us2, kh_rep h2 n2 (<[q := us2]> A2) -> A2 !! q = None ->
          exists s', o = Ret tt s' /\ kh_rep (sheap s') n2 A2 /\ keys s' = keys s1 /\ calls s' = calls s1 ++ [c] /\ scon s' = k2
      | stop => same_stop stop o
      end
  | Halted => exists s', o = Hang s' /\ typed (response Halted) s1 s'
  | _ => exists s', o = Ret tt s' /\ kh_rep (sheap s') n A /\ keys s' = keys s1 /\ calls s' = calls s1 /\ screen (scon s') /\
      shown (scon s') = shown (scon s1) ++ response r
  end.

(** Prompt and line: the state in which the command is parsed. *)
Lemma round_prompt ks s n A nl rest :
  Forall key_ok ks -> keys s = ks ++ nl :: rest -> line_end nl -> kh_rep (sheap s) n A -> screen (scon s) ->
  VSH_CMD_BUFFER_SIZE * Z.of_nat (S (length ks)) <= 2 ^ 32 -> round_cost (length ks) <= n ->
  exists q us n' s1, vsh_round clock (S depth) yield s =
      (do! (do! cmd_parser clock (S depth) q in on_heap (kh_free q)) in schedule_ yield) s1 /\
    kh_rep (sheap s1) n' (<[q := us]> A) /\ A !! q = None /\ q <> 0 /\ holds us ((edited ks [] []).1 ++ [0]) /\
    n - round_cost (length ks) <= n' /\ keys s1 = rest /\ calls s1 = calls s /\ screen (scon s1) /\
    shown (scon s1) = shown (scon s) ++ chars ":> " ++ (edited ks [] []).2 ++ [10].
Proof.
  intros Hks Hk Hnl Hr Hs Hmax Hn. unfold round_cost in *.
  destruct (print_text clock depth (cstr "%s") [Str (chars ":> " ++ [0])] 3 (chars ":> ") s) as (s0 & E0 & Eh & Ek & Ec & Hs0 & Hw0);
    [repeat constructor|vm_compute; reflexivity|reflexivity|exact Hs|].
  rewrite <- Eh in Hr. rewrite <- Ek in Hk.
  destruct (vsh_readline_spec ks s0 n A nl rest Hks Hk Hnl Hr Hs0 Hmax Hn) as (q & s1 & E1 & us & n' & Hr1 & Hf & Hq & Hh & Hk1 & Hc1 & Hs1 & Hw1 & Hn1).
  exists q, us, n', s1. split.
  { unfold vsh_round. rewrite (bind_Ret _ _ _ _ _ E0), (bind_Ret _ _ _ _ _ E1), (proj2 (Z.eqb_neq _ _) Hq). done. }
  split_and!; try done; [lia|congruence|]. by rewrite Hw1, Hw0, !app_assoc.
Qed.

(** The buffer is given back and the other tasks run. *)
Lemma round_end (c : K sh unit) (s1 s2 : sh (H := H)) n A q us :
  c s1 = Ret tt s2 -> kh_rep (sheap s2) n (<[q := us]> A) -> A !! q = None ->
  exists s', (do! (do! c in on_heap (kh_free q)) in schedule_ yield) s1 = Ret tt s' /\ kh_rep (sheap s') n A /\
    keys s' = keys s2 /\ calls s' = calls s2 /\ scon s' = scon s2.
Proof.
  intros E2 Hr2 Hf. destruct (kh_free_law _ _ _ _ _ Hr2 (lookup_insert_eq _ _ _)) as (h3 & E3 & Hr3). rewrite delete_insert_id in Hr3 by done.
  destruct (yield_ok _ _ _ Hr3) as (h4 & E4 & Hr4). exists (set_sheap h4 (set_sheap h3 s2)). split; [|done].
  rewrite bind_assoc, (bind_Ret _ _ _ _ _ E2), (bind_Ret _ _ _ _ _ (on_heap_eq _ s2 _ _ E3)). exact (on_heap_eq _ (set_sheap h3 s2) _ _ E4).
Qed.

Lemma round_answered (s1 : sh (H := H)) n A q us r (c : K sh unit) :
  kh_rep (sheap s1) n (<[q := us]> A) -> A !! q = None -> screen (scon s1) -> reacts s1 r (c s1) ->
  answered s1 n A q r ((do! (do! c in on_heap (kh_free q)) in schedule_ yield) s1).
Proof.
  intros Hr Hf Hs Hre.
  assert (Htext : forall s2 t, c s1 = Ret tt s2 -> typed t s1 s2 -> exists s', (do! (do! c in on_heap (kh_free q)) in schedule_ yield) s1 = Ret tt s' /\
    kh_rep (sheap s') n A /\ keys s' = keys s1 /\ calls s' = calls s1 /\ screen (scon s') /\ shown (scon s') = shown (scon s1) ++ t).
  { intros s2 t E (Eh & Ek & Ec & Hs2 & Hw). rewrite <- Eh in Hr. destruct (round_end c s1 s2 n A q us E Hr Hf) as (s' & E' & Hr' & Hk & Hc & Hcon).
    exists s'. rewrite Hcon. split_and!; congruence || done. }
  destruct r as [|cmd| | |]; cbn [reacts answered response] in *.
  - apply (Htext s1); [done|]. unfold typed. by rewrite app_nil_r.
  - unfold call in Hre. rewrite bind_modify in Hre. unfold zoom in Hre. cbn [sheap scon set_calls] in Hre.
    destruct (run cmd (sheap s1, scon s1)) as [[] [h2 k2]|m [h2 k2]|a [h2 k2]|[h2 k2]] eqn:Er.
    2-4: unfold bind; rewrite Hre; done.
    intros n2 A2 us2 Hr2 Hf2. destruct (round_end c s1 _ n2 A2 q us2 Hre Hr2 Hf2) as (s' & E' & Hr' & Hk & Hc & Hcon).
    exists s'. rewrite Hk, Hc, Hcon. done.
  - destruct Hre as (s2 & E & Ht). by apply (Htext s2).
  - destruct Hre as (s2 & E & Ht). exists s2. split; [|done]. unfold bind. by rewrite E.
  - destruct Hre as (s2 & E & Ht). by apply (Htext s2).
Qed.

Lemma vsh_round_spec ks s n A nl rest :
  Forall key_ok ks -> keys s = ks ++ nl :: rest -> line_end nl -> kh_rep (sheap s) n A -> screen (scon s) ->
  VSH_CMD_BUFFER_SIZE * Z.of_nat (S (length ks)) <= 2 ^ 32 -> round_cost (length ks) <= n ->
  exists s1 q us n1, kh_rep (sheap s1) n1 (<[q := us]> A) /\ A !! q = None /\ holds us ((edited ks [] []).1 ++ [0]) /\
    n - round_cost (length ks) <= n1 /\ keys s1 = rest /\ calls s1 = calls s /\ screen (scon s1) /\
    shown (scon s1) = shown (scon s) ++ chars ":> " ++ (edited ks [] []).2 ++ [10] /\
    answered s1 n1 A q (dispatch (edited ks [] []).1) (vsh_round clock (S depth) yield s).
Proof.
  intros Hks Hk Hnl Hr Hs Hmax Hn.
  destruct (round_prompt ks s n A nl rest Hks Hk Hnl Hr Hs Hmax Hn) as (q & us & n' & s1 & -> & Hr1 & Hf & Hq & Hh & Hn1 & Hk1 & Hc1 & Hs1 & Hw1).
  exists s1, q, us, n'. split_and!; try done. apply (round_answered s1 n' A q us _ _ Hr1 Hf Hs1).
  exact (cmd_parser_spec s1 n' _ q us _ Hr1 (lookup_insert_eq _ _ _) Hh (edited_chars ks [] [] Hks ltac:(constructor)) Hq Hs1).
Qed.
End readline.

(** * Properties *)

(** [vsh_readline] reads what was typed.  For any keys up to a line end,
    with empty polls in between and rub-outs among them, and with other tasks
    running at each empty poll, it returns a fresh live buffer holding the edited
    line and its terminator, growing the buffer as needed, echoes every key, and
    leaves every other payload alone. *)
Theorem vsh_readline_correct {H} `{KernelHeapLaws H} clock depth (yield : K H unit) ks s n A nl rest :
  (forall h n A, kh_rep h n A -> exists h', yield h = Ret tt h' /\ kh_rep h' n A) ->
  Forall key_ok ks -> keys s = ks ++ nl :: rest -> line_end nl -> kh_rep (sheap s) n A -> screen (scon s) ->
  VSH_CMD_BUFFER_SIZE * Z.of_nat (S (length ks)) <= 2 ^ 32 -> round_cost (length ks) <= n ->
  exists q us n' s', vsh_readline clock (S depth) yield s = Ret q s' /\
    kh_rep (sheap s') n' (<[q := us]> A) /\ A !! q = None /\ q <> 0 /\
    holds us ((edited ks [] []).1 ++ [0]) /\ keys s' = rest /\
    shown (scon s') = shown (scon s) ++ (edited ks [] []).2 ++ [10].
Proof.
  intros Hy Hks Hk Hnl Hr Hs Hmax Hn.
  destruct (vsh_readline_spec clock depth yield Hy ks s n A nl rest Hks Hk Hnl Hr Hs Hmax Hn)
    as (q & s' & E & us & n' & Hr' & Hf & Hq & Hh & Hk' & _ & _ & Hw & _).
  by exists q, us, n', s'.
Qed.

(** C28. One round of the shell loop on any typed line, with other tasks that leave the
    heap as it is: prompt and echo are shown, and the line is in a fresh payload when it
    is parsed.  A line of the command table runs its routine there: if the routine
    returns with the line still a payload, whatever else it allocated or freed, the
    round returns with exactly the heap it left less the line, and the console as it
    left it; if it stops, the round stops the same way.  [halt] and [Halt] stop the
    machine behind their message; [uname], an unknown command and an empty line are
    answered and the heap has the payloads it had before. *)
Theorem vsh_round_correct {H} `{KernelHeapLaws H} `{ShellCommands H} clock depth (yield : K H unit) ks s n A nl rest :
  (forall h n A, kh_rep h n A -> exists h', yield h = Ret tt h' /\ kh_rep h' n A) ->
  Forall key_ok ks -> keys s = ks ++ nl :: rest -> line_end nl -> kh_rep (sheap s) n A -> screen (scon s) ->
  VSH_CMD_BUFFER_SIZE * Z.of_nat (S (length ks)) <= 2 ^ 32 -> round_cost (length ks) <= n ->
  exists s1 q us n1, kh_rep (sheap s1) n1 (<[q := us]> A) /\ A !! q = None /\ holds us ((edited ks [] []).1 ++ [0]) /\
    n - round_cost (length ks) <= n1 /\ keys s1 = rest /\ calls s1 = calls s /\ screen (scon s1) /\
    shown (scon s1) = shown (scon s) ++ chars ":> " ++ (edited ks [] []).2 ++ [10] /\
    answered s1 n1 A q (dispatch (edited ks [] []).1) (vsh_round clock (S depth) yield s).
Proof. intros. by eapply vsh_round_spec. Qed.

(** * Witnesses: the shell on the kernel heap *)
Section witnesses.
Import KmallocSpec TableBacking.

(** "tix", an empty poll, rub out, "me", Enter. *)
Definition typed_keys : list Z := chars "tix" ++ [0; 8] ++ chars "me".
Definition desk : sh (H := kheap tb) := Sh heap0 (Con 0 0 0 1 0 0 (replicate 256 0) 0 []) (typed_keys ++ [10]) [].

Lemma desk_rep : kh_rep (sheap desk) 2000 ∅.
Proof.
  split; [exact heap0_rep|]. split; [vm_compute; discriminate|]. split; [vm_compute; discriminate|exact window_all].
Qed.

Lemma desk_screen : screen (scon desk).
Proof. split; [done|]. split; [done|]. split; [done|by left]. Qed.

Lemma typed_ok : Forall key_ok typed_keys.
Proof.
  apply List.Forall_forall. intros k Hk. assert (Hb : forallb (fun k => (-128 <=? k) && (k <? 128) && negb ((k =? 10) || (k =? 13))) typed_keys = true) by done.
  eapply List.forallb_forall in Hb; [|exact Hk]. unfold key_ok, line_end. lia.
Qed.

Lemma desk_cost : round_cost (HL := kmalloc_heap_laws (HL := tb_laws)) (length typed_keys) <= 2000.
Proof. vm_compute. discriminate. Qed.

Lemma vsh_readline_correct_witness :
  exists q us s', vsh_readline (fun _ => 0) 1 (ret tt) desk = Ret q s' /\ holds us (chars "time" ++ [0]) /\
    shown (scon s') = chars "tix" ++ [8; 32; 8] ++ chars "me" ++ [10].
Proof.
  destruct (vsh_readline_correct (fun _ => 0) 0 (ret tt) typed_keys desk 2000 ∅ 10 []) as (q & us & n' & s' & E & _ & _ & _ & Hh & _ & Hw).
  - intros h n A Hr. exists h. split; [reflexivity|exact Hr].
  - exact typed_ok.
  - reflexivity.
  - left. reflexivity.
  - exact desk_rep.
  - exact desk_screen.
  - vm_compute. discriminate.
  - exact desk_cost.
  - exists q, us, s'. split; [exact E|]. split; [exact Hh|exact Hw].
Defined.

End witnesses.
End ShellSpec.
