(* ===== verification/ConsoleInput.v ===== *)
(** From the keyboard interrupt to the command line: the driver of [Keyboard] and
    the line reader of [Shell] put together. *)
From Stdlib Require Import Ascii.
From S2P Require Import Prelude Numeral CString CStringSpec Printf PrintfSpec Putchar PutcharSpec Pic Keyboard KeyboardSpec Kmalloc KmallocSpec KHeap HeapBytes Shell ShellSpec.

Module ConsoleInput.
Import PutcharSpec KeyboardSpec ShellSpec.

(** What the calls of [kbd_pop] in a run return. *)
Definition polled (ls : list label) : list Z :=
  omap (fun l => match l with LPop c => Some c | LEmpty => Some 0 | _ => None end) ls.

Definition real_keys (ks : list Z) : list Z := filter (fun k => k <> 0) ks.

Lemma polled_length ls : (length (polled ls) <= length ls)%nat.
Proof. unfold polled. induction ls as [|[c|c| |] ls IH]; cbn; lia. Qed.

Lemma polled_taken ls : Forall key_char (taken ls) -> real_keys (polled ls) = taken ls.
Proof.
  induction ls as [|l ls IH]; [done|]. destruct l as [c|c| |]; try done; intros Hf.
  change (taken (LPop c :: ls)) with (c :: taken ls) in *. change (polled (LPop c :: ls)) with (c :: polled ls).
  apply Forall_cons in Hf as [Hc Hf]. unfold real_keys. rewrite filter_cons_True by (unfold key_char in Hc; lia).
  f_equal. by apply IH.
Qed.

(** Without rub-outs the editor keeps every key. *)
Lemma edited_plain ks line out :
  Forall (fun k => k = 0 \/ key_char k) ks -> edited ks line out = (line ++ real_keys ks, out ++ real_keys ks).
Proof.
  intros Hks. revert line out. induction Hks as [|k ks Hk _ IH]; intros line out; [cbn; by rewrite !app_nil_r|].
  change (edited (k :: ks) line out) with (foldl edit (edit (line, out) k) ks). unfold real_keys.
  destruct (decide (k = 0)) as [->|Hz].
  - rewrite filter_cons_False by (intros H; by apply H). exact (IH line out).
  - rewrite filter_cons_True by done. assert (He : edit (line, out) k = (line ++ [k], out ++ [k])).
    { unfold edit. rewrite (proj2 (Z.eqb_neq k 0) Hz). by rewrite (proj2 (Z.eqb_neq k 8)) by (unfold key_char in Hk; lia). }
    rewrite He. transitivity ((line ++ [k]) ++ real_keys ks, (out ++ [k]) ++ real_keys ks); [exact (IH _ _)|].
    by rewrite <- !app_assoc.
Qed.

(** The polls up to the one that returned the newline. *)
Lemma split_line ks line :
  real_keys ks = line ++ [10] -> 10 ∉ line -> exists ks1 rest, ks = ks1 ++ 10 :: rest /\ real_keys ks1 = line /\ 10 ∉ ks1.
Proof.
  revert line. induction ks as [|k ks IH]; intros line Hr Hn; [by destruct line|].
  unfold real_keys in Hr. destruct (decide (k = 0)) as [->|Hz].
  - rewrite filter_cons_False in Hr by (intros H; by apply H). destruct (IH line Hr Hn) as (ks1 & rest & -> & E & Hk).
    exists (0 :: ks1), rest. split; [done|]. split; [|set_solver]. unfold real_keys in *. by rewrite filter_cons_False by (intros H; by apply H).
  - rewrite filter_cons_True in Hr by done. destruct line as [|c line]; injection Hr as -> Hr.
    + exists [], ks. split; [done|]. split; [done|set_solver].
    + destruct (IH line Hr ltac:(set_solver)) as (ks1 & rest & -> & E & Hk). exists (c :: ks1), rest.
      split; [done|]. split; [|set_solver]. unfold real_keys in *. by rewrite filter_cons_True, E.
Qed.

Lemma polled_keys ls : Forall key_char (taken ls) -> Forall (fun k => k = 0 \/ key_char k) (polled ls).
Proof.
  induction ls as [|[c|c| |] ls IH]; cbn; try done; intros Hf.
  - apply Forall_cons in Hf as [Hc Hf]. constructor; [by right|by apply IH].
  - constructor; [by left|by apply IH].
Qed.

(** * Property *)

(** C27. End to end: take any interleaving of keyboard interrupts with the polls
    of the shell, from an empty ring to an empty ring, in which the driver
    accepted a line and Enter.  [vsh_readline], given the results of those polls,
    returns a buffer with exactly that line and has echoed it. *)
Theorem keyboard_to_shell {H} `{KernelHeapLaws H} clock depth dev (yield : K H unit) kb ls kb' line (s : sh (H := H)) n A :
  (forall h n A, kh_rep h n A -> exists h', yield h = Ret tt h' /\ kh_rep h' n A) ->
  ready kb -> queue kb = [] -> ksteps clock (S depth) dev (kb, Idle) ls (kb', Idle) -> queue kb' = [] ->
  accepted [] ls = line ++ [10] -> 10 ∉ line ->
  keys s = polled ls -> kh_rep (sheap s) n A -> screen (scon s) ->
  VSH_CMD_BUFFER_SIZE * Z.of_nat (length ls) <= 2 ^ 32 -> (forall k, (k <= length ls)%nat -> round_cost k <= n) ->
  exists q us n' s', vsh_readline clock (S depth) yield s = Ret q s' /\ kh_rep (sheap s') n' (<[q := us]> A) /\
    A !! q = None /\ q <> 0 /\ holds us (line ++ [0]) /\ shown (scon s') = shown (scon s) ++ line ++ [10].
Proof.
  intros Hy Hkb Hq Hks Hq' Hacc Hn Hk Hr Hs Hmax Hcost.
  assert (Hm : machine_ok (kb, Idle)) by (by split).
  destruct (ksteps_simulate clock (S depth) dev ltac:(lia) _ _ _ Hm Hks) as [_ Hsim]. cbn [fst] in Hsim.
  apply qsteps_fifo in Hsim. rewrite Hq, Hq', Hacc, app_nil_r in Hsim. cbn in Hsim.
  assert (Hch : Forall key_char (taken ls)).
  { pose proof (ksteps_key_chars clock (S depth) dev ltac:(lia) _ _ _ Hks Hm) as Hc. cbn [fst] in Hc. rewrite Hq, Hq', app_nil_r in Hc. by apply Hc. }
  pose proof (polled_taken ls Hch) as Hp. rewrite <- Hsim in Hp.
  destruct (split_line _ _ Hp Hn) as (ks1 & rest & Epoll & Ereal & Hn1).
  pose proof (polled_keys ls Hch) as Hpk. rewrite Epoll in Hpk. apply Forall_app in Hpk as [Hpk _].
  assert (Hlen : (S (length ks1) <= length ls)%nat).
  { transitivity (length (polled ls)); [rewrite Epoll, length_app; simpl; lia|apply polled_length]. }
  destruct (vsh_readline_spec clock depth yield Hy ks1 s n A 10 rest) as (q & s' & E & us & n' & Hr' & Hf & Hq0 & Hh & _ & _ & _ & Hw & _).
  - apply List.Forall_forall. intros k Hin%list_elem_of_In. pose proof (Forall_elem _ _ _ Hpk Hin) as Hkk. cbn in Hkk.
    split; [unfold key_char in Hkk; lia|]. intros [->| ->]; [done|unfold key_char in Hkk; lia].
  - by rewrite Hk.
  - by left.
  - done.
  - done.
  - unfold VSH_CMD_BUFFER_SIZE in *. lia.
  - apply Hcost. lia.
  - rewrite (edited_plain ks1 [] [] Hpk) in Hh, Hw. cbn [fst snd app] in Hh, Hw. rewrite Ereal in Hh, Hw. by exists q, us, n', s'.
Qed.

(** * Witness: H and Enter are typed while the shell polls *)
Section witness.
Import KmallocSpec TableBacking.

Lemma typing_run : exists kb' ls, ksteps (fun _ => 0) 1 two_keys (kbd0, Idle) ls (kb', Idle) /\ queue kb' = [] /\
  accepted [] ls = [104] ++ [10] /\ polled ls = [0; 104; 10] /\ length ls = 9%nat.
Proof.
  eexists _, [LEmpty; LIrq (Some 104); LTau; LIrq (Some 10); LTau; LPop 104; LTau; LTau; LPop 10]. split.
  - eapply ksteps_cons. { apply step_empty. vm_compute. reflexivity. }
    eapply ksteps_cons. { refine (step_irq _ _ _ kbd0 _ Idle _). vm_compute. reflexivity. }
    eapply ksteps_cons. { apply step_check. vm_compute. reflexivity. }
    eapply ksteps_cons. { refine (step_irq _ _ _ _ _ Checked _). vm_compute. reflexivity. }
    eapply ksteps_cons. { apply (step_load _ _ _ _ 104). vm_compute. reflexivity. }
    eapply ksteps_cons. { apply step_advance. }
    eapply ksteps_cons. { apply step_check. vm_compute. reflexivity. }
    eapply ksteps_cons. { apply (step_load _ _ _ _ 10). vm_compute. reflexivity. }
    eapply ksteps_cons. { apply step_advance. } constructor.
  - split; [vm_compute; reflexivity|]. split; [vm_compute; reflexivity|]. split; reflexivity.
Qed.

Definition prompt : sh (H := kheap tb) := Sh heap0 (Con 0 0 0 1 0 0 (replicate 256 0) 0 []) [0; 104; 10] [].

Lemma prompt_cost k : (k <= 9)%nat -> round_cost (HL := kmalloc_heap_laws (HL := tb_laws)) k <= 2000.
Proof. intros Hk. do 10 (destruct k as [|k]; [vm_compute; discriminate|]). lia. Qed.

Lemma keyboard_to_shell_witness :
  exists q us s', vsh_readline (fun _ => 0) 1 (ret tt) prompt = Ret q s' /\ holds us ([104] ++ [0]) /\ shown (scon s') = [104; 10].
Proof.
  destruct typing_run as (kb' & ls & Hks & Hq' & Hacc & Hp & Hlen).
  destruct (keyboard_to_shell (fun _ => 0) 0 two_keys (ret tt) kbd0 ls kb' [104] prompt 2000 ∅) as (q & us & n' & s' & E & _ & _ & _ & Hh & Hw).
  - intros h n A Hr. exists h. split; [reflexivity|exact Hr].
  - exact kbd0_ready.
  - reflexivity.
  - exact Hks.
  - exact Hq'.
  - exact Hacc.
  - set_solver.
  - rewrite Hp. reflexivity.
  - split; [exact heap0_rep|]. split; [vm_compute; discriminate|]. split; [vm_compute; discriminate|exact window_all].
  - split; [reflexivity|]. split; [reflexivity|]. split; [discriminate|left; reflexivity].
  - rewrite Hlen. vm_compute. discriminate.
  - rewrite Hlen. exact prompt_cost.
  - exists q, us, s'. split; [exact E|]. split; [exact Hh|exact Hw].
Defined.
End witness.
End ConsoleInput.
