(* ===== verification/Vector.v ===== *)
(** The growable arrays of [src/src/include/lib/vector.h].

    The macros work on any structure with the three fields; here [vget] and [vset]
    reach the structure in the state [S], [hget] and [hset] the heap it allocates
    from ([KHeap]).  A vector of 8-byte elements refines a list. *)
From S2P Require Import Prelude KHeap.

Record vec : Type := Vec { v_data : Z; v_length : Z; v_capacity : Z }.
Definition VECTOR_INIT : vec := Vec 0 0 0.
Definition VECTOR_INVALID_INDEX : Z := u64 (-1).

Section vector.
Context {H S : Type} `{KernelHeap H}.
Variables (vget : S -> vec) (vset : vec -> S -> S) (hget : S -> H) (hset : H -> S -> S).

Definition vheap {A} (c : K H A) : K S A := zoom hget hset c.

Definition VECTOR_ENSURE_LENGTH (len : Z) : K S unit :=
  let! s := get in
  let v := vget s in
  when (len >=? v_capacity v)
    (let cap := if v_capacity v =? 0 then 8 else u64 (v_capacity v * 2) in
     do! modify (vset (Vec (v_data v) (v_length v) cap)) in
     let! d := vheap (kh_realloc (v_data v) (u64 (cap * 8))) in
     modify (fun s => vset (Vec d (v_length (vget s)) (v_capacity (vget s))) s)).

Definition VECTOR_PUSH_BACK (x : Z) : K S Z :=
  let! s := get in
  do! VECTOR_ENSURE_LENGTH (v_length (vget s)) in
  let! s := get in
  let v := vget s in
  do! modify (vset (Vec (v_data v) (u64 (v_length v + 1)) (v_capacity v))) in
  do! vheap (kh_store (v_data v + 8 * v_length v) x) in
  let! s := get in
  ret (u64 (v_length (vget s) - 1)).

Definition VECTOR_ITEM (i : Z) : K S Z :=
  let! s := get in
  if i <? v_length (vget s) then vheap (kh_load (v_data (vget s) + 8 * i)) else ret VECTOR_INVALID_INDEX.

Definition VECTOR_INSERT (index x : Z) : K S unit :=
  let! s := get in
  do! VECTOR_ENSURE_LENGTH (v_length (vget s)) in
  let! s := get in
  let v := vget s in
  do! for_steps (Z.to_nat (v_length v - index)) (v_length v) (-1) (fun i =>
        let! y := vheap (kh_load (v_data v + 8 * (i - 1))) in
        vheap (kh_store (v_data v + 8 * i) y)) in
  do! modify (vset (Vec (v_data v) (u64 (v_length v + 1)) (v_capacity v))) in
  vheap (kh_store (v_data v + 8 * index) x).
Definition VECTOR_PUSH_FRONT (x : Z) : K S unit := VECTOR_INSERT 0 x.

Definition VECTOR_REMOVE (index : Z) : K S unit :=
  let! s := get in
  let v := vget s in
  do! for_range index (u64 (v_length v - 1)) (fun i =>
        let! y := vheap (kh_load (v_data v + 8 * (i + 1))) in
        vheap (kh_store (v_data v + 8 * i) y)) in
  modify (fun s => vset (Vec (v_data v) (u64 (v_length v - 1)) (v_capacity v)) s).

(** The loop of [VECTOR_FIND], from index [i] with [k] elements to go. *)
Fixpoint find_from (k : nat) (i x : Z) : K S Z :=
  match k with
  | O => ret VECTOR_INVALID_INDEX
  | Datatypes.S k =>
      let! s := get in
      let! y := vheap (kh_load (v_data (vget s) + 8 * i)) in
      if y =? x then ret i else find_from k (i + 1) x
  end.
Definition VECTOR_FIND (x : Z) : K S Z :=
  let! s := get in find_from (Z.to_nat (v_length (vget s))) 0 x.
Definition VECTOR_REMOVE_BY_VALUE (x : Z) : K S unit :=
  let! i := VECTOR_FIND x in VECTOR_REMOVE i.
End vector.

Module VectorSpec.
(** [v] holds the elements [xs] and owns the payloads [B] of the heap. *)
Definition vec_own (v : vec) (xs : list Z) (B : gmap Z (list Z)) : Prop :=
  (v = VECTOR_INIT /\ xs = [] /\ B = ∅) \/
  exists ws, B = {[v_data v := ws]} /\ v_data v <> 0 /\ v_length v = Z.of_nat (length xs) /\
    v_length v <= v_capacity v /\ 0 < v_capacity v <= Z.of_nat (length ws) /\ v_capacity v < 2 ^ 32 /\ xs `prefix_of` ws.

Section laws.
Context {H S : Type} `{HH : KernelHeap H} {HL : KernelHeapLaws H}.
Variables (vget : S -> vec) (vset : vec -> S -> S) (hget : S -> H) (hset : H -> S -> S).
Hypothesis get_vset : forall v s, vget (vset v s) = v.
Hypothesis get_hset : forall h s, hget (hset h s) = h.
Hypothesis v_hset : forall h s, vget (hset h s) = vget s.
Hypothesis h_vset : forall v s, hget (vset v s) = hget s.
Hypothesis vset_vset : forall v w s, vset v (vset w s) = vset v s.
Hypothesis hset_hset : forall h k s, hset h (hset k s) = hset h s.
Hypothesis vset_hset : forall v h s, vset v (hset h s) = hset h (vset v s).
Hypothesis vset_same : forall s, vset (vget s) s = s.
Hypothesis hset_same : forall s, hset (hget s) s = s.
Variable c : Z.
Hypothesis Hcost : forall size, 0 < size <= 2 ^ 20 -> kh_cost size <= c.
Hypothesis Hc : 0 <= c.

(** The part of the state a vector operation may change. *)
Definition moved (s : S) (v : vec) (h : H) : S := hset h (vset v s).

Lemma vec_own_zero v xs B h n R : kh_rep h n (B ∪ R) -> vec_own v xs B -> B !! 0 = None.
Proof.
  intros _ [(_ & _ & ->)|(ws & -> & Hd & _)]; [done|]. by apply lookup_singleton_None.
Qed.

Lemma ensure_ok v xs B R h n (s : S) :
  vget s = v -> hget s = h -> kh_rep h n (B ∪ R) -> B ##ₘ R -> vec_own v xs B -> Z.of_nat (length xs) < 2 ^ 16 -> c <= n ->
  exists v' h' m B', VECTOR_ENSURE_LENGTH vget vset hget hset (v_length v) s = Ret tt (moved s v' h') /\ n - c <= m /\
    kh_rep h' m (B' ∪ R) /\ B' ##ₘ R /\ vec_own v' xs B' /\ v_length v' < v_capacity v'.
Proof.
  intros Hv Hh Hr Hd Ho Hlen Hn. unfold VECTOR_ENSURE_LENGTH. rewrite bind_get. cbv zeta. rewrite Hv.
  destruct (Z.geb_spec (v_length v) (v_capacity v)) as [Hge|Hlt]; cbn [when].
  2:{ exists v, h, n, B. unfold ret. unfold moved. rewrite <- Hv, vset_same, <- Hh, hset_same. split; [done|]. rewrite Hv, Hh. split; [lia|done]. }
  rewrite bind_modify. set (cap := if v_capacity v =? 0 then 8 else u64 (v_capacity v * 2)).
  assert (Hcap : v_length v < cap <= 2 ^ 17 /\ 0 <= v_length v).
  { unfold cap. destruct Ho as [(-> & _ & _)|(ws & _ & _ & El & Hle & Hcap & _)]; [cbn; lia|].
    destruct (Z.eqb_spec (v_capacity v) 0); [lia|]. rewrite wrap_small by lia. lia. }
  rewrite (wrap_small 64 (cap * 8)) by lia. set (s1 := vset (Vec (v_data v) (v_length v) cap) s).
  assert (Hsize : 0 < cap * 8 <= 2 ^ 20) by lia. pose proof (Hcost _ Hsize) as Hk.
  assert (Hre : exists q us h', kh_realloc (v_data v) (cap * 8) h = Ret q h' /\ kh_rep h' (n - kh_cost (cap * 8)) ({[q := us]} ∪ R) /\
    {[q := us]} ##ₘ R /\ cap * 8 <= 8 * Z.of_nat (length us) /\ xs `prefix_of` us).
  { destruct Ho as [(-> & -> & ->)|(ws & -> & Hnz & El & Hle & Hcp & _ & Hpre)].
    - rewrite kh_realloc_null. destruct (kh_malloc_law _ _ _ (cap * 8) Hr) as (q & us & h' & E & Hr' & Hnew & Hl); [lia|lia|].
      exists q, us, h'. split; [exact E|]. rewrite (left_id_L ∅ (∪)) in Hnew. rewrite insert_union_l in Hr'. split; [exact Hr'|]. split; [by apply map_disjoint_singleton_l|].
      split; [lia|apply prefix_nil].
    - rewrite map_disjoint_singleton_l in Hd. assert (Hin : ({[v_data v := ws]} ∪ R) !! v_data v = Some ws) by (apply lookup_union_Some_l, lookup_singleton_eq).
      destruct (kh_realloc_law _ _ _ _ _ (cap * 8) Hr Hin) as (q & us & h' & E & Hr' & Hpre' & Hl & Hq); [lia|lia|].
      exists q, us, h'. split; [exact E|]. rewrite delete_union, delete_singleton_eq, (left_id_L ∅ (∪)), (delete_id R) in Hr' by done.
      assert (HqR : R !! q = None) by (destruct Hq as [->|Hq]; [done|by apply lookup_union_None in Hq as [_ ?]]).
      split; [by rewrite insert_union_singleton_l in Hr'|]. split; [by apply map_disjoint_singleton_l|]. split; [lia|by etrans]. }
  destruct Hre as (q & us & h' & E & Hr' & Hd' & Hl & Hpre). destruct (kh_layout _ _ _ _ us Hr' (lookup_union_Some_l _ _ _ _ (lookup_singleton_eq _ _))) as (_ & Hq0 & _).
  exists (Vec q (v_length v) cap), h', (n - kh_cost (cap * 8)), {[q := us]}. split.
  - rewrite (bind_Ret _ _ _ q (hset h' s1)) by (unfold vheap, zoom; unfold s1; rewrite h_vset, Hh, E; done).
    unfold modify. unfold s1, moved. rewrite v_hset, get_vset. cbn [v_length v_capacity]. by rewrite vset_hset, vset_vset.
  - split; [lia|]. split; [exact Hr'|]. split; [exact Hd'|]. split; [|cbn; lia]. right. exists us. cbn [v_data v_length v_capacity]. split_and!; try done; try lia.
    destruct Ho as [(-> & -> & _)|(ws & _ & _ & El & _)]; [done|done].
Qed.

(** [VECTOR_PUSH_BACK] appends. *)
Theorem vector_push_back_ok x v xs B R h n (s : S) :
  vget s = v -> hget s = h -> kh_rep h n (B ∪ R) -> B ##ₘ R -> vec_own v xs B -> Z.of_nat (length xs) < 2 ^ 16 -> c <= n ->
  exists v' h' m B', VECTOR_PUSH_BACK vget vset hget hset x s = Ret (Z.of_nat (length xs)) (moved s v' h') /\ n - c <= m /\
    kh_rep h' m (B' ∪ R) /\ B' ##ₘ R /\ vec_own v' (xs ++ [x]) B'.
Proof.
  intros Hv Hh Hr Hd Ho Hlen Hn. unfold VECTOR_PUSH_BACK. rewrite bind_get, Hv.
  destruct (ensure_ok v xs B R h n s Hv Hh Hr Hd Ho Hlen Hn) as (v1 & h1 & m & B1 & E & Hm & Hr1 & Hd1 & Ho1 & Hroom). rewrite (bind_Ret _ _ _ _ _ E), bind_get.
  assert (Hv1 : vget (moved s v1 h1) = v1) by (unfold moved; by rewrite v_hset, get_vset). cbv zeta. rewrite Hv1, bind_modify.
  destruct Ho1 as [(-> & _ & _)|(ws & -> & Hnz & El & Hle & Hcp & Hc32 & Hpre)]; [cbn in Hroom; lia|]. pose proof (prefix_length _ _ Hpre) as Hpl.
  destruct (kh_store_law h1 m _ (v_data v1) ws (length xs) x Hr1 (lookup_union_Some_l _ _ _ _ (lookup_singleton_eq _ _))) as (h2 & E2 & Hr2); [lia|].
  rewrite wrap_small by lia. set (v2 := Vec (v_data v1) (v_length v1 + 1) (v_capacity v1)).
  assert (Hs : vset v2 (moved s v1 h1) = moved s v2 h1) by (unfold moved; by rewrite vset_hset, vset_vset). rewrite Hs.
  rewrite (bind_Ret _ _ _ tt (moved s v2 h2)).
  2:{ unfold vheap, zoom. unfold moved at 1. rewrite get_hset, El, E2. unfold moved. by rewrite hset_hset. }
  rewrite bind_get. unfold moved at 1. rewrite v_hset, get_vset. cbn [v_length v2]. exists v2, h2, m, {[v_data v1 := <[length xs := x]> ws]}.
  split; [unfold ret; rewrite wrap_small by lia; f_equal; lia|]. split; [done|].
  rewrite insert_union_l, insert_singleton_eq in Hr2. split; [exact Hr2|]. rewrite map_disjoint_singleton_l in *. split; [done|].
  right. exists (<[length xs := x]> ws). cbn [v_data v_length v_capacity v2]. rewrite length_insert, length_app. split_and!; try done; try (cbn; lia).
  destruct Hpre as [l ->]. rewrite insert_app_r_alt, Nat.sub_diag by lia. destruct l as [|y l]; [rewrite app_nil_r in *; lia|]. cbn. exists l. by rewrite <- app_assoc.
Qed.

(** [VECTOR_ITEM] is lookup. *)
Theorem vector_item_ok i v xs B R h n (s : S) :
  vget s = v -> hget s = h -> kh_rep h n (B ∪ R) -> vec_own v xs B -> 0 <= i ->
  VECTOR_ITEM vget hget hset i s = Ret (default VECTOR_INVALID_INDEX (xs !! Z.to_nat i)) s.
Proof.
  intros Hv Hh Hr Ho Hi. unfold VECTOR_ITEM. rewrite bind_get, Hv. destruct Ho as [(-> & -> & _)|(ws & -> & _ & El & _ & _ & _ & Hpre)].
  - cbn [v_length VECTOR_INIT]. by rewrite (proj2 (Z.ltb_ge i 0)).
  - rewrite El. destruct (Z.ltb_spec i (Z.of_nat (length xs))) as [Hlt|Hge].
    + destruct (lookup_lt_is_Some_2 xs (Z.to_nat i)) as [x Hx]; [lia|]. rewrite Hx. cbn [default].
      pose proof (kh_load_law h n _ (v_data v) ws (Z.to_nat i) x Hr (lookup_union_Some_l _ _ _ _ (lookup_singleton_eq _ _)) (prefix_lookup_Some _ _ _ _ Hx Hpre)) as E.
      rewrite Z2Nat.id in E by lia. unfold vheap, zoom. rewrite Hh, E. by rewrite <- Hh, hset_same.
    + rewrite (lookup_ge_None_2 xs) by lia. done.
Qed.
End laws.
End VectorSpec.
