(* ===== verification/Time.v ===== *)
(** Timekeeping: [src/src/time.c] and the inline helpers of
    [src/src/include/time.h].

    Software timers live in the kernel heap ([KHeap]); the vector of armed timers
    is the macro vector of [src/src/include/lib/vector.h], its three fields are
    part of the state.  The PIT and the CMOS clock are behind the ports ([Pic]);
    messages go to the console ([Putchar]).  Loops that wait for hardware have
    fuel; running out of it is a [Hang]. *)
From Stdlib Require Import Ascii.
From S2P Require Import Prelude Lock CString Printf Putchar Pic KHeap HeapBytes Vector.

Definition PIT_FREQ : Z := 750.
Definition PIT_DIVIDEND : Z := 1193180.
Definition CURRENT_YEAR : Z := 2026.
Definition CMOS_ADDR : Z := 0x70.
Definition CMOS_DATA : Z := 0x71.

(** * Time values *)
Record timespec : Type := Timespec { tv_sec : Z; tv_nsec : Z }.

Definition timespec_add (a b : timespec) : timespec :=
  let '(s, ns) :=
    if i64 (tv_nsec a + tv_nsec b) >? 999999999 then
      (i64 (tv_sec a + 1), i64 (i64 (tv_nsec a + tv_nsec b) - 1000000000))
    else (tv_sec a, i64 (tv_nsec a + tv_nsec b)) in
  Timespec (i64 (s + tv_sec b)) ns.

Definition timespec_sub (a b : timespec) : timespec :=
  let '(s, ns) :=
    if tv_nsec b >? tv_nsec a then
      let ns := i64 (999999999 + i64 (tv_nsec b - tv_nsec a)) in
      if tv_sec a >? 0 then (i64 (tv_sec a - 1), ns) else (0, 0)
    else (tv_sec a, i64 (tv_nsec a - tv_nsec b)) in
  if tv_sec b >? s then Timespec 0 0 else Timespec (i64 (s - tv_sec b)) ns.

(** [struct timer]: [index] at 0, [fired] at 8, [when] at 16. *)
Definition off_index : Z := 0.
Definition off_fired : Z := 8.
Definition off_when_sec : Z := 16.
Definition off_when_nsec : Z := 24.
Definition sizeof_timer : Z := 32.

Definition weekday : list string := ["Sun"; "Mon"; "Tue"; "Wed"; "Thu"; "Fri"; "Sat"].
Definition month_str : list string :=
  ["Jan"; "Feb"; "Mar"; "Apr"; "May"; "Jun"; "Jul"; "Aug"; "Sep"; "Oct"; "Nov"; "Dec"].

(** Sakamoto's table.  The arithmetic is that of [int], 32 bits wide, each operation
    wrapped; [/] and [%] truncate. *)
Definition sakamoto : list Z := [0; 3; 2; 5; 0; 3; 5; 1; 4; 6; 2; 4].
Definition dayofweek (y m d : Z) : option Z :=
  let y := if m <? 3 then i32 (y - 1) else y in
  match (if 1 <=? m then sakamoto !! Z.to_nat (m - 1) else None) with
  | Some t =>
      let sum := i32 (y + Z.quot y 4) in
      let sum := i32 (sum - Z.quot y 100) in
      let sum := i32 (sum + Z.quot y 400) in
      let sum := i32 (sum + t) in
      Some (Z.rem (i32 (sum + d)) 7)
  | None => None
  end.

Section time.
Context {H : Type} `{KernelHeap H}.

Record clk : Type := Clk {
  second : Z; minute : Z; hour : Z; day : Z; month : Z; year : Z;
  system_timer_ms : Z; system_timer_fractions : Z; pit_ticks : Z;
  timer_fired : bool; task_timer_count : Z;
  time_mono : timespec; time_real : timespec;
  timers_lock : Z;
  vec_data : Z; vec_length : Z; vec_capacity : Z;     (* armed_timers *)
  theap : H; tcon : con; tbus : bus;
}.

Definition set_date (v : Z * Z * Z * Z * Z * Z) (s : clk) : clk :=
  let '(a, b, c, d, e, f) := v in
  Clk a b c d e f (system_timer_ms s) (system_timer_fractions s) (pit_ticks s) (timer_fired s) (task_timer_count s)
    (time_mono s) (time_real s) (timers_lock s) (vec_data s) (vec_length s) (vec_capacity s) (theap s) (tcon s) (tbus s).
Definition set_counts (ms fr pt : Z) (s : clk) : clk :=
  Clk (second s) (minute s) (hour s) (day s) (month s) (year s) ms fr pt (timer_fired s) (task_timer_count s)
    (time_mono s) (time_real s) (timers_lock s) (vec_data s) (vec_length s) (vec_capacity s) (theap s) (tcon s) (tbus s).
Definition set_fired (b : bool) (s : clk) : clk :=
  Clk (second s) (minute s) (hour s) (day s) (month s) (year s) (system_timer_ms s) (system_timer_fractions s) (pit_ticks s) b
    (task_timer_count s) (time_mono s) (time_real s) (timers_lock s) (vec_data s) (vec_length s) (vec_capacity s) (theap s) (tcon s) (tbus s).
Definition set_task_count (v : Z) (s : clk) : clk :=
  Clk (second s) (minute s) (hour s) (day s) (month s) (year s) (system_timer_ms s) (system_timer_fractions s) (pit_ticks s)
    (timer_fired s) v (time_mono s) (time_real s) (timers_lock s) (vec_data s) (vec_length s) (vec_capacity s) (theap s) (tcon s) (tbus s).
Definition set_times (m r : timespec) (s : clk) : clk :=
  Clk (second s) (minute s) (hour s) (day s) (month s) (year s) (system_timer_ms s) (system_timer_fractions s) (pit_ticks s)
    (timer_fired s) (task_timer_count s) m r (timers_lock s) (vec_data s) (vec_length s) (vec_capacity s) (theap s) (tcon s) (tbus s).
Definition set_timers_lock (l : Z) (s : clk) : clk :=
  Clk (second s) (minute s) (hour s) (day s) (month s) (year s) (system_timer_ms s) (system_timer_fractions s) (pit_ticks s)
    (timer_fired s) (task_timer_count s) (time_mono s) (time_real s) l (vec_data s) (vec_length s) (vec_capacity s) (theap s) (tcon s) (tbus s).
Definition set_vec (d l c : Z) (s : clk) : clk :=
  Clk (second s) (minute s) (hour s) (day s) (month s) (year s) (system_timer_ms s) (system_timer_fractions s) (pit_ticks s)
    (timer_fired s) (task_timer_count s) (time_mono s) (time_real s) (timers_lock s) d l c (theap s) (tcon s) (tbus s).
Definition set_theap (h : H) (s : clk) : clk :=
  Clk (second s) (minute s) (hour s) (day s) (month s) (year s) (system_timer_ms s) (system_timer_fractions s) (pit_ticks s)
    (timer_fired s) (task_timer_count s) (time_mono s) (time_real s) (timers_lock s) (vec_data s) (vec_length s) (vec_capacity s) h (tcon s) (tbus s).
Definition set_tcon (c : con) (s : clk) : clk :=
  Clk (second s) (minute s) (hour s) (day s) (month s) (year s) (system_timer_ms s) (system_timer_fractions s) (pit_ticks s)
    (timer_fired s) (task_timer_count s) (time_mono s) (time_real s) (timers_lock s) (vec_data s) (vec_length s) (vec_capacity s) (theap s) c (tbus s).
Definition set_tbus (b : bus) (s : clk) : clk :=
  Clk (second s) (minute s) (hour s) (day s) (month s) (year s) (system_timer_ms s) (system_timer_fractions s) (pit_ticks s)
    (timer_fired s) (task_timer_count s) (time_mono s) (time_real s) (timers_lock s) (vec_data s) (vec_length s) (vec_capacity s) (theap s) (tcon s) b.

Variable clock : list effect -> Z.
Variable depth : nat.
Variable dev : bus -> Z -> Z.

Definition at_heap {A} (c : K H A) : K clk A := zoom theap set_theap c.
Definition at_bus {A} (c : K bus A) : K clk A := zoom tbus set_tbus c.
Definition say (format : list Z) (va : list va_arg) : K clk unit :=
  zoom tcon set_tcon (printf_console (_putchar clock depth) format va).
Definition say_s (s : string) : K clk unit := say (cstr "%s") [Str (cstr s)].
Definition say_line (s : string) : K clk unit := say (chars "%s" ++ [10; 0]) [Str (cstr s)].
Definition say_i (v : Z) : K clk unit := say (cstr "%i") [Word v].

(** * The vector of armed timers ([lib/vector.h]) *)

Definition timer_vector (s : clk) : vec := Vec (vec_data s) (vec_length s) (vec_capacity s).
Definition set_timer_vector (v : vec) : clk -> clk := set_vec (v_data v) (v_length v) (v_capacity v).
Definition vector_push_back (v : Z) : K clk Z := VECTOR_PUSH_BACK timer_vector set_timer_vector theap set_theap v.
Definition vector_item (i : Z) : K clk Z := VECTOR_ITEM timer_vector theap set_theap i.
Definition vector_remove (i : Z) : K clk unit := VECTOR_REMOVE timer_vector set_timer_vector theap set_theap i.

(** * Software timers *)
Definition lock_timers : K clk bool := spinlock_test_and_acq timers_lock set_timers_lock.
Definition unlock_timers : K clk unit := spinlock_release timers_lock set_timers_lock.

Definition timer_arm (timer : Z) : K clk unit :=
  let! _ := lock_timers in
  let! s := get in
  do! at_heap (kh_store (timer + off_index) (vec_length s)) in
  do! at_heap (heap_st8 (timer + off_fired) 0) in
  let! _ := vector_push_back timer in
  unlock_timers.

Definition timer_new (when_ : timespec) : K clk Z :=
  let! timer := at_heap (kh_malloc sizeof_timer) in
  if timer =? 0 then ret 0 else
  do! at_heap (kh_store (timer + off_when_sec) (u64 (tv_sec when_))) in
  do! at_heap (kh_store (timer + off_when_nsec) (u64 (tv_nsec when_))) in
  do! timer_arm timer in
  ret timer.

Definition timer_disarm (timer : Z) : K clk unit :=
  let! _ := lock_timers in
  let! s := get in
  let! index := at_heap (kh_load (timer + off_index)) in
  do! (if (vec_length s =? 0) || (i64 index =? -1) || (index >=? vec_length s) then ret tt else
       let! last := vector_item (u64 (vec_length s - 1)) in
       do! at_heap (kh_store (vec_data s + 8 * index) last) in
       let! moved := vector_item index in
       do! at_heap (kh_store (moved + off_index) index) in
       do! vector_remove (u64 (vec_length s - 1)) in
       at_heap (kh_store (timer + off_index) (u64 (-1)))) in
  unlock_timers.

(** * The PIT *)
Definition pit_get_current_count : K clk Z :=
  do! at_bus (outb 0x43 0x00) in
  let! lo := at_bus (inb dev 0x40) in
  let! hi := at_bus (inb dev 0x40) in
  ret (Z.lor (u16 (Z.shiftl hi 8)) lo).

Definition pit_set_reload_value (new_count : Z) : K clk unit :=
  do! at_bus (outb 0x43 0x34) in
  do! at_bus (outb 0x40 (u8 new_count)) in
  at_bus (outb 0x40 (u8 (Z.shiftr new_count 8))).

(** Division by zero traps. *)
Definition pit_set_frequency (frequency : Z) : K clk unit :=
  if frequency =? 0 then fault 0 else
  let new_divisor := PIT_DIVIDEND / frequency in
  let new_divisor := if PIT_DIVIDEND mod frequency >? frequency / 2 then u64 (new_divisor + 1) else new_divisor in
  pit_set_reload_value (u16 new_divisor).

(** [hlt] lets one interrupt handler run. *)
Definition pit_sleep (fuel : nat) (irq : K clk unit) (ms : Z) : K clk unit :=
  let! s := get in
  let target := u64 (pit_ticks s + ms) in
  (fix wait (fuel : nat) : K clk unit :=
     let! s := get in
     if pit_ticks s <? target then
       match fuel with
       | O => fun s => Hang s
       | S fuel' => do! irq in wait fuel'
       end
     else ret tt) fuel.

Definition interval : timespec := Timespec 0 (1000000000 / PIT_FREQ).

(** One round of the loop over the armed timers. *)
Definition tick_timer (i : Z) : K clk unit :=
  let! timer := vector_item i in
  let! fired := at_heap (heap_ld8 (timer + off_fired)) in
  if negb (fired =? 0) then ret tt else
  let! sec := at_heap (kh_load (timer + off_when_sec)) in
  let! nsec := at_heap (kh_load (timer + off_when_nsec)) in
  let w := timespec_sub (Timespec (i64 sec) (i64 nsec)) interval in
  do! at_heap (kh_store (timer + off_when_sec) (u64 (tv_sec w))) in
  do! at_heap (kh_store (timer + off_when_nsec) (u64 (tv_nsec w))) in
  when ((tv_sec w =? 0) && (tv_nsec w =? 0)) (at_heap (heap_st8 (timer + off_fired) 1)).

Definition count_tick : K clk unit :=
  modify (fun s => set_counts (u64 (system_timer_ms s + 1)) (u64 (system_timer_fractions s + 1)) (pit_ticks s) s).

Definition sys_clock_handler : K clk unit :=
  do! modify (fun s => set_times (timespec_add (time_mono s) interval) (timespec_add (time_real s) interval) s) in
  let! ok := lock_timers in
  do! when ok
    (let! s := get in
     do! for_range 0 (vec_length s) tick_timer in
     unlock_timers) in
  do! modify (set_fired true) in
  do! count_tick in
  modify (fun s => set_counts (system_timer_ms s) (system_timer_fractions s) (u64 (pit_ticks s + 1)) s).

(** [schedule()] is the parameter [resched]; [allow] is [allow_sched]. *)
Definition sys_clock_handler_alt (allow : bool) (resched : K clk unit) : K clk unit :=
  do! modify (set_fired true) in
  do! count_tick in
  when allow resched.

Definition task_switch_handler : K clk unit :=
  do! say_line "Switched!" in modify (set_task_count 0).
Definition delta_int (delta vector : Z) : K clk unit := ret tt.

Definition init_PIT : K clk unit :=
  do! pit_set_frequency PIT_FREQ in
  do! at_bus (pic_unmask_irq dev 0) in
  say_line "PIT Online!".

(** [boot_time] is the answer of the boot loader. *)
Definition time_init (boot_time : Z) : K clk unit :=
  do! modify (fun s => set_times (time_mono s) (Timespec boot_time (tv_nsec (time_real s))) s) in
  init_PIT.

(** * The real-time clock; [century_register] is 0. *)
Definition get_update_flag : K clk Z :=
  do! at_bus (outb CMOS_ADDR 0x0A) in
  let! v := at_bus (inb dev CMOS_DATA) in
  ret (Z.land v 0x80).
Definition get_RTC_register (reg : Z) : K clk Z :=
  do! at_bus (outb CMOS_ADDR reg) in
  at_bus (inb dev CMOS_DATA).

Fixpoint wait_update (fuel : nat) : K clk unit :=
  let! f := get_update_flag in
  if f =? 0 then ret tt else
  match fuel with
  | O => fun s => Hang s
  | S fuel' => wait_update fuel'
  end.

(** One pass over the registers. *)
Definition rtc_pass (fuel : nat) : K clk (Z * Z * Z * Z * Z * Z) :=
  do! wait_update fuel in
  let! a := get_RTC_register 0x00 in
  let! b := get_RTC_register 0x02 in
  let! c := get_RTC_register 0x04 in
  let! d := get_RTC_register 0x07 in
  let! e := get_RTC_register 0x08 in
  let! f := get_RTC_register 0x09 in
  do! modify (set_date (a, b, c, d, e, f)) in
  ret (a, b, c, d, e, f).

Fixpoint rtc_stable (fuel : nat) (last : Z * Z * Z * Z * Z * Z) : K clk (Z * Z * Z * Z * Z * Z) :=
  let! now := rtc_pass fuel in
  if decide (now = last) then ret now else
  match fuel with
  | O => fun s => Hang s
  | S fuel' => rtc_stable fuel' now
  end.

Definition bcd (v : Z) : Z := u8 (Z.land v 0x0F + v / 16 * 10).
Definition bcd_hour (v : Z) : Z := u8 (Z.lor (Z.land v 0x0F + Z.land v 0x70 / 16 * 10) (Z.land v 0x80)).

(** Conversion of the raw registers by the format bits of register B. *)
Definition rtc_decode (registerB : Z) (raw : Z * Z * Z * Z * Z * Z) : Z * Z * Z * Z * Z * Z :=
  let '(a, b, c, d, e, f) := raw in
  let '(a, b, c, d, e, f) :=
    if negb (is_set registerB 0x04) then (bcd a, bcd b, bcd_hour c, bcd d, bcd e, u16 (Z.land f 0x0F + f / 16 * 10))
    else (a, b, c, d, e, f) in
  let c := if negb (is_set registerB 0x02) && is_set c 0x80 then (Z.land c 0x7F + 12) mod 24 else c in
  let f := u16 (f + CURRENT_YEAR / 100 * 100) in
  let f := if f <? CURRENT_YEAR then u16 (f + 100) else f in
  (a, b, c, d, e, f).

Definition read_rtc (fuel : nat) : K clk unit :=
  let! first := rtc_pass fuel in
  let! raw := rtc_stable fuel first in
  let! registerB := get_RTC_register 0x0B in
  modify (set_date (rtc_decode registerB raw)).

(** [weekday[...]] and [month_str[month - 1]] outside the tables fault. *)
Definition name_at (l : list string) (i : Z) : K clk string :=
  match (if 0 <=? i then l !! Z.to_nat i else None) with
  | Some n => ret n
  | None => fault i
  end.

Definition print_date (fuel : nat) : K clk unit :=
  do! read_rtc fuel in
  let! s := get in
  let! dow := match dayofweek (year s) (month s) (day s) with Some d => ret d | None => fault 0 end in
  let! wd := name_at weekday dow in
  do! say_s wd in
  do! say_s " " in
  do! say_i (day s) in
  do! say_s " " in
  let! mn := name_at month_str (month s - 1) in
  do! say_s mn in
  do! say_s " " in
  say (chars "%i" ++ [10; 0]) [Word (year s)].

Definition print_ticks : K clk unit :=
  let! s := get in
  do! say_i (system_timer_ms s) in
  do! say_s "." in
  do! say_i (system_timer_fractions s) in
  say_line " ms.".
Definition print_sys_time : K clk unit :=
  do! say_s "Elapsed system time is: " in print_ticks.
Definition print_load_time : K clk unit :=
  do! say_line "Kernel Loaded" in
  do! say_s "Loadtime roughly: " in
  print_ticks.
End time.
Arguments clk H : clear implicits.
