(* ===== verification/TimeSpec.v ===== *)
(** Calendar, clock and delay: what [time.c] computes and where it goes wrong. *)
From Stdlib Require Import Ascii.
From S2P Require Import Prelude Lock CString Printf Putchar Pic KHeap HeapBytes Time.

Module TimeSpec.

(** * The Gregorian calendar, day by day *)
Definition leap (y : Z) : bool := (y mod 4 =? 0) && (negb (y mod 100 =? 0) || (y mod 400 =? 0)).
Definition days_in (y m : Z) : Z :=
  if m =? 2 then (if leap y then 29 else 28)
  else if (m =? 4) || (m =? 6) || (m =? 9) || (m =? 11) then 30 else 31.
Definition valid_date (y m d : Z) : Prop := 1 <= y /\ 1 <= m <= 12 /\ 1 <= d <= days_in y m.

Definition next_day (t : Z * Z * Z) : Z * Z * Z :=
  let '(y, m, d) := t in
  if d <? days_in y m then (y, m, d + 1)
  else if m <? 12 then (y, m + 1, 1)
  else (y + 1, 1, 1).
Definition days_later (n : nat) (t : Z * Z * Z) : Z * Z * Z := Nat.iter n next_day t.

Definition year_of (t : Z * Z * Z) : Z := t.1.1.
Definition dow (t : Z * Z * Z) : option Z := let '(y, m, d) := t in dayofweek y m d.
Definition valid (t : Z * Z * Z) : Prop := let '(y, m, d) := t in valid_date y m d.

Lemma days_in_range y m : 28 <= days_in y m <= 31.
Proof. unfold days_in. repeat case_match; lia. Qed.

Lemma next_day_valid t : valid t -> valid (next_day t).
Proof.
  destruct t as [[y m] d]. unfold valid, next_day, valid_date. intros (Hy & Hm & Hd).
  pose proof (days_in_range y (m + 1)). pose proof (days_in_range (y + 1) 1).
  destruct (Z.ltb_spec d (days_in y m)); [lia|]. destruct (Z.ltb_spec m 12); lia.
Qed.

(** The weekday as one sum modulo 7, with numbers of any size. *)
Definition day_sum (y m d t : Z) : Z :=
  let y := if m <? 3 then y - 1 else y in y + y / 4 - y / 100 + y / 400 + t + d.
Definition table (m : Z) : Z := default 0 (sakamoto !! Z.to_nat (m - 1)).
Definition weekday_of (t : Z * Z * Z) : Z := let '(y, m, d) := t in day_sum y m d (table m) mod 7.

(** Up to year [2^30] no [int] of [dayofweek] overflows. *)
Lemma dayofweek_sum t : valid t -> year_of t <= 2 ^ 30 -> dow t = Some (weekday_of t).
Proof.
  destruct t as [[y m] d]. intros (Hy & Hm & Hd) Hmax. cbn in Hmax. unfold dow, dayofweek, weekday_of, day_sum, table.
  pose proof (days_in_range y m). destruct (lookup_lt_is_Some_2 sakamoto (Z.to_nat (m - 1))) as [t Ht]; [simpl; lia|].
  rewrite (proj2 (Z.leb_le 1 m)), Ht by lia. cbn [default].
  assert (Ht6 : 0 <= t <= 6) by (assert (Hf : Forall (fun x => 0 <= x <= 6) sakamoto) by (repeat constructor; lia); by eapply (Forall_lookup_1 _ _ _ _ Hf)).
  assert (Hy' : (if m <? 3 then i32 (y - 1) else y) = (if m <? 3 then y - 1 else y)) by (destruct (m <? 3); [by rewrite swrap_small by lia|done]).
  rewrite Hy'. set (y' := if m <? 3 then y - 1 else y). assert (Hb : 0 <= y' <= 2 ^ 30) by (unfold y'; destruct (m <? 3); lia). clearbody y'.
  rewrite !Z.quot_div_nonneg by lia.
  assert (0 <= y' / 4 <= 2 ^ 28) by dm_lia. assert (0 <= y' / 100 <= 2 ^ 24) by dm_lia. assert (0 <= y' / 400 <= 2 ^ 22) by dm_lia.
  assert (y' / 100 <= y') by dm_lia. cbv zeta.
  rewrite (swrap_small 32 (y' + y' / 4)), (swrap_small 32 (y' + y' / 4 - y' / 100)), (swrap_small 32 (y' + y' / 4 - y' / 100 + y' / 400)) by lia.
  rewrite (swrap_small 32 (_ + t)), (swrap_small 32 (_ + t + d)) by lia.
  f_equal. apply Z.rem_mod_nonneg; [|lia]. unfold id. lia.
Qed.

Lemma weekday_next t : valid t -> weekday_of (next_day t) = (weekday_of t + 1) mod 7.
Proof.
  destruct t as [[y m] d]. unfold valid, valid_date, next_day, weekday_of. intros (Hy & Hm & Hd).
  assert (Hcases : m = 1 \/ m = 2 \/ m = 3 \/ m = 4 \/ m = 5 \/ m = 6 \/ m = 7 \/ m = 8 \/ m = 9 \/ m = 10 \/ m = 11 \/ m = 12) by lia.
  rewrite Zplus_mod_idemp_l. destruct (Z.ltb_spec d (days_in y m)) as [Hlt|Hge]; [f_equal; unfold day_sum; lia|].
  assert (Hd' : d = days_in y m) by lia. clear Hge Hd. unfold days_in, leap in Hd'.
  destruct Hcases as [->|[->|[->|[->|[->|[->|[->|[->|[->|[->|[->| ->]]]]]]]]]]]; cbn [Z.ltb Z.compare Pos.compare Pos.compare_cont];
    cbn in Hd'; unfold day_sum; cbn -[table]; subst d;
    repeat match goal with |- context [table ?a] => let b := eval vm_compute in (table a) in change (table a) with b end;
    repeat match goal with |- context [?a <? 3] => let b := eval vm_compute in (a <? 3) in change (a <? 3) with b end;
    try dm_lia.
  destruct (Z.eqb_spec (y mod 4) 0), (Z.eqb_spec (y mod 100) 0), (Z.eqb_spec (y mod 400) 0); cbn [andb orb negb]; dm_lia.
Qed.

Lemma weekday_later n t : valid t -> valid (days_later n t) /\ weekday_of (days_later n t) = (weekday_of t + Z.of_nat n) mod 7.
Proof.
  intros Hv. induction n as [|n [IHv IHw]].
  - split; [done|]. change (days_later 0 t) with t. rewrite Z.add_0_r. symmetry. apply Z.mod_small.
    destruct t as [[y m] d]. by apply Z.mod_pos_bound.
  - change (days_later (S n) t) with (next_day (days_later n t)). split; [by apply next_day_valid|].
    rewrite (weekday_next _ IHv), IHw. rewrite Zplus_mod_idemp_l. f_equal. lia.
Qed.

(** * The CMOS clock

    The clock ticks while it is read.  Its life is a sequence of phases: in phase
    [2 * k] it shows the registers [rtc_regs k], in phase [2 * k + 1] it updates them
    and a read of a time register returns anything.  The flag of register A is set
    exactly during an update.  Time is measured in bus transfers: an update lasts
    less than [rtc_busy] of them, and more than [rtc_gap] pass between the end of one
    and the start of the next (a second against at most 2 ms on the hardware). *)
Definition time_registers : list Z := [0; 2; 4; 7; 8; 9].

Class RtcClock (dev : bus -> Z -> Z) : Type := {
  rtc_phase : bus -> Z;
  rtc_regs : Z -> Z -> Z;
  rtc_format : Z;
  rtc_busy : Z;
  rtc_gap : Z;
  rtc_byte tr : 0 <= dev tr CMOS_DATA < 256;
  rtc_forward tr e : rtc_phase tr <= rtc_phase (tr ++ [e]);
  rtc_flag tr : is_set (dev (tr ++ [POut CMOS_ADDR 0x0A]) CMOS_DATA) 0x80 = Z.odd (rtc_phase (tr ++ [POut CMOS_ADDR 0x0A]));
  rtc_register_B tr : dev (tr ++ [POut CMOS_ADDR 0x0B]) CMOS_DATA = rtc_format;
  rtc_time tr r k : r ∈ time_registers -> rtc_phase (tr ++ [POut CMOS_ADDR r]) = 2 * k ->
    dev (tr ++ [POut CMOS_ADDR r]) CMOS_DATA = rtc_regs k r;
  rtc_ends tr l : Z.odd (rtc_phase tr) = true -> rtc_busy <= Z.of_nat (length l) -> rtc_phase tr < rtc_phase (tr ++ l);
  rtc_rare tr l k : rtc_phase tr <= 2 * k + 1 -> 2 * k + 3 <= rtc_phase (tr ++ l) -> rtc_gap < Z.of_nat (length l);
  rtc_slow : 0 <= rtc_busy /\ 4 * (rtc_busy + 16) <= rtc_gap;
}.

Section rtc.
Context {H : Type} `{KernelHeap H}.
Variable dev : bus -> Z -> Z.
Context {RC : RtcClock dev}.
Local Abbreviation st := (clk H).

Lemma phase_mono tr l : rtc_phase tr <= rtc_phase (tr ++ l).
Proof.
  induction l as [|e l IH] using rev_ind; [by rewrite app_nil_r|]. rewrite app_assoc.
  pose proof (rtc_forward (tr ++ l) e). lia.
Qed.

Lemma phase_within tr l k : rtc_phase tr <= 2 * k + 1 -> Z.of_nat (length l) <= rtc_gap -> rtc_phase (tr ++ l) <= 2 * k + 2.
Proof. intros Hp Hl. destruct (Z.le_gt_cases (rtc_phase (tr ++ l)) (2 * k + 2)); [done|]. pose proof (rtc_rare tr l k Hp ltac:(lia)). lia. Qed.

Lemma odd_half p : Z.odd p = true -> exists k, p = 2 * k + 1.
Proof. intros [k ->]%Z.odd_spec. by exists k. Qed.
Lemma even_half p : Z.odd p = false -> exists k, p = 2 * k.
Proof. rewrite <- Z.negb_even. intros E%negb_false_iff. apply Z.even_spec in E as [k ->]. by exists k. Qed.

(** A register is read at the moment its index has been written. *)
Lemma register_eq r (s : st) : 0 <= r < 256 ->
  let m := tbus s ++ [POut CMOS_ADDR r] in
  get_RTC_register dev r s = Ret (dev m CMOS_DATA) (set_tbus (m ++ [PIn CMOS_DATA (dev m CMOS_DATA)]) s).
Proof.
  intros Hr m. unfold get_RTC_register, at_bus, zoom, bind, inb, outb. cbn. rewrite (wrap_small 8 r) by lia. fold m.
  rewrite (wrap_small 8 (dev m CMOS_DATA)) by apply rtc_byte. by destruct s.
Qed.

Lemma flag_eq (s : st) : let m := tbus s ++ [POut CMOS_ADDR 0x0A] in
  exists v, get_update_flag dev s = Ret v (set_tbus (m ++ [PIn CMOS_DATA (dev m CMOS_DATA)]) s) /\ (v =? 0) = negb (Z.odd (rtc_phase m)).
Proof.
  intros m. exists (Z.land (dev m CMOS_DATA) 0x80). split.
  - pose proof (register_eq 0x0A s ltac:(lia)) as E. fold m in E. unfold get_update_flag. unfold get_RTC_register, bind in *.
    destruct (at_bus (outb CMOS_ADDR 10) s) eqn:E1; try done. by rewrite E.
  - unfold m. rewrite <- rtc_flag. unfold is_set. by rewrite negb_involutive.
Qed.

(** The wait ends, soon, at a moment when the clock is not updating. *)
Lemma wait_loop fuel : forall o l (s : st), Z.odd (rtc_phase o) = true -> tbus s ++ [POut CMOS_ADDR 0x0A] = o ++ l ->
  rtc_busy <= Z.of_nat (length l) + 2 * Z.of_nat fuel -> Z.of_nat (length l) <= rtc_busy + 1 ->
  exists l1 e k, wait_update dev fuel s = Ret tt (set_tbus (tbus s ++ l1 ++ [e]) s) /\ rtc_phase (tbus s ++ l1) = 2 * k /\
    Z.of_nat (length l + length l1) <= rtc_busy + 2.
Proof.
  induction fuel as [|fuel IH]; intros o l s Ho Hm Hf Hl; destruct (flag_eq s) as (v & E & Hv); cbn [wait_update];
    rewrite (bind_Ret _ _ _ _ _ E), Hv; destruct (Z.odd (rtc_phase (tbus s ++ [POut CMOS_ADDR 0x0A]))) eqn:Ep; cbn [negb].
  all: try (apply even_half in Ep as [k Ek]; exists [POut CMOS_ADDR 0x0A]; eexists; exists k;
            split; [by rewrite app_assoc|split; [done|cbn [length]; lia]]).
  all: assert (Hshort : Z.of_nat (length l) < rtc_busy).
  1, 3: destruct (Z.le_gt_cases rtc_busy (Z.of_nat (length l))) as [Hb|]; [|done]; exfalso; pose proof (rtc_ends o l Ho Hb) as Hgt;
    apply odd_half in Ho as [k Hk]; pose proof (phase_within o l k ltac:(lia) ltac:(pose proof rtc_slow; lia)) as Hle;
    apply odd_half in Ep as [k' Hk']; rewrite Hm in Hk'; lia.
  - lia.
  - set (m := tbus s ++ [POut CMOS_ADDR 10]) in *. set (i := PIn CMOS_DATA (dev m CMOS_DATA)) in *.
    destruct (IH o (l ++ [i; POut CMOS_ADDR 0x0A]) (set_tbus (m ++ [i]) s) Ho) as (l1 & e & k & E2 & Hk & Hlen).
    { cbn [tbus set_tbus]. rewrite Hm. by rewrite <- !app_assoc. }
    { rewrite length_app. cbn [length]. lia. } { rewrite length_app. cbn [length]. lia. }
    exists ([POut CMOS_ADDR 10; i] ++ l1), e, k. cbn [tbus set_tbus] in E2, Hk. rewrite E2. unfold m in *.
    split; [by rewrite <- !app_assoc|]. split; [by rewrite <- !app_assoc in Hk|]. rewrite length_app in Hlen. cbn [length app] in *. lia.
Qed.

Lemma wait_ok fuel (s : st) : rtc_busy <= 2 * Z.of_nat fuel ->
  exists l1 e k, wait_update dev fuel s = Ret tt (set_tbus (tbus s ++ l1 ++ [e]) s) /\ rtc_phase (tbus s ++ l1) = 2 * k /\
    Z.of_nat (length l1) <= rtc_busy + 2.
Proof.
  intros Hf. destruct (Z.odd (rtc_phase (tbus s ++ [POut CMOS_ADDR 0x0A]))) eqn:Ep.
  - destruct (wait_loop fuel (tbus s ++ [POut CMOS_ADDR 0x0A]) [] s Ep) as (l1 & e & k & E & Hk & Hl);
      [by rewrite app_nil_r|cbn; lia|cbn; pose proof rtc_slow; lia|]. by exists l1, e, k.
  - destruct (flag_eq s) as (v & E & Hv). rewrite Ep in Hv. cbn [negb] in Hv. apply even_half in Ep as [k Hk].
    exists [POut CMOS_ADDR 0x0A]. eexists. exists k. split; [|split; [done|cbn; pose proof rtc_slow; lia]].
    destruct fuel; cbn [wait_update]; rewrite (bind_Ret _ _ _ _ _ E), Hv; by rewrite app_assoc.
Qed.

Definition raw (regs : Z -> Z) : Z * Z * Z * Z * Z * Z := (regs 0, regs 2, regs 4, regs 7, regs 8, regs 9).

(** One pass from [b] to [e]: at some moment the clock was in phase [2 * k]; if it
    still is at the end, the values are those it shows. *)
Definition passed (b e : bus) (k : Z) (v : Z * Z * Z * Z * Z * Z) : Prop :=
  exists l1 l2, e = b ++ l1 ++ l2 /\ rtc_phase (b ++ l1) = 2 * k /\ Z.of_nat (length l1 + length l2) <= rtc_busy + 16 /\
    (rtc_phase e = 2 * k -> v = raw (rtc_regs k)).

Lemma pass_ok fuel (s : st) : rtc_busy <= 2 * Z.of_nat fuel ->
  exists v b k, rtc_pass dev fuel s = Ret v (set_date v (set_tbus b s)) /\ passed (tbus s) b k v.
Proof.
  intros Hf. unfold rtc_pass. destruct (wait_ok fuel s Hf) as (l1 & e & k & E0 & Hk & Hl). rewrite (bind_Ret _ _ _ _ _ E0).
  set (b0 := tbus s ++ l1 ++ [e]).
  assert (Hread : forall r b, r ∈ time_registers -> exists v i, get_RTC_register dev r (set_tbus b s) = Ret v (set_tbus (b ++ [POut CMOS_ADDR r; i]) s) /\
    (forall l, rtc_phase b >= 2 * k -> rtc_phase ((b ++ [POut CMOS_ADDR r; i]) ++ l) = 2 * k -> v = rtc_regs k r)).
  { intros r b Hr. assert (0 <= r < 256) by (unfold time_registers in Hr; set_unfold; lia).
    pose proof (register_eq r (set_tbus b s) ltac:(done)) as E. cbv zeta in E. cbn [tbus set_tbus] in E. rewrite <- app_assoc in E.
    eexists _, _. split; [exact E|]. intros l Hb He. apply rtc_time; [done|].
    pose proof (phase_mono b [POut CMOS_ADDR r]). set (i := PIn _ _) in *.
    replace ((b ++ [POut CMOS_ADDR r; i]) ++ l) with ((b ++ [POut CMOS_ADDR r]) ++ i :: l) in He by (by rewrite <- !app_assoc).
    pose proof (phase_mono (b ++ [POut CMOS_ADDR r]) (i :: l)). lia. }
  assert (Hb0 : rtc_phase b0 >= 2 * k) by (unfold b0; rewrite app_assoc; pose proof (phase_mono (tbus s ++ l1) [e]); lia).
  assert (Hstep : forall b l, rtc_phase b >= 2 * k -> rtc_phase (b ++ l) >= 2 * k) by (intros b l Hb; pose proof (phase_mono b l); lia).
  destruct (Hread 0 b0 ltac:(unfold time_registers; set_solver)) as (v0 & i0 & E1 & V0). rewrite (bind_Ret _ _ _ _ _ E1). set (b1 := b0 ++ _) in *.
  destruct (Hread 2 b1 ltac:(unfold time_registers; set_solver)) as (v2 & i2 & E2 & V2). rewrite (bind_Ret _ _ _ _ _ E2). set (b2 := b1 ++ _) in *.
  destruct (Hread 4 b2 ltac:(unfold time_registers; set_solver)) as (v4 & i4 & E3 & V4). rewrite (bind_Ret _ _ _ _ _ E3). set (b3 := b2 ++ _) in *.
  destruct (Hread 7 b3 ltac:(unfold time_registers; set_solver)) as (v7 & i7 & E4 & V7). rewrite (bind_Ret _ _ _ _ _ E4). set (b4 := b3 ++ _) in *.
  destruct (Hread 8 b4 ltac:(unfold time_registers; set_solver)) as (v8 & i8' & E5 & V8). rewrite (bind_Ret _ _ _ _ _ E5). set (b5 := b4 ++ _) in *.
  destruct (Hread 9 b5 ltac:(unfold time_registers; set_solver)) as (v9 & i9 & E6 & V9). rewrite (bind_Ret _ _ _ _ _ E6). set (b6 := b5 ++ _) in *.
  eexists _, b6, k. split; [reflexivity|].
  eexists l1, _. split; [unfold b6, b5, b4, b3, b2, b1, b0; rewrite <- !app_assoc; reflexivity|]. split; [done|].
  split; [cbn [length app]; lia|]. intros He.
  assert (P1 : rtc_phase b1 >= 2 * k) by (by apply Hstep). assert (P2 : rtc_phase b2 >= 2 * k) by (by apply Hstep).
  assert (P3 : rtc_phase b3 >= 2 * k) by (by apply Hstep). assert (P4 : rtc_phase b4 >= 2 * k) by (by apply Hstep).
  assert (P5 : rtc_phase b5 >= 2 * k) by (by apply Hstep).
  assert (Hend : forall b l, b6 = b ++ l -> rtc_phase (b ++ l) = 2 * k) by (intros b l <-; done).
  unfold raw. rewrite <- (V0 _ Hb0 (Hend b1 _ ltac:(unfold b6, b5, b4, b3, b2; rewrite <- !app_assoc; reflexivity))).
  rewrite <- (V2 _ P1 (Hend b2 _ ltac:(unfold b6, b5, b4, b3; rewrite <- !app_assoc; reflexivity))).
  rewrite <- (V4 _ P2 (Hend b3 _ ltac:(unfold b6, b5, b4; rewrite <- !app_assoc; reflexivity))).
  rewrite <- (V7 _ P3 (Hend b4 _ ltac:(unfold b6, b5; rewrite <- !app_assoc; reflexivity))).
  rewrite <- (V8 _ P4 (Hend b5 _ ltac:(unfold b6; reflexivity))).
  by rewrite <- (V9 [] P5 (Hend b6 [] ltac:(by rewrite app_nil_r))).
Qed.

(** ** Two passes that agree *)
Lemma passed_range b e k v : passed b e k v -> rtc_phase b <= 2 * k <= rtc_phase e.
Proof.
  intros (l1 & l2 & -> & Hk & _). rewrite app_assoc, <- Hk. split; apply phase_mono.
Qed.

Lemma passed_length b e k v : passed b e k v -> exists l, e = b ++ l /\ Z.of_nat (length l) <= rtc_busy + 16.
Proof. intros (l1 & l2 & -> & _ & Hl & _). exists (l1 ++ l2). by rewrite length_app. Qed.

(** Not long after a pass at most one update has begun. *)
Lemma passed_soon b e k v l : passed b e k v -> Z.of_nat (length l) + rtc_busy + 16 <= rtc_gap -> rtc_phase (e ++ l) <= 2 * k + 2.
Proof.
  intros (l1 & l2 & -> & Hk & Hl & _) Hg. replace ((b ++ l1 ++ l2) ++ l) with ((b ++ l1) ++ l2 ++ l) by (by rewrite <- !app_assoc).
  apply phase_within; [lia|]. rewrite length_app. lia.
Qed.

Lemma passed_clean b e k v : passed b e k v -> rtc_phase e = 2 * k -> v = raw (rtc_regs k).
Proof. by intros (l1 & l2 & _ & _ & _ & Hc). Qed.

(** An update that spoils the first pass is over when the second begins. *)
Lemma agree_shown b e e' k k' v : passed b e k v -> passed e e' k' v ->
  exists j, v = raw (rtc_regs j) /\ rtc_phase b <= 2 * j <= rtc_phase e'.
Proof.
  intros P P'. pose proof rtc_slow. pose proof (passed_range _ _ _ _ P). pose proof (passed_range _ _ _ _ P').
  destruct (passed_length _ _ _ _ P') as (l & -> & Hl). pose proof (passed_soon _ _ _ _ l P ltac:(lia)).
  destruct (decide (rtc_phase e = 2 * k)) as [Hc|Hd].
  - exists k. split; [by eapply passed_clean|lia].
  - exists k'. split; [eapply passed_clean; [done|lia]|lia].
Qed.

Lemma four_passes b e1 e2 e3 e4 k1 k2 k3 k4 v1 v2 v3 v4 :
  passed b e1 k1 v1 -> passed e1 e2 k2 v2 -> passed e2 e3 k3 v3 -> passed e3 e4 k4 v4 -> v1 = v2 \/ v3 = v4.
Proof.
  intros P1 P2 P3 P4. pose proof rtc_slow. pose proof (passed_range _ _ _ _ P1). pose proof (passed_range _ _ _ _ P2).
  pose proof (passed_range _ _ _ _ P3). pose proof (passed_range _ _ _ _ P4).
  pose proof (passed_clean _ _ _ _ P1) as C1. pose proof (passed_clean _ _ _ _ P2) as C2.
  pose proof (passed_clean _ _ _ _ P3) as C3. pose proof (passed_clean _ _ _ _ P4) as C4.
  destruct (passed_length _ _ _ _ P2) as (l2 & -> & ?), (passed_length _ _ _ _ P3) as (l3 & -> & ?), (passed_length _ _ _ _ P4) as (l4 & -> & ?).
  pose proof (passed_soon _ _ _ _ (l2 ++ l3 ++ l4) P1 ltac:(rewrite !length_app; lia)) as Hsoon. rewrite !app_assoc in Hsoon.
  destruct (decide (rtc_phase (e1 ++ l2) = 2 * k1)) as [Hc|Hd].
  - left. assert (k2 = k1) as -> by lia. by rewrite C1, C2 by lia.
  - right. assert (k3 = k1 + 1) as -> by lia. assert (k4 = k1 + 1) as -> by lia. by rewrite C3, C4 by lia.
Qed.

(** ** The reading loop *)
Lemma date_again v w b c (s : st) : set_date v (set_tbus b (set_date w (set_tbus c s))) = set_date v (set_tbus b s).
Proof. by destruct v as [[[[[? ?] ?] ?] ?] ?], w as [[[[[? ?] ?] ?] ?] ?]. Qed.
Lemma date_bus v b (s : st) : tbus (set_date v (set_tbus b s)) = b.
Proof. by destruct v as [[[[[? ?] ?] ?] ?] ?]. Qed.

Lemma next_pass fuel v b (s : st) : rtc_busy <= 2 * Z.of_nat fuel ->
  exists w e k, rtc_pass dev fuel (set_date v (set_tbus b s)) = Ret w (set_date w (set_tbus e s)) /\ passed b e k w.
Proof.
  intros Hf. destruct (pass_ok fuel (set_date v (set_tbus b s)) Hf) as (w & e & k & E & P). rewrite date_again in E. rewrite date_bus in P.
  by exists w, e, k.
Qed.

Lemma stable_step fuel v b (s : st) w e : rtc_pass dev fuel (set_date v (set_tbus b s)) = Ret w (set_date w (set_tbus e s)) ->
  rtc_stable dev fuel v (set_date v (set_tbus b s)) =
    if decide (w = v) then Ret w (set_date w (set_tbus e s)) else
    match fuel with O => Hang (set_date w (set_tbus e s)) | S n => rtc_stable dev n w (set_date w (set_tbus e s)) end.
Proof. intros E. destruct fuel; cbn [rtc_stable]; rewrite (bind_Ret _ _ _ _ _ E); by case_decide. Qed.

(** The loop ends after four passes at most, with registers the clock showed. *)
Lemma reading_ok fuel (s : st) : rtc_busy + 2 <= Z.of_nat fuel ->
  exists j b, (let! first := rtc_pass dev fuel in rtc_stable dev fuel first) s = Ret (raw (rtc_regs j)) (set_date (raw (rtc_regs j)) (set_tbus b s)) /\
    rtc_phase (tbus s) <= 2 * j <= rtc_phase b /\ 2 * j <= rtc_phase (tbus s) + 2.
Proof.
  intros Hf. pose proof rtc_slow as Hs. destruct (pass_ok fuel s ltac:(lia)) as (v1 & e1 & k1 & E1 & P1). rewrite (bind_Ret _ _ _ _ _ E1).
  destruct fuel as [|[|n]]; [lia|lia|]. set (b := tbus s) in *.
  destruct (next_pass (S (S n)) v1 e1 s ltac:(lia)) as (v2 & e2 & k2 & E2 & P2).
  destruct (next_pass (S n) v2 e2 s ltac:(lia)) as (v3 & e3 & k3 & E3 & P3).
  destruct (next_pass n v3 e3 s ltac:(lia)) as (v4 & e4 & k4 & E4 & P4).
  pose proof (four_passes _ _ _ _ _ _ _ _ _ _ _ _ _ P1 P2 P3 P4) as Hfour.
  assert (Hearly : forall e l, e = b ++ l -> Z.of_nat (length l) <= 4 * (rtc_busy + 16) -> rtc_phase e <= rtc_phase b + 2).
  { intros e l -> Hl. pose proof (Z.div_mod (rtc_phase b) 2 ltac:(lia)). pose proof (Z.mod_pos_bound (rtc_phase b) 2 ltac:(lia)).
    set (q := rtc_phase b / 2) in *. pose proof (phase_within b l q ltac:(lia) ltac:(lia)). lia. }
  destruct (passed_length _ _ _ _ P1) as (l1 & L1 & ?), (passed_length _ _ _ _ P2) as (l2 & L2 & ?),
    (passed_length _ _ _ _ P3) as (l3 & L3 & ?), (passed_length _ _ _ _ P4) as (l4 & L4 & ?).
  pose proof (Hearly e2 (l1 ++ l2) ltac:(by rewrite L2, L1, <- !app_assoc) ltac:(rewrite !length_app; lia)) as B2.
  pose proof (Hearly e3 (l1 ++ l2 ++ l3) ltac:(by rewrite L3, L2, L1, <- !app_assoc) ltac:(rewrite !length_app; lia)) as B3.
  pose proof (Hearly e4 (l1 ++ l2 ++ l3 ++ l4) ltac:(by rewrite L4, L3, L2, L1, <- !app_assoc) ltac:(rewrite !length_app; lia)) as B4.
  pose proof (passed_range _ _ _ _ P1). pose proof (passed_range _ _ _ _ P2). pose proof (passed_range _ _ _ _ P3).
  rewrite (stable_step _ _ _ _ _ _ E2). destruct (decide (v2 = v1)) as [->|N2].
  { destruct (agree_shown _ _ _ _ _ _ P1 P2) as (j & -> & Hj). exists j, e2. split; [done|lia]. }
  rewrite (stable_step _ _ _ _ _ _ E3). destruct (decide (v3 = v2)) as [->|N3].
  { destruct (agree_shown _ _ _ _ _ _ P2 P3) as (j & -> & Hj). exists j, e3. split; [done|lia]. }
  rewrite (stable_step _ _ _ _ _ _ E4). destruct (decide (v4 = v3)) as [->|N4]; [|by destruct Hfour; congruence].
  destruct (agree_shown _ _ _ _ _ _ P3 P4) as (j & -> & Hj). exists j, e4. split; [done|lia].
Qed.

Lemma read_rtc_eq fuel (s : st) : rtc_busy + 2 <= Z.of_nat fuel ->
  exists j b, read_rtc dev fuel s = Ret tt (set_date (rtc_decode rtc_format (raw (rtc_regs j))) (set_tbus b s)) /\
    rtc_phase (tbus s) <= 2 * j <= rtc_phase b /\ 2 * j <= rtc_phase (tbus s) + 2.
Proof.
  intros Hf. destruct (reading_ok fuel s Hf) as (j & b & E & Hj & Hp). exists j. unfold read_rtc.
  set (v := raw (rtc_regs j)) in *. pose proof (register_eq 0x0B (set_date v (set_tbus b s)) ltac:(lia)) as EB. cbv zeta in EB.
  rewrite date_bus, rtc_register_B in EB. set (c := (b ++ [POut CMOS_ADDR 11]) ++ _) in EB. exists c. split.
  - rewrite <- bind_assoc, (bind_Ret _ _ _ _ _ E), (bind_Ret _ _ _ _ _ EB). unfold modify. f_equal.
  - split; [|done]. split; [lia|]. unfold c. rewrite <- app_assoc. pose proof (phase_mono b ([POut CMOS_ADDR 11] ++ [PIn CMOS_DATA rtc_format])). cbn [app] in *. lia.
Qed.
End rtc.

(** How a clock stores a value: binary or two decimal digits. *)
Definition enc_bcd (v : Z) : Z := 16 * (v / 10) + v mod 10.
Definition enc_field (binary : bool) (v : Z) : Z := if binary then v else enc_bcd v.
(** Hours on the 12-hour dial: 12, 1, ..., 11, with bit 7 for the afternoon. *)
Definition enc_hour (binary h24 : bool) (h : Z) : Z :=
  if h24 then enc_field binary h
  else enc_field binary (if h mod 12 =? 0 then 12 else h mod 12) + (if 12 <=? h then 128 else 0).

Lemma bcd_enc v : 0 <= v < 100 -> bcd (enc_bcd v) = v.
Proof.
  intros Hv. assert (Hall : Forall (fun v => bcd (enc_bcd v) = v) (seqZ 0 100)) by (apply (bool_decide_unpack _); vm_compute; exact I).
  eapply Forall_elem in Hall; [exact Hall|]. apply elem_of_seqZ. lia.
Qed.

Lemma bcd_year_enc v : 0 <= v < 100 -> u16 (Z.land (enc_bcd v) 0x0F + enc_bcd v / 16 * 10) = v.
Proof.
  intros Hv. assert (Hall : Forall (fun v => u16 (Z.land (enc_bcd v) 0x0F + enc_bcd v / 16 * 10) = v) (seqZ 0 100))
    by (apply (bool_decide_unpack _); vm_compute; exact I).
  eapply Forall_elem in Hall; [exact Hall|]. apply elem_of_seqZ. lia.
Qed.

(** The hour as [rtc_decode] computes it. *)
Definition hour_of (binary h24 : bool) (c : Z) : Z :=
  let c := if binary then c else bcd_hour c in
  if negb h24 && is_set c 0x80 then (Z.land c 0x7F + 12) mod 24 else c.

(** The hour [read_rtc] makes of hour [h]: on the 12-hour dial noon and midnight
    change places. *)
Definition hour_as_read (h24 : bool) (h : Z) : Z := if negb h24 && (h mod 12 =? 0) then 12 - h else h.

Lemma hour_decoded binary h24 h : 0 <= h < 24 -> hour_of binary h24 (enc_hour binary h24 h) = hour_as_read h24 h.
Proof.
  intros Hh.
  assert (Hall : forallb (fun h => forallb (fun b : bool => forallb (fun g : bool => hour_of b g (enc_hour b g h) =? hour_as_read g h) [true; false]) [true; false]) (seqZ 0 24) = true)
    by (vm_compute; reflexivity).
  assert (Hbool : forall b : bool, In b [true; false]) by (intros []; simpl; auto).
  rewrite List.forallb_forall in Hall. specialize (Hall h ltac:(apply list_elem_of_In, elem_of_seqZ; lia)).
  rewrite List.forallb_forall in Hall. specialize (Hall binary (Hbool binary)).
  rewrite List.forallb_forall in Hall. by apply Z.eqb_eq, (Hall h24).
Qed.

(** Date and time of a clock in the hundred years from [CURRENT_YEAR]. *)
Definition date_ok (t : Z * Z * Z * Z * Z * Z) : Prop :=
  let '(sec, mi, h, d, mo, y) := t in
  0 <= sec < 60 /\ 0 <= mi < 60 /\ 0 <= h < 24 /\ 1 <= d <= 31 /\ 1 <= mo <= 12 /\ CURRENT_YEAR <= y < CURRENT_YEAR + 100.

(** The registers of a clock that shows a date and time, in the format its register B
    gives: binary or BCD, 24 or 12 hours. *)
Definition shows (registerB : Z) (regs : Z -> Z) (t : Z * Z * Z * Z * Z * Z) : Prop :=
  let '(sec, mi, h, d, mo, y) := t in
  let binary := is_set registerB 0x04 in
  regs 0x00 = enc_field binary sec /\ regs 0x02 = enc_field binary mi /\ regs 0x04 = enc_hour binary (is_set registerB 0x02) h /\
  regs 0x07 = enc_field binary d /\ regs 0x08 = enc_field binary mo /\ regs 0x09 = enc_field binary (y mod 100).

Definition as_read (registerB : Z) (t : Z * Z * Z * Z * Z * Z) : Z * Z * Z * Z * Z * Z :=
  let '(sec, mi, h, d, mo, y) := t in (sec, mi, hour_as_read (is_set registerB 0x02) h, d, mo, y).

Lemma decode_date registerB regs t : shows registerB regs t -> date_ok t -> rtc_decode registerB (raw regs) = as_read registerB t.
Proof.
  destruct t as [[[[[sec mi] h] d] mo] y]. intros (E0 & E2 & E4 & E7 & E8 & E9) (Hsec & Hmi & Hh & Hd & Hmo & Hy). unfold rtc_decode, raw, as_read.
  rewrite E0, E2, E4, E7, E8, E9, <- (hour_decoded (is_set registerB 0x04) _ h Hh). unfold CURRENT_YEAR in *.
  assert (Hyear : forall f, f = y mod 100 -> (if u16 (f + 2026 / 100 * 100) <? 2026 then u16 (u16 (f + 2026 / 100 * 100) + 100) else u16 (f + 2026 / 100 * 100)) = y).
  { intros f ->. change (2026 / 100 * 100) with 2000. assert (0 <= y mod 100 < 100) by (by apply Z.mod_pos_bound).
    rewrite (wrap_small 16 (y mod 100 + 2000)) by lia. destruct (Z.ltb_spec (y mod 100 + 2000) 2026); [rewrite wrap_small by lia|]; dm_lia. }
  unfold hour_of, enc_field. destruct (is_set registerB 0x04); cbn [negb].
  - rewrite (Hyear _ eq_refl). done.
  - assert (0 <= y mod 100 < 100) by (by apply Z.mod_pos_bound). rewrite !bcd_enc by lia. rewrite (Hyear _ (bcd_year_enc (y mod 100) ltac:(lia))). done.
Qed.

(** * Waiting *)
Section sleep.
Context {H : Type} `{KernelHeap H}.

(** The handler installed for the timer interrupt does not advance the counter
    that [pit_sleep] waits for. *)
Lemma alt_ticks resched (s : clk H) : exists s', sys_clock_handler_alt false resched s = Ret tt s' /\ pit_ticks s' = pit_ticks s.
Proof. by eexists. Qed.

Theorem pit_sleep_never_returns resched (s : clk H) ms fuel :
  0 < ms -> 0 <= pit_ticks s -> pit_ticks s + ms < 2 ^ 64 ->
  exists s', pit_sleep fuel (sys_clock_handler_alt false resched) ms s = Hang s'.
Proof.
  intros Hms Ht Hlt. unfold pit_sleep. rewrite bind_get, wrap_small by lia.
  assert (Hlt' : pit_ticks s < pit_ticks s + ms) by lia. revert Hlt'. generalize (pit_ticks s + ms). clear Hms Ht Hlt. intros target.
  revert s. induction fuel as [|fuel IH]; intros s Hs; rewrite bind_get, (proj2 (Z.ltb_lt _ _) Hs); [by exists s|].
  destruct (alt_ticks resched s) as (s' & E & Ht). rewrite (bind_Ret _ _ _ _ _ E). apply IH. by rewrite Ht.
Qed.
End sleep.

(** * Time values *)
Definition nanoseconds (t : timespec) : Z := tv_sec t * 1000000000 + tv_nsec t.
Definition normal (t : timespec) : Prop := 0 <= tv_nsec t < 1000000000.
Definition in_reach (t : timespec) : Prop := 0 <= tv_sec t < 2 ^ 62.

(** The midnight and noon of a 12-hour clock are exchanged. *)
Theorem rtc_twelve_swapped binary :
  hour_of binary false (enc_hour binary false 12) = 0 /\ hour_of binary false (enc_hour binary false 0) = 12.
Proof. by destruct binary. Qed.

(** A borrow in [timespec_sub] is wrong by twice the borrowed amount and leaves
    a value that is not normal. *)
Theorem timespec_sub_borrow a b :
  normal a -> normal b -> in_reach a -> in_reach b -> tv_nsec a < tv_nsec b -> tv_sec b < tv_sec a ->
  nanoseconds (timespec_sub a b) = nanoseconds a - nanoseconds b + 2 * (tv_nsec b - tv_nsec a) - 1.
Proof.
  unfold normal, in_reach. intros Ha Hb Hra Hrb Hlt Hs. unfold timespec_sub.
  rewrite Z.gtb_ltb, (proj2 (Z.ltb_lt _ _) Hlt). rewrite Z.gtb_ltb, (proj2 (Z.ltb_lt 0 (tv_sec a))) by lia.
  rewrite !(swrap_small 64) by (rewrite ?(swrap_small 64); lia). rewrite Z.gtb_ltb, (proj2 (Z.ltb_ge _ _)) by lia.
  unfold nanoseconds. cbn [tv_sec tv_nsec]. lia.
Qed.

(** * Properties *)

(** C29. [dayofweek] agrees with the Gregorian calendar: on the [n]-th day after
    Thursday 1 January 1970, counted day by day through month lengths and leap
    years, up to the end of year [2^30], it returns the weekday of a seven-day
    cycle, and none of its 32-bit operations overflows into a wrong answer. *)
Theorem dayofweek_correct n : let t := days_later n (1970, 1, 1) in
  year_of t <= 2 ^ 30 -> dow t = Some ((4 + Z.of_nat n) mod 7).
Proof.
  intros t Hy. destruct (weekday_later n (1970, 1, 1)) as [Hv Hw].
  { split; [lia|]. split; [lia|]. vm_compute. split; discriminate. }
  unfold t. by rewrite (dayofweek_sum _ Hv Hy), Hw.
Qed.

Lemma dayofweek_correct_witness : days_later 789 (1970, 1, 1) = (1972, 2, 29) /\ dow (days_later 789 (1970, 1, 1)) = Some 2.
Proof. split; [vm_compute; reflexivity|]. apply (dayofweek_correct 789). vm_compute. discriminate. Defined.

(** C30. [read_rtc] on a running clock: the clock may start an update at any moment of
    the call, during an update its registers read as anything, updates are flagged and
    are rare.  With fuel for the wait and for two rounds more, the call returns, and
    the fields hold one date and time the clock showed at a moment between call and
    return, decoded from binary or BCD and from 24 or 12 hours; in the 12-hour format
    alone, noon is read as hour 0 and midnight as hour 12. *)
Theorem read_rtc_roundtrip {H} `{KernelHeap H} dev `{RtcClock dev} date fuel (s : clk H) :
  rtc_busy + 2 <= Z.of_nat fuel ->
  (forall k, rtc_phase (tbus s) <= 2 * k <= rtc_phase (tbus s) + 2 -> date_ok (date k) /\ shows rtc_format (rtc_regs k) (date k)) ->
  exists k b, read_rtc dev fuel s = Ret tt (set_date (as_read rtc_format (date k)) (set_tbus b s)) /\
    rtc_phase (tbus s) <= 2 * k <= rtc_phase b.
Proof.
  intros Hf Hd. destruct (read_rtc_eq dev fuel s Hf) as (k & b & E & Hk & Hp). exists k, b. split; [|done].
  destruct (Hd k ltac:(lia)) as [Hok Hsh]. by rewrite E, (decode_date _ _ (date k)).
Qed.

(** C31. [timespec_add] keeps the nanoseconds field below one second and adds
    the two durations, for seconds below [2^62]. *)
Theorem timespec_add_correct a b :
  normal a -> normal b -> in_reach a -> in_reach b ->
  normal (timespec_add a b) /\ nanoseconds (timespec_add a b) = nanoseconds a + nanoseconds b.
Proof.
  unfold normal, in_reach. intros Ha Hb Hra Hrb. unfold timespec_add.
  rewrite (swrap_small 64 (tv_nsec a + tv_nsec b)) by lia. rewrite Z.gtb_ltb.
  destruct (Z.ltb_spec 999999999 (tv_nsec a + tv_nsec b)); unfold nanoseconds; cbn [tv_sec tv_nsec];
    rewrite !(swrap_small 64) by (rewrite ?(swrap_small 64); lia); lia.
Qed.

(** * Witnesses *)

(** A clock that ticks every 1000 transfers, ten of them spent on the update, during
    which every time register reads 0xFF; it stood at 31 December 2026, 23:59:58, BCD,
    24-hour. *)
Definition tick_phase (tr : bus) : Z :=
  let t := Z.of_nat (length tr) in 2 * (t / 1000) + (if 990 <=? t mod 1000 then 1 else 0).
Definition tick_date (k : Z) : Z * Z * Z * Z * Z * Z :=
  if k =? 0 then (58, 59, 23, 31, 12, 2026) else if k =? 1 then (59, 59, 23, 31, 12, 2026) else (0, 0, 0, 1, 1, 2027).
Definition tick_regs (k r : Z) : Z :=
  let '(sec, mi, h, d, mo, y) := tick_date k in
  match r with 0 => enc_bcd sec | 2 => enc_bcd mi | 4 => enc_bcd h | 7 => enc_bcd d | 8 => enc_bcd mo | 9 => enc_bcd (y mod 100) | _ => 0 end.
Definition tick_dev (tr : bus) (port : Z) : Z :=
  match last tr with
  | Some (POut _ r) =>
      if r =? 0x0A then (if Z.odd (tick_phase tr) then 0x80 else 0)
      else if r =? 0x0B then 0x02
      else if Z.odd (tick_phase tr) then 0xFF else tick_regs (tick_phase tr / 2) r
  | _ => 0
  end.

Lemma tick_regs_byte k r : 0 <= tick_regs k r < 256.
Proof. unfold tick_regs, tick_date. destruct (k =? 0); [|destruct (k =? 1)]; (repeat case_match; vm_compute; split; (reflexivity || discriminate)). Qed.

Lemma tick_length tr (l : bus) : length (tr ++ l) = (length tr + length l)%nat.
Proof. apply length_app. Qed.

#[local] Program Instance tick_clock : RtcClock tick_dev := {|
  rtc_phase := tick_phase; rtc_regs := tick_regs; rtc_format := 0x02; rtc_busy := 10; rtc_gap := 980;
|}.
Next Obligation.
  intros tr. unfold tick_dev. destruct (last tr) as [[?|? r]|]; try lia. repeat case_match; try lia. apply tick_regs_byte.
Qed.
Next Obligation. intros tr e. unfold tick_phase. rewrite tick_length. cbn [length]. repeat case_match; dm_lia. Qed.
Next Obligation. intros tr. unfold tick_dev. rewrite last_snoc. cbn. by destruct (Z.odd _). Qed.
Next Obligation. intros tr. unfold tick_dev. by rewrite last_snoc. Qed.
Next Obligation.
  intros tr r k Hr Hp. unfold tick_dev. rewrite last_snoc, Hp. rewrite Z.odd_mul. cbn [Z.odd andb].
  rewrite (Z.mul_comm 2 k), Z.div_mul by lia. unfold time_registers in Hr. set_unfold.
  by destruct Hr as [->|[->|[->|[->|[->|[->|[]]]]]]].
Qed.
Next Obligation.
  intros tr l Ho Hl. unfold tick_phase in *. rewrite tick_length. destruct (Z.leb_spec 990 (Z.of_nat (length tr) mod 1000)) as [Hx|Hx].
  - case_match; dm_lia.
  - rewrite Z.add_0_r, Z.odd_mul in Ho. done.
Qed.
Next Obligation.
  intros tr l k Hp Hq. unfold tick_phase in *. rewrite tick_length in Hq.
  destruct (Z.leb_spec 990 (Z.of_nat (length tr) mod 1000)), (Z.leb_spec 990 (Z.of_nat (length tr + length l) mod 1000)); dm_lia.
Qed.
Next Obligation. lia. Qed.

#[local] Instance no_heap : KernelHeap unit := {|
  kh_malloc _ := ret 0; kh_realloc _ _ := ret 0; kh_free _ := ret tt; kh_load _ := ret 0; kh_store _ _ := ret tt;
|}.
Definition clk0 : clk unit :=
  Clk 0 0 0 0 0 0 0 0 0 false 0 (Timespec 0 0) (Timespec 0 0) 0 0 0 0 tt (Con 0 1 0 0 0 0 (replicate 256 0) 0 []) [].

(** Read from the middle of the update to 23:59:59 on. *)
Definition clk_busy : clk unit := set_tbus (replicate 995 (POut 0x80 0)) clk0.

Lemma read_rtc_roundtrip_witness :
  tick_phase (tbus clk_busy) = 1 /\
  exists k b, read_rtc tick_dev 12 clk_busy = Ret tt (set_date (as_read rtc_format (tick_date k)) (set_tbus b clk_busy)) /\
    rtc_phase (tbus clk_busy) <= 2 * k <= rtc_phase b.
Proof.
  split; [vm_compute; reflexivity|].
  apply (read_rtc_roundtrip tick_dev tick_date 12 clk_busy).
  - cbn. lia.
  - intros k _. unfold tick_date, date_ok, shows. destruct (k =? 0) eqn:E0; [|destruct (k =? 1) eqn:E1];
      (split; [unfold CURRENT_YEAR; lia|]); cbn [rtc_regs tick_clock]; unfold tick_regs, tick_date; rewrite E0; try rewrite E1; repeat split.
Defined.

Lemma timespec_add_correct_witness :
  normal (timespec_add (Timespec 1 999999999) (Timespec 0 1333333)) /\
  nanoseconds (timespec_add (Timespec 1 999999999) (Timespec 0 1333333)) = 2001333332.
Proof.
  apply (timespec_add_correct (Timespec 1 999999999) (Timespec 0 1333333)); unfold normal, in_reach; cbn; lia.
Defined.
End TimeSpec.
