(* ===== verification/PrintTotal.v ===== *)
(** The format interpreter comes to an end, and prints that always come back.

    The kernel's messages are literal text with [%s] and integer directives ([%S],
    which is none, prints its letter and takes no argument).  For a format of that
    kind [plain] is a check by computation, and a print with it returns on every
    console that can take a character, whatever the numbers in it. *)
From Stdlib Require Import Ascii.
From S2P Require Import Prelude Numeral CString CStringSpec Printf PrintfSpec Putchar PutcharSpec.

Module PrintTotal.
Import PrintfSpec PutcharSpec.

(** Integer conversions of the messages. *)
Definition plain_conv (c : Z) : bool := is_integer_conv c && negb (c =? chr "b").
Definition terminated (p : list Z) : bool := existsb (fun c => c =? 0) p.

Fixpoint plain (f : list Z) (va : list va_arg) : bool :=
  match f with
  | [] => false
  | c :: f =>
      if c =? 0 then true
      else if negb (c =? chr "%") then plain f va
      else match f with
      | c1 :: f1 =>
          if plain_conv c1 then match va with Word _ :: va => plain f1 va | _ => false end
          else if c1 =? chr "s" then match va with Str p :: va => terminated p && plain f1 va | _ => false end
          else if c1 =? chr "S" then plain f1 va
          else match f1 with
          | c2 :: f2 =>
              if negb (c1 =? chr "l") then false
              else if plain_conv c2 then match va with Word _ :: va => plain f2 va | _ => false end
              else match f2 with
              | c3 :: f3 =>
                  if (c2 =? chr "l") && plain_conv c3 then match va with Word _ :: va => plain f3 va | _ => false end
                  else false
              | [] => false
              end
          | [] => false
          end
      | [] => false
      end
  end.

Local Abbreviation loop := (format_loop (S := list Z) no_float no_float out_record 0 0).
Local Abbreviation dir := (directive (S := list Z) no_float no_float out_record 0 0).

Lemma plain_conv_cases c : plain_conv c = true -> c = chr "d" \/ c = chr "i" \/ c = chr "u" \/ c = chr "x" \/ c = chr "X" \/ c = chr "o".
Proof.
  unfold plain_conv, is_integer_conv. intros [H Hb]%andb_true_iff. rewrite negb_true_iff, Z.eqb_neq in Hb.
  repeat (apply orb_true_iff in H as [H|H]); apply Z.eqb_eq in H; tauto.
Qed.

(** An integer conversion emits some text. *)
Lemma integer_returns c idx fl v va acc :
  plain_conv c = true -> 0 <= idx < 2 ^ 64 -> is_set fl FLAGS_PRECISION = false -> is_set fl FLAGS_HASH = false ->
  is_set fl FLAGS_ZEROPAD = false ->
  exists i acc', eval_specifier no_float no_float out_record 0 0 c idx 0 0 fl (Word v :: va) acc = Ret (i, va) acc' /\ 0 <= i < 2 ^ 64.
Proof.
  intros Hc Hi Hp Hh Hz. set (f := conv_flags c fl). set (w := int_value c f v).
  assert (Hbase : conv_base c = 16 \/ conv_base c = 8 \/ conv_base c = 10).
  { destruct (plain_conv_cases c Hc) as [->|[->|[->|[->|[->| ->]]]]]; vm_compute; tauto. }
  destruct (ntoa_long_layout idx (Z.abs w) (w <? 0) (conv_base c) 0 f) as (ds & _ & He); try lia.
  - pose proof (int_value_small c f v) as Hs. fold w in Hs. split; [lia|]. destruct Hbase as [->|[->| ->]]; cbn; lia.
  - by apply conv_flags_hash.
  - unfold f. by rewrite conv_flags_keeps.
  - set (e := Env _ out_record 0 0 no_float no_float).
    assert (Hic : is_integer_conv c = true) by (by apply andb_true_iff in Hc as [??]).
    pose proof (specifier_integer e c idx 0 fl v va ds acc Hic He) as Hrun.
    cbn [e e_out e_buffer e_maxlen e_ftoa e_etoa] in Hrun. rewrite Hrun. unfold bind. rewrite emit_record. do 2 eexists. split; [done|]. by apply adv_range.
Qed.

Lemma strnlen_returns p n k (acc : list Z) : terminated p = true -> exists m, strnlen_loop p n k acc = Ret m acc.
Proof.
  revert n k. induction p as [|c p IH]; intros n k Hp; [done|]. cbn [strnlen_loop terminated existsb] in *.
  destruct (c =? 0); [by eexists|]. destruct (n =? 0); [by eexists|]. by apply IH.
Qed.

Lemma str_loop_returns p idx (acc : list Z) :
  0 <= idx < 2 ^ 64 -> terminated p = true ->
  exists i acc', str_loop out_record 0 0 p false 0 idx acc = Ret i acc' /\ 0 <= i < 2 ^ 64.
Proof.
  intros Hi Hp. enough (H : forall q, exists i acc', str_loop out_record 0 0 p false q idx acc = Ret i acc' /\ 0 <= i < 2 ^ 64) by apply H.
  revert idx acc Hi Hp. induction p as [|c p IH]; intros idx acc Hi Hp q; [done|]. cbn [str_loop terminated existsb] in *.
  destruct (c =? 0); [by do 2 eexists|]. cbn [andb]. unfold bind. cbn. apply IH; [by apply wrap_range|done].
Qed.

Lemma string_returns idx p va acc :
  0 <= idx < 2 ^ 64 -> terminated p = true ->
  exists i acc', eval_specifier no_float no_float out_record 0 0 (chr "s") idx 0 0 0 (Str p :: va) acc = Ret (i, va) acc' /\ 0 <= i < 2 ^ 64.
Proof.
  intros Hi Hp. destruct (strnlen_returns p (u64 (-1)) 0 acc Hp) as [m Em].
  change (eval_specifier no_float no_float out_record 0 0 (chr "s") idx 0 0 0 (Str p :: va) acc)
    with (bind (_strnlen_s p (u64 (-1))) (fun l => let2! (idx, l) := pad_to out_record 0 0 l 0 idx in
      let! idx := str_loop out_record 0 0 p false 0 idx in ret (idx, va)) acc).
  rewrite (bind_Ret _ _ _ (u32 m) acc) by (unfold _strnlen_s; by rewrite (bind_Ret _ _ _ _ _ Em)).
  assert (Hpad : exists k, pad_to out_record 0 0 (u32 m) 0 idx acc = Ret (idx, k) acc).
  { unfold pad_to. pose proof (wrap_range 32 m ltac:(lia)). replace (Z.to_nat (0 - u32 m)) with O by lia. by eexists. }
  destruct Hpad as [k Ek]. rewrite (bind_Ret _ _ _ _ _ Ek).
  destruct (str_loop_returns p idx acc Hi Hp) as (i & acc' & E & Hr). rewrite (bind_Ret _ _ _ _ _ E). by do 2 eexists.
Qed.

Lemma dir_eq c f idx va acc fl :
  plain_conv c = true \/ c = chr "s" ->
  (fl = 0 -> dir (c :: f) idx va acc = bind (eval_specifier no_float no_float out_record 0 0 c idx 0 0 fl va) (fun '(i, va) => ret (i, f, va)) acc) /\
  (fl = FLAGS_LONG -> dir (chr "l" :: c :: f) idx va acc
     = bind (eval_specifier no_float no_float out_record 0 0 c idx 0 0 fl va) (fun '(i, va) => ret (i, f, va)) acc) /\
  (fl = Z.lor FLAGS_LONG FLAGS_LONG_LONG -> dir (chr "l" :: chr "l" :: c :: f) idx va acc
     = bind (eval_specifier no_float no_float out_record 0 0 c idx 0 0 fl va) (fun '(i, va) => ret (i, f, va)) acc).
Proof.
  intros [[->|[->|[->|[->|[->| ->]]]]]%plain_conv_cases| ->]; (split_and!; intros ->; reflexivity).
Qed.

Lemma loop_returns fuel f idx va acc :
  (length f < fuel)%nat -> 0 <= idx < 2 ^ 64 -> plain f va = true -> exists n acc', loop fuel f idx va acc = Ret n acc'.
Proof.
  revert f idx va acc. induction fuel as [|fuel IH]; intros f idx va acc Hf Hi Hp; [lia|].
  assert (Hdir : forall f f0 i0 va va0 acc acc0, dir f idx va acc = Ret (i0, f0, va0) acc0 -> (length f0 < fuel)%nat -> 0 <= i0 < 2 ^ 64 ->
    plain f0 va0 = true -> exists n acc', bind (dir f idx va) (fun '(i, g, v) => loop fuel g i v) acc = Ret n acc').
  { clear Hf Hp f va acc. intros f f0 i0 va va0 acc acc0 E Hl Hr Hp. rewrite (bind_Ret _ _ _ _ _ E). by apply IH. }
  destruct f as [|c f]; [done|]. cbn [plain] in Hp. cbn [format_loop deref tail length] in *. unfold bind at 1, ret at 1.
  destruct (c =? 0); [by do 2 eexists|]. destruct (negb (c =? chr "%")).
  { rewrite (bind_Ret _ _ _ tt (acc ++ [c])) by done. apply IH; [lia|by apply wrap_range|done]. }
  destruct f as [|c1 f1]; [done|]. cbn [length] in *. destruct (plain_conv c1) eqn:E1.
  { destruct va as [|[v| |] va]; try done. destruct (integer_returns c1 idx 0 v va acc) as (i & acc' & E & Hr); try done.
    eapply (Hdir _ f1 i _ va _ acc'); [|lia|done..]. destruct (dir_eq c1 f1 idx (Word v :: va) acc 0 (or_introl E1)) as (-> & _); [|done].
    by rewrite (bind_Ret _ _ _ _ _ E). }
  destruct (Z.eqb_spec c1 (chr "s")) as [->|_].
  { destruct va as [|[|p|] va]; try done. apply andb_true_iff in Hp as [Ht Hp].
    destruct (string_returns idx p va acc Hi Ht) as (i & acc' & E & Hr).
    eapply (Hdir _ f1 i _ va _ acc'); [|lia|done..]. destruct (dir_eq (chr "s") f1 idx (Str p :: va) acc 0 (or_intror eq_refl)) as (-> & _); [|done].
    by rewrite (bind_Ret _ _ _ _ _ E). }
  destruct (Z.eqb_spec c1 (chr "S")) as [->|_].
  { eapply (Hdir _ f1 (u64 (idx + 1)) _ va _ (acc ++ [chr "S"])); [reflexivity|lia|by apply wrap_range|done]. }
  destruct f1 as [|c2 f2]; [done|]. cbn [length] in *. destruct (Z.eqb_spec c1 (chr "l")) as [->|]; [|done]. cbn [negb] in Hp.
  destruct (plain_conv c2) eqn:E2.
  { destruct va as [|[v| |] va]; try done. destruct (integer_returns c2 idx FLAGS_LONG v va acc) as (i & acc' & E & Hr); try done.
    eapply (Hdir _ f2 i _ va _ acc'); [|lia|done..]. destruct (dir_eq c2 f2 idx (Word v :: va) acc FLAGS_LONG (or_introl E2)) as (_ & -> & _); [|done].
    by rewrite (bind_Ret _ _ _ _ _ E). }
  destruct f2 as [|c3 f3]; [done|]. cbn [length] in *. destruct (Z.eqb_spec c2 (chr "l")) as [->|]; [|done]. cbn [andb] in Hp.
  destruct (plain_conv c3) eqn:E3; [|done].
  destruct va as [|[v| |] va]; try done. set (fl := Z.lor FLAGS_LONG FLAGS_LONG_LONG).
  destruct (integer_returns c3 idx fl v va acc) as (i & acc' & E & Hr); try done.
  eapply (Hdir _ f3 i _ va _ acc'); [|lia|done..]. destruct (dir_eq c3 f3 idx (Word v :: va) acc fl (or_introl E3)) as (_ & _ & ->); [|done].
  by rewrite (bind_Ret _ _ _ _ _ E).
Qed.

Lemma rendered_plain format va : plain format va = true -> exists n text, rendered format va = Ret n text.
Proof. intros H. apply loop_returns; [lia|lia|done]. Qed.

(** C22. The format interpreter comes to an end: on every format and every argument list
    without doubles, with an output function that returns, it does what the text of the
    format says, whatever it prints to: where that text is defined it returns its
    length (as an [int]), and where it is not (the format or a string runs out without
    a terminator, as after a trailing [%], an argument is missing or of the wrong kind,
    or a numeral does not fit the conversion buffer) it stops with that fault; it never
    loops and never panics.  On a format of literal text, [%s], [%S] and
    [%d %i %u %x %X %o] with at most the modifier [l] or [ll], given terminated
    strings and numbers to match, it returns. *)
Theorem vsnprintf_terminates {C} ftoa etoa (out : out_fct_type (io C)) buffer maxlen format va s :
  integral va -> (forall c b i m s, exists s', out c b i m s = Ret tt s') ->
  match rendered format va with
  | Ret n _ => exists s', _vsnprintf ftoa etoa out buffer maxlen format va s = Ret (i32 n) s'
  | Fault x _ => exists s', _vsnprintf ftoa etoa out buffer maxlen format va s = Fault x s'
  | _ => False
  end /\
  (plain format va = true -> exists n s', _vsnprintf ftoa etoa out buffer maxlen format va s = Ret n s').
Proof.
  intros Hva Hout. pose proof (vsnprintf_ends ftoa etoa out buffer maxlen format va s Hva Hout) as He. split; [exact He|].
  intros (n & text & Hr)%rendered_plain. rewrite Hr in He. destruct He as [s' He]. by exists (i32 n), s'.
Qed.

Lemma vsnprintf_terminates_witness :
  exists n s', _vsnprintf (C := unit) no_float no_float _out_null 0x1000 8 (cstr "%d of %s") [Word 7; Str (cstr "nine")] (IO ∅ tt) = Ret n s'.
Proof.
  apply (vsnprintf_terminates no_float no_float _out_null 0x1000 8 (cstr "%d of %s") [Word 7; Str (cstr "nine")] (IO ∅ tt)).
  - repeat constructor.
  - intros c b i m s. exists s. reflexivity.
  - reflexivity.
Defined.

(** A console that takes every character: a panic mode, the boot phase that only
    logs, the boot loader's terminal, or the framebuffer terminal. *)
Definition outlet (s : con) : Prop := bootspace s = 1 \/ bootspace s = 2 \/ (bootspace s = 0 /\ term_context s <> 0).
Definition live (s : con) : Prop := log_ready s /\ (kerror_mode s = 1 \/ kerror_mode s = 2 \/ outlet s).

Section live.
Context (clock : list effect -> Z) (depth : nat).
Hypothesis Hdepth : (0 < depth)%nat.

Lemma putchar_live c s : live s -> exists s', _putchar clock depth c s = Ret tt s' /\ live s' /\ kerror_mode s' = kerror_mode s.
Proof.
  intros [Hl Hm]. destruct depth as [|n]; [lia|]. cbn [_putchar]. rewrite bind_get.
  assert (Hlog : forall s1 s', same_mode s s1 -> logged s1 s' -> live s' /\ kerror_mode s' = kerror_mode s).
  { intros s1 s' (Ek1 & Eb1 & _ & Et1 & _) ((Ek & Eb & _ & Et & _) & Hr & _). unfold live, outlet.
    rewrite Ek, Eb, Et, Ek1, Eb1, Et1. by split. }
  destruct (log_char_ready clock c s Hl) as (s2 & E2 & H2).
  assert (G1 : forall e, exists s', bind (emit_effect e) (fun _ => log_char clock c) s = Ret tt s' /\ live s' /\ kerror_mode s' = kerror_mode s).
  { intros e. set (s0 := set_effects (effects s ++ [e]) s). destruct (log_char_ready clock c s0 Hl) as (s' & E & H1). exists s'. split; [by rewrite (bind_Ret _ _ _ tt s0)|]. by apply (Hlog s0). }
  assert (G2 : exists s', log_char clock c s = Ret tt s' /\ live s' /\ kerror_mode s' = kerror_mode s).
  { exists s2. split; [done|]. apply (Hlog s); [apply same_mode_refl|done]. }
  destruct (Z.eqb_spec (kerror_mode s) 1); [exact (G1 _)|]. destruct (Z.eqb_spec (kerror_mode s) 2); [exact G2|].
  destruct Hm as [?|[?|[Hb|[Hb|[Hb Ht]]]]]; [done|done|by rewrite Hb| |rewrite Hb, (proj2 (Z.eqb_neq _ _) Ht); exact (G1 _)].
  rewrite Hb. cbn [Z.eqb Pos.eqb]. unfold voyager_page_tables_active. rewrite (bind_Ret (gets _) _ s _ s eq_refl).
  match goal with |- context [when (negb ?b)] => destruct b end; [|exact (G1 _)].
  by rewrite (bind_Ret (ret tt) _ s tt s).
Qed.

Lemma putchars_live text s : live s -> exists s', putchars (_putchar clock depth) text s = Ret tt s' /\ live s' /\ kerror_mode s' = kerror_mode s.
Proof.
  revert s. induction text as [|c text IH]; intros s Hs; [by exists s|]. unfold putchars. cbn [for_each].
  destruct (c =? 0) eqn:Ec; cbn [negb when].
  - destruct (IH s Hs) as (s' & E & H). exists s'. split; [|done]. rewrite (bind_Ret _ _ _ tt s) by done. exact E.
  - destruct (putchar_live c s Hs) as (s1 & E1 & H1 & K1). destruct (IH s1 H1) as (s2 & E2 & H2 & K2). exists s2.
    rewrite (bind_Ret _ _ _ _ _ E1). split; [exact E2|]. split; [done|congruence].
Qed.

(** A plain message returns. *)
Lemma print_live format va s :
  integral va -> plain format va = true -> live s ->
  exists s', printf_console (_putchar clock depth) format va s = Ret tt s' /\ live s' /\ kerror_mode s' = kerror_mode s.
Proof.
  intros Hi Hp Hs. destruct (rendered_plain format va Hp) as (n & text & Hr).
  rewrite (printf_console_eq _ format va n text s Hi Hr). by apply putchars_live.
Qed.
End live.
End PrintTotal.
