(* ===== verification/Gdt.v ===== *)
(** Segment descriptors, [src/src/gdt.c] and [src/src/include/gdt.h].

    The table is the record the source lays out; a selector is a byte offset into
    it.  Of the processor the model keeps GDTR, the segment registers and the task
    register: loading a register from a descriptor that does not have the type the
    processor requires for it is a general-protection fault. *)
From Stdlib Require Import Ascii.
From S2P Require Import Prelude Lock CString Printf Putchar.

Definition ReadWrite : Z := Z.shiftl 1 1.
Definition Execute : Z := Z.shiftl 1 3.
Definition Segments : Z := Z.shiftl 1 4.
Definition Present : Z := Z.shiftl 1 7.
Definition GDTAccessDPL (n : Z) : Z := Z.shiftl n 5.
Definition GDTKernelBaseSelector : Z := 0x28.
Definition GDTUserBaseSelector : Z := 0x48.
Definition GDTTSSSegment : Z := 0x50.
Definition code_access : Z := Z.lor ReadWrite (Z.lor Execute (Z.lor Segments Present)).
Definition data_access : Z := Z.lor ReadWrite (Z.lor Segments Present).
Definition GDTAccessUserCode : Z := Z.lor code_access (GDTAccessDPL 3).
Definition GDTAccessUserData : Z := Z.lor data_access (GDTAccessDPL 3).

(** [struct GDT_Entry] (the 16-bit and 32-bit entries have the same fields). *)
Record GDT_Entry : Type := Entry {
  limit_low : Z; base_low : Z; base_middle : Z; access_flag : Z; limit_flags : Z; base_high : Z;
}.
Record TSS_Entry : Type := TssEntry {
  t_length : Z; t_base_low : Z; t_base_mid : Z; t_flags : Z; t_flags2 : Z; t_base_high : Z; t_base_up : Z; t_reserved0 : Z;
}.
(** [struct GDT]: ten segment descriptors and the task-state descriptor. *)
Record GDT : Type := Gdt { segments : list GDT_Entry; gdt_tss : TSS_Entry }.

Definition gdt_image : GDT := Gdt
  [ Entry 0 0 0 0 0 0;
    Entry 0xffff 0 0 code_access 0 0;
    Entry 0xffff 0 0 data_access 0 0;
    Entry 0xffff 0 0 code_access 0xCF 0;
    Entry 0xffff 0 0 data_access 0xCF 0;
    Entry 0 0 0 code_access 0xA0 0;
    Entry 0 0 0 data_access 0x80 0;
    Entry 0 0 0 0 0 0;
    Entry 0 0 0 GDTAccessUserData 0x80 0;
    Entry 0 0 0 GDTAccessUserCode 0xA0 0 ]
  (TssEntry 104 0 0 0x89 0 0 0 0).
(** The 96 bytes of descriptors, rounded up to the alignment of the type. *)
Definition sizeof_gdt : Z := 0x1000.

Record segs : Type := Segs {
  gdt : GDT;
  gdtr : option (Z * Z);          (* size, offset *)
  cs : Z; ds : Z;                 (* ds, es, fs, gs and ss are always loaded together *)
  tr : Z;
  reload_lock : Z; tss_lock : Z;
  tss_rsp0 : Z; tss_ist1 : Z; rsp0 : Z;
  gcon : con;
}.
Definition set_tss (e : TSS_Entry) (s : segs) : segs :=
  Segs (Gdt (segments (gdt s)) e) (gdtr s) (cs s) (ds s) (tr s) (reload_lock s) (tss_lock s) (tss_rsp0 s) (tss_ist1 s) (rsp0 s) (gcon s).
Definition set_gdtr (v : Z * Z) (s : segs) : segs :=
  Segs (gdt s) (Some v) (cs s) (ds s) (tr s) (reload_lock s) (tss_lock s) (tss_rsp0 s) (tss_ist1 s) (rsp0 s) (gcon s).
Definition set_cs (v : Z) (s : segs) : segs :=
  Segs (gdt s) (gdtr s) v (ds s) (tr s) (reload_lock s) (tss_lock s) (tss_rsp0 s) (tss_ist1 s) (rsp0 s) (gcon s).
Definition set_ds (v : Z) (s : segs) : segs :=
  Segs (gdt s) (gdtr s) (cs s) v (tr s) (reload_lock s) (tss_lock s) (tss_rsp0 s) (tss_ist1 s) (rsp0 s) (gcon s).
Definition set_tr (v : Z) (s : segs) : segs :=
  Segs (gdt s) (gdtr s) (cs s) (ds s) v (reload_lock s) (tss_lock s) (tss_rsp0 s) (tss_ist1 s) (rsp0 s) (gcon s).
Definition set_reload_lock (v : Z) (s : segs) : segs :=
  Segs (gdt s) (gdtr s) (cs s) (ds s) (tr s) v (tss_lock s) (tss_rsp0 s) (tss_ist1 s) (rsp0 s) (gcon s).
Definition set_tss_lock (v : Z) (s : segs) : segs :=
  Segs (gdt s) (gdtr s) (cs s) (ds s) (tr s) (reload_lock s) v (tss_rsp0 s) (tss_ist1 s) (rsp0 s) (gcon s).
Definition set_stacks (r i : Z) (s : segs) : segs :=
  Segs (gdt s) (gdtr s) (cs s) (ds s) (tr s) (reload_lock s) (tss_lock s) r i r (gcon s).
Definition set_gcon (c : con) (s : segs) : segs :=
  Segs (gdt s) (gdtr s) (cs s) (ds s) (tr s) (reload_lock s) (tss_lock s) (tss_rsp0 s) (tss_ist1 s) (rsp0 s) c.

(** * The processor's side *)
Definition segment_at (g : GDT) (sel : Z) : option GDT_Entry :=
  if (0 <? sel) && (sel mod 8 =? 0) then segments g !! Z.to_nat (sel / 8) else None.
(** A present 64-bit ring-0 code segment: S, executable, present, DPL 0, L set
    and D clear. *)
Definition is_code64 (e : GDT_Entry) : bool :=
  Z.testbit (access_flag e) 7 && Z.testbit (access_flag e) 4 && Z.testbit (access_flag e) 3 &&
  (Z.land (Z.shiftr (access_flag e) 5) 3 =? 0) && Z.testbit (limit_flags e) 5 && negb (Z.testbit (limit_flags e) 6).
(** A present writable ring-0 data segment. *)
Definition is_data (e : GDT_Entry) : bool :=
  Z.testbit (access_flag e) 7 && Z.testbit (access_flag e) 4 && negb (Z.testbit (access_flag e) 3) &&
  Z.testbit (access_flag e) 1 && (Z.land (Z.shiftr (access_flag e) 5) 3 =? 0).

Definition load_cs (sel : Z) : K segs unit := fun s =>
  match gdtr s, segment_at (gdt s) sel with
  | Some _, Some e => if is_code64 e then Ret tt (set_cs sel s) else Fault sel s
  | _, _ => Fault sel s
  end.
Definition load_ds (sel : Z) : K segs unit := fun s =>
  match gdtr s, segment_at (gdt s) sel with
  | Some _, Some e => if is_data e then Ret tt (set_ds sel s) else Fault sel s
  | _, _ => Fault sel s
  end.
(** [ltr] needs an available task-state descriptor (type 9) at the selector and
    marks it busy. *)
Definition ltr (sel : Z) : K segs unit := fun s =>
  if (sel =? 80) && (t_flags (gdt_tss (gdt s)) =? 0x89) then
    let e := gdt_tss (gdt s) in
    Ret tt (set_tr sel (set_tss (TssEntry (t_length e) (t_base_low e) (t_base_mid e) 0x8B (t_flags2 e) (t_base_high e)
      (t_base_up e) (t_reserved0 e)) s))
  else Fault sel s.
(** The base address the processor assembles from a task-state descriptor. *)
Definition tss_base (e : TSS_Entry) : Z :=
  Z.lor (t_base_low e) (Z.lor (Z.shiftl (t_base_mid e) 16) (Z.lor (Z.shiftl (t_base_high e) 24) (Z.shiftl (t_base_up e) 32))).

(** * The routines *)
Section gdt.
Variable clock : list effect -> Z.
Variable depth : nat.
(** Link-time addresses of [gdt], [tss], [TssStack] and [ist1Stack]. *)
Variables (gdt_addr tss_addr tss_stack ist1_stack : Z).
Definition stack_bytes : Z := 0x100000.

Definition gsay (format : list Z) (va : list va_arg) : K segs unit :=
  zoom gcon set_gcon (printf_console (_putchar clock depth) format va).
Definition gsay_line (s : string) : K segs unit := gsay (chars "%s" ++ [10; 0]) [Str (cstr s)].
Definition gsay_hex (s : string) (v : Z) : K segs unit := gsay (chars s ++ chars "0x%llx" ++ [10; 0]) [Word v].

Definition tss_entry (addr : Z) : TSS_Entry :=
  TssEntry 104 (u16 addr) (u8 (Z.shiftr addr 16)) 0x89 0 (u8 (Z.shiftr addr 24)) (u32 (Z.shiftr addr 32)) 0.

Definition lgdt : K segs unit := modify (set_gdtr (sizeof_gdt - 1, gdt_addr)).

Definition gdt_reload : K segs unit :=
  let! _ := spinlock_test_and_acq reload_lock set_reload_lock in
  do! lgdt in
  do! load_cs 0x28 in
  do! load_ds 0x30 in
  spinlock_release reload_lock set_reload_lock.

Definition gdt_load_tss (tss : Z) : K segs unit :=
  let! _ := spinlock_test_and_acq tss_lock set_tss_lock in
  do! modify (set_tss (tss_entry tss)) in
  do! ltr 0x58 in
  spinlock_release tss_lock set_tss_lock.

Definition LoadGDT_Stage1 : K segs unit :=
  do! modify (set_tss (tss_entry tss_addr)) in
  do! gsay_line "------------------------------------" in
  do! gsay_line "|              GDT INFO            |" in
  do! gsay_line "------------------------------------" in
  do! gsay_line "GDT Offsets as follows: " in
  do! gsay_hex "GDT NULL Segment: " 0x00 in
  do! gsay_hex "GDT 16 Bit Code Segment: " 0x08 in
  do! gsay_hex "GDT 16 Bit Data Segment: " 0x10 in
  do! gsay_hex "GDT 32 Bit Code Segment: " 0x18 in
  do! gsay_hex "GDT 32 Bit Data Segment: " 0x20 in
  do! gsay_hex "GDT Kernel Code Segment: " 0x28 in
  do! gsay_hex "GDT Kernel Data Segment: " 0x30 in
  do! gsay_hex "GDT User NULL Segment: " 0x38 in
  do! gsay_hex "GDT User Code Segment: " 0x48 in
  do! gsay_hex "GDT User Data Segment: " 0x40 in
  do! gsay_hex "GDT TSS Segment: " 0x50 in
  do! gsay_line "------------------------------------" in
  do! gsay_line (String.concat (String "009" EmptyString) ["|     "; "   GDTR DATA"; ""; "       |"]) in
  do! gsay_line "------------------------------------" in
  do! gsay_hex "GDTR Size: " (sizeof_gdt - 1) in
  do! gsay_hex "GDTR Offset: " gdt_addr in
  do! gsay_line "------------------------------------" in
  do! modify (set_stacks (tss_stack + stack_bytes) (ist1_stack + stack_bytes)) in
  do! gsay_hex "" (tss_stack + stack_bytes) in
  do! lgdt in
  do! load_cs 0x28 in
  do! load_ds 0x30 in
  ltr GDTTSSSegment.
End gdt.
