(* ===== verification/Interrupts.v ===== *)
(** The interrupt descriptor table ([src/src/idt.c]) and the interrupt dispatcher
    ([src/src/interrupts.c]).

    A machine is the table, the vector pool and the two device drivers the
    dispatcher calls; the bus and the console are one, seen by both drivers.
    [dyn f] is the routine at the address [f] in [isr_delta], [resched] the call of
    [schedule()] in the timer handler. *)
From Stdlib Require Import Ascii.
From S2P Require Import Prelude CString Printf Putchar Pic Keyboard KHeap Time Gdt.

Definition IDT_MAX_DESCRIPTORS : Z := 256.
Definition IDT_CPU_EXCEPTION_COUNT : Z := 32.
Definition IDT_HDW_INTERRUPT_COUNT : Z := 16.
Definition IDT_DESCRIPTOR_X32_INTERRUPT : Z := 0x0E.
Definition IDT_DESCRIPTOR_PRESENT : Z := 0x80.
Definition IDT_DESCRIPTOR_EXCEPTION : Z := Z.lor IDT_DESCRIPTOR_X32_INTERRUPT IDT_DESCRIPTOR_PRESENT.
Definition IDT_DESCRIPTOR_EXTERNAL : Z := Z.lor IDT_DESCRIPTOR_X32_INTERRUPT IDT_DESCRIPTOR_PRESENT.

Record idt_desc_t : Type := Gate {
  g_base_low : Z; g_cs : Z; g_ist : Z; g_attributes : Z; g_base_mid : Z; g_base_high : Z; g_rsv0 : Z;
}.

Definition exception_messages : list string :=
  ["Division By Zero"; "Debug"; "Non Maskable Interrupt"; "Breakpoint"; "Into Detected Overflow"; "Out of Bounds";
   "Invalid Opcode"; "No Coprocessor"; "Double Fault"; "Coprocessor Segment Overrun"; "Bad TSS"; "Segment Not Present";
   "Stack Fault"; "General Protection Fault"; "Page Fault"; "Unknown Interrupt"; "Coprocessor Fault"; "Alignment Check";
   "Machine Check"; "Reserved"; "Reserved"; "Reserved"; "Reserved"; "Reserved"; "Reserved"; "Reserved"; "Reserved";
   "Reserved"; "Reserved"; "Reserved"; "Reserved"; "Reserved"].

(** The fields of [isr_xframe_t] that the handlers read. *)
Record isr_xframe_t : Type := Xframe {
  f_cr4 : Z; f_cr2 : Z; f_vector : Z; f_error_code : Z; f_rip : Z; f_cs : Z; f_rflags : Z; f_rsp : Z;
}.

Section interrupts.
Context {H : Type} `{KernelHeap H}.

Record mach : Type := Mach {
  idt : list idt_desc_t;
  idtr : option (Z * Z);             (* limit, base *)
  vectors : list bool;
  isr_delta : list Z;
  if_flag : bool;                    (* the interrupt flag *)
  mkbd : kbd;
  mclk : clk H;
}.
Definition set_idt (l : list idt_desc_t) (s : mach) : mach := Mach l (idtr s) (vectors s) (isr_delta s) (if_flag s) (mkbd s) (mclk s).
Definition set_idtr (v : Z * Z) (s : mach) : mach := Mach (idt s) (Some v) (vectors s) (isr_delta s) (if_flag s) (mkbd s) (mclk s).
Definition set_vectors (l : list bool) (s : mach) : mach := Mach (idt s) (idtr s) l (isr_delta s) (if_flag s) (mkbd s) (mclk s).
Definition set_delta (l : list Z) (s : mach) : mach := Mach (idt s) (idtr s) (vectors s) l (if_flag s) (mkbd s) (mclk s).
Definition set_if (b : bool) (s : mach) : mach := Mach (idt s) (idtr s) (vectors s) (isr_delta s) b (mkbd s) (mclk s).
Definition set_drivers (k : kbd) (c : clk H) (s : mach) : mach := Mach (idt s) (idtr s) (vectors s) (isr_delta s) (if_flag s) k c.

(** Each driver runs with the shared bus and console and hands them on. *)
Definition on_kbd {A} (c : K kbd A) : K mach A :=
  zoom mkbd (fun k s => set_drivers k (set_tbus (kbus k) (set_tcon (kcon k) (mclk s))) s) c.
Definition on_clk {A} (c : K (clk H) A) : K mach A :=
  zoom mclk (fun t s => set_drivers (set_kbus (tbus t) (set_kcon (tcon t) (mkbd s))) t s) c.
Definition on_pic (c : K bus unit) : K mach unit := on_kbd (on_bus c).

Variable clock : list effect -> Z.
Variable depth : nat.
Variable dev : bus -> Z -> Z.
(** Link-time addresses: [idt], and the stubs of [isr.asm] (100 of them). *)
Variable idt_addr : Z.
Variable isr_stub_table : list Z.
Variables (test_handler yield_isr_test : Z).

Definition msay (format : list Z) (va : list va_arg) : K mach unit :=
  on_kbd (on_con (printf_console (_putchar clock depth) format va)).
Definition msay_s (s : string) : K mach unit := msay (cstr "%s") [Str (cstr s)].
Definition msay_line (s : string) : K mach unit := msay (chars "%s" ++ [10; 0]) [Str (cstr s)].
Definition msay_hex (v : Z) : K mach unit := msay (chars "0x%llx" ++ [10; 0]) [Word v].
Definition msay_int (v : Z) : K mach unit := msay (chars "%i" ++ [10; 0]) [Word v].

(** * The table *)
Definition gate (isr flags ist : Z) : idt_desc_t :=
  Gate (Z.land isr 0xFFFF) GDTKernelBaseSelector ist flags (Z.land (Z.shiftr isr 16) 0xFFFF) (Z.land (Z.shiftr isr 32) 0xFFFFFFFF) 0.
Definition idt_set_descriptor (vector isr flags ist : Z) : K mach unit :=
  modify (fun s => set_idt (<[Z.to_nat vector := gate isr flags ist]> (idt s)) s).

(** [isr_stub_table[vector]]: reading past the table faults. *)
Definition stub (vector : Z) : K mach Z :=
  match isr_stub_table !! Z.to_nat vector with Some a => ret a | None => fault vector end.
Definition mark_vector (v : Z) (b : bool) : K mach unit :=
  modify (fun s => set_vectors (<[Z.to_nat v := b]> (vectors s)) s).

(** [lidt] *)
Definition idt_reload : K mach unit := modify (set_idtr (u16 (16 * IDT_MAX_DESCRIPTORS - 1), idt_addr)).

Definition idt_init : K mach unit :=
  do! for_range 0 (IDT_CPU_EXCEPTION_COUNT + IDT_HDW_INTERRUPT_COUNT) (fun vector =>
        let! isr := stub vector in
        do! (if 32 <=? vector then idt_set_descriptor vector isr IDT_DESCRIPTOR_EXTERNAL 1
             else idt_set_descriptor vector isr IDT_DESCRIPTOR_EXCEPTION 1) in
        mark_vector vector true) in
  do! idt_reload in
  modify (set_if true).

(** First free entry, from [i] on. *)
Fixpoint find_vector (l : list bool) (i : Z) : option Z :=
  match l with
  | [] => None
  | b :: l' => if b then find_vector l' (i + 1) else Some i
  end.
Definition idt_allocate_vector : K mach Z :=
  let! s := get in
  match find_vector (vectors s) 0 with
  | Some i => do! mark_vector i true in ret (u8 i)
  | None => ret 0
  end.
Definition idt_free_vector (vector : Z) : K mach unit :=
  do! idt_set_descriptor vector 0 0 0 in mark_vector vector false.

(** The common part of [idt_reg_test] and [yield_register]. *)
Definition register_handler (vector handler : Z) : K mach unit :=
  do! modify (fun s => set_delta (<[Z.to_nat vector := handler]> (isr_delta s)) s) in
  do! msay_s "ISR Delta Data: " in
  do! msay_hex handler in
  do! msay_s "Allocated Test ISR at Vector: " in
  do! msay_int vector in
  let! isr := stub vector in
  idt_set_descriptor vector isr IDT_DESCRIPTOR_EXTERNAL 1.
Definition idt_reg_test : K mach unit :=
  let! vector := idt_allocate_vector in
  if vector =? 0 then do! msay_line "Try Harder!" in (fun s => Hang s) else
  register_handler vector test_handler.
Definition yield_register : K mach unit :=
  let! vector := idt_allocate_vector in
  if vector =? 0 then panic "IDT VECTORS EXAUSTED!" else
  register_handler vector yield_isr_test.

(** * The dispatcher *)
Variable allow_sched : bool.
Variable resched : K (clk H) unit.
Variable dyn : Z -> K mach unit.

Definition irq_handler (frame : isr_xframe_t) : K mach unit :=
  let vector := f_vector frame in
  if (32 <=? vector) && (vector <? 48) then
    do! (if vector =? 32 then on_clk (sys_clock_handler_alt allow_sched resched)
         else if vector =? 33 then on_kbd (keyboard_handler clock depth dev)
         else ret tt) in
    on_pic (pic_send_eoi (u8 (vector - 32)))
  else if 48 <=? vector then
    let! s := get in
    match isr_delta s !! Z.to_nat vector with
    | None => fault vector
    | Some h =>
        do! msay (chars "IRQ Handoff to Dynamic Handler Using Vector: %i With Handler Located At Address: 0x%llx" ++ [10; 0])
              [Word vector; Word h] in
        if h =? 0 then panic "Kernel Panic: Invalid/NULL Dynamic ISR Vector! Not my fault... ok it's my fault."
        else dyn h
    end
  else panic "irq_handler: non-IRQ vector %i reached IRQ path".

(** The two routines whose addresses the kernel registers. *)
Definition test_handler_body : K mach unit := msay_line "Bingo".
Definition yield_isr_test_body : K mach unit := msay_line "BAM!".

(** * Processor exceptions

    [trace] and [dump] are the calls of [stack_trace(0)] and
    [stack_dump_asm(1, 0x1000)]; the last instruction is [cli; hlt]. *)
Variables (stack_trace_on_fault stack_trace_size : Z).
Variables (trace dump : K mach unit).

Definition msay_reg (label : string) (v : Z) : K mach unit := do! msay_s label in msay_hex v.
Definition panic_banner : string := "!!!!!!!!!!!!!!!!!!!!KERNEL PANIC!!!!!!!!!!!!!!!!!!!!!".

Definition isr_exception_handler (frame : isr_xframe_t) : K mach unit :=
  do! msay_line panic_banner in
  do! on_kbd (set_kerror_mode 1) in
  do! msay_s "ERROR: CPU EXCEPTION: " in
  do! match exception_messages !! Z.to_nat (f_vector frame) with
      | Some m => msay_s m
      | None => fault (f_vector frame)
      end in
  do! msay_reg " @ " (f_rip frame) in
  do! msay_s "FROM VECTOR NUMBER: " in
  do! msay_int (f_vector frame) in
  do! msay_reg "ERROR CODE: " (f_error_code frame) in
  do! msay_reg "CS REGISTER: " (f_cs frame) in
  do! msay_reg "CR2 REGISTER: " (f_cr2 frame) in
  do! msay_reg "CR4 REGISTER: " (f_cr4 frame) in
  do! msay_s "RSP REGISTER: " in
  do! msay (chars "0x%lx" ++ [10; 0]) [Word (f_rsp frame)] in
  do! msay_reg "RFLAGS REGISTER: " (f_rflags frame) in
  do! (if stack_trace_on_fault =? 1 then
         do! msay_s "NOTE: Will Page Fault if frames run out before the " in
         do! msay (cstr "%u") [Word stack_trace_size] in
         do! msay_line " frame cap, this is harmless dissregard it and the resulting additonal trace." in
         trace
       else when (stack_trace_on_fault =? 2) dump) in
  do! msay_line panic_banner in
  do! modify (set_if false) in
  (fun s => Hang s).
End interrupts.
