(* ===== verification/InterruptsSpec.v ===== *)
(** What the descriptor tables and the dispatcher promise: the segment registers
    and the task register are loaded from descriptors of the right kind, every
    gate leads to its stub through the kernel's code segment, the vector pool
    hands out each free vector once, and each hardware interrupt is served by
    its driver and acknowledged once at the controllers it came through. *)
From Stdlib Require Import Ascii.
From S2P Require Import Prelude Lock CString Printf PrintfSpec Putchar PutcharSpec PrintTotal Pic Keyboard KeyboardSpec KHeap Time Gdt Interrupts.

Module InterruptsSpec.
Import PrintfSpec PutcharSpec PrintTotal KeyboardSpec.

(** * Addresses in descriptors *)

(** The handler address the processor assembles from a gate. *)
Definition gate_base (g : idt_desc_t) : Z := Z.lor (g_base_low g) (Z.lor (Z.shiftl (g_base_mid g) 16) (Z.shiftl (g_base_high g) 32)).
(** A present 64-bit interrupt gate of ring 0. *)
Definition interrupt_gate (g : idt_desc_t) : bool := g_attributes g =? 0x8E.

Lemma land_ones_wrap k x : 0 <= k -> Z.land x (2 ^ k - 1) = wrap k x.
Proof. apply land_low. Qed.

Lemma testbit_high a n : 0 <= a < 2 ^ 64 -> 64 <= n -> Z.testbit a n = false.
Proof. intros Ha Hn. rewrite <- (Z.mod_small _ _ Ha). by apply Z.mod_pow2_bits_high. Qed.

(** A field of [w] bits of [a] taken at bit [k] and put back there. *)
Lemma field_bit a w k n :
  0 <= w -> 0 <= k -> 0 <= n -> Z.testbit (Z.shiftl (wrap w (Z.shiftr a k)) k) n = (k <=? n) && (n <? k + w) && Z.testbit a n.
Proof.
  intros Hw Hk Hn. rewrite Z.shiftl_spec by lia. destruct (Z.leb_spec k n); cbn [andb].
  - rewrite wrap_testbit, Z.shiftr_spec by lia. replace (n - k + k) with n by lia. f_equal.
    destruct (Z.ltb_spec (n - k) w), (Z.ltb_spec n (k + w)); lia || done.
  - by rewrite Z.testbit_neg_r by lia.
Qed.

Ltac bit_cases := repeat match goal with
  | |- context [(?a <=? ?b)] => destruct (Z.leb_spec a b)
  | |- context [(?a <? ?b)] => destruct (Z.ltb_spec a b)
  end; cbn [andb orb]; try lia; rewrite ?orb_false_r; try done.

Lemma gate_base_eq isr flags ist : 0 <= isr < 2 ^ 64 -> gate_base (gate isr flags ist) = isr.
Proof.
  intros Ha. unfold gate_base, gate. cbn [g_base_low g_base_mid g_base_high].
  change 0xFFFF with (2 ^ 16 - 1). change 0xFFFFFFFF with (2 ^ 32 - 1). rewrite !land_ones_wrap by lia.
  apply Z.bits_inj'. intros n Hn. rewrite !Z.lor_spec, !field_bit, wrap_testbit by lia. bit_cases. by rewrite testbit_high.
Qed.

Lemma tss_base_eq addr : 0 <= addr < 2 ^ 64 -> tss_base (tss_entry addr) = addr.
Proof.
  intros Ha. unfold tss_base, tss_entry. cbn [t_base_low t_base_mid t_base_high t_base_up].
  apply Z.bits_inj'. intros n Hn. rewrite !Z.lor_spec, !field_bit, wrap_testbit by lia. bit_cases. by rewrite testbit_high.
Qed.

Lemma wp_ret_unit {S} (o : outcome S unit) Q : wp o (fun _ => Q) -> exists s, o = Ret tt s /\ Q s.
Proof. destruct o as [[] s| | |]; simpl; try done. eauto. Qed.

(** * Segments *)
Section segments.
Context (clock : list effect -> Z) (depth : nat) (Hdepth : (0 < depth)%nat).

Lemma gsay_live format va s :
  integral va -> plain format va = true -> live (gcon s) -> exists c, gsay clock depth format va s = Ret tt (set_gcon c s) /\ live c.
Proof.
  intros Hi Hp Hs. destruct (print_live clock depth Hdepth format va _ Hi Hp Hs) as (c & E & Hc & _).
  exists c. split; [|done]. unfold gsay, zoom. by rewrite E.
Qed.

(** One message, then the rest: only the console changes. *)
Lemma wp_gsay_line {A} m (k : unit -> K segs A) s Q :
  plain (chars "%s" ++ [10; 0]) [Str (cstr m)] = true -> live (gcon s) ->
  (forall c, live c -> wp (k tt (set_gcon c s)) Q) -> wp (bind (gsay_line clock depth m) k s) Q.
Proof.
  intros Hp Hs Hk. destruct (gsay_live (chars "%s" ++ [10; 0]) [Str (cstr m)] s ltac:(by repeat constructor) Hp Hs) as (c & E & Hc).
  apply wp_bind. unfold gsay_line. rewrite E. by apply Hk.
Qed.

Lemma wp_gsay_hex {A} m v (k : unit -> K segs A) s Q :
  plain (chars m ++ chars "0x%llx" ++ [10; 0]) [Word v] = true -> live (gcon s) ->
  (forall c, live c -> wp (k tt (set_gcon c s)) Q) -> wp (bind (gsay_hex clock depth m v) k s) Q.
Proof.
  intros Hp Hs Hk. destruct (gsay_live (chars m ++ chars "0x%llx" ++ [10; 0]) [Word v] s ltac:(by repeat constructor) Hp Hs) as (c & E & Hc).
  apply wp_bind. unfold gsay_hex. rewrite E. by apply Hk.
Qed.

Lemma set_gcon_twice c c' s : set_gcon c (set_gcon c' s) = set_gcon c s.
Proof. done. Qed.

Ltac say_next :=
  match goal with
  | |- wp (bind (gsay_line _ _ ?m) ?k ?s) ?Q => refine (wp_gsay_line m k s Q _ _ _)
  | |- wp (bind (gsay_hex _ _ ?m ?v) ?k ?s) ?Q => refine (wp_gsay_hex m v k s Q _ _ _)
  end; [vm_compute; reflexivity|cbn [gcon set_gcon set_tss set_stacks]; assumption|];
  match goal with H : live _ |- _ => clear H end;
  let c := fresh "c" in intros c ?; cbv beta; rewrite ?set_gcon_twice.

(** Loading the registers from the table of the kernel. *)
Lemma load_cs_eq s : gdtr s <> None -> segments (gdt s) = segments gdt_image -> load_cs 0x28 s = Ret tt (set_cs 0x28 s).
Proof. intros Hr Hg. unfold load_cs, segment_at. rewrite Hg. by destruct (gdtr s). Qed.
Lemma load_ds_eq s : gdtr s <> None -> segments (gdt s) = segments gdt_image -> load_ds 0x30 s = Ret tt (set_ds 0x30 s).
Proof. intros Hr Hg. unfold load_ds, segment_at. rewrite Hg. by destruct (gdtr s). Qed.
Lemma ltr_eq s : t_flags (gdt_tss (gdt s)) = 0x89 ->
  exists e, ltr GDTTSSSegment s = Ret tt (set_tr GDTTSSSegment (set_tss e s)) /\ tss_base e = tss_base (gdt_tss (gdt s)) /\
    t_length e = t_length (gdt_tss (gdt s)).
Proof. intros Hf. unfold ltr. rewrite Hf. by eexists. Qed.

(** [LoadGDT_Stage1] comes back with the kernel's 64-bit code segment in CS,
    its data segment in the data registers, and the task register on the
    task-state descriptor, from which the processor assembles exactly the address
    of the task-state segment; the stacks of ring 0 and of IST 1 are the ends of
    their arrays, and no segment descriptor has changed. *)
Theorem LoadGDT_Stage1_correct gdt_addr tss_addr tss_stack ist1_stack s :
  live (gcon s) -> gdt s = gdt_image -> 0 <= tss_addr < 2 ^ 64 ->
  exists s', LoadGDT_Stage1 clock depth gdt_addr tss_addr tss_stack ist1_stack s = Ret tt s' /\
    gdtr s' = Some (0xFFF, gdt_addr) /\ cs s' = GDTKernelBaseSelector /\ ds s' = 0x30 /\ tr s' = GDTTSSSegment /\
    tss_base (gdt_tss (gdt s')) = tss_addr /\ t_length (gdt_tss (gdt s')) = 104 /\
    segments (gdt s') = segments gdt_image /\
    tss_rsp0 s' = tss_stack + stack_bytes /\ tss_ist1 s' = ist1_stack + stack_bytes.
Proof.
  intros Hl Hg Ht. unfold LoadGDT_Stage1. rewrite bind_modify.
  apply wp_ret_unit. repeat say_next. rewrite bind_modify. cbv beta. say_next. unfold lgdt. rewrite bind_modify.
  assert (Hs : segments (gdt s) = segments gdt_image) by (by rewrite Hg).
  set (s1 := set_gdtr _ _). rewrite (bind_Ret _ _ _ _ _ (load_cs_eq s1 ltac:(done) Hs)).
  rewrite (bind_Ret _ _ _ _ _ (load_ds_eq (set_cs 0x28 s1) ltac:(done) Hs)).
  destruct (ltr_eq (set_ds 0x30 (set_cs 0x28 s1)) eq_refl) as (e & -> & Hb & Hlen). cbn. rewrite Hb, Hlen.
  split_and!; try done. by apply tss_base_eq.
Qed.

Lemma gdt_reload_eq gdt_addr s :
  gdt s = gdt_image -> reload_lock s = 0 \/ reload_lock s = 1 ->
  exists s', gdt_reload gdt_addr s = Ret tt s' /\ cs s' = GDTKernelBaseSelector /\ ds s' = 0x30 /\ reload_lock s' = 0 /\ gdt s' = gdt s.
Proof.
  intros Hg Hl. unfold gdt_reload, lgdt, spinlock_test_and_acq.
  destruct Hl as [E|E]; unfold bind at 1; rewrite E; cbn [CAS Z.eqb]; rewrite bind_modify; set (s1 := set_gdtr _ _).
  all: rewrite (bind_Ret _ _ _ _ _ (load_cs_eq s1 ltac:(done) ltac:(cbn; by rewrite Hg))).
  all: rewrite (bind_Ret _ _ _ _ _ (load_ds_eq (set_cs 0x28 s1) ltac:(done) ltac:(cbn; by rewrite Hg))).
  all: unfold spinlock_release; cbn; rewrite ?E; by eexists.
Qed.

(** [gdt_load_tss] names a selector eight bytes past the task-state descriptor,
    the second half of the 16-byte descriptor: [ltr] faults whatever the state. *)
Theorem gdt_load_tss_faults tss s : exists s', gdt_load_tss tss s = Fault 0x58 s'.
Proof.
  unfold gdt_load_tss, spinlock_test_and_acq, CAS, bind, modify, ltr. destruct (tss_lock s =? 0); by eexists.
Qed.
End segments.

(** * The interrupt table *)
Section table.
Context {H : Type} `{KernelHeap H}.
Variables (idt_addr : Z) (stubs : list Z).

Lemma insert_new {A} (l : list A) (v : Z) x : 0 <= v < Z.of_nat (length l) -> <[Z.to_nat v := x]> l !! Z.to_nat v = Some x.
Proof. intros. apply list_lookup_insert_eq. lia. Qed.
Lemma insert_old {A} (l : list A) (v w : Z) x : 0 <= v -> 0 <= w -> v <> w -> <[Z.to_nat v := x]> l !! Z.to_nat w = l !! Z.to_nat w.
Proof. intros. apply list_lookup_insert_ne. lia. Qed.

(** Vector [v] leads to its stub on the stack of IST 1, and is taken. *)
Definition wired (s : mach (H := H)) (v : Z) : Prop :=
  exists isr, stubs !! Z.to_nat v = Some isr /\ idt s !! Z.to_nat v = Some (gate isr IDT_DESCRIPTOR_EXTERNAL 1) /\
    vectors s !! Z.to_nat v = Some true.

Definition tables_sized (s : mach (H := H)) : Prop := length (idt s) = 256%nat /\ length (vectors s) = 256%nat.

Lemma idt_init_wires (s : mach (H := H)) :
  tables_sized s -> (48 <= length stubs)%nat ->
  exists s', idt_init idt_addr stubs s = Ret tt s' /\ tables_sized s' /\ if_flag s' = true /\
    idtr s' = Some (16 * IDT_MAX_DESCRIPTORS - 1, idt_addr) /\ (forall v, 0 <= v < 48 -> wired s' v) /\
    (forall v, 48 <= v -> idt s' !! Z.to_nat v = idt s !! Z.to_nat v /\ vectors s' !! Z.to_nat v = vectors s !! Z.to_nat v) /\
    mkbd s' = mkbd s /\ mclk s' = mclk s /\ isr_delta s' = isr_delta s.
Proof.
  intros [Hi Hv] Hs. apply wp_ret_unit. unfold idt_init. apply wp_bind.
  set (I := fun (i : Z) (s' : mach (H := H)) => tables_sized s' /\ (forall v, 0 <= v < i -> wired s' v) /\
    (forall v, i <= v -> idt s' !! Z.to_nat v = idt s !! Z.to_nat v /\ vectors s' !! Z.to_nat v = vectors s !! Z.to_nat v) /\
    mkbd s' = mkbd s /\ mclk s' = mclk s /\ isr_delta s' = isr_delta s).
  eapply wp_mono; [apply (wp_for_range I)|].
  - vm_compute. discriminate.
  - unfold I. split; [done|]. split; [intros v ?; lia|]. by split.
  - intros j s1 Hj ([Hi1 Hv1] & Hw & Ho & Hk). change (IDT_CPU_EXCEPTION_COUNT + IDT_HDW_INTERRUPT_COUNT) with 48 in Hj.
    destruct (lookup_lt_is_Some_2 stubs (Z.to_nat j) ltac:(lia)) as [isr Hl]. unfold stub. rewrite Hl.
    rewrite (bind_Ret _ _ _ isr s1) by done.
    replace (if 32 <=? j then idt_set_descriptor j isr IDT_DESCRIPTOR_EXTERNAL 1 else idt_set_descriptor j isr IDT_DESCRIPTOR_EXCEPTION 1)
      with (idt_set_descriptor (H := H) j isr IDT_DESCRIPTOR_EXTERNAL 1) by (by destruct (32 <=? j)).
    unfold idt_set_descriptor. rewrite bind_modify. unfold mark_vector, modify, I, wired, tables_sized. cbn.
    rewrite !length_insert. split; [done|]. split; [|split; [|done]].
    + intros v Hvj. destruct (decide (v = j)) as [->|Hne]; [exists isr; rewrite !insert_new by lia; done|].
      rewrite !insert_old by lia. apply Hw. lia.
    + intros v Hvj. rewrite !insert_old by lia. apply Ho. lia.
  - intros [] s1 (Ht & Hw & Ho & Hk). unfold idt_reload. rewrite bind_modify. cbn.
    split; [exact Ht|]. split; [done|]. split; [done|]. split; [exact Hw|]. split; [exact Ho|exact Hk].
Qed.

(** ** The pool of vectors *)
Inductive vop : Type := VAlloc | VFree (v : Z).
Definition run_vop (o : vop) : K (mach (H := H)) Z :=
  match o with VAlloc => idt_allocate_vector | VFree v => do! idt_free_vector v in ret 0 end.
Fixpoint run_vops (l : list vop) : K (mach (H := H)) (list Z) :=
  match l with
  | [] => ret []
  | o :: l => let! r := run_vop o in let! rs := run_vops l in ret (r :: rs)
  end.

(** The pool as a set of free vectors. *)
Inductive vstep : gset Z -> vop -> Z -> gset Z -> Prop :=
| vstep_alloc F v : v ∈ F -> (forall w, w ∈ F -> v <= w) -> vstep F VAlloc v (F ∖ {[v]})
| vstep_exhausted : vstep ∅ VAlloc 0 ∅
| vstep_free F v : vstep F (VFree v) 0 (F ∪ {[v]}).
Inductive vsteps : gset Z -> list vop -> list Z -> gset Z -> Prop :=
| vsteps_nil F : vsteps F [] [] F
| vsteps_cons F o r F1 l rs F2 : vstep F o r F1 -> vsteps F1 l rs F2 -> vsteps F (o :: l) (r :: rs) F2.

Definition dynamic (v : Z) : Prop := 48 <= v < 256.
(** [F] is the set of free vectors, all of them dynamic. *)
Definition pool (s : mach (H := H)) (F : gset Z) : Prop :=
  tables_sized s /\ (forall v, v ∈ F -> dynamic v) /\ (forall v, 0 <= v < 256 -> vectors s !! Z.to_nat v = Some (negb (bool_decide (v ∈ F)))).

Lemma find_vector_spec l i :
  match find_vector l i with
  | Some v => exists k, v = i + Z.of_nat k /\ l !! k = Some false /\ forall j, (j < k)%nat -> l !! j = Some true
  | None => forall j, (j < length l)%nat -> l !! j = Some true
  end.
Proof.
  revert i. induction l as [|b l IH]; intros i; cbn [find_vector]; [simpl; lia|]. destruct b.
  - specialize (IH (i + 1)). destruct (find_vector l (i + 1)).
    + destruct IH as (k & -> & Hk & Hj). exists (S k). split; [lia|]. split; [done|]. intros [|j] ?; [done|]. apply Hj. lia.
    + intros [|j] ?; [done|]. apply IH. simpl in *. lia.
  - exists O. split; [lia|]. split; [done|]. lia.
Qed.

Lemma run_vop_refines o s F :
  pool s F -> match o with VAlloc => True | VFree v => dynamic v end ->
  exists r s' F', run_vop o s = Ret r s' /\ vstep F o r F' /\ pool s' F' /\ (forall v, 0 <= v < 48 -> idt s' !! Z.to_nat v = idt s !! Z.to_nat v).
Proof.
  intros ([Hi Hv] & HF & Hm) Ho. destruct o as [|v]; cbn [run_vop].
  - unfold idt_allocate_vector. rewrite bind_get. pose proof (find_vector_spec (vectors s) 0) as Hf.
    destruct (find_vector (vectors s) 0) as [v|].
    + destruct Hf as (k & -> & Hk & Hj). rewrite Z.add_0_l. apply lookup_lt_Some in Hk as Hkl.
      assert (Hkf : Z.of_nat k ∈ F).
      { specialize (Hm (Z.of_nat k) ltac:(lia)). rewrite Nat2Z.id, Hk in Hm. by case_bool_decide. }
      do 2 eexists. exists (F ∖ {[Z.of_nat k]}). split; [rewrite wrap_small by lia; reflexivity|]. split_and!.
      * constructor; [done|]. intros w Hw. destruct (HF w Hw) as [Hw0 Hw1]. apply Z.le_ngt. intros Hlt.
        specialize (Hm w ltac:(lia)). rewrite (Hj (Z.to_nat w)) in Hm by lia. by rewrite bool_decide_true in Hm.
      * split; [by unfold tables_sized; cbn; rewrite length_insert|]. split; [set_solver|]. intros w Hw. cbn.
        destruct (decide (w = Z.of_nat k)) as [->|Hne].
        -- rewrite insert_new by lia. rewrite bool_decide_false; [done|set_solver].
        -- rewrite insert_old, Hm by lia. do 2 f_equal. apply bool_decide_ext. set_solver.
      * done.
    + do 2 eexists. exists ∅. assert (F = ∅) as ->.
      { apply set_eq. intros w. split; [|set_solver]. intros Hw. destruct (HF w Hw).
        specialize (Hm w ltac:(lia)). rewrite Hf in Hm by lia. by rewrite bool_decide_true in Hm. }
      split; [reflexivity|]. split; [apply vstep_exhausted|]. split; [split; [by split|by split]|done].
  - do 2 eexists. exists (F ∪ {[v]}). split; [reflexivity|]. split; [constructor|]. destruct Ho as [Ho0 Ho1]. split.
    + split; [by unfold tables_sized; cbn; rewrite !length_insert|]. split; [unfold dynamic in *; set_solver|]. intros w Hw. cbn.
      destruct (decide (w = v)) as [->|Hne].
      * rewrite insert_new by lia. rewrite bool_decide_true; [done|set_solver].
      * rewrite insert_old, Hm by lia. do 2 f_equal. apply bool_decide_ext. set_solver.
    + intros w Hw. cbn. by rewrite insert_old by lia.
Qed.

Lemma vstep_dynamic F o r F' : (forall v, v ∈ F -> dynamic v) -> vstep F o r F' -> r = 0 \/ dynamic r.
Proof. intros HF Hs. destruct Hs; auto. Qed.

(** C34. The vector pool is a set of free vectors: any sequence of
    [idt_allocate_vector] and [idt_free_vector] calls on dynamic vectors returns
    what the set returns, the least free vector or 0 when there is none; a
    returned vector is never one of the 48 reserved ones, and their gates stay. *)
Theorem vector_pool_refines l s F :
  pool s F -> Forall (fun o => match o with VAlloc => True | VFree v => dynamic v end) l ->
  exists rs s' F', run_vops l s = Ret rs s' /\ vsteps F l rs F' /\ pool s' F' /\ Forall (fun r => r = 0 \/ dynamic r) rs /\
    (forall v, 0 <= v < 48 -> idt s' !! Z.to_nat v = idt s !! Z.to_nat v).
Proof.
  intros Hp Hl. revert s F Hp. induction Hl as [|o l Ho _ IH]; intros s F Hp.
  { exists [], s, F. split_and!; try done; constructor. }
  destruct (run_vop_refines o s F Hp Ho) as (r & s1 & F1 & E1 & Hs1 & Hp1 & Hk1).
  destruct (IH s1 F1 Hp1) as (rs & s2 & F2 & E2 & Hs2 & Hp2 & Hr2 & Hk2).
  exists (r :: rs), s2, F2. split; [|split_and!].
  - cbn [run_vops]. rewrite (bind_Ret _ _ _ _ _ E1), (bind_Ret _ _ _ _ _ E2). done.
  - by econstructor.
  - done.
  - constructor; [|done]. destruct Hp as (_ & HF & _). by eapply vstep_dynamic.
  - intros v Hv. rewrite Hk2 by done. by apply Hk1.
Qed.

(** C33. [idt_init] enables interrupts with a table in which each of the 48
    reserved vectors is a present interrupt gate: the address the processor
    assembles from it is that of its stub, its selector names a 64-bit ring-0 code
    segment of the kernel's descriptor table, and it switches to the stack of IST
    1; the other gates and the other entries of the pool are unchanged. *)
Theorem idt_init_correct (s : mach (H := H)) :
  tables_sized s -> (48 <= length stubs)%nat -> Forall (fun a => 0 <= a < 2 ^ 64) stubs ->
  exists s', idt_init idt_addr stubs s = Ret tt s' /\ if_flag s' = true /\ idtr s' = Some (16 * 256 - 1, idt_addr) /\
    (forall v, 0 <= v < 48 -> exists g e, idt s' !! Z.to_nat v = Some g /\ vectors s' !! Z.to_nat v = Some true /\
       stubs !! Z.to_nat v = Some (gate_base g) /\ interrupt_gate g = true /\ g_ist g = 1 /\
       segment_at gdt_image (g_cs g) = Some e /\ is_code64 e = true) /\
    (forall v, 48 <= v -> idt s' !! Z.to_nat v = idt s !! Z.to_nat v /\ vectors s' !! Z.to_nat v = vectors s !! Z.to_nat v).
Proof.
  intros Ht Hl Ha. destruct (idt_init_wires s Ht Hl) as (s' & E & _ & Hif & Hr & Hw & Ho & _).
  exists s'. split; [done|]. split; [done|]. split; [done|]. split; [|done]. intros v Hv.
  destruct (Hw v Hv) as (isr & Hs & Hg & Hb). eexists _, _. split; [exact Hg|]. split; [done|].
  rewrite gate_base_eq by (by eapply Forall_lookup_1 in Ha). by split_and!.
Qed.
End table.

(** * The dispatcher *)
Section dispatch.
Context {H : Type} `{KernelHeap H}.
Context (clock : list effect -> Z) (depth : nat) (Hdepth : (0 < depth)%nat) (dev : bus -> Z -> Z).

(** The two drivers see one bus and one console. *)
Definition shared (s : mach (H := H)) : Prop := kbus (mkbd s) = tbus (mclk s) /\ kcon (mkbd s) = tcon (mclk s).

(** What went out over the ports. *)
Definition outs (tr : bus) : list (Z * Z) := omap (fun e => match e with POut p v => Some (p, v) | PIn _ _ => None end) tr.
(** The end-of-interrupt commands for a line: the slave controller first. *)
Definition acks (irq : Z) : list (Z * Z) :=
  (if 8 <=? irq then [(PIC_SLAVE_COMMAND, PIC_EOI)] else []) ++ [(PIC_MASTER_COMMAND, PIC_EOI)].

Lemma outs_app tr tr' : outs (tr ++ tr') = outs tr ++ outs tr'.
Proof. apply omap_app. Qed.

Lemma eoi_outs irq tr : exists tr', pic_send_eoi irq tr = Ret tt tr' /\ outs tr' = outs tr ++ acks irq.
Proof.
  unfold pic_send_eoi, when, acks. destruct (8 <=? irq); eexists; (split; [reflexivity|]);
    rewrite ?outs_app, <- ?app_assoc; reflexivity.
Qed.

(** The keyboard driver only reads from the ports. *)
Lemma push_outs d : keeps (fun s => outs (kbus s)) (kbd_push clock depth d).
Proof.
  unfold kbd_push, set_kerror_mode, kprint, on_con, stack_set.
  apply keeps_bind; [apply keeps_get|]. intros s. destruct (_ =? _).
  - repeat (apply keeps_bind; [by apply keeps_zoom|intros _]). by apply keeps_zoom.
  - apply keeps_bind; [|intros _; by apply keeps_modify]. intros s1. by destruct (_ && _).
Qed.

Lemma inb_outs port : keeps (fun s => outs (kbus s)) (on_bus (inb dev port)).
Proof. intros s. unfold on_bus, zoom, inb. cbn. by rewrite outs_app, app_nil_r. Qed.

Lemma keyboard_outs : keeps (fun s => outs (kbus s)) (keyboard_handler clock depth dev).
Proof.
  unfold keyboard_handler. apply keeps_bind; [apply inb_outs|]. intros st. destruct (_ =? 0); [apply keeps_ret|].
  apply keeps_bind; [apply inb_outs|]. intros code. destruct (is_set code 128); [apply keeps_ret|].
  destruct (128 <=? code); [apply keeps_ret|]. destruct (code =? 28).
  - apply keeps_bind; [by apply keeps_modify|intros _; apply push_outs].
  - destruct (keyboard_map !! _); [|done]. apply keeps_bind; [by apply keeps_modify|intros _]. apply keeps_when, push_outs.
Qed.

Section hardware.
Variables (allow_sched : bool) (resched : K (clk H) unit) (dyn : Z -> K (mach (H := H)) unit).
(** [schedule()] comes back with the devices and the tick count as they were. *)
Hypothesis Hresched : forall t, exists t', resched t = Ret tt t' /\ tbus t' = tbus t /\ tcon t' = tcon t /\ system_timer_ms t' = system_timer_ms t.

Lemma timer_served (t : clk H) : exists t', sys_clock_handler_alt allow_sched resched t = Ret tt t' /\ tbus t' = tbus t /\ tcon t' = tcon t /\
  system_timer_ms t' = u64 (system_timer_ms t + 1).
Proof.
  unfold sys_clock_handler_alt, count_tick. rewrite !bind_modify. destruct allow_sched; cbn [when]; [|by eexists].
  set (t1 := set_counts _ _ _ _). destruct (Hresched t1) as (t' & E & Hb & Hc & Hms). exists t'. by rewrite E, Hb, Hc, Hms.
Qed.

(** C32. A hardware interrupt is served by its driver and acknowledged once: the
    timer advances the tick count, the keyboard queues the pending character, the
    other lines do nothing; after the driver, and only then, the controllers the
    line goes through get exactly one end-of-interrupt command, the slave before
    the master. *)
Theorem irq_handler_correct frame (s : mach (H := H)) :
  let v := f_vector frame in
  shared s -> ready (mkbd s) -> 32 <= v < 48 ->
  exists s', irq_handler clock depth dev allow_sched resched dyn frame s = Ret tt s' /\ shared s' /\ ready (mkbd s') /\
    outs (kbus (mkbd s')) = outs (kbus (mkbd s)) ++ acks (v - 32) /\
    queue (mkbd s') = (if v =? 33 then enq_opt (pending_char dev (kbus (mkbd s))) (queue (mkbd s)) else queue (mkbd s)) /\
    system_timer_ms (mclk s') = (if v =? 32 then u64 (system_timer_ms (mclk s) + 1) else system_timer_ms (mclk s)) /\
    idt s' = idt s /\ vectors s' = vectors s /\ isr_delta s' = isr_delta s.
Proof.
  intros v [Hsb Hsc] Hr Hv. unfold irq_handler. fold v.
  rewrite (proj2 (Z.leb_le 32 v)), (proj2 (Z.ltb_lt v 48)) by lia. cbn [andb].
  assert (Heoi : forall s1 : mach (H := H), shared s1 -> ready (mkbd s1) -> exists s2, on_pic (pic_send_eoi (u8 (v - 32))) s1 = Ret tt s2 /\
    shared s2 /\ ready (mkbd s2) /\ outs (kbus (mkbd s2)) = outs (kbus (mkbd s1)) ++ acks (v - 32) /\ queue (mkbd s2) = queue (mkbd s1) /\
    system_timer_ms (mclk s2) = system_timer_ms (mclk s1) /\ idt s2 = idt s1 /\ vectors s2 = vectors s1 /\ isr_delta s2 = isr_delta s1).
  { intros s1 [Hb Hc] Hr1. rewrite wrap_small by lia. destruct (eoi_outs (v - 32) (kbus (mkbd s1))) as (tr & E & Ho).
    unfold on_pic, on_kbd, on_bus, zoom. rewrite E. eexists. split; [reflexivity|]. split; [done|]. split; [exact Hr1|]. by split_and!. }
  destruct (Z.eqb_spec v 32) as [E32|E32]; [|destruct (Z.eqb_spec v 33) as [E33|E33]].
  - destruct (timer_served (mclk s)) as (t & Et & Htb & Htc & Hms).
    set (s1 := set_drivers (set_kbus (tbus t) (set_kcon (tcon t) (mkbd s))) t s).
    rewrite (bind_Ret _ _ _ tt s1) by (unfold on_clk, zoom; by rewrite Et).
    assert (Hk : mkbd s1 = mkbd s) by (unfold s1; cbn; rewrite Htb, Htc, <- Hsb, <- Hsc; by destruct (mkbd s)).
    destruct (Heoi s1) as (s2 & E2 & Hs2 & Hr2 & Ho & Hq & Hm2 & Hrest); [done|by rewrite Hk|]. exists s2. rewrite E2, Ho, Hq, Hm2, Hk.
    rewrite (proj2 (Z.eqb_neq v 33)) by lia. done.
  - destruct (keyboard_handler_spec clock depth dev Hdepth (mkbd s) Hr) as (k & Ek & Hrk & Hqk).
    set (s1 := set_drivers k (set_tbus (kbus k) (set_tcon (kcon k) (mclk s))) s).
    rewrite (bind_Ret _ _ _ tt s1) by (unfold on_kbd, zoom; by rewrite Ek).
    destruct (Heoi s1) as (s2 & E2 & Hs2 & Hr2 & Ho & Hq & Hm2 & Hrest); [done|done|]. exists s2. rewrite E2, Ho, Hq, Hm2.
    pose proof (keyboard_outs (mkbd s)) as Hk. rewrite Ek in Hk. cbn [final] in Hk. change (kbus (mkbd s1)) with (kbus k). by rewrite Hk.
  - rewrite (bind_Ret _ _ _ tt s) by done. by apply Heoi.
Qed.

Lemma msay_live format va (s : mach (H := H)) :
  integral va -> plain format va = true -> live (kcon (mkbd s)) ->
  exists c, msay clock depth format va s = Ret tt (set_drivers (set_kcon c (mkbd s)) (set_tbus (kbus (mkbd s)) (set_tcon c (mclk s))) s) /\ live c.
Proof.
  intros Hi Hp Hs. destruct (print_live clock depth Hdepth format va _ Hi Hp Hs) as (c & E & Hc & _).
  exists c. split; [|done]. unfold msay, on_kbd, on_con, zoom. by rewrite E.
Qed.

(** A vector above the hardware lines goes to the registered routine, after one
    message; an unregistered one, and an exception vector, panic. *)
Theorem irq_handler_dynamic frame (s : mach (H := H)) :
  let v := f_vector frame in
  live (kcon (mkbd s)) -> length (isr_delta s) = 256%nat ->
  (v < 32 -> exists m, irq_handler clock depth dev allow_sched resched dyn frame s = Panic m s) /\
  (48 <= v < 256 -> exists h c, isr_delta s !! Z.to_nat v = Some h /\
    let s1 := set_drivers (set_kcon c (mkbd s)) (set_tbus (kbus (mkbd s)) (set_tcon c (mclk s))) s in
    (h = 0 -> exists m, irq_handler clock depth dev allow_sched resched dyn frame s = Panic m s1) /\
    (h <> 0 -> irq_handler clock depth dev allow_sched resched dyn frame s = dyn h s1)).
Proof.
  intros v Hl Hd. unfold irq_handler. fold v. split; intros Hv.
  - rewrite (proj2 (Z.leb_gt 32 v)), (proj2 (Z.leb_gt 48 v)) by lia. by eexists.
  - rewrite (proj2 (Z.ltb_ge v 48)), andb_false_r, (proj2 (Z.leb_le 48 v)), bind_get by lia.
    destruct (lookup_lt_is_Some_2 (isr_delta s) (Z.to_nat v) ltac:(lia)) as [h Hh]. rewrite Hh.
    destruct (msay_live (chars "IRQ Handoff to Dynamic Handler Using Vector: %i With Handler Located At Address: 0x%llx" ++ [10; 0])
      [Word v; Word h] s) as (c & E & _); [by repeat constructor|vm_compute; reflexivity|done|].
    exists h, c. split; [done|]. rewrite (bind_Ret _ _ _ _ _ E). split.
    + intros ->. by eexists.
    + intros Hne. by rewrite (proj2 (Z.eqb_neq h 0)).
Qed.
End hardware.

(** [isr.asm] has 100 stubs, the pool has 256 vectors: registering a handler when
    the least free vector is 100 or more reads past the stub table. *)
Theorem idt_reg_test_past_stubs stubs handler (s : mach (H := H)) v :
  live (kcon (mkbd s)) -> length stubs = 100%nat -> find_vector (vectors s) 0 = Some v -> 100 <= v < 256 ->
  exists s', idt_reg_test clock depth stubs handler s = Fault v s'.
Proof.
  intros Hl Hs Hf Hv. unfold idt_reg_test, idt_allocate_vector. rewrite bind_assoc, bind_get, Hf.
  unfold mark_vector. rewrite bind_assoc, bind_modify, (bind_Ret _ _ _ (u8 v) _ eq_refl), wrap_small, (proj2 (Z.eqb_neq v 0)) by lia.
  unfold register_handler. rewrite bind_modify. set (s1 := set_delta _ _).
  destruct (msay_live (cstr "%s") [Str (cstr "ISR Delta Data: ")] s1) as (c1 & E1 & H1); [by repeat constructor|vm_compute; reflexivity|done|].
  unfold msay_s at 1. rewrite (bind_Ret _ _ _ _ _ E1). set (s2 := set_drivers _ _ s1).
  destruct (msay_live (chars "0x%llx" ++ [10; 0]) [Word handler] s2) as (c2 & E2 & H2); [by repeat constructor|vm_compute; reflexivity|done|].
  unfold msay_hex. rewrite (bind_Ret _ _ _ _ _ E2). set (s3 := set_drivers _ _ s2).
  destruct (msay_live (cstr "%s") [Str (cstr "Allocated Test ISR at Vector: ")] s3) as (c3 & E3 & H3); [by repeat constructor|vm_compute; reflexivity|done|].
  unfold msay_s. rewrite (bind_Ret _ _ _ _ _ E3). set (s4 := set_drivers _ _ s3).
  destruct (msay_live (chars "%i" ++ [10; 0]) [Word v] s4) as (c4 & E4 & H4); [by repeat constructor|vm_compute; reflexivity|done|].
  unfold msay_int. rewrite (bind_Ret _ _ _ _ _ E4). unfold stub. rewrite lookup_ge_None_2 by lia. by eexists.
Qed.
End dispatch.

(** * Witnesses *)
Definition con0 : con := boot_console 1 0.
Lemma con0_live : live con0.
Proof. split; [by left|]. right. right. by left. Qed.

Definition segs0 : segs := Segs gdt_image None 0 0 0 0 0 0 0 0 con0.

Lemma LoadGDT_Stage1_correct_witness :
  exists s', LoadGDT_Stage1 (fun _ => 0) 1 0x1000 0xFFFFFFFF80123450 0x200000 0x400000 segs0 = Ret tt s' /\
    cs s' = 0x28 /\ tr s' = 0x50 /\ tss_base (gdt_tss (gdt s')) = 0xFFFFFFFF80123450 /\ tss_rsp0 s' = 0x300000.
Proof.
  destruct (LoadGDT_Stage1_correct (fun _ => 0) 1 ltac:(lia) 0x1000 0xFFFFFFFF80123450 0x200000 0x400000 segs0 con0_live eq_refl ltac:(lia))
    as (s' & E & _ & Hcs & _ & Htr & Hb & _ & _ & Hr & _).
  exists s'. split; [exact E|]. split; [exact Hcs|]. split; [exact Htr|]. split; [exact Hb|exact Hr].
Defined.

Definition clock0 : clk unit :=
  Clk 0 0 0 0 0 0 0 0 0 false 0 (Timespec 0 0) (Timespec 0 0) 0 0 0 0 tt con0 [].
(** A machine at boot, and one whose reserved vectors are taken. *)
Definition mach0 (taken : nat) : mach (H := unit) :=
  Mach (replicate 256 (Gate 0 0 0 0 0 0 0)) None (replicate taken true ++ replicate (256 - taken) false) (replicate 256 0) false kbd0 clock0.
Definition stubs0 : list Z := (fun i => 0xFFFFFFFF80000000 + 16 * i) <$> seqZ 0 100.

Lemma mach0_pool : pool (mach0 254) {[254; 255]}.
Proof.
  split; [by split|]. split; [unfold dynamic; set_solver by lia|]. intros v Hv.
  assert (Hall : Forall (fun v => vectors (mach0 254) !! Z.to_nat v = Some (negb (bool_decide (v ∈ ({[254; 255]} : gset Z))))) (seqZ 0 256))
    by (apply (bool_decide_unpack _); vm_compute; exact I).
  eapply Forall_elem in Hall; [exact Hall|]. apply elem_of_seqZ. lia.
Qed.

Lemma vector_pool_refines_witness :
  exists rs s' F', run_vops [VAlloc; VAlloc; VAlloc; VFree 254; VAlloc] (mach0 254) = Ret rs s' /\ rs = [254; 255; 0; 0; 254] /\
    vsteps {[254; 255]} [VAlloc; VAlloc; VAlloc; VFree 254; VAlloc] rs F'.
Proof.
  destruct (vector_pool_refines [VAlloc; VAlloc; VAlloc; VFree 254; VAlloc] (mach0 254) {[254; 255]} mach0_pool
    ltac:(repeat constructor; unfold dynamic; lia)) as (rs & s' & F' & E & Hs & _).
  exists rs, s', F'. split; [exact E|]. split; [|exact Hs]. vm_compute in E. injection E as <- <-. reflexivity.
Defined.

Lemma idt_init_correct_witness :
  exists s', idt_init 0x5000 stubs0 (mach0 0) = Ret tt s' /\ if_flag s' = true /\
    exists g, idt s' !! 33%nat = Some g /\ gate_base g = 0xFFFFFFFF80000210.
Proof.
  destruct (idt_init_correct 0x5000 stubs0 (mach0 0) ltac:(by split) ltac:(vm_compute; lia)
    ltac:(apply (bool_decide_unpack _); vm_compute; exact I)) as (s' & E & Hif & _ & Hg & _).
  exists s'. split; [exact E|]. split; [exact Hif|]. destruct (Hg 33 ltac:(lia)) as (g & _ & Hl & _ & Hs & _).
  exists g. split; [exact Hl|]. vm_compute in Hs. injection Hs as Hs. symmetry. exact Hs.
Defined.

Lemma irq_handler_correct_witness :
  exists s', irq_handler (fun _ => 0) 1 two_keys true (ret tt) (fun _ => ret tt) (Xframe 0 0 33 0 0 0 0 0) (mach0 48) = Ret tt s' /\
    queue (mkbd s') = [104] /\ outs (kbus (mkbd s')) = [(0x20, 0x20)].
Proof.
  destruct (irq_handler_correct (fun _ => 0) 1 ltac:(lia) two_keys true (ret tt) (fun _ => ret tt)
    ltac:(intros t; by exists t) (Xframe 0 0 33 0 0 0 0 0) (mach0 48) ltac:(by split) kbd0_ready ltac:(cbn; lia))
    as (s' & E & _ & _ & Ho & Hq & _).
  exists s'. split; [exact E|]. split; [rewrite Hq; vm_compute; reflexivity|rewrite Ho; vm_compute; reflexivity].
Defined.
End InterruptsSpec.
