(* ===== verification/Font.v ===== *)
(** The built-in font of the framebuffer terminal, the table [builtin_font] of
    [src/src/terminal/framebuffer.c]: 256 glyphs of 16 bytes, one byte per row. *)
From S2P Require Import Prelude.

Definition builtin_font : list Z :=
  [0; 0; 0; 0; 0; 0; 0; 0; 0; 0; 0; 0; 0; 0; 0; 0; 0; 60; 66; 129; 129; 165; 165; 129; 129; 165; 153; 129; 66; 60; 0; 0;
   0; 60; 126; 255; 255; 219; 219; 255; 255; 219; 231; 255; 126; 60; 0; 0; 0; 0; 0; 108; 254; 254; 254; 124; 124; 56; 56; 16; 16; 0; 0; 0;
   0; 16; 16; 56; 56; 124; 124; 254; 124; 124; 56; 56; 16; 16; 0; 0; 0; 0; 0; 24; 60; 60; 219; 255; 255; 219; 24; 24; 60; 0; 0; 0;
   0; 0; 0; 24; 60; 126; 255; 255; 255; 102; 24; 24; 60; 0; 0; 0; 0; 0; 0; 0; 0; 0; 48; 120; 120; 48; 0; 0; 0; 0; 0; 0;
   255; 255; 255; 255; 255; 255; 231; 195; 195; 231; 255; 255; 255; 255; 255; 255; 0; 0; 0; 0; 0; 120; 204; 132; 132; 204; 120; 0; 0; 0; 0; 0;
   255; 255; 255; 255; 255; 195; 153; 189; 189; 153; 195; 255; 255; 255; 255; 255; 0; 0; 0; 30; 14; 30; 50; 120; 204; 204; 204; 120; 0; 0; 0; 0;
   0; 0; 0; 120; 204; 204; 204; 120; 48; 252; 48; 48; 0; 0; 0; 0; 0; 0; 16; 24; 28; 30; 22; 18; 16; 16; 112; 240; 224; 0; 0; 0;
   0; 48; 56; 44; 38; 50; 58; 46; 38; 34; 98; 226; 198; 14; 12; 0; 0; 0; 0; 24; 24; 219; 60; 231; 60; 219; 24; 24; 0; 0; 0; 0;
   0; 0; 0; 128; 192; 224; 248; 254; 248; 224; 192; 128; 0; 0; 0; 0; 0; 0; 0; 2; 6; 14; 62; 254; 62; 14; 6; 2; 0; 0; 0; 0;
   0; 0; 48; 120; 252; 48; 48; 48; 48; 48; 252; 120; 48; 0; 0; 0; 0; 0; 204; 204; 204; 204; 204; 204; 204; 204; 0; 204; 204; 0; 0; 0;
   0; 0; 127; 219; 219; 219; 219; 123; 27; 27; 27; 27; 27; 0; 0; 0; 0; 0; 124; 198; 96; 56; 108; 198; 198; 108; 56; 12; 198; 124; 0; 0;
   0; 0; 0; 0; 0; 0; 0; 0; 0; 0; 254; 254; 254; 0; 0; 0; 0; 0; 48; 120; 252; 48; 48; 48; 48; 48; 252; 120; 48; 252; 0; 0;
   0; 0; 48; 120; 252; 48; 48; 48; 48; 48; 48; 48; 48; 0; 0; 0; 0; 0; 48; 48; 48; 48; 48; 48; 48; 48; 252; 120; 48; 0; 0; 0;
   0; 0; 0; 0; 0; 24; 12; 254; 254; 12; 24; 0; 0; 0; 0; 0; 0; 0; 0; 0; 0; 48; 96; 254; 254; 96; 48; 0; 0; 0; 0; 0;
   0; 0; 0; 0; 0; 0; 0; 192; 192; 192; 254; 0; 0; 0; 0; 0; 0; 0; 0; 0; 0; 36; 102; 255; 255; 102; 36; 0; 0; 0; 0; 0;
   0; 0; 0; 0; 16; 16; 56; 56; 124; 124; 254; 254; 0; 0; 0; 0; 0; 0; 0; 0; 254; 254; 124; 124; 56; 56; 16; 16; 0; 0; 0; 0;
   0; 0; 0; 0; 0; 0; 0; 0; 0; 0; 0; 0; 0; 0; 0; 0; 0; 0; 48; 120; 120; 120; 120; 48; 48; 48; 0; 48; 48; 0; 0; 0;
   0; 0; 204; 204; 204; 204; 204; 0; 0; 0; 0; 0; 0; 0; 0; 0; 0; 0; 108; 108; 108; 254; 108; 108; 108; 254; 108; 108; 108; 0; 0; 0;
   0; 24; 24; 124; 198; 192; 192; 124; 6; 6; 198; 124; 24; 24; 0; 0; 0; 0; 198; 198; 12; 12; 24; 56; 48; 96; 96; 198; 198; 0; 0; 0;
   0; 0; 56; 108; 108; 56; 48; 118; 222; 204; 204; 222; 118; 0; 0; 0; 0; 0; 24; 24; 24; 48; 0; 0; 0; 0; 0; 0; 0; 0; 0; 0;
   0; 0; 24; 48; 96; 96; 96; 96; 96; 96; 96; 48; 24; 0; 0; 0; 0; 0; 96; 48; 24; 24; 24; 24; 24; 24; 24; 48; 96; 0; 0; 0;
   0; 0; 0; 0; 0; 108; 56; 254; 56; 108; 0; 0; 0; 0; 0; 0; 0; 0; 0; 0; 0; 24; 24; 126; 24; 24; 0; 0; 0; 0; 0; 0;
   0; 0; 0; 0; 0; 0; 0; 0; 0; 0; 0; 24; 24; 48; 0; 0; 0; 0; 0; 0; 0; 0; 0; 254; 0; 0; 0; 0; 0; 0; 0; 0;
   0; 0; 0; 0; 0; 0; 0; 0; 0; 0; 0; 24; 24; 0; 0; 0; 0; 0; 6; 6; 12; 12; 24; 56; 48; 96; 96; 192; 192; 0; 0; 0;
   0; 0; 124; 198; 198; 198; 214; 214; 214; 198; 198; 198; 124; 0; 0; 0; 0; 0; 24; 56; 120; 24; 24; 24; 24; 24; 24; 24; 126; 0; 0; 0;
   0; 0; 124; 198; 6; 6; 12; 24; 48; 96; 192; 192; 254; 0; 0; 0; 0; 0; 124; 198; 6; 6; 60; 6; 6; 6; 6; 198; 124; 0; 0; 0;
   0; 0; 4; 12; 28; 60; 108; 204; 254; 12; 12; 12; 12; 0; 0; 0; 0; 0; 254; 192; 192; 192; 252; 6; 6; 6; 6; 198; 124; 0; 0; 0;
   0; 0; 60; 96; 192; 192; 252; 198; 198; 198; 198; 198; 124; 0; 0; 0; 0; 0; 254; 198; 6; 6; 12; 24; 48; 48; 48; 48; 48; 0; 0; 0;
   0; 0; 124; 198; 198; 198; 124; 198; 198; 198; 198; 198; 124; 0; 0; 0; 0; 0; 124; 198; 198; 198; 198; 126; 6; 6; 6; 12; 120; 0; 0; 0;
   0; 0; 0; 0; 0; 0; 0; 24; 24; 0; 0; 24; 24; 0; 0; 0; 0; 0; 0; 0; 0; 0; 0; 24; 24; 0; 0; 24; 24; 48; 0; 0;
   0; 0; 6; 12; 24; 48; 96; 192; 96; 48; 24; 12; 6; 0; 0; 0; 0; 0; 0; 0; 0; 0; 254; 0; 254; 0; 0; 0; 0; 0; 0; 0;
   0; 0; 192; 96; 48; 24; 12; 6; 12; 24; 48; 96; 192; 0; 0; 0; 0; 0; 124; 198; 198; 6; 12; 24; 48; 48; 0; 48; 48; 0; 0; 0;
   0; 0; 124; 198; 198; 198; 222; 222; 222; 222; 192; 192; 126; 0; 0; 0; 0; 0; 56; 108; 198; 198; 198; 198; 254; 198; 198; 198; 198; 0; 0; 0;
   0; 0; 252; 198; 198; 198; 252; 198; 198; 198; 198; 198; 252; 0; 0; 0; 0; 0; 124; 198; 192; 192; 192; 192; 192; 192; 192; 198; 124; 0; 0; 0;
   0; 0; 248; 204; 198; 198; 198; 198; 198; 198; 198; 204; 248; 0; 0; 0; 0; 0; 254; 192; 192; 192; 252; 192; 192; 192; 192; 192; 254; 0; 0; 0;
   0; 0; 254; 192; 192; 192; 252; 192; 192; 192; 192; 192; 192; 0; 0; 0; 0; 0; 124; 198; 192; 192; 192; 222; 198; 198; 198; 198; 126; 0; 0; 0;
   0; 0; 198; 198; 198; 198; 198; 254; 198; 198; 198; 198; 198; 0; 0; 0; 0; 0; 252; 48; 48; 48; 48; 48; 48; 48; 48; 48; 252; 0; 0; 0;
   0; 0; 30; 12; 12; 12; 12; 12; 12; 12; 204; 204; 120; 0; 0; 0; 0; 0; 198; 198; 204; 216; 240; 224; 240; 216; 204; 198; 198; 0; 0; 0;
   0; 0; 192; 192; 192; 192; 192; 192; 192; 192; 192; 192; 254; 0; 0; 0; 0; 0; 198; 198; 238; 254; 214; 214; 214; 198; 198; 198; 198; 0; 0; 0;
   0; 0; 198; 198; 230; 230; 246; 222; 206; 206; 198; 198; 198; 0; 0; 0; 0; 0; 124; 198; 198; 198; 198; 198; 198; 198; 198; 198; 124; 0; 0; 0;
   0; 0; 252; 198; 198; 198; 198; 252; 192; 192; 192; 192; 192; 0; 0; 0; 0; 0; 124; 198; 198; 198; 198; 198; 198; 198; 246; 218; 108; 6; 0; 0;
   0; 0; 252; 198; 198; 198; 198; 252; 216; 204; 204; 198; 198; 0; 0; 0; 0; 0; 124; 198; 192; 96; 48; 24; 12; 6; 6; 198; 124; 0; 0; 0;
   0; 0; 255; 24; 24; 24; 24; 24; 24; 24; 24; 24; 24; 0; 0; 0; 0; 0; 198; 198; 198; 198; 198; 198; 198; 198; 198; 198; 124; 0; 0; 0;
   0; 0; 198; 198; 198; 198; 198; 198; 198; 198; 108; 56; 16; 0; 0; 0; 0; 0; 198; 198; 198; 198; 214; 214; 214; 214; 254; 108; 108; 0; 0; 0;
   0; 0; 198; 198; 198; 108; 56; 56; 56; 108; 198; 198; 198; 0; 0; 0; 0; 0; 204; 204; 204; 204; 204; 120; 48; 48; 48; 48; 48; 0; 0; 0;
   0; 0; 254; 6; 6; 12; 24; 48; 96; 192; 192; 192; 254; 0; 0; 0; 0; 0; 120; 96; 96; 96; 96; 96; 96; 96; 96; 96; 120; 0; 0; 0;
   0; 0; 192; 192; 96; 96; 48; 56; 24; 12; 12; 6; 6; 0; 0; 0; 0; 0; 120; 24; 24; 24; 24; 24; 24; 24; 24; 24; 120; 0; 0; 0;
   0; 0; 16; 56; 108; 198; 0; 0; 0; 0; 0; 0; 0; 0; 0; 0; 0; 0; 0; 0; 0; 0; 0; 0; 0; 0; 0; 0; 0; 0; 255; 0;
   0; 0; 24; 24; 24; 12; 0; 0; 0; 0; 0; 0; 0; 0; 0; 0; 0; 0; 0; 0; 0; 124; 6; 6; 126; 198; 198; 198; 126; 0; 0; 0;
   0; 0; 192; 192; 192; 220; 230; 198; 198; 198; 198; 230; 220; 0; 0; 0; 0; 0; 0; 0; 0; 124; 198; 192; 192; 192; 192; 198; 124; 0; 0; 0;
   0; 0; 6; 6; 6; 118; 206; 198; 198; 198; 198; 206; 118; 0; 0; 0; 0; 0; 0; 0; 0; 124; 198; 198; 254; 192; 192; 192; 126; 0; 0; 0;
   0; 0; 28; 54; 48; 48; 252; 48; 48; 48; 48; 48; 48; 0; 0; 0; 0; 0; 0; 0; 0; 118; 206; 198; 198; 198; 206; 118; 6; 198; 124; 0;
   0; 0; 192; 192; 192; 220; 230; 198; 198; 198; 198; 198; 198; 0; 0; 0; 0; 0; 24; 0; 0; 56; 24; 24; 24; 24; 24; 24; 60; 0; 0; 0;
   0; 0; 6; 0; 0; 30; 6; 6; 6; 6; 6; 6; 198; 198; 124; 0; 0; 0; 192; 192; 192; 198; 204; 216; 240; 240; 216; 204; 198; 0; 0; 0;
   0; 0; 56; 24; 24; 24; 24; 24; 24; 24; 24; 24; 60; 0; 0; 0; 0; 0; 0; 0; 0; 236; 254; 214; 214; 214; 214; 198; 198; 0; 0; 0;
   0; 0; 0; 0; 0; 220; 230; 198; 198; 198; 198; 198; 198; 0; 0; 0; 0; 0; 0; 0; 0; 124; 198; 198; 198; 198; 198; 198; 124; 0; 0; 0;
   0; 0; 0; 0; 0; 220; 230; 198; 198; 198; 230; 220; 192; 192; 192; 0; 0; 0; 0; 0; 0; 118; 206; 198; 198; 198; 206; 118; 6; 6; 6; 0;
   0; 0; 0; 0; 0; 220; 230; 192; 192; 192; 192; 192; 192; 0; 0; 0; 0; 0; 0; 0; 0; 124; 198; 192; 112; 28; 6; 198; 124; 0; 0; 0;
   0; 0; 48; 48; 48; 254; 48; 48; 48; 48; 48; 54; 28; 0; 0; 0; 0; 0; 0; 0; 0; 198; 198; 198; 198; 198; 198; 198; 124; 0; 0; 0;
   0; 0; 0; 0; 0; 198; 198; 198; 198; 198; 108; 56; 16; 0; 0; 0; 0; 0; 0; 0; 0; 198; 198; 214; 214; 214; 214; 254; 108; 0; 0; 0;
   0; 0; 0; 0; 0; 198; 198; 108; 56; 56; 108; 198; 198; 0; 0; 0; 0; 0; 0; 0; 0; 198; 198; 198; 198; 198; 206; 118; 6; 198; 124; 0;
   0; 0; 0; 0; 0; 254; 6; 12; 24; 48; 96; 192; 254; 0; 0; 0; 0; 0; 28; 48; 48; 48; 48; 224; 48; 48; 48; 48; 28; 0; 0; 0;
   0; 0; 48; 48; 48; 48; 48; 0; 48; 48; 48; 48; 48; 0; 0; 0; 0; 0; 224; 48; 48; 48; 48; 28; 48; 48; 48; 48; 224; 0; 0; 0;
   0; 0; 0; 118; 220; 0; 0; 0; 0; 0; 0; 0; 0; 0; 0; 0; 0; 0; 0; 16; 16; 56; 56; 108; 108; 198; 198; 254; 0; 0; 0; 0;
   0; 0; 60; 102; 192; 192; 192; 192; 192; 192; 102; 60; 24; 204; 120; 0; 0; 0; 108; 108; 0; 198; 198; 198; 198; 198; 198; 198; 124; 0; 0; 0;
   0; 12; 24; 48; 0; 124; 198; 198; 254; 192; 192; 192; 126; 0; 0; 0; 0; 16; 56; 108; 0; 124; 6; 6; 126; 198; 198; 198; 126; 0; 0; 0;
   0; 0; 108; 108; 0; 124; 6; 6; 126; 198; 198; 198; 126; 0; 0; 0; 0; 96; 48; 24; 0; 124; 6; 6; 126; 198; 198; 198; 126; 0; 0; 0;
   0; 56; 108; 56; 0; 124; 6; 6; 126; 198; 198; 198; 126; 0; 0; 0; 0; 0; 0; 0; 0; 124; 198; 192; 192; 192; 192; 198; 124; 24; 12; 56;
   0; 16; 56; 108; 0; 124; 198; 198; 254; 192; 192; 192; 126; 0; 0; 0; 0; 0; 108; 108; 0; 124; 198; 198; 254; 192; 192; 192; 126; 0; 0; 0;
   0; 96; 48; 24; 0; 124; 198; 198; 254; 192; 192; 192; 126; 0; 0; 0; 0; 0; 108; 108; 0; 56; 24; 24; 24; 24; 24; 24; 60; 0; 0; 0;
   0; 16; 56; 108; 0; 56; 24; 24; 24; 24; 24; 24; 60; 0; 0; 0; 0; 96; 48; 24; 0; 56; 24; 24; 24; 24; 24; 24; 60; 0; 0; 0;
   198; 198; 16; 56; 108; 198; 198; 198; 254; 198; 198; 198; 198; 0; 0; 0; 56; 108; 56; 0; 56; 108; 198; 198; 198; 254; 198; 198; 198; 0; 0; 0;
   24; 48; 96; 0; 254; 192; 192; 252; 192; 192; 192; 192; 254; 0; 0; 0; 0; 0; 0; 0; 0; 236; 54; 54; 118; 222; 216; 216; 110; 0; 0; 0;
   0; 0; 30; 60; 108; 204; 204; 254; 204; 204; 204; 204; 206; 0; 0; 0; 0; 16; 56; 108; 0; 124; 198; 198; 198; 198; 198; 198; 124; 0; 0; 0;
   0; 0; 108; 108; 0; 124; 198; 198; 198; 198; 198; 198; 124; 0; 0; 0; 0; 96; 48; 24; 0; 124; 198; 198; 198; 198; 198; 198; 124; 0; 0; 0;
   0; 16; 56; 108; 0; 198; 198; 198; 198; 198; 198; 198; 124; 0; 0; 0; 0; 96; 48; 24; 0; 198; 198; 198; 198; 198; 198; 198; 124; 0; 0; 0;
   0; 0; 108; 108; 0; 198; 198; 198; 198; 198; 206; 118; 6; 198; 124; 0; 108; 108; 0; 124; 198; 198; 198; 198; 198; 198; 198; 198; 124; 0; 0; 0;
   108; 108; 0; 198; 198; 198; 198; 198; 198; 198; 198; 198; 124; 0; 0; 0; 0; 0; 0; 48; 48; 120; 204; 192; 192; 204; 120; 48; 48; 0; 0; 0;
   0; 0; 56; 108; 96; 96; 96; 248; 96; 96; 96; 230; 252; 0; 0; 0; 0; 0; 204; 204; 204; 120; 48; 252; 48; 252; 48; 48; 48; 0; 0; 0;
   0; 0; 248; 204; 204; 248; 196; 204; 222; 204; 204; 204; 198; 0; 0; 0; 0; 0; 14; 27; 24; 24; 24; 126; 24; 24; 24; 24; 24; 216; 112; 0;
   0; 12; 24; 48; 0; 124; 6; 6; 126; 198; 198; 198; 126; 0; 0; 0; 0; 12; 24; 48; 0; 56; 24; 24; 24; 24; 24; 24; 60; 0; 0; 0;
   0; 12; 24; 48; 0; 124; 198; 198; 198; 198; 198; 198; 124; 0; 0; 0; 0; 12; 24; 48; 0; 198; 198; 198; 198; 198; 198; 198; 124; 0; 0; 0;
   0; 118; 220; 0; 0; 220; 230; 198; 198; 198; 198; 198; 198; 0; 0; 0; 118; 220; 0; 198; 198; 230; 246; 254; 222; 206; 198; 198; 198; 0; 0; 0;
   0; 120; 216; 216; 108; 0; 252; 0; 0; 0; 0; 0; 0; 0; 0; 0; 0; 56; 108; 108; 56; 0; 124; 0; 0; 0; 0; 0; 0; 0; 0; 0;
   0; 0; 24; 24; 0; 24; 24; 48; 96; 192; 198; 198; 124; 0; 0; 0; 0; 0; 0; 0; 0; 0; 0; 0; 254; 192; 192; 192; 0; 0; 0; 0;
   0; 0; 0; 0; 0; 0; 0; 0; 254; 6; 6; 6; 0; 0; 0; 0; 0; 0; 192; 194; 198; 204; 216; 48; 96; 220; 134; 12; 24; 62; 0; 0;
   0; 0; 192; 194; 198; 204; 216; 48; 102; 206; 158; 62; 6; 6; 0; 0; 0; 0; 48; 48; 0; 48; 48; 48; 120; 120; 120; 120; 48; 0; 0; 0;
   0; 0; 0; 0; 0; 54; 108; 216; 108; 54; 0; 0; 0; 0; 0; 0; 0; 0; 0; 0; 0; 216; 108; 54; 108; 216; 0; 0; 0; 0; 0; 0;
   34; 136; 34; 136; 34; 136; 34; 136; 34; 136; 34; 136; 34; 136; 34; 136; 85; 170; 85; 170; 85; 170; 85; 170; 85; 170; 85; 170; 85; 170; 85; 170;
   221; 119; 221; 119; 221; 119; 221; 119; 221; 119; 221; 119; 221; 119; 221; 119; 24; 24; 24; 24; 24; 24; 24; 24; 24; 24; 24; 24; 24; 24; 24; 24;
   24; 24; 24; 24; 24; 24; 24; 248; 248; 24; 24; 24; 24; 24; 24; 24; 24; 24; 24; 24; 24; 248; 248; 24; 24; 248; 248; 24; 24; 24; 24; 24;
   54; 54; 54; 54; 54; 54; 54; 246; 246; 54; 54; 54; 54; 54; 54; 54; 0; 0; 0; 0; 0; 0; 0; 254; 254; 54; 54; 54; 54; 54; 54; 54;
   0; 0; 0; 0; 0; 248; 248; 24; 24; 248; 248; 24; 24; 24; 24; 24; 54; 54; 54; 54; 54; 246; 246; 6; 6; 246; 246; 54; 54; 54; 54; 54;
   54; 54; 54; 54; 54; 54; 54; 54; 54; 54; 54; 54; 54; 54; 54; 54; 0; 0; 0; 0; 0; 254; 254; 6; 6; 246; 246; 54; 54; 54; 54; 54;
   54; 54; 54; 54; 54; 246; 246; 6; 6; 254; 254; 0; 0; 0; 0; 0; 54; 54; 54; 54; 54; 54; 54; 254; 254; 0; 0; 0; 0; 0; 0; 0;
   24; 24; 24; 24; 24; 248; 248; 24; 24; 248; 248; 0; 0; 0; 0; 0; 0; 0; 0; 0; 0; 0; 0; 248; 248; 24; 24; 24; 24; 24; 24; 24;
   24; 24; 24; 24; 24; 24; 24; 31; 31; 0; 0; 0; 0; 0; 0; 0; 24; 24; 24; 24; 24; 24; 24; 255; 255; 0; 0; 0; 0; 0; 0; 0;
   0; 0; 0; 0; 0; 0; 0; 255; 255; 24; 24; 24; 24; 24; 24; 24; 24; 24; 24; 24; 24; 24; 24; 31; 31; 24; 24; 24; 24; 24; 24; 24;
   0; 0; 0; 0; 0; 0; 0; 255; 255; 0; 0; 0; 0; 0; 0; 0; 24; 24; 24; 24; 24; 24; 24; 255; 255; 24; 24; 24; 24; 24; 24; 24;
   24; 24; 24; 24; 24; 31; 31; 24; 24; 31; 31; 24; 24; 24; 24; 24; 54; 54; 54; 54; 54; 54; 54; 55; 55; 54; 54; 54; 54; 54; 54; 54;
   54; 54; 54; 54; 54; 55; 55; 48; 48; 63; 63; 0; 0; 0; 0; 0; 0; 0; 0; 0; 0; 63; 63; 48; 48; 55; 55; 54; 54; 54; 54; 54;
   54; 54; 54; 54; 54; 247; 247; 0; 0; 255; 255; 0; 0; 0; 0; 0; 0; 0; 0; 0; 0; 255; 255; 0; 0; 247; 247; 54; 54; 54; 54; 54;
   54; 54; 54; 54; 54; 55; 55; 48; 48; 55; 55; 54; 54; 54; 54; 54; 0; 0; 0; 0; 0; 255; 255; 0; 0; 255; 255; 0; 0; 0; 0; 0;
   54; 54; 54; 54; 54; 247; 247; 0; 0; 247; 247; 54; 54; 54; 54; 54; 24; 24; 24; 24; 24; 255; 255; 0; 0; 255; 255; 0; 0; 0; 0; 0;
   54; 54; 54; 54; 54; 54; 54; 255; 255; 0; 0; 0; 0; 0; 0; 0; 0; 0; 0; 0; 0; 255; 255; 0; 0; 255; 255; 24; 24; 24; 24; 24;
   0; 0; 0; 0; 0; 0; 0; 255; 255; 54; 54; 54; 54; 54; 54; 54; 54; 54; 54; 54; 54; 54; 54; 63; 63; 0; 0; 0; 0; 0; 0; 0;
   24; 24; 24; 24; 24; 31; 31; 24; 24; 31; 31; 0; 0; 0; 0; 0; 0; 0; 0; 0; 0; 31; 31; 24; 24; 31; 31; 24; 24; 24; 24; 24;
   0; 0; 0; 0; 0; 0; 0; 63; 63; 54; 54; 54; 54; 54; 54; 54; 54; 54; 54; 54; 54; 54; 54; 255; 255; 54; 54; 54; 54; 54; 54; 54;
   24; 24; 24; 24; 24; 255; 255; 24; 24; 255; 255; 24; 24; 24; 24; 24; 24; 24; 24; 24; 24; 24; 24; 248; 248; 0; 0; 0; 0; 0; 0; 0;
   0; 0; 0; 0; 0; 0; 0; 31; 31; 24; 24; 24; 24; 24; 24; 24; 255; 255; 255; 255; 255; 255; 255; 255; 255; 255; 255; 255; 255; 255; 255; 255;
   0; 0; 0; 0; 0; 0; 0; 0; 255; 255; 255; 255; 255; 255; 255; 255; 240; 240; 240; 240; 240; 240; 240; 240; 240; 240; 240; 240; 240; 240; 240; 240;
   15; 15; 15; 15; 15; 15; 15; 15; 15; 15; 15; 15; 15; 15; 15; 15; 255; 255; 255; 255; 255; 255; 255; 255; 0; 0; 0; 0; 0; 0; 0; 0;
   0; 0; 0; 0; 0; 118; 214; 220; 200; 200; 220; 214; 118; 0; 0; 0; 0; 0; 120; 204; 204; 204; 216; 204; 204; 204; 204; 204; 216; 192; 192; 0;
   0; 0; 254; 198; 198; 192; 192; 192; 192; 192; 192; 192; 192; 0; 0; 0; 0; 0; 0; 0; 0; 126; 254; 36; 36; 36; 36; 102; 198; 0; 0; 0;
   0; 0; 254; 254; 194; 96; 48; 24; 48; 96; 194; 254; 254; 0; 0; 0; 0; 0; 0; 0; 0; 126; 200; 204; 204; 204; 204; 204; 120; 0; 0; 0;
   0; 0; 0; 0; 0; 102; 102; 102; 102; 102; 102; 118; 108; 96; 192; 0; 0; 0; 0; 0; 0; 102; 252; 152; 24; 24; 24; 24; 24; 0; 0; 0;
   0; 0; 252; 48; 48; 120; 204; 204; 204; 120; 48; 48; 252; 0; 0; 0; 0; 0; 56; 108; 198; 198; 198; 254; 198; 198; 198; 108; 56; 0; 0; 0;
   0; 0; 56; 108; 198; 198; 198; 198; 198; 108; 108; 108; 238; 0; 0; 0; 0; 0; 120; 204; 96; 48; 120; 204; 204; 204; 204; 204; 120; 0; 0; 0;
   0; 0; 0; 0; 0; 118; 187; 153; 153; 221; 110; 0; 0; 0; 0; 0; 0; 0; 2; 6; 60; 108; 206; 214; 214; 230; 108; 120; 192; 128; 0; 0;
   0; 0; 30; 48; 96; 192; 192; 254; 192; 192; 96; 48; 30; 0; 0; 0; 0; 0; 56; 108; 198; 198; 198; 198; 198; 198; 198; 198; 198; 0; 0; 0;
   0; 0; 0; 0; 254; 0; 0; 254; 0; 0; 254; 0; 0; 0; 0; 0; 0; 0; 0; 0; 0; 48; 48; 252; 48; 48; 0; 0; 252; 0; 0; 0;
   0; 0; 0; 0; 96; 48; 24; 12; 24; 48; 96; 0; 252; 0; 0; 0; 0; 0; 0; 0; 24; 48; 96; 192; 96; 48; 24; 0; 252; 0; 0; 0;
   0; 0; 28; 54; 54; 48; 48; 48; 48; 48; 48; 48; 48; 48; 48; 48; 24; 24; 24; 24; 24; 24; 24; 24; 24; 24; 216; 216; 112; 0; 0; 0;
   0; 0; 0; 0; 48; 48; 0; 252; 0; 48; 48; 0; 0; 0; 0; 0; 0; 0; 0; 0; 0; 118; 220; 0; 118; 220; 0; 0; 0; 0; 0; 0;
   0; 120; 204; 204; 204; 120; 0; 0; 0; 0; 0; 0; 0; 0; 0; 0; 0; 0; 0; 0; 0; 0; 0; 48; 48; 0; 0; 0; 0; 0; 0; 0;
   0; 0; 0; 0; 0; 0; 0; 48; 0; 0; 0; 0; 0; 0; 0; 0; 0; 15; 12; 12; 12; 12; 12; 12; 12; 204; 108; 60; 28; 12; 0; 0;
   0; 216; 236; 204; 204; 204; 204; 204; 0; 0; 0; 0; 0; 0; 0; 0; 0; 56; 108; 12; 24; 48; 96; 124; 0; 0; 0; 0; 0; 0; 0; 0;
   0; 0; 0; 0; 120; 120; 120; 120; 120; 120; 120; 0; 0; 0; 0; 0; 0; 0; 0; 0; 0; 0; 0; 0; 0; 0; 0; 0; 0; 0; 0; 0].
