(* ===== verification/Term.v ===== *)
(** The terminal parser, [src/src/terminal/term.c] and
    [src/src/include/terminal/term.h].

    The parser is a state machine over bytes that drives a rendering backend
    through callbacks.  Here the callbacks are the class [TermBackend] over the
    type of the whole terminal state, in which the parser's own fields are embedded
    ([struct term_context] is the first member of the backend's structure).  The
    client callback is optional, as in the source. *)
From Stdlib Require Import Ascii.
From S2P Require Import Prelude CString Printf.

Definition TERM_MAX_ESC_VALUES : Z := 16.
Definition TERM_CB_DEC : Z := 10.
Definition TERM_CB_BELL : Z := 20.
Definition TERM_CB_PRIVATE_ID : Z := 30.
Definition TERM_CB_STATUS_REPORT : Z := 40.
Definition TERM_CB_POS_REPORT : Z := 50.
Definition TERM_CB_KBD_LEDS : Z := 60.
Definition TERM_CB_MODE : Z := 70.
Definition TERM_CB_LINUX : Z := 80.
Definition CHARSET_DEFAULT : Z := 0.
Definition CHARSET_DEC_SPECIAL : Z := 1.
(** [(size_t) -1] *)
Definition NO_PRIMARY : Z := 2 ^ 64 - 1.

Definition col256 : list Z :=
  [0x000000; 0x00005f; 0x000087; 0x0000af; 0x0000d7; 0x0000ff; 0x005f00; 0x005f5f; 0x005f87; 0x005faf;
   0x005fd7; 0x005fff; 0x008700; 0x00875f; 0x008787; 0x0087af; 0x0087d7; 0x0087ff; 0x00af00; 0x00af5f;
   0x00af87; 0x00afaf; 0x00afd7; 0x00afff; 0x00d700; 0x00d75f; 0x00d787; 0x00d7af; 0x00d7d7; 0x00d7ff;
   0x00ff00; 0x00ff5f; 0x00ff87; 0x00ffaf; 0x00ffd7; 0x00ffff; 0x5f0000; 0x5f005f; 0x5f0087; 0x5f00af;
   0x5f00d7; 0x5f00ff; 0x5f5f00; 0x5f5f5f; 0x5f5f87; 0x5f5faf; 0x5f5fd7; 0x5f5fff; 0x5f8700; 0x5f875f;
   0x5f8787; 0x5f87af; 0x5f87d7; 0x5f87ff; 0x5faf00; 0x5faf5f; 0x5faf87; 0x5fafaf; 0x5fafd7; 0x5fafff;
   0x5fd700; 0x5fd75f; 0x5fd787; 0x5fd7af; 0x5fd7d7; 0x5fd7ff; 0x5fff00; 0x5fff5f; 0x5fff87; 0x5fffaf;
   0x5fffd7; 0x5fffff; 0x870000; 0x87005f; 0x870087; 0x8700af; 0x8700d7; 0x8700ff; 0x875f00; 0x875f5f;
   0x875f87; 0x875faf; 0x875fd7; 0x875fff; 0x878700; 0x87875f; 0x878787; 0x8787af; 0x8787d7; 0x8787ff;
   0x87af00; 0x87af5f; 0x87af87; 0x87afaf; 0x87afd7; 0x87afff; 0x87d700; 0x87d75f; 0x87d787; 0x87d7af;
   0x87d7d7; 0x87d7ff; 0x87ff00; 0x87ff5f; 0x87ff87; 0x87ffaf; 0x87ffd7; 0x87ffff; 0xaf0000; 0xaf005f;
   0xaf0087; 0xaf00af; 0xaf00d7; 0xaf00ff; 0xaf5f00; 0xaf5f5f; 0xaf5f87; 0xaf5faf; 0xaf5fd7; 0xaf5fff;
   0xaf8700; 0xaf875f; 0xaf8787; 0xaf87af; 0xaf87d7; 0xaf87ff; 0xafaf00; 0xafaf5f; 0xafaf87; 0xafafaf;
   0xafafd7; 0xafafff; 0xafd700; 0xafd75f; 0xafd787; 0xafd7af; 0xafd7d7; 0xafd7ff; 0xafff00; 0xafff5f;
   0xafff87; 0xafffaf; 0xafffd7; 0xafffff; 0xd70000; 0xd7005f; 0xd70087; 0xd700af; 0xd700d7; 0xd700ff;
   0xd75f00; 0xd75f5f; 0xd75f87; 0xd75faf; 0xd75fd7; 0xd75fff; 0xd78700; 0xd7875f; 0xd78787; 0xd787af;
   0xd787d7; 0xd787ff; 0xd7af00; 0xd7af5f; 0xd7af87; 0xd7afaf; 0xd7afd7; 0xd7afff; 0xd7d700; 0xd7d75f;
   0xd7d787; 0xd7d7af; 0xd7d7d7; 0xd7d7ff; 0xd7ff00; 0xd7ff5f; 0xd7ff87; 0xd7ffaf; 0xd7ffd7; 0xd7ffff;
   0xff0000; 0xff005f; 0xff0087; 0xff00af; 0xff00d7; 0xff00ff; 0xff5f00; 0xff5f5f; 0xff5f87; 0xff5faf;
   0xff5fd7; 0xff5fff; 0xff8700; 0xff875f; 0xff8787; 0xff87af; 0xff87d7; 0xff87ff; 0xffaf00; 0xffaf5f;
   0xffaf87; 0xffafaf; 0xffafd7; 0xffafff; 0xffd700; 0xffd75f; 0xffd787; 0xffd7af; 0xffd7d7; 0xffd7ff;
   0xffff00; 0xffff5f; 0xffff87; 0xffffaf; 0xffffd7; 0xffffff; 0x080808; 0x121212; 0x1c1c1c; 0x262626;
   0x303030; 0x3a3a3a; 0x444444; 0x4e4e4e; 0x585858; 0x626262; 0x6c6c6c; 0x767676; 0x808080; 0x8a8a8a;
   0x949494; 0x9e9e9e; 0xa8a8a8; 0xb2b2b2; 0xbcbcbc; 0xc6c6c6; 0xd0d0d0; 0xdadada; 0xe4e4e4; 0xeeeeee].

Record term_context : Type := TermContext {
  tab_size : Z;
  autoflush : bool;
  scroll_enabled : bool;
  control_sequence : bool;
  csi : bool;
  escape : bool;
  rrr : bool;
  discard_next : bool;
  bold : bool;
  reverse_video : bool;
  dec_private : bool;
  insert_mode : bool;
  g_select : Z;
  charsets : list Z;
  current_charset : Z;
  escape_offset : Z;
  esc_values_i : Z;
  saved_cursor_x : Z;
  saved_cursor_y : Z;
  current_primary : Z;
  scroll_top_margin : Z;
  scroll_bottom_margin : Z;
  esc_values : list Z;
  saved_state_bold : bool;
  saved_state_reverse_video : bool;
  saved_state_current_charset : Z;
  saved_state_current_primary : Z;
  rows : Z;
  cols : Z;
  in_bootloader : bool;
}.

(** Assignments to one field. *)
Definition set_scroll_enabled (v : bool) (t : term_context) : term_context :=
  TermContext (tab_size t) (autoflush t) v (control_sequence t) (csi t) (escape t) (rrr t) (discard_next t) (bold t) (reverse_video t) (dec_private t) (insert_mode t) (g_select t) (charsets t) (current_charset t)
    (escape_offset t) (esc_values_i t) (saved_cursor_x t) (saved_cursor_y t) (current_primary t) (scroll_top_margin t) (scroll_bottom_margin t) (esc_values t) (saved_state_bold t) (saved_state_reverse_video t) (saved_state_current_charset t) (saved_state_current_primary t) (rows t) (cols t) (in_bootloader t).
Definition set_control_sequence (v : bool) (t : term_context) : term_context :=
  TermContext (tab_size t) (autoflush t) (scroll_enabled t) v (csi t) (escape t) (rrr t) (discard_next t) (bold t) (reverse_video t) (dec_private t) (insert_mode t) (g_select t) (charsets t) (current_charset t)
    (escape_offset t) (esc_values_i t) (saved_cursor_x t) (saved_cursor_y t) (current_primary t) (scroll_top_margin t) (scroll_bottom_margin t) (esc_values t) (saved_state_bold t) (saved_state_reverse_video t) (saved_state_current_charset t) (saved_state_current_primary t) (rows t) (cols t) (in_bootloader t).
Definition set_csi (v : bool) (t : term_context) : term_context :=
  TermContext (tab_size t) (autoflush t) (scroll_enabled t) (control_sequence t) v (escape t) (rrr t) (discard_next t) (bold t) (reverse_video t) (dec_private t) (insert_mode t) (g_select t) (charsets t) (current_charset t)
    (escape_offset t) (esc_values_i t) (saved_cursor_x t) (saved_cursor_y t) (current_primary t) (scroll_top_margin t) (scroll_bottom_margin t) (esc_values t) (saved_state_bold t) (saved_state_reverse_video t) (saved_state_current_charset t) (saved_state_current_primary t) (rows t) (cols t) (in_bootloader t).
Definition set_escape (v : bool) (t : term_context) : term_context :=
  TermContext (tab_size t) (autoflush t) (scroll_enabled t) (control_sequence t) (csi t) v (rrr t) (discard_next t) (bold t) (reverse_video t) (dec_private t) (insert_mode t) (g_select t) (charsets t) (current_charset t)
    (escape_offset t) (esc_values_i t) (saved_cursor_x t) (saved_cursor_y t) (current_primary t) (scroll_top_margin t) (scroll_bottom_margin t) (esc_values t) (saved_state_bold t) (saved_state_reverse_video t) (saved_state_current_charset t) (saved_state_current_primary t) (rows t) (cols t) (in_bootloader t).
Definition set_rrr (v : bool) (t : term_context) : term_context :=
  TermContext (tab_size t) (autoflush t) (scroll_enabled t) (control_sequence t) (csi t) (escape t) v (discard_next t) (bold t) (reverse_video t) (dec_private t) (insert_mode t) (g_select t) (charsets t) (current_charset t)
    (escape_offset t) (esc_values_i t) (saved_cursor_x t) (saved_cursor_y t) (current_primary t) (scroll_top_margin t) (scroll_bottom_margin t) (esc_values t) (saved_state_bold t) (saved_state_reverse_video t) (saved_state_current_charset t) (saved_state_current_primary t) (rows t) (cols t) (in_bootloader t).
Definition set_discard_next (v : bool) (t : term_context) : term_context :=
  TermContext (tab_size t) (autoflush t) (scroll_enabled t) (control_sequence t) (csi t) (escape t) (rrr t) v (bold t) (reverse_video t) (dec_private t) (insert_mode t) (g_select t) (charsets t) (current_charset t)
    (escape_offset t) (esc_values_i t) (saved_cursor_x t) (saved_cursor_y t) (current_primary t) (scroll_top_margin t) (scroll_bottom_margin t) (esc_values t) (saved_state_bold t) (saved_state_reverse_video t) (saved_state_current_charset t) (saved_state_current_primary t) (rows t) (cols t) (in_bootloader t).
Definition set_bold (v : bool) (t : term_context) : term_context :=
  TermContext (tab_size t) (autoflush t) (scroll_enabled t) (control_sequence t) (csi t) (escape t) (rrr t) (discard_next t) v (reverse_video t) (dec_private t) (insert_mode t) (g_select t) (charsets t) (current_charset t)
    (escape_offset t) (esc_values_i t) (saved_cursor_x t) (saved_cursor_y t) (current_primary t) (scroll_top_margin t) (scroll_bottom_margin t) (esc_values t) (saved_state_bold t) (saved_state_reverse_video t) (saved_state_current_charset t) (saved_state_current_primary t) (rows t) (cols t) (in_bootloader t).
Definition set_reverse_video (v : bool) (t : term_context) : term_context :=
  TermContext (tab_size t) (autoflush t) (scroll_enabled t) (control_sequence t) (csi t) (escape t) (rrr t) (discard_next t) (bold t) v (dec_private t) (insert_mode t) (g_select t) (charsets t) (current_charset t)
    (escape_offset t) (esc_values_i t) (saved_cursor_x t) (saved_cursor_y t) (current_primary t) (scroll_top_margin t) (scroll_bottom_margin t) (esc_values t) (saved_state_bold t) (saved_state_reverse_video t) (saved_state_current_charset t) (saved_state_current_primary t) (rows t) (cols t) (in_bootloader t).
Definition set_dec_private (v : bool) (t : term_context) : term_context :=
  TermContext (tab_size t) (autoflush t) (scroll_enabled t) (control_sequence t) (csi t) (escape t) (rrr t) (discard_next t) (bold t) (reverse_video t) v (insert_mode t) (g_select t) (charsets t) (current_charset t)
    (escape_offset t) (esc_values_i t) (saved_cursor_x t) (saved_cursor_y t) (current_primary t) (scroll_top_margin t) (scroll_bottom_margin t) (esc_values t) (saved_state_bold t) (saved_state_reverse_video t) (saved_state_current_charset t) (saved_state_current_primary t) (rows t) (cols t) (in_bootloader t).
Definition set_insert_mode (v : bool) (t : term_context) : term_context :=
  TermContext (tab_size t) (autoflush t) (scroll_enabled t) (control_sequence t) (csi t) (escape t) (rrr t) (discard_next t) (bold t) (reverse_video t) (dec_private t) v (g_select t) (charsets t) (current_charset t)
    (escape_offset t) (esc_values_i t) (saved_cursor_x t) (saved_cursor_y t) (current_primary t) (scroll_top_margin t) (scroll_bottom_margin t) (esc_values t) (saved_state_bold t) (saved_state_reverse_video t) (saved_state_current_charset t) (saved_state_current_primary t) (rows t) (cols t) (in_bootloader t).
Definition set_g_select (v : Z) (t : term_context) : term_context :=
  TermContext (tab_size t) (autoflush t) (scroll_enabled t) (control_sequence t) (csi t) (escape t) (rrr t) (discard_next t) (bold t) (reverse_video t) (dec_private t) (insert_mode t) v (charsets t) (current_charset t)
    (escape_offset t) (esc_values_i t) (saved_cursor_x t) (saved_cursor_y t) (current_primary t) (scroll_top_margin t) (scroll_bottom_margin t) (esc_values t) (saved_state_bold t) (saved_state_reverse_video t) (saved_state_current_charset t) (saved_state_current_primary t) (rows t) (cols t) (in_bootloader t).
Definition set_charsets (v : list Z) (t : term_context) : term_context :=
  TermContext (tab_size t) (autoflush t) (scroll_enabled t) (control_sequence t) (csi t) (escape t) (rrr t) (discard_next t) (bold t) (reverse_video t) (dec_private t) (insert_mode t) (g_select t) v (current_charset t)
    (escape_offset t) (esc_values_i t) (saved_cursor_x t) (saved_cursor_y t) (current_primary t) (scroll_top_margin t) (scroll_bottom_margin t) (esc_values t) (saved_state_bold t) (saved_state_reverse_video t) (saved_state_current_charset t) (saved_state_current_primary t) (rows t) (cols t) (in_bootloader t).
Definition set_current_charset (v : Z) (t : term_context) : term_context :=
  TermContext (tab_size t) (autoflush t) (scroll_enabled t) (control_sequence t) (csi t) (escape t) (rrr t) (discard_next t) (bold t) (reverse_video t) (dec_private t) (insert_mode t) (g_select t) (charsets t) v
    (escape_offset t) (esc_values_i t) (saved_cursor_x t) (saved_cursor_y t) (current_primary t) (scroll_top_margin t) (scroll_bottom_margin t) (esc_values t) (saved_state_bold t) (saved_state_reverse_video t) (saved_state_current_charset t) (saved_state_current_primary t) (rows t) (cols t) (in_bootloader t).
Definition set_escape_offset (v : Z) (t : term_context) : term_context :=
  TermContext (tab_size t) (autoflush t) (scroll_enabled t) (control_sequence t) (csi t) (escape t) (rrr t) (discard_next t) (bold t) (reverse_video t) (dec_private t) (insert_mode t) (g_select t) (charsets t) (current_charset t)
    v (esc_values_i t) (saved_cursor_x t) (saved_cursor_y t) (current_primary t) (scroll_top_margin t) (scroll_bottom_margin t) (esc_values t) (saved_state_bold t) (saved_state_reverse_video t) (saved_state_current_charset t) (saved_state_current_primary t) (rows t) (cols t) (in_bootloader t).
Definition set_esc_values_i (v : Z) (t : term_context) : term_context :=
  TermContext (tab_size t) (autoflush t) (scroll_enabled t) (control_sequence t) (csi t) (escape t) (rrr t) (discard_next t) (bold t) (reverse_video t) (dec_private t) (insert_mode t) (g_select t) (charsets t) (current_charset t)
    (escape_offset t) v (saved_cursor_x t) (saved_cursor_y t) (current_primary t) (scroll_top_margin t) (scroll_bottom_margin t) (esc_values t) (saved_state_bold t) (saved_state_reverse_video t) (saved_state_current_charset t) (saved_state_current_primary t) (rows t) (cols t) (in_bootloader t).
Definition set_saved_cursor_x (v : Z) (t : term_context) : term_context :=
  TermContext (tab_size t) (autoflush t) (scroll_enabled t) (control_sequence t) (csi t) (escape t) (rrr t) (discard_next t) (bold t) (reverse_video t) (dec_private t) (insert_mode t) (g_select t) (charsets t) (current_charset t)
    (escape_offset t) (esc_values_i t) v (saved_cursor_y t) (current_primary t) (scroll_top_margin t) (scroll_bottom_margin t) (esc_values t) (saved_state_bold t) (saved_state_reverse_video t) (saved_state_current_charset t) (saved_state_current_primary t) (rows t) (cols t) (in_bootloader t).
Definition set_saved_cursor_y (v : Z) (t : term_context) : term_context :=
  TermContext (tab_size t) (autoflush t) (scroll_enabled t) (control_sequence t) (csi t) (escape t) (rrr t) (discard_next t) (bold t) (reverse_video t) (dec_private t) (insert_mode t) (g_select t) (charsets t) (current_charset t)
    (escape_offset t) (esc_values_i t) (saved_cursor_x t) v (current_primary t) (scroll_top_margin t) (scroll_bottom_margin t) (esc_values t) (saved_state_bold t) (saved_state_reverse_video t) (saved_state_current_charset t) (saved_state_current_primary t) (rows t) (cols t) (in_bootloader t).
Definition set_current_primary (v : Z) (t : term_context) : term_context :=
  TermContext (tab_size t) (autoflush t) (scroll_enabled t) (control_sequence t) (csi t) (escape t) (rrr t) (discard_next t) (bold t) (reverse_video t) (dec_private t) (insert_mode t) (g_select t) (charsets t) (current_charset t)
    (escape_offset t) (esc_values_i t) (saved_cursor_x t) (saved_cursor_y t) v (scroll_top_margin t) (scroll_bottom_margin t) (esc_values t) (saved_state_bold t) (saved_state_reverse_video t) (saved_state_current_charset t) (saved_state_current_primary t) (rows t) (cols t) (in_bootloader t).
Definition set_scroll_top_margin (v : Z) (t : term_context) : term_context :=
  TermContext (tab_size t) (autoflush t) (scroll_enabled t) (control_sequence t) (csi t) (escape t) (rrr t) (discard_next t) (bold t) (reverse_video t) (dec_private t) (insert_mode t) (g_select t) (charsets t) (current_charset t)
    (escape_offset t) (esc_values_i t) (saved_cursor_x t) (saved_cursor_y t) (current_primary t) v (scroll_bottom_margin t) (esc_values t) (saved_state_bold t) (saved_state_reverse_video t) (saved_state_current_charset t) (saved_state_current_primary t) (rows t) (cols t) (in_bootloader t).
Definition set_scroll_bottom_margin (v : Z) (t : term_context) : term_context :=
  TermContext (tab_size t) (autoflush t) (scroll_enabled t) (control_sequence t) (csi t) (escape t) (rrr t) (discard_next t) (bold t) (reverse_video t) (dec_private t) (insert_mode t) (g_select t) (charsets t) (current_charset t)
    (escape_offset t) (esc_values_i t) (saved_cursor_x t) (saved_cursor_y t) (current_primary t) (scroll_top_margin t) v (esc_values t) (saved_state_bold t) (saved_state_reverse_video t) (saved_state_current_charset t) (saved_state_current_primary t) (rows t) (cols t) (in_bootloader t).
Definition set_esc_values (v : list Z) (t : term_context) : term_context :=
  TermContext (tab_size t) (autoflush t) (scroll_enabled t) (control_sequence t) (csi t) (escape t) (rrr t) (discard_next t) (bold t) (reverse_video t) (dec_private t) (insert_mode t) (g_select t) (charsets t) (current_charset t)
    (escape_offset t) (esc_values_i t) (saved_cursor_x t) (saved_cursor_y t) (current_primary t) (scroll_top_margin t) (scroll_bottom_margin t) v (saved_state_bold t) (saved_state_reverse_video t) (saved_state_current_charset t) (saved_state_current_primary t) (rows t) (cols t) (in_bootloader t).
Definition set_saved_state_bold (v : bool) (t : term_context) : term_context :=
  TermContext (tab_size t) (autoflush t) (scroll_enabled t) (control_sequence t) (csi t) (escape t) (rrr t) (discard_next t) (bold t) (reverse_video t) (dec_private t) (insert_mode t) (g_select t) (charsets t) (current_charset t)
    (escape_offset t) (esc_values_i t) (saved_cursor_x t) (saved_cursor_y t) (current_primary t) (scroll_top_margin t) (scroll_bottom_margin t) (esc_values t) v (saved_state_reverse_video t) (saved_state_current_charset t) (saved_state_current_primary t) (rows t) (cols t) (in_bootloader t).
Definition set_saved_state_reverse_video (v : bool) (t : term_context) : term_context :=
  TermContext (tab_size t) (autoflush t) (scroll_enabled t) (control_sequence t) (csi t) (escape t) (rrr t) (discard_next t) (bold t) (reverse_video t) (dec_private t) (insert_mode t) (g_select t) (charsets t) (current_charset t)
    (escape_offset t) (esc_values_i t) (saved_cursor_x t) (saved_cursor_y t) (current_primary t) (scroll_top_margin t) (scroll_bottom_margin t) (esc_values t) (saved_state_bold t) v (saved_state_current_charset t) (saved_state_current_primary t) (rows t) (cols t) (in_bootloader t).
Definition set_saved_state_current_charset (v : Z) (t : term_context) : term_context :=
  TermContext (tab_size t) (autoflush t) (scroll_enabled t) (control_sequence t) (csi t) (escape t) (rrr t) (discard_next t) (bold t) (reverse_video t) (dec_private t) (insert_mode t) (g_select t) (charsets t) (current_charset t)
    (escape_offset t) (esc_values_i t) (saved_cursor_x t) (saved_cursor_y t) (current_primary t) (scroll_top_margin t) (scroll_bottom_margin t) (esc_values t) (saved_state_bold t) (saved_state_reverse_video t) v (saved_state_current_primary t) (rows t) (cols t) (in_bootloader t).
Definition set_saved_state_current_primary (v : Z) (t : term_context) : term_context :=
  TermContext (tab_size t) (autoflush t) (scroll_enabled t) (control_sequence t) (csi t) (escape t) (rrr t) (discard_next t) (bold t) (reverse_video t) (dec_private t) (insert_mode t) (g_select t) (charsets t) (current_charset t)
    (escape_offset t) (esc_values_i t) (saved_cursor_x t) (saved_cursor_y t) (current_primary t) (scroll_top_margin t) (scroll_bottom_margin t) (esc_values t) (saved_state_bold t) (saved_state_reverse_video t) (saved_state_current_charset t) v (rows t) (cols t) (in_bootloader t).

(** [term_context_reinit] as an assignment of the fields it resets. *)
Definition reinit (t : term_context) : term_context :=
  TermContext 8 true true false false false false false false false false false 0 [CHARSET_DEFAULT; CHARSET_DEC_SPECIAL] 0
    0 0 0 0 NO_PRIMARY 0 (rows t) (esc_values t) (saved_state_bold t) (saved_state_reverse_video t)
    (saved_state_current_charset t) (saved_state_current_primary t) (rows t) (cols t) (in_bootloader t).

(** What a client callback may be handed: a number, or the array of values. *)
Inductive cb_arg : Type := CbNum (v : Z) | CbValues (l : list Z).

(** The callbacks of [struct term_context]. *)
Class TermBackend (S : Type) : Type := {
  tctx : S -> term_context;
  set_tctx : term_context -> S -> S;
  raw_putchar : Z -> K S unit;
  clear : bool -> K S unit;
  enable_cursor : K S unit;
  disable_cursor : K S bool;
  set_cursor_pos : Z -> Z -> K S unit;
  get_cursor_pos : K S (Z * Z);
  set_text_fg : Z -> K S unit;
  set_text_bg : Z -> K S unit;
  set_text_fg_bright : Z -> K S unit;
  set_text_bg_bright : Z -> K S unit;
  set_text_fg_rgb : Z -> K S unit;
  set_text_bg_rgb : Z -> K S unit;
  set_text_fg_default : K S unit;
  set_text_bg_default : K S unit;
  move_character : Z -> Z -> Z -> Z -> K S unit;
  scroll : K S unit;
  revscroll : K S unit;
  swap_palette : K S unit;
  backend_save_state : K S unit;
  backend_restore_state : K S unit;
  double_buffer_flush : K S unit;
  callback : option (Z -> Z -> cb_arg -> Z -> K S unit);
}.

(** An array access by a machine integer; [None] past the end. *)
Definition at_index {A} (l : list A) (i : Z) : option A :=
  if (0 <=? i) && (i <? Z.of_nat (length l)) then l !! Z.to_nat i else None.
Definition in_array {A} (l : list A) (i : Z) : bool := (0 <=? i) && (i <? Z.of_nat (length l)).

(** [for (i = i0; i < i0 + n; i++)] with a body that may [break]; the result says
    whether it did. *)
Fixpoint for_break {S} (n : nat) (i : Z) (body : Z -> K S bool) : K S bool :=
  match n with
  | O => ret false
  | Datatypes.S n' => let! b := body i in if b then ret true else for_break n' (i + 1) body
  end.

(** [for (size_t i = i0;; i--) { body; if (i == x) break; }] *)
Fixpoint down_to {S} (fuel : nat) (i x : Z) (body : Z -> K S unit) : K S unit :=
  match fuel with
  | O => fun s => Hang s
  | Datatypes.S fuel' => do! body i in if i =? x then ret tt else down_to fuel' (u64 (i - 1)) x body
  end.

Definition dec_special_table : list (Z * Z) :=
  [(chr "`", 0x04); (chr "0", 0xdb); (chr "-", 0x18); (chr ",", 0x1b); (chr ".", 0x19); (chr "a", 0xb1); (chr "f", 0xf8);
   (chr "g", 0xf1); (chr "h", 0xb0); (chr "j", 0xd9); (chr "k", 0xbf); (chr "l", 0xda); (chr "m", 0xc0); (chr "n", 0xc5);
   (chr "q", 0xc4); (chr "s", 0x5f); (chr "t", 0xc3); (chr "u", 0xb4); (chr "v", 0xc1); (chr "w", 0xc2); (chr "x", 0xb3);
   (chr "y", 0xf3); (chr "z", 0xf2); (chr "~", 0xfa); (chr "_", 0xff); (chr "+", 0x1a); (chr "{", 0xe3); (chr "}", 0x9c)].
Definition dec_special_to_cp437 (c : Z) : Z :=
  match list_find (fun p => p.1 = c) dec_special_table with Some (_, (_, g)) => g | None => c end.

Section term.
Context {S : Type} `{TermBackend S}.

Definition fld {A} (f : term_context -> A) : K S A := gets (fun s => f (tctx s)).
Definition upd (f : term_context -> term_context) : K S unit := modify (fun s => set_tctx (f (tctx s)) s).

(** [ctx->esc_values[i]], read and written. *)
Definition esc (i : Z) : K S Z :=
  let! l := fld esc_values in
  match at_index l i with Some v => ret v | None => fault i end.
Definition set_esc (i v : Z) : K S unit :=
  let! l := fld esc_values in
  if in_array l i then upd (set_esc_values (<[Z.to_nat i := u32 v]> l)) else fault i.

(** [if (ctx->callback != NULL) ctx->callback(ctx, ...)] *)
Definition call_back (kind a : Z) (b : cb_arg) (c : Z) : K S unit :=
  match callback with Some f => f kind a b c | None => ret tt end.

Definition term_context_reinit : K S unit := upd reinit.

(** * Colours *)
Definition sgr_default : K S unit :=
  let! rev := fld reverse_video in
  do! when rev (do! upd (set_reverse_video false) in swap_palette) in
  do! upd (set_bold false) in
  do! upd (set_current_primary NO_PRIMARY) in
  do! set_text_bg_default in
  set_text_fg_default.

(** The labels [set_fg] and [set_bg]. *)
Definition sgr_set_fg (v : Z) : K S unit :=
  let! b := fld bold in let! rev := fld reverse_video in
  if b && negb rev then set_text_fg_bright v else set_text_fg v.
Definition sgr_set_bg (v : Z) : K S unit :=
  let! b := fld bold in let! rev := fld reverse_video in
  if b && rev then set_text_bg_bright v else set_text_bg v.

(** Values 1 and 22: bold on and off, repainting the primary colour. *)
Definition sgr_bold (on : bool) : K S unit :=
  do! upd (set_bold on) in
  let! p := fld current_primary in
  let! rev := fld reverse_video in
  when (negb (p =? NO_PRIMARY))
    (if on then (if negb rev then set_text_fg_bright p else set_text_bg_bright p)
     else (if negb rev then set_text_fg p else set_text_bg p)).

(** Values 39 and 49, around which reverse video is undone and redone. *)
Definition sgr_unreversed (c : K S unit) : K S unit :=
  let! rev := fld reverse_video in
  do! when rev swap_palette in
  do! c in
  let! rev := fld reverse_video in
  when rev swap_palette.

Definition sgr_256 (fg : bool) (col : Z) : K S unit :=
  if col <? 8 then (if fg then set_text_fg col else set_text_bg col)
  else if col <? 16 then (if fg then set_text_fg_bright (col - 8) else set_text_bg_bright (col - 8))
  else match at_index col256 (col - 16) with
       | Some rgb => if fg then set_text_fg_rgb rgb else set_text_bg_rgb rgb
       | None => fault (col - 16)
       end.

(** A value that takes no arguments; [None] when it is not one of them. *)
Definition sgr_simple (v : Z) : option (K S unit) :=
  if v =? 0 then Some sgr_default
  else if v =? 1 then Some (sgr_bold true)
  else if v =? 22 then Some (sgr_bold false)
  else if (30 <=? v) && (v <=? 37) then
    Some (do! upd (set_current_primary (v - 30)) in
          let! rev := fld reverse_video in
          if rev then sgr_set_bg (v - 30) else sgr_set_fg (v - 30))
  else if (40 <=? v) && (v <=? 47) then
    Some (let! rev := fld reverse_video in if rev then sgr_set_fg (v - 40) else sgr_set_bg (v - 40))
  else if (90 <=? v) && (v <=? 97) then
    Some (do! upd (set_current_primary (v - 90)) in
          let! rev := fld reverse_video in
          if rev then set_text_bg_bright (v - 90) else set_text_fg_bright (v - 90))
  else if (100 <=? v) && (v <=? 107) then
    Some (let! rev := fld reverse_video in if rev then set_text_fg_bright (v - 100) else set_text_bg_bright (v - 100))
  else if v =? 39 then
    Some (do! upd (set_current_primary NO_PRIMARY) in sgr_unreversed set_text_fg_default)
  else if v =? 49 then Some (sgr_unreversed set_text_bg_default)
  else if v =? 7 then
    Some (let! rev := fld reverse_video in when (negb rev) (do! upd (set_reverse_video true) in swap_palette))
  else if v =? 27 then
    Some (let! rev := fld reverse_video in when rev (do! upd (set_reverse_video false) in swap_palette))
  else None.

(** The loop over the values; at most sixteen of them. *)
Fixpoint sgr_loop (fuel : nat) (i : Z) : K S unit :=
  match fuel with
  | O => fun s => Hang s
  | Datatypes.S fuel' =>
      let! n := fld esc_values_i in
      if negb (i <? n) then ret tt else
      let! v := esc i in
      match sgr_simple v with
      | Some c => do! c in sgr_loop fuel' (i + 1)
      | None =>
          if (v =? 38) || (v =? 48) then
            let fg := v =? 38 in
            let i := i + 1 in
            if n <=? i then ret tt else
            let! kind := esc i in
            if kind =? 2 then
              if n <=? i + 3 then ret tt else
              let! r := esc (i + 1) in
              let! g := esc (i + 2) in
              let! b := esc (i + 3) in
              let rgb := Z.lor (Z.lor (u32 (Z.shiftl r 16)) (u32 (Z.shiftl g 8))) b in
              do! (if fg then set_text_fg_rgb rgb else set_text_bg_rgb rgb) in
              sgr_loop fuel' (i + 3 + 1)
            else if kind =? 5 then
              if n <=? i + 1 then ret tt else
              let! col := esc (i + 1) in
              do! sgr_256 fg col in
              sgr_loop fuel' (i + 1 + 1)
            else sgr_loop fuel' (i + 1)
          else sgr_loop fuel' (i + 1)
      end
  end.

Definition sgr : K S unit :=
  let! n := fld esc_values_i in
  if n =? 0 then sgr_default else sgr_loop 17 0.

(** * Private modes *)
Definition set_or_reset (c : Z) : option bool :=
  if c =? chr "h" then Some true else if c =? chr "l" then Some false else None.

Definition dec_private_parse (c : Z) : K S unit :=
  do! upd (set_dec_private false) in
  let! n := fld esc_values_i in
  if n =? 0 then ret tt else
  match set_or_reset c with
  | None => ret tt
  | Some on =>
      let! v := esc 0 in
      if v =? 25 then (if on then enable_cursor else do! disable_cursor in ret tt) else
      let! l := fld esc_values in
      call_back TERM_CB_DEC n (CbValues l) c
  end.

Definition linux_private_parse : K S unit :=
  let! n := fld esc_values_i in
  if n =? 0 then ret tt else
  let! l := fld esc_values in
  call_back TERM_CB_LINUX n (CbValues l) 0.

Definition mode_toggle (c : Z) : K S unit :=
  let! n := fld esc_values_i in
  if n =? 0 then ret tt else
  match set_or_reset c with
  | None => ret tt
  | Some on =>
      let! v := esc 0 in
      if v =? 4 then upd (set_insert_mode on) else
      let! l := fld esc_values in
      call_back TERM_CB_MODE n (CbValues l) c
  end.

(** * Control sequences *)
Definition blanks (n : Z) : K S unit := for_range 0 n (fun _ => raw_putchar (chr " ")).

(** Cursor up and down, which stop at the margins they would cross. *)
Definition csi_up (x y : Z) : K S unit :=
  let! v := esc 0 in
  do! when (y <? v) (set_esc 0 y) in
  let! v := esc 0 in
  let! top := fld scroll_top_margin in
  let! bot := fld scroll_bottom_margin in
  let dest := u64 (y - v) in
  let region := ((dest <=? top) && (top <=? y)) || ((dest <=? bot) && (bot <=? y)) in
  set_cursor_pos x (if region && (dest <? top) then top else dest).

Definition csi_down (x y : Z) : K S unit :=
  let! r := fld rows in
  let! v := esc 0 in
  do! when (u64 (r - 1) <? u64 (y + v)) (set_esc 0 (u64 (r - 1) - y)) in
  let! v := esc 0 in
  let! top := fld scroll_top_margin in
  let! bot := fld scroll_bottom_margin in
  let dest := u64 (y + v) in
  let region := ((y <=? top) && (top <=? dest)) || ((y <=? bot) && (bot <=? dest)) in
  set_cursor_pos x (if region && (bot <=? dest) then u64 (bot - 1) else dest).

(** [ctx->esc_values[i] -= 1] and the clamp to a limit. *)
Definition csi_coordinate (i limit : Z) : K S Z :=
  let! v := esc i in
  do! set_esc i (u32 (v - 1)) in
  let! v := esc i in
  do! when (limit <=? v) (set_esc i (limit - 1)) in
  esc i.

Definition csi_erase_display (x y : Z) : K S unit :=
  let! r := fld rows in
  let! k := fld cols in
  let! v := esc 0 in
  if v =? 0 then
    let rows_remaining := u64 (r - (y + 1)) in
    let cols_diff := u64 (k - (x + 1)) in
    let to_clear := u64 (u64 (rows_remaining * k) + cols_diff) in
    do! blanks to_clear in
    set_cursor_pos x y
  else if v =? 1 then
    do! set_cursor_pos 0 0 in
    do! for_break (Z.to_nat r) 0 (fun yc =>
          for_break (Z.to_nat k) 0 (fun xc =>
            do! raw_putchar (chr " ") in
            if (xc =? x) && (yc =? y) then do! set_cursor_pos x y in ret true else ret false)) in
    ret tt
  else when ((v =? 2) || (v =? 3)) (clear false).

Definition csi_insert (x y : Z) : K S unit :=
  let! k := fld cols in
  do! down_to (Z.to_nat k) (u64 (k - 1)) x (fun i =>
        let! v := esc 0 in
        do! move_character (u64 (i + v)) y i y in
        do! set_cursor_pos i y in
        raw_putchar (chr " ")) in
  set_cursor_pos x y.

Definition csi_erase_chars (x y : Z) : K S unit :=
  let! v := esc 0 in
  do! blanks v in
  set_cursor_pos x y.

(** Delete, which falls through to the erasure. *)
Definition csi_delete (x y : Z) : K S unit :=
  let! k := fld cols in
  let! v := esc 0 in
  do! for_range (x + v) k (fun i => move_character (u64 (i - v)) y i y) in
  do! set_cursor_pos (u64 (k - v)) y in
  csi_erase_chars x y.

Definition csi_erase_line (x y : Z) : K S unit :=
  let! k := fld cols in
  let! v := esc 0 in
  if v =? 0 then do! blanks (k - x) in set_cursor_pos x y
  else if v =? 1 then do! set_cursor_pos 0 y in blanks x
  else when (v =? 2) (do! set_cursor_pos 0 y in do! blanks k in set_cursor_pos x y).

Definition csi_margins : K S unit :=
  let! r := fld rows in
  do! upd (set_scroll_top_margin 0) in
  do! upd (set_scroll_bottom_margin r) in
  let! n := fld esc_values_i in
  do! when (0 <? n) (let! v := esc 0 in upd (set_scroll_top_margin (u32 (v - 1)))) in
  do! when (1 <? n) (let! v := esc 1 in upd (set_scroll_bottom_margin v)) in
  let! top := fld scroll_top_margin in
  let! bot := fld scroll_bottom_margin in
  do! when ((r <=? top) || (r <? bot) || (u64 (bot - 1) <=? top))
    (do! upd (set_scroll_top_margin 0) in upd (set_scroll_bottom_margin r)) in
  set_cursor_pos 0 0.

(** The [switch] on the final byte, at cursor [x], [y]. *)
Definition csi_final (c x y : Z) : K S unit :=
  let! r := fld rows in
  let! k := fld cols in
  if c =? chr "F" then csi_up 0 y
  else if c =? chr "A" then csi_up x y
  else if c =? chr "E" then csi_down 0 y
  else if (c =? chr "e") || (c =? chr "B") then csi_down x y
  else if (c =? chr "a") || (c =? chr "C") then
    let! v := esc 0 in
    do! when (u64 (k - 1) <? u64 (x + v)) (set_esc 0 (u64 (k - 1) - x)) in
    let! v := esc 0 in
    set_cursor_pos (u64 (x + v)) y
  else if c =? chr "D" then
    let! v := esc 0 in
    do! when (x <? v) (set_esc 0 x) in
    let! v := esc 0 in
    set_cursor_pos (u64 (x - v)) y
  else if c =? chr "c" then call_back TERM_CB_PRIVATE_ID 0 (CbNum 0) 0
  else if c =? chr "d" then let! v := csi_coordinate 0 r in set_cursor_pos x v
  else if (c =? chr "G") || (c =? chr "`") then let! v := csi_coordinate 0 k in set_cursor_pos v y
  else if (c =? chr "H") || (c =? chr "f") then
    let! v0 := esc 0 in
    do! set_esc 0 (u32 (v0 - 1)) in
    let! v1 := csi_coordinate 1 k in
    let! v0 := esc 0 in
    do! when (r <=? v0) (set_esc 0 (r - 1)) in
    let! v0 := esc 0 in
    set_cursor_pos v1 v0
  else if c =? chr "n" then
    let! v := esc 0 in
    if v =? 5 then call_back TERM_CB_STATUS_REPORT 0 (CbNum 0) 0
    else when (v =? 6) (call_back TERM_CB_POS_REPORT (u64 (x + 1)) (CbNum (u64 (y + 1))) 0)
  else if c =? chr "q" then let! v := esc 0 in call_back TERM_CB_KBD_LEDS v (CbNum 0) 0
  else if c =? chr "J" then csi_erase_display x y
  else if c =? chr "@" then csi_insert x y
  else if c =? chr "P" then csi_delete x y
  else if c =? chr "X" then csi_erase_chars x y
  else if c =? chr "m" then sgr
  else if c =? chr "s" then
    let2! (sx, sy) := get_cursor_pos in
    do! upd (set_saved_cursor_x sx) in upd (set_saved_cursor_y sy)
  else if c =? chr "u" then
    let! sx := fld saved_cursor_x in let! sy := fld saved_cursor_y in set_cursor_pos sx sy
  else if c =? chr "K" then csi_erase_line x y
  else if c =? chr "r" then csi_margins
  else if (c =? chr "l") || (c =? chr "h") then mode_toggle c
  else when (c =? chr "]") linux_private_parse.

(** The label [cleanup]. *)
Definition cleanup : K S unit :=
  do! upd (set_control_sequence false) in upd (set_escape false).

Definition esc_default (c : Z) : Z :=
  if (c =? chr "J") || (c =? chr "K") || (c =? chr "q") then 0 else 1.

(** A byte that is neither a digit nor a separator: the missing values get the
    default, then the sequence is executed. *)
Definition csi_execute (c : Z) : K S unit :=
  let! n := fld esc_values_i in
  do! for_range n TERM_MAX_ESC_VALUES (fun i => set_esc i (esc_default c)) in
  let! dec := fld dec_private in
  if dec then do! dec_private_parse c in cleanup else
  let! r := fld scroll_enabled in
  do! upd (set_scroll_enabled false) in
  let2! (x, y) := get_cursor_pos in
  do! csi_final c x y in
  do! upd (set_scroll_enabled r) in
  cleanup.

Definition is_digit (c : Z) : bool := (chr "0" <=? c) && (c <=? chr "9").

Definition control_sequence_parse (c : Z) : K S unit :=
  let! off := fld escape_offset in
  if (off =? 2) && (c =? chr "[") then do! upd (set_discard_next true) in cleanup
  else if (off =? 2) && (c =? chr "?") then upd (set_dec_private true)
  else
  let! n := fld esc_values_i in
  if is_digit c then
    if n =? TERM_MAX_ESC_VALUES then ret tt else
    do! upd (set_rrr true) in
    let! v := esc n in
    do! set_esc n (u32 (v * 10)) in
    let! v := esc n in
    set_esc n (u32 (v + (c - chr "0")))
  else
  let! in_number := fld rrr in
  if in_number then
    do! upd (set_esc_values_i (u64 (n + 1))) in
    do! upd (set_rrr false) in
    if c =? chr ";" then ret tt else csi_execute c
  else if c =? chr ";" then
    if n =? TERM_MAX_ESC_VALUES then ret tt else
    do! set_esc n 0 in
    upd (set_esc_values_i (u64 (n + 1)))
  else csi_execute c.

(** * Escape sequences *)
Definition restore_state : K S unit :=
  do! upd (fun t => set_bold (saved_state_bold t) t) in
  do! upd (fun t => set_reverse_video (saved_state_reverse_video t) t) in
  do! upd (fun t => set_current_charset (saved_state_current_charset t) t) in
  do! upd (fun t => set_current_primary (saved_state_current_primary t) t) in
  backend_restore_state.

Definition save_state : K S unit :=
  do! backend_save_state in
  do! upd (fun t => set_saved_state_bold (bold t) t) in
  do! upd (fun t => set_saved_state_reverse_video (reverse_video t) t) in
  do! upd (fun t => set_saved_state_current_charset (current_charset t) t) in
  upd (fun t => set_saved_state_current_primary (current_primary t) t).

(** The label [is_csi]. *)
Definition enter_csi : K S unit :=
  do! for_range 0 TERM_MAX_ESC_VALUES (fun i => set_esc i 0) in
  do! upd (set_esc_values_i 0) in
  do! upd (set_rrr false) in
  upd (set_control_sequence true).

(** Line feed at column [x]: scroll on the last line of the region. *)
Definition line_feed (x y : Z) : K S unit :=
  let! bot := fld scroll_bottom_margin in
  if y =? u64 (bot - 1) then do! scroll in set_cursor_pos x y else set_cursor_pos x (u64 (y + 1)).

Definition escape_parse (c : Z) : K S unit :=
  do! upd (fun t => set_escape_offset (u64 (escape_offset t + 1)) t) in
  let! seq := fld control_sequence in
  if seq then control_sequence_parse c else
  let! is_csi := fld csi in
  if is_csi then do! upd (set_csi false) in enter_csi else
  let2! (x, y) := get_cursor_pos in
  if c =? chr "[" then enter_csi else
  do! (if c =? chr "7" then save_state
       else if c =? chr "8" then restore_state
       else if c =? chr "c" then do! term_context_reinit in clear true
       else if c =? chr "D" then line_feed x y
       else if c =? chr "E" then line_feed 0 y
       else if c =? chr "M" then
         let! top := fld scroll_top_margin in
         if y =? top then do! revscroll in set_cursor_pos 0 y else set_cursor_pos 0 (u64 (y - 1))
       else if c =? chr "Z" then call_back TERM_CB_PRIVATE_ID 0 (CbNum 0) 0
       else if (c =? chr "(") || (c =? chr ")") then upd (set_g_select (c - chr "'"))
       else if c =? 27 then let! boot := fld in_bootloader in when boot (raw_putchar c)
       else ret tt) in
  upd (set_escape false).

(** * Bytes *)

(** [ctx->charsets[i]] *)
Definition charset (i : Z) : K S Z :=
  let! l := fld charsets in
  match at_index l i with Some v => ret v | None => fault i end.

(** A byte that is not a control character. *)
Definition term_print (c x y : Z) : K S unit :=
  let! ins := fld insert_mode in
  let! k := fld cols in
  do! when ins (down_to (Z.to_nat k) (u64 (k - 1)) x (fun i => move_character (u64 (i + 1)) y i y)) in
  let! cur := fld current_charset in
  let! cs := charset cur in
  raw_putchar (if cs =? CHARSET_DEC_SPECIAL then dec_special_to_cp437 c else c).

Definition select_charset (c : Z) : K S unit :=
  do! upd (fun t => set_g_select (g_select t - 1) t) in
  let! g := fld g_select in
  let! l := fld charsets in
  do! (if (c =? chr "B") || (c =? chr "0") then
         if in_array l g
         then upd (set_charsets (<[Z.to_nat g := if c =? chr "B" then CHARSET_DEFAULT else CHARSET_DEC_SPECIAL]> l))
         else fault g
       else ret tt) in
  upd (set_g_select 0).

Definition term_putchar (c : Z) : K S unit :=
  let! t := fld (fun t => t) in
  if discard_next t || (negb (in_bootloader t) && ((c =? 0x18) || (c =? 0x1a))) then
    do! upd (set_discard_next false) in
    do! upd (set_escape false) in
    do! upd (set_csi false) in
    do! upd (set_control_sequence false) in
    upd (set_g_select 0)
  else if escape t then escape_parse c
  else if negb (g_select t =? 0) then select_charset c
  else
  let2! (x, y) := get_cursor_pos in
  if (c =? 0x00) || (c =? 0x7f) then ret tt
  else if (c =? 0x9b) || (c =? 27) then
    do! when (c =? 0x9b) (upd (set_csi true)) in
    do! upd (set_escape_offset 0) in
    upd (set_escape true)
  else if c =? 9 then
    let next := x / tab_size t + 1 in
    if cols t <=? next then set_cursor_pos (u64 (cols t - 1)) y
    else set_cursor_pos (u64 (next * tab_size t)) y
  else if (c =? 0x0b) || (c =? 0x0c) || (c =? 10) then line_feed 0 y
  else if c =? 8 then set_cursor_pos (u64 (x - 1)) y
  else if c =? 13 then set_cursor_pos 0 y
  else if c =? 7 then call_back TERM_CB_BELL 0 (CbNum 0) 0
  else if c =? 14 then upd (set_current_charset 1)
  else if c =? 15 then upd (set_current_charset 0)
  else term_print c x y.

Definition term_write (buf : list Z) : K S unit :=
  do! for_each buf (fun c => term_putchar (u8 c)) in
  let! auto := fld autoflush in
  when auto double_buffer_flush.
End term.
