(* ===== verification/Framebuffer.v ===== *)
(** The framebuffer backend of the terminal, [src/src/terminal/framebuffer.c] and
    [src/src/include/terminal/framebuffer.h].

    A terminal is a grid of cells and a queue of cells that differ from it; [map]
    has, for each cell, a pointer to its item in the queue.  A pointer is [QNull],
    the address of an item, or ([QWild]) anything else that uninitialised memory may
    hold, which faults when it is used.  Cells that the source passes by pointer are
    passed by value: the pointed-to cell is read before anything is stored to it.
    The fields that [fbterm_init] sets once are the record [fb_fixed]; the arrays
    are lists, or maps by index for the font and the framebuffer, and an access
    past the end of an array faults. *)
From Stdlib Require Import Ascii.
From S2P Require Import Prelude CString Printf Font Term.

Definition FBTERM_FONT_GLYPHS : Z := 256.
(** The colour that shows the canvas. *)
Definition TRANSPARENT : Z := 0xffffffff.

Record fbterm_char : Type := FbChar { ch_c : Z; ch_fg : Z; ch_bg : Z }.
Record fbterm_queue_item : Type := QItem { q_x : Z; q_y : Z; q_c : fbterm_char }.
Inductive qptr : Type := QNull | QSlot (k : Z) | QWild.

#[global] Instance fbterm_char_eq_dec : EqDecision fbterm_char.
Proof. solve_decision. Defined.

Record fb_fixed : Type := FbFixed {
  font_width : Z; font_height : Z; glyph_width : Z; glyph_height : Z;
  font_scale_x : Z; font_scale_y : Z; offset_x : Z; offset_y : Z;
  pitch : Z; width : Z; height : Z;
  font_bits : list Z; font_bool : gmap Z bool;
  ansi_colours : list Z; ansi_bright_colours : list Z; default_fg : Z; default_bg : Z;
  canvas : list Z;
  (* address and size of what was allocated *)
  font_bits_block : Z * Z; font_bool_block : Z * Z; grid_block : Z * Z; queue_block : Z * Z;
  map_block : Z * Z; canvas_block : Z * Z; ctx_block : Z * Z;
}.

Record fbterm_context : Type := Fbterm {
  fixed : fb_fixed;
  term : term_context;
  framebuffer : gmap Z Z;
  grid : list fbterm_char;
  queue : list fbterm_queue_item;
  queue_i : Z;
  fbmap : list qptr;
  text_fg : Z;
  text_bg : Z;
  cursor_status : bool;
  cursor_x : Z;
  cursor_y : Z;
  saved_state_text_fg : Z;
  saved_state_text_bg : Z;
  saved_state_cursor_x : Z;
  saved_state_cursor_y : Z;
  old_cursor_x : Z;
  old_cursor_y : Z;
}.

(** Assignments to one field, or to a group that the code assigns together. *)
Definition set_term (v : term_context) (s : fbterm_context) : fbterm_context :=
  Fbterm (fixed s) v (framebuffer s) (grid s) (queue s) (queue_i s) (fbmap s) (text_fg s) (text_bg s) (cursor_status s) (cursor_x s) (cursor_y s) (saved_state_text_fg s) (saved_state_text_bg s) (saved_state_cursor_x s) (saved_state_cursor_y s) (old_cursor_x s) (old_cursor_y s).
Definition set_framebuffer (v : gmap Z Z) (s : fbterm_context) : fbterm_context :=
  Fbterm (fixed s) (term s) v (grid s) (queue s) (queue_i s) (fbmap s) (text_fg s) (text_bg s) (cursor_status s) (cursor_x s) (cursor_y s) (saved_state_text_fg s) (saved_state_text_bg s) (saved_state_cursor_x s) (saved_state_cursor_y s) (old_cursor_x s) (old_cursor_y s).
Definition set_grid (v : list fbterm_char) (s : fbterm_context) : fbterm_context :=
  Fbterm (fixed s) (term s) (framebuffer s) v (queue s) (queue_i s) (fbmap s) (text_fg s) (text_bg s) (cursor_status s) (cursor_x s) (cursor_y s) (saved_state_text_fg s) (saved_state_text_bg s) (saved_state_cursor_x s) (saved_state_cursor_y s) (old_cursor_x s) (old_cursor_y s).
Definition set_queue (q : list fbterm_queue_item) (n : Z) (s : fbterm_context) : fbterm_context :=
  Fbterm (fixed s) (term s) (framebuffer s) (grid s) q n (fbmap s) (text_fg s) (text_bg s) (cursor_status s) (cursor_x s) (cursor_y s) (saved_state_text_fg s) (saved_state_text_bg s) (saved_state_cursor_x s) (saved_state_cursor_y s) (old_cursor_x s) (old_cursor_y s).
Definition set_fbmap (v : list qptr) (s : fbterm_context) : fbterm_context :=
  Fbterm (fixed s) (term s) (framebuffer s) (grid s) (queue s) (queue_i s) v (text_fg s) (text_bg s) (cursor_status s) (cursor_x s) (cursor_y s) (saved_state_text_fg s) (saved_state_text_bg s) (saved_state_cursor_x s) (saved_state_cursor_y s) (old_cursor_x s) (old_cursor_y s).
Definition set_text (f : Z) (b : Z) (s : fbterm_context) : fbterm_context :=
  Fbterm (fixed s) (term s) (framebuffer s) (grid s) (queue s) (queue_i s) (fbmap s) f b (cursor_status s) (cursor_x s) (cursor_y s) (saved_state_text_fg s) (saved_state_text_bg s) (saved_state_cursor_x s) (saved_state_cursor_y s) (old_cursor_x s) (old_cursor_y s).
Definition set_cursor_status (v : bool) (s : fbterm_context) : fbterm_context :=
  Fbterm (fixed s) (term s) (framebuffer s) (grid s) (queue s) (queue_i s) (fbmap s) (text_fg s) (text_bg s) v (cursor_x s) (cursor_y s) (saved_state_text_fg s) (saved_state_text_bg s) (saved_state_cursor_x s) (saved_state_cursor_y s) (old_cursor_x s) (old_cursor_y s).
Definition set_cursor (x : Z) (y : Z) (s : fbterm_context) : fbterm_context :=
  Fbterm (fixed s) (term s) (framebuffer s) (grid s) (queue s) (queue_i s) (fbmap s) (text_fg s) (text_bg s) (cursor_status s) x y (saved_state_text_fg s) (saved_state_text_bg s) (saved_state_cursor_x s) (saved_state_cursor_y s) (old_cursor_x s) (old_cursor_y s).
Definition set_saved (f : Z) (b : Z) (x : Z) (y : Z) (s : fbterm_context) : fbterm_context :=
  Fbterm (fixed s) (term s) (framebuffer s) (grid s) (queue s) (queue_i s) (fbmap s) (text_fg s) (text_bg s) (cursor_status s) (cursor_x s) (cursor_y s) f b x y (old_cursor_x s) (old_cursor_y s).
Definition set_old_cursor (x : Z) (y : Z) (s : fbterm_context) : fbterm_context :=
  Fbterm (fixed s) (term s) (framebuffer s) (grid s) (queue s) (queue_i s) (fbmap s) (text_fg s) (text_bg s) (cursor_status s) (cursor_x s) (cursor_y s) (saved_state_text_fg s) (saved_state_text_bg s) (saved_state_cursor_x s) (saved_state_cursor_y s) x y.

(** * Access to the arrays *)
Definition array_get {A} (f : fbterm_context -> list A) (i : Z) : K fbterm_context A := fun s =>
  match at_index (f s) i with Some v => Ret v s | None => Fault i s end.

Definition grid_set (i : Z) (c : fbterm_char) : K fbterm_context unit := fun s =>
  if in_array (grid s) i then Ret tt (set_grid (<[Z.to_nat i := c]> (grid s)) s) else Fault i s.
Definition map_set (i : Z) (p : qptr) : K fbterm_context unit := fun s =>
  if in_array (fbmap s) i then Ret tt (set_fbmap (<[Z.to_nat i := p]> (fbmap s)) s) else Fault i s.
Definition queue_set (i : Z) (q : fbterm_queue_item) : K fbterm_context unit := fun s =>
  if in_array (queue s) i then Ret tt (set_queue (<[Z.to_nat i := q]> (queue s)) (queue_i s) s) else Fault i s.
Definition font_bit (i : Z) : K fbterm_context bool := fun s =>
  if (0 <=? i) && (i <? snd (font_bool_block (fixed s))) then Ret (default false (font_bool (fixed s) !! i)) s else Fault i s.
Definition pixel_set (i v : Z) : K fbterm_context unit := fun s =>
  if (0 <=? i) && (i <? pitch (fixed s) / 4 * height (fixed s)) then Ret tt (set_framebuffer (<[i := v]> (framebuffer s)) s) else Fault i s.
Definition fix_ {A} (f : fb_fixed -> A) : K fbterm_context A := gets (fun s => f (fixed s)).
Definition trm {A} (f : term_context -> A) : K fbterm_context A := gets (fun s => f (term s)).

(** The item behind a pointer of [map]. *)
Definition item (p : qptr) : K fbterm_context fbterm_queue_item :=
  match p with QSlot k => array_get queue k | _ => fault 0 end.

(** * State and palette *)
Definition fbterm_save_state : K fbterm_context unit :=
  modify (fun s => set_saved (text_fg s) (text_bg s) (cursor_x s) (cursor_y s) s).
Definition fbterm_restore_state : K fbterm_context unit :=
  modify (fun s => set_cursor (saved_state_cursor_x s) (saved_state_cursor_y s)
                     (set_text (saved_state_text_fg s) (saved_state_text_bg s) s)).
Definition fbterm_swap_palette : K fbterm_context unit := modify (fun s => set_text (text_bg s) (text_fg s) s).

(** * Drawing *)

(** One pixel: glyph column [gx] of pixel row [line]. *)
Definition plot_pixel (c : fbterm_char) (draw : bool) (px line gx : Z) : K fbterm_context unit :=
  let! fb := gets fixed in
  let! b := if ch_bg c =? TRANSPARENT then array_get (fun s => canvas (fixed s)) (px + line * width fb + gx) else ret (ch_bg c) in
  let! f := if ch_fg c =? TRANSPARENT then array_get (fun s => canvas (fixed s)) (px + line * width fb + gx) else ret (ch_fg c) in
  pixel_set (px + line * (pitch fb / 4) + gx) (if draw then f else b).

(** The loops of both plotting routines: [row fy fx] tells whether column [fx] of
    font row [fy] is drawn, or skipped ([None]). *)
Definition plot_glyph (bit : Z -> K fbterm_context (option bool)) (c : fbterm_char) (x y : Z) : K fbterm_context unit :=
  let! fb := gets fixed in
  let px := offset_x fb + x * glyph_width fb in
  let py := offset_y fb + y * glyph_height fb in
  for_range 0 (glyph_height fb) (fun gy =>
    let fy := u8 (gy / font_scale_y fb) in
    for_range 0 (font_width fb) (fun fx =>
      let! d := bit (fy * font_width fb + fx) in
      match d with
      | None => ret tt
      | Some draw => for_range 0 (font_scale_x fb) (fun i => plot_pixel c draw px (py + gy) (font_scale_x fb * fx + i))
      end)).

(** [&ctx->font_bool[c->c * ctx->font_height * ctx->font_width]] *)
Definition glyph (fb : fb_fixed) (c : fbterm_char) : Z := ch_c c * font_height fb * font_width fb.

Definition plot_char (c : fbterm_char) (x y : Z) : K fbterm_context unit :=
  let! s := get in
  if (cols (term s) <=? x) || (rows (term s) <=? y) then ret tt else
  plot_glyph (fun k => let! d := font_bit (glyph (fixed s) c + k) in ret (Some d)) c x y.

Definition plot_char_fast (old c : fbterm_char) (x y : Z) : K fbterm_context unit :=
  let! s := get in
  if (cols (term s) <=? x) || (rows (term s) <=? y) then ret tt else
  plot_glyph (fun k =>
    let! old_draw := font_bit (glyph (fixed s) old + k) in
    let! new_draw := font_bit (glyph (fixed s) c + k) in
    ret (if Bool.eqb old_draw new_draw then None else Some new_draw)) c x y.

(** * The queue *)
Definition compare_char (a b : fbterm_char) : bool :=
  negb (negb (ch_c a =? ch_c b) || negb (ch_bg a =? ch_bg b) || negb (ch_fg a =? ch_fg b)).

Definition push_to_queue (c : fbterm_char) (x y : Z) : K fbterm_context unit :=
  let! t := trm (fun t => t) in
  if (cols t <=? x) || (rows t <=? y) then ret tt else
  let i := y * cols t + x in
  let! q := array_get fbmap i in
  match q with
  | QNull =>
      let! g := array_get grid i in
      if compare_char g c then ret tt else
      let! n := gets queue_i in
      do! modify (fun s => set_queue (queue s) (u64 (n + 1)) s) in
      do! queue_set n (QItem x y c) in
      map_set i (QSlot n)
  | QSlot k =>
      let! it := array_get queue k in
      queue_set k (QItem (q_x it) (q_y it) c)
  | QWild => fault i
  end.

(** [map[i] ? &map[i]->c : &grid[i]] *)
Definition cell_at (i : Z) : K fbterm_context fbterm_char :=
  let! q := array_get fbmap i in
  match q with
  | QNull => array_get grid i
  | _ => let! it := item q in ret (q_c it)
  end.

(** [i % cols] and [i / cols] of a cell index; dividing by zero traps. *)
Definition push_at (c : fbterm_char) (i : Z) : K fbterm_context unit :=
  let! k := trm cols in
  if k =? 0 then fault 0 else push_to_queue c (i mod k) (i / k).

Definition empty_char : K fbterm_context fbterm_char := gets (fun s => FbChar (chr " ") (text_fg s) (text_bg s)).

Definition fbterm_revscroll : K fbterm_context unit :=
  let! t := trm (fun t => t) in
  let top := scroll_top_margin t in
  do! down_to (Z.to_nat (rows t * cols t)) (u64 (u64 (u64 (scroll_bottom_margin t - 1) * cols t) - 1)) (u64 (top * cols t)) (fun i =>
        let! c := cell_at i in push_at c (u64 (i + cols t))) in
  let! empty := empty_char in
  for_range (u64 (top * cols t)) (u64 ((top + 1) * cols t)) (push_at empty).

Definition fbterm_scroll : K fbterm_context unit :=
  let! t := trm (fun t => t) in
  let bot := scroll_bottom_margin t in
  do! for_range (u64 ((scroll_top_margin t + 1) * cols t)) (u64 (bot * cols t)) (fun i =>
        let! c := cell_at i in push_at c (u64 (i - cols t))) in
  let! empty := empty_char in
  for_range (u64 (u64 (bot - 1) * cols t)) (u64 (bot * cols t)) (push_at empty).

Definition fbterm_clear (move : bool) : K fbterm_context unit :=
  let! t := trm (fun t => t) in
  let! empty := empty_char in
  do! for_range 0 (u64 (rows t * cols t)) (push_at empty) in
  when move (modify (set_cursor 0 0)).

(** * Cursor and colours *)
Definition fbterm_enable_cursor : K fbterm_context unit := modify (set_cursor_status true).
Definition fbterm_disable_cursor : K fbterm_context bool :=
  let! r := gets cursor_status in do! modify (set_cursor_status false) in ret r.

(** Past the limit: 0 when the low 32 bits are negative, else the last. *)
Definition clamp (v limit : Z) : Z :=
  if limit <=? v then (if i32 v <? 0 then 0 else u64 (limit - 1)) else v.
Definition fbterm_set_cursor_pos (x y : Z) : K fbterm_context unit :=
  modify (fun s => set_cursor (clamp x (cols (term s))) (clamp y (rows (term s))) s).
Definition fbterm_get_cursor_pos : K fbterm_context (Z * Z) := gets (fun s => (cursor_x s, cursor_y s)).

Definition fbterm_move_character (new_x new_y old_x old_y : Z) : K fbterm_context unit :=
  let! t := trm (fun t => t) in
  if (cols t <=? old_x) || (rows t <=? old_y) || (cols t <=? new_x) || (rows t <=? new_y) then ret tt else
  let! c := cell_at (old_x + old_y * cols t) in
  push_to_queue c new_x new_y.

Definition fbterm_set_text_fg (v : Z) : K fbterm_context unit :=
  let! c := array_get (fun s => ansi_colours (fixed s)) v in modify (fun s => set_text c (text_bg s) s).
Definition fbterm_set_text_bg (v : Z) : K fbterm_context unit :=
  let! c := array_get (fun s => ansi_colours (fixed s)) v in modify (fun s => set_text (text_fg s) c s).
Definition fbterm_set_text_fg_bright (v : Z) : K fbterm_context unit :=
  let! c := array_get (fun s => ansi_bright_colours (fixed s)) v in modify (fun s => set_text c (text_bg s) s).
Definition fbterm_set_text_bg_bright (v : Z) : K fbterm_context unit :=
  let! c := array_get (fun s => ansi_bright_colours (fixed s)) v in modify (fun s => set_text (text_fg s) c s).
Definition fbterm_set_text_fg_rgb (v : Z) : K fbterm_context unit := modify (fun s => set_text v (text_bg s) s).
Definition fbterm_set_text_bg_rgb (v : Z) : K fbterm_context unit := modify (fun s => set_text (text_fg s) v s).
Definition fbterm_set_text_fg_default : K fbterm_context unit := modify (fun s => set_text (default_fg (fixed s)) (text_bg s) s).
Definition fbterm_set_text_bg_default : K fbterm_context unit := modify (fun s => set_text (text_fg s) TRANSPARENT s).

(** * Output *)
Definition fbterm_raw_putchar (c : Z) : K fbterm_context unit :=
  let! s := get in
  do! modify (fun s => set_cursor (u64 (cursor_x s + 1)) (cursor_y s) s) in
  do! push_to_queue (FbChar c (text_fg s) (text_bg s)) (cursor_x s) (cursor_y s) in
  let! s := get in
  do! when ((cursor_x s =? cols (term s)) &&
            ((cursor_y s <? u64 (scroll_bottom_margin (term s) - 1)) || scroll_enabled (term s)))
        (modify (set_cursor 0 (u64 (cursor_y s + 1)))) in
  let! s := get in
  when (cursor_y s =? scroll_bottom_margin (term s))
    (do! modify (fun s => set_cursor (cursor_x s) (u64 (cursor_y s - 1)) s) in fbterm_scroll).

Definition inverted (c : fbterm_char) : fbterm_char := FbChar (ch_c c) (ch_bg c) (ch_fg c).

Definition draw_cursor : K fbterm_context unit :=
  let! s := get in
  let i := cursor_x s + cursor_y s * cols (term s) in
  let! q := array_get fbmap i in
  let! c := cell_at i in
  do! plot_char (inverted c) (cursor_x s) (cursor_y s) in
  match q with
  | QNull => ret tt
  | _ => do! grid_set i c in map_set i QNull
  end.

(** One item of the queue. *)
Definition flush_item (i : Z) : K fbterm_context unit :=
  let! q := array_get queue i in
  let! k := trm cols in
  let offset := q_y q * k + q_x q in
  let! p := array_get fbmap offset in
  match p with
  | QNull => ret tt
  | _ =>
      let! old := array_get grid offset in
      do! (if (ch_bg (q_c q) =? ch_bg old) && (ch_fg (q_c q) =? ch_fg old)
           then plot_char_fast old (q_c q) (q_x q) (q_y q) else plot_char (q_c q) (q_x q) (q_y q)) in
      do! grid_set offset (q_c q) in
      map_set offset QNull
  end.

Definition fbterm_double_buffer_flush : K fbterm_context unit :=
  let! s := get in
  do! when (cursor_status s) draw_cursor in
  let! n := gets queue_i in
  do! for_range 0 n flush_item in
  let! s := get in
  do! when (negb (old_cursor_x s =? cursor_x s) || negb (old_cursor_y s =? cursor_y s) || negb (cursor_status s))
    (let! c := array_get grid (old_cursor_x s + old_cursor_y s * cols (term s)) in
     plot_char c (old_cursor_x s) (old_cursor_y s)) in
  do! modify (fun s => set_old_cursor (cursor_x s) (cursor_y s) s) in
  modify (fun s => set_queue (queue s) 0 s).

Definition fbterm_full_refresh : K fbterm_context unit :=
  let! s := get in
  let fb := fixed s in
  do! for_range 0 (height fb) (fun y =>
        for_range 0 (width fb) (fun x =>
          let! v := array_get (fun s => canvas (fixed s)) (y * width fb + x) in
          pixel_set (y * (pitch fb / 4) + x) v)) in
  do! for_range 0 (u64 (rows (term s) * cols (term s))) (fun i =>
        let! c := array_get grid i in
        plot_char c (i mod cols (term s)) (i / cols (term s))) in
  when (cursor_status s) draw_cursor.

#[global] Instance fbterm_backend : TermBackend fbterm_context := {|
  tctx := term; set_tctx := set_term;
  raw_putchar := fbterm_raw_putchar; clear := fbterm_clear;
  enable_cursor := fbterm_enable_cursor; disable_cursor := fbterm_disable_cursor;
  set_cursor_pos := fbterm_set_cursor_pos; get_cursor_pos := fbterm_get_cursor_pos;
  set_text_fg := fbterm_set_text_fg; set_text_bg := fbterm_set_text_bg;
  set_text_fg_bright := fbterm_set_text_fg_bright; set_text_bg_bright := fbterm_set_text_bg_bright;
  set_text_fg_rgb := fbterm_set_text_fg_rgb; set_text_bg_rgb := fbterm_set_text_bg_rgb;
  set_text_fg_default := fbterm_set_text_fg_default; set_text_bg_default := fbterm_set_text_bg_default;
  move_character := fbterm_move_character; scroll := fbterm_scroll; revscroll := fbterm_revscroll;
  swap_palette := fbterm_swap_palette; backend_save_state := fbterm_save_state;
  backend_restore_state := fbterm_restore_state; double_buffer_flush := fbterm_double_buffer_flush;
  callback := None;
|}.
