(* ===== verification/FbInit.v ===== *)
(** Creation and destruction of a framebuffer terminal: [fbterm_init] and
    [fbterm_deinit] of [src/src/terminal/framebuffer.c].

    [malloc] and [free] are the routines the caller passes.  What the allocator
    returns is not cleared: [heap_queue] and [heap_map] are the contents of the two
    arrays that [fbterm_init] does not initialise.  A null pointer that is stored
    through faults. *)
From Stdlib Require Import Ascii.
From S2P Require Import Prelude CString Printf Font Term Framebuffer.

(** Sizes of the structures. *)
Definition sizeof_fbterm_context : Z := 744.
Definition sizeof_fbterm_char : Z := 12.
Definition sizeof_queue_item : Z := 32.

Definition default_ansi_colours : list Z :=
  [0x00000000; 0x00aa0000; 0x0000aa00; 0x00aa5500; 0x000000aa; 0x00aa00aa; 0x0000aaaa; 0x00aaaaaa].
Definition default_bright_colours : list Z :=
  [0x00555555; 0x00ff5555; 0x0055ff55; 0x00ffff55; 0x005555ff; 0x00ff55ff; 0x0055ffff; 0x00ffffff].

(** * The font as an array of booleans *)
Definition bool_set (size i : Z) (b : bool) : K (gmap Z bool) unit := fun m =>
  if (0 <=? i) && (i <? size) then Ret tt (<[i := b]> m) else Fault i m.
Definition font_row (font : list Z) (i : Z) : K (gmap Z bool) Z := fun m =>
  match at_index font i with Some v => Ret v m | None => Fault i m end.

(** Row [y] of glyph [i]: eight columns from the byte, the others empty except
    for the line-drawing characters, which repeat the last one. *)
Definition font_line (font : list Z) (size fh fw i y : Z) : K (gmap Z bool) unit :=
  do! for_range 0 8 (fun x =>
        let! v := font_row font (i * fh + y) in
        bool_set size (i * fh * fw + y * fw + x) (is_set v (Z.shiftr 0x80 x))) in
  for_range 8 fw (fun x =>
    let! v := font_row font (i * fh + y) in
    bool_set size (i * fh * fw + y * fw + x) ((0xc0 <=? i) && (i <=? 0xdf) && is_set v 1)).
Definition font_fill (font : list Z) (size fh fw : Z) : K (gmap Z bool) unit :=
  for_range 0 FBTERM_FONT_GLYPHS (fun i => for_range 0 fh (font_line font size fh fw i)).

(** A computation on a local array. *)
Definition run_in {M T} (c : K T unit) (t : T) : K M T := fun s =>
  match c t with Ret _ t' => Ret t' s | Panic m _ => Panic m s | Fault a _ => Fault a s | Hang _ => Hang s end.

Section init.
Context {M : Type} (malloc : Z -> K M Z) (free : Z -> Z -> K M unit).
Variables (heap_queue : Z -> fbterm_queue_item) (heap_map : Z -> qptr).

(** [_malloc] of something that is stored to at once. *)
Definition malloc_used (size : Z) : K M Z := let! p := malloc size in if p =? 0 then fault 0 else ret p.
Definition copy_of (l : list Z) (n : Z) : K M (list Z) :=
  if n <=? Z.of_nat (length l) then ret (take (Z.to_nat n) l) else fault (Z.of_nat (length l)).
Definition opt_copy (o : option (list Z)) (n : Z) (dflt : list Z) : K M (list Z) :=
  match o with Some l => copy_of l n | None => ret dflt end.
(** An array that is only used if it was allocated. *)
Definition array_of {A} (p n : Z) (f : Z -> A) : list A := if p =? 0 then [] else f <$> seqZ 0 n.

(** [memset(ctx, 0, ...)] of the embedded parser state, with its geometry. *)
Definition blank_term (r k : Z) : term_context :=
  TermContext 0 false false false false false false false false false false false 0 [0; 0] 0 0 0 0 0 0 0 0
    (replicate 16 0) false false 0 0 r k false.

Definition fbterm_init (fb : gmap Z Z) (width height pitch : Z) (canvas ansi_colours ansi_bright : option (list Z))
    (default_bg default_fg : option Z) (font : option (list Z)) (font_w font_h font_spacing scale_x scale_y margin : Z)
    : K M fbterm_context :=
  let! ctx := malloc_used sizeof_fbterm_context in
  let! colours := opt_copy ansi_colours 8 default_ansi_colours in
  let! bright := opt_copy ansi_bright 8 default_bright_colours in
  let bg := default 0x00000000 default_bg in
  let fg := default 0x00aaaaaa default_fg in
  let '(src, font_w, font_h, font_spacing) :=
    match font with Some f => (f, font_w, font_h, font_spacing) | None => (builtin_font, 8, 16, 1) end in
  let bytes := u64 (font_w * font_h * FBTERM_FONT_GLYPHS) / 8 in
  let! p_bits := malloc_used bytes in
  let! bits := copy_of src bytes in
  let fw := u64 (font_w + font_spacing) in
  let bool_size := u64 (FBTERM_FONT_GLYPHS * font_h * fw) in
  let! p_bool := malloc_used bool_size in
  let! bools := run_in (font_fill bits bool_size font_h fw) ∅ in
  let gw := u64 (fw * scale_x) in
  let gh := u64 (font_h * scale_y) in
  if (gw =? 0) || (gh =? 0) then fault 0 else
  let k := u64 (width - margin * 2) / gw in
  let r := u64 (height - margin * 2) / gh in
  let ox := u64 (margin + (u64 (width - margin * 2) mod gw) / 2) in
  let oy := u64 (margin + (u64 (height - margin * 2) mod gh) / 2) in
  let cells := u64 (r * k) in
  let! p_grid := malloc_used (u64 (cells * sizeof_fbterm_char)) in
  let! p_queue := malloc (u64 (cells * sizeof_queue_item)) in
  let! p_map := malloc (u64 (cells * 8)) in
  let canvas_size := u64 (u64 (width * height) * 4) in
  let! p_canvas := malloc_used canvas_size in
  let! cv := match canvas with
             | Some l => copy_of l (canvas_size / 4)
             | None => ret (replicate (Z.to_nat (u64 (width * height))) bg)
             end in
  let fixed := FbFixed fw font_h gw gh scale_x scale_y ox oy pitch width height bits bools colours bright fg bg cv
    (p_bits, bytes) (p_bool, bool_size) (p_grid, u64 (cells * sizeof_fbterm_char)) (p_queue, u64 (cells * sizeof_queue_item))
    (p_map, u64 (cells * 8)) (p_canvas, canvas_size) (ctx, sizeof_fbterm_context) in
  ret (Fbterm fixed (reinit (blank_term r k)) fb
         (replicate (Z.to_nat cells) (FbChar (chr " ") fg TRANSPARENT)) (array_of p_queue cells heap_queue) 0
         (array_of p_map cells heap_map) fg TRANSPARENT true 0 0 0 0 0 0 0 0).

Definition fbterm_deinit (s : fbterm_context) : K M unit :=
  let f := fixed s in
  for_each [font_bits_block f; font_bool_block f; grid_block f; queue_block f; map_block f; canvas_block f; ctx_block f]
    (fun '(p, n) => free p n).

(** How [kernel.c] hands the framebuffer over: the terminal is created, cleared
    and drawn once.  [fbterm_init] never returns null. *)
Definition start_terminal (fb : gmap Z Z) (width height pitch bg fg : Z) : K M fbterm_context :=
  let! s := fbterm_init fb width height pitch None None None (Some bg) (Some fg) None 0 0 0 1 1 1 in
  let! s := run_in (fbterm_clear true) s in
  run_in fbterm_full_refresh s.
End init.
