(* ===== verification/TermScreen.v ===== *)
(** The terminal as its user sees it: a screen of cells, a cursor, a pair of
    colours, and the operations of a backend as functions on screens.

    [TermBackendLaws] is what the parser relies on of a backend: every callback
    returns, keeps the backend's invariant, leaves the parser's fields alone and
    changes the screen as the function says.  The framebuffer backend is shown to
    satisfy it in [FramebufferSpec]; the parser's theorems ([TermSpec]) are proved
    against it. *)
From Stdlib Require Import Ascii.
From S2P Require Import Prelude CString Printf Font Term Framebuffer.

Record screen : Type := Screen {
  cells : list fbterm_char;
  cx : Z; cy : Z;
  colours : Z * Z;              (* foreground, background *)
  saved : Z * Z * (Z * Z);      (* saved cursor and colours *)
  shown : bool;                 (* cursor visible *)
}.
Definition set_cells (l : list fbterm_char) (a : screen) : screen := Screen l (cx a) (cy a) (colours a) (saved a) (shown a).
Definition move_to (x y : Z) (a : screen) : screen := Screen (cells a) x y (colours a) (saved a) (shown a).
Definition recolour (k : Z * Z) (a : screen) : screen := Screen (cells a) (cx a) (cy a) k (saved a) (shown a).
Definition save_cursor (a : screen) : screen := Screen (cells a) (cx a) (cy a) (colours a) (cx a, cy a, colours a) (shown a).
Definition restore_cursor (a : screen) : screen :=
  Screen (cells a) (saved a).1.1 (saved a).1.2 (saved a).2 (saved a) (shown a).
Definition show_cursor (b : bool) (a : screen) : screen := Screen (cells a) (cx a) (cy a) (colours a) (saved a) b.

(** A character in the current colours. *)
Definition glyph_of (a : screen) (c : Z) : fbterm_char := FbChar c (colours a).1 (colours a).2.
Definition blank (a : screen) : fbterm_char := glyph_of a (chr " ").
Definition cell (a : screen) (i : Z) : fbterm_char := default (blank a) (cells a !! Z.to_nat i).

Section ops.
Variable t : term_context.
Local Abbreviation R := (rows t).
Local Abbreviation C := (cols t).
Local Abbreviation top := (scroll_top_margin t).
Local Abbreviation bot := (scroll_bottom_margin t).

(** Cells by index: the screen whose cell [i] is [f i]. *)
Definition redraw (f : Z -> fbterm_char) (a : screen) : screen := set_cells (f <$> seqZ 0 (R * C)) a.

Definition put_cell (c : fbterm_char) (x y : Z) (a : screen) : screen :=
  if (x <? C) && (y <? R) then set_cells (<[Z.to_nat (y * C + x) := c]> (cells a)) a else a.
Definition scroll_up (a : screen) : screen :=
  redraw (fun i => if (top * C <=? i) && (i <? (bot - 1) * C) then cell a (i + C)
                   else if ((bot - 1) * C <=? i) && (i <? bot * C) then blank a else cell a i) a.
Definition scroll_down (a : screen) : screen :=
  redraw (fun i => if ((top + 1) * C <=? i) && (i <? bot * C) then cell a (i - C)
                   else if (top * C <=? i) && (i <? (top + 1) * C) then blank a else cell a i) a.
Definition erase (move : bool) (a : screen) : screen :=
  let a := redraw (fun _ => blank a) a in if move then move_to 0 0 a else a.
Definition clamped (x y : Z) (a : screen) : screen := move_to (clamp x C) (clamp y R) a.
Definition copy_cell (nx ny ox oy : Z) (a : screen) : screen :=
  if (ox <? C) && (oy <? R) && (nx <? C) && (ny <? R) then put_cell (cell a (ox + oy * C)) nx ny a else a.
(** Write at the cursor and advance; at the end of a line go to the next, unless
    scrolling is off on the last line of the region. *)
Definition type_char (c : Z) (a : screen) : screen :=
  let a := put_cell (glyph_of a c) (cx a) (cy a) (move_to (u64 (cx a + 1)) (cy a) a) in
  let a := if (cx a =? C) && ((cy a <? u64 (bot - 1)) || scroll_enabled t) then move_to 0 (u64 (cy a + 1)) a else a in
  if cy a =? bot then scroll_up (move_to (cx a) (u64 (cy a - 1)) a) else a.
End ops.

(** A screen of the right size whose cursor is on it. *)
Definition on_screen (t : term_context) (a : screen) : Prop := 0 <= cx a < cols t /\ 0 <= cy a < rows t.
Definition same_size (t t' : term_context) : Prop := rows t = rows t' /\ cols t = cols t'.
Definition margins_ok (t : term_context) : Prop :=
  0 <= scroll_top_margin t /\ scroll_top_margin t + 1 < scroll_bottom_margin t /\ scroll_bottom_margin t <= rows t.
Definition size_ok (t : term_context) : Prop := 1 <= rows t < 2 ^ 31 /\ 1 <= cols t < 2 ^ 31.

Section laws.
Context {S : Type} `{TermBackend S}.

(** [c] from [s] returns, keeps [inv] and the parser's fields, and acts on the
    screen as [f]. *)
Definition acts (inv : S -> Prop) (abs : S -> screen) (c : K S unit) (s : S) (f : screen -> screen) : Prop :=
  exists s', c s = Ret tt s' /\ inv s' /\ tctx s' = tctx s /\ abs s' = f (abs s).
End laws.

Class TermBackendLaws (S : Type) `{TermBackend S} : Type := {
  inv : S -> Prop;
  abs : S -> screen;
  inv_size s : inv s -> size_ok (tctx s) /\ Z.of_nat (length (cells (abs s))) = rows (tctx s) * cols (tctx s);
  inv_cursor s : inv s -> 0 <= cx (abs s) < 2 ^ 64 /\ 0 <= cy (abs s) < 2 ^ 64;
  law_tctx t s : inv s -> same_size t (tctx s) -> inv (set_tctx t s) /\ abs (set_tctx t s) = abs s /\ tctx (set_tctx t s) = t;
  law_get s : inv s -> get_cursor_pos s = Ret (cx (abs s), cy (abs s)) s;
  law_set x y s : inv s -> 0 <= x < 2 ^ 64 -> 0 <= y < 2 ^ 64 -> acts inv abs (set_cursor_pos x y) s (clamped (tctx s) x y);
  law_putchar c s : inv s -> margins_ok (tctx s) -> 0 <= c < 256 -> acts inv abs (raw_putchar c) s (type_char (tctx s) c);
  law_move nx ny ox oy s : inv s -> 0 <= nx -> 0 <= ny -> 0 <= ox -> 0 <= oy ->
    acts inv abs (move_character nx ny ox oy) s (copy_cell (tctx s) nx ny ox oy);
  law_scroll s : inv s -> margins_ok (tctx s) -> acts inv abs scroll s (scroll_up (tctx s));
  law_revscroll s : inv s -> margins_ok (tctx s) -> acts inv abs revscroll s (scroll_down (tctx s));
  law_clear m s : inv s -> acts inv abs (clear m) s (erase (tctx s) m);
  law_enable s : inv s -> acts inv abs enable_cursor s (show_cursor true);
  law_disable s : inv s -> exists b s', disable_cursor s = Ret b s' /\ inv s' /\ tctx s' = tctx s /\ abs s' = show_cursor false (abs s);
  law_save s : inv s -> acts inv abs backend_save_state s save_cursor;
  law_restore s : inv s -> acts inv abs backend_restore_state s restore_cursor;
  law_swap s : inv s -> acts inv abs swap_palette s (fun a => recolour ((colours a).2, (colours a).1) a);
  law_fg v s : inv s -> 0 <= v < 8 -> exists f, acts inv abs (set_text_fg v) s (fun a => recolour (f, (colours a).2) a);
  law_bg v s : inv s -> 0 <= v < 8 -> exists b, acts inv abs (set_text_bg v) s (fun a => recolour ((colours a).1, b) a);
  law_fg_bright v s : inv s -> 0 <= v < 8 -> exists f, acts inv abs (set_text_fg_bright v) s (fun a => recolour (f, (colours a).2) a);
  law_bg_bright v s : inv s -> 0 <= v < 8 -> exists b, acts inv abs (set_text_bg_bright v) s (fun a => recolour ((colours a).1, b) a);
  law_fg_rgb v s : inv s -> acts inv abs (set_text_fg_rgb v) s (fun a => recolour (v, (colours a).2) a);
  law_bg_rgb v s : inv s -> acts inv abs (set_text_bg_rgb v) s (fun a => recolour ((colours a).1, v) a);
  law_fg_default s : inv s -> exists f, acts inv abs set_text_fg_default s (fun a => recolour (f, (colours a).2) a);
  law_bg_default s : inv s -> exists b, acts inv abs set_text_bg_default s (fun a => recolour ((colours a).1, b) a);
  law_flush s : inv s -> on_screen (tctx s) (abs s) -> acts inv abs double_buffer_flush s (fun a => a);
  law_callback f kind a b c s : callback = Some f -> inv s -> acts inv abs (f kind a b c) s (fun a => a);
}.
