(* ===== verification/FramebufferSpec.v ===== *)
(** The grid, the queue and the map of the framebuffer backend represent one
    screen: a cell shows its queued update if it has one, else the grid.  The
    queue holds at most one item per cell, so it never overflows; pushing,
    scrolling, clearing and moving cells act on the screen as the operations of
    [TermScreen] say. *)
From Stdlib Require Import Ascii.
From S2P Require Import Prelude CString Printf Font Term Framebuffer TermScreen.

Module FramebufferSpec.

Definition char_ok (c : fbterm_char) : Prop := 0 <= ch_c c < 256.

(** * Queue and map *)
Section queue.
Variables (R C : Z).
Definition idx (it : fbterm_queue_item) : Z := q_y it * C + q_x it.
Definition item_ok (it : fbterm_queue_item) : Prop := 0 <= q_x it < C /\ 0 <= q_y it < R /\ char_ok (q_c it).

Record queue_ok (g : list fbterm_char) (q : list fbterm_queue_item) (n : Z) (m : list qptr) : Prop := {
  ok_grid : Z.of_nat (length g) = R * C;
  ok_map : Z.of_nat (length m) = R * C;
  ok_queue : Z.of_nat (length q) = R * C;
  ok_n : 0 <= n;
  ok_chars : Forall char_ok g;
  ok_wild i : m !! i <> Some QWild;
  ok_slot i k : m !! i = Some (QSlot k) -> 0 <= k < n /\ exists it, q !! Z.to_nat k = Some it /\ item_ok it /\ idx it = Z.of_nat i;
  ok_back k : 0 <= k < n -> exists it, q !! Z.to_nat k = Some it /\ m !! Z.to_nat (idx it) = Some (QSlot k);
}.

Definition cell_of (q : list fbterm_queue_item) (p : qptr) (g : fbterm_char) : fbterm_char :=
  match p with QSlot k => default g (q_c <$> q !! Z.to_nat k) | _ => g end.
Definition view_of (g : list fbterm_char) (q : list fbterm_queue_item) (m : list qptr) : list fbterm_char := zip_with (cell_of q) m g.

Lemma idx_range it : item_ok it -> 0 <= idx it < R * C.
Proof. intros (Hx & Hy & _). unfold idx. nia. Qed.

Section facts.
Context {g : list fbterm_char} {q : list fbterm_queue_item} {n : Z} {m : list qptr} (Hok : queue_ok g q n m).

Lemma view_length : Z.of_nat (length (view_of g q m)) = R * C.
Proof. unfold view_of. rewrite length_zip_with. pose proof (ok_grid _ _ _ _ Hok). pose proof (ok_map _ _ _ _ Hok). lia. Qed.

(** The items in use sit at different cells. *)
Lemma room i : 0 <= i < R * C -> m !! Z.to_nat i = Some QNull -> n < R * C.
Proof.
  intros Hi Hnull. set (f := fun k => default 0 (idx <$> q !! Z.to_nat k)).
  assert (Hf : forall k, 0 <= k < n -> m !! Z.to_nat (f k) = Some (QSlot k) /\ 0 <= f k < R * C).
  { intros k Hk. destruct (ok_back _ _ _ _ Hok k Hk) as (it & Hq & Hm). unfold f. rewrite Hq. cbn. split; [done|].
    destruct (ok_slot _ _ _ _ Hok _ _ Hm) as (_ & it' & Hq' & Hit & _). rewrite Hq in Hq'. injection Hq' as <-. by apply idx_range. }
  assert (Hnd : NoDup (i :: (f <$> seqZ 0 n))).
  { apply NoDup_cons. split.
    - intros (k & -> & Hk%elem_of_seqZ)%list_elem_of_fmap. destruct (Hf k ltac:(lia)) as [Hm _]. rewrite Hnull in Hm. done.
    - apply NoDup_fmap_2_strong; [|apply NoDup_seqZ]. intros k1 k2 H1%elem_of_seqZ H2%elem_of_seqZ E.
      destruct (Hf k1 ltac:(lia)) as [M1 _], (Hf k2 ltac:(lia)) as [M2 _]. rewrite E in M1. rewrite M1 in M2. by injection M2. }
  assert (Hsub : i :: (f <$> seqZ 0 n) ⊆+ seqZ 0 (R * C)).
  { apply NoDup_submseteq; [done|]. intros k Hk%elem_of_cons. apply elem_of_seqZ. destruct Hk as [->|(j & -> & Hj%elem_of_seqZ)%list_elem_of_fmap]; [lia|].
    destruct (Hf j ltac:(lia)). lia. }
  apply submseteq_length in Hsub. cbn in Hsub. rewrite length_fmap, !length_seqZ in Hsub. lia.
Qed.

Lemma map_get i : 0 <= i < R * C -> m !! Z.to_nat i = Some QNull \/ exists k, m !! Z.to_nat i = Some (QSlot k).
Proof.
  intros Hi. pose proof (ok_map _ _ _ _ Hok). destruct (lookup_lt_is_Some_2 m (Z.to_nat i) ltac:(lia)) as [p Hp].
  destruct p; [by left|by right; eexists|by destruct (ok_wild _ _ _ _ Hok (Z.to_nat i))].
Qed.

Lemma grid_get i : 0 <= i < R * C -> exists c, g !! Z.to_nat i = Some c /\ char_ok c.
Proof.
  intros Hi. pose proof (ok_grid _ _ _ _ Hok). destruct (lookup_lt_is_Some_2 g (Z.to_nat i) ltac:(lia)) as [c Hc].
  exists c. split; [done|]. by eapply Forall_lookup_1; [apply (ok_chars _ _ _ _ Hok)|].
Qed.

Lemma view_null i c : m !! Z.to_nat i = Some QNull -> g !! Z.to_nat i = Some c -> view_of g q m !! Z.to_nat i = Some c.
Proof. intros Hm Hg. unfold view_of. by rewrite lookup_zip_with, Hm, Hg. Qed.

Lemma view_slot i k it : 0 <= i < R * C -> m !! Z.to_nat i = Some (QSlot k) -> q !! Z.to_nat k = Some it ->
  view_of g q m !! Z.to_nat i = Some (q_c it).
Proof.
  intros Hi Hm Hq. destruct (grid_get i Hi) as (c & Hg & _). unfold view_of. rewrite lookup_zip_with, Hm, Hg. cbn. by rewrite Hq.
Qed.

(** A push on a cell without an item. *)
Lemma push_new c x y : 0 <= x < C -> 0 <= y < R -> char_ok c -> m !! Z.to_nat (y * C + x) = Some QNull ->
  let q' := <[Z.to_nat n := QItem x y c]> q in
  let m' := <[Z.to_nat (y * C + x) := QSlot n]> m in
  queue_ok g q' (n + 1) m' /\ view_of g q' m' = <[Z.to_nat (y * C + x) := c]> (view_of g q m).
Proof.
  intros Hx Hy Hc Hnull q' m'. set (i := y * C + x) in *. assert (Hi : 0 <= i < R * C) by (unfold i; nia).
  pose proof (room i Hi Hnull) as Hroom. pose proof (ok_map _ _ _ _ Hok) as Hml. pose proof (ok_queue _ _ _ _ Hok) as Hql. pose proof (ok_n _ _ _ _ Hok) as Hn0.
  assert (Hqn : q' !! Z.to_nat n = Some (QItem x y c)) by (unfold q'; apply list_lookup_insert_eq; lia).
  assert (Hqo : forall k, 0 <= k < n -> q' !! Z.to_nat k = q !! Z.to_nat k) by (intros k Hk; unfold q'; apply list_lookup_insert_ne; lia).
  split; [split|].
  - exact (ok_grid _ _ _ _ Hok).
  - unfold m'. by rewrite length_insert.
  - unfold q'. by rewrite length_insert.
  - lia.
  - exact (ok_chars _ _ _ _ Hok).
  - intros j. unfold m'. rewrite list_lookup_insert_Some. intros [(_ & ? & _)|(_ & Hj)]; [done|]. by apply (ok_wild _ _ _ _ Hok j).
  - intros j k. unfold m'. rewrite list_lookup_insert_Some. intros [(<- & [= ->] & _)|(Hne & Hj)].
    + split; [lia|]. eexists. split; [done|]. split; [split; [exact Hx|by split]|]. unfold idx. cbn. fold i. lia.
    + destruct (ok_slot _ _ _ _ Hok j k Hj) as (Hk & it & Hq & Hit). split; [lia|]. exists it. by rewrite Hqo.
  - intros k Hk. destruct (decide (k = n)) as [->|Hne].
    + eexists. split; [done|]. unfold idx. cbn. fold i. unfold m'. apply list_lookup_insert_eq. lia.
    + destruct (ok_back _ _ _ _ Hok k ltac:(lia)) as (it & Hq & Hm). exists it. rewrite Hqo by lia. split; [done|].
      unfold m'. rewrite list_lookup_insert_ne; [done|]. intros E. rewrite <- E in Hm. congruence.
  - apply list_eq. intros j. unfold view_of, m'. rewrite lookup_zip_with. destruct (decide (j = Z.to_nat i)) as [->|Hne].
    + destruct (grid_get i Hi) as (c0 & Hg & _). rewrite list_lookup_insert_eq, Hg by lia. cbn. rewrite Hqn. cbn.
      rewrite list_lookup_insert_eq; [done|]. pose proof view_length. unfold view_of in *. lia.
    + rewrite !list_lookup_insert_ne by done. rewrite lookup_zip_with. destruct (m !! j) as [[|k|]|] eqn:Ej; try done. cbn.
      destruct (g !! j); cbn; [|done]. destruct (ok_slot _ _ _ _ Hok _ _ Ej) as (Hk & _). by rewrite Hqo.
Qed.

(** A push on a cell that has one. *)
Lemma push_old c i k it : 0 <= i < R * C -> char_ok c -> m !! Z.to_nat i = Some (QSlot k) -> q !! Z.to_nat k = Some it ->
  let q' := <[Z.to_nat k := QItem (q_x it) (q_y it) c]> q in
  queue_ok g q' n m /\ view_of g q' m = <[Z.to_nat i := c]> (view_of g q m).
Proof.
  intros Hi Hc Hm Hq q'. pose proof (ok_queue _ _ _ _ Hok) as Hql.
  destruct (ok_slot _ _ _ _ Hok _ _ Hm) as (Hk & it0 & Hq0 & Hit & Hix). rewrite Hq in Hq0. injection Hq0 as <-.
  assert (Hkl : (Z.to_nat k < length q)%nat) by (by eapply lookup_lt_Some).
  assert (Hqk : q' !! Z.to_nat k = Some (QItem (q_x it) (q_y it) c)) by (unfold q'; by apply list_lookup_insert_eq).
  assert (Hqo : forall j, 0 <= j -> j <> k -> q' !! Z.to_nat j = q !! Z.to_nat j) by (intros j ??; unfold q'; apply list_lookup_insert_ne; lia).
  split; [split|].
  - exact (ok_grid _ _ _ _ Hok).
  - exact (ok_map _ _ _ _ Hok).
  - unfold q'. by rewrite length_insert.
  - exact (ok_n _ _ _ _ Hok).
  - exact (ok_chars _ _ _ _ Hok).
  - exact (ok_wild _ _ _ _ Hok).
  - intros j l Hj. destruct (ok_slot _ _ _ _ Hok j l Hj) as (Hl & it1 & Hq1 & Hit1 & Hx1). split; [done|].
    destruct (decide (l = k)) as [->|Hne].
    + rewrite Hq in Hq1. injection Hq1 as <-. eexists. split; [done|]. split; [|exact Hx1]. destruct Hit as (Hqx & Hqy & _). split; [exact Hqx|by split].
    + exists it1. by rewrite Hqo by lia.
  - intros l Hl. destruct (ok_back _ _ _ _ Hok l Hl) as (it1 & Hq1 & Hm1). destruct (decide (l = k)) as [->|Hne].
    + rewrite Hq in Hq1. injection Hq1 as <-. eexists. split; [done|]. exact Hm1.
    + exists it1. by rewrite Hqo by lia.
  - apply list_eq. intros j. unfold view_of. rewrite lookup_zip_with. destruct (decide (j = Z.to_nat i)) as [->|Hne].
    + destruct (grid_get i Hi) as (c0 & Hg & _). rewrite Hm, Hg. cbn. rewrite Hqk. cbn.
      rewrite list_lookup_insert_eq; [done|]. pose proof view_length. unfold view_of in *. lia.
    + rewrite list_lookup_insert_ne by done. rewrite lookup_zip_with. destruct (m !! j) as [[|l|]|] eqn:Ej; try done. cbn.
      destruct (g !! j); cbn; [|done]. destruct (ok_slot _ _ _ _ Hok _ _ Ej) as (Hl & itl & Hql' & Hitl & Hxl).
      rewrite Hqo; [done|lia|]. intros ->. rewrite Hq in Hql'. injection Hql' as <-. lia.
Qed.
End facts.
End queue.

Lemma compare_char_eq a b : compare_char a b = true <-> a = b.
Proof.
  unfold compare_char. destruct a as [c f k], b as [c' f' k']. cbn.
  destruct (Z.eqb_spec c c'), (Z.eqb_spec k k'), (Z.eqb_spec f f'); cbn; split; intros; simplify_eq; try done.
Qed.

(** * The state *)

(** The geometry: every cell is a rectangle of the framebuffer, every glyph is in
    the font. *)
Record fixed_ok (f : fb_fixed) (t : term_context) : Prop := {
  fx_font : 1 <= font_width f /\ 1 <= font_height f <= 256;
  fx_scale : 1 <= font_scale_x f /\ 1 <= font_scale_y f;
  fx_glyph : glyph_width f = font_width f * font_scale_x f /\ glyph_height f = font_height f * font_scale_y f;
  fx_offset : 0 <= offset_x f /\ 0 <= offset_y f;
  fx_width : offset_x f + cols t * glyph_width f <= width f;
  fx_height : offset_y f + rows t * glyph_height f <= height f;
  fx_pitch : width f <= pitch f / 4;
  fx_canvas : Z.of_nat (length (canvas f)) = width f * height f;
  fx_bits : (font_bool_block f).2 = 256 * font_height f * font_width f;
  fx_colours : length (ansi_colours f) = 8%nat /\ length (ansi_bright_colours f) = 8%nat;
}.

Definition word (v : Z) : Prop := 0 <= v < 2 ^ 64.

Record fb_ok (s : fbterm_context) : Prop := {
  fo_size : size_ok (term s);
  fo_queue : queue_ok (rows (term s)) (cols (term s)) (grid s) (queue s) (queue_i s) (fbmap s);
  fo_fixed : fixed_ok (fixed s) (term s);
  fo_cursor : word (cursor_x s) /\ word (cursor_y s);
  fo_saved : word (saved_state_cursor_x s) /\ word (saved_state_cursor_y s);
  fo_old : 0 <= old_cursor_x s < cols (term s) /\ 0 <= old_cursor_y s < rows (term s);
}.

Definition view (s : fbterm_context) : list fbterm_char := view_of (grid s) (queue s) (fbmap s).
Definition fb_abs (s : fbterm_context) : screen :=
  Screen (view s) (cursor_x s) (cursor_y s) (text_fg s, text_bg s)
    (saved_state_cursor_x s, saved_state_cursor_y s, (saved_state_text_fg s, saved_state_text_bg s)) (cursor_status s).

Lemma at_index_eq {A} (l : list A) i v : 0 <= i -> l !! Z.to_nat i = Some v -> at_index l i = Some v.
Proof.
  intros Hi Hl. unfold at_index. apply lookup_lt_Some in Hl as Hlt.
  by rewrite (proj2 (Z.leb_le 0 i)), (proj2 (Z.ltb_lt _ _)) by lia.
Qed.

Lemma array_get_eq {A} (f : fbterm_context -> list A) i v s : 0 <= i -> f s !! Z.to_nat i = Some v -> array_get f i s = Ret v s.
Proof. intros Hi Hl. unfold array_get. by rewrite (at_index_eq _ _ v). Qed.

Lemma in_array_eq {A} (l : list A) i : 0 <= i < Z.of_nat (length l) -> in_array l i = true.
Proof. intros. unfold in_array. by rewrite (proj2 (Z.leb_le 0 i)), (proj2 (Z.ltb_lt _ _)) by lia. Qed.

Lemma bind_trm {A B} (f : term_context -> A) (k : A -> K fbterm_context B) s : bind (trm f) k s = k (f (term s)) s.
Proof. done. Qed.
Lemma bind_gets {S A B} (f : S -> A) (k : A -> K S B) s : bind (gets f) k s = k (f s) s.
Proof. done. Qed.

Section state.
Implicit Types s : fbterm_context.

Lemma cells_bound s : fb_ok s -> 1 <= rows (term s) * cols (term s) < 2 ^ 62 /\ cols (term s) <= rows (term s) * cols (term s).
Proof. intros Hok. destruct (fo_size _ Hok). nia. Qed.

(** A state that differs from another in queue and map only. *)
Definition requeued (s s' : fbterm_context) : Prop := exists q n m, s' = set_fbmap m (set_queue q n s).

Lemma requeued_refl s : requeued s s.
Proof. exists (queue s), (queue_i s), (fbmap s). by destruct s. Qed.
Lemma requeued_trans s1 s2 s3 : requeued s1 s2 -> requeued s2 s3 -> requeued s1 s3.
Proof. intros (? & ? & ? & ->) (q & n & m & ->). by exists q, n, m. Qed.
Lemma requeued_term s s' : requeued s s' -> term s' = term s /\ text_fg s' = text_fg s /\ text_bg s' = text_bg s.
Proof. by intros (? & ? & ? & ->). Qed.
Lemma requeued_abs s s' : requeued s s' -> fb_abs s' = set_cells (view s') (fb_abs s).
Proof. by intros (? & ? & ? & ->). Qed.

Lemma requeued_ok s q n m : fb_ok s -> queue_ok (rows (term s)) (cols (term s)) (grid s) q n m -> fb_ok (set_fbmap m (set_queue q n s)).
Proof. intros [] Hq. by split. Qed.

Lemma push_spec c x y s :
  fb_ok s -> 0 <= x -> 0 <= y -> char_ok c ->
  exists s', push_to_queue c x y s = Ret tt s' /\ fb_ok s' /\ requeued s s' /\
    view s' = if (x <? cols (term s)) && (y <? rows (term s)) then <[Z.to_nat (y * cols (term s) + x) := c]> (view s) else view s.
Proof.
  intros Hok Hx Hy Hc. unfold push_to_queue. rewrite bind_trm. cbv zeta.
  destruct (Z.leb_spec (cols (term s)) x) as [?|Hxl]; [rewrite (proj2 (Z.ltb_ge x _)) by lia; exists s; split_and!; try done; apply requeued_refl|].
  rewrite (proj2 (Z.ltb_lt x _)) by lia.
  destruct (Z.leb_spec (rows (term s)) y) as [?|Hyl]; [rewrite (proj2 (Z.ltb_ge y _)) by lia; exists s; split_and!; try done; apply requeued_refl|].
  rewrite (proj2 (Z.ltb_lt y _)) by lia. cbn [orb andb]. set (i := y * cols (term s) + x).
  assert (Hi : 0 <= i < rows (term s) * cols (term s)) by (unfold i; nia).
  pose proof (fo_queue _ Hok) as Hq. pose proof (cells_bound s Hok) as [Hb _].
  destruct (map_get _ _ Hq i Hi) as [Hm|[k Hm]]; rewrite (bind_Ret _ _ _ _ _ (array_get_eq fbmap i _ s ltac:(lia) Hm)).
  - destruct (grid_get _ _ Hq i Hi) as (g & Hg & _). rewrite (bind_Ret _ _ _ _ _ (array_get_eq grid i _ s ltac:(lia) Hg)).
    destruct (compare_char g c) eqn:Ec.
    + apply compare_char_eq in Ec as ->. exists s. split_and!; [done..|apply requeued_refl|].
      rewrite list_insert_id; [done|]. by apply view_null.
    + rewrite bind_gets, bind_modify.
      pose proof (room _ _ Hq i Hi Hm) as Hroom. pose proof (ok_n _ _ _ _ _ _ Hq) as Hn0. pose proof (ok_queue _ _ _ _ _ _ Hq) as Hql. pose proof (ok_map _ _ _ _ _ _ Hq) as Hml.
      rewrite wrap_small by lia. unfold queue_set, bind. cbn [queue set_queue]. rewrite in_array_eq by lia.
      unfold map_set. cbn [fbmap set_queue]. rewrite in_array_eq by lia.
      destruct (push_new _ _ Hq c x y ltac:(lia) ltac:(lia) Hc Hm) as [Hok' Hv].
      eexists. split; [reflexivity|]. split; [exact (requeued_ok s _ _ _ Hok Hok')|]. split; [by eexists _, _, _|]. exact Hv.
  - destruct (ok_slot _ _ _ _ _ _ Hq _ _ Hm) as (Hk & it & Hit & _). pose proof (lookup_lt_Some _ _ _ Hit).
    rewrite (bind_Ret _ _ _ _ _ (array_get_eq queue k _ s ltac:(lia) Hit)).
    unfold queue_set. rewrite in_array_eq by lia.
    destruct (push_old _ _ Hq c i k it Hi Hc Hm Hit) as [Hok' Hv].
    eexists. split; [reflexivity|]. split; [|split; [|exact Hv]].
    + pose proof (requeued_ok s _ _ _ Hok Hok') as Hr. by destruct s.
    + exists (<[Z.to_nat k := QItem (q_x it) (q_y it) c]> (queue s)), (queue_i s), (fbmap s). by destruct s.
Qed.

Lemma cell_at_spec i s : fb_ok s -> 0 <= i < rows (term s) * cols (term s) ->
  exists c, cell_at i s = Ret c s /\ char_ok c /\ view s !! Z.to_nat i = Some c.
Proof.
  intros Hok Hi. pose proof (fo_queue _ Hok) as Hq. unfold cell_at.
  destruct (map_get _ _ Hq i Hi) as [Hm|[k Hm]]; rewrite (bind_Ret _ _ _ _ _ (array_get_eq fbmap i _ s ltac:(lia) Hm)).
  - destruct (grid_get _ _ Hq i Hi) as (g & Hg & Hc). exists g. split; [by apply array_get_eq; [lia|]|]. split; [done|]. by apply view_null.
  - destruct (ok_slot _ _ _ _ _ _ Hq _ _ Hm) as (Hk & it & Hit & (_ & _ & Hc) & _). exists (q_c it). unfold item.
    rewrite (bind_Ret _ _ _ _ _ (array_get_eq queue k _ s ltac:(lia) Hit)). split; [done|]. split; [done|]. by eapply view_slot.
Qed.

(** ** Pushing a run of cells *)

(** The screen with cell [i] redefined for the indices that satisfy [p]. *)
Definition cell_set (s : fbterm_context) (i : Z) : Prop := 0 <= i < rows (term s) * cols (term s).

Lemma push_at_spec c i s : fb_ok s -> char_ok c -> cell_set s i ->
  exists s', push_at c i s = Ret tt s' /\ fb_ok s' /\ requeued s s' /\ view s' = <[Z.to_nat i := c]> (view s).
Proof.
  intros Hok Hc Hi. unfold cell_set in Hi. destruct (fo_size _ Hok) as [Hr Hk]. unfold push_at.
  rewrite bind_trm, (proj2 (Z.eqb_neq _ 0)) by lia.
  assert (Hm : 0 <= i mod cols (term s) < cols (term s)) by (apply Z.mod_pos_bound; lia).
  assert (Hd : 0 <= i / cols (term s) < rows (term s)) by (split; [apply Z.div_pos; lia|apply Z.div_lt_upper_bound; nia]).
  destruct (push_spec c (i mod cols (term s)) (i / cols (term s)) s Hok) as (s' & E & H1 & H2 & H3); try lia; [done|].
  exists s'. split; [done|]. split; [done|]. split; [done|]. rewrite H3.
  rewrite !(proj2 (Z.ltb_lt _ _)) by lia. cbn [andb]. do 2 f_equal. rewrite Z.mul_comm. symmetry. rewrite (Z.div_mod i (cols (term s))) at 1 by lia. lia.
Qed.

(** The view by index. *)
Definition vw (s : fbterm_context) (i : Z) : fbterm_char := cell (fb_abs s) i.

Lemma vw_lookup s i c : view s !! Z.to_nat i = Some c -> vw s i = c.
Proof. unfold vw, cell. cbn. by intros ->. Qed.

Lemma vw_insert s s' i c j : fb_ok s -> fb_ok s' -> requeued s s' -> view s' = <[Z.to_nat i := c]> (view s) -> cell_set s i -> 0 <= j ->
  vw s' j = if i =? j then c else vw s j.
Proof.
  intros Hok Hok' Hr Hv Hi Hj. unfold vw, cell. rewrite (requeued_abs _ _ Hr), Hv. cbn [set_cells cells].
  change (cells (fb_abs s)) with (view s). change (blank (set_cells _ (fb_abs s))) with (blank (fb_abs s)).
  pose proof (view_length _ _ (fo_queue _ Hok)) as Hl. unfold cell_set in Hi. fold (view s) in Hl.
  destruct (Z.eqb_spec i j) as [->|Hne].
  - rewrite list_lookup_insert_eq by lia. done.
  - rewrite list_lookup_insert_ne by lia. done.
Qed.

Lemma redraw_view s f : fb_ok s -> (forall i, cell_set s i -> vw s i = f i) -> view s = f <$> seqZ 0 (rows (term s) * cols (term s)).
Proof.
  intros Hok Hf. pose proof (view_length _ _ (fo_queue _ Hok)) as Hl. fold (view s) in Hl.
  apply list_eq. intros j. destruct (lt_dec j (length (view s))) as [Hj|Hj].
  - destruct (lookup_lt_is_Some_2 (view s) j Hj) as [c Hc]. rewrite Hc. rewrite list_lookup_fmap.
    rewrite (proj2 (lookup_seqZ 0 _ j (Z.of_nat j))) by lia. cbn. f_equal. rewrite <- Hf by (unfold cell_set; lia).
    symmetry. apply vw_lookup. by rewrite Nat2Z.id.
  - rewrite !lookup_ge_None_2; [done| |lia]. rewrite length_fmap, length_seqZ. lia.
Qed.

(** ** Loops over cells *)
Lemma wp_down_to {S} (I : Z -> S -> Prop) fuel i x (body : Z -> K S unit) (st : S) :
  0 <= x <= i -> i < 2 ^ 64 -> i - x < Z.of_nat fuel -> I i st ->
  (forall j (s : S), x <= j <= i -> I j s -> wp (body j s) (fun _ (s' : S) => I (j - 1) s')) ->
  wp (down_to fuel i x body st) (fun _ (s' : S) => I (x - 1) s').
Proof.
  revert i st. induction fuel as [|fuel IH]; intros i st Hx Hi Hf HI Hb; [lia|]. cbn [down_to]. apply wp_bind.
  eapply wp_mono; [by apply Hb; [lia|]|]. intros [] s1 H1. destruct (Z.eqb_spec i x) as [->|Hne]; [done|].
  rewrite wrap_small by lia. apply IH; try lia; [done|]. intros j s2 Hj. apply Hb. lia.
Qed.

(** What holds after the cells redefined so far are those of [F]. *)
Definition progress (s : fbterm_context) (F : Z -> fbterm_char) (s' : fbterm_context) : Prop :=
  fb_ok s' /\ requeued s s' /\ forall k, 0 <= k -> vw s' k = F k.

Lemma progress_term s F s' : progress s F s' -> term s' = term s /\ text_fg s' = text_fg s /\ text_bg s' = text_bg s.
Proof. intros (_ & Hr & _). by apply requeued_term. Qed.

Lemma progress_push s F s' c i : progress s F s' -> char_ok c -> cell_set s i ->
  wp (push_at c i s') (fun _ s2 => progress s (fun k => if i =? k then c else F k) s2).
Proof.
  intros Hp Hc Hi. destruct (progress_term _ _ _ Hp) as [Et _]. destruct Hp as (Hok & Hr & HF).
  assert (Hi' : cell_set s' i) by (unfold cell_set; by rewrite Et).
  destruct (push_at_spec c i s' Hok Hc Hi') as (s2 & E & Hok2 & Hr2 & Hv). rewrite E. cbn. split; [done|]. split; [by eapply requeued_trans|].
  intros k Hk. rewrite (vw_insert s' s2 i c k Hok Hok2 Hr2 Hv Hi' Hk). by rewrite HF.
Qed.

Lemma progress_weaken s F G s' : progress s F s' -> (forall k, 0 <= k -> F k = G k) -> progress s G s'.
Proof. intros (Hok & Hr & HF) HFG. split; [done|]. split; [done|]. intros k Hk. by rewrite HF, HFG. Qed.

Lemma progress_cell s F s' i : progress s F s' -> cell_set s i ->
  exists c, cell_at i s' = Ret c s' /\ char_ok c /\ c = F i.
Proof.
  intros Hp Hi. destruct (progress_term _ _ _ Hp) as [Et _]. destruct Hp as (Hok & Hr & HF). unfold cell_set in Hi.
  destruct (cell_at_spec i s' Hok) as (c & E & Hc & Hv); [by rewrite Et|]. exists c. split; [done|]. split; [done|].
  rewrite <- HF by lia. symmetry. by apply vw_lookup.
Qed.

Ltac zbool := repeat match goal with
  | |- context [?a <=? ?b] => destruct (Z.leb_spec a b)
  | |- context [?a <? ?b] => destruct (Z.ltb_spec a b)
  | |- context [?a =? ?b] => destruct (Z.eqb_spec a b)
  end; cbn [andb orb negb]; subst; try done; try lia.

Lemma fill_spec s F s1 c i0 i1 :
  progress s F s1 -> char_ok c -> 0 <= i0 <= i1 -> i1 <= rows (term s) * cols (term s) ->
  wp (for_range i0 i1 (push_at c) s1) (fun _ s2 => progress s (fun k => if (i0 <=? k) && (k <? i1) then c else F k) s2).
Proof.
  intros Hp Hc Hi Hl. apply (wp_for_range (fun j s2 => progress s (fun k => if (i0 <=? k) && (k <? j) then c else F k) s2)); [lia| |].
  - eapply progress_weaken; [done|]. intros k Hk. cbn beta. zbool.
  - intros j s2 Hj Hp2. eapply wp_mono; [apply (progress_push s _ s2 c j Hp2 Hc); unfold cell_set; lia|].
    intros [] s3 H3. eapply progress_weaken; [exact H3|]. intros k Hk. cbn beta. zbool.
Qed.

Lemma progress_refl s : fb_ok s -> progress s (vw s) s.
Proof. intros Hok. split; [done|]. split; [apply requeued_refl|done]. Qed.

(** From progress to the screen. *)
Lemma progress_redraw s F s' f : fb_ok s -> progress s F s' -> (forall k, cell_set s k -> F k = f k) ->
  fb_ok s' /\ term s' = term s /\ fb_abs s' = redraw (term s) f (fb_abs s).
Proof.
  intros Hok Hp Hf. destruct (progress_term _ _ _ Hp) as [Et _]. destruct Hp as (Hok' & Hr & HF). split; [done|]. split; [done|].
  rewrite (requeued_abs _ _ Hr). unfold redraw. f_equal. rewrite <- Et. apply redraw_view; [done|].
  intros i Hi. unfold cell_set in *. rewrite Et in Hi. rewrite HF by lia. by apply Hf.
Qed.

Lemma empty_eq s : empty_char s = Ret (blank (fb_abs s)) s.
Proof. done. Qed.
Lemma blank_ok s : char_ok (blank (fb_abs s)).
Proof. by split. Qed.

Local Abbreviation acts := (acts fb_ok fb_abs).

Lemma acts_wp c s f : wp (c s) (fun _ s' => fb_ok s' /\ term s' = term s /\ fb_abs s' = f (fb_abs s)) -> acts c s f.
Proof. intros Hw. apply wp_ret_inv in Hw as ([] & s' & E & H). by exists s'. Qed.

Lemma margins_cells s : fb_ok s -> margins_ok (term s) ->
  let C := cols (term s) in let top := scroll_top_margin (term s) in let bot := scroll_bottom_margin (term s) in
  0 <= top * C /\ (top + 1) * C = top * C + C /\ (bot - 1) * C = bot * C - C /\ top * C + 2 * C <= bot * C /\ bot * C <= rows (term s) * C /\ 1 <= C /\
  rows (term s) * C < 2 ^ 62 /\ 0 <= top /\ 1 <= bot.
Proof. intros Hok (H1 & H2 & H3). destruct (cells_bound s Hok) as [Hb _]. destruct (fo_size _ Hok) as [_ Hc]. cbn zeta. nia. Qed.

Lemma fb_scroll s : fb_ok s -> margins_ok (term s) -> acts fbterm_scroll s (scroll_up (term s)).
Proof.
  intros Hok Hm. apply acts_wp. unfold fbterm_scroll. rewrite bind_trm. cbv zeta.
  destruct (margins_cells s Hok Hm) as (M0 & M1 & M2 & M3 & M4 & M5 & M6 & M7 & M8). cbn zeta in *.
  set (C := cols (term s)) in *. set (top := scroll_top_margin (term s)) in *. set (bot := scroll_bottom_margin (term s)) in *.
  rewrite (wrap_small 64 (bot - 1)) by lia. rewrite !wrap_small by lia. apply wp_bind.
  set (F := fun j k => if (top * C <=? k) && (k <? j - C) then vw s (k + C) else vw s k).
  eapply wp_mono; [apply (wp_for_range (fun j s1 => progress s (F j) s1)); [lia| |]|].
  - eapply progress_weaken; [by apply progress_refl|]. intros k Hk. unfold F. zbool.
  - intros j s1 Hj Hp. destruct (progress_cell s (F j) s1 j Hp) as (c & E & Hc & Ec); [unfold cell_set; lia|].
    rewrite (bind_Ret _ _ _ _ _ E), wrap_small by lia. eapply wp_mono; [apply (progress_push s _ s1 c _ Hp Hc); unfold cell_set; lia|].
    intros [] s2 H2. eapply progress_weaken; [exact H2|]. intros k Hk. cbn beta. rewrite Ec. unfold F.
    destruct (Z.eqb_spec (j - C) k) as [<-|Hne]; [replace (j - C + C) with j by lia; zbool|zbool].
  - intros [] s1 Hp. destruct (progress_term _ _ _ Hp) as (Et & Ef & Eb). rewrite (bind_Ret _ _ _ _ _ (empty_eq s1)).
    assert (Hbl : blank (fb_abs s1) = blank (fb_abs s)) by (unfold blank, glyph_of; cbn; by rewrite Ef, Eb). rewrite Hbl.
    eapply wp_mono; [apply (fill_spec s _ s1 _ _ _ Hp (blank_ok s)); fold C; lia|]. intros [] s2 Hp2.
    apply (progress_redraw s _ s2 _ Hok Hp2). intros k Hk. unfold cell_set in Hk. cbn beta. unfold F. fold C in Hk |- *. fold bot top.
    unfold vw. zbool.
Qed.

Lemma fb_revscroll s : fb_ok s -> margins_ok (term s) -> acts fbterm_revscroll s (scroll_down (term s)).
Proof.
  intros Hok Hm. apply acts_wp. unfold fbterm_revscroll. rewrite bind_trm. cbv zeta.
  destruct (margins_cells s Hok Hm) as (M0 & M1 & M2 & M3 & M4 & M5 & M6 & M7 & M8). cbn zeta in *.
  set (C := cols (term s)) in *. set (top := scroll_top_margin (term s)) in *. set (bot := scroll_bottom_margin (term s)) in *.
  rewrite (wrap_small 64 (bot - 1)) by lia. rewrite !wrap_small by (rewrite ?wrap_small; lia). apply wp_bind.
  set (F := fun j k => if (j + C <? k) && (k <? bot * C) then vw s (k - C) else vw s k).
  eapply wp_mono; [apply (wp_down_to (fun j s1 => progress s (F j) s1)); [lia|lia|lia| |]|].
  - eapply progress_weaken; [by apply progress_refl|]. intros k Hk. unfold F. zbool.
  - intros j s1 Hj Hp. destruct (progress_cell s (F j) s1 j Hp) as (c & E & Hc & Ec); [unfold cell_set; lia|].
    rewrite (bind_Ret _ _ _ _ _ E), wrap_small by lia. eapply wp_mono; [apply (progress_push s _ s1 c _ Hp Hc); unfold cell_set; lia|].
    intros [] s2 H2. eapply progress_weaken; [exact H2|]. intros k Hk. cbn beta. rewrite Ec. unfold F.
    destruct (Z.eqb_spec (j + C) k) as [<-|Hne]; [replace (j + C - C) with j by lia; zbool|zbool].
  - intros [] s1 Hp. destruct (progress_term _ _ _ Hp) as (Et & Ef & Eb). rewrite (bind_Ret _ _ _ _ _ (empty_eq s1)).
    assert (Hbl : blank (fb_abs s1) = blank (fb_abs s)) by (unfold blank, glyph_of; cbn; by rewrite Ef, Eb). rewrite Hbl.
    eapply wp_mono; [apply (fill_spec s _ s1 _ _ _ Hp (blank_ok s)); fold C; lia|]. intros [] s2 Hp2.
    apply (progress_redraw s _ s2 _ Hok Hp2). intros k Hk. unfold cell_set in Hk. cbn beta. unfold F. fold C in Hk |- *. fold bot top.
    unfold vw. zbool.
Qed.

Lemma fb_clear move s : fb_ok s -> acts (fbterm_clear move) s (erase (term s) move).
Proof.
  intros Hok. apply acts_wp. unfold fbterm_clear. rewrite bind_trm. cbv zeta. rewrite (bind_Ret _ _ _ _ _ (empty_eq s)).
  destruct (cells_bound s Hok) as [Hb _]. rewrite wrap_small by lia. apply wp_bind.
  eapply wp_mono; [apply (fill_spec s _ s _ _ _ (progress_refl s Hok) (blank_ok s)); lia|]. intros [] s1 Hp.
  destruct (progress_redraw s _ s1 (fun _ => blank (fb_abs s)) Hok Hp) as (Hok1 & Et & Ea).
  { intros k Hk. unfold cell_set in Hk. cbn beta. zbool. }
  destruct move; cbn [when]; unfold erase.
  - cbn. split; [destruct Hok1; by split|]. split; [done|]. rewrite <- Ea. reflexivity.
  - cbn. by rewrite <- Ea.
Qed.

Lemma cell_at_cell i s : fb_ok s -> cell_set s i -> exists c, cell_at i s = Ret c s /\ char_ok c /\ c = cell (fb_abs s) i.
Proof.
  intros Hok Hi. destruct (progress_cell s (vw s) s i (progress_refl s Hok) Hi) as (c & E & Hc & Ec). by exists c.
Qed.

Lemma push_acts c x y s : fb_ok s -> 0 <= x -> 0 <= y -> char_ok c -> acts (push_to_queue c x y) s (put_cell (term s) c x y).
Proof.
  intros Hok Hx Hy Hc. destruct (push_spec c x y s Hok Hx Hy Hc) as (s' & E & Hok' & Hr & Hv). exists s'. split; [done|]. split; [done|].
  destruct (requeued_term _ _ Hr) as [Et _]. split; [done|]. rewrite (requeued_abs _ _ Hr), Hv. unfold put_cell.
  destruct (_ && _); [done|]. by destruct s.
Qed.

Lemma fb_move nx ny ox oy s : fb_ok s -> 0 <= nx -> 0 <= ny -> 0 <= ox -> 0 <= oy ->
  acts (fbterm_move_character nx ny ox oy) s (copy_cell (term s) nx ny ox oy).
Proof.
  intros Hok Hnx Hny Hox Hoy. unfold fbterm_move_character, acts, copy_cell. rewrite bind_trm. cbv zeta.
  rewrite !Z.leb_antisym, <- !negb_andb. destruct (_ && _ && _ && _) eqn:E; cbn [negb]; [|by exists s].
  rewrite !andb_true_iff, !Z.ltb_lt in E. destruct (cell_at_cell (ox + oy * cols (term s)) s Hok) as (c & Ec & Hc & ->); [unfold cell_set; nia|].
  rewrite (bind_Ret _ _ _ _ _ Ec). by apply push_acts.
Qed.

(** Moving the cursor of a well-formed state. *)
Lemma cursor_ok x y s : fb_ok s -> word x -> word y -> fb_ok (set_cursor x y s).
Proof. intros [] Hx Hy. by split. Qed.
Lemma text_ok f b s : fb_ok s -> fb_ok (set_text f b s).
Proof. intros []. by split. Qed.

Lemma clamp_range v limit : 0 <= v -> 1 <= limit < 2 ^ 31 -> 0 <= clamp v limit < limit.
Proof. intros Hv Hl. unfold clamp. destruct (Z.leb_spec limit v); [|lia]. destruct (i32 v <? 0); [lia|]. rewrite wrap_small by lia. lia. Qed.

Lemma fb_set x y s : fb_ok s -> 0 <= x < 2 ^ 64 -> 0 <= y < 2 ^ 64 -> acts (fbterm_set_cursor_pos x y) s (clamped (term s) x y).
Proof.
  intros Hok Hx Hy. eexists. split; [reflexivity|]. split; [|done]. destruct (fo_size _ Hok) as [Hr Hc].
  pose proof (clamp_range x (cols (term s))). pose proof (clamp_range y (rows (term s))).
  apply cursor_ok; [done|unfold word; lia|unfold word; lia].
Qed.

Lemma fb_putchar c s : fb_ok s -> margins_ok (term s) -> 0 <= c < 256 -> acts (fbterm_raw_putchar c) s (type_char (term s) c).
Proof.
  intros Hok Hm Hc. destruct (fo_cursor _ Hok) as [Hx Hy]. unfold fbterm_raw_putchar, acts, type_char. rewrite bind_get, bind_modify.
  set (s0 := set_cursor _ _ s). assert (Hok0 : fb_ok s0) by (by apply cursor_ok; [|apply wrap_range|]).
  destruct (push_acts (FbChar c (text_fg s) (text_bg s)) (cursor_x s) (cursor_y s) s0 Hok0) as (s1 & E1 & Hok1 & Et1 & Ea1); [apply Hx|apply Hy|done|].
  rewrite (bind_Ret _ _ _ _ _ E1), bind_get. cbn zeta.
  change (put_cell (term s) (glyph_of (fb_abs s) c) (cx (fb_abs s)) (cy (fb_abs s)) (move_to (u64 (cx (fb_abs s) + 1)) (cy (fb_abs s)) (fb_abs s)))
    with (put_cell (term s0) (FbChar c (text_fg s) (text_bg s)) (cursor_x s) (cursor_y s) (fb_abs s0)). rewrite <- Ea1.
  change (cx (fb_abs s1)) with (cursor_x s1). change (cy (fb_abs s1)) with (cursor_y s1). change (term s1 = term s) in Et1. rewrite Et1.
  destruct (fo_cursor _ Hok1) as [Hx1 Hy1].
  set (b := (cursor_x s1 =? cols (term s)) && _). set (s2 := if b then set_cursor 0 (u64 (cursor_y s1 + 1)) s1 else s1).
  assert (H2 : fb_ok s2 /\ term s2 = term s /\ fb_abs s2 = if b then move_to 0 (u64 (cursor_y s1 + 1)) (fb_abs s1) else fb_abs s1).
  { unfold s2. destruct b; [|done]. split; [|done]. apply cursor_ok; [done|unfold word; lia|by apply wrap_range]. }
  destruct H2 as (Hok2 & Et2 & Ea2). rewrite (bind_Ret _ _ _ tt s2) by (unfold s2; by destruct b). rewrite bind_get, Et2, <- Ea2.
  change (cy (fb_abs s2)) with (cursor_y s2). destruct (cursor_y s2 =? _); cbn [when]; [|by exists s2].
  rewrite bind_modify. set (s3 := set_cursor _ _ s2). destruct (fo_cursor _ Hok2) as [Hx2 Hy2].
  assert (Hok3 : fb_ok s3) by (by apply cursor_ok; [| |apply wrap_range]). assert (Et3 : term s3 = term s) by (rewrite <- Et2; done).
  destruct (fb_scroll s3 Hok3 ltac:(by rewrite Et3)) as (s4 & E4 & Hok4 & Et4 & Ea4). change (term s4 = term s3) in Et4. rewrite Et3 in Ea4, Et4. by exists s4.
Qed.

Lemma fb_tctx t s : fb_ok s -> same_size t (term s) -> fb_ok (set_term t s) /\ fb_abs (set_term t s) = fb_abs s.
Proof.
  intros [Hs Hq Hf Hc Hsv Ho] [Er Ec]. split; [|done].
  split; cbn; unfold size_ok; rewrite ?Er, ?Ec; try done. destruct Hf. split; cbn; rewrite ?Er, ?Ec; done.
Qed.

Lemma fb_fg (l : fbterm_context -> list Z) v s : fb_ok s -> length (l s) = 8%nat -> 0 <= v < 8 ->
  exists f, acts (let! c := array_get l v in modify (fun s => set_text c (text_bg s) s)) s (fun a => recolour (f, (colours a).2) a).
Proof.
  intros Hok Hl Hv. destruct (lookup_lt_is_Some_2 (l s) (Z.to_nat v) ltac:(lia)) as [f Hf]. exists f.
  eexists. split; [by rewrite (bind_Ret _ _ _ _ _ (array_get_eq l v f s ltac:(lia) Hf))|]. split; [by apply text_ok|done].
Qed.
Lemma fb_bg (l : fbterm_context -> list Z) v s : fb_ok s -> length (l s) = 8%nat -> 0 <= v < 8 ->
  exists b, acts (let! c := array_get l v in modify (fun s => set_text (text_fg s) c s)) s (fun a => recolour ((colours a).1, b) a).
Proof.
  intros Hok Hl Hv. destruct (lookup_lt_is_Some_2 (l s) (Z.to_nat v) ltac:(lia)) as [b Hb]. exists b.
  eexists. split; [by rewrite (bind_Ret _ _ _ _ _ (array_get_eq l v b s ltac:(lia) Hb))|]. split; [by apply text_ok|done].
Qed.
End state.
End FramebufferSpec.
