(* ===== verification/FbPixels.v ===== *)
(** From cells to pixels: what the plotting routines write to the framebuffer,
    and that a flush leaves the framebuffer showing the screen. *)
From Stdlib Require Import Ascii.
From S2P Require Import Prelude CString Printf Font Term Framebuffer TermScreen FramebufferSpec.

Module FbPixels.
Import FramebufferSpec.

(** * The picture of a cell *)
Section picture.
Variable f : fb_fixed.
Local Abbreviation W := (pitch f / 4).

Definition px (x : Z) : Z := offset_x f + x * glyph_width f.
Definition py (y : Z) : Z := offset_y f + y * glyph_height f.
(** The colour of pixel column [col] of line [line], drawn or not. *)
Definition shade (c : fbterm_char) (d : bool) (col line : Z) : Z :=
  let v := if d then ch_fg c else ch_bg c in
  if v =? TRANSPARENT then default 0 (canvas f !! Z.to_nat (col + line * width f)) else v.
Definition glyph_bit (c : fbterm_char) (k : Z) : bool := default false (font_bool f !! (glyph f c + k)).
(** Which font bit covers pixel [gx], [gy] of a cell. *)
Definition bit_at (gx gy : Z) : Z := gy / font_scale_y f * font_width f + gx / font_scale_x f.

(** The framebuffer shows character [c] at cell [x], [y]. *)
Definition displays (fb : gmap Z Z) (c : fbterm_char) (x y : Z) : Prop :=
  forall gx gy, 0 <= gx < glyph_width f -> 0 <= gy < glyph_height f ->
    fb !! (px x + gx + (py y + gy) * W) = Some (shade c (glyph_bit c (bit_at gx gy)) (px x + gx) (py y + gy)).

(** Pixels as column and line. *)
Lemma pixel_split a l p : 0 <= a < W -> p = a + l * W <-> p mod W = a /\ p / W = l.
Proof.
  intros Ha. split.
  - intros ->. rewrite Z.mod_add, Z.div_add by lia. rewrite Z.mod_small, Z.div_small by lia. lia.
  - intros [<- <-]. rewrite (Z.div_mod p W) at 1 by lia. lia.
Qed.

(** Part [D] of the rectangle of cell [x], [y] has been drawn over [old]; [B] gives
    the font bits, [None] for those that are skipped. *)
Definition drawn (B : Z -> option bool) (c : fbterm_char) (x y : Z) (D : Z -> Z -> bool) (old : gmap Z Z) (p : Z) : option Z :=
  let gx := p mod W - px x in
  let gy := p / W - py y in
  if (0 <=? gx) && (gx <? glyph_width f) && (0 <=? gy) && (gy <? glyph_height f) && D gx gy then
    match B (bit_at gx gy) with Some d => Some (shade c d (px x + gx) (py y + gy)) | None => old !! p end
  else old !! p.
End picture.

Section plot.
Context (s : fbterm_context) (Hok : fixed_ok (fixed s) (term s)).
Local Abbreviation f := (fixed s).
Local Abbreviation W := (pitch f / 4).

(** States of the same terminal with another framebuffer. *)
Definition repainted (P : gmap Z Z -> Prop) (s' : fbterm_context) : Prop := exists fb, s' = set_framebuffer fb s /\ P fb.

Lemma geometry x y : 0 <= x < cols (term s) -> 0 <= y < rows (term s) ->
  0 <= px f x /\ px f x + glyph_width f <= width f /\ 0 <= py f y /\ py f y + glyph_height f <= height f /\
  1 <= glyph_width f /\ 1 <= glyph_height f /\ width f <= W /\ 0 <= height f.
Proof.
  intros Hx Hy. destruct Hok as [Hfont [Hsx Hsy] [Hgw Hgh] [Hox Hoy] Hw Hh Hp _ _ _]. unfold px, py.
  assert (1 <= glyph_width f) by (rewrite Hgw; nia). assert (1 <= glyph_height f) by (rewrite Hgh; nia). nia.
Qed.

Lemma canvas_get col line : 0 <= col < width f -> 0 <= line < height f ->
  exists v, canvas f !! Z.to_nat (col + line * width f) = Some v.
Proof. intros Hc Hl. apply lookup_lt_is_Some_2. pose proof (fx_canvas _ _ Hok). nia. Qed.

(** One pixel. *)
Lemma plot_pixel_eq c d x line gx fb :
  0 <= px f x + gx < width f -> width f <= W -> 0 <= line < height f ->
  plot_pixel c d (px f x) line gx (set_framebuffer fb s)
  = Ret tt (set_framebuffer (<[px f x + gx + line * W := shade f c d (px f x + gx) line]> fb) s).
Proof.
  intros Hc HW Hl. unfold plot_pixel. rewrite bind_gets. set (s1 := set_framebuffer fb s). change (fixed s1) with f.
  destruct (canvas_get _ _ Hc Hl) as [v Hv].
  assert (Hg : array_get (fun s => canvas (fixed s)) (px f x + line * width f + gx) s1 = Ret v s1).
  { apply array_get_eq; [nia|]. cbn. rewrite <- Hv. do 2 f_equal. lia. }
  assert (Hread : forall k, (if k =? TRANSPARENT then array_get (fun s => canvas (fixed s)) (px f x + line * width f + gx) else ret k) s1
    = Ret (if k =? TRANSPARENT then v else k) s1) by (intros k; destruct (k =? TRANSPARENT); done).
  rewrite (bind_Ret _ _ _ _ _ (Hread (ch_bg c))), (bind_Ret _ _ _ _ _ (Hread (ch_fg c))).
  unfold pixel_set. change (fixed s1) with f. rewrite (proj2 (Z.leb_le 0 _)), (proj2 (Z.ltb_lt _ _)) by nia. cbn [andb].
  unfold s1. cbn [framebuffer set_framebuffer]. f_equal. unfold set_framebuffer at 1. cbn. unfold set_framebuffer. f_equal.
  f_equal; [lia|]. unfold shade. destruct d; rewrite Hv; done.
Qed.

Lemma drawn_step B c x y D D' (old fb : gmap Z Z) gx gy d :
  0 <= x < cols (term s) -> 0 <= y < rows (term s) -> 0 <= gx < glyph_width f -> 0 <= gy < glyph_height f ->
  B (bit_at f gx gy) = Some d ->
  (forall gx' gy', D' gx' gy' = D gx' gy' || ((gx' =? gx) && (gy' =? gy))) ->
  (forall p, fb !! p = drawn f B c x y D old p) ->
  forall p, <[px f x + gx + (py f y + gy) * W := shade f c d (px f x + gx) (py f y + gy)]> fb !! p = drawn f B c x y D' old p.
Proof.
  intros Hx Hy Hgx Hgy HB HD Hfb p. destruct (geometry x y Hx Hy) as (G1 & G2 & G3 & G4 & G5 & G6 & G7 & G8).
  rewrite lookup_insert. destruct (decide _) as [Hp|Hp].
  - symmetry in Hp. apply pixel_split in Hp as [Hm Hd]; [|lia]. unfold drawn. rewrite Hm, Hd.
    replace (px f x + gx - px f x) with gx by lia. replace (py f y + gy - py f y) with gy by lia.
    rewrite !(proj2 (Z.leb_le 0 _)), !(proj2 (Z.ltb_lt _ _)), HD, !Z.eqb_refl, orb_true_r by lia. cbn [andb]. by rewrite HB.
  - rewrite Hfb. unfold drawn. set (a := p mod W - px f x). set (l := p / W - py f y).
    destruct ((0 <=? a) && (a <? glyph_width f) && (0 <=? l) && (l <? glyph_height f)) eqn:Er; cbn [andb]; [|done].
    rewrite HD. destruct (Z.eqb_spec a gx) as [Ea|]; [|by rewrite orb_false_r].
    destruct (Z.eqb_spec l gy) as [El|]; [|by rewrite orb_false_r].
    exfalso. apply Hp. symmetry. apply pixel_split; [lia|]. unfold a, l in *. lia.
Qed.

(** The three loops. *)
Lemma plot_glyph_spec B bit c x y fb0 :
  0 <= x < cols (term s) -> 0 <= y < rows (term s) ->
  (forall k fb, 0 <= k < font_height f * font_width f -> bit k (set_framebuffer fb s) = Ret (B k) (set_framebuffer fb s)) ->
  wp (plot_glyph bit c x y (set_framebuffer fb0 s))
    (fun _ s' => repainted (fun fb => forall p, fb !! p = drawn f B c x y (fun _ _ => true) fb0 p) s').
Proof.
  intros Hx Hy Hbit. destruct (geometry x y Hx Hy) as (G1 & G2 & G3 & G4 & G5 & G6 & G7 & G8).
  destruct Hok as [[Hfw Hfh] [Hsx Hsy] [Hgw Hgh] _ _ _ _ _ _ _].
  unfold plot_glyph. rewrite bind_gets. cbn [fixed set_framebuffer]. fold (px f x) (py f y).
  set (I := fun (D : Z -> Z -> bool) s' => repainted (fun fb => forall p, fb !! p = drawn f B c x y D fb0 p) s').
  assert (Hext : forall D D' s', I D s' -> (forall gx gy, 0 <= gx < glyph_width f -> 0 <= gy < glyph_height f -> B (bit_at f gx gy) <> None -> D gx gy = D' gx gy) -> I D' s').
  { intros D D' s' (fb & -> & Hfb) HD. exists fb. split; [done|]. intros p. rewrite Hfb. unfold drawn.
    set (a := p mod W - px f x). set (l := p / W - py f y).
    destruct ((0 <=? a) && (a <? glyph_width f) && (0 <=? l) && (l <? glyph_height f)) eqn:Er; cbn [andb]; [|done].
    rewrite !andb_true_iff, !Z.leb_le, !Z.ltb_lt in Er. destruct (B (bit_at f a l)) eqn:EB; [|by destruct (D a l), (D' a l)].
    rewrite (HD a l) by (congruence || lia). done. }
  eapply wp_mono; [apply (wp_for_range (fun gy => I (fun _ l => l <? gy))); [lia| |]|].
  - exists fb0. split; [done|]. intros p. unfold drawn. set (a := p mod W - px f x). set (l := p / W - py f y).
    destruct (Z.leb_spec 0 l); cbn [andb]; rewrite ?andb_false_r; try done. rewrite (proj2 (Z.ltb_ge l 0)), !andb_false_r by lia. done.
  - intros gy s1 Hgy H1. cbn zeta.
    assert (Hfy : 0 <= gy / font_scale_y f < font_height f) by (split; [apply Z.div_pos; lia|apply Z.div_lt_upper_bound; nia]).
    rewrite (wrap_small 8) by lia. set (fy := gy / font_scale_y f) in *.
    eapply wp_mono; [apply (wp_for_range (fun fx => I (fun a l => (l <? gy) || ((l =? gy) && (a <? font_scale_x f * fx))))); [lia| |]|].
    + eapply Hext; [exact H1|]. intros a l Ha Hl _. cbn beta. rewrite Z.mul_0_r, (proj2 (Z.ltb_ge a 0)), andb_false_r, orb_false_r by lia. done.
    + intros fx s2 Hfx H2. pose proof H2 as (fb2 & Es2 & Hfb2). rewrite Es2.
      rewrite (bind_Ret _ _ _ _ _ (Hbit (fy * font_width f + fx) fb2 ltac:(nia))).
      assert (Hbitk : forall i, 0 <= i < font_scale_x f -> bit_at f (font_scale_x f * fx + i) gy = fy * font_width f + fx).
      { intros i Hi. unfold bit_at. fold fy. f_equal. rewrite Z.mul_comm, Z.div_add_l by lia. rewrite Z.div_small; lia. }
      destruct (B (fy * font_width f + fx)) as [d|] eqn:EB.
      * rewrite <- Es2. eapply wp_mono; [apply (wp_for_range (fun i => I (fun a l => (l <? gy) || ((l =? gy) && (a <? font_scale_x f * fx + i))))); [lia| |]|].
        -- eapply Hext; [exact H2|]. intros a l _ _ _. cbn beta. by rewrite Z.add_0_r.
        -- intros i s3 Hi (fb3 & -> & Hfb3). assert (0 <= font_scale_x f * fx + i < glyph_width f) by nia.
           rewrite plot_pixel_eq by lia. eexists. split; [reflexivity|].
           eapply drawn_step; [done|done|lia|lia|by rewrite Hbitk| |exact Hfb3].
           intros a l. cbn beta. destruct (Z.ltb_spec l gy), (Z.eqb_spec l gy), (Z.ltb_spec a (font_scale_x f * fx + i)),
             (Z.ltb_spec a (font_scale_x f * fx + (i + 1))), (Z.eqb_spec a (font_scale_x f * fx + i)); cbn [andb orb]; try done; lia.
        -- intros [] s3 H3. eapply Hext; [exact H3|]. intros a l _ _ _. cbn beta. by replace (font_scale_x f * (fx + 1)) with (font_scale_x f * fx + font_scale_x f) by lia.
      * rewrite <- Es2. cbn. eapply Hext; [exact H2|]. intros a l Ha Hl HBn. cbn beta.
        destruct (Z.eqb_spec l gy) as [->|]; [|done]. cbn [andb]. f_equal.
        destruct (Z.ltb_spec a (font_scale_x f * fx)), (Z.ltb_spec a (font_scale_x f * (fx + 1))); try done; [lia|].
        exfalso. apply HBn. replace a with (font_scale_x f * fx + (a - font_scale_x f * fx)) by lia. rewrite Hbitk by lia. done.
    + intros [] s2 H2. eapply Hext; [exact H2|]. intros a l Ha Hl _. cbn beta. rewrite (proj2 (Z.ltb_lt a _)) by nia. rewrite andb_true_r.
      destruct (Z.ltb_spec l gy), (Z.eqb_spec l gy), (Z.ltb_spec l (gy + 1)); cbn; lia || done.
  - intros [] s1 H1. eapply Hext; [exact H1|]. intros a l _ Hl _. cbn beta. by rewrite (proj2 (Z.ltb_lt l _)) by lia.
Qed.

Lemma font_bit_eq c k fb : char_ok c -> 0 <= k < font_height f * font_width f ->
  font_bit (glyph f c + k) (set_framebuffer fb s) = Ret (glyph_bit f c k) (set_framebuffer fb s).
Proof.
  intros [Hc1 Hc2] Hk. unfold font_bit, glyph_bit. cbn [fixed set_framebuffer]. rewrite (fx_bits _ _ Hok). unfold glyph.
  destruct (fx_font _ _ Hok) as [Hw Hh]. rewrite (proj2 (Z.leb_le 0 _)), (proj2 (Z.ltb_lt _ _)); [done| |]; nia.
Qed.

(** The cells that a plot at [x], [y] leaves alone. *)
Definition others (x y : Z) (fb0 fb : gmap Z Z) : Prop :=
  forall c x' y', 0 <= x' < cols (term s) -> 0 <= y' < rows (term s) -> (x', y') <> (x, y) -> displays f fb0 c x' y' -> displays f fb c x' y'.

Lemma drawn_pixel B c x y D fb0 gx gy : 0 <= x < cols (term s) -> 0 <= y < rows (term s) -> 0 <= gx < glyph_width f -> 0 <= gy < glyph_height f ->
  drawn f B c x y D fb0 (px f x + gx + (py f y + gy) * W)
  = if D gx gy then match B (bit_at f gx gy) with Some d => Some (shade f c d (px f x + gx) (py f y + gy)) | None => fb0 !! (px f x + gx + (py f y + gy) * W) end
    else fb0 !! (px f x + gx + (py f y + gy) * W).
Proof.
  intros Hx Hy Hgx Hgy. destruct (geometry x y Hx Hy) as (G1 & G2 & G3 & G4 & G5 & G6 & G7 & G8).
  destruct (proj1 (pixel_split f (px f x + gx) (py f y + gy) _ ltac:(lia)) eq_refl) as [Em Ed]. unfold drawn. rewrite Em, Ed.
  replace (px f x + gx - px f x) with gx by lia. replace (py f y + gy - py f y) with gy by lia.
  by rewrite !(proj2 (Z.leb_le 0 _)), !(proj2 (Z.ltb_lt _ _)) by lia.
Qed.

Lemma drawn_others B c x y D fb0 fb : 0 <= x < cols (term s) -> 0 <= y < rows (term s) -> (forall p, fb !! p = drawn f B c x y D fb0 p) -> others x y fb0 fb.
Proof.
  intros Hx Hy Hfb c' x' y' Hx' Hy' Hne Hd gx gy Hgx Hgy. rewrite Hfb. rewrite <- (Hd gx gy Hgx Hgy).
  destruct (geometry x y Hx Hy) as (G1 & G2 & G3 & G4 & G5 & G6 & G7 & G8). destruct (geometry x' y' Hx' Hy') as (F1 & F2 & F3 & F4 & _).
  destruct (proj1 (pixel_split f (px f x' + gx) (py f y' + gy) _ ltac:(lia)) eq_refl) as [Em Ed]. unfold drawn. rewrite Em, Ed.
  destruct ((0 <=? _) && _ && _ && _) eqn:Er; cbn [andb]; [|done]. exfalso. rewrite !andb_true_iff, !Z.leb_le, !Z.ltb_lt in Er.
  unfold px, py in Er. apply Hne. f_equal; nia.
Qed.

Lemma plot_char_spec c x y fb0 : 0 <= x < cols (term s) -> 0 <= y < rows (term s) -> char_ok c ->
  exists fb, plot_char c x y (set_framebuffer fb0 s) = Ret tt (set_framebuffer fb s) /\ displays f fb c x y /\ others x y fb0 fb.
Proof.
  intros Hx Hy Hc. unfold plot_char. rewrite bind_get. cbn [term fixed set_framebuffer].
  rewrite (proj2 (Z.leb_gt _ x)), (proj2 (Z.leb_gt _ y)) by lia. cbn [orb].
  pose proof (plot_glyph_spec (fun k => Some (glyph_bit f c k)) (fun k => let! d := font_bit (glyph f c + k) in ret (Some d)) c x y fb0 Hx Hy) as Hw.
  apply wp_ret_inv in Hw as ([] & s' & E & fb & -> & Hfb).
  2:{ intros k fb Hk. rewrite (bind_Ret _ _ _ _ _ (font_bit_eq c k fb Hc Hk)). done. }
  exists fb. split; [exact E|]. split; [|by eapply drawn_others]. intros gx gy Hgx Hgy. by rewrite Hfb, drawn_pixel.
Qed.

(** Over a cell that shows [old] in the same colours, the fast routine draws what
    the plain one does. *)
Lemma plot_char_fast_spec old c x y fb0 : 0 <= x < cols (term s) -> 0 <= y < rows (term s) -> char_ok old -> char_ok c ->
  ch_fg c = ch_fg old -> ch_bg c = ch_bg old ->
  exists fb, plot_char_fast old c x y (set_framebuffer fb0 s) = Ret tt (set_framebuffer fb s) /\
    (displays f fb0 old x y -> displays f fb c x y) /\ others x y fb0 fb.
Proof.
  intros Hx Hy Ho Hc Ef Eb. unfold plot_char_fast. rewrite bind_get. cbn [term fixed set_framebuffer].
  rewrite (proj2 (Z.leb_gt _ x)), (proj2 (Z.leb_gt _ y)) by lia. cbn [orb].
  set (B := fun k => if Bool.eqb (glyph_bit f old k) (glyph_bit f c k) then None else Some (glyph_bit f c k)).
  pose proof (plot_glyph_spec B (fun k => let! o := font_bit (glyph f old + k) in let! d := font_bit (glyph f c + k) in
    ret (if Bool.eqb o d then None else Some d)) c x y fb0 Hx Hy) as Hw.
  apply wp_ret_inv in Hw as ([] & s' & E & fb & -> & Hfb).
  2:{ intros k fb Hk. rewrite (bind_Ret _ _ _ _ _ (font_bit_eq old k fb Ho Hk)), (bind_Ret _ _ _ _ _ (font_bit_eq c k fb Hc Hk)). done. }
  exists fb. split; [exact E|]. split; [|by eapply drawn_others]. intros Hd gx gy Hgx Hgy. rewrite Hfb, drawn_pixel by done. unfold B.
  destruct (Bool.eqb _ _) eqn:Eq; [|done]. apply Bool.eqb_prop in Eq. rewrite (Hd gx gy Hgx Hgy), Eq. unfold shade. by rewrite Ef, Eb.
Qed.
End plot.

(** * Flushing *)
Lemma coords C x y : 0 <= x < C -> (x + y * C) mod C = x /\ (x + y * C) / C = y.
Proof. intros Hx. rewrite Z.mod_add, Z.div_add by lia. rewrite Z.mod_small, Z.div_small by lia. lia. Qed.

Lemma rebuild s : set_framebuffer (framebuffer s) (set_grid (grid s) (set_fbmap (fbmap s) s)) = s.
Proof. by destruct s. Qed.

Section flush.
Context (s : fbterm_context) (Hok : fb_ok s).
Local Abbreviation f := (fixed s).
Local Abbreviation C := (cols (term s)).
Local Abbreviation R := (rows (term s)).
Definition cursor_cell : Z := cursor_x s + cursor_y s * C.
Definition old_cell : Z := old_cursor_x s + old_cursor_y s * C.
(** The framebuffer shows cell [i] as [c]. *)
Definition shows (fb : gmap Z Z) (i : Z) (c : fbterm_char) : Prop := displays f fb c (i mod C) (i / C).
(** Every cell of the grid is on the framebuffer, but for the one the cursor was
    drawn on. *)
Definition painted : Prop := forall i c, cell_set s i -> i <> old_cell -> grid s !! Z.to_nat i = Some c -> shows (framebuffer s) i c.

Hypothesis Hcur : 0 <= cursor_x s < C /\ 0 <= cursor_y s < R.

Lemma cells_of_xy x y : 0 <= x < C -> 0 <= y < R -> cell_set s (x + y * C) /\ (x + y * C) mod C = x /\ (x + y * C) / C = y.
Proof. intros Hx Hy. destruct (coords C x y Hx) as [-> ->]. unfold cell_set. nia. Qed.

Lemma cell_xy i : cell_set s i -> 0 <= i mod C < C /\ 0 <= i / C < R /\ i = i mod C + i / C * C.
Proof.
  unfold cell_set. intros Hi. destruct (fo_size _ Hok) as [_ HC].
  split; [apply Z.mod_pos_bound; lia|]. split; [split; [apply Z.div_pos; lia|apply Z.div_lt_upper_bound; nia]|].
  rewrite (Z.div_mod i C) at 1 by lia. lia.
Qed.

(** The state with other pixels, grid and map. *)
Definition with_ (fb : gmap Z Z) (g : list fbterm_char) (m : list qptr) : fbterm_context := set_framebuffer fb (set_grid g (set_fbmap m s)).

Lemma with_self : with_ (framebuffer s) (grid s) (fbmap s) = s.
Proof. apply rebuild. Qed.

(** Plotting cell [i]. *)
Lemma plot_cell fb g m i c x y : cell_set s i -> x = i mod C -> y = i / C -> char_ok c ->
  exists fb', plot_char c x y (with_ fb g m) = Ret tt (with_ fb' g m) /\ shows fb' i c /\
    forall j c', cell_set s j -> j <> i -> shows fb j c' -> shows fb' j c'.
Proof.
  intros Hi -> -> Hc. destruct (cell_xy i Hi) as (Hx & Hy & Ei).
  destruct (plot_char_spec (set_grid g (set_fbmap m s)) (fo_fixed _ Hok) c _ _ fb Hx Hy Hc) as (fb' & E & Hd & Ho).
  exists fb'. split; [exact E|]. split; [exact Hd|]. intros j c' Hj Hne Hs. destruct (cell_xy j Hj) as (Hx' & Hy' & Ej).
  apply (Ho c' (j mod C) (j / C) Hx' Hy'); [|exact Hs]. intros [= E1 E2]. apply Hne. rewrite Ej, Ei. congruence.
Qed.
Lemma plot_cell_fast fb g m i old c x y : cell_set s i -> x = i mod C -> y = i / C -> char_ok old -> char_ok c -> ch_fg c = ch_fg old -> ch_bg c = ch_bg old ->
  exists fb', plot_char_fast old c x y (with_ fb g m) = Ret tt (with_ fb' g m) /\ (shows fb i old -> shows fb' i c) /\
    forall j c', cell_set s j -> j <> i -> shows fb j c' -> shows fb' j c'.
Proof.
  intros Hi -> -> Hco Hc Ef Eb. destruct (cell_xy i Hi) as (Hx & Hy & Ei).
  destruct (plot_char_fast_spec (set_grid g (set_fbmap m s)) (fo_fixed _ Hok) old c _ _ fb Hx Hy Hco Hc Ef Eb) as (fb' & E & Hd & Ho).
  exists fb'. split; [exact E|]. split; [exact Hd|]. intros j c' Hj Hne Hs. destruct (cell_xy j Hj) as (Hx' & Hy' & Ej).
  apply (Ho c' (j mod C) (j / C) Hx' Hy'); [|exact Hs]. intros [= E1 E2]. apply Hne. rewrite Ej, Ei. congruence.
Qed.

(** Where a flush stands after [j] items. *)
Record flushed (j : Z) (fb : gmap Z Z) (g : list fbterm_char) (m : list qptr) : Prop := {
  fl_grid : length g = length (grid s);
  fl_map : length m = length (fbmap s);
  fl_chars : Forall char_ok g;
  fl_cell i : cell_set s i ->
    (m !! Z.to_nat i = Some QNull /\ g !! Z.to_nat i = view s !! Z.to_nat i) \/
    (exists k, m !! Z.to_nat i = Some (QSlot k) /\ fbmap s !! Z.to_nat i = Some (QSlot k) /\ j <= k /\ g !! Z.to_nat i = grid s !! Z.to_nat i);
  fl_cursor : cursor_status s = true -> m !! Z.to_nat cursor_cell = Some QNull /\ shows fb cursor_cell (inverted (vw s cursor_cell));
  fl_shows : painted -> forall i c, cell_set s i -> i <> old_cell -> (cursor_status s = true -> i <> cursor_cell) ->
    g !! Z.to_nat i = Some c -> shows fb i c;
}.

Lemma grid_char i c : grid s !! i = Some c -> char_ok c.
Proof. intros H. eapply Forall_lookup_1; [apply (ok_chars _ _ _ _ _ _ (fo_queue _ Hok))|done]. Qed.

Lemma view_null_or i : cell_set s i -> (fbmap s !! Z.to_nat i = Some QNull /\ grid s !! Z.to_nat i = view s !! Z.to_nat i) \/
  exists k, fbmap s !! Z.to_nat i = Some (QSlot k) /\ 0 <= k.
Proof.
  intros Hi. destruct (map_get _ _ (fo_queue _ Hok) i Hi) as [Hm|[k Hm]].
  - left. split; [done|]. destruct (grid_get _ _ (fo_queue _ Hok) i Hi) as (c & Hg & _). rewrite Hg. symmetry. by apply view_null.
  - right. exists k. split; [done|]. by destruct (ok_slot _ _ _ _ _ _ (fo_queue _ Hok) _ _ Hm) as [[? _] _].
Qed.

Lemma cursor_is_cell : cell_set s cursor_cell /\ cursor_cell mod C = cursor_x s /\ cursor_cell / C = cursor_y s.
Proof. destruct Hcur. by apply cells_of_xy. Qed.

Lemma set_cell i c p fb g m : cell_set s i -> length g = length (grid s) -> length m = length (fbmap s) ->
  bind (grid_set i c) (fun _ => map_set i p) (with_ fb g m) = Ret tt (with_ fb (<[Z.to_nat i := c]> g) (<[Z.to_nat i := p]> m)).
Proof.
  intros Hi Hg Hm. unfold cell_set in Hi. pose proof (ok_grid _ _ _ _ _ _ (fo_queue _ Hok)). pose proof (ok_map _ _ _ _ _ _ (fo_queue _ Hok)).
  unfold grid_set, map_set, bind. cbn [with_ set_framebuffer set_grid grid]. rewrite in_array_eq by lia.
  cbn [with_ set_framebuffer set_grid set_fbmap fbmap]. rewrite in_array_eq by lia. done.
Qed.

(** The cursor cell is drawn and, if it was queued, committed. *)
Lemma draw_cursor_spec : cursor_status s = true ->
  exists fb g m, draw_cursor s = Ret tt (with_ fb g m) /\ flushed 0 fb g m.
Proof.
  intros Hst. destruct cursor_is_cell as (Hcell & Ex & Ey). unfold draw_cursor. rewrite bind_get. cbv zeta. fold cursor_cell.
  destruct (cell_at_spec cursor_cell s Hok Hcell) as (c & Ec & Hcc & Hv).
  assert (Hvw : vw s cursor_cell = c) by (by apply vw_lookup). pose proof (fo_queue _ Hok) as Hq.
  destruct (plot_cell (framebuffer s) (grid s) (fbmap s) cursor_cell (inverted c) _ _ Hcell (eq_sym Ex) (eq_sym Ey) Hcc) as (fb & Ep & Hd & Ho).
  rewrite with_self in Ep. unfold cell_set in Hcell.
  assert (Hsh : painted -> forall i c', cell_set s i -> i <> old_cell -> i <> cursor_cell -> grid s !! Z.to_nat i = Some c' -> shows fb i c').
  { intros Hp i c' Hi Hne Hne' Hg. apply Ho; [done|done|]. by apply Hp. }
  destruct (map_get _ _ Hq cursor_cell Hcell) as [Hm|[k Hm]]; rewrite (bind_Ret _ _ _ _ _ (array_get_eq fbmap cursor_cell _ s ltac:(lia) Hm)),
    (bind_Ret _ _ _ _ _ Ec), (bind_Ret _ _ _ _ _ Ep).
  - exists fb, (grid s), (fbmap s). split; [done|]. split; try done.
    + apply (ok_chars _ _ _ _ _ _ Hq).
    + intros i Hi. destruct (view_null_or i Hi) as [?|(k & ? & ?)]; [by left|]. right. by exists k.
    + intros _. rewrite Hvw. by split.
    + intros Hp i c' Hi Hne Hne'. apply Hsh; [done..|]. by apply Hne'.
  - pose proof (ok_grid _ _ _ _ _ _ Hq). pose proof (ok_map _ _ _ _ _ _ Hq).
    exists fb, (<[Z.to_nat cursor_cell := c]> (grid s)), (<[Z.to_nat cursor_cell := QNull]> (fbmap s)).
    split; [by apply set_cell|]. split.
    + by rewrite length_insert.
    + by rewrite length_insert.
    + apply Forall_insert; [apply (ok_chars _ _ _ _ _ _ Hq)|done].
    + intros i Hi. unfold cell_set in Hi. destruct (decide (i = cursor_cell)) as [->|Hne].
      * left. rewrite !list_lookup_insert_eq by lia. by rewrite Hv.
      * rewrite !list_lookup_insert_ne by lia. destruct (view_null_or i Hi) as [?|(k' & ? & ?)]; [by left|]. right. by exists k'.
    + intros _. rewrite list_lookup_insert_eq by lia. rewrite Hvw. by split.
    + intros Hp i c' Hi Hne Hne'. unfold cell_set in Hi. specialize (Hne' Hst). rewrite list_lookup_insert_ne by lia. by apply Hsh.
Qed.

(** No cell but its own still waits for item [j]. *)
Lemma waiting j i it : cell_set s i -> queue s !! Z.to_nat j = Some it ->
  fbmap s !! Z.to_nat i = Some (QSlot j) -> i = idx C it.
Proof.
  intros Hi Hit Hm. unfold cell_set in Hi. destruct (ok_slot _ _ _ _ _ _ (fo_queue _ Hok) _ _ Hm) as (_ & it' & Hq & _ & Ei).
  rewrite Hit in Hq. injection Hq as <-. lia.
Qed.

Lemma flush_item_spec j fb g m : 0 <= j < queue_i s -> flushed j fb g m ->
  exists fb' g' m', flush_item j (with_ fb g m) = Ret tt (with_ fb' g' m') /\ flushed (j + 1) fb' g' m'.
Proof.
  intros Hj Hf. pose proof (fo_queue _ Hok) as Hq. destruct (ok_back _ _ _ _ _ _ Hq j Hj) as (it & Hit & Hmap).
  assert (Hio : item_ok R C it /\ cell_set s (idx C it)).
  { destruct (ok_slot _ _ _ _ _ _ Hq _ _ Hmap) as (_ & it' & Hq' & Hio & _). rewrite Hit in Hq'. injection Hq' as <-. split; [done|]. by apply idx_range. }
  destruct Hio as [Hio Hcell]. pose proof Hio as ((Hx0 & Hx1) & (Hy0 & Hy1) & Hcc).
  unfold flush_item. rewrite (bind_Ret _ _ _ _ _ (array_get_eq queue j it (with_ fb g m) ltac:(lia) Hit)), bind_trm. cbv zeta.
  change (cols (term (with_ fb g m))) with C. fold (idx C it). set (o := idx C it) in *.
  assert (Exy : o mod C = q_x it /\ o / C = q_y it) by (unfold o, idx; rewrite Z.add_comm; by apply coords). destruct Exy as [Ex Ey].
  unfold cell_set in Hcell. pose proof (ok_grid _ _ _ _ _ _ Hq) as Hgl. pose proof (ok_map _ _ _ _ _ _ Hq) as Hml.
  destruct (fl_cell _ _ _ _ Hf o Hcell) as [[Hm Hg]|(k & Hm & Hm' & Hk & Hg)];
    rewrite (bind_Ret _ _ _ _ _ (array_get_eq fbmap o _ (with_ fb g m) ltac:(lia) Hm)).
  - exists fb, g, m. split; [done|]. destruct Hf as [H1 H2 H3 H4 H5 H6]. split; try done.
    intros i Hi. destruct (H4 i Hi) as [?|(k & Hmi & Hmi' & Hk & Hgi)]; [by left|]. right. exists k. split_and!; try done.
    destruct (decide (k = j)) as [->|]; [|lia]. pose proof (waiting j i it Hi Hit Hmi') as ->. fold o in Hmi. congruence.
  - assert (k = j) as -> by congruence. destruct (grid_get _ _ Hq o Hcell) as (old & Hold & Hoc). rewrite Hold in Hg.
    rewrite (bind_Ret _ _ _ _ _ (array_get_eq grid o old (with_ fb g m) ltac:(lia) Hg)).
    assert (Hplot : exists fb', (if (ch_bg (q_c it) =? ch_bg old) && (ch_fg (q_c it) =? ch_fg old)
        then plot_char_fast old (q_c it) (q_x it) (q_y it) else plot_char (q_c it) (q_x it) (q_y it)) (with_ fb g m) = Ret tt (with_ fb' g m) /\
        (shows fb o old -> shows fb' o (q_c it)) /\ forall j c', cell_set s j -> j <> o -> shows fb j c' -> shows fb' j c').
    { destruct ((ch_bg (q_c it) =? ch_bg old) && (ch_fg (q_c it) =? ch_fg old)) eqn:Ecol.
      - rewrite andb_true_iff, !Z.eqb_eq in Ecol. destruct Ecol. by apply plot_cell_fast.
      - destruct (plot_cell fb g m o (q_c it) _ _ Hcell (eq_sym Ex) (eq_sym Ey) Hcc) as (fb' & E & Hd & Ho). exists fb'. by split_and!. }
    destruct Hplot as (fb' & Ep & Hsh & Hoth). rewrite (bind_Ret _ _ _ _ _ Ep).
    destruct Hf as [H1 H2 H3 H4 H5 H6]. rewrite set_cell by done.
    exists fb', (<[Z.to_nat o := q_c it]> g), (<[Z.to_nat o := QNull]> m). split; [done|]. split.
    + by rewrite length_insert.
    + by rewrite length_insert.
    + by apply Forall_insert.
    + intros i Hi. unfold cell_set in Hi. destruct (decide (i = o)) as [->|Hne].
      * left. rewrite !list_lookup_insert_eq by lia. split; [done|]. symmetry. by eapply view_slot.
      * rewrite !list_lookup_insert_ne by lia. destruct (H4 i Hi) as [?|(k & Hmi & Hmi' & Hk' & Hgi)]; [by left|]. right. exists k. split_and!; try done.
        destruct (decide (k = j)) as [->|]; [|lia]. by pose proof (waiting j i it Hi Hit Hmi').
    + intros Hst. destruct (H5 Hst) as [Hmc Hsc]. destruct cursor_is_cell as (Hcc' & _). unfold cell_set in Hcc'.
      assert (Hne : cursor_cell <> o) by (intros E; rewrite E in Hmc; congruence). rewrite list_lookup_insert_ne by lia. split; [done|]. by apply Hoth.
    + intros Hp i c Hi Hne Hnc. unfold cell_set in Hi. destruct (decide (i = o)) as [->|Hno].
      * rewrite list_lookup_insert_eq by lia. intros [= <-]. apply Hsh. by apply (H6 Hp o old).
      * rewrite list_lookup_insert_ne by lia. intros Hgi. apply Hoth; [done|done|]. by apply (H6 Hp).
Qed.

Lemma flushed_start : cursor_status s = false -> flushed 0 (framebuffer s) (grid s) (fbmap s).
Proof.
  intros Hst. pose proof (fo_queue _ Hok) as Hq. split; try done.
  - apply (ok_chars _ _ _ _ _ _ Hq).
  - intros i Hi. destruct (view_null_or i Hi) as [?|(k & ? & ?)]; [by left|]. right. by exists k.
  - by rewrite Hst.
  - intros Hp i c Hi Hne _ Hg. by apply Hp.
Qed.

Lemma flushed_end fb g m : flushed (queue_i s) fb g m -> g = view s /\ forall i, cell_set s i -> m !! Z.to_nat i = Some QNull.
Proof.
  intros Hf. pose proof (fo_queue _ Hok) as Hq. pose proof (ok_grid _ _ _ _ _ _ Hq) as Hgl.
  assert (Hn : forall i, cell_set s i -> m !! Z.to_nat i = Some QNull /\ g !! Z.to_nat i = view s !! Z.to_nat i).
  { intros i Hi. destruct (fl_cell _ _ _ _ Hf i Hi) as [?|(k & _ & Hm & Hk & _)]; [done|].
    destruct (ok_slot _ _ _ _ _ _ Hq _ _ Hm) as [? _]. lia. }
  split; [|intros i Hi; by apply Hn]. pose proof (view_length _ _ Hq) as Hvl. fold (view s) in Hvl. pose proof (fl_grid _ _ _ _ Hf).
  apply list_eq. intros i. destruct (lt_dec i (length g)) as [Hl|Hl].
  - rewrite <- (Nat2Z.id i). apply Hn. unfold cell_set. lia.
  - by rewrite !lookup_ge_None_2 by lia.
Qed.

(** What is on the framebuffer after a flush: every cell of the screen, the
    cursor's cell in exchanged colours if the cursor is visible. *)
Definition shown_at (i : Z) : fbterm_char := if cursor_status s && (i =? cursor_cell) then inverted (vw s i) else vw s i.

Lemma flush_spec : exists s', fbterm_double_buffer_flush s = Ret tt s' /\ fb_ok s' /\ term s' = term s /\ fixed s' = fixed s /\
  fb_abs s' = fb_abs s /\ queue_i s' = 0 /\ (old_cursor_x s' = cursor_x s /\ old_cursor_y s' = cursor_y s) /\
  grid s' = view s /\ (painted -> forall i, cell_set s i -> shows (framebuffer s') i (shown_at i)).
Proof.
  pose proof (fo_queue _ Hok) as Hq. unfold fbterm_double_buffer_flush. rewrite bind_get.
  assert (Hdc : exists fb g m, when (cursor_status s) draw_cursor s = Ret tt (with_ fb g m) /\ flushed 0 fb g m).
  { destruct (cursor_status s) eqn:Hst; [by apply draw_cursor_spec|]. exists (framebuffer s), (grid s), (fbmap s). rewrite with_self. split; [done|]. by apply flushed_start. }
  destruct Hdc as (fb0 & g0 & m0 & E0 & Hf0). rewrite (bind_Ret _ _ _ _ _ E0), bind_gets. change (queue_i (with_ fb0 g0 m0)) with (queue_i s).
  pose proof (ok_n _ _ _ _ _ _ Hq) as Hn0.
  assert (Hloop : wp (for_range 0 (queue_i s) flush_item (with_ fb0 g0 m0)) (fun _ s' => exists fb g m, s' = with_ fb g m /\ flushed (queue_i s) fb g m)).
  { apply (wp_for_range (fun j s' => exists fb g m, s' = with_ fb g m /\ flushed j fb g m)); [done|by exists fb0, g0, m0|].
    intros j s1 Hj (fb & g & m & -> & Hf). destruct (flush_item_spec j fb g m Hj Hf) as (fb' & g' & m' & E & Hf'). rewrite E. cbn. by exists fb', g', m'. }
  apply wp_ret_inv in Hloop as ([] & s1 & E1 & fb & g & m & -> & Hf). rewrite (bind_Ret _ _ _ _ _ E1), bind_get.
  destruct (flushed_end fb g m Hf) as [-> Hnull]. destruct cursor_is_cell as (Hcc & Ecx & Ecy).
  destruct (fo_old _ Hok) as [Hox Hoy]. destruct (cells_of_xy _ _ Hox Hoy) as (Hoc & Eox & Eoy). fold old_cell in Hoc, Eox, Eoy.
  cbn [old_cursor_x old_cursor_y cursor_x cursor_y cursor_status term with_ set_framebuffer set_grid set_fbmap]. fold (with_ fb (view s) m).
  assert (Hvw : forall i, cell_set s i -> view s !! Z.to_nat i = Some (vw s i) /\ char_ok (vw s i)).
  { intros i Hi. destruct (cell_at_spec i s Hok Hi) as (c & _ & Hc & Hv). rewrite (vw_lookup _ _ _ Hv). done. }
  assert (Hnew : exists fb', when (negb (old_cursor_x s =? cursor_x s) || negb (old_cursor_y s =? cursor_y s) || negb (cursor_status s))
      (let! c := array_get grid (old_cursor_x s + old_cursor_y s * C) in plot_char c (old_cursor_x s) (old_cursor_y s)) (with_ fb (view s) m)
      = Ret tt (with_ fb' (view s) m) /\ (painted -> forall i, cell_set s i -> shows fb' i (shown_at i))).
  { assert (Hs : painted -> forall i, cell_set s i -> i <> old_cell \/ (i = cursor_cell /\ cursor_status s = true) -> shows fb i (shown_at i)).
    { intros Hp i Hi Hcase. unfold shown_at. destruct (cursor_status s && (i =? cursor_cell)) eqn:Eb.
      - apply andb_true_iff in Eb as [Hst ->%Z.eqb_eq]. by apply (fl_cursor _ _ _ _ Hf).
      - destruct Hcase as [Hne|[-> Hst]]; [|by rewrite Hst, Z.eqb_refl in Eb]. apply (fl_shows _ _ _ _ Hf Hp); [done|done| |by apply Hvw].
        intros Hst ->. by rewrite Hst, Z.eqb_refl in Eb. }
    destruct (negb _ || negb _ || negb _) eqn:Eb; cbn [when].
    - fold old_cell. destruct (Hvw old_cell Hoc) as [Hvo Hco]. unfold cell_set in Hoc.
      rewrite (bind_Ret _ _ _ _ _ (array_get_eq grid old_cell _ (with_ fb (view s) m) ltac:(lia) Hvo)).
      destruct (plot_cell fb (view s) m old_cell (vw s old_cell) _ _ Hoc (eq_sym Eox) (eq_sym Eoy) Hco) as (fb' & Ep & Hd & Ho).
      exists fb'. split; [done|]. intros Hp i Hi. destruct (decide (i = old_cell)) as [->|Hne]; [|by apply Ho; [..|apply Hs; [..|by left]]].
      unfold shown_at. destruct (cursor_status s && (old_cell =? cursor_cell)) eqn:Ec; [|done]. exfalso.
      apply andb_true_iff in Ec as [Hst Heq%Z.eqb_eq]. rewrite Heq in Eox, Eoy. rewrite Hst, <- Eox, <- Eoy, Ecx, Ecy, !Z.eqb_refl in Eb. done.
    - exists fb. split; [done|]. intros Hp i Hi. rewrite !orb_false_iff, !negb_false_iff, !Z.eqb_eq in Eb. destruct Eb as [[E2 E3] Hst].
      apply Hs; [done|done|]. destruct (decide (i = old_cell)) as [->|]; [|by left]. right. split; [|done]. unfold old_cell, cursor_cell. congruence. }
  destruct Hnew as (fb' & E2 & Hsh). rewrite (bind_Ret _ _ _ _ _ E2), bind_modify. eexists. split; [reflexivity|].
  pose proof (view_length _ _ Hq) as Hvl. fold (view s) in Hvl.
  assert (Hq' : queue_ok R C (view s) (queue s) 0 m).
  { pose proof (ok_map _ _ _ _ _ _ Hq). pose proof (fl_map _ _ _ _ Hf).
    assert (Hall : forall i p, m !! i = Some p -> p = QNull).
    { intros i p Hi. pose proof (lookup_lt_Some _ _ _ Hi). specialize (Hnull (Z.of_nat i) ltac:(unfold cell_set; lia)). rewrite Nat2Z.id in Hnull. congruence. }
    split; try (done || lia).
    - apply (ok_queue _ _ _ _ _ _ Hq).
    - apply (fl_chars _ _ _ _ Hf).
    - intros i Hi. by pose proof (Hall _ _ Hi).
    - intros i k Hi. by pose proof (Hall _ _ Hi). }
  split; [destruct Hok; by split|]. split; [done|]. split; [done|]. split; [|by split_and!].
  unfold fb_abs, view. cbn. f_equal. apply list_eq. intros i. unfold view_of. rewrite lookup_zip_with.
  destruct (lt_dec i (length (view s))) as [Hl|Hl].
  - specialize (Hnull (Z.of_nat i) ltac:(unfold cell_set; lia)). rewrite Nat2Z.id in Hnull. rewrite Hnull. cbn. by destruct (zip_with _ _ _ !! i).
  - rewrite (lookup_ge_None_2 (zip_with _ _ _)) by (fold (view_of (grid s) (queue s) (fbmap s)); fold (view s); lia). by destruct (m !! i).
Qed.
End flush.
End FbPixels.
