(* ===== verification/FbBackend.v ===== *)
(** The framebuffer backend satisfies the interface of the parser: its invariant
    is that queue and map are consistent and that the framebuffer shows the grid. *)
From Stdlib Require Import Ascii.
From S2P Require Import Prelude CString Printf Font Term Framebuffer TermScreen FramebufferSpec FbPixels.

Module FbBackend.
Import FramebufferSpec FbPixels.

(** What only a flush or a refresh changes. *)
Definition picture (s : fbterm_context) : fb_fixed * gmap Z Z * list fbterm_char * (Z * Z) :=
  (fixed s, framebuffer s, grid s, (old_cursor_x s, old_cursor_y s)).
Local Abbreviation quiet := (keeps picture).

Lemma quiet_fault {A} a : quiet (fault a : K fbterm_context A).
Proof. done. Qed.
Lemma quiet_array {A} (f : fbterm_context -> list A) i : quiet (array_get f i).
Proof. intros s. unfold array_get. by destruct (at_index _ _). Qed.
Lemma quiet_map i p : quiet (map_set i p).
Proof. intros s. unfold map_set. by destruct (in_array _ _). Qed.
Lemma quiet_queue i q : quiet (queue_set i q).
Proof. intros s. unfold queue_set. by destruct (in_array _ _). Qed.
Lemma quiet_trm {A} (f : term_context -> A) : quiet (trm f).
Proof. done. Qed.
#[local] Hint Resolve quiet_fault quiet_array quiet_map quiet_queue quiet_trm : keeps.

Ltac quiet := repeat first
  [ done | apply keeps_get | apply keeps_gets | apply keeps_ret | apply quiet_trm | apply quiet_fault | apply quiet_array | apply quiet_map | apply quiet_queue
  | by apply keeps_modify | apply keeps_bind; [|intros ?] | apply keeps_when | apply keeps_for_steps; intros ? | case_match ].

Lemma quiet_push c x y : quiet (push_to_queue c x y).
Proof. unfold push_to_queue. quiet. Qed.
Lemma quiet_cell_at i : quiet (cell_at i).
Proof. unfold cell_at, item. quiet. Qed.
Lemma quiet_push_at c i : quiet (push_at c i).
Proof. unfold push_at. apply keeps_bind; [done|]. intros k. destruct (k =? 0); [done|]. apply quiet_push. Qed.
Lemma quiet_down_to fuel i x body : (forall i, quiet (body i)) -> quiet (down_to fuel i x body).
Proof. intros Hb. revert i. induction fuel as [|n IH]; intros i; cbn [down_to]; [done|]. apply keeps_bind; [done|]. intros []. by destruct (i =? x). Qed.
Lemma quiet_range i0 i1 body : (forall i, quiet (body i)) -> quiet (for_range i0 i1 body).
Proof. intros Hb. by apply keeps_for_steps. Qed.

Lemma quiet_scroll : quiet fbterm_scroll.
Proof.
  unfold fbterm_scroll. apply keeps_bind; [done|]. intros t. cbv zeta. apply keeps_bind.
  - apply quiet_range. intros i. apply keeps_bind; [apply quiet_cell_at|]. intros c. apply quiet_push_at.
  - intros []. apply keeps_bind; [done|]. intros e. apply quiet_range. intros i. apply quiet_push_at.
Qed.
Lemma quiet_revscroll : quiet fbterm_revscroll.
Proof.
  unfold fbterm_revscroll. apply keeps_bind; [done|]. intros t. cbv zeta. apply keeps_bind.
  - apply quiet_down_to. intros i. apply keeps_bind; [apply quiet_cell_at|]. intros c. apply quiet_push_at.
  - intros []. apply keeps_bind; [done|]. intros e. apply quiet_range. intros i. apply quiet_push_at.
Qed.
Lemma quiet_clear m : quiet (fbterm_clear m).
Proof.
  unfold fbterm_clear. apply keeps_bind; [done|]. intros t. apply keeps_bind; [done|]. intros e. apply keeps_bind.
  - apply quiet_range. intros i. apply quiet_push_at.
  - intros []. quiet.
Qed.
Lemma quiet_move a b c d : quiet (fbterm_move_character a b c d).
Proof.
  unfold fbterm_move_character. apply keeps_bind; [done|]. intros t. cbv zeta. destruct (_ || _); [done|].
  apply keeps_bind; [apply quiet_cell_at|]. intros x. apply quiet_push.
Qed.
Lemma quiet_putchar c : quiet (fbterm_raw_putchar c).
Proof.
  unfold fbterm_raw_putchar. apply keeps_bind; [done|]. intros s. apply keeps_bind; [by apply keeps_modify|]. intros _.
  apply keeps_bind; [apply quiet_push|]. intros _. apply keeps_bind; [done|]. intros s1. apply keeps_bind; [quiet|]. intros _.
  apply keeps_bind; [done|]. intros s2. apply keeps_when, keeps_bind; [by apply keeps_modify|]. intros _. apply quiet_scroll.
Qed.

(** * The invariant *)
Definition fb_inv (s : fbterm_context) : Prop := fb_ok s /\ painted s.

Lemma painted_quiet s s' : picture s' = picture s -> rows (term s') = rows (term s) -> cols (term s') = cols (term s) -> painted s -> painted s'.
Proof.
  unfold picture. intros [= Ef Eb Eg Ex Ey] Er Ec Hp i c Hi Hne Hg. unfold cell_set in Hi. unfold old_cell in Hne. rewrite Er, Ec in *.
  rewrite Ex, Ey in Hne. rewrite Eg in Hg. unfold shows. rewrite Ef, Eb, Ec. by apply (Hp i c).
Qed.

Lemma quiet_acts c s f : fb_inv s -> quiet c -> acts fb_ok fb_abs c s f -> acts fb_inv fb_abs c s f.
Proof.
  intros [Hok Hp] Hq (s' & E & Hok' & Et & Ea). exists s'. split; [done|]. split; [|done]. split; [done|].
  change (term s' = term s) in Et. specialize (Hq s). rewrite E in Hq. cbn [final] in Hq.
  apply (painted_quiet s s'); [done|by rewrite Et|by rewrite Et|done].
Qed.

Lemma modify_acts g s f : fb_inv s -> (forall s, picture (g s) = picture s) -> fb_ok (g s) -> term (g s) = term s -> fb_abs (g s) = f (fb_abs s) ->
  acts fb_inv fb_abs (modify g) s f.
Proof. intros Hi Hg Hok Et Ea. apply quiet_acts; [done|by apply keeps_modify|]. by exists (g s). Qed.

(** The screen and the framebuffer agree, cursor included. *)
Definition synced (s : fbterm_context) : Prop := forall i, cell_set s i -> shows s (framebuffer s) i (shown_at s i).

Lemma flush_inv s : fb_inv s -> on_screen (term s) (fb_abs s) ->
  exists s', fbterm_double_buffer_flush s = Ret tt s' /\ fb_inv s' /\ term s' = term s /\ fb_abs s' = fb_abs s /\ synced s'.
Proof.
  intros [Hok Hp] [Hx Hy]. destruct (flush_spec s Hok (conj Hx Hy)) as (s' & E & Hok' & Et & Ef & Ea & _ & [Eox Eoy] & Eg & Hsh).
  specialize (Hsh Hp). pose proof (f_equal cx Ea) as Ecx. pose proof (f_equal cy Ea) as Ecy. pose proof (f_equal shown Ea) as Est. cbn in Ecx, Ecy, Est.
  assert (Hsync : synced s').
  { intros i Hi. unfold cell_set in Hi. rewrite Et in Hi. unfold shows. rewrite Ef, Et. specialize (Hsh i Hi). unfold shows in Hsh.
    replace (shown_at s' i) with (shown_at s i); [done|]. unfold shown_at, cursor_cell, vw. by rewrite Ea, Et, Ecx, Ecy, Est. }
  exists s'. split; [done|]. split; [|done]. split; [done|]. intros i c Hi Hne Hg.
  specialize (Hsync i Hi). unfold shown_at in Hsync. rewrite (proj2 (Z.eqb_neq i _)), andb_false_r in Hsync.
  - replace c with (vw s' i); [done|]. apply vw_lookup. change (view s') with (cells (fb_abs s')). rewrite Ea. cbn. congruence.
  - unfold old_cell in Hne. unfold cursor_cell. congruence.
Qed.

#[global] Program Instance fbterm_laws : TermBackendLaws fbterm_context := {| inv := fb_inv; abs := fb_abs |}.
Next Obligation. intros s [Hok _]. split; [apply (fo_size _ Hok)|]. apply (view_length _ _ (fo_queue _ Hok)). Qed.
Next Obligation. intros s [Hok _]. apply (fo_cursor _ Hok). Qed.
Next Obligation.
  intros t s [Hok Hp] Hs. destruct (fb_tctx t s Hok Hs) as [Hok' Ea]. split; [|by split]. split; [done|].
  destruct Hs as [Er Ec]. by apply (painted_quiet s).
Qed.
Next Obligation. done. Qed.
Next Obligation. intros x y s Hi Hx Hy. apply quiet_acts; [done|by apply keeps_modify|]. by apply fb_set, Hy; [apply Hi|]. Qed.
Next Obligation. intros c s Hi Hm Hc. apply quiet_acts; [done|apply quiet_putchar|]. by apply fb_putchar; [apply Hi|..]. Qed.
Next Obligation. intros nx ny ox oy s Hi ????. apply quiet_acts; [done|apply quiet_move|]. by apply fb_move; [apply Hi|..]. Qed.
Next Obligation. intros s Hi Hm. apply quiet_acts; [done|apply quiet_scroll|]. by apply fb_scroll; [apply Hi|]. Qed.
Next Obligation. intros s Hi Hm. apply quiet_acts; [done|apply quiet_revscroll|]. by apply fb_revscroll; [apply Hi|]. Qed.
Next Obligation. intros m s Hi. apply quiet_acts; [done|apply quiet_clear|]. by apply fb_clear, Hi. Qed.
Next Obligation. intros s Hi. apply modify_acts; try done. destruct Hi as [[] _]. by split. Qed.
Next Obligation.
  intros s Hi. destruct (modify_acts (set_cursor_status false) s (show_cursor false) Hi) as (s' & E & H'); try done.
  { destruct Hi as [[] _]. by split. }
  exists (cursor_status s), s'. split; [|done]. injection E as <-. reflexivity.
Qed.
Next Obligation. intros s Hi. apply modify_acts; try done. destruct Hi as [[] _]. by split. Qed.
Next Obligation. intros s Hi. apply modify_acts; try done. destruct Hi as [[] _]. by split. Qed.
Next Obligation. intros s Hi. apply modify_acts; try done. apply text_ok, Hi. Qed.
Next Obligation. intros v s Hi Hv. destruct (fb_fg (fun s => ansi_colours (fixed s)) v s (proj1 Hi) ltac:(apply (fx_colours _ _ (fo_fixed _ (proj1 Hi)))) Hv) as [k Hk]. exists k. apply quiet_acts; [done|quiet|exact Hk]. Qed.
Next Obligation. intros v s Hi Hv. destruct (fb_bg (fun s => ansi_colours (fixed s)) v s (proj1 Hi) ltac:(apply (fx_colours _ _ (fo_fixed _ (proj1 Hi)))) Hv) as [k Hk]. exists k. apply quiet_acts; [done|quiet|exact Hk]. Qed.
Next Obligation. intros v s Hi Hv. destruct (fb_fg (fun s => ansi_bright_colours (fixed s)) v s (proj1 Hi) ltac:(apply (fx_colours _ _ (fo_fixed _ (proj1 Hi)))) Hv) as [k Hk]. exists k. apply quiet_acts; [done|quiet|exact Hk]. Qed.
Next Obligation. intros v s Hi Hv. destruct (fb_bg (fun s => ansi_bright_colours (fixed s)) v s (proj1 Hi) ltac:(apply (fx_colours _ _ (fo_fixed _ (proj1 Hi)))) Hv) as [k Hk]. exists k. apply quiet_acts; [done|quiet|exact Hk]. Qed.
Next Obligation. intros v s Hi. apply modify_acts; try done. apply text_ok, Hi. Qed.
Next Obligation. intros v s Hi. apply modify_acts; try done. apply text_ok, Hi. Qed.
Next Obligation. intros s Hi. exists (default_fg (fixed s)). apply modify_acts; try done. apply text_ok, Hi. Qed.
Next Obligation. intros s Hi. exists TRANSPARENT. apply modify_acts; try done. apply text_ok, Hi. Qed.
Next Obligation. intros s Hi Ho. destruct (flush_inv s Hi Ho) as (s' & E & Hi' & Et & Ea & _). by exists s'. Qed.
Next Obligation. done. Qed.
End FbBackend.
