(* ===== verification/TermSpec.v ===== *)
(** What the terminal parser guarantees over any backend that satisfies
    [TermBackendLaws]: which bytes keep the cursor on the screen and the parser's
    registers in range, how text appears, how a cursor address is read. *)
From Stdlib Require Import Ascii.
From S2P Require Import Prelude CString Printf Font Term Framebuffer TermScreen FramebufferSpec.

Module TermSpec.
Import FramebufferSpec.

(** * Screens *)
Section screens.
Variables (R C : Z).
Hypothesis HR : 2 <= R < 2 ^ 31.
Hypothesis HC : 1 <= C < 2 ^ 31.

Definition at_ok (x y : Z) : Prop := 0 <= x < C /\ 0 <= y < R.
Definition primary_ok (p : Z) : Prop := 0 <= p < 8 \/ p = NO_PRIMARY.

(** The registers of the parser, with the whole screen as scroll region. *)
Record parser_ok (t : term_context) : Prop := {
  p_rows : rows t = R; p_cols : cols t = C;
  p_top : scroll_top_margin t = 0; p_bot : scroll_bottom_margin t = R;
  p_tab : tab_size t = 8; p_auto : autoflush t = true;
  p_len : length (esc_values t) = 16%nat; p_vals : Forall (fun v => 0 <= v < 2 ^ 32) (esc_values t);
  p_i : 0 <= esc_values_i t <= 16; p_rrr : rrr t = true -> esc_values_i t < 16;
  p_sets : length (charsets t) = 2%nat; p_charset : 0 <= current_charset t <= 1; p_scharset : 0 <= saved_state_current_charset t <= 1;
  p_g : 0 <= g_select t <= 2;
  p_primary : primary_ok (current_primary t); p_sprimary : primary_ok (saved_state_current_primary t);
  p_saved : word (saved_cursor_x t) /\ word (saved_cursor_y t);
}.

Lemma parser_margins t : parser_ok t -> margins_ok t.
Proof. intros Hp. unfold margins_ok. rewrite (p_rows _ Hp), (p_top _ Hp), (p_bot _ Hp). lia. Qed.

Lemma clamp_at x y : 0 <= x -> 0 <= y -> at_ok (clamp x C) (clamp y R).
Proof. intros Hx Hy. split; apply clamp_range; lia. Qed.

Lemma clamp_id v limit : v < limit -> clamp v limit = v.
Proof. intros. unfold clamp. by rewrite (proj2 (Z.leb_gt limit v)). Qed.

Lemma put_cell_same t c x y a : cx (put_cell t c x y a) = cx a /\ cy (put_cell t c x y a) = cy a /\ saved (put_cell t c x y a) = saved a /\ colours (put_cell t c x y a) = colours a.
Proof. unfold put_cell. by destruct (_ && _). Qed.

Lemma type_char_saved t c a : saved (type_char t c a) = saved a.
Proof.
  unfold type_char. destruct (put_cell_same t (glyph_of a c) (cx a) (cy a) (move_to (u64 (cx a + 1)) (cy a) a)) as (_ & _ & Es & _).
  cbv zeta. set (b := put_cell _ _ _ _ _) in *. by repeat case_match.
Qed.

(** Where the cursor is after a character. *)
Lemma type_char_cursor t c a : parser_ok t -> at_ok (cx a) (cy a) ->
  let b := type_char t c a in
  (cx a + 1 < C -> cx b = cx a + 1 /\ cy b = cy a) /\ (scroll_enabled t = true -> at_ok (cx b) (cy b)).
Proof.
  intros Hp [Hx Hy]. unfold type_char. destruct (put_cell_same t (glyph_of a c) (cx a) (cy a) (move_to (u64 (cx a + 1)) (cy a) a)) as (Ex & Ey & _).
  cbv zeta. set (b := put_cell _ _ _ _ _) in *. cbn in Ex, Ey. rewrite (wrap_small 64) in Ex by lia. rewrite Ex, Ey, (p_cols _ Hp), (p_bot _ Hp).
  destruct (Z.eqb_spec (cx a + 1) C) as [Ec|Hne]; cbn [andb].
  - split; [lia|]. intros ->. rewrite orb_true_r. cbn [move_to cy cx]. rewrite (wrap_small 64 (cy a + 1)) by lia.
    destruct (Z.eqb_spec (cy a + 1) R); cbn; [rewrite wrap_small by lia; unfold at_ok; lia|unfold at_ok; lia].
  - destruct (Z.eqb_spec (cy b) R); [lia|]. rewrite Ex, Ey. unfold at_ok. lia.
Qed.
End screens.

(** * The parser keeps the screen *)
Section parser.
Context {S : Type} `{TermBackendLaws S}.
Variables (R C : Z).
Hypothesis HR : 2 <= R < 2 ^ 31.
Hypothesis HC : 1 <= C < 2 ^ 31.

(** [mid]: between two callbacks; [good]: between two bytes. *)
Definition mid (s : S) : Prop := inv s /\ parser_ok R C (tctx s) /\ at_ok R C (saved (abs s)).1.1 (saved (abs s)).1.2.
Definition placed (s : S) : Prop := mid s /\ at_ok R C (cx (abs s)) (cy (abs s)).
Definition good (s : S) : Prop := placed s /\ scroll_enabled (tctx s) = true.

Lemma bind_fld {A B} (f : term_context -> A) (k : A -> K S B) s : bind (fld f) k s = k (f (tctx s)) s.
Proof. done. Qed.

(** Assignments to the parser's fields. *)
Lemma wp_upd f s (Q : unit -> S -> Prop) :
  mid s -> parser_ok R C (f (tctx s)) ->
  (forall s', mid s' -> tctx s' = f (tctx s) -> abs s' = abs s -> Q tt s') -> wp (upd f s) Q.
Proof.
  intros (Hi & Hp & Hs) Hp' HQ. unfold upd, modify. cbn.
  destruct (law_tctx (f (tctx s)) s Hi) as (Hi' & Ea & Et).
  { unfold same_size. by rewrite (p_rows _ _ _ Hp), (p_cols _ _ _ Hp), (p_rows _ _ _ Hp'), (p_cols _ _ _ Hp'). }
  apply HQ; [|done|done]. split; [done|]. by rewrite Et, Ea.
Qed.

(** Callbacks that leave the saved cursor alone. *)
Lemma wp_acts c s g (Q : unit -> S -> Prop) :
  acts inv abs c s g -> mid s -> saved (g (abs s)) = saved (abs s) ->
  (forall s', mid s' -> tctx s' = tctx s -> abs s' = g (abs s) -> Q tt s') -> wp (c s) Q.
Proof.
  intros (s' & E & Hi' & Et & Ea) (Hi & Hp & Hs) Hg HQ. rewrite E. cbn. apply HQ; [|done|done].
  split; [done|]. rewrite Et, Ea, Hg. by split.
Qed.

Lemma wp_set x y s (Q : unit -> S -> Prop) :
  mid s -> word x -> word y ->
  (forall s', placed s' -> tctx s' = tctx s -> abs s' = clamped (tctx s) x y (abs s) -> Q tt s') -> wp (set_cursor_pos x y s) Q.
Proof.
  intros Hm Hx Hy HQ. pose proof Hm as (Hi & Hp & Hs). eapply wp_acts; [by apply law_set|done|done|].
  intros s' Hm' Et Ea. apply HQ; [|done|done]. split; [done|]. rewrite Ea. cbn. rewrite (p_rows _ _ _ Hp), (p_cols _ _ _ Hp).
  apply clamp_at; [done|done|apply Hx|apply Hy].
Qed.

Lemma wp_put c s (Q : unit -> S -> Prop) :
  mid s -> 0 <= c < 256 ->
  (forall s', mid s' -> tctx s' = tctx s -> abs s' = type_char (tctx s) c (abs s) -> Q tt s') -> wp (raw_putchar c s) Q.
Proof.
  intros Hm Hc HQ. pose proof Hm as (Hi & Hp & Hs). eapply wp_acts; [apply law_putchar; [done|by eapply parser_margins|done]|done| |done].
  apply type_char_saved.
Qed.

(** Callbacks that keep the cursor too. *)
Lemma placed_acts c s g (Q : unit -> S -> Prop) :
  acts inv abs c s g -> placed s -> saved (g (abs s)) = saved (abs s) -> cx (g (abs s)) = cx (abs s) -> cy (g (abs s)) = cy (abs s) ->
  (forall s', placed s' -> tctx s' = tctx s -> Q tt s') -> wp (c s) Q.
Proof.
  intros Ha [Hm Hc] Hs Ex Ey HQ. eapply wp_acts; [done|done|done|]. intros s' Hm' Et Ea. apply HQ; [|done]. split; [done|]. rewrite Ea. by rewrite Ex, Ey.
Qed.

Lemma esc_get i s : mid s -> 0 <= i < 16 -> exists v, esc i s = Ret v s /\ 0 <= v < 2 ^ 32 /\ esc_values (tctx s) !! Z.to_nat i = Some v.
Proof.
  intros (Hi & Hp & Hs) Hr. destruct (lookup_lt_is_Some_2 (esc_values (tctx s)) (Z.to_nat i)) as [v Hv]; [rewrite (p_len _ _ _ Hp); lia|].
  exists v. split; [|split; [|done]].
  - unfold esc. rewrite bind_fld, (at_index_eq _ _ v) by (done || lia). done.
  - eapply (Forall_lookup_1 (fun v => 0 <= v < 2 ^ 32)); [apply (p_vals _ _ _ Hp)|done].
Qed.

Lemma wp_esc i s (Q : Z -> S -> Prop) : mid s -> 0 <= i < 16 -> (forall v, 0 <= v < 2 ^ 32 -> esc_values (tctx s) !! Z.to_nat i = Some v -> Q v s) -> wp (esc i s) Q.
Proof. intros Hm Hi HQ. destruct (esc_get i s Hm Hi) as (v & -> & Hv & Hl). by apply HQ. Qed.

Lemma parser_esc t i v : parser_ok R C t -> parser_ok R C (set_esc_values (<[i := u32 v]> (esc_values t)) t).
Proof.
  intros []. split; cbn; try done; [by rewrite length_insert|]. apply Forall_insert; [done|]. by apply wrap_range.
Qed.

Lemma wp_set_esc i v s (Q : unit -> S -> Prop) :
  mid s -> 0 <= i < 16 ->
  (forall s', mid s' -> tctx s' = set_esc_values (<[Z.to_nat i := u32 v]> (esc_values (tctx s))) (tctx s) -> abs s' = abs s -> Q tt s') ->
  wp (set_esc i v s) Q.
Proof.
  intros Hm Hi HQ. pose proof Hm as (_ & Hp & _). unfold set_esc. rewrite bind_fld, in_array_eq by (rewrite (p_len _ _ _ Hp); lia).
  apply wp_upd; [done| |done]. by apply parser_esc.
Qed.

(** ** Colours *)
Lemma wp_upd_placed f s (Q : unit -> S -> Prop) :
  placed s -> parser_ok R C (f (tctx s)) ->
  (forall s', placed s' -> tctx s' = f (tctx s) -> abs s' = abs s -> Q tt s') -> wp (upd f s) Q.
Proof.
  intros [Hm Hc] Hp HQ. apply wp_upd; [done|done|]. intros s' Hm' Et Ea. apply HQ; [|done|done]. split; [done|]. by rewrite Ea.
Qed.

(** The sequence being executed is still the same. *)
Definition same_seq (s s' : S) : Prop := esc_values (tctx s') = esc_values (tctx s) /\ esc_values_i (tctx s') = esc_values_i (tctx s).
Definition recoloured (s : S) (_ : unit) (s' : S) : Prop := placed s' /\ same_seq s s'.

Lemma placed_inv s : placed s -> inv s.
Proof. by intros [[? _] _]. Qed.

Lemma colour_acts c s g : acts inv abs c s (fun a => recolour (g a) a) -> placed s -> wp (c s) (fun _ s' => placed s' /\ tctx s' = tctx s).
Proof. intros Ha Hp. eapply placed_acts; [done|done|done|done|done|]. by intros s' ??. Qed.

Lemma w_swap s : placed s -> wp (swap_palette s) (fun _ s' => placed s' /\ tctx s' = tctx s).
Proof. intros Hp. eapply colour_acts; [|done]. apply law_swap. by apply placed_inv. Qed.
Lemma w_fg v s : placed s -> 0 <= v < 8 -> wp (set_text_fg v s) (fun _ s' => placed s' /\ tctx s' = tctx s).
Proof. intros Hp Hv. destruct (law_fg v s (proj1 (proj1 Hp)) Hv) as [f Hf]. eapply colour_acts; [exact Hf|done]. Qed.
Lemma w_bg v s : placed s -> 0 <= v < 8 -> wp (set_text_bg v s) (fun _ s' => placed s' /\ tctx s' = tctx s).
Proof. intros Hp Hv. destruct (law_bg v s (proj1 (proj1 Hp)) Hv) as [f Hf]. eapply colour_acts; [exact Hf|done]. Qed.
Lemma w_fg_bright v s : placed s -> 0 <= v < 8 -> wp (set_text_fg_bright v s) (fun _ s' => placed s' /\ tctx s' = tctx s).
Proof. intros Hp Hv. destruct (law_fg_bright v s (proj1 (proj1 Hp)) Hv) as [f Hf]. eapply colour_acts; [exact Hf|done]. Qed.
Lemma w_bg_bright v s : placed s -> 0 <= v < 8 -> wp (set_text_bg_bright v s) (fun _ s' => placed s' /\ tctx s' = tctx s).
Proof. intros Hp Hv. destruct (law_bg_bright v s (proj1 (proj1 Hp)) Hv) as [f Hf]. eapply colour_acts; [exact Hf|done]. Qed.
Lemma w_fg_rgb v s : placed s -> wp (set_text_fg_rgb v s) (fun _ s' => placed s' /\ tctx s' = tctx s).
Proof. intros Hp. eapply (colour_acts _ s (fun _ => _)); [|done]. apply law_fg_rgb. by apply placed_inv. Qed.
Lemma w_bg_rgb v s : placed s -> wp (set_text_bg_rgb v s) (fun _ s' => placed s' /\ tctx s' = tctx s).
Proof. intros Hp. eapply (colour_acts _ s (fun _ => _)); [|done]. apply law_bg_rgb. by apply placed_inv. Qed.
Lemma w_fg_default s : placed s -> wp (set_text_fg_default s) (fun _ s' => placed s' /\ tctx s' = tctx s).
Proof. intros Hp. destruct (law_fg_default s (proj1 (proj1 Hp))) as [f Hf]. eapply colour_acts; [exact Hf|done]. Qed.
Lemma w_bg_default s : placed s -> wp (set_text_bg_default s) (fun _ s' => placed s' /\ tctx s' = tctx s).
Proof. intros Hp. destruct (law_bg_default s (proj1 (proj1 Hp))) as [f Hf]. eapply colour_acts; [exact Hf|done]. Qed.

Lemma wp_value {A} (a : A) s (Q : A -> S -> Prop) : Q a s -> wp (ret a s) Q.
Proof. done. Qed.

(** The registers after an assignment that cannot hurt. *)
Ltac registers :=
  match goal with
  | H : placed ?s |- parser_ok _ _ _ => let Hp := fresh in pose proof (proj1 (proj2 (proj1 H))) as Hp; destruct Hp; split; cbn; try done; try lia
  | H : mid ?s |- parser_ok _ _ _ => let Hp := fresh in pose proof (proj1 (proj2 H)) as Hp; destruct Hp; split; cbn; try done; try lia
  end.

(** One step of a routine that only recolours: every goal is [recoloured]. *)
Ltac colour_step :=
  match goal with
  | |- wp (bind (fld _) _ _) _ => rewrite bind_fld; cbv beta
  | |- wp (bind _ _ _) _ => apply wp_bind
  | |- wp (when ?b _ _) _ => destruct b; cbn [when]
  | |- wp ((if ?b then _ else _) _) _ => destruct b
  | |- wp (ret _ _) _ => apply wp_value; cbv beta
  | |- wp (upd _ _) _ => apply wp_upd_placed; [assumption|registers|intros ? ? ? _]
  | |- wp (_ _) _ => eapply wp_mono; [first [apply w_swap|apply w_fg|apply w_bg|apply w_fg_bright|apply w_bg_bright|apply w_fg_rgb|apply w_bg_rgb
                                             |apply w_fg_default|apply w_bg_default]; (assumption || lia)|intros ? ? [? ?]]
  end.
Ltac recolour_done := split; [assumption|]; unfold same_seq; repeat match goal with E : tctx _ = _ |- _ => rewrite E; clear E end; done.

Lemma primary_range s : placed s -> current_primary (tctx s) <> NO_PRIMARY -> 0 <= current_primary (tctx s) < 8.
Proof. intros Hp Hne. by destruct (p_primary _ _ _ (proj1 (proj2 (proj1 Hp)))). Qed.

Lemma w_sgr_default s : placed s -> wp (sgr_default s) (recoloured s).
Proof. intros Hp. unfold sgr_default. repeat colour_step; try recolour_done; by right. Qed.
Lemma w_sgr_set_fg v s : placed s -> 0 <= v < 8 -> wp (sgr_set_fg v s) (recoloured s).
Proof. intros Hp Hv. unfold sgr_set_fg. repeat colour_step; recolour_done. Qed.
Lemma w_sgr_set_bg v s : placed s -> 0 <= v < 8 -> wp (sgr_set_bg v s) (recoloured s).
Proof. intros Hp Hv. unfold sgr_set_bg. repeat colour_step; recolour_done. Qed.

Lemma w_sgr_bold on s : placed s -> wp (sgr_bold on s) (recoloured s).
Proof.
  intros Hp. unfold sgr_bold. apply wp_bind. apply wp_upd_placed; [done|registers|]. intros s1 Hp1 E1 _. rewrite !bind_fld.
  destruct (Z.eqb_spec (current_primary (tctx s1)) NO_PRIMARY) as [|Hne]; cbn [negb when]; [apply wp_value; recolour_done|].
  pose proof (primary_range s1 Hp1 Hne). repeat colour_step; recolour_done.
Qed.

Lemma recoloured_trans s s1 s2 : same_seq s s1 -> recoloured s1 tt s2 -> recoloured s tt s2.
Proof. intros [E1 E2] [Hp [E3 E4]]. split; [done|]. unfold same_seq. by rewrite E3, E4. Qed.

Lemma w_unreversed c s : (forall s, placed s -> wp (c s) (fun _ s' => placed s' /\ tctx s' = tctx s)) -> placed s -> wp (sgr_unreversed c s) (recoloured s).
Proof.
  intros Hc Hp. unfold sgr_unreversed. rewrite bind_fld. apply wp_bind.
  assert (Hw : wp (when (reverse_video (tctx s)) swap_palette s) (fun _ s' => placed s' /\ tctx s' = tctx s)) by (destruct (reverse_video _); [by apply w_swap|by split]).
  eapply wp_mono; [exact Hw|]. intros [] s1 [Hp1 E1]. apply wp_bind. eapply wp_mono; [by apply Hc|]. intros [] s2 [Hp2 E2].
  repeat colour_step; recolour_done.
Qed.

Lemma w_sgr_simple v c s : 0 <= v -> sgr_simple v = Some c -> placed s -> wp (c s) (recoloured s).
Proof.
  intros Hv Hc Hp. unfold sgr_simple in Hc.
  destruct (v =? 0); [injection Hc as <-; by apply w_sgr_default|].
  destruct (v =? 1); [injection Hc as <-; by apply w_sgr_bold|].
  destruct (v =? 22); [injection Hc as <-; by apply w_sgr_bold|].
  destruct ((30 <=? v) && (v <=? 37)) eqn:E3; [injection Hc as <-; rewrite andb_true_iff, !Z.leb_le in E3|clear E3].
  { apply wp_bind, wp_upd_placed; [done|registers; left; lia|]. intros s1 Hp1 E1 _. rewrite bind_fld.
    destruct (reverse_video _); (eapply wp_mono; [first [apply w_sgr_set_bg|apply w_sgr_set_fg]; [done|lia]|]);
      intros [] s2 H2; apply (recoloured_trans s s1); try done; unfold same_seq; by rewrite E1. }
  destruct ((40 <=? v) && (v <=? 47)) eqn:E4; [injection Hc as <-; rewrite andb_true_iff, !Z.leb_le in E4|clear E4].
  { rewrite bind_fld. destruct (reverse_video _); [apply w_sgr_set_fg|apply w_sgr_set_bg]; (done || lia). }
  destruct ((90 <=? v) && (v <=? 97)) eqn:E9; [injection Hc as <-; rewrite andb_true_iff, !Z.leb_le in E9|clear E9].
  { apply wp_bind, wp_upd_placed; [done|registers; left; lia|]. intros s1 Hp1 E1 _. repeat colour_step; recolour_done. }
  destruct ((100 <=? v) && (v <=? 107)) eqn:E10; [injection Hc as <-; rewrite andb_true_iff, !Z.leb_le in E10|clear E10].
  { repeat colour_step; recolour_done. }
  destruct (v =? 39); [injection Hc as <-|].
  { apply wp_bind, wp_upd_placed; [done|registers; by right|]. intros s1 Hp1 E1 _. eapply wp_mono; [apply w_unreversed; [apply w_fg_default|done]|].
    intros [] s2 H2. apply (recoloured_trans s s1); [unfold same_seq; by rewrite E1|done]. }
  destruct (v =? 49); [injection Hc as <-; apply w_unreversed; [apply w_bg_default|done]|].
  destruct (v =? 7); [injection Hc as <-; repeat colour_step; recolour_done|].
  destruct (v =? 27); [injection Hc as <-; repeat colour_step; recolour_done|done].
Qed.

Lemma w_sgr_256 fg col s : placed s -> 0 <= col < 256 -> wp (sgr_256 fg col s) (recoloured s).
Proof.
  intros Hp Hc. unfold sgr_256. destruct (Z.ltb_spec col 8); [destruct fg; repeat colour_step; recolour_done|].
  destruct (Z.ltb_spec col 16); [destruct fg; repeat colour_step; recolour_done|].
  destruct (lookup_lt_is_Some_2 col256 (Z.to_nat (col - 16))) as [rgb Hr]; [change (length col256) with 240%nat; lia|].
  rewrite (at_index_eq _ _ rgb) by (done || lia). destruct fg; repeat colour_step; recolour_done.
Qed.

Lemma w_sgr_loop fuel i s : placed s -> 0 <= i <= 16 -> 16 - i < Z.of_nat fuel -> Forall (fun v => v < 256) (esc_values (tctx s)) ->
  wp (sgr_loop fuel i s) (recoloured s).
Proof.
  revert i s. induction fuel as [|fuel IH]; intros i s Hp Hi Hf Hv; [lia|]. cbn [sgr_loop]. rewrite bind_fld.
  pose proof (p_i _ _ _ (proj1 (proj2 (proj1 Hp)))) as Hn. set (n := esc_values_i (tctx s)) in *.
  assert (Hdone : recoloured s tt s) by done.
  assert (Hnext : forall s1 j, recoloured s tt s1 -> i < j <= 16 -> wp (sgr_loop fuel j s1) (recoloured s)).
  { intros s1 j [Hp1 Hs1] Hj. eapply wp_mono; [apply IH; [done|lia|lia|by rewrite (proj1 Hs1)]|]. intros [] s2. by apply recoloured_trans. }
  destruct (Z.ltb_spec i n) as [Hlt|]; [|done]. cbn [negb]. apply wp_bind, wp_esc; [apply Hp|lia|]. intros v Hv1 Hl.
  destruct (sgr_simple v) as [c|] eqn:Ec.
  { apply wp_bind. eapply wp_mono; [apply (w_sgr_simple v); [lia|done|done]|]. intros [] s1 H1. apply Hnext; [done|lia]. }
  destruct ((v =? 38) || (v =? 48)); [|apply Hnext; [done|lia]]. cbv zeta.
  destruct (Z.leb_spec n (i + 1)); [done|]. apply wp_bind, wp_esc; [apply Hp|lia|]. intros kind Hk _.
  destruct (kind =? 2).
  { destruct (Z.leb_spec n (i + 1 + 3)); [done|].
    apply wp_bind, wp_esc; [apply Hp|lia|]. intros r Hr _. apply wp_bind, wp_esc; [apply Hp|lia|]. intros g Hg _. apply wp_bind, wp_esc; [apply Hp|lia|]. intros b Hb _.
    apply wp_bind. destruct (v =? 38); (eapply wp_mono; [first [apply w_fg_rgb|apply w_bg_rgb]; done|]); intros [] s1 [Hp1 E1];
      (apply Hnext; [|lia]); recolour_done. }
  destruct (kind =? 5); [|apply Hnext; [done|lia]]. destruct (Z.leb_spec n (i + 1 + 1)); [done|].
  apply wp_bind, wp_esc; [apply Hp|lia|]. intros col Hcol Hcl. apply wp_bind.
  eapply wp_mono; [apply w_sgr_256; [done|]|]. { pose proof (Forall_lookup_1 _ _ _ _ Hv Hcl). cbn in *. lia. }
  intros [] s1 Hs1. apply Hnext; [done|lia].
Qed.

Lemma w_sgr s : placed s -> Forall (fun v => v < 256) (esc_values (tctx s)) -> wp (sgr s) (recoloured s).
Proof.
  intros Hp Hv. unfold sgr. rewrite bind_fld. destruct (_ =? 0); [by apply w_sgr_default|]. apply w_sgr_loop; [done|lia|lia|done].
Qed.

(** ** Control sequences *)
Definition stays (s : S) (_ : unit) (s' : S) : Prop := mid s' /\ tctx s' = tctx s.
Definition ends (_ : unit) (s' : S) : Prop := placed s'.

Lemma w_callback kind a b c s : placed s -> wp (call_back kind a b c s) ends.
Proof.
  intros Hp. unfold call_back. destruct callback as [f|] eqn:Ef; [|done].
  eapply placed_acts; [apply (law_callback f kind a b c s Ef), placed_inv; exact Hp|done|done|done|done|]. by intros s' ? _.
Qed.

Lemma wp_for_same (I : S -> Prop) i0 i1 body s :
  I s -> (forall j s, i0 <= j < i1 -> I s -> wp (body j s) (fun _ s' => I s')) -> wp (for_range i0 i1 body s) (fun _ s' => I s').
Proof.
  intros Hs Hb. unfold for_range. apply (wp_for_steps (fun _ => I)); [done|]. intros j s1 (k & Hk & ->) H1. apply Hb; [lia|done].
Qed.

Lemma mid_same s s' : mid s' -> tctx s' = tctx s -> stays s tt s'.
Proof. done. Qed.

Lemma w_blanks n s : mid s -> wp (blanks n s) (stays s).
Proof.
  intros Hm. unfold blanks. eapply wp_mono; [apply (wp_for_same (stays s tt)); [done|]|by intros [] ? ?].
  intros j s1 _ [Hm1 E1]. apply wp_put; [done|done|]. intros s2 Hm2 E2 _. split; [done|congruence].
Qed.

(** Blanks that do not reach the end of the line. *)
Lemma w_blanks_row n s : placed s -> 0 <= n -> cx (abs s) + n < C -> wp (blanks n s) (fun _ s' => placed s' /\ tctx s' = tctx s).
Proof.
  intros [Hm Hc] Hn Hl. unfold blanks.
  eapply wp_mono; [apply (wp_for_range (fun j s' => placed s' /\ tctx s' = tctx s /\ cx (abs s') = cx (abs s) + j)); [done| |]|by intros [] ? (? & ? & _)].
  - split; [done|]. split; [done|lia].
  - intros j s1 Hj ([Hm1 Hc1] & E1 & Ex). apply wp_put; [done|done|]. intros s2 Hm2 E2 Ea.
    destruct (type_char_cursor R C HR HC (tctx s1) (chr " ") (abs s1) (proj1 (proj2 Hm1)) Hc1) as [Hcur _]. rewrite <- Ea in Hcur.
    destruct Hc1 as [Hx1 Hy1]. destruct (Hcur ltac:(lia)) as [Ex2 Ey2].
    split; [split; [done|split; lia]|]. split; [congruence|lia].
Qed.

Lemma w_set_end x y s : mid s -> word x -> word y -> wp (set_cursor_pos x y s) ends.
Proof. intros. by apply wp_set. Qed.

Lemma geom s : mid s -> rows (tctx s) = R /\ cols (tctx s) = C /\ scroll_top_margin (tctx s) = 0 /\ scroll_bottom_margin (tctx s) = R.
Proof. intros (_ & Hp & _). split_and!; apply Hp. Qed.

Lemma word_u64 v : word (u64 v).
Proof. by apply wrap_range. Qed.
Lemma word_small v : 0 <= v < 2 ^ 33 -> word v.
Proof. unfold word. lia. Qed.

Lemma w_when_set b v s : mid s -> wp (when b (set_esc 0 v) s) (fun _ s' => mid s').
Proof. intros Hm. destruct b; cbn [when]; [|done]. by apply wp_set_esc. Qed.

Lemma w_up x y s : mid s -> word x -> word y -> wp (csi_up x y s) ends.
Proof.
  intros Hm Hx Hy. unfold csi_up. apply wp_bind, wp_esc; [done|lia|]. intros v _ _. apply wp_bind. eapply wp_mono; [by apply w_when_set|].
  intros [] s1 Hm1. apply wp_bind, wp_esc; [done|lia|]. intros v1 _ _. rewrite !bind_fld. cbv zeta. destruct (geom s1 Hm1) as (_ & _ & -> & ->).
  apply w_set_end; [done|done|]. destruct (_ && _); [apply word_small; lia|apply word_u64].
Qed.

Lemma w_down x y s : mid s -> word x -> word y -> wp (csi_down x y s) ends.
Proof.
  intros Hm Hx Hy. unfold csi_down. rewrite bind_fld. apply wp_bind, wp_esc; [done|lia|]. intros v _ _. apply wp_bind. eapply wp_mono; [by apply w_when_set|].
  intros [] s1 Hm1. apply wp_bind, wp_esc; [done|lia|]. intros v1 _ _. rewrite !bind_fld. cbv zeta. destruct (geom s1 Hm1) as (_ & _ & -> & ->).
  apply w_set_end; [done|done|]. destruct (_ && _); apply word_u64.
Qed.

(** A coordinate: one less than the value, at most the last. *)
Definition coordinate (limit e : Z) : Z := if limit <=? u32 (e - 1) then limit - 1 else u32 (e - 1).

Lemma coordinate_range limit e : 1 <= limit < 2 ^ 31 -> 0 <= coordinate limit e < limit.
Proof. intros Hl. unfold coordinate. pose proof (wrap_range 32 (e - 1) ltac:(lia)). destruct (Z.leb_spec limit (u32 (e - 1))); lia. Qed.

Lemma wp_coordinate i limit e s (Q : Z -> S -> Prop) :
  mid s -> 0 <= i < 16 -> 1 <= limit < 2 ^ 31 -> esc_values (tctx s) !! Z.to_nat i = Some e ->
  (forall s', mid s' -> tctx s' = set_esc_values (<[Z.to_nat i := coordinate limit e]> (esc_values (tctx s))) (tctx s) -> abs s' = abs s ->
     Q (coordinate limit e) s') ->
  wp (csi_coordinate i limit s) Q.
Proof.
  intros Hm Hi Hl He HQ. unfold csi_coordinate. apply wp_bind, wp_esc; [done|done|]. intros v _ Hv. assert (v = e) as -> by congruence. clear Hv.
  apply wp_bind, wp_set_esc; [done|done|]. intros s1 Hm1 E1 A1. apply wp_bind, wp_esc; [done|done|]. intros v1 _ Hv1.
  pose proof (p_len _ _ _ (proj1 (proj2 Hm))) as Hlen. rewrite E1 in Hv1. cbn in Hv1. rewrite list_lookup_insert_eq in Hv1 by lia. injection Hv1 as <-.
  rewrite (wrap_small 32 (u32 (e - 1))) by (by apply wrap_range). rewrite (wrap_small 32 (u32 (e - 1))) in E1 by (by apply wrap_range).
  pose proof (coordinate_range limit e Hl) as Hcr. unfold coordinate in *. destruct (Z.leb_spec limit (u32 (e - 1))); cbn [when].
  - apply wp_bind, wp_set_esc; [done|done|]. intros s2 Hm2 E2 A2. rewrite E1 in E2. cbn in E2. rewrite list_insert_insert_eq, (wrap_small 32 (limit - 1)) in E2 by lia.
    apply wp_esc; [done|done|]. intros v2 _ Hv2. rewrite E2 in Hv2. cbn in Hv2. rewrite list_lookup_insert_eq in Hv2 by lia. injection Hv2 as <-.
    apply HQ; [done|done|congruence].
  - apply wp_bind. apply wp_value. apply wp_esc; [done|done|]. intros v2 _ Hv2. rewrite E1 in Hv2. cbn in Hv2. rewrite list_lookup_insert_eq in Hv2 by lia.
    injection Hv2 as <-. by apply HQ.
Qed.

(** Loops with [break]: the body stops at [j0] at the latest. *)
Lemma wp_for_break (I Q : S -> Prop) n i j0 (body : Z -> K S bool) s :
  I s -> i <= j0 < i + Z.of_nat n ->
  (forall j s, I s -> wp (body j s) (fun b s' => if b then Q s' else I s' /\ j <> j0)) ->
  wp (for_break n i body s) (fun b s' => b = true /\ Q s').
Proof.
  revert i s. induction n as [|n IH]; intros i s Hs Hj Hb; [lia|]. cbn [for_break]. apply wp_bind. eapply wp_mono; [by apply Hb|].
  intros b s1 H1. cbv beta in H1. destruct b; [done|]. destruct H1. apply IH; [done|lia|done].
Qed.
Lemma wp_for_break_any (I Q : S -> Prop) n i (body : Z -> K S bool) s :
  I s -> (forall j s, I s -> wp (body j s) (fun b s' => if b then Q s' else I s')) ->
  wp (for_break n i body s) (fun b s' => if b then Q s' else I s').
Proof.
  intros Hs Hb. revert i s Hs. induction n as [|n IH]; intros i s Hs; cbn [for_break]; [done|]. apply wp_bind. eapply wp_mono; [by apply Hb|].
  intros b s1 H1. cbv beta in H1. destruct b; [done|]. by apply IH.
Qed.

Lemma w_erase_display x y s : mid s -> at_ok R C x y -> x = cx (abs s) -> y = cy (abs s) -> wp (csi_erase_display x y s) ends.
Proof.
  intros Hm [Hx Hy] Ex Ey. assert (Hwx : word x) by (apply word_small; lia). assert (Hwy : word y) by (apply word_small; lia).
  unfold csi_erase_display. rewrite !bind_fld. destruct (geom s Hm) as (-> & -> & _). apply wp_bind, wp_esc; [done|lia|]. intros v _ _.
  destruct (v =? 0). { apply wp_bind. eapply wp_mono; [by apply w_blanks|]. intros [] s1 [Hm1 _]. by apply w_set_end. }
  destruct (v =? 1).
  { apply wp_bind, wp_set; [done|apply word_small; lia..|]. intros s1 [Hm1 _] _ _. apply wp_bind.
    set (body := fun yc xc : Z => (do! raw_putchar (chr " ") in if (xc =? x) && (yc =? y) then do! set_cursor_pos x y in ret true else ret false) : K S bool).
    change (fun yc : Z => for_break _ 0 _) with (fun yc : Z => for_break (Z.to_nat C) 0 (body yc)).
    assert (Hbody : forall yc xc s, mid s -> wp (body yc xc s) (fun b s' => if b then placed s' else mid s' /\ (xc <> x \/ yc <> y))).
    { intros yc xc s2 Hm2. unfold body. apply wp_bind, wp_put; [done|done|]. intros s3 Hm3 _ _.
      destruct (Z.eqb_spec xc x), (Z.eqb_spec yc y); cbn [andb]; try (apply wp_value; by auto).
      apply wp_bind, wp_set; [done|done|done|]. intros s4 Hp4 _ _. by apply wp_value. }
    eapply wp_mono; [apply (wp_for_break mid placed _ _ y); [done|lia|]|by intros [] s2 [_ ?]].
    intros yc s2 Hm2. destruct (decide (yc = y)) as [->|Hne].
    - eapply wp_mono; [apply (wp_for_break mid placed _ _ x); [done|lia|]|by intros [] s3 [? ?]].
      intros xc s3 Hm3. eapply wp_mono; [by apply Hbody|]. intros [] s4; cbv beta; [done|]. intros [? [?|?]]; done.
    - eapply wp_mono; [apply (wp_for_break_any mid placed); [done|]|intros [] s3; cbv beta; by auto].
      intros xc s3 Hm3. eapply wp_mono; [by apply Hbody|]. intros [] s4; cbv beta; [done|]. by intros [? _]. }
  destruct (_ || _); cbn [when]; [|apply wp_value; split; [done|rewrite <- Ex, <- Ey; by split]].
  eapply placed_acts; [apply law_clear, Hm|split; [done|rewrite <- Ex, <- Ey; by split]|done..|]. by intros s' ? _.
Qed.

Lemma w_move a b c d s : mid s -> 0 <= a -> 0 <= b -> 0 <= c -> 0 <= d -> wp (move_character a b c d s) (stays s).
Proof.
  intros Hm ????. eapply wp_acts; [by apply law_move; [apply Hm|..]|done| |by intros s' ???].
  unfold copy_cell. destruct (_ && _); [|done]. apply put_cell_same.
Qed.

Lemma w_insert x y s : mid s -> at_ok R C x y -> wp (csi_insert x y s) ends.
Proof.
  intros Hm [Hx Hy]. assert (Hwx : word x) by (apply word_small; lia). assert (Hwy : word y) by (apply word_small; lia).
  unfold csi_insert. rewrite bind_fld. destruct (geom s Hm) as (_ & -> & _). rewrite wrap_small by lia. apply wp_bind.
  eapply wp_mono; [apply (wp_down_to (fun _ => mid)); [lia|lia|lia|done|]|intros [] s1 Hm1; by apply w_set_end].
  intros j s1 Hj Hm1. apply wp_bind, wp_esc; [done|lia|]. intros v Hv _. apply wp_bind. eapply wp_mono; [apply w_move; try lia; [done|apply word_u64]|].
  intros [] s2 [Hm2 _]. apply wp_bind, wp_set; [done|apply word_small; lia|done|]. intros s3 [Hm3 _] _ _. by apply wp_put.
Qed.

Lemma w_erase_chars x y s : mid s -> word x -> word y -> wp (csi_erase_chars x y s) ends.
Proof.
  intros Hm Hx Hy. unfold csi_erase_chars. apply wp_bind, wp_esc; [done|lia|]. intros v _ _. apply wp_bind. eapply wp_mono; [by apply w_blanks|].
  intros [] s1 [Hm1 _]. by apply w_set_end.
Qed.

Lemma w_delete x y s : mid s -> at_ok R C x y -> wp (csi_delete x y s) ends.
Proof.
  intros Hm [Hx Hy]. assert (Hwx : word x) by (apply word_small; lia). assert (Hwy : word y) by (apply word_small; lia).
  unfold csi_delete. rewrite bind_fld. apply wp_bind, wp_esc; [done|lia|]. intros v Hv _. apply wp_bind.
  eapply wp_mono; [apply (wp_for_same mid); [done|]|].
  { intros j s1 Hj Hm1. eapply wp_mono; [apply w_move; try lia; [done|apply word_u64]|]. by intros [] s2 [? _]. }
  intros [] s1 Hm1. apply wp_bind, wp_set; [done|apply word_u64|done|]. intros s2 [Hm2 _] _ _. by apply w_erase_chars.
Qed.

Lemma w_erase_line x y s : placed s -> x = cx (abs s) -> y = cy (abs s) -> wp (csi_erase_line x y s) ends.
Proof.
  intros Hp Ex Ey. pose proof Hp as [Hm [Hx Hy]]. rewrite <- Ex in Hx. rewrite <- Ey in Hy.
  assert (Hwx : word x) by (apply word_small; lia). assert (Hwy : word y) by (apply word_small; lia).
  unfold csi_erase_line. rewrite bind_fld. apply wp_bind, wp_esc; [done|lia|]. intros v _ _. destruct (v =? 0).
  { apply wp_bind. eapply wp_mono; [by apply w_blanks|]. intros [] s1 [Hm1 _]. by apply w_set_end. }
  destruct (v =? 1).
  { apply wp_bind, wp_set; [done|apply word_small; lia|done|]. intros s1 Hp1 _ A1. eapply wp_mono; [apply w_blanks_row; [done|lia|]|by intros [] s2 [? _]].
    rewrite A1. cbn. destruct (geom s Hm) as (_ & Ec & _). rewrite Ec, clamp_id by lia. lia. }
  destruct (v =? 2); cbn [when]; [|by apply wp_value].
  apply wp_bind, wp_set; [done|apply word_small; lia|done|]. intros s1 [Hm1 _] _ _. apply wp_bind. eapply wp_mono; [by apply w_blanks|].
  intros [] s2 [Hm2 _]. by apply w_set_end.
Qed.

Lemma w_mode_toggle c s : placed s -> wp (mode_toggle c s) ends.
Proof.
  intros Hp. unfold mode_toggle. rewrite bind_fld. destruct (_ =? 0); [done|]. destruct (set_or_reset c); [|done].
  apply wp_bind, wp_esc; [apply Hp|lia|]. intros v _ _. destruct (v =? 4); [|rewrite bind_fld; by apply w_callback].
  apply wp_upd_placed; [done|registers|by intros s' ? _ _].
Qed.

Lemma w_coordinate i limit s : mid s -> 0 <= i < 16 -> 1 <= limit < 2 ^ 31 -> wp (csi_coordinate i limit s) (fun v s' => mid s' /\ 0 <= v < limit).
Proof.
  intros Hm Hi Hl. destruct (esc_get i s Hm Hi) as (e & _ & _ & He). eapply wp_coordinate; [done|done|done|exact He|].
  intros s' Hm' _ _. split; [done|by apply coordinate_range].
Qed.

(** Comparisons of characters, evaluated. *)
Ltac dispatch :=
  repeat match goal with |- context [chr ?a =? chr ?b] => let v := eval vm_compute in (chr a =? chr b) in change (chr a =? chr b) with v end;
  cbn [orb andb negb]; cbv iota.

(** CUP: the row is read first, the column second. *)
Lemma wp_cup e0 e1 x y s (Q : unit -> S -> Prop) :
  mid s -> esc_values (tctx s) !! 0%nat = Some e0 -> esc_values (tctx s) !! 1%nat = Some e1 ->
  (forall s', placed s' -> (exists l, tctx s' = set_esc_values l (tctx s)) -> abs s' = move_to (coordinate C e1) (coordinate R e0) (abs s) -> Q tt s') ->
  wp (csi_final (chr "H") x y s) Q.
Proof.
  intros Hm He0 He1 HQ. unfold csi_final. rewrite !bind_fld. destruct (geom s Hm) as (-> & -> & _).
  pose proof (p_len _ _ _ (proj1 (proj2 Hm))) as Hlen. dispatch.
  apply wp_bind, wp_esc; [done|lia|]. intros v _ Hv. change (Z.to_nat 0) with 0%nat in Hv. assert (v = e0) as -> by congruence. clear Hv.
  apply wp_bind, wp_set_esc; [done|lia|]. intros s1 Hm1 E1 A1. change (Z.to_nat 0) with 0%nat in E1.
  apply wp_bind. eapply wp_coordinate; [done|lia|done| |].
  { rewrite E1. cbn. rewrite list_lookup_insert_ne by done. exact He1. }
  intros s2 Hm2 E2 A2. change (Z.to_nat 1) with 1%nat in E2. pose proof (coordinate_range C e1 HC) as Hc1.
  apply wp_bind, wp_esc; [done|lia|]. intros v Hv Hl. rewrite E2, E1 in Hl. cbn in Hl.
  rewrite list_lookup_insert_ne, list_lookup_insert_eq in Hl by (done || (rewrite ?length_insert; lia)). injection Hl as <-.
  rewrite !(wrap_small 32 (u32 (e0 - 1))) in * by (by apply wrap_range).
  pose proof (coordinate_range R e0 ltac:(lia)) as Hc0.
  assert (Hend : forall s3, mid s3 -> (exists l, tctx s3 = set_esc_values l (tctx s)) -> abs s3 = abs s ->
    esc_values (tctx s3) !! 0%nat = Some (coordinate R e0) -> wp (bind (esc 0) (fun v0 => set_cursor_pos (coordinate C e1) v0) s3) Q).
  { intros s3 Hm3 [l E3] A3 H3. apply wp_bind, wp_esc; [done|lia|]. intros v0 _ Hv0. change (Z.to_nat 0) with 0%nat in Hv0.
    assert (v0 = coordinate R e0) as -> by congruence. apply wp_set; [done|apply word_small; lia|apply word_small; lia|].
    intros s4 Hp4 E4 A4. apply HQ; [done|exists l; congruence|]. rewrite A4, A3. unfold clamped. destruct (geom s3 Hm3) as (-> & -> & _).
    by rewrite !clamp_id by lia. }
  assert (Hr : coordinate R e0 = if R <=? u32 (e0 - 1) then R - 1 else u32 (e0 - 1)) by done.
  destruct (Z.leb_spec R (u32 (e0 - 1))) as [Hge|Hlt]; cbn [when].
  - apply wp_bind, wp_set_esc; [done|lia|]. intros s3 Hm3 E3 A3. apply Hend; [done| |congruence|].
    + rewrite E3, E2, E1. by eexists.
    + rewrite E3. cbn. rewrite list_lookup_insert_eq by (rewrite E2, E1; cbn; rewrite !length_insert; lia). by rewrite Hr, wrap_small by lia.
  - apply wp_bind. apply wp_value. apply Hend; [done| |congruence|].
    + rewrite E2, E1. by eexists.
    + rewrite E2, E1. cbn. by rewrite list_lookup_insert_ne, list_lookup_insert_eq, Hr by (done || lia).
Qed.

Lemma w_report x y s : placed s ->
  wp ((let! v := esc 0 in
       if v =? 5 then call_back TERM_CB_STATUS_REPORT 0 (CbNum 0) 0
       else when (v =? 6) (call_back TERM_CB_POS_REPORT (u64 (x + 1)) (CbNum (u64 (y + 1))) 0)) s) ends.
Proof.
  intros Hp. apply wp_bind, wp_esc; [apply Hp|lia|]. intros v _ _. destruct (v =? 5); [by apply w_callback|].
  destruct (v =? 6); cbn [when]; [by apply w_callback|done].
Qed.

(** Forward and backward: the count is cut to the end of the line. *)
Lemma w_sideways b v' f y s : placed s -> (forall v, word (f v)) -> word y ->
  wp ((let! v := esc 0 in do! when (b v) (set_esc 0 v') in let! v := esc 0 in set_cursor_pos (f v) y) s) ends.
Proof.
  intros Hp Hf Hy. apply wp_bind, wp_esc; [apply Hp|lia|]. intros v _ _. apply wp_bind. eapply wp_mono; [apply w_when_set, Hp|].
  intros [] s1 Hm1. apply wp_bind, wp_esc; [done|lia|]. intros v1 _ _. by apply w_set_end.
Qed.

Lemma w_linux s : placed s -> wp (linux_private_parse s) ends.
Proof. intros Hp. unfold linux_private_parse. rewrite bind_fld. destruct (_ =? 0); [done|]. rewrite bind_fld. by apply w_callback. Qed.

Lemma w_save_cursor s : placed s ->
  wp ((let2! (sx, sy) := get_cursor_pos in do! upd (set_saved_cursor_x sx) in upd (set_saved_cursor_y sy)) s) ends.
Proof.
  intros Hp. pose proof (placed_inv s Hp) as Hi. rewrite (bind_Ret _ _ _ _ _ (law_get s Hi)). cbv beta iota. apply wp_bind.
  destruct (proj2 Hp) as [Hx Hy].
  apply wp_upd_placed; [done| |intros s1 Hp1 E1 A1; apply wp_upd_placed; [done| |by intros]]; registers; intuition (unfold word; lia).
Qed.

Lemma w_final c x y s :
  placed s -> x = cx (abs s) -> y = cy (abs s) -> c <> chr "r" -> (c = chr "m" -> Forall (fun v => v < 256) (esc_values (tctx s))) ->
  wp (csi_final c x y s) ends.
Proof.
  intros Hp Ex Ey Hr Hm. pose proof Hp as [Hmid [Hx Hy]]. pose proof Hmid as (_ & Hok & _). rewrite <- Ex in Hx. rewrite <- Ey in Hy.
  assert (Hwx : word x) by (apply word_small; lia). assert (Hwy : word y) by (apply word_small; lia).
  assert (Hat : at_ok R C x y) by done. assert (Hw0 : word 0) by (apply word_small; lia).
  unfold csi_final. rewrite !bind_fld. destruct (geom s Hmid) as (-> & -> & _).
  destruct (c =? chr "F"); [by apply w_up|]. destruct (c =? chr "A"); [by apply w_up|].
  destruct (c =? chr "E"); [by apply w_down|]. destruct (_ || _); [by apply w_down|].
  destruct (_ || _); [apply (w_sideways (fun v => _) _ (fun v => u64 (x + v))); [done|intros; apply word_u64|done]|].
  destruct (c =? chr "D"); [apply (w_sideways (fun v => _) _ (fun v => u64 (x - v))); [done|intros; apply word_u64|done]|].
  destruct (c =? chr "c"); [by apply w_callback|].
  destruct (c =? chr "d").
  { apply wp_bind. eapply wp_mono; [apply w_coordinate; [done|lia|lia]|]. intros v s1 [Hm1 Hv]. apply w_set_end; [done|done|apply word_small; lia]. }
  destruct (_ || _).
  { apply wp_bind. eapply wp_mono; [apply w_coordinate; [done|lia|lia]|]. intros v s1 [Hm1 Hv]. apply w_set_end; [done|apply word_small; lia|done]. }
  destruct (_ || _).
  { destruct (esc_get 0 s Hmid ltac:(lia)) as (e0 & _ & _ & He0). destruct (esc_get 1 s Hmid ltac:(lia)) as (e1 & _ & _ & He1).
    pose proof (wp_cup e0 e1 x y s ends Hmid He0 He1 ltac:(by intros)) as Hcup. unfold csi_final in Hcup. rewrite !bind_fld in Hcup.
    destruct (geom s Hmid) as (-> & -> & _) in Hcup. exact Hcup. }
  destruct (c =? chr "n"); [by apply w_report|].
  destruct (c =? chr "q"). { apply wp_bind, wp_esc; [done|lia|]. intros v _ _. by apply w_callback. }
  destruct (c =? chr "J"); [by apply w_erase_display|]. destruct (c =? chr "@"); [by apply w_insert|].
  destruct (c =? chr "P"); [by apply w_delete|]. destruct (c =? chr "X"); [by apply w_erase_chars|].
  destruct (Z.eqb_spec c (chr "m")) as [Em|]. { eapply wp_mono; [apply w_sgr; [done|by apply Hm]|]. by intros [] s1 [? _]. }
  destruct (c =? chr "s"); [by apply w_save_cursor|].
  destruct (c =? chr "u"). { rewrite !bind_fld. destruct (p_saved _ _ _ Hok). by apply w_set_end. }
  destruct (c =? chr "K"); [by apply w_erase_line|].
  destruct (Z.eqb_spec c (chr "r")); [done|]. destruct (_ || _); [by apply w_mode_toggle|].
  destruct (c =? chr "]"); cbn [when]; [by apply w_linux|done].
Qed.

(** ** Bytes *)
Definition fine (_ : unit) (s' : S) : Prop := good s'.

Lemma good_upd f s (Q : unit -> S -> Prop) :
  good s -> parser_ok R C (f (tctx s)) -> scroll_enabled (f (tctx s)) = scroll_enabled (tctx s) ->
  (forall s', good s' -> tctx s' = f (tctx s) -> abs s' = abs s -> Q tt s') -> wp (upd f s) Q.
Proof.
  intros [Hp Hs] Hf Es HQ. apply wp_upd_placed; [done|done|]. intros s' Hp' Et Ea. apply HQ; [|done|done]. split; [done|]. by rewrite Et, Es.
Qed.

Ltac set_field :=
  lazymatch goal with
  | Hg : good ?s |- wp (upd _ ?s) _ => apply good_upd; [exact Hg|let Hp := fresh in pose proof (proj1 Hg) as Hp; registers|reflexivity|]
  end.

Lemma w_cleanup s : good s -> wp (cleanup s) fine.
Proof. intros Hg. unfold cleanup. apply wp_bind. set_field. intros s1 Hg1 _ _. set_field. by intros. Qed.

Lemma good_callback kind a b c s : good s -> wp (call_back kind a b c s) fine.
Proof.
  intros [Hp Hs]. unfold call_back. destruct callback as [f|] eqn:Ef; [|done].
  eapply placed_acts; [apply (law_callback f kind a b c s Ef), placed_inv; exact Hp|done|done|done|done|]. intros s' ? E. split; [done|congruence].
Qed.

Lemma w_dec c s : good s -> wp (dec_private_parse c s) fine.
Proof.
  intros Hg. unfold dec_private_parse. apply wp_bind. set_field. intros s1 Hg1 _ _. rewrite bind_fld.
  destruct (_ =? 0); [done|]. destruct (set_or_reset c) as [on|]; [|done]. apply wp_bind, wp_esc; [apply Hg1|lia|]. intros v _ _.
  destruct (v =? 25); [|rewrite bind_fld; by apply good_callback]. pose proof (placed_inv s1 (proj1 Hg1)) as Hi. destruct on.
  - eapply placed_acts; [by apply law_enable|apply Hg1|done..|]. intros s2 Hp2 E2. split; [done|]. rewrite E2. apply Hg1.
  - destruct (law_disable s1 Hi) as (b & s2 & E & Hi2 & Et & Ea). rewrite (bind_Ret _ _ _ _ _ E). apply wp_value.
    destruct Hg1 as [[(_ & Hok & Hsv) Hat] Hs]. unfold fine, good, placed, mid. rewrite Et, Ea. by split_and!.
Qed.

Lemma w_defaults n d s (P : Z -> Prop) :
  good s -> 0 <= n -> P d -> u32 d = d -> Forall P (esc_values (tctx s)) ->
  wp (for_range n TERM_MAX_ESC_VALUES (fun i => set_esc i d) s) (fun _ s' => good s' /\ abs s' = abs s /\ exists l, tctx s' = set_esc_values l (tctx s) /\ Forall P l).
Proof.
  intros Hg Hn Hd Ed HP. eapply wp_mono; [apply (wp_for_same (fun s' => good s' /\ abs s' = abs s /\ exists l, tctx s' = set_esc_values l (tctx s) /\ Forall P l))|done].
  { split_and!; [done|done|]. exists (esc_values (tctx s)). by destruct (tctx s). }
  intros j s1 Hj (Hg1 & A1 & l & E1 & Hl). apply wp_set_esc; [apply Hg1|unfold TERM_MAX_ESC_VALUES in Hj; lia|]. intros s2 Hm2 E2 A2. split_and!.
  - split; [split; [done|rewrite A2; apply Hg1]|]. rewrite E2. apply Hg1.
  - congruence.
  - exists (<[Z.to_nat j := u32 d]> l). rewrite E2, E1. split; [done|]. apply Forall_insert; [done|]. by rewrite Ed.
Qed.

(** Bytes that the parser does not survive, or that change the scroll region. *)
Definition hostile (t : term_context) (c : Z) : bool :=
  escape t && control_sequence t && ((c =? chr "r") || ((c =? chr "m") && existsb (fun v => 256 <=? v) (esc_values t))).

Definition tame (t : term_context) (c : Z) : Prop := c <> chr "r" /\ (c = chr "m" -> Forall (fun v => v < 256) (esc_values t)).

Lemma hostile_tame t c : hostile t c = false -> escape t = true -> control_sequence t = true -> tame t c.
Proof.
  unfold hostile. intros Hh E1 E2. rewrite E1, E2 in Hh. cbn in Hh. apply orb_false_iff in Hh as [Hr Hm]. split; [by apply Z.eqb_neq|]. intros ->.
  rewrite Z.eqb_refl in Hm. apply Forall_forall. intros v Hv. destruct (Z.lt_ge_cases v 256) as [|Hge]; [done|].
  assert (Ht : existsb (fun v => 256 <=? v) (esc_values t) = true); [|cbn in Hm; congruence].
  apply existsb_exists. exists v. split; [by apply list_elem_of_In|by apply Z.leb_le].
Qed.

Lemma w_execute c s : good s -> tame (tctx s) c -> wp (csi_execute c s) fine.
Proof.
  intros Hg [Hr Hm]. unfold csi_execute. rewrite bind_fld. apply wp_bind.
  pose proof (p_i _ _ _ (proj1 (proj2 (proj1 (proj1 Hg))))) as Hi.
  eapply wp_mono; [apply (w_defaults _ (esc_default c) s (fun v => c = chr "m" -> v < 256)); [done|lia| | |]|].
  { unfold esc_default. intros. destruct (_ || _); lia. }
  { unfold esc_default. by destruct (_ || _). }
  { destruct (decide (c = chr "m")) as [Em|]; [eapply Forall_impl; [by apply Hm|done]|]. apply Forall_forall. by intros. }
  intros [] s1 (Hg1 & A1 & l & E1 & Hl). rewrite bind_fld. destruct (dec_private _).
  { apply wp_bind. eapply wp_mono; [by apply w_dec|]. intros [] s2 Hg2. by apply w_cleanup. }
  rewrite bind_fld. rewrite (proj2 Hg1). pose proof (proj1 Hg1) as Hp1. apply wp_bind, wp_upd_placed; [done|registers|]. intros s2 Hp2 E2 A2.
  rewrite (bind_Ret _ _ _ _ _ (law_get s2 (placed_inv _ Hp2))). cbv beta iota. apply wp_bind.
  eapply wp_mono; [apply w_final; [done|done|done|done|]|].
  { intros Em. rewrite E2, E1. cbn. eapply Forall_impl; [exact Hl|]. cbn. by auto. }
  intros [] s3 Hp3. unfold ends in Hp3. apply wp_bind, wp_upd_placed; [done|registers|]. intros s4 Hp4 E4 _. apply w_cleanup. split; [done|by rewrite E4].
Qed.

Lemma good_set_esc i v s (Q : unit -> S -> Prop) :
  good s -> 0 <= i < 16 ->
  (forall s', good s' -> tctx s' = set_esc_values (<[Z.to_nat i := u32 v]> (esc_values (tctx s))) (tctx s) -> abs s' = abs s -> Q tt s') -> wp (set_esc i v s) Q.
Proof.
  intros Hg Hi HQ. apply wp_set_esc; [apply Hg|done|]. intros s' Hm Et Ea. apply HQ; [|done|done].
  split; [split; [done|rewrite Ea; apply Hg]|]. rewrite Et. apply Hg.
Qed.

(** Two assignments, of which only the pair keeps the registers in range. *)
Lemma good_upd2 f g (k : K S unit) s (Q : unit -> S -> Prop) :
  good s -> same_size (f (tctx s)) (tctx s) -> parser_ok R C (g (f (tctx s))) -> scroll_enabled (g (f (tctx s))) = scroll_enabled (tctx s) ->
  (forall s', good s' -> tctx s' = g (f (tctx s)) -> abs s' = abs s -> wp (k s') Q) -> wp ((do! upd f in do! upd g in k) s) Q.
Proof.
  intros [[(Hi & Hp & Hs) Hat] Hse] Hf Hp' Es HQ. destruct (law_tctx (f (tctx s)) s Hi Hf) as (Hi1 & A1 & E1).
  set (s1 := set_tctx (f (tctx s)) s) in *. destruct (law_tctx (g (tctx s1)) s1 Hi1) as (Hi2 & A2 & E2).
  { unfold same_size. rewrite E1. destruct Hf as [Hf1 Hf2]. rewrite Hf1, Hf2, (p_rows _ _ _ Hp), (p_cols _ _ _ Hp), (p_rows _ _ _ Hp'), (p_cols _ _ _ Hp'). done. }
  change (wp (k (set_tctx (g (tctx s1)) s1)) Q). rewrite E1 in Hi2, A2, E2 |- *. apply HQ; [|done|congruence].
  unfold good, placed, mid. rewrite E2, A2, A1. split_and!; first [done|congruence|apply Hat|apply Hs].
Qed.

Lemma w_sequence c s : good s -> tame (tctx s) c -> wp (control_sequence_parse c s) fine.
Proof.
  intros Hg Ht. pose proof (proj1 (proj2 (proj1 (proj1 Hg)))) as Hok. pose proof (p_i _ _ _ Hok) as Hi. pose proof (p_rrr _ _ _ Hok) as Hrr.
  unfold control_sequence_parse. rewrite bind_fld.
  destruct (_ && _); [apply wp_bind; set_field; intros s1 Hg1 _ _; by apply w_cleanup|].
  destruct (_ && _); [set_field; by intros|]. rewrite bind_fld. unfold TERM_MAX_ESC_VALUES. destruct (is_digit c).
  { destruct (Z.eqb_spec (esc_values_i (tctx s)) 16); [done|]. apply wp_bind. set_field. intros s1 Hg1 _ _.
    apply wp_bind, wp_esc; [apply Hg1|lia|]. intros v _ _. apply wp_bind, good_set_esc; [done|lia|]. intros s2 Hg2 _ _.
    apply wp_bind, wp_esc; [apply Hg2|lia|]. intros v2 _ _. apply good_set_esc; [done|lia|]. by intros. }
  rewrite bind_fld. destruct (rrr (tctx s)) eqn:Er.
  { specialize (Hrr eq_refl). apply good_upd2; [done|done| |done|].
    - pose proof (proj1 Hg) as Hp. registers; rewrite wrap_small by lia; lia.
    - intros s1 Hg1 E1 _. destruct (_ =? _); [done|]. apply w_execute; [done|]. rewrite E1. exact Ht. }
  destruct (_ =? _); [|by apply w_execute]. destruct (Z.eqb_spec (esc_values_i (tctx s)) 16); [done|].
  apply wp_bind, good_set_esc; [done|lia|]. intros s1 Hg1 E1 _. apply good_upd; [done| |done|by intros].
  pose proof (proj1 Hg1) as Hp1. assert (Er1 : rrr (tctx s1) = false) by (rewrite E1; done).
  registers; rewrite ?wrap_small by lia; [lia|]. rewrite Er1. done.
Qed.

(** Callbacks between two bytes. *)
Lemma good_set x y s (Q : unit -> S -> Prop) :
  good s -> word x -> word y ->
  (forall s', good s' -> tctx s' = tctx s -> abs s' = clamped (tctx s) x y (abs s) -> Q tt s') -> wp (set_cursor_pos x y s) Q.
Proof.
  intros Hg Hx Hy HQ. apply wp_set; [apply Hg|done|done|]. intros s' Hp' Et Ea. apply HQ; [|done|done]. split; [done|]. rewrite Et. apply Hg.
Qed.

Lemma good_acts c s g (Q : unit -> S -> Prop) :
  acts inv abs c s g -> good s -> at_ok R C (saved (g (abs s))).1.1 (saved (g (abs s))).1.2 -> at_ok R C (cx (g (abs s))) (cy (g (abs s))) ->
  (forall s', good s' -> tctx s' = tctx s -> abs s' = g (abs s) -> Q tt s') -> wp (c s) Q.
Proof.
  intros (s' & E & Hi & Et & Ea) [[(_ & Hok & _) _] Hs] Hsv Hat HQ. rewrite E. apply HQ; [|done|done].
  unfold good, placed, mid. rewrite Et, Ea. by split_and!.
Qed.

Lemma good_put c s (Q : unit -> S -> Prop) :
  good s -> 0 <= c < 256 ->
  (forall s', good s' -> tctx s' = tctx s -> abs s' = type_char (tctx s) c (abs s) -> Q tt s') -> wp (raw_putchar c s) Q.
Proof.
  intros Hg Hc HQ. pose proof Hg as [[(Hi & Hok & Hs) Hat] Hse]. eapply good_acts; [apply law_putchar; [done|by eapply parser_margins|done]|done| |by apply type_char_cursor|done].
  by rewrite type_char_saved.
Qed.

Lemma good_words s : good s -> word (cx (abs s)) /\ word (cy (abs s)).
Proof. intros [[_ [Hx Hy]] _]. unfold word. lia. Qed.

Lemma good_geom s : good s -> rows (tctx s) = R /\ cols (tctx s) = C /\ scroll_top_margin (tctx s) = 0 /\ scroll_bottom_margin (tctx s) = R.
Proof. intros [[Hm _] _]. by apply geom. Qed.

Lemma good_margins s : good s -> margins_ok (tctx s).
Proof. intros [[(_ & Hok & _) _] _]. by eapply parser_margins. Qed.

Lemma good_inv s : good s -> inv s.
Proof. by intros [[(? & _) _] _]. Qed.

(** The screen after a line feed to column [x]. *)
Definition fed (x : Z) (a : screen) (t : term_context) : screen :=
  if cy a =? R - 1 then move_to x (R - 1) (scroll_up t a) else move_to x (cy a + 1) a.

Lemma good_line_feed x s (Q : unit -> S -> Prop) :
  good s -> 0 <= x < C -> (forall s', good s' -> tctx s' = tctx s -> abs s' = fed x (abs s) (tctx s) -> Q tt s') ->
  wp (line_feed x (cy (abs s)) s) Q.
Proof.
  intros Hg Hx HQ. unfold line_feed. rewrite bind_fld. destruct (good_geom s Hg) as (Er & Ec & _ & ->). rewrite wrap_small by lia.
  destruct (proj2 (proj1 Hg)) as [Hcx Hcy]. destruct (good_words s Hg) as [Hwx Hwy]. assert (Hw : word x) by (apply word_small; lia).
  unfold fed in HQ. destruct (Z.eqb_spec (cy (abs s)) (R - 1)) as [Ey|Hne].
  - apply wp_bind. eapply good_acts; [apply law_scroll; [by apply good_inv|by apply good_margins]|done|apply Hg|apply Hg|]. intros s1 Hg1 E1 A1.
    apply good_set; [done|done|done|]. intros s2 Hg2 E2 A2. apply HQ; [done|congruence|]. rewrite A2, A1, E1. unfold clamped. rewrite Er, Ec.
    by rewrite Ey, !clamp_id by lia.
  - rewrite wrap_small by lia. apply good_set; [done|done|apply word_small; lia|]. intros s1 Hg1 E1 A1. apply HQ; [done|done|]. rewrite A1. unfold clamped.
    by rewrite Er, Ec, !clamp_id by lia.
Qed.

Lemma w_save s : good s -> wp (save_state s) fine.
Proof.
  intros Hg. unfold save_state. apply wp_bind. eapply good_acts; [by apply law_save, good_inv|done|apply Hg|apply Hg|]. intros s1 Hg1 _ _.
  do 3 (apply wp_bind; set_field; intros ? ? _ _). set_field. by intros.
Qed.

Lemma w_restore s : good s -> wp (restore_state s) fine.
Proof.
  intros Hg. unfold restore_state. apply wp_bind. set_field. intros s1 Hg1 _ _. apply wp_bind. set_field. intros s2 Hg2 _ _.
  apply wp_bind. set_field. intros s3 Hg3 _ _. apply wp_bind. set_field. intros s4 Hg4 _ _.
  eapply good_acts; [by apply law_restore, good_inv|done|apply Hg4|apply Hg4|by intros].
Qed.

Lemma w_reset s : good s -> wp ((do! term_context_reinit in clear true) s) fine.
Proof.
  intros Hg. unfold term_context_reinit. apply wp_bind. apply good_upd; [done| |by rewrite (proj2 Hg)|].
  - pose proof (proj1 Hg) as Hp. registers. by right.
  - intros s1 Hg1 _ _. eapply good_acts; [by apply law_clear, good_inv|done|apply Hg1|cbn; unfold at_ok; lia|by intros].
Qed.

Lemma w_reverse_feed s : good s ->
  wp ((let! top := fld scroll_top_margin in
       if cy (abs s) =? top then do! revscroll in set_cursor_pos 0 (cy (abs s)) else set_cursor_pos 0 (u64 (cy (abs s) - 1))) s) fine.
Proof.
  intros Hg. rewrite bind_fld. destruct (good_words s Hg) as [Hwx Hwy]. destruct (_ =? _).
  - apply wp_bind. eapply good_acts; [apply law_revscroll; [by apply good_inv|by apply good_margins]|done|apply Hg|apply Hg|]. intros s1 Hg1 _ _.
    apply good_set; [done|apply word_small; lia|done|by intros].
  - apply good_set; [done|apply word_small; lia|apply word_u64|by intros].
Qed.

Lemma w_enter s : good s -> wp (enter_csi s) fine.
Proof.
  intros Hg. unfold enter_csi. apply wp_bind. eapply wp_mono; [apply (w_defaults 0 0 s (fun _ => True)); [done|lia|done|done|by apply Forall_forall]|].
  intros [] s1 (Hg1 & _ & _). apply wp_bind. set_field. intros s2 Hg2 _ _. apply wp_bind. set_field. intros s3 Hg3 _ _. set_field. by intros.
Qed.

Lemma w_escape c s : good s -> 0 <= c < 256 -> (control_sequence (tctx s) = true -> tame (tctx s) c) -> wp (escape_parse c s) fine.
Proof.
  intros Hg Hc Ht. unfold escape_parse. apply wp_bind. set_field. intros s1 Hg1 E1 A1. rewrite bind_fld.
  destruct (control_sequence (tctx s1)) eqn:Es.
  { apply w_sequence; [done|]. rewrite E1 in Es |- *. by apply Ht. }
  rewrite bind_fld. destruct (csi _). { apply wp_bind. set_field. intros s2 Hg2 _ _. by apply w_enter. }
  rewrite (bind_Ret _ _ _ _ _ (law_get s1 (good_inv _ Hg1))). cbv beta iota. destruct (c =? chr "["); [by apply w_enter|].
  apply wp_bind. apply (wp_mono _ fine); [|intros [] s2 Hg2; unfold fine in Hg2; set_field; by intros].
  destruct (proj2 (proj1 Hg1)) as [Hx Hy].
  destruct (c =? chr "7"); [by apply w_save|]. destruct (c =? chr "8"); [by apply w_restore|]. destruct (c =? chr "c"); [by apply w_reset|].
  destruct (c =? chr "D"); [apply good_line_feed; [done|done|by intros]|]. destruct (c =? chr "E"); [apply good_line_feed; [done|lia|by intros]|].
  destruct (c =? chr "M"); [by apply w_reverse_feed|]. destruct (c =? chr "Z"); [by apply good_callback|].
  destruct ((c =? chr "(") || (c =? chr ")")) eqn:Eg.
  { apply good_upd; [done| |done|by intros]. pose proof (proj1 Hg1) as Hp1. change (chr "'") with 39. registers.
    apply orb_true_iff in Eg. rewrite !Z.eqb_eq in Eg. change (chr "(") with 40 in Eg. change (chr ")") with 41 in Eg. lia. }
  destruct (c =? 27); [|done]. rewrite bind_fld. destruct (in_bootloader _); cbn [when]; [|done]. apply good_put; [done|done|by intros].
Qed.

Lemma good_move a b c d s : good s -> 0 <= a -> 0 <= b -> 0 <= c -> 0 <= d -> wp (move_character a b c d s) (fun _ s' => good s' /\ tctx s' = tctx s).
Proof.
  intros Hg ????. assert (Hsame : forall a', cx (copy_cell (tctx s) a b c d a') = cx a' /\ cy (copy_cell (tctx s) a b c d a') = cy a' /\ saved (copy_cell (tctx s) a b c d a') = saved a').
  { intros a'. unfold copy_cell. destruct (_ && _); [|done]. destruct (put_cell_same (tctx s) (cell a' (c + d * cols (tctx s))) a b a') as (? & ? & ? & _). done. }
  destruct (Hsame (abs s)) as (Ex & Ey & Es). eapply good_acts; [apply law_move; [by apply good_inv|done..]|done| | |by intros s' ???].
  - rewrite Es. apply Hg.
  - rewrite Ex, Ey. apply Hg.
Qed.

Lemma cp437_range c : 0 <= c < 256 -> 0 <= dec_special_to_cp437 c < 256.
Proof.
  intros Hc. unfold dec_special_to_cp437. destruct (list_find _ _) as [[i [k g]]|] eqn:E; [|done]. apply list_find_Some in E as (Hl & _ & _).
  assert (Hall : Forall (fun p => 0 <= p.2 < 256) dec_special_table) by (by apply (bool_decide_unpack _); vm_compute).
  exact (Forall_lookup_1 _ _ _ _ Hall Hl).
Qed.

(** The glyph a byte prints. *)
Definition glyph_code (t : term_context) (c : Z) : Z :=
  if default 0 (charsets t !! Z.to_nat (current_charset t)) =? CHARSET_DEC_SPECIAL then dec_special_to_cp437 c else c.

Lemma glyph_range t c : 0 <= c < 256 -> 0 <= glyph_code t c < 256.
Proof. intros Hc. unfold glyph_code. destruct (_ =? _); [by apply cp437_range|done]. Qed.

Lemma wp_print c s (Q : unit -> S -> Prop) :
  good s -> 0 <= c < 256 -> (insert_mode (tctx s) = true -> forall s', good s' -> Q tt s') ->
  (forall s', good s' -> tctx s' = tctx s -> abs s' = type_char (tctx s) (glyph_code (tctx s) c) (abs s) -> Q tt s') ->
  wp (term_print c (cx (abs s)) (cy (abs s)) s) Q.
Proof.
  intros Hg Hc Hins HQ. unfold term_print. rewrite !bind_fld. destruct (good_geom s Hg) as (_ & -> & _). apply wp_bind.
  assert (Hrest : forall s1, good s1 -> tctx s1 = tctx s -> (forall s', good s' -> tctx s' = tctx s -> abs s' = type_char (tctx s) (glyph_code (tctx s) c) (abs s1) -> Q tt s') ->
    wp ((let! cur := fld current_charset in let! cs := charset cur in raw_putchar (if cs =? CHARSET_DEC_SPECIAL then dec_special_to_cp437 c else c)) s1) Q).
  { intros s1 Hg1 E1 H1. rewrite bind_fld. unfold charset. apply wp_bind. rewrite bind_fld, E1. pose proof (proj1 (proj2 (proj1 (proj1 Hg)))) as Hok.
    pose proof (p_charset _ _ _ Hok) as Hcc. pose proof (p_sets _ _ _ Hok) as Hcl.
    destruct (lookup_lt_is_Some_2 (charsets (tctx s)) (Z.to_nat (current_charset (tctx s)))) as [v Hv]; [lia|].
    rewrite (at_index_eq _ _ v) by (done || lia). apply wp_value. unfold glyph_code in H1. rewrite Hv in H1. cbn [default] in H1. rewrite <- E1 in H1.
    apply good_put; [done|destruct (_ =? _); [by apply cp437_range|done]|]. done. }
  destruct (proj2 (proj1 Hg)) as [Hx Hy]. destruct (insert_mode (tctx s)); cbn [when]; [|apply wp_value; by apply Hrest].
  rewrite wrap_small by lia. eapply wp_mono; [apply (wp_down_to (fun _ s' => good s' /\ tctx s' = tctx s)); [lia|lia|lia|done|]|].
  - intros j s1 Hj [Hg1 E1]. eapply wp_mono; [apply good_move; try lia; [done|apply word_u64]|]. intros [] s2 [Hg2 E2]. split; [done|congruence].
  - intros [] s1 [Hg1 E1]. apply Hrest; [done|done|]. intros s2 Hg2 _ _. by apply Hins.
Qed.

Lemma w_select c s : good s -> g_select (tctx s) <> 0 -> wp (select_charset c s) fine.
Proof.
  intros Hg Hne. pose proof (p_g _ _ _ (proj1 (proj2 (proj1 (proj1 Hg))))) as Hgs. unfold select_charset. apply wp_bind. set_field.
  intros s1 Hg1 E1 _. rewrite !bind_fld. pose proof (p_sets _ _ _ (proj1 (proj2 (proj1 (proj1 Hg1))))) as Hl. apply wp_bind.
  assert (Hgs1 : 0 <= g_select (tctx s1) <= 1) by (rewrite E1; cbn; lia).
  apply (wp_mono _ fine); [|intros [] s2 Hg2; unfold fine in Hg2; set_field; by intros].
  destruct (_ || _); [|done]. rewrite in_array_eq by lia. apply good_upd; [done| |done|by intros].
  pose proof (proj1 Hg1) as Hp1. registers. by rewrite length_insert.
Qed.

(** One byte. *)
Lemma w_putchar c s : good s -> 0 <= c < 256 -> hostile (tctx s) c = false -> wp (term_putchar c s) fine.
Proof.
  intros Hg Hc Hh. unfold term_putchar. rewrite bind_fld. cbv beta. destruct (_ || _).
  { do 4 (apply wp_bind; set_field; intros ? ? _ _). set_field. by intros. }
  destruct (escape (tctx s)) eqn:Ee. { apply w_escape; [done|done|]. intros. by apply hostile_tame. }
  destruct (Z.eqb_spec (g_select (tctx s)) 0) as [|Hne]; cbn [negb]; [|by apply w_select].
  rewrite (bind_Ret _ _ _ _ _ (law_get s (good_inv _ Hg))). cbv beta iota. destruct (good_words s Hg) as [Hwx Hwy].
  assert (Hw0 : word 0) by (apply word_small; lia).
  destruct (_ || _); [done|]. destruct (_ || _).
  { apply wp_bind. apply (wp_mono _ fine).
    - destruct (c =? 0x9b); cbn [when]; [|done]. set_field. by intros.
    - intros [] s1 Hg1. unfold fine in Hg1. apply wp_bind. set_field. intros s2 Hg2 _ _. set_field. by intros. }
  destruct (c =? 9). { cbv zeta. destruct (_ <=? _); (apply good_set; [done|apply word_u64|done|by intros]). }
  destruct (_ || _). { apply good_line_feed; [done|lia|by intros]. }
  destruct (c =? 8). { apply good_set; [done|apply word_u64|done|by intros]. }
  destruct (c =? 13). { apply good_set; [done|done|done|by intros]. }
  destruct (c =? 7); [by apply good_callback|]. destruct (c =? 14); [set_field; by intros|]. destruct (c =? 15); [set_field; by intros|].
  apply wp_print; [done|done|by intros|by intros].
Qed.

(** ** Streams *)

(** A stream is survived up to its first hostile byte. *)
Lemma w_stream l s :
  good s -> Forall (fun c => 0 <= c < 256) l ->
  (exists s', for_each l (fun c => term_putchar (u8 c)) s = Ret tt s' /\ good s') \/
  (exists l1 c l2 s', l = l1 ++ c :: l2 /\ for_each l1 (fun c => term_putchar (u8 c)) s = Ret tt s' /\ good s' /\ hostile (tctx s') c = true).
Proof.
  revert s. induction l as [|c l IH]; intros s Hg Hl; [left; by exists s|]. apply Forall_cons in Hl as [Hc Hl].
  destruct (hostile (tctx s) c) eqn:Hh; [right; by exists [], c, l, s|]. pose proof (w_putchar c s Hg Hc Hh) as Hw.
  destruct (term_putchar c s) as [[] s1| | |] eqn:E1; try done.
  assert (Hstep : forall l, for_each (c :: l) (fun c => term_putchar (u8 c)) s = for_each l (fun c => term_putchar (u8 c)) s1).
  { intros l0. cbn [for_each]. rewrite (wrap_small 8) by lia. by rewrite (bind_Ret _ _ _ _ _ E1). }
  destruct (IH s1 Hw Hl) as [(s2 & E2 & Hg2)|(l1 & d & l2 & s2 & -> & E2 & Hg2 & Hd)].
  - left. exists s2. by rewrite Hstep.
  - right. exists (c :: l1), d, l2, s2. by rewrite Hstep.
Qed.

Lemma w_flush s : good s -> wp ((let! auto := fld autoflush in when auto double_buffer_flush) s) (fun _ s' => good s' /\ abs s' = abs s).
Proof.
  intros Hg. rewrite bind_fld. destruct (autoflush _); cbn [when]; [|done]. destruct (good_geom s Hg) as (Er & Ec & _).
  eapply good_acts; [apply law_flush; [by apply good_inv|]|done|apply Hg|apply Hg|by intros]. unfold on_screen. rewrite Er, Ec. apply Hg.
Qed.
End parser.
End TermSpec.
