(* ===== verification/FbBoot.v ===== *)
(** How a framebuffer terminal comes up: [fbterm_init] with the built-in font,
    then [clear] and [full_refresh], as [src/src/kernel.c] calls them. *)
From Stdlib Require Import Ascii.
From S2P Require Import Prelude CString Printf Font Term Framebuffer FbInit TermScreen FramebufferSpec FbPixels FbBackend TermSpec.

Module FbBoot.
Import FramebufferSpec FbPixels FbBackend TermSpec.

(** * Refreshing *)
Section refresh.
Context (s : fbterm_context) (Hok : fb_ok s) (Hq : queue_i s = 0) (Hold : old_cursor_x s = cursor_x s /\ old_cursor_y s = cursor_y s).
Local Abbreviation C := (cols (term s)).
Local Abbreviation R := (rows (term s)).

(** An empty queue has an empty map. *)
Lemma map_empty i : cell_set s i -> fbmap s !! Z.to_nat i = Some QNull.
Proof.
  intros Hi. destruct (map_get _ _ (fo_queue _ Hok) i Hi) as [Hm|[k Hm]]; [done|].
  destruct (ok_slot _ _ _ _ _ _ (fo_queue _ Hok) _ _ Hm) as [Hk _]. lia.
Qed.

Lemma view_grid : view s = grid s.
Proof.
  pose proof (ok_grid _ _ _ _ _ _ (fo_queue _ Hok)) as Hg. pose proof (view_length _ _ (fo_queue _ Hok)) as Hv.
  apply list_eq. intros i. destruct (decide (i < length (grid s))%nat) as [Hi|]; [|rewrite !lookup_ge_None_2; [done|lia|unfold view; lia]].
  assert (Hc : cell_set s (Z.of_nat i)) by (unfold cell_set; lia). pose proof (map_empty _ Hc) as Hm.
  destruct (grid_get _ _ (fo_queue _ Hok) _ Hc) as (c & Hgc & _). rewrite Nat2Z.id in *. rewrite Hgc. unfold view, view_of.
  rewrite lookup_zip_with, Hm. cbn. by rewrite Hgc.
Qed.

Lemma fb_any fb : fb_ok (set_framebuffer fb s) /\ fb_abs (set_framebuffer fb s) = fb_abs s /\ term (set_framebuffer fb s) = term s.
Proof. destruct Hok. by split_and!. Qed.

Lemma cursor_on : 0 <= cursor_x s < C /\ 0 <= cursor_y s < R.
Proof. pose proof (fo_old _ Hok). destruct Hold. lia. Qed.

Lemma canvas_copied : wp (for_range 0 (height (fixed s)) (fun y => for_range 0 (width (fixed s)) (fun x =>
  let! v := array_get (fun s => canvas (fixed s)) (y * width (fixed s) + x) in pixel_set (y * (pitch (fixed s) / 4) + x) v)) s)
  (fun _ s' => exists fb, s' = set_framebuffer fb s).
Proof.
  destruct (fo_fixed _ Hok). apply wp_for_same; [exists (framebuffer s); by destruct s|]. intros y s1 Hy H1.
  apply wp_for_same; [done|]. intros x s2 Hx [fb ->].
  destruct (lookup_lt_is_Some_2 (canvas (fixed s)) (Z.to_nat (y * width (fixed s) + x))) as [v Hv]; [nia|].
  rewrite (bind_Ret _ _ _ _ _ (array_get_eq (fun s => canvas (fixed s)) (y * width (fixed s) + x) v (set_framebuffer fb s) ltac:(nia) Hv)).
  unfold pixel_set. cbn [fixed set_framebuffer]. rewrite (proj2 (Z.leb_le 0 _)), (proj2 (Z.ltb_lt _ _)) by nia. by exists (<[y * (pitch (fixed s) / 4) + x := v]> fb).
Qed.

Lemma grid_plotted fb0 : wp (for_range 0 (u64 (R * C)) (fun i => let! c := array_get grid i in plot_char c (i mod C) (i / C)) (set_framebuffer fb0 s))
  (fun _ s' => exists fb, s' = set_framebuffer fb s /\ forall i c, cell_set s i -> grid s !! Z.to_nat i = Some c -> shows s fb i c).
Proof.
  destruct (fo_size _ Hok) as [HR HC]. rewrite wrap_small by nia.
  eapply wp_mono; [apply (wp_for_range (fun j s' => exists fb, s' = set_framebuffer fb s /\
    forall i c, 0 <= i < j -> grid s !! Z.to_nat i = Some c -> shows s fb i c)); [nia| |]|].
  - exists fb0. split; [done|]. lia.
  - intros j s1 Hj (fb & -> & Hfb). assert (Hcell : cell_set s j) by done.
    destruct (grid_get _ _ (fo_queue _ Hok) j Hj) as (c & Hg & Hc).
    rewrite (bind_Ret _ _ _ _ _ (array_get_eq grid j c (set_framebuffer fb s) ltac:(lia) Hg)).
    destruct (plot_cell s Hok fb (grid s) (fbmap s) j c (j mod C) (j / C) Hcell eq_refl eq_refl Hc) as (fb' & E & Hs & Ho).
    assert (Ew : forall fb, with_ s fb (grid s) (fbmap s) = set_framebuffer fb s) by (by destruct s). rewrite !Ew in E. rewrite E. exists fb'. split; [done|].
    intros i c' Hi Hgi. destruct (decide (i = j)) as [->|]; [by simplify_eq|]. apply Ho; [unfold cell_set; lia|done|]. apply Hfb; [lia|done].
  - intros [] s1 (fb & -> & Hfb). exists fb. split; [done|]. intros i c Hi. by apply Hfb.
Qed.

Lemma cursor_drawn fb0 : (forall i c, cell_set s i -> grid s !! Z.to_nat i = Some c -> shows s fb0 i c) ->
  wp (when (cursor_status s) draw_cursor (set_framebuffer fb0 s)) (fun _ s' => exists fb, s' = set_framebuffer fb s /\
    forall i, cell_set s i -> shows s fb i (shown_at s i)).
Proof.
  intros Hg. set (s0 := set_framebuffer fb0 s). assert (Hok0 : fb_ok s0) by apply fb_any.
  assert (Hvw : forall i, cell_set s i -> exists c, grid s !! Z.to_nat i = Some c /\ vw s i = c /\ char_ok c).
  { intros i Hi. destruct (grid_get _ _ (fo_queue _ Hok) i Hi) as (c & Hc & Hcc). exists c. split_and!; [done| |done]. apply vw_lookup. by rewrite view_grid. }
  unfold shown_at. destruct (cursor_status s) eqn:Hst; cbn [when andb].
  - destruct (cursor_is_cell s0 cursor_on) as (Hcell & Ex & Ey). unfold draw_cursor. rewrite bind_get. cbv zeta.
    change (cursor_x s0 + cursor_y s0 * cols (term s0)) with (cursor_cell s0).
    destruct (cell_at_spec (cursor_cell s0) s0 Hok0 Hcell) as (c & Ec & Hcc & Hv).
    rewrite (bind_Ret _ _ _ _ _ (array_get_eq fbmap (cursor_cell s0) QNull s0 ltac:(unfold cell_set in Hcell; lia) (map_empty _ Hcell))), (bind_Ret _ _ _ _ _ Ec).
    destruct (plot_cell s Hok fb0 (grid s) (fbmap s) (cursor_cell s0) (inverted c) _ _ Hcell (eq_sym Ex) (eq_sym Ey) Hcc) as (fb & Ep & Hd & Ho).
    assert (Ew : forall fb, with_ s fb (grid s) (fbmap s) = set_framebuffer fb s) by (by destruct s). rewrite !Ew in Ep. change (set_framebuffer fb0 s) with s0 in Ep.
    rewrite (bind_Ret _ _ _ _ _ Ep). apply wp_value. exists fb. split; [done|]. intros i Hi. change (cursor_cell s0) with (cursor_cell s) in *.
    destruct (Hvw i Hi) as (ci & Hci & -> & _). destruct (Z.eqb_spec i (cursor_cell s)) as [->|Hne]; [|apply Ho; [done|done|by apply Hg]].
    change (view s0) with (view s) in Hv. rewrite view_grid in Hv. by simplify_eq.
  - exists fb0. split; [done|]. intros i Hi. destruct (Hvw i Hi) as (ci & Hci & -> & _). by apply Hg.
Qed.

Lemma refresh_spec : exists s', fbterm_full_refresh s = Ret tt s' /\ fb_inv s' /\ term s' = term s /\ fb_abs s' = fb_abs s /\ synced s'.
Proof.
  enough (Hw : wp (fbterm_full_refresh s) (fun _ s' => fb_inv s' /\ term s' = term s /\ fb_abs s' = fb_abs s /\ synced s')).
  { apply wp_ret_inv in Hw as ([] & s' & E & Hw). by exists s'. }
  unfold fbterm_full_refresh. rewrite bind_get. apply wp_bind. eapply wp_mono; [apply canvas_copied|]. intros [] s1 [fb1 ->].
  apply wp_bind. eapply wp_mono; [apply grid_plotted|]. intros [] s2 (fb2 & -> & Hfb2). eapply wp_mono; [by apply cursor_drawn|].
  intros [] s3 (fb & -> & Hfb). destruct (fb_any fb) as (Hok' & Ea & Et). assert (Hs : synced (set_framebuffer fb s)) by exact Hfb.
  split; [|done]. split; [done|]. intros i c Hi Hne Hg. specialize (Hs i Hi). unfold shown_at in Hs.
  rewrite (proj2 (Z.eqb_neq i _)), andb_false_r in Hs.
  - replace c with (vw (set_framebuffer fb s) i); [done|]. apply vw_lookup. change (view s !! Z.to_nat i = Some c). by rewrite view_grid.
  - unfold old_cell in Hne. unfold cursor_cell. destruct Hold. cbn in *. congruence.
Qed.
End refresh.

(** * Fonts *)
Section font.
Context (font : list Z) (fh fw : Z).
Hypothesis (Hfont : Z.of_nat (length font) = 256 * fh) (Hfh : 1 <= fh) (Hfw : 8 <= fw).

(** Pixel [x], [y] of glyph [c]: a bit of the byte, most significant first; the
    columns past it are empty, or repeat the last bit for line-drawing characters. *)
Definition font_pixel (c x y : Z) : bool :=
  let row := default 0 (font !! Z.to_nat (c * fh + y)) in
  if x <? 8 then Z.testbit row (7 - x) else (0xc0 <=? c) && (c <=? 0xdf) && Z.testbit row 0.

(** The same by position in the expanded array. *)
Definition pixel_at (k : Z) : bool := font_pixel (k / fw / fh) (k mod fw) (k / fw mod fh).

Lemma pixel_at_eq c x y : 0 <= x < fw -> 0 <= y < fh -> pixel_at (c * fh * fw + y * fw + x) = font_pixel c x y.
Proof.
  intros Hx Hy. unfold pixel_at. replace (c * fh * fw + y * fw + x) with (x + (y + c * fh) * fw) by ring.
  destruct (coords fw x (y + c * fh) Hx) as [-> ->].
  by destruct (coords fh y c Hy) as [-> ->].
Qed.

Definition expanded (k : Z) (m : gmap Z bool) : Prop := forall j, 0 <= j < k -> m !! j = Some (pixel_at j).

Lemma row_at i : 0 <= i < 256 * fh -> exists v, at_index font i = Some v /\ font !! Z.to_nat i = Some v.
Proof.
  intros Hi. destruct (lookup_lt_is_Some_2 font (Z.to_nat i)) as [v Hv]; [lia|]. exists v. split; [|done]. apply at_index_eq; [lia|done].
Qed.

Lemma bit_of v k : 0 <= k -> is_set v (2 ^ k) = Z.testbit v k.
Proof.
  intros Hk. unfold is_set. rewrite <- (Z.mul_1_l (2 ^ k)), <- Z.shiftl_mul_pow2 by lia.
  destruct (Z.testbit v k) eqn:Eb.
  - apply negb_true_iff, Z.eqb_neq. intros H0. pose proof (f_equal (fun z => Z.testbit z k) H0) as Ht. cbn beta in Ht.
    rewrite Z.land_spec, Eb, Z.shiftl_spec, Z.sub_diag, Z.bits_0 in Ht by lia. done.
  - apply negb_false_iff, Z.eqb_eq, Z.bits_inj'. intros n Hn. rewrite Z.land_spec, Z.shiftl_spec, Z.bits_0 by lia.
    destruct (decide (n = k)) as [->|Hne]; [by rewrite Eb|]. destruct (Z.lt_ge_cases n k); [rewrite (Z.testbit_neg_r 1) by lia; apply andb_false_r|].
    rewrite <- (Z.pow_0_r 2) at 1. rewrite Z.pow2_bits_false by lia. apply andb_false_r.
Qed.

Lemma mask_of x : 0 <= x < 8 -> Z.shiftr 0x80 x = 2 ^ (7 - x).
Proof. intros Hx. change 0x80 with (2 ^ 7). rewrite Z.shiftr_div_pow2, <- Z.pow_sub_r by lia. done. Qed.

(** One pixel. *)
Lemma font_step c x y b (bit : Z -> bool) m : 0 <= c < 256 -> 0 <= y < fh -> 0 <= x < fw -> b = c * fh * fw + y * fw ->
  (forall v, font !! Z.to_nat (c * fh + y) = Some v -> bit v = font_pixel c x y) -> expanded (b + x) m ->
  wp (bind (font_row font (c * fh + y)) (fun v => bool_set (256 * fh * fw) (c * fh * fw + y * fw + x) (bit v)) m) (fun _ m' => expanded (b + (x + 1)) m').
Proof.
  intros Hc Hy Hx -> Hbit Hm. destruct (row_at (c * fh + y)) as (v & Ev & Hv); [nia|]. apply wp_bind. unfold font_row. rewrite Ev.
  unfold bool_set. assert (Hi : 0 <= c * fh * fw + y * fw + x < 256 * fh * fw).
  { assert (c * fh + y + 1 <= 256 * fh) by nia. nia. }
  cbn [wp]. rewrite (proj2 (Z.leb_le 0 _)), (proj2 (Z.ltb_lt _ _)) by lia. cbn [andb wp]. intros j Hj.
  destruct (decide (j = c * fh * fw + y * fw + x)) as [->|Hne]; [rewrite lookup_insert_eq, (Hbit v Hv), pixel_at_eq by lia; done|].
  rewrite lookup_insert_ne by done. apply Hm. lia.
Qed.

Lemma font_line_spec c y m : 0 <= c < 256 -> 0 <= y < fh -> expanded ((c * fh + y) * fw) m ->
  wp (font_line font (256 * fh * fw) fh fw c y m) (fun _ m' => expanded ((c * fh + (y + 1)) * fw) m').
Proof.
  intros Hc Hy Hm. unfold font_line. set (b := c * fh * fw + y * fw). apply wp_bind.
  eapply wp_mono; [apply (wp_for_range (fun x => expanded (b + x))); [lia|by replace (b + 0) with ((c * fh + y) * fw) by (unfold b; ring)|]|].
  { intros x m1 Hx Hm1. apply font_step; try done; [lia|]. intros v Hv. unfold font_pixel. rewrite Hv. cbn [default]. rewrite (proj2 (Z.ltb_lt x 8)), mask_of by lia.
    apply bit_of. lia. }
  intros [] m1 Hm1. eapply wp_mono; [apply (wp_for_range (fun x => expanded (b + x))); [lia|done|]|].
  { intros x m2 Hx Hm2. apply (font_step c x y b (fun v => (0xc0 <=? c) && (c <=? 0xdf) && is_set v 1)); try done; [lia|]. intros v Hv. unfold font_pixel. rewrite Hv. cbn [default].
    rewrite (proj2 (Z.ltb_ge x 8)) by lia. change 1 with (2 ^ 0) at 1. by rewrite bit_of. }
  intros [] m2 Hm2. by replace ((c * fh + (y + 1)) * fw) with (b + fw) by (unfold b; ring).
Qed.

Lemma font_fill_spec : exists m, font_fill font (256 * fh * fw) fh fw ∅ = Ret tt m /\
  forall c x y, 0 <= c < 256 -> 0 <= x < fw -> 0 <= y < fh -> m !! (c * fh * fw + y * fw + x) = Some (font_pixel c x y).
Proof.
  enough (Hw : wp (font_fill font (256 * fh * fw) fh fw ∅) (fun _ m => expanded (256 * fh * fw) m)).
  { apply wp_ret_inv in Hw as ([] & m & E & Hw). exists m. split; [done|]. intros c x y Hc Hx Hy. rewrite Hw, pixel_at_eq; try done.
    assert (c * fh + y + 1 <= 256 * fh) by nia. nia. }
  unfold font_fill, FBTERM_FONT_GLYPHS. apply (wp_for_range (fun c => expanded (c * fh * fw))); [lia|intros j; lia|]. intros c m Hc Hm.
  eapply wp_mono; [apply (wp_for_range (fun y => expanded ((c * fh + y) * fw))); [lia|by rewrite Z.add_0_r|]|].
  - intros y m1 Hy Hm1. by apply font_line_spec.
  - intros [] m1 Hm1. by replace ((c + 1) * fh) with (c * fh + fh) by ring.
Qed.
End font.

(** * Creation *)
Section creation.
Context {M : Type} (malloc : Z -> K M Z) (heap_queue : Z -> fbterm_queue_item) (heap_map : Z -> qptr).
(** The allocator succeeds, and the block of the map is cleared memory. *)
Hypothesis Hmalloc : forall n m, wp (malloc n m) (fun p _ => p <> 0).
Hypothesis Hmap : forall i, heap_map i = QNull.
Variables (fb : gmap Z Z) (width height pitch : Z) (bg fg : Z) (sx sy margin : Z).
Hypothesis (Hsx : 1 <= sx) (Hsy : 1 <= sy) (Hmargin : 0 <= margin).
Hypothesis Hwidth : 2 * margin + 9 * sx <= width < 2 ^ 30.
Hypothesis Hheight : 2 * margin + 2 * (16 * sy) <= height < 2 ^ 30.
Hypothesis Hpitch : width <= pitch / 4.

Definition start_cols : Z := (width - margin * 2) / (9 * sx).
Definition start_rows : Z := (height - margin * 2) / (16 * sy).

Lemma start_size : 2 <= start_rows < 2 ^ 30 /\ 1 <= start_cols < 2 ^ 30.
Proof.
  unfold start_rows, start_cols. split; split.
  - apply Z.div_le_lower_bound; lia.
  - apply Z.div_lt_upper_bound; nia.
  - apply Z.div_le_lower_bound; lia.
  - apply Z.div_lt_upper_bound; nia.
Qed.

Lemma start_fits n g : 1 <= g -> 2 * margin + g <= n -> margin + ((n - margin * 2) mod g) / 2 + (n - margin * 2) / g * g <= n.
Proof.
  intros Hg Hn. pose proof (Z.div_mod (n - margin * 2) g ltac:(lia)) as Hd. pose proof (Z.mod_pos_bound (n - margin * 2) g ltac:(lia)) as Hm.
  pose proof (Z.div_le_upper_bound ((n - margin * 2) mod g) 2 ((n - margin * 2) mod g) ltac:(lia) ltac:(lia)). nia.
Qed.

(** A terminal with nothing on it. *)
Record started (s : fbterm_context) : Prop := {
  st_ok : fb_ok s;
  st_queue : queue_i s = 0;
  st_term : term s = reinit (blank_term start_rows start_cols);
  st_screen : fb_abs s = Screen (replicate (Z.to_nat (start_rows * start_cols)) (FbChar (chr " ") fg TRANSPARENT)) 0 0 (fg, TRANSPARENT) (0, 0, (0, 0)) true;
  st_old : old_cursor_x s = 0 /\ old_cursor_y s = 0;
  st_font : font_width (fixed s) = 9 /\ font_height (fixed s) = 16 /\
    forall c x y, 0 <= c < 256 -> 0 <= x < 9 -> 0 <= y < 16 -> font_bool (fixed s) !! (c * 16 * 9 + y * 9 + x) = Some (font_pixel builtin_font 16 c x y);
}.

Lemma wp_malloc_used n m (Q : Z -> M -> Prop) : (forall p m', p <> 0 -> Q p m') -> wp (malloc_used malloc n m) Q.
Proof.
  intros HQ. unfold malloc_used. apply wp_bind. eapply wp_mono; [apply Hmalloc|]. intros p m' Hp. cbv beta in Hp.
  destruct (Z.eqb_spec p 0); [done|]. by apply HQ.
Qed.

Lemma map_cleared p n : p <> 0 -> array_of p n heap_map = replicate (Z.to_nat n) QNull.
Proof.
  intros Hp. unfold array_of. destruct (Z.eqb_spec p 0); [done|]. apply list_eq. intros i. rewrite list_lookup_fmap.
  destruct (decide (i < Z.to_nat n)%nat) as [Hi|Hi].
  - rewrite lookup_seqZ_lt, lookup_replicate_2 by lia. cbn. by rewrite Hmap.
  - rewrite lookup_seqZ_ge by lia. symmetry. apply lookup_ge_None_2. rewrite length_replicate. lia.
Qed.

Lemma started_queue p q : p <> 0 ->
  queue_ok start_rows start_cols (replicate (Z.to_nat (start_rows * start_cols)) (FbChar (chr " ") fg TRANSPARENT)) (array_of q (start_rows * start_cols) heap_queue) 0
    (array_of p (start_rows * start_cols) heap_map) \/ q = 0.
Proof.
  intros Hp. destruct (decide (q = 0)); [by right|left]. destruct start_size. rewrite map_cleared by done. split.
  - rewrite length_replicate. nia.
  - rewrite length_replicate. nia.
  - unfold array_of. destruct (Z.eqb_spec q 0); [done|]. rewrite length_fmap, length_seqZ. nia.
  - done.
  - by apply Forall_replicate.
  - intros i. rewrite lookup_replicate. by intros [? _].
  - intros i k. rewrite lookup_replicate. by intros [? _].
  - lia.
Qed.

Lemma started_view n p q (g : fbterm_char) : p <> 0 -> view_of (replicate (Z.to_nat n) g) (array_of q n heap_queue) (array_of p n heap_map) = replicate (Z.to_nat n) g.
Proof. intros Hp. rewrite map_cleared by done. unfold view_of. induction (Z.to_nat n) as [|k IH]; [done|]. cbn. by rewrite IH. Qed.

Lemma bind_value {A B} (a : A) (k : A -> K M B) m : bind (ret a) k m = k a m.
Proof. done. Qed.

Lemma init_spec w h sp m :
  wp (fbterm_init malloc heap_queue heap_map fb width height pitch None None None (Some bg) (Some fg) None w h sp sx sy margin m) (fun s _ => started s).
Proof.
  destruct start_size as [HR HC]. assert (Hwh : 0 <= width * height < 2 ^ 60) by nia. assert (Hrc : 0 <= start_rows * start_cols < 2 ^ 60) by nia.
  assert (Hpx : 0 <= start_cols * (9 * sx)) by nia. assert (Hpy : 0 <= start_rows * (16 * sy)) by nia. unfold fbterm_init. apply wp_bind, wp_malloc_used. intros ctx m1 Hctx. cbn [opt_copy default from_option].
  rewrite !bind_value. cbv zeta iota. change (u64 (8 * 16 * FBTERM_FONT_GLYPHS) / 8) with 4096.
  apply wp_bind, wp_malloc_used. intros pb m2 Hpb. change (copy_of builtin_font 4096) with (ret builtin_font : K M (list Z)). rewrite bind_value.
  change (u64 (8 + 1)) with 9. change (u64 (FBTERM_FONT_GLYPHS * 16 * 9)) with (256 * 16 * 9). apply wp_bind, wp_malloc_used. intros po m3 Hpo.
  destruct (font_fill_spec builtin_font 16 9 ltac:(reflexivity) ltac:(lia) ltac:(lia)) as (bools & Ef & Hbits).
  unfold run_in at 1. unfold bind at 1. rewrite Ef.
  rewrite (wrap_small 64 (9 * sx)), (wrap_small 64 (16 * sy)), (wrap_small 64 (width - margin * 2)), (wrap_small 64 (height - margin * 2)) by lia.
  destruct (Z.eqb_spec (9 * sx) 0); [lia|]. destruct (Z.eqb_spec (16 * sy) 0); [lia|]. cbn [orb]. fold start_cols start_rows.
  rewrite (wrap_small 64 (start_rows * start_cols)) by lia.
  apply wp_bind, wp_malloc_used. intros pg m4 Hpg. apply wp_bind. eapply wp_mono; [apply Hmalloc|]. intros pq m5 Hpq. cbv beta in Hpq.
  apply wp_bind. eapply wp_mono; [apply Hmalloc|]. intros pm m6 Hpm. cbv beta in Hpm. apply wp_bind, wp_malloc_used. intros pc m7 Hpc. rewrite bind_value.
  pose proof (Z.mod_pos_bound (width - margin * 2) (9 * sx) ltac:(lia)) as Hmx. pose proof (Z.mod_pos_bound (height - margin * 2) (16 * sy) ltac:(lia)) as Hmy.
  pose proof (Z.div_pos ((width - margin * 2) mod (9 * sx)) 2 ltac:(lia) ltac:(lia)). pose proof (Z.div_pos ((height - margin * 2) mod (16 * sy)) 2 ltac:(lia) ltac:(lia)).
  pose proof (start_fits width (9 * sx) ltac:(lia) ltac:(lia)) as Hfx. pose proof (start_fits height (16 * sy) ltac:(lia) ltac:(lia)) as Hfy.
  fold start_cols in Hfx. fold start_rows in Hfy. rewrite (wrap_small 64 (width * height)) by lia.
  rewrite (wrap_small 64 (margin + (width - margin * 2) mod (9 * sx) / 2)), (wrap_small 64 (margin + (height - margin * 2) mod (16 * sy) / 2)) by lia. apply wp_value. split.
  - split.
    + cbn. unfold size_ok. cbn. lia.
    + destruct (started_queue pm pq Hpm) as [Hq0|]; [exact Hq0|contradiction].
    + split; cbn; try lia; rewrite ?length_replicate; lia.
    + cbn. unfold word. lia.
    + cbn. unfold word. lia.
    + cbn. lia.
  - done.
  - done.
  - unfold fb_abs. f_equal. exact (started_view _ pm pq _ Hpm).
  - split; reflexivity.
  - split; [reflexivity|]. split; [reflexivity|exact Hbits].
Qed.

(** Clearing a blank terminal queues nothing. *)
Lemma clear_started s : started s -> fbterm_clear true s = Ret tt (set_cursor 0 0 s).
Proof.
  intros [Hok Hq Ht Hs Ho Hf]. pose proof (view_grid s Hok Hq) as Hv. pose proof (f_equal cells Hs) as Hc. pose proof (f_equal colours Hs) as Hk. cbn in Hc, Hk.
  injection Hk as Ek1 Ek2. rewrite Hv in Hc.
  enough (Hw : wp (fbterm_clear true s) (fun _ s' => s' = set_cursor 0 0 s)) by (by apply wp_ret_inv in Hw as ([] & s' & E & ->)).
  unfold fbterm_clear. rewrite bind_trm, (bind_Ret _ _ _ _ _ (empty_eq s)). apply wp_bind.
  eapply wp_mono; [apply (wp_for_same (fun s' => s' = s)); [done|]|intros [] s' ->; done]. intros j s' Hj ->.
  destruct (fo_size _ Hok) as [HR HC]. rewrite wrap_small in Hj by nia. unfold push_at. rewrite bind_trm. destruct (Z.eqb_spec (cols (term s)) 0); [lia|].
  assert (Hcell : cell_set s j) by done. destruct (cell_xy s Hok j Hcell) as (Hx & Hy & Ej). unfold push_to_queue. rewrite bind_trm.
  rewrite (proj2 (Z.leb_gt _ (j mod _))), (proj2 (Z.leb_gt _ (j / _))) by lia. cbn [orb]. cbv zeta.
  replace (j / cols (term s) * cols (term s) + j mod cols (term s)) with j by lia.
  rewrite (bind_Ret _ _ _ _ _ (array_get_eq fbmap j QNull s ltac:(lia) (map_empty s Hok Hq j Hcell))).
  destruct (grid_get _ _ (fo_queue _ Hok) j Hj) as (c & Hg & _). rewrite (bind_Ret _ _ _ _ _ (array_get_eq grid j c s ltac:(lia) Hg)).
  rewrite Hc in Hg. apply lookup_replicate in Hg as [-> _]. unfold blank, glyph_of, compare_char. cbn. rewrite Ek1, Ek2, !Z.eqb_refl. done.
Qed.
End creation.
End FbBoot.
