(* ===== verification/TermText.v ===== *)
(** Text and cursor addresses on a terminal whose parser is in its ground state. *)
From Stdlib Require Import Ascii.
From S2P Require Import Prelude CString Printf Numeral Font Term Framebuffer TermScreen FramebufferSpec TermSpec.

Module TermText.
Import FramebufferSpec TermSpec.

(** No sequence is being read. *)
Definition ground (t : term_context) : bool :=
  negb (discard_next t) && negb (escape t) && negb (csi t) && negb (control_sequence t) && (g_select t =? 0) && negb (dec_private t).
(** How text is printed. *)
Definition text_mode (t : term_context) : bool * list Z * Z := (insert_mode t, charsets t, current_charset t).
(** Bytes that print a glyph. *)
Definition printable (c : Z) : bool := (0x20 <=? c) && (c <? 0x100) && negb (c =? 0x7f) && negb (c =? 0x9b).

Lemma ground_fields t : ground t = true -> discard_next t = false /\ escape t = false /\ csi t = false /\ control_sequence t = false /\ g_select t = 0 /\ dec_private t = false.
Proof. unfold ground. rewrite !andb_true_iff, !negb_true_iff, Z.eqb_eq. intuition. Qed.

Section text.
Context {S : Type} `{TermBackendLaws S}.
Variables (R C : Z).
Hypothesis HR : 2 <= R < 2 ^ 31.
Hypothesis HC : 1 <= C < 2 ^ 31.
Local Abbreviation good := (good R C).

(** Comparisons of a byte with constants it cannot equal. *)
Ltac not_equal := repeat match goal with |- context [?c =? ?k] => rewrite (proj2 (Z.eqb_neq c k)) by lia end; cbn [andb orb negb].

(** ** Text *)

(** The screen after a byte of text. *)
Definition typed (t : term_context) (a : screen) (c : Z) : screen := if c =? 10 then fed R 0 a t else type_char t (glyph_code t c) a.

Lemma wp_text c s (Q : unit -> S -> Prop) :
  good s -> ground (tctx s) = true -> insert_mode (tctx s) = false -> printable c = true \/ c = 10 ->
  (forall s', good s' -> tctx s' = tctx s -> abs s' = typed (tctx s) (abs s) c -> Q tt s') -> wp (term_putchar c s) Q.
Proof.
  intros Hg Hgr Hins Hc HQ. destruct (ground_fields _ Hgr) as (Ed & Ee & _ & _ & Es & _).
  assert (Hr : c = 10 \/ 0x20 <= c < 0x100 /\ c <> 0x7f /\ c <> 0x9b).
  { destruct Hc as [Hp|]; [right|by left]. unfold printable in Hp. rewrite !andb_true_iff, !negb_true_iff, Z.leb_le, Z.ltb_lt, !Z.eqb_neq in Hp. lia. }
  unfold term_putchar. rewrite bind_fld, Ed, Ee, Es. cbv beta. not_equal. rewrite andb_false_r. cbn [orb].
  change (0 =? 0) with true. cbn [negb]. rewrite (bind_Ret _ _ _ _ _ (law_get s (good_inv _ _ _ Hg))). cbv beta iota. unfold typed in HQ.
  destruct Hr as [->|Hr].
  - apply (good_line_feed R C); [done|done|done|lia|]. intros s' Hg' Et Ea. by apply HQ.
  - rewrite (proj2 (Z.eqb_neq c 10)) in HQ by lia. repeat match goal with |- context [?c =? ?k] => rewrite (proj2 (Z.eqb_neq c k)) by lia end. cbn [orb].
    apply (wp_print R C); [done|done|done|lia|by rewrite Hins|]. intros s' Hg' Et Ea. by apply HQ.
Qed.

Lemma text_stream l s :
  good s -> ground (tctx s) = true -> insert_mode (tctx s) = false -> Forall (fun c => printable c = true \/ c = 10) l ->
  exists s', for_each l (fun c => term_putchar (u8 c)) s = Ret tt s' /\ good s' /\ tctx s' = tctx s /\ abs s' = fold_left (typed (tctx s)) l (abs s).
Proof.
  revert s. induction l as [|c l IH]; intros s Hg Hgr Hins Hl; [by exists s|]. apply Forall_cons in Hl as [Hc Hl].
  assert (Hw : wp (term_putchar c s) (fun _ s' => good s' /\ tctx s' = tctx s /\ abs s' = typed (tctx s) (abs s) c)) by (apply wp_text; by auto).
  apply wp_ret_inv in Hw as ([] & s1 & E1 & Hg1 & Et1 & Ea1).
  destruct (IH s1) as (s2 & E2 & Hg2 & Et2 & Ea2); [done|by rewrite Et1|by rewrite Et1|done|].
  exists s2. split_and!; [|done|congruence|].
  - cbn [for_each]. rewrite (wrap_small 8), (bind_Ret _ _ _ _ _ E1) by (destruct Hc as [Hp| ->]; [unfold printable in Hp; lia|lia]). exact E2.
  - cbn [fold_left]. by rewrite Ea2, Et1, Ea1.
Qed.

(** A character that does not end the line. *)
Lemma type_char_inside t c a : parser_ok R C t -> at_ok R C (cx a) (cy a) -> cx a + 1 < C ->
  type_char t c a = set_cells (<[Z.to_nat (cy a * C + cx a) := glyph_of a c]> (cells a)) (move_to (cx a + 1) (cy a) a).
Proof.
  intros Hp [Hx Hy] Hlt. unfold type_char, put_cell. rewrite (p_rows _ _ _ Hp), (p_cols _ _ _ Hp), (p_bot _ _ _ Hp).
  rewrite (proj2 (Z.ltb_lt (cx a) C)), (proj2 (Z.ltb_lt (cy a) R)) by lia. cbn [andb cx cy set_cells move_to cells]. rewrite (wrap_small 64 (cx a + 1)) by lia.
  rewrite (proj2 (Z.eqb_neq (cx a + 1) C)) by lia. cbn [andb cy set_cells move_to]. by rewrite (proj2 (Z.eqb_neq (cy a) R)) by lia.
Qed.

(** Text that stays on its line appears there, in the current colours. *)
Lemma typed_line t l a : parser_ok R C t -> at_ok R C (cx a) (cy a) -> Forall (fun c => printable c = true) l -> cx a + Z.of_nat (length l) < C ->
  fold_left (typed t) l a =
  set_cells (list_inserts (Z.to_nat (cy a * C + cx a)) ((fun c => glyph_of a (glyph_code t c)) <$> l) (cells a)) (move_to (cx a + Z.of_nat (length l)) (cy a) a).
Proof.
  intros Hp. revert a. induction l as [|c l IH]; intros a [Hx Hy] Hl Hlen; [cbn; rewrite Z.add_0_r; by destruct a|].
  apply Forall_cons in Hl as [Hc Hl]. cbn [length] in Hlen. cbn [fold_left fmap list_fmap length].
  assert (Ec : typed t a c = type_char t (glyph_code t c) a) by (unfold typed; rewrite (proj2 (Z.eqb_neq c 10)); [done|unfold printable in Hc; lia]).
  rewrite Ec, type_char_inside by (done || lia). set (b := set_cells _ _). rewrite (IH b); [|split; cbn; lia|done|cbn; lia].
  unfold b. cbn [cx cy set_cells move_to cells list_inserts]. unfold glyph_of. cbn [colours set_cells move_to].
  replace (Z.to_nat (cy a * C + (cx a + 1))) with (Datatypes.S (Z.to_nat (cy a * C + cx a))) by nia.
  rewrite list_insert_inserts_lt by lia. unfold move_to, set_cells. cbn. f_equal; lia.
Qed.

(** ** Parameters of a control sequence *)

(** The values read so far are [vs]; the last of them is still open if [num]. *)
Record in_csi (mode : bool * list Z * Z) (vs : list Z) (num : bool) (t : term_context) : Prop := {
  cs_flags : discard_next t = false /\ escape t = true /\ csi t = false /\ control_sequence t = true /\ g_select t = 0 /\ dec_private t = false;
  cs_mode : text_mode t = mode;
  cs_rrr : rrr t = num;
  cs_vals : esc_values t = vs ++ replicate (16 - length vs) 0;
  cs_i : esc_values_i t + (if num then 1 else 0) = Z.of_nat (length vs);
}.

Lemma wp_start s (Q : unit -> S -> Prop) :
  good s -> ground (tctx s) = true ->
  (forall s', good s' -> ground (set_escape false (tctx s')) = true -> escape (tctx s') = true -> text_mode (tctx s') = text_mode (tctx s) -> abs s' = abs s -> Q tt s') ->
  wp (term_putchar 27 s) Q.
Proof.
  intros Hg Hgr HQ. destruct (ground_fields _ Hgr) as (Ed & Ee & Ec & Eq & Es & Ep).
  unfold term_putchar. rewrite bind_fld, Ed, Ee, Es. cbv beta. rewrite andb_false_r. change (0 =? 0) with true. cbn [orb negb].
  rewrite (bind_Ret _ _ _ _ _ (law_get s (good_inv _ _ _ Hg))). cbn [orb]. apply wp_bind, wp_value, wp_bind.
  apply (good_upd R C); [done|destruct Hg as [[(_ & [] & _) _] _]; by split|done|]. intros s1 Hg1 E1 A1.
  apply (good_upd R C); [done|destruct Hg1 as [[(_ & [] & _) _] _]; by split|done|]. intros s2 Hg2 E2 A2.
  apply HQ; [done|rewrite E2, E1; unfold ground; cbn; rewrite Ed; cbn; by rewrite ?Ec, ?Eq, ?Es, ?Ep|by rewrite E2|by rewrite E2, E1|congruence].
Qed.

Lemma zeroed s (Q : unit -> S -> Prop) :
  good s -> (forall s', good s' -> tctx s' = set_esc_values (replicate 16 0) (tctx s) -> abs s' = abs s -> Q tt s') ->
  wp (for_range 0 TERM_MAX_ESC_VALUES (fun i => set_esc i 0) s) Q.
Proof.
  intros Hg HQ. pose proof (p_len _ _ _ (proj1 (proj2 (proj1 (proj1 Hg))))) as Hlen.
  eapply wp_mono; [apply (wp_for_range (fun j s' => good s' /\ abs s' = abs s /\ exists l, tctx s' = set_esc_values l (tctx s) /\ length l = 16%nat /\
    forall k, (k < Z.to_nat j)%nat -> l !! k = Some 0)); [done| |]|].
  - split; [done|]. split; [done|]. exists (esc_values (tctx s)). split; [by destruct (tctx s)|]. split; [done|]. lia.
  - intros j s1 Hj (Hg1 & A1 & l & E1 & Hl & Hz). unfold TERM_MAX_ESC_VALUES in Hj. apply (good_set_esc R C); [done|lia|]. intros s2 Hg2 E2 A2.
    split; [done|]. split; [congruence|]. exists (<[Z.to_nat j := 0]> l). rewrite E2, E1. split; [done|]. rewrite length_insert. split; [done|]. intros k Hk.
    destruct (decide (k = Z.to_nat j)) as [->|]; [rewrite list_lookup_insert_eq by lia; done|]. rewrite list_lookup_insert_ne by done. apply Hz. lia.
  - intros [] s1 (Hg1 & A1 & l & E1 & Hl & Hz). apply HQ; [done| |done]. rewrite E1. f_equal. apply list_eq. intros k.
    destruct (decide (k < 16)%nat) as [Hk|Hk]; [rewrite Hz, lookup_replicate_2 by (done || exact Hk); done|].
    rewrite !lookup_ge_None_2; [done|rewrite length_replicate; lia|lia].
Qed.

Lemma wp_bracket s (Q : unit -> S -> Prop) :
  good s -> ground (set_escape false (tctx s)) = true -> escape (tctx s) = true ->
  (forall s', good s' -> in_csi (text_mode (tctx s)) [] false (tctx s') -> abs s' = abs s -> Q tt s') -> wp (term_putchar (chr "[") s) Q.
Proof.
  intros Hg Hgr He HQ. destruct (ground_fields _ Hgr) as (Ed & _ & Ec & Eq & Es & Ep). cbn in Ed, Ec, Eq, Es, Ep.
  unfold term_putchar. rewrite bind_fld, Ed, He. cbv beta. change (chr "[") with 91. cbn [orb Z.eqb Pos.eqb]. rewrite andb_false_r. cbv iota.
  unfold escape_parse. apply wp_bind. apply (good_upd R C); [done|destruct Hg as [[(_ & [] & _) _] _]; by split|done|]. intros s1 Hg1 E1 A1.
  rewrite !bind_fld, E1. cbn [control_sequence csi set_escape_offset]. rewrite Eq. cbv iota. rewrite bind_fld, E1. cbn [csi set_escape_offset]. rewrite Ec. cbv iota. rewrite (bind_Ret _ _ _ _ _ (law_get s1 (good_inv _ _ _ Hg1))).
  change (91 =? chr "[") with true. cbv iota. unfold enter_csi. apply wp_bind, zeroed; [done|]. intros s2 Hg2 E2 A2.
  apply wp_bind, (good_upd R C); [done|destruct Hg2 as [[(_ & [] & _) _] _]; by split|done|]. intros s3 Hg3 E3 A3.
  apply wp_bind, (good_upd R C); [done|destruct Hg3 as [[(_ & [] & _) _] _]; by split|done|]. intros s4 Hg4 E4 A4.
  apply (good_upd R C); [done|destruct Hg4 as [[(_ & [] & _) _] _]; by split|done|]. intros s5 Hg5 E5 A5.
  apply HQ; [done| |congruence]. rewrite E5, E4, E3, E2, E1. by split.
Qed.

(** A byte of a sequence. *)
Lemma wp_in_csi mode vs num c s (Q : unit -> S -> Prop) :
  good s -> in_csi mode vs num (tctx s) -> 0x20 <= c -> c <> chr "[" -> c <> chr "?" ->
  (forall s', good s' -> in_csi mode vs num (tctx s') -> abs s' = abs s ->
     wp ((let! n := fld esc_values_i in
          if is_digit c then
            if n =? TERM_MAX_ESC_VALUES then ret tt else
            do! upd (set_rrr true) in
            let! v := esc n in
            do! set_esc n (u32 (v * 10)) in
            let! v := esc n in
            set_esc n (u32 (v + (c - chr "0")))
          else
          let! in_number := fld rrr in
          if in_number then
            do! upd (set_esc_values_i (u64 (n + 1))) in
            do! upd (set_rrr false) in
            if c =? chr ";" then ret tt else csi_execute c
          else if c =? chr ";" then
            if n =? TERM_MAX_ESC_VALUES then ret tt else
            do! set_esc n 0 in
            upd (set_esc_values_i (u64 (n + 1)))
          else csi_execute c) s') Q) ->
  wp (term_putchar c s) Q.
Proof.
  intros Hg Hin Hc Hb Hq HQ. destruct (cs_flags _ _ _ _ Hin) as (Ed & Ee & Ec & Es & Eg & Ep).
  unfold term_putchar. rewrite bind_fld, Ed, Ee. cbv beta. rewrite (proj2 (Z.eqb_neq c 0x18)), (proj2 (Z.eqb_neq c 0x1a)) by lia. rewrite andb_false_r. cbn [orb].
  unfold escape_parse. apply wp_bind. apply (good_upd R C); [done|destruct Hg as [[(_ & [] & _) _] _]; by split|done|]. intros s1 Hg1 E1 A1.
  assert (Hin1 : in_csi mode vs num (tctx s1)) by (rewrite E1; destruct Hin; by split).
  rewrite bind_fld. destruct (cs_flags _ _ _ _ Hin1) as (_ & _ & _ & -> & _). unfold control_sequence_parse. rewrite bind_fld.
  rewrite (proj2 (Z.eqb_neq c (chr "["))), (proj2 (Z.eqb_neq c (chr "?"))), !andb_false_r by done. by apply HQ.
Qed.

Lemma in_csi_lookup mode vs num t i : in_csi mode vs num t -> i = length vs -> (i < 16)%nat -> esc_values t !! i = Some 0.
Proof. intros Hin -> Hi. rewrite (cs_vals _ _ _ _ Hin), lookup_app_r, Nat.sub_diag, lookup_replicate_2 by lia. done. Qed.

Lemma insert_at_end (vs : list Z) v n : (length vs < n)%nat ->
  <[length vs := v]> (vs ++ replicate (n - length vs) 0) = (vs ++ [v]) ++ replicate (n - length (vs ++ [v])) 0.
Proof.
  intros Hl. rewrite insert_app_r_alt, Nat.sub_diag, length_app by lia. cbn [length]. replace (n - length vs)%nat with (Datatypes.S (n - (length vs + 1))) by lia.
  cbn. by rewrite <- app_assoc.
Qed.
Lemma insert_last (vs : list Z) v w n : (length vs < n)%nat ->
  <[length vs := w]> ((vs ++ [v]) ++ replicate (n - length (vs ++ [v])) 0) = (vs ++ [w]) ++ replicate (n - length (vs ++ [w])) 0.
Proof.
  intros Hl. rewrite <- (app_assoc vs), insert_app_r_alt, Nat.sub_diag, !length_app by lia. cbn. by rewrite <- app_assoc.
Qed.

(** Digits: the open number is multiplied by ten; a first digit opens one at 0. *)
Lemma wp_digit mode vs v (num : bool) d s (Q : unit -> S -> Prop) :
  good s -> in_csi mode (if num then vs ++ [v] else vs) num (tctx s) -> (num = false -> v = 0) -> (length vs < 16)%nat -> 0 <= d < 10 ->
  (forall s', good s' -> in_csi mode (vs ++ [u32 (u32 (v * 10) + d)]) true (tctx s') -> abs s' = abs s -> Q tt s') -> wp (term_putchar (chr "0" + d) s) Q.
Proof.
  intros Hg Hin Hv Hl Hd HQ. change (chr "0") with 48.
  apply (wp_in_csi _ _ _ _ _ _ Hg Hin); [lia|change (chr "[") with 91; lia|change (chr "?") with 63; lia|]. intros s0 Hg0 Hin0 A0. rewrite <- A0 in HQ. clear s Hg Hin A0. rename s0 into s, Hg0 into Hg, Hin0 into Hin.
  assert (Hi : esc_values_i (tctx s) = Z.of_nat (length vs)).
  { pose proof (cs_i _ _ _ _ Hin) as Hi. destruct num; [rewrite length_app in Hi; cbn in Hi|]; lia. }
  assert (Hvals : esc_values (tctx s) = (vs ++ [v]) ++ replicate (16 - length (vs ++ [v])) 0).
  { rewrite (cs_vals _ _ _ _ Hin). destruct num; [done|]. rewrite (Hv eq_refl), <- insert_at_end by done. symmetry. apply list_insert_id.
    rewrite lookup_app_r, Nat.sub_diag, lookup_replicate_2 by lia. done. }
  assert (Hlook : ((vs ++ [v]) ++ replicate (16 - length (vs ++ [v])) 0) !! length vs = Some v) by (rewrite <- app_assoc, lookup_app_r, Nat.sub_diag by lia; done).
  rewrite bind_fld. assert (Edig : is_digit (48 + d) = true) by (unfold is_digit; change (chr "0") with 48; change (chr "9") with 57; lia). rewrite Edig, Hi.
  unfold TERM_MAX_ESC_VALUES. rewrite (proj2 (Z.eqb_neq _ 16)) by lia. apply wp_bind.
  apply (good_upd R C); [done|destruct Hg as [[(_ & [] & _) _] _]; split; cbn; first [done|lia]|done|]. intros s1 Hg1 E1 A1.
  apply wp_bind, (wp_esc R C); [apply Hg1|lia|]. intros v1 _ Hv1. rewrite E1 in Hv1. cbn in Hv1. rewrite Nat2Z.id, Hvals, Hlook in Hv1. injection Hv1 as <-.
  apply wp_bind, (good_set_esc R C); [done|lia|]. intros s2 Hg2 E2 A2. rewrite E1 in E2. cbn in E2. rewrite Nat2Z.id, Hvals, insert_last in E2 by done.
  apply wp_bind, (wp_esc R C); [apply Hg2|lia|]. intros v2 _ Hv2. rewrite E2 in Hv2. cbn in Hv2.
  rewrite Nat2Z.id, <- app_assoc, lookup_app_r, Nat.sub_diag in Hv2 by lia. cbn in Hv2. injection Hv2 as <-.
  rewrite !(wrap_small 32 (u32 (v * 10))) by (by apply wrap_range). rewrite (wrap_small 32 (u32 (v * 10))) in E2 by (by apply wrap_range).
  apply (good_set_esc R C); [done|lia|]. intros s3 Hg3 E3 A3. rewrite E2 in E3. cbn in E3. rewrite Nat2Z.id, insert_last in E3 by done.
  replace (48 + d - chr "0") with d in E3 by (change (chr "0") with 48; lia). rewrite (wrap_small 32 (u32 (u32 (v * 10) + d))) in E3 by (by apply wrap_range).
  apply HQ; [done| |congruence]. rewrite E3. destruct Hin as [Hfl Hmo _ _ _]. split; try done. cbn. rewrite length_app. cbn. lia.
Qed.

(** A number. *)
Lemma wp_digits mode vs ds v (num : bool) s :
  good s -> in_csi mode (if num then vs ++ [v] else vs) num (tctx s) -> (num = false -> v = 0) -> (length vs < 16)%nat ->
  Forall (fun d => 0 <= d < 10) ds -> num = true \/ ds <> [] -> 0 <= v -> value_be 10 v ds < 2 ^ 32 ->
  exists s', for_each ((fun d => chr "0" + d) <$> ds) (fun c => term_putchar (u8 c)) s = Ret tt s' /\ good s' /\
    in_csi mode (vs ++ [value_be 10 v ds]) true (tctx s') /\ abs s' = abs s.
Proof.
  revert v num s. induction ds as [|d ds IH]; intros v num s Hg Hin Hv Hl Hd Hne Hv0 Hval.
  - destruct Hne as [-> |]; [|done]. exists s. by split_and!.
  - apply Forall_cons in Hd as [Hd Hds].
    assert (Hbe : forall a l, 0 <= a -> Forall (fun d => 0 <= d < 10) l -> a <= value_be 10 a l).
    { intros a l. revert a. induction l as [|e l IHl]; intros a Ha Hf; [cbn; lia|]. apply Forall_cons in Hf as [He Hf]. specialize (IHl (a * 10 + e) ltac:(lia) Hf).
      change (value_be 10 a (e :: l)) with (value_be 10 (a * 10 + e) l). lia. }
    change (value_be 10 v (d :: ds)) with (value_be 10 (v * 10 + d) ds) in *. pose proof (Hbe (v * 10 + d) ds ltac:(lia) Hds) as Hle.
    assert (Hw : wp (term_putchar (chr "0" + d) s) (fun _ s' => good s' /\ in_csi mode (vs ++ [v * 10 + d]) true (tctx s') /\ abs s' = abs s)).
    { apply (wp_digit mode vs v num); try done. intros s' Hg' Hin' Ea. rewrite (wrap_small 32 (v * 10)), wrap_small in Hin' by lia. done. }
    apply wp_ret_inv in Hw as ([] & s1 & E1 & Hg1 & Hin1 & A1).
    destruct (IH (v * 10 + d) true s1 Hg1 Hin1) as (s2 & E2 & Hg2 & Hin2 & A2); try done; [by left|lia|].
    exists s2. split_and!; [|done|done|congruence]. change ((fun d => chr "0" + d) <$> d :: ds) with ((chr "0" + d) :: ((fun d => chr "0" + d) <$> ds)). cbn [for_each].
    rewrite (wrap_small 8), (bind_Ret _ _ _ _ _ E1) by (change (chr "0") with 48; lia). exact E2.
Qed.

(** The end of a number. *)
Lemma wp_close mode vs c s (Q : unit -> S -> Prop) :
  good s -> in_csi mode vs true (tctx s) -> (length vs <= 16)%nat -> 0x20 <= c -> c <> chr "[" -> c <> chr "?" -> is_digit c = false ->
  (forall s', good s' -> in_csi mode vs false (tctx s') -> abs s' = abs s -> wp ((if c =? chr ";" then ret tt else csi_execute c) s') Q) ->
  wp (term_putchar c s) Q.
Proof.
  intros Hg Hin Hl Hc Hb Hq Hd HQ. apply (wp_in_csi _ _ _ _ _ _ Hg Hin); [done|done|done|]. intros s1 Hg1 Hin1 A1. rewrite !bind_fld, Hd.
  rewrite bind_fld. rewrite (cs_rrr _ _ _ _ Hin1). pose proof (cs_i _ _ _ _ Hin1) as Hi. cbv iota in Hi.
  assert (Hok : parser_ok R C (set_rrr false (set_esc_values_i (u64 (esc_values_i (tctx s1) + 1)) (tctx s1)))).
  { destruct Hg1 as [[(_ & [] & _) _] _]. rewrite wrap_small by lia. split; cbn; first [done|lia]. }
  apply (good_upd2 R C); [done|done|exact Hok|done|]. intros s2 Hg2 E2 A2. apply HQ; [done| |congruence].
  rewrite E2, wrap_small by lia. destruct Hin1. split; cbn; first [done|lia].
Qed.

(** Values past the last read get the default; the others stay. *)
Lemma wp_defaults n d s (Q : unit -> S -> Prop) :
  good s -> 0 <= n ->
  (forall s' l, good s' -> tctx s' = set_esc_values l (tctx s) -> abs s' = abs s -> (forall k, (k < Z.to_nat n)%nat -> l !! k = esc_values (tctx s) !! k) -> Q tt s') ->
  wp (for_range n TERM_MAX_ESC_VALUES (fun i => set_esc i d) s) Q.
Proof.
  intros Hg Hn HQ. eapply wp_mono; [apply (wp_for_same (fun s' => good s' /\ abs s' = abs s /\ exists l, tctx s' = set_esc_values l (tctx s) /\
    forall k, (k < Z.to_nat n)%nat -> l !! k = esc_values (tctx s) !! k))|].
  - split; [done|]. split; [done|]. exists (esc_values (tctx s)). split; [by destruct (tctx s)|done].
  - intros j s1 Hj (Hg1 & A1 & l & E1 & Hk). unfold TERM_MAX_ESC_VALUES in Hj. apply (good_set_esc R C); [done|lia|]. intros s2 Hg2 E2 A2.
    split; [done|]. split; [congruence|]. exists (<[Z.to_nat j := u32 d]> l). rewrite E2, E1. split; [done|]. intros k Hlt. rewrite list_lookup_insert_ne by lia. by apply Hk.
  - intros [] s1 (Hg1 & A1 & l & E1 & Hk). by apply (HQ s1 l).
Qed.

Lemma wp_home mode e0 e1 s (Q : unit -> S -> Prop) :
  good s -> in_csi mode [e0; e1] true (tctx s) ->
  (forall s', good s' -> ground (tctx s') = true -> text_mode (tctx s') = mode -> abs s' = move_to (coordinate C e1) (coordinate R e0) (abs s) -> Q tt s') ->
  wp (term_putchar (chr "H") s) Q.
Proof.
  intros Hg Hin HQ. apply (wp_close mode [e0; e1]); [done|done|cbn; lia|done|done|done|done|]. intros s1 Hg1 Hin1 A1.
  change (chr "H" =? chr ";") with false. cbv iota. unfold csi_execute. rewrite bind_fld. pose proof (cs_i _ _ _ _ Hin1) as Hi. cbn in Hi. rewrite Z.add_0_r in Hi. rewrite Hi.
  apply wp_bind, wp_defaults; [done|lia|]. intros s2 l Hg2 E2 A2 Hl.
  assert (He0 : l !! 0%nat = Some e0) by (rewrite Hl, (cs_vals _ _ _ _ Hin1) by lia; done).
  assert (He1 : l !! 1%nat = Some e1) by (rewrite Hl, (cs_vals _ _ _ _ Hin1) by lia; done).
  rewrite !bind_fld, E2. cbn [dec_private set_esc_values]. destruct (cs_flags _ _ _ _ Hin1) as (Ed & _ & Ec & _ & Egs & ->).
  rewrite bind_fld, (proj2 Hg2). apply wp_bind. pose proof (proj1 Hg2) as Hp2.
  apply (wp_upd_placed R C); [done|destruct Hp2 as [(_ & [] & _) _]; by split|]. intros s3 Hp3 E3 A3.
  rewrite (bind_Ret _ _ _ _ _ (law_get s3 (placed_inv _ _ _ Hp3))). cbv beta iota. apply wp_bind.
  apply (wp_cup R C HR HC e0 e1); [apply Hp3|rewrite E3, E2; done|rewrite E3, E2; done|]. intros s4 Hp4 [l4 E4] A4.
  apply wp_bind, (wp_upd_placed R C); [done|destruct Hp4 as [(_ & [] & _) _]; by split|]. intros s5 Hp5 E5 A5.
  assert (Hg5 : good s5) by (split; [done|by rewrite E5]). unfold cleanup. apply wp_bind.
  apply (good_upd R C); [done|destruct Hg5 as [[(_ & [] & _) _] _]; by split|done|]. intros s6 Hg6 E6 A6.
  apply (good_upd R C); [done|destruct Hg6 as [[(_ & [] & _) _] _]; by split|done|]. intros s7 Hg7 E7 A7.
  assert (Et : tctx s7 = set_escape false (set_control_sequence false (set_scroll_enabled true (set_esc_values l4 (set_scroll_enabled false (set_esc_values l (tctx s1))))))) by (rewrite E7, E6, E5, E4, E3, E2; done).
  apply HQ; [done| | |congruence].
  - rewrite Et. unfold ground. cbn. destruct (cs_flags _ _ _ _ Hin1) as (-> & _ & -> & _ & -> & ->). done.
  - rewrite Et. exact (cs_mode _ _ _ _ Hin1).
Qed.

Lemma for_each_then {A} (l1 l2 : list A) (f : A -> K S unit) s s1 : for_each l1 f s = Ret tt s1 -> for_each (l1 ++ l2) f s = for_each l2 f s1.
Proof. intros E. by rewrite for_each_app, (bind_Ret _ _ _ _ _ E). Qed.

(** The bytes of a cursor address. *)
Definition cup (rs cs : list Z) : list Z :=
  [27; chr "["] ++ ((fun d => chr "0" + d) <$> rs) ++ [chr ";"] ++ ((fun d => chr "0" + d) <$> cs) ++ [chr "H"].

Lemma cup_spec rs cs s :
  good s -> ground (tctx s) = true -> rs <> [] -> cs <> [] -> Forall (fun d => 0 <= d < 10) (rs ++ cs) -> value_be 10 0 rs < 2 ^ 32 -> value_be 10 0 cs < 2 ^ 32 ->
  exists s', for_each (cup rs cs) (fun c => term_putchar (u8 c)) s = Ret tt s' /\ good s' /\ ground (tctx s') = true /\ text_mode (tctx s') = text_mode (tctx s) /\
    abs s' = move_to (coordinate C (value_be 10 0 cs)) (coordinate R (value_be 10 0 rs)) (abs s).
Proof.
  intros Hg Hgr Hrs Hcs Hd Hrv Hcv. apply Forall_app in Hd as [Hdr Hdc]. set (mode := text_mode (tctx s)).
  assert (Hw : wp (for_each [27; chr "["] (fun c => term_putchar (u8 c)) s) (fun _ s' => good s' /\ in_csi mode [] false (tctx s') /\ abs s' = abs s)).
  { cbn [for_each]. apply wp_bind. change (u8 27) with 27. apply wp_start; [done|done|]. intros s1 Hg1 Hgr1 He1 Em1 A1. apply wp_bind.
    change (u8 (chr "[")) with (chr "["). apply wp_bracket; [done|done|done|]. intros s2 Hg2 Hin2 A2. apply wp_value. split; [done|]. split; [unfold mode; by rewrite <- Em1|congruence]. }
  apply wp_ret_inv in Hw as ([] & s1 & E1 & Hg1 & Hin1 & A1). unfold cup.
  destruct (wp_digits mode [] rs 0 false s1 Hg1 Hin1) as (s2 & E2 & Hg2 & Hin2 & A2); try done; [cbn; lia|by right|].
  assert (Hw : wp (for_each [chr ";"] (fun c => term_putchar (u8 c)) s2) (fun _ s' => good s' /\ in_csi mode [value_be 10 0 rs] false (tctx s') /\ abs s' = abs s2)).
  { cbn [for_each]. apply wp_bind. change (u8 (chr ";")) with (chr ";"). apply (wp_close mode [value_be 10 0 rs]); [done|done|cbn; lia|done|done|done|done|].
    intros s3 Hg3 Hin3 A3. change (chr ";" =? chr ";") with true. cbv iota. apply wp_value. by apply wp_value. }
  apply wp_ret_inv in Hw as ([] & s3 & E3 & Hg3 & Hin3 & A3).
  destruct (wp_digits mode [value_be 10 0 rs] cs 0 false s3 Hg3 Hin3) as (s4 & E4 & Hg4 & Hin4 & A4); try done; [cbn; lia|by right|].
  assert (Hw : wp (term_putchar (chr "H") s4) (fun _ s' => good s' /\ ground (tctx s') = true /\ text_mode (tctx s') = mode /\
    abs s' = move_to (coordinate C (value_be 10 0 cs)) (coordinate R (value_be 10 0 rs)) (abs s4))) by (eapply wp_home; [done|exact Hin4|by intros]).
  apply wp_ret_inv in Hw as ([] & s5 & E5 & Hg5 & Hgr5 & Em5 & A5). exists s5. split_and!; [|done|done|done|].
  - rewrite (for_each_then _ _ _ _ _ E1), (for_each_then _ _ _ _ _ E2), (for_each_then _ _ _ _ _ E3), (for_each_then _ _ _ _ _ E4). cbn [for_each].
    change (u8 (chr "H")) with (chr "H"). by rewrite (bind_Ret _ _ _ _ _ E5).
  - rewrite A5, A4, A3, A2, A1. done.
Qed.
End text.
End TermText.
