(* ===== verification/TerminalSpec.v ===== *)
(** The framebuffer terminal as a whole: how it comes up, what it survives, and
    that the picture on the framebuffer is the screen after every [term_write]. *)
From Stdlib Require Import Ascii.
From S2P Require Import Prelude CString Printf Numeral Font Term Framebuffer FbInit TermScreen FramebufferSpec FbPixels FbBackend TermSpec TermText FbBoot.

Module TerminalSpec.
Import FramebufferSpec FbPixels FbBackend TermSpec TermText FbBoot.

(** A working terminal of [R] rows and [C] columns. *)
Definition working (R C : Z) (s : fbterm_context) : Prop := good R C s.

(** What is written is flushed. *)
Lemma write_flushes R C l s s1 :
  for_each l (fun c => term_putchar (u8 c)) s = Ret tt s1 -> working R C s1 ->
  exists s2, term_write l s = Ret tt s2 /\ working R C s2 /\ term s2 = term s1 /\ fb_abs s2 = fb_abs s1 /\ synced s2.
Proof.
  intros E Hg. pose proof Hg as [[(Hi & Hok & Hs) Hat] Hse]. destruct (flush_inv s1 Hi) as (s2 & E2 & Hi2 & Et & Ea & Hsync).
  { unfold on_screen. change (term s1) with (tctx s1). rewrite (p_rows _ _ _ Hok), (p_cols _ _ _ Hok). exact Hat. }
  exists s2. split_and!; [| |done|done|done].
  - unfold term_write. rewrite (bind_Ret _ _ _ _ _ E), bind_fld, (p_auto _ _ _ Hok). exact E2.
  - unfold working, good, placed, mid. change (tctx s2) with (term s2). rewrite Et. change (abs s2) with (fb_abs s2). rewrite Ea. by split_and!.
Qed.

(** C35. Whatever bytes are written to a working terminal, either all of them are
    processed, the terminal keeps its invariants (cursor on the screen, registers of
    the parser in range, queue and map consistent) and the framebuffer then shows the
    screen, or the stream holds a byte that ends one of two kinds of sequence (scroll
    margins; colours with a parameter above 255) and everything before it is
    processed that way. *)
Theorem terminal_survives R C l s :
  2 <= R < 2 ^ 31 -> 1 <= C < 2 ^ 31 -> working R C s -> Forall (fun c => 0 <= c < 256) l ->
  (exists s', term_write l s = Ret tt s' /\ working R C s' /\ synced s') \/
  (exists l1 c l2 s', l = l1 ++ c :: l2 /\ term_write l1 s = Ret tt s' /\ working R C s' /\ synced s' /\ hostile (term s') c = true).
Proof.
  intros HR HC Hg Hl. destruct (w_stream R C HR HC l s Hg Hl) as [(s1 & E1 & Hg1)|(l1 & c & l2 & s1 & -> & E1 & Hg1 & Hh)];
    destruct (write_flushes R C _ _ _ E1 Hg1) as (s2 & E2 & Hg2 & Et & _ & Hs).
  - left. by exists s2.
  - right. exists l1, c, l2, s2. split_and!; [done|done|done|done|]. by rewrite Et.
Qed.

(** C36. Printable text and newlines written to a terminal whose parser is in the
    ground state change the screen as typing them one after the other does (advance,
    wrap at the end of a line, scroll on the last one), leave the parser as it was,
    and the framebuffer shows the result. *)
Theorem terminal_text R C l s :
  2 <= R < 2 ^ 31 -> 1 <= C < 2 ^ 31 -> working R C s -> ground (term s) = true -> insert_mode (term s) = false ->
  Forall (fun c => printable c = true \/ c = 10) l ->
  exists s', term_write l s = Ret tt s' /\ working R C s' /\ term s' = term s /\ fb_abs s' = fold_left (typed R (term s)) l (fb_abs s) /\ synced s'.
Proof.
  intros HR HC Hg Hgr Hins Hl. destruct (text_stream R C HR HC l s Hg Hgr Hins Hl) as (s1 & E1 & Hg1 & Et1 & Ea1).
  destruct (write_flushes R C _ _ _ E1 Hg1) as (s2 & E2 & Hg2 & Et & Ea & Hs). exists s2. split_and!; [done|done| | |done].
  - rewrite Et. exact Et1.
  - rewrite Ea. exact Ea1.
Qed.

(** Text that fits on its line appears there: the cells from the cursor on
    hold the glyphs of the text in the current colours, every other cell is
    unchanged, and the cursor stands behind the text. *)
Theorem terminal_line R C l s :
  2 <= R < 2 ^ 31 -> 1 <= C < 2 ^ 31 -> working R C s -> ground (term s) = true -> insert_mode (term s) = false ->
  Forall (fun c => printable c = true) l -> cursor_x s + Z.of_nat (length l) < C ->
  exists s', term_write l s = Ret tt s' /\ cursor_x s' = cursor_x s + Z.of_nat (length l) /\ cursor_y s' = cursor_y s /\ synced s' /\
    view s' = list_inserts (Z.to_nat (cursor_y s * C + cursor_x s)) ((fun c => FbChar (glyph_code (term s) c) (text_fg s) (text_bg s)) <$> l) (view s).
Proof.
  intros HR HC Hg Hgr Hins Hl Hfit. destruct (text_stream R C HR HC l s Hg Hgr Hins) as (s1 & E1 & Hg1 & Et1 & Ea1).
  { eapply Forall_impl; [exact Hl|]. by left. }
  pose proof Hg as [[(_ & Hok & _) Hat] _].
  destruct (write_flushes R C _ _ _ E1 Hg1) as (s2 & E2 & Hg2 & Et & Ea & Hs). exists s2. change (abs s1) with (fb_abs s1) in Ea1.
  rewrite Ea1, (typed_line R C HC (tctx s) l (abs s) Hok Hat Hl Hfit) in Ea.
  split; [done|]. split; [exact (f_equal cx Ea)|]. split; [exact (f_equal cy Ea)|]. split; [done|]. exact (f_equal cells Ea).
Qed.

Lemma coordinate_inside limit v : 1 <= v <= limit -> limit < 2 ^ 31 -> coordinate limit v = v - 1.
Proof. intros Hv Hl. unfold coordinate. rewrite wrap_small by lia. by rewrite (proj2 (Z.leb_gt limit (v - 1))) by lia. Qed.

(** The escape sequence for a cursor address, with the row and the column as
    decimal numerals, moves the cursor there: the numbers printed into it are the
    ones the parser reads back.  Cells and colours are unchanged and the parser is in
    the ground state again. *)
Theorem cursor_address_roundtrip R C rs cs s :
  2 <= R < 2 ^ 31 -> 1 <= C < 2 ^ 31 -> working R C s -> ground (term s) = true -> rs <> [] -> cs <> [] -> Forall (fun d => 0 <= d < 10) (rs ++ cs) ->
  1 <= value_be 10 0 rs <= R -> 1 <= value_be 10 0 cs <= C ->
  exists s', term_write (cup rs cs) s = Ret tt s' /\ working R C s' /\ ground (term s') = true /\ synced s' /\
    fb_abs s' = move_to (value_be 10 0 cs - 1) (value_be 10 0 rs - 1) (fb_abs s).
Proof.
  intros HR HC Hg Hgr Hrs Hcs Hd Hrv Hcv. destruct (cup_spec R C HR HC rs cs s Hg Hgr Hrs Hcs Hd) as (s1 & E1 & Hg1 & Hgr1 & _ & Ea1); [lia|lia|].
  destruct (write_flushes R C _ _ _ E1 Hg1) as (s2 & E2 & Hg2 & Et & Ea & Hs). exists s2. split_and!; [done|done|by rewrite Et|done|].
  rewrite Ea. change (fb_abs s1) with (abs s1). rewrite Ea1, !coordinate_inside by lia. done.
Qed.

(** A flush puts every cell of the screen on the framebuffer: pixel by pixel,
    the cell's glyph in its colours (inverted under a visible cursor), transparent
    background taken from the canvas; and it changes nothing of the screen. *)
Theorem flush_shows_screen s :
  fb_inv s -> on_screen (term s) (fb_abs s) ->
  exists s', fbterm_double_buffer_flush s = Ret tt s' /\ fb_inv s' /\ fb_abs s' = fb_abs s /\
    forall i gx gy, 0 <= i < rows (term s) * cols (term s) -> 0 <= gx < glyph_width (fixed s) -> 0 <= gy < glyph_height (fixed s) ->
      let c := shown_at s i in
      let px := offset_x (fixed s) + i mod cols (term s) * glyph_width (fixed s) + gx in
      let py := offset_y (fixed s) + i / cols (term s) * glyph_height (fixed s) + gy in
      framebuffer s' !! (px + py * (pitch (fixed s) / 4)) = Some (shade (fixed s) c (glyph_bit (fixed s) c (bit_at (fixed s) gx gy)) px py).
Proof.
  intros Hi Ho. destruct (flush_spec s (proj1 Hi) Ho) as (s0 & E & _ & _ & _ & _ & _ & _ & _ & Hsh). destruct (flush_inv s Hi Ho) as (s' & E' & Hi' & _ & Ea & _).
  rewrite E in E'. injection E' as ->. exists s'. split_and!; [done|done|done|]. intros i gx gy Hi0 Hgx Hgy. exact (Hsh (proj2 Hi) i Hi0 gx gy Hgx Hgy).
Qed.

(** The font is expanded faithfully: every pixel of every glyph is the bit of
    the font's byte, columns past the eighth empty except that line-drawing
    characters repeat the last one. *)
Theorem font_fill_faithful font fh fw :
  Z.of_nat (length font) = 256 * fh -> 1 <= fh -> 8 <= fw ->
  exists m, font_fill font (256 * fh * fw) fh fw ∅ = Ret tt m /\
    forall c x y, 0 <= c < 256 -> 0 <= x < fw -> 0 <= y < fh -> m !! (c * fh * fw + y * fw + x) = Some (font_pixel font fh c x y).
Proof. apply font_fill_spec. Qed.

(** The 256-colour palette past the first 16: a 6x6x6 cube, then 24 greys. *)
Definition palette (i : Z) : Z :=
  let level k := if k =? 0 then 0 else 55 + 40 * k in
  if i <? 232 then level ((i - 16) / 36) * 65536 + level ((i - 16) / 6 mod 6) * 256 + level ((i - 16) mod 6)
  else (8 + 10 * (i - 232)) * 65793.

Lemma col256_palette : col256 = palette <$> seqZ 16 240.
Proof. vm_compute. reflexivity. Qed.

(** * Coming up *)
Section start.
Context {M : Type} (malloc : Z -> K M Z) (heap_queue : Z -> fbterm_queue_item) (heap_map : Z -> qptr).

(** The blank screen of a framebuffer of [width] by [height] pixels. *)
Definition blank_screen (width height fg : Z) : screen :=
  Screen (replicate (Z.to_nat ((height - 2) / 16 * ((width - 2) / 9))) (FbChar (chr " ") fg TRANSPARENT)) 0 0 (fg, TRANSPARENT) (0, 0, (0, 0)) true.

Lemma blank_parser r k : 2 <= r -> 1 <= k -> parser_ok r k (reinit (blank_term r k)).
Proof.
  intros Hr Hk. split; cbn; try done; try lia.
  - repeat constructor; lia.
  - by right.
  - left. lia.
Qed.

Lemma start_spec fb width height pitch bg fg m :
  (forall n m, wp (malloc n m) (fun p _ => p <> 0)) -> (forall i, heap_map i = QNull) ->
  11 <= width < 2 ^ 30 -> 34 <= height < 2 ^ 30 -> width <= pitch / 4 ->
  exists s m', start_terminal malloc heap_queue heap_map fb width height pitch bg fg m = Ret s m' /\
    working ((height - 2) / 16) ((width - 2) / 9) s /\ term s = reinit (blank_term ((height - 2) / 16) ((width - 2) / 9)) /\ synced s /\
    fb_abs s = blank_screen width height fg.
Proof.
  intros Hm Hmap Hw Hh Hp.
  pose proof (init_spec malloc heap_queue heap_map Hm Hmap fb width height pitch bg fg 1 1 1 ltac:(lia) ltac:(lia) ltac:(lia) ltac:(lia) ltac:(lia) Hp 0 0 0 m) as Hinit.
  apply wp_ret_inv in Hinit as (s0 & m1 & E0 & Hst). unfold start_terminal. rewrite (bind_Ret _ _ _ _ _ E0).
  pose proof (clear_started width height fg 1 1 1 s0 Hst) as Ec. destruct Hst as [Hok Hq Ht Hs Hold _].
  assert (Hsize : 2 <= (height - 2) / 16 < 2 ^ 30 /\ 1 <= (width - 2) / 9 < 2 ^ 30).
  { split; (split; [apply Z.div_le_lower_bound; lia|apply Z.div_lt_upper_bound; lia]). }
  unfold start_rows, start_cols in *. change (1 * 2) with 2 in *. change (9 * 1) with 9 in *. change (16 * 1) with 16 in *.
  set (s1 := set_cursor 0 0 s0) in *. assert (Hok1 : fb_ok s1) by (destruct Hok; split; try done; unfold word; cbn; lia).
  assert (Ea1 : fb_abs s1 = blank_screen width height fg) by (change (fb_abs s1) with (move_to 0 0 (fb_abs s0)); by rewrite Hs).
  destruct (refresh_spec s1 Hok1 Hq Hold) as (s2 & E2 & Hi2 & Et2 & Ea2 & Hs2). exists s2, m1.
  change (term s1) with (term s0) in Et2. rewrite Ht in Et2. rewrite Ea1 in Ea2. split_and!; [| |done|done|done].
  - rewrite (bind_Ret _ _ _ s1 m1); [unfold run_in; by rewrite E2|unfold run_in; by rewrite Ec].
  - unfold working, good, placed, mid. change (tctx s2) with (term s2). change (abs s2) with (fb_abs s2). rewrite Et2, Ea2.
    split; [split; [split; [exact Hi2|split; [apply blank_parser; lia|unfold at_ok; cbn; lia]]|unfold at_ok; cbn; lia]|done].
Qed.
End start.

(** Bringing the terminal up as the kernel does it (create, clear, draw) on any
    framebuffer of at least one column and two rows of characters gives, when the
    allocator succeeds and the block for the map is cleared memory, a working
    terminal of [(height - 2) / 16] rows and [(width - 2) / 9] columns, blank, with
    its cursor at the origin and the framebuffer showing it. *)
Theorem terminal_starts {M : Type} (malloc : Z -> K M Z) heap_queue heap_map fb width height pitch bg fg m :
  (forall n m, wp (malloc n m) (fun p _ => p <> 0)) -> (forall i, heap_map i = QNull) ->
  11 <= width < 2 ^ 30 -> 34 <= height < 2 ^ 30 -> width <= pitch / 4 ->
  exists s m', start_terminal malloc heap_queue heap_map fb width height pitch bg fg m = Ret s m' /\
    working ((height - 2) / 16) ((width - 2) / 9) s /\ term s = reinit (blank_term ((height - 2) / 16) ((width - 2) / 9)) /\ synced s /\
    fb_abs s = blank_screen width height fg.
Proof. apply start_spec. Qed.

(** * A small terminal: six columns, four rows *)
Definition demo_malloc (n : Z) : K Z Z := fun m => Ret (Z.max 1 m) (m + n).
Definition demo_queue (i : Z) : fbterm_queue_item := QItem 0 0 (FbChar 0 0 0).

Lemma demo_start : exists s, working 4 6 s /\ term s = reinit (blank_term 4 6) /\ synced s /\ fb_abs s = blank_screen 56 66 0xaaaaaa.
Proof.
  destruct (start_spec demo_malloc demo_queue (fun _ => QNull) ∅ 56 66 224 0 0xaaaaaa 4096) as (s & m & _ & Hrest);
    [intros n m; cbn; lia|reflexivity|lia|lia|apply (Z.leb_le 56 (224 / 4)); reflexivity|].
  exists s. exact Hrest.
Qed.

Lemma terminal_starts_witness :
  exists s m', start_terminal demo_malloc demo_queue (fun _ => QNull) ∅ 800 600 3200 0 0xaaaaaa 4096 = Ret s m' /\ working 37 88 s.
Proof.
  destruct (terminal_starts demo_malloc demo_queue (fun _ => QNull) ∅ 800 600 3200 0 0xaaaaaa 4096) as (s & m & E & Hw & _);
    [intros n m; cbn; lia|reflexivity|lia|lia|apply (Z.leb_le 800 (3200 / 4)); reflexivity|].
  exists s, m. split; [exact E|exact Hw].
Defined.

Lemma terminal_survives_witness : exists s, working 4 6 s /\
  ((exists s', term_write [27; chr "["; chr "2"; chr "J"; 255; 10; 27; chr "["; chr "r"] s = Ret tt s' /\ working 4 6 s' /\ synced s') \/
   (exists l1 c l2 s', [27; chr "["; chr "2"; chr "J"; 255; 10; 27; chr "["; chr "r"] = l1 ++ c :: l2 /\ term_write l1 s = Ret tt s' /\ working 4 6 s' /\ synced s' /\ hostile (term s') c = true)).
Proof.
  destruct demo_start as (s & Hw & _). exists s. split; [exact Hw|]. apply (terminal_survives 4 6); [lia|lia|exact Hw|]. apply (bool_decide_unpack _). exact I.
Defined.

Lemma terminal_text_witness : exists s s', term_write (repeat (chr "x") 30 ++ [10; 0xe9]) s = Ret tt s' /\ working 4 6 s' /\ synced s'.
Proof.
  destruct demo_start as (s & Hw & Et & _). exists s.
  destruct (terminal_text 4 6 (repeat (chr "x") 30 ++ [10; 0xe9]) s) as (s' & E & Hw' & _ & _ & Hs); [lia|lia|exact Hw|rewrite Et; reflexivity|rewrite Et; reflexivity| |].
  - apply Forall_app. split; [|repeat constructor; by auto]. apply Forall_forall. intros c Hc. left. apply list_elem_of_In, repeat_spec in Hc as ->. reflexivity.
  - exists s'. split; [exact E|]. split; [exact Hw'|exact Hs].
Defined.

Lemma terminal_line_witness : exists s s', term_write [chr "O"; chr "K"] s = Ret tt s' /\ cursor_x s' = 2 /\ synced s' /\
  view s' = list_inserts 0 [FbChar (chr "O") 0xaaaaaa TRANSPARENT; FbChar (chr "K") 0xaaaaaa TRANSPARENT] (replicate 24 (FbChar (chr " ") 0xaaaaaa TRANSPARENT)).
Proof.
  destruct demo_start as (s & Hw & Et & _ & Ea). exists s. pose proof (f_equal cx Ea) as Ex. pose proof (f_equal cy Ea) as Ey. cbn in Ex, Ey.
  destruct (terminal_line 4 6 [chr "O"; chr "K"] s) as (s' & E & Ex' & _ & Hs & Hv);
    [lia|lia|exact Hw|rewrite Et; reflexivity|rewrite Et; reflexivity|repeat constructor|rewrite Ex; reflexivity|].
  exists s'. split; [exact E|]. split; [rewrite Ex', Ex; reflexivity|]. split; [exact Hs|]. rewrite Hv, Et, Ex, Ey.
  pose proof (f_equal cells Ea) as Ec. pose proof (f_equal colours Ea) as Ek. cbn [cells colours fb_abs blank_screen] in Ec, Ek. injection Ek as -> ->. rewrite Ec. reflexivity.
Defined.

Lemma cursor_address_roundtrip_witness : exists s s', term_write (cup [0; 3] [5]) s = Ret tt s' /\ cursor_x s' = 4 /\ cursor_y s' = 2 /\ synced s'.
Proof.
  destruct demo_start as (s & Hw & Et & _ & Ea). exists s.
  destruct (cursor_address_roundtrip 4 6 [0; 3] [5] s) as (s' & E & _ & _ & Hs & Ea');
    [lia|lia|exact Hw|rewrite Et; reflexivity|done|done|apply (bool_decide_unpack _); exact I|cbn; lia|cbn; lia|].
  exists s'. split; [exact E|]. split; [exact (f_equal cx Ea')|]. split; [exact (f_equal cy Ea')|exact Hs].
Defined.

Lemma flush_shows_screen_witness : exists s s', fbterm_double_buffer_flush s = Ret tt s' /\ fb_inv s' /\ fb_abs s' = blank_screen 56 66 0xaaaaaa.
Proof.
  destruct demo_start as (s & Hw & Et & _ & Ea). exists s.
  destruct (flush_shows_screen s) as (s' & E & Hi & Ea' & _); [exact (proj1 (proj1 (proj1 Hw)))|rewrite Et, Ea; unfold on_screen; cbn; lia|].
  exists s'. split; [exact E|]. split; [exact Hi|]. rewrite Ea'. exact Ea.
Defined.

Lemma font_fill_faithful_witness : exists m, font_fill builtin_font (256 * 16 * 9) 16 9 ∅ = Ret tt m /\ m !! (65 * 16 * 9 + 5 * 9 + 1) = Some true.
Proof.
  destruct (font_fill_faithful builtin_font 16 9) as (m & E & Hm); [reflexivity|lia|lia|]. exists m. split; [exact E|]. rewrite Hm by lia. reflexivity.
Defined.

(** * What breaks it *)

(** A blank terminal of six columns and four rows, its font not filled in. *)
Definition tiny (map_entry : qptr) : fbterm_context :=
  Fbterm (FbFixed 9 16 9 16 1 1 1 1 224 56 66 [] ∅ default_ansi_colours default_bright_colours 0xaaaaaa 0 (replicate 3696 0)
            (0, 0) (0, 36864) (0, 0) (0, 0) (0, 0) (0, 0) (0, 0))
    (reinit (blank_term 4 6)) ∅ (replicate 24 (FbChar (chr " ") 0xaaaaaa TRANSPARENT)) (replicate 24 (demo_queue 0)) 0 (replicate 24 map_entry)
    0xaaaaaa TRANSPARENT true 0 0 0 0 0 0 0 0.
Definition bytes (text : string) : list Z := (fun c => Z.of_nat (nat_of_ascii c)) <$> String.list_ascii_of_string text.
Definition faults {A} (o : outcome fbterm_context A) : option Z := match o with Fault a _ => Some a | _ => None end.

(** A bottom margin of 0 passes the check, because [bottom - 1] wraps; a reverse
    line feed then starts from an index far outside the map. *)
Lemma margin_zero_faults : faults (term_write ([27] ++ bytes "[1;0r" ++ [27] ++ bytes "M") (tiny QNull)) = Some (2 ^ 64 - 7).
Proof. vm_compute. reflexivity. Qed.

(** With a region that ends above the last row, text on the last row pushes the
    cursor below the screen and the flush reads the map past its end. *)
Lemma below_region_faults : faults (term_write ([27] ++ bytes "[1;2r" ++ [27] ++ bytes "[4;1Habcdef") (tiny QNull)) = Some 24.
Proof. vm_compute. reflexivity. Qed.

(** A 256-colour index is not checked against the table. *)
Lemma colour_index_faults : faults (term_write ([27] ++ bytes "[38;5;300m") (tiny QNull)) = Some 284.
Proof. vm_compute. reflexivity. Qed.

(** A coordinate of 0 wraps: the home position is at the other corner. *)
Lemma address_zero_wraps : exists s, for_each ([27] ++ bytes "[0;0H") (fun c => term_putchar (u8 c)) (tiny QNull) = Ret tt s /\ (cursor_x s, cursor_y s) = (5, 3).
Proof. eexists. split; vm_compute; reflexivity. Qed.

(** Whatever the block of the map held is taken for pointers. *)
Lemma dirty_map_faults : faults (fbterm_clear true (tiny QWild)) = Some 0.
Proof. vm_compute. reflexivity. Qed.
End TerminalSpec.
