(* ===== verification/Memtest.v ===== *)
(** The memory qualification suite, [src/src/mm/memtest.c].

    The suite is a client of the heap ([KHeap]) and of the frame allocator, which
    it sees through the class [MemtestMachine]; it prints through [printf_].
    [pages] holds the bytes of the frames it writes through the direct map (at
    [hhdm]); the locals of a randomised cycle, its seed and statistics, are the
    fields [seed] and [stats].  [yield] is what the other tasks do to heap and
    frames while the suite is in [schedule()]. *)
From Stdlib Require Import Ascii.
From S2P Require Import Prelude CString Printf Putchar KHeap HeapBytes.

Definition MEMTEST_SLOT_COUNT : Z := 128.
Definition MEMTEST_PMM_MAX_FRAMES : Z := 256.
Definition MEMTEST_PAGE_SIZE : Z := 4096.
Definition MEMTEST_RANDOM_OPS : Z := 10000.
Definition MEMTEST_RANDOM_MAX_ALLOC : Z := 32768.
Definition MEMTEST_GROWTH_SLOTS : Z := 64.
Definition MEMTEST_GROWTH_SIZE : Z := 32768.

Record memtest_slot : Type := Slot { sl_ptr : Z; sl_size : Z; sl_tag : Z }.
Record memtest_stats : Type := Stats {
  operations : Z; allocations : Z; frees : Z; reallocations : Z; live_bytes : Z; peak_live_bytes : Z;
}.
Definition no_slot : memtest_slot := Slot 0 0 0.
Definition no_stats : memtest_stats := Stats 0 0 0 0 0 0.

Definition payload_pattern (tag offset : Z) : Z :=
  Z.lxor (Z.lxor (Z.lxor tag (u8 offset)) (u8 (Z.shiftr offset 8))) (u8 (Z.shiftr offset 16)).
Definition page_pattern (page_index offset : Z) : Z :=
  Z.lxor (Z.lxor (Z.lxor (u8 page_index) (u8 offset)) (u8 (Z.shiftr offset 8))) 0xA5.

(** What the suite uses besides the heap's entry points. *)
Class MemtestMachine (H : Type) : Type := {
  mm_usable_size : Z -> K H Z;          (* kmalloc_usable_size *)
  mm_frame_alloc : K H Z;
  mm_frame_free : Z -> K H unit;        (* n_frame_free *)
  mm_free_count : K H Z;                (* frame_free_count *)
}.

Section memtest.
Context {H : Type} `{KernelHeap H} `{MemtestMachine H}.

Record mt : Type := Mt {
  mheap : H;
  mcon : con;
  g_slots : list memtest_slot;
  g_pmm_frames : list Z;
  pages : gmap Z Z;
  seed : Z;
  stats : memtest_stats;
}.
Definition set_mheap (h : H) (s : mt) : mt := Mt h (mcon s) (g_slots s) (g_pmm_frames s) (pages s) (seed s) (stats s).
Definition set_mcon (c : con) (s : mt) : mt := Mt (mheap s) c (g_slots s) (g_pmm_frames s) (pages s) (seed s) (stats s).
Definition set_slots (l : list memtest_slot) (s : mt) : mt := Mt (mheap s) (mcon s) l (g_pmm_frames s) (pages s) (seed s) (stats s).
Definition set_pmm_frames (l : list Z) (s : mt) : mt := Mt (mheap s) (mcon s) (g_slots s) l (pages s) (seed s) (stats s).
Definition set_pages (m : gmap Z Z) (s : mt) : mt := Mt (mheap s) (mcon s) (g_slots s) (g_pmm_frames s) m (seed s) (stats s).
Definition set_seed (v : Z) (s : mt) : mt := Mt (mheap s) (mcon s) (g_slots s) (g_pmm_frames s) (pages s) v (stats s).
Definition set_stats (v : memtest_stats) (s : mt) : mt := Mt (mheap s) (mcon s) (g_slots s) (g_pmm_frames s) (pages s) (seed s) v.

Variable clock : list effect -> Z.
Variable depth : nat.
Variable yield : K H unit.
Variable hhdm_response : option Z.

Definition heap_op {A} (c : K H A) : K mt A := zoom mheap set_mheap c.
Definition schedule_point : K mt unit := heap_op yield.
Definition tsay (format : list Z) (va : list va_arg) : K mt unit := zoom mcon set_mcon (printf_console (_putchar clock depth) format va).
(** [printf_("%s\n", m)], [printf_("%s%s\n", m, t)], [printf_("%s%llu\n", m, v)] *)
Definition tline (m : string) : K mt unit := tsay (chars "%s" ++ [10; 0]) [Str (cstr m)].
Definition ttext (m t : string) : K mt unit := tsay (chars "%s%s" ++ [10; 0]) [Str (cstr m); Str (cstr t)].
Definition tnum (m : string) (v : Z) : K mt unit := tsay (chars "%s%llu" ++ [10; 0]) [Str (cstr m); Word v].

Definition memtest_fail {A} (phase : string) (slot offset expected actual : Z) : K mt A :=
  do! tline "" in
  do! tline "[MEMTEST] FAILURE" in
  do! ttext "Phase: " phase in
  do! tnum "Slot: " slot in
  do! tnum "Offset: " offset in
  do! tsay (chars "%s%u" ++ [10; 0]) [Str (cstr "Expected: "); Word expected] in
  do! tsay (chars "%s%u" ++ [10; 0]) [Str (cstr "Actual: "); Word actual] in
  panic "memtest: data corruption detected".

(** ** Slots *)
Definition slot (i : Z) : K mt memtest_slot := fun s =>
  match g_slots s !! Z.to_nat i with Some x => Ret x s | None => Fault i s end.
Definition put_slot (i : Z) (x : memtest_slot) : K mt unit := fun s =>
  if (0 <=? i) && (i <? Z.of_nat (length (g_slots s))) then Ret tt (set_slots (<[Z.to_nat i := x]> (g_slots s)) s) else Fault i s.

Definition clear_slots : K mt unit := for_range 0 MEMTEST_SLOT_COUNT (fun i => put_slot i no_slot).

Definition verify_prefix (phase : string) (slot_index ptr size tag : Z) : K mt unit :=
  for_range 0 size (fun i =>
    let expected := payload_pattern tag i in
    let! v := heap_op (heap_ld8 (ptr + i)) in
    if v =? expected then ret tt else
    let! v := heap_op (heap_ld8 (ptr + i)) in
    memtest_fail phase slot_index i expected v).

Definition fill_slot (slot_index : Z) : K mt unit :=
  let! x := slot slot_index in
  for_range 0 (sl_size x) (fun i => heap_op (heap_st8 (sl_ptr x + i) (payload_pattern (sl_tag x) i))).

Definition verify_slot (phase : string) (slot_index : Z) : K mt unit :=
  let! x := slot slot_index in
  if sl_ptr x =? 0 then ret tt else verify_prefix phase slot_index (sl_ptr x) (sl_size x) (sl_tag x).

Definition verify_all (phase : string) : K mt unit := for_range 0 MEMTEST_SLOT_COUNT (verify_slot phase).

Definition verify_alignment (phase : string) (slot_index ptr : Z) : K mt unit :=
  when (is_set ptr 0xF)
    (do! ttext "[MEMTEST] Phase: " phase in
     do! tnum "Unaligned slot: " slot_index in
     do! tsay (chars "%s%llx" ++ [10; 0]) [Str (cstr "Pointer: 0x"); Word ptr] in
     panic "memtest: kmalloc returned a non-16-byte-aligned pointer").

Definition verify_no_overlap (phase : string) (slot_index ptr size : Z) : K mt unit :=
  let end_ := u64 (ptr + size) in
  if end_ <? ptr then panic "memtest: allocation address overflow" else
  for_range 0 MEMTEST_SLOT_COUNT (fun i =>
    let! x := slot i in
    if (i =? slot_index) || (sl_ptr x =? 0) then ret tt else
    let other_end := u64 (sl_ptr x + sl_size x) in
    when ((ptr <? other_end) && (sl_ptr x <? end_))
      (do! ttext "[MEMTEST] Phase: " phase in
       do! tsay (chars "%s%llu%s%llu" ++ [10; 0])
             [Str (cstr "Allocation overlap between slots "); Word slot_index; Str (cstr " and "); Word i] in
       panic "memtest: allocator returned overlapping payloads")).

Definition set_slot (slot_index ptr size tag : Z) (phase : string) : K mt unit :=
  if ptr =? 0 then
    do! ttext "[MEMTEST] Allocation failed in phase: " phase in
    do! tnum "Requested bytes: " size in
    panic "memtest: unexpected allocation failure"
  else
  do! verify_alignment phase slot_index ptr in
  let! usable := heap_op (mm_usable_size ptr) in
  do! when (usable <? size)
    (do! ttext "[MEMTEST] Phase: " phase in
     do! tsay (chars "%s%llu%s%llu" ++ [10; 0])
           [Str (cstr "Allocator reported usable size "); Word usable; Str (cstr " for request "); Word size] in
     panic "memtest: kmalloc usable size smaller than requested size") in
  do! verify_no_overlap phase slot_index ptr size in
  do! put_slot slot_index (Slot ptr size tag) in
  fill_slot slot_index.

Definition release_slot (phase : string) (slot_index : Z) : K mt unit :=
  let! x := slot slot_index in
  if sl_ptr x =? 0 then ret tt else
  do! verify_slot phase slot_index in
  do! heap_op (kh_free (sl_ptr x)) in
  put_slot slot_index no_slot.

(** [set_slot(i, kmalloc(size), size, tag, phase)] *)
Definition alloc_slot (slot_index size tag : Z) (phase : string) : K mt unit :=
  let! p := heap_op (kh_malloc size) in set_slot slot_index p size tag phase.

(** ** The frame allocator *)
Definition frame (i : Z) : K mt Z := fun s =>
  match g_pmm_frames s !! Z.to_nat i with Some x => Ret x s | None => Fault i s end.
Definition put_frame (i p : Z) : K mt unit := fun s =>
  if (0 <=? i) && (i <? Z.of_nat (length (g_pmm_frames s))) then Ret tt (set_pmm_frames (<[Z.to_nat i := p]> (g_pmm_frames s)) s) else Fault i s.
Definition page_st8 (a v : Z) : K mt unit := modify (fun s => set_pages (<[a := u8 v]> (pages s)) s).
Definition page_ld8 (a : Z) : K mt Z := gets (fun s => default 0 (pages s !! a)).

Definition pmm_take (hhdm i : Z) : K mt unit :=
  let! p := heap_op mm_frame_alloc in
  if is_set p (MEMTEST_PAGE_SIZE - 1) then panic "memtest: frame_alloc returned an unaligned frame" else
  do! for_range 0 i (fun j =>
        let! q := frame j in
        when (q =? p) (panic "memtest: frame_alloc returned a duplicate live frame")) in
  do! put_frame i p in
  let page := u64 (p + hhdm) in
  do! for_range 0 MEMTEST_PAGE_SIZE (fun off => page_st8 (page + off) (page_pattern i off)) in
  when (Z.land i 31 =? 31) schedule_point.

Definition pmm_check (hhdm i : Z) : K mt unit :=
  let! p := frame i in
  let page := u64 (p + hhdm) in
  for_range 0 MEMTEST_PAGE_SIZE (fun off =>
    let expected := page_pattern i off in
    let! v := page_ld8 (page + off) in
    if v =? expected then ret tt else
    let! v := page_ld8 (page + off) in
    memtest_fail "neo-PMM page verify" i off expected v).

Definition pmm_give (i : Z) : K mt unit :=
  let! p := frame (i - 1) in
  do! heap_op (mm_frame_free p) in
  put_frame (i - 1) 0.

Definition pmm_roundtrip_test : K mt unit :=
  do! tline "[MEMTEST] 1/6 neo-PMM round-trip..." in
  match hhdm_response with
  | None => panic "memtest: HHDM unavailable"
  | Some hhdm =>
      let! before := heap_op mm_free_count in
      let count := if before <=? MEMTEST_PMM_MAX_FRAMES + 32 then before / 4 else MEMTEST_PMM_MAX_FRAMES in
      if count <? 8 then panic "memtest: insufficient free frames for PMM qualification" else
      do! for_range 0 count (pmm_take hhdm) in
      let! after_alloc := heap_op mm_free_count in
      do! when (negb (u64 (after_alloc + count) =? before))
        (do! tsay (chars "%s%llu%s%llu%s%llu" ++ [10; 0])
               [Str (cstr "[MEMTEST] PMM count mismatch: before="); Word before; Str (cstr " after_alloc="); Word after_alloc;
                Str (cstr " frames="); Word count] in
         panic "memtest: PMM accounting mismatch after allocation") in
      do! for_range 0 count (pmm_check hhdm) in
      do! for_steps (Z.to_nat count) count (-1) pmm_give in
      let! after_free := heap_op mm_free_count in
      when (negb (after_free =? before))
        (do! tsay (chars "%s%llu%s%llu" ++ [10; 0])
               [Str (cstr "[MEMTEST] PMM free-count leak: before="); Word before; Str (cstr " after="); Word after_free] in
         panic "memtest: PMM did not recover all round-trip frames")
  end.

(** ** The heap *)
Definition g_basic_sizes : list Z :=
  [1; 7; 15; 16; 17; 31; 32; 33; 63; 64; 65; 255; 256; 257; 1000; 4095; 4096; 4097; 8192; 16384].

Definition basic_heap_test : K mt unit :=
  do! tline "[MEMTEST] 2/6 basic kmalloc/free boundaries..." in
  do! clear_slots in
  for_range 0 (Z.of_nat (length g_basic_sizes)) (fun i =>
    let size := default 0 (g_basic_sizes !! Z.to_nat i) in
    do! alloc_slot 0 size (u8 (0x31 + i)) "basic allocation" in
    do! verify_slot "basic verify" 0 in
    release_slot "basic free" 0).

(** [if (tag == 0) tag = d;] *)
Definition nonzero_tag (tag d : Z) : Z := if tag =? 0 then d else tag.

Definition fragmentation_test : K mt unit :=
  do! tline "[MEMTEST] 3/6 fragmentation/split/coalesce..." in
  do! clear_slots in
  do! for_range 0 MEMTEST_SLOT_COUNT (fun i =>
        alloc_slot i (24 + (i * 173) mod 7000) (nonzero_tag (u8 (Z.lxor 0x40 i)) 0x40) "fragmentation initial fill") in
  do! verify_all "fragmentation initial verify" in
  do! for_steps 64 1 2 (release_slot "fragmentation hole creation") in
  do! verify_all "fragmentation survivors" in
  do! for_steps 64 1 2 (fun i =>
        alloc_slot i (73 + (i * 521) mod 9000) (nonzero_tag (u8 (Z.lxor 0xB3 i)) 0xB3) "fragmentation hole refill") in
  do! verify_all "fragmentation refill verify" in
  for_range 0 MEMTEST_SLOT_COUNT (fun step =>
    do! release_slot "fragmentation shuffled free" ((step * 73) mod MEMTEST_SLOT_COUNT) in
    when (Z.land step 31 =? 31) schedule_point).

Definition realloc_sizes : list Z := [100; 200; 2000; 4097; 16384; 8192; 128].

Definition realloc_step (tag size : Z) : K mt unit :=
  do! verify_slot "realloc precheck" 0 in
  let! x := slot 0 in
  let! new_ptr := heap_op (kh_realloc (sl_ptr x) size) in
  if new_ptr =? 0 then panic "memtest: krealloc unexpectedly failed" else
  do! verify_prefix "realloc preserved prefix" 0 new_ptr (Z.min (sl_size x) size) tag in
  do! put_slot 0 (Slot new_ptr size tag) in
  do! verify_alignment "realloc alignment" 0 new_ptr in
  fill_slot 0.

Definition realloc_test : K mt unit :=
  do! tline "[MEMTEST] 4/6 krealloc preservation..." in
  do! clear_slots in
  let tag := 0x5A in
  do! alloc_slot 0 (default 0 (realloc_sizes !! 0%nat)) tag "realloc initial" in
  do! for_each (drop 1 realloc_sizes) (realloc_step tag) in
  do! release_slot "realloc chain free" 0 in
  let! special := heap_op (kh_realloc 0 512) in
  do! set_slot 0 special 512 0xC7 "krealloc NULL" in
  do! verify_slot "krealloc NULL verify" 0 in
  let! x := slot 0 in
  let! zero_result := heap_op (kh_realloc (sl_ptr x) 0) in
  if negb (zero_result =? 0) then panic "memtest: krealloc(ptr, 0) did not return NULL" else
  do! put_slot 0 no_slot in
  do! alloc_slot 0 2048 0xD1 "realloc adjacent A" in
  do! alloc_slot 1 8192 0xD2 "realloc adjacent B" in
  do! release_slot "realloc free adjacent B" 1 in
  let! x := slot 0 in
  let before := sl_ptr x in
  let! grown := heap_op (kh_realloc before 6144) in
  if grown =? 0 then panic "memtest: adjacent krealloc failed" else
  do! verify_prefix "realloc adjacent preservation" 0 grown 2048 0xD1 in
  do! put_slot 0 (Slot grown 6144 0xD1) in
  do! fill_slot 0 in
  do! verify_slot "realloc adjacent final verify" 0 in
  do! (if grown =? before then tline "[MEMTEST] krealloc in-place growth path observed."
       else tline "[MEMTEST] krealloc used fallback move path.") in
  release_slot "realloc adjacent final free" 0.

Definition heap_growth_test : K mt unit :=
  do! tline "[MEMTEST] 5/6 forcing multi-megabyte heap growth..." in
  do! clear_slots in
  let! frames_before := heap_op mm_free_count in
  do! for_range 0 MEMTEST_GROWTH_SLOTS (fun i =>
        do! alloc_slot i (MEMTEST_GROWTH_SIZE + Z.land i 7 * 257) (u8 (0x70 + i)) "heap growth allocation" in
        when (Z.land i 7 =? 7) schedule_point) in
  do! verify_all "heap growth verify" in
  let! frames_after_alloc := heap_op mm_free_count in
  do! for_steps (Z.to_nat MEMTEST_GROWTH_SLOTS) MEMTEST_GROWTH_SLOTS (-1) (fun i => release_slot "heap growth free" (i - 1)) in
  let! frames_after_free := heap_op mm_free_count in
  do! tnum "[MEMTEST] PMM frames before heap growth: " frames_before in
  do! tnum "[MEMTEST] PMM frames after heap growth:  " frames_after_alloc in
  do! tnum "[MEMTEST] PMM frames after heap frees:   " frames_after_free in
  when (negb (frames_after_free =? frames_after_alloc)) (panic "memtest: heap frees unexpectedly changed PMM frame ownership").

(** ** Random operations *)
Definition xorshift64_step (x : Z) : Z :=
  let x := Z.lxor x (u64 (Z.shiftl x 13)) in
  let x := Z.lxor x (Z.shiftr x 7) in
  Z.lxor x (u64 (Z.shiftl x 17)).
Definition xorshift64 : K mt Z :=
  let! s := get in
  let x := xorshift64_step (seed s) in
  do! modify (set_seed x) in ret x.

Definition tally (f : memtest_stats -> memtest_stats) : K mt unit := modify (fun s => set_stats (f (stats s)) s).
Definition count_op (t : memtest_stats) : memtest_stats :=
  Stats (u64 (operations t + 1)) (allocations t) (frees t) (reallocations t) (live_bytes t) (peak_live_bytes t).
Definition count_alloc (t : memtest_stats) : memtest_stats :=
  Stats (operations t) (u64 (allocations t + 1)) (frees t) (reallocations t) (live_bytes t) (peak_live_bytes t).
Definition count_free (t : memtest_stats) : memtest_stats :=
  Stats (operations t) (allocations t) (u64 (frees t + 1)) (reallocations t) (live_bytes t) (peak_live_bytes t).
Definition count_realloc (t : memtest_stats) : memtest_stats :=
  Stats (operations t) (allocations t) (frees t) (u64 (reallocations t + 1)) (live_bytes t) (peak_live_bytes t).
Definition stats_sub_live (amount : Z) (t : memtest_stats) : memtest_stats :=
  Stats (operations t) (allocations t) (frees t) (reallocations t) (u64 (live_bytes t - amount)) (peak_live_bytes t).
Definition stats_add_live (amount : Z) (t : memtest_stats) : memtest_stats :=
  let live := u64 (live_bytes t + amount) in
  Stats (operations t) (allocations t) (frees t) (reallocations t) live (if peak_live_bytes t <? live then live else peak_live_bytes t).

Definition random_alloc (index : Z) : K mt unit :=
  let! r := xorshift64 in
  let size := 1 + r mod MEMTEST_RANDOM_MAX_ALLOC in
  let! r := xorshift64 in
  let tag := nonzero_tag (u8 (Z.land r 0xFF)) 0xA5 in
  do! alloc_slot index size tag "random allocation" in
  do! tally count_alloc in
  tally (stats_add_live size).

Definition random_free (phase : string) (index old_size : Z) : K mt unit :=
  do! release_slot phase index in
  do! tally count_free in
  tally (stats_sub_live old_size).

Definition random_realloc (index : Z) : K mt unit :=
  do! verify_slot "random realloc precheck" index in
  let! x := slot index in
  let! r := xorshift64 in
  let new_size := 1 + r mod MEMTEST_RANDOM_MAX_ALLOC in
  let! new_ptr := heap_op (kh_realloc (sl_ptr x) new_size) in
  if new_ptr =? 0 then panic "memtest: random krealloc failed" else
  do! verify_prefix "random realloc preservation" index new_ptr (Z.min (sl_size x) new_size) (sl_tag x) in
  do! put_slot index (Slot new_ptr new_size (sl_tag x)) in
  do! verify_alignment "random realloc alignment" index new_ptr in
  do! verify_no_overlap "random realloc overlap" index new_ptr new_size in
  do! fill_slot index in
  do! tally count_realloc in
  do! tally (stats_sub_live (sl_size x)) in
  tally (stats_add_live new_size).

Definition random_op (op : Z) : K mt unit :=
  let! r := xorshift64 in
  let index := r mod MEMTEST_SLOT_COUNT in
  let! x := slot index in
  do! (if sl_ptr x =? 0 then random_alloc index else
       let! r := xorshift64 in
       let action := r mod 100 in
       if action <? 35 then random_free "random free" index (sl_size x)
       else if action <? 75 then random_realloc index
       else verify_slot "random spot verify" index) in
  do! tally count_op in
  when (Z.land op 63 =? 63) (do! verify_all "random periodic full verify" in schedule_point).

Definition random_cycle (seed0 : Z) : K mt unit :=
  do! modify (set_seed seed0) in
  do! clear_slots in
  do! for_range 0 MEMTEST_RANDOM_OPS random_op in
  do! verify_all "random final verify" in
  do! for_range 0 MEMTEST_SLOT_COUNT (fun step =>
        let index := (step * 73) mod MEMTEST_SLOT_COUNT in
        let! x := slot index in
        if sl_ptr x =? 0 then ret tt else random_free "random cleanup" index (sl_size x)) in
  let! s := get in
  when (negb (live_bytes (stats s) =? 0)) (panic "memtest: random-cycle live byte accounting did not return to zero").

Definition randomized_heap_test : K mt unit :=
  do! tline "[MEMTEST] 6/6 deterministic randomized torture..." in
  let seed0 := 0x564F59414745524F in
  let! frames_before := heap_op mm_free_count in
  do! modify (set_stats no_stats) in
  do! random_cycle seed0 in
  let! first := gets stats in
  let! frames_after_first := heap_op mm_free_count in
  do! modify (set_stats no_stats) in
  do! random_cycle seed0 in
  let! second := gets stats in
  let! frames_after_second := heap_op mm_free_count in
  do! tnum "[MEMTEST] Random operations/cycle: " (operations first) in
  do! tnum "[MEMTEST] Allocations: " (allocations first) in
  do! tnum "[MEMTEST] Frees: " (frees first) in
  do! tnum "[MEMTEST] Reallocations: " (reallocations first) in
  do! tnum "[MEMTEST] Peak live bytes: " (peak_live_bytes first) in
  do! tsay (chars "%s%llu%s%llu%s%llu" ++ [10; 0])
        [Str (cstr "[MEMTEST] PMM free frames before/after1/after2: "); Word frames_before; Str (cstr " / "); Word frames_after_first;
         Str (cstr " / "); Word frames_after_second] in
  if negb (operations first =? operations second) || negb (allocations first =? allocations second) ||
     negb (reallocations first =? reallocations second) || negb (peak_live_bytes first =? peak_live_bytes second)
  then panic "memtest: deterministic random cycles produced different stats" else
  when (frames_after_second <? frames_after_first)
    (do! tline "[MEMTEST] WARNING: second identical cycle grew the heap again." in
     tline "[MEMTEST] Data integrity passed, but inspect fragmentation/reuse.").

Definition memtest_run : K mt unit :=
  do! tline "" in
  do! tline "============================================" in
  do! tline " VoyagerOS64 Stage-2 Memory Qualification" in
  do! tline "============================================" in
  do! pmm_roundtrip_test in
  do! basic_heap_test in
  do! fragmentation_test in
  do! realloc_test in
  do! heap_growth_test in
  do! randomized_heap_test in
  do! clear_slots in
  do! tline "============================================" in
  do! tline "[MEMTEST] PASS - no corruption detected" in
  tline "============================================".
End memtest.
Arguments mt H : clear implicits.
