(* ===== verification/MemtestSpec.v ===== *)
(** The memory qualification suite against the heap it tests: on a heap that
    satisfies its laws no check of the suite fails, and the suite gives back all it
    took. *)
From Stdlib Require Import Ascii.
From S2P Require Import Prelude CString Printf PrintfSpec Putchar PrintTotal KHeap HeapBytes Memtest.

Module MemtestSpec.
Import PrintfSpec PrintTotal.

(** What the suite relies on beyond [KernelHeapLaws]. *)
Class MemtestLaws (H : Type) `{HH : KernelHeap H} {HL : KernelHeapLaws H} `{HM : MemtestMachine H} : Type := {
  mt_frames : H -> Z;
  mt_usable h n A p ws : kh_rep h n A -> A !! p = Some ws -> mm_usable_size p h = Ret (8 * Z.of_nat (length ws)) h;
  mt_disjoint h n A p ws q us : kh_rep h n A -> A !! p = Some ws -> A !! q = Some us -> p <> q ->
    p + 8 * Z.of_nat (length ws) <= q \/ q + 8 * Z.of_nat (length us) <= p;
  mt_realloc_zero h n A p ws : kh_rep h n A -> A !! p = Some ws -> exists h', kh_realloc p 0 h = Ret 0 h' /\ kh_rep h' n (delete p A);
  mt_count h n A : kh_rep h n A -> mm_free_count h = Ret (mt_frames h) h;
  mt_free_frames h n A p ws h' : kh_rep h n A -> A !! p = Some ws -> kh_free p h = Ret tt h' -> mt_frames h' = mt_frames h;
}.

(** The first [size] bytes carry the pattern. *)
Definition filled (ws : list Z) (tag size : Z) : Prop := forall k, 0 <= k < size -> byte_at ws k = payload_pattern tag k.

Lemma pattern_byte tag k : 0 <= tag < 256 -> u8 (payload_pattern tag k) = payload_pattern tag k.
Proof.
  intros Ht. apply Z.bits_inj'. intros n Hn. rewrite wrap_testbit by lia. destruct (Z.ltb_spec n 8) as [|Hge]; [done|]. cbn [andb].
  unfold payload_pattern. rewrite !Z.lxor_spec, !wrap_testbit by lia. rewrite (proj2 (Z.ltb_ge n 8)) by lia. cbn [andb].
  rewrite !xorb_false_r. symmetry. apply (Z.bits_above_log2 tag n); [lia|].
  destruct (decide (tag = 0)) as [->|]; [cbn; lia|]. apply Z.log2_lt_pow2; [lia|]. apply (Z.lt_le_trans _ (2 ^ 8)); [lia|]. apply Z.pow_le_mono_r; lia.
Qed.

(** The slots own exactly the payloads [own]. *)
Record held (sl : list memtest_slot) (own : gmap Z (list Z)) : Prop := {
  h_len : length sl = 128%nat;
  h_null : own !! 0 = None;
  h_tag i x : sl !! i = Some x -> 0 <= sl_tag x < 256;
  h_live i x : sl !! i = Some x -> sl_ptr x <> 0 ->
    exists ws, own !! sl_ptr x = Some ws /\ 0 <= sl_size x <= 8 * Z.of_nat (length ws) /\ filled ws (sl_tag x) (sl_size x);
  h_back p ws : own !! p = Some ws -> exists i x, sl !! i = Some x /\ sl_ptr x = p;
  h_inj i j x y : sl !! i = Some x -> sl !! j = Some y -> sl_ptr x <> 0 -> sl_ptr x = sl_ptr y -> i = j;
}.

Lemma held_fill sl own (i : nat) x p ws size tag :
  held sl own -> sl !! i = Some x -> sl_ptr x = 0 -> p <> 0 -> own !! p = None ->
  0 <= size <= 8 * Z.of_nat (length ws) -> 0 <= tag < 256 -> filled ws tag size -> held (<[i := Slot p size tag]> sl) (<[p := ws]> own).
Proof.
  intros [Hl Hn Ht Hv Hb Hj] Hx Hx0 Hp Hnew Hs Htag Hf. assert (Hlt : (i < length sl)%nat) by (by eapply lookup_lt_Some).
  assert (Hfresh : forall j y, sl !! j = Some y -> sl_ptr y <> p).
  { intros j y Hy E. destruct (Hv _ _ Hy) as (us & Hu & _); [congruence|]. congruence. }
  split.
  - by rewrite length_insert.
  - by rewrite lookup_insert_ne.
  - intros j y. rewrite list_lookup_insert_Some. intros [(_ & <- & _)|(_ & Hy)]; [done|by eapply Ht].
  - intros j y. rewrite list_lookup_insert_Some. intros [(_ & <- & _)|(_ & Hy)] Hy0; [exists ws; by rewrite lookup_insert_eq|].
    destruct (Hv _ _ Hy Hy0) as (us & Hu & Hr). exists us. split; [|done]. rewrite lookup_insert_ne; [done|]. intros ->. congruence.
  - intros q us. rewrite lookup_insert_Some. intros [[<- _]|[Hne Hq]]; [exists i, (Slot p size tag); by rewrite list_lookup_insert_eq|].
    destruct (Hb _ _ Hq) as (j & y & Hy & Ey). exists j, y. split; [|done]. rewrite list_lookup_insert_ne; [done|]. intros ->. congruence.
  - intros j k y z. rewrite !list_lookup_insert_Some. intros [(<- & <- & _)|(Hij & Hy)] [(<- & <- & _)|(Hik & Hz)] Hy0 E; cbn in *; try done.
    + by destruct (Hfresh _ _ Hz).
    + by destruct (Hfresh _ _ Hy).
    + by eapply Hj.
Qed.

Lemma held_free sl own (i : nat) x :
  held sl own -> sl !! i = Some x -> sl_ptr x <> 0 -> held (<[i := no_slot]> sl) (delete (sl_ptr x) own).
Proof.
  intros [Hl Hn Ht Hv Hb Hj] Hx Hx0. assert (Hlt : (i < length sl)%nat) by (by eapply lookup_lt_Some). split.
  - by rewrite length_insert.
  - by rewrite lookup_delete_None; right.
  - intros j y. rewrite list_lookup_insert_Some. intros [(_ & <- & _)|(_ & Hy)]; [done|by eapply Ht].
  - intros j y. rewrite list_lookup_insert_Some. intros [(_ & <- & _)|(Hne & Hy)] Hy0; [done|].
    destruct (Hv _ _ Hy Hy0) as (us & Hu & Hr). exists us. split; [|done]. rewrite lookup_delete_ne; [done|]. intros E. apply Hne. by eapply Hj.
  - intros q us. rewrite lookup_delete_Some. intros [Hne Hq]. destruct (Hb _ _ Hq) as (j & y & Hy & Ey). exists j, y. split; [|done].
    rewrite list_lookup_insert_ne; [done|]. intros ->. congruence.
  - intros j k y z. rewrite !list_lookup_insert_Some. intros [(<- & <- & _)|(Hij & Hy)] [(<- & <- & _)|(Hik & Hz)] Hy0 E; cbn in *; try done; by eapply Hj.
Qed.

Lemma held_move sl own (i : nat) x q us size tag :
  held sl own -> sl !! i = Some x -> sl_ptr x <> 0 -> q <> 0 -> q = sl_ptr x \/ own !! q = None ->
  0 <= size <= 8 * Z.of_nat (length us) -> 0 <= tag < 256 -> filled us tag size ->
  held (<[i := Slot q size tag]> sl) (<[q := us]> (delete (sl_ptr x) own)).
Proof.
  intros Hh Hx Hx0 Hq Hfresh Hs Ht Hf. pose proof (held_free _ _ _ _ Hh Hx Hx0) as Hfree. assert (Hlt : (i < length sl)%nat) by (by eapply lookup_lt_Some).
  rewrite <- (list_insert_insert_eq sl i (Slot q size tag) no_slot). eapply (held_fill _ _ i no_slot); try done.
  - by apply list_lookup_insert_eq.
  - apply lookup_delete_None. destruct Hfresh; [by left|by right].
Qed.

Section suite.
Context {H : Type} `{HH : KernelHeap H} {HL : KernelHeapLaws H} `{HM : MemtestMachine H} {HT : MemtestLaws H}.
Variable clock : list effect -> Z.
Variable depth : nat.
Hypothesis Hdepth : (0 < depth)%nat.
Variable yield : K H unit.
(** The other tasks leave the payloads and the budget of the suite alone. *)
Hypothesis yield_ok : forall h n A, kh_rep h n A -> exists h', yield h = Ret tt h' /\ kh_rep h' n A.
(** What belongs to others. *)
Variable A0 : gmap Z (list Z).
(** What a request of the suite costs at most. *)
Variable c : Z.
Hypothesis Hcost : forall size, 0 < size <= 2 ^ 16 -> kh_cost size <= c.

Local Abbreviation st := (mt H).

(** Between two operations: budget [n], own payloads [own]. *)
Record ready (n : Z) (own : gmap Z (list Z)) (s : st) : Prop := {
  r_rep : exists m, n <= m /\ kh_rep (mheap s) m (own ∪ A0);
  r_disj : own ##ₘ A0;
  r_held : held (g_slots s) own;
  r_live : live (mcon s);
}.

Lemma own_lookup n own s p ws : ready n own s -> own !! p = Some ws -> (own ∪ A0) !! p = Some ws.
Proof. intros _ Hp. by apply lookup_union_Some_l. Qed.

Lemma wp_ret {A} (a : A) (s : st) (Q : A -> st -> Prop) : Q a s -> wp (ret a s) Q.
Proof. done. Qed.

(** ** Prints and heap calls *)
Lemma wp_tsay format va (s : st) (Q : unit -> st -> Prop) :
  integral va -> plain format va = true -> live (mcon s) -> (forall k, live k -> Q tt (set_mcon k s)) -> wp (tsay clock depth format va s) Q.
Proof.
  intros Hi Hp Hs HQ. destruct (print_live clock depth Hdepth format va _ Hi Hp Hs) as (k & E & Hk & _).
  unfold tsay, zoom. rewrite E. by apply HQ.
Qed.

Lemma ready_con n own s k : ready n own s -> live k -> ready n own (set_mcon k s).
Proof. intros [] Hk. by split. Qed.

Lemma wp_tline m n own (s : st) (Q : unit -> st -> Prop) :
  plain (chars "%s" ++ [10; 0]) [Str (cstr m)] = true -> ready n own s ->
  (forall k, ready n own (set_mcon k s) -> Q tt (set_mcon k s)) -> wp (tline clock depth m s) Q.
Proof. intros Hp Hr HQ. apply wp_tsay; [by repeat constructor|done|apply Hr|]. intros k Hk. by apply HQ, ready_con. Qed.

Lemma wp_heap {A} (op : K H A) (s : st) a h (Q : A -> st -> Prop) : op (mheap s) = Ret a h -> Q a (set_mheap h s) -> wp (heap_op op s) Q.
Proof. intros E HQ. unfold heap_op, zoom. by rewrite E. Qed.

Lemma set_mheap_same (s : st) : set_mheap (mheap s) s = s.
Proof. by destruct s. Qed.

Lemma wp_schedule n own (s : st) (Q : unit -> st -> Prop) :
  ready n own s -> (forall h, ready n own (set_mheap h s) -> Q tt (set_mheap h s)) -> wp (schedule_point yield s) Q.
Proof.
  intros [(m & Hm & Hr) Hd Hh Hl] HQ. destruct (yield_ok _ _ _ Hr) as (h & E & Hr'). eapply wp_heap; [exact E|]. apply HQ. split; try done. by exists m.
Qed.

(** ** Slots *)
Lemma slot_eq i x (s : st) : g_slots s !! Z.to_nat i = Some x -> slot i s = Ret x s.
Proof. intros E. unfold slot. by rewrite E. Qed.

Lemma put_slot_eq i x (s : st) : 0 <= i < Z.of_nat (length (g_slots s)) -> put_slot i x s = Ret tt (set_slots (<[Z.to_nat i := x]> (g_slots s)) s).
Proof. intros Hi. unfold put_slot. by rewrite (proj2 (Z.leb_le 0 i)), (proj2 (Z.ltb_lt i _)) by lia. Qed.

Lemma slot_some n own (s : st) i : ready n own s -> 0 <= i < 128 -> exists x, g_slots s !! Z.to_nat i = Some x.
Proof. intros Hr Hi. apply lookup_lt_is_Some_2. rewrite (h_len _ _ (r_held _ _ _ Hr)). lia. Qed.

(** ** Verification passes and changes nothing *)
Lemma prefix_ok n A phase i p ws size tag (s : st) :
  kh_rep (mheap s) n A -> A !! p = Some ws -> size <= 8 * Z.of_nat (length ws) -> filled ws tag size ->
  verify_prefix clock depth phase i p size tag s = Ret tt s.
Proof.
  intros Hr Hp Hs Hf. enough (Hw : wp (verify_prefix clock depth phase i p size tag s) (fun _ s' => s' = s)) by (by apply wp_ret_inv in Hw as ([] & s' & -> & ->)).
  unfold verify_prefix, for_range. apply (wp_for_steps (fun _ s' => s' = s)); [done|]. intros j s' (k & Hk & ->) ->. cbv zeta. apply wp_bind.
  eapply wp_heap; [apply (heap_ld8_spec _ _ _ _ _ (0 + Z.of_nat k * 1) Hr Hp); lia|]. rewrite Hf, Z.eqb_refl by lia. apply set_mheap_same.
Qed.

Lemma verify_slot_ok n own phase i (s : st) : ready n own s -> 0 <= i < 128 -> verify_slot clock depth phase i s = Ret tt s.
Proof.
  intros Hr Hi. destruct (slot_some n own s i Hr Hi) as [x Hx]. unfold verify_slot. rewrite (bind_Ret _ _ _ _ _ (slot_eq i x s Hx)).
  destruct (Z.eqb_spec (sl_ptr x) 0); [done|]. destruct (h_live _ _ (r_held _ _ _ Hr) _ _ Hx) as (ws & Ho & Hsz & Hf); [done|].
  destruct (r_rep _ _ _ Hr) as (m & _ & Hrep). eapply prefix_ok; [exact Hrep|by eapply own_lookup|lia|done].
Qed.

Lemma verify_all_ok n own phase (s : st) : ready n own s -> verify_all clock depth phase s = Ret tt s.
Proof.
  intros Hr. enough (Hw : wp (verify_all clock depth phase s) (fun _ s' => s' = s)) by (by apply wp_ret_inv in Hw as ([] & s' & -> & ->)).
  unfold verify_all, for_range, MEMTEST_SLOT_COUNT. apply (wp_for_steps (fun _ s' => s' = s)); [done|]. intros j s' (k & Hk & ->) ->.
  rewrite (verify_slot_ok n own) by (done || lia). done.
Qed.

(** ** Filling *)
Lemma fill_ok n A i p ws size tag (s : st) :
  kh_rep (mheap s) n A -> A !! p = Some ws -> 0 <= size <= 8 * Z.of_nat (length ws) -> 0 <= tag < 256 -> g_slots s !! Z.to_nat i = Some (Slot p size tag) ->
  exists h ws', fill_slot i s = Ret tt (set_mheap h s) /\ kh_rep h n (<[p := ws']> A) /\ length ws' = length ws /\ filled ws' tag size.
Proof.
  intros Hr Hp Hs Ht Hi.
  enough (Hw : wp (fill_slot i s) (fun _ s' => exists h ws', s' = set_mheap h s /\ kh_rep h n (<[p := ws']> A) /\ length ws' = length ws /\ filled ws' tag size)).
  { apply wp_ret_inv in Hw as ([] & s' & E & h & ws' & -> & Hw). by exists h, ws'. }
  unfold fill_slot. rewrite (bind_Ret _ _ _ _ _ (slot_eq i _ s Hi)). cbn [sl_size sl_ptr sl_tag].
  apply (wp_for_range (fun j s' => exists h ws', s' = set_mheap h s /\ kh_rep h n (<[p := ws']> A) /\ length ws' = length ws /\ filled ws' tag j)); [lia| |].
  - exists (mheap s), ws. split; [by rewrite set_mheap_same|]. rewrite insert_id by done. split_and!; [done|done|]. intros k. lia.
  - intros j s1 Hj (h & ws1 & -> & Hr1 & Hl1 & Hf1).
    destruct (heap_st8_spec h n _ p ws1 j (payload_pattern tag j) Hr1 (lookup_insert_eq _ _ _) ltac:(lia)) as (h2 & ws2 & E & Hr2 & Hl2 & Hb).
    eapply wp_heap; [exact E|]. exists h2, ws2. rewrite insert_insert_eq in Hr2. split_and!; [done|done|lia|]. intros k Hk. rewrite Hb by lia.
    destruct (decide (k = j)) as [->|]; [by apply pattern_byte|]. apply Hf1. lia.
Qed.

(** ** The checks on a fresh pointer *)
Lemma alignment_ok phase i p (s : st) : p mod 16 = 0 -> verify_alignment clock depth phase i p s = Ret tt s.
Proof.
  intros Hp. unfold verify_alignment. replace (is_set p 15) with false; [done|]. unfold is_set. symmetry. apply negb_false_iff, Z.eqb_eq.
  change 15 with (Z.ones 4). by rewrite Z.land_ones by lia.
Qed.

Lemma no_overlap_ok n A phase i p ws size (s : st) :
  kh_rep (mheap s) n A -> A !! p = Some ws -> 0 <= size <= 8 * Z.of_nat (length ws) -> length (g_slots s) = 128%nat ->
  (forall j x, g_slots s !! j = Some x -> j <> Z.to_nat i -> sl_ptr x <> 0 ->
     sl_ptr x <> p /\ exists us, A !! sl_ptr x = Some us /\ 0 <= sl_size x <= 8 * Z.of_nat (length us)) -> 0 <= i ->
  verify_no_overlap clock depth phase i p size s = Ret tt s.
Proof.
  intros Hr Hp Hs Hlen Hsl Hi0. destruct (kh_layout _ _ _ _ _ Hr Hp) as (_ & Hpos & Hlt). unfold verify_no_overlap. cbv zeta. rewrite wrap_small by lia.
  destruct (Z.ltb_spec (p + size) p); [lia|].
  match goal with |- ?o = _ => enough (Hw : wp o (fun _ s' => s' = s)) by (by apply wp_ret_inv in Hw as ([] & s' & -> & ->)) end.
  unfold for_range, MEMTEST_SLOT_COUNT. apply (wp_for_steps (fun _ s' => s' = s)); [done|]. intros j s' (k & Hk & ->) ->.
  destruct (lookup_lt_is_Some_2 (g_slots s) (Z.to_nat (0 + Z.of_nat k * 1))) as [x Hx]; [lia|].
  rewrite (bind_Ret _ _ _ _ _ (slot_eq _ x s Hx)). destruct (Z.eqb_spec (0 + Z.of_nat k * 1) i) as [|Hne]; [done|]. destruct (Z.eqb_spec (sl_ptr x) 0); [done|]. cbn [orb].
  destruct (Hsl _ _ Hx ltac:(lia) ltac:(done)) as (Hqp & us & Hq & Hsq). destruct (kh_layout _ _ _ _ _ Hr Hq) as (_ & ? & ?). rewrite wrap_small by lia.
  destruct (mt_disjoint _ _ _ _ _ _ _ Hr Hp Hq ltac:(done)); destruct (Z.ltb_spec p (sl_ptr x + sl_size x)), (Z.ltb_spec (sl_ptr x) (p + size)); cbn; first [done|lia].
Qed.

(** ** Operations *)
Lemma set_slot_ok n own i x p ws size tag phase (s : st) (Q : unit -> st -> Prop) :
  kh_rep (mheap s) n (<[p := ws]> own ∪ A0) -> own !! p = None -> own ##ₘ A0 -> A0 !! p = None -> held (g_slots s) own -> live (mcon s) ->
  0 <= i < 128 -> g_slots s !! Z.to_nat i = Some x -> sl_ptr x = 0 -> 0 <= size <= 8 * Z.of_nat (length ws) -> 0 <= tag < 256 ->
  (forall s' ws', ready n (<[p := ws']> own) s' -> p <> 0 -> g_slots s' = <[Z.to_nat i := Slot p size tag]> (g_slots s) -> stats s' = stats s -> seed s' = seed s -> Q tt s') ->
  wp (set_slot clock depth i p size tag phase s) Q.
Proof.
  intros Hr Hnew Hd Hnew0 Hh Hl Hi Hx Hx0 Hs Ht HQ. set (A := <[p := ws]> own ∪ A0) in *. assert (Hp : A !! p = Some ws) by (apply lookup_union_Some_l, lookup_insert_eq).
  destruct (kh_layout _ _ _ _ _ Hr Hp) as (Ha & Hpos & _). unfold set_slot. rewrite (proj2 (Z.eqb_neq p 0)) by lia.
  rewrite (bind_Ret _ _ _ _ _ (alignment_ok phase i p s Ha)). apply wp_bind. eapply wp_heap; [by eapply mt_usable|]. rewrite set_mheap_same.
  rewrite (proj2 (Z.ltb_ge _ size)) by lia. cbn [when]. apply wp_bind, wp_ret.
  rewrite (bind_Ret _ _ _ tt s).
  2:{ apply (no_overlap_ok n A phase i p ws size s); try done; [apply Hh| |lia]. intros j y Hy Hne Hy0.
      destruct (h_live _ _ Hh _ _ Hy Hy0) as (us & Hu & Hsz & _). assert (Hyp : sl_ptr y <> p) by congruence. split; [done|].
      exists us. split; [|done]. apply lookup_union_Some_l. by rewrite lookup_insert_ne. }
  rewrite (bind_Ret _ _ _ _ _ (put_slot_eq i (Slot p size tag) s ltac:(rewrite (h_len _ _ Hh); lia))).
  set (s1 := set_slots _ s). assert (Hs1 : g_slots s1 !! Z.to_nat i = Some (Slot p size tag)) by (apply list_lookup_insert_eq; rewrite (h_len _ _ Hh); lia).
  destruct (fill_ok n A i p ws size tag s1 Hr Hp Hs Ht Hs1) as (h & ws' & E & Hr' & Hlen & Hf). rewrite E. apply (HQ _ ws'); try done; [|lia].
  assert (EA : <[p := ws']> A = <[p := ws']> own ∪ A0) by (unfold A; by rewrite insert_union_l, insert_insert_eq). rewrite EA in Hr'. split.
  - by exists n.
  - by apply map_disjoint_insert_l.
  - eapply held_fill; try done; [lia|lia].
  - done.
Qed.

Lemma alloc_ok n own i x size tag phase (s : st) (Q : unit -> st -> Prop) :
  ready n own s -> c <= n -> 0 <= i < 128 -> g_slots s !! Z.to_nat i = Some x -> sl_ptr x = 0 -> 0 < size <= 2 ^ 16 -> 0 <= tag < 256 ->
  (forall s' p ws, ready (n - c) (<[p := ws]> own) s' -> p <> 0 -> own !! p = None -> g_slots s' = <[Z.to_nat i := Slot p size tag]> (g_slots s) -> stats s' = stats s -> seed s' = seed s -> Q tt s') ->
  wp (alloc_slot clock depth i size tag phase s) Q.
Proof.
  intros Hrd Hn Hi Hx Hx0 Hs Ht HQ. destruct Hrd as [(m & Hm & Hr) Hd Hh Hl]. pose proof (Hcost size Hs) as Hc. unfold alloc_slot. apply wp_bind.
  destruct (kh_malloc_law _ _ _ size Hr ltac:(lia) ltac:(lia)) as (p & ws & h & E & Hr' & Hnew & Hlen). eapply wp_heap; [exact E|].
  apply lookup_union_None in Hnew as [Hno Hna]. rewrite insert_union_l in Hr'.
  eapply (set_slot_ok (m - kh_cost size) own i x p ws); try done; [lia|]. intros s' ws' [(m' & Hm' & Hr2) Hd2 Hh2 Hl2] Hp0 Hsl Hst Hse.
  apply (HQ s' p ws'); try done. split; try done. exists m'. split; [lia|done].
Qed.

(** Nothing in slot [j]. *)
Definition empty_at (s : st) (j : Z) : Prop := exists x, g_slots s !! Z.to_nat j = Some x /\ sl_ptr x = 0.
Definition others_same (i : Z) (s s' : st) : Prop := forall j, 0 <= j -> j <> i -> g_slots s' !! Z.to_nat j = g_slots s !! Z.to_nat j.

Lemma empty_kept i j s s' : others_same i s s' -> 0 <= j -> j <> i -> empty_at s j -> empty_at s' j.
Proof. intros Ho Hj Hne (x & Hx & E). exists x. by rewrite Ho. Qed.

Lemma inserted_others i x (s s' : st) : 0 <= i -> g_slots s' = <[Z.to_nat i := x]> (g_slots s) -> others_same i s s'.
Proof. intros Hi E j Hj Hne. rewrite E, list_lookup_insert_ne; [done|lia]. Qed.

Lemma release_ok n own phase i (s : st) (Q : unit -> st -> Prop) :
  ready n own s -> 0 <= i < 128 ->
  (forall s' own', ready n own' s' -> empty_at s' i -> others_same i s s' -> stats s' = stats s -> seed s' = seed s ->
     mt_frames (mheap s') = mt_frames (mheap s) -> Q tt s') ->
  wp (release_slot clock depth phase i s) Q.
Proof.
  intros Hrd Hi HQ. destruct (slot_some n own s i Hrd Hi) as [x Hx]. unfold release_slot. rewrite (bind_Ret _ _ _ _ _ (slot_eq i x s Hx)).
  destruct (Z.eqb_spec (sl_ptr x) 0) as [Hx0|Hx0]; [apply wp_ret; apply (HQ s own); try done; by exists x|].
  rewrite (bind_Ret _ _ _ _ _ (verify_slot_ok n own phase i s Hrd Hi)). destruct Hrd as [(m & Hm & Hr) Hd Hh Hl].
  destruct (h_live _ _ Hh _ _ Hx Hx0) as (ws & Ho & _). assert (Hp : (own ∪ A0) !! sl_ptr x = Some ws) by (by apply lookup_union_Some_l).
  destruct (kh_free_law _ _ _ _ _ Hr Hp) as (h & E & Hr'). apply wp_bind. eapply wp_heap; [exact E|].
  rewrite put_slot_eq by (cbn; rewrite (h_len _ _ Hh); lia).
  assert (Hna : A0 !! sl_ptr x = None) by (by eapply map_disjoint_Some_l). rewrite delete_union, (delete_id A0) in Hr' by done.
  apply (HQ _ (delete (sl_ptr x) own)); try done; [|eexists; split; [apply list_lookup_insert_eq; cbn; rewrite (h_len _ _ Hh); lia|done]| |by eapply mt_free_frames].
  - split; [by exists m|by apply map_disjoint_delete_l|cbn; by apply held_free|done].
  - apply (inserted_others i no_slot); [lia|done].
Qed.

(** A resized payload starts with the old one. *)
Lemma prefix_bytes (ws us : list Z) k : ws `prefix_of` us -> 0 <= k < 8 * Z.of_nat (length ws) -> byte_at us k = byte_at ws k.
Proof.
  intros [l ->] Hk. unfold byte_at. rewrite lookup_app_l; [done|]. apply Nat2Z.inj_lt. rewrite Z2Nat.id by dm_lia. dm_lia.
Qed.

Lemma wp_resize n own i x size (s : st) (Q : Z -> st -> Prop) :
  ready n own s -> g_slots s !! Z.to_nat i = Some x -> sl_ptr x <> 0 -> 0 < size <= 2 ^ 16 -> c <= n ->
  (forall q us h m, n - c <= m -> kh_rep h m (<[q := us]> (delete (sl_ptr x) own) ∪ A0) -> q mod 16 = 0 -> q <> 0 -> q = sl_ptr x \/ own !! q = None -> A0 !! q = None ->
     size <= 8 * Z.of_nat (length us) -> filled us (sl_tag x) (Z.min (sl_size x) size) -> Q q (set_mheap h s)) ->
  wp (heap_op (kh_realloc (sl_ptr x) size) s) Q.
Proof.
  intros [(m & Hm & Hr) Hd Hh Hl] Hx Hx0 Hs Hn HQ. destruct (h_live _ _ Hh _ _ Hx Hx0) as (ws & Ho & Hsz & Hf). pose proof (Hcost size Hs) as Hc.
  assert (Hp : (own ∪ A0) !! sl_ptr x = Some ws) by (by apply lookup_union_Some_l). assert (Hna : A0 !! sl_ptr x = None) by (by eapply map_disjoint_Some_l).
  destruct (kh_realloc_law _ _ _ _ _ size Hr Hp ltac:(lia) ltac:(lia)) as (q & us & h & E & Hr' & Hpre & Hlen & Hq). eapply wp_heap; [exact E|].
  destruct (kh_layout _ _ _ _ _ Hr' (lookup_insert_eq _ _ _)) as (Ha & Hpos & _). rewrite delete_union, (delete_id A0), insert_union_l in Hr' by done.
  assert (Hq' : q = sl_ptr x \/ (own !! q = None /\ A0 !! q = None)) by (destruct Hq as [|Hq]; [by left|right; by apply lookup_union_None in Hq]).
  apply (HQ q us h (m - kh_cost size)); try done; [lia|lia|tauto| |].
  - destruct Hq' as [Eq|[_ Hn0]]; [by rewrite Eq|exact Hn0].
  - intros k Hk. rewrite (prefix_bytes ws us k Hpre) by lia. apply Hf. lia.
Qed.

(** The slot is redirected, checked and filled again. *)
Lemma wp_refill n own i x q us size tag (check : K st unit) (s : st) (Q : unit -> st -> Prop) :
  kh_rep (mheap s) n (<[q := us]> (delete (sl_ptr x) own) ∪ A0) -> q <> 0 -> q = sl_ptr x \/ own !! q = None -> A0 !! q = None -> own ##ₘ A0 ->
  held (g_slots s) own -> live (mcon s) -> 0 <= i < 128 -> g_slots s !! Z.to_nat i = Some x -> sl_ptr x <> 0 -> 0 < size <= 8 * Z.of_nat (length us) -> 0 <= tag < 256 ->
  (forall s1, s1 = set_slots (<[Z.to_nat i := Slot q size tag]> (g_slots s)) s -> check s1 = Ret tt s1) ->
  (forall s' us', ready n (<[q := us']> (delete (sl_ptr x) own)) s' -> g_slots s' = <[Z.to_nat i := Slot q size tag]> (g_slots s) -> stats s' = stats s -> seed s' = seed s -> Q tt s') ->
  wp ((do! put_slot i (Slot q size tag) in do! check in fill_slot i) s) Q.
Proof.
  intros Hr Hq0 Hq Hna Hd Hh Hl Hi Hx Hx0 Hs Ht Hck HQ.
  rewrite (bind_Ret _ _ _ _ _ (put_slot_eq i (Slot q size tag) s ltac:(rewrite (h_len _ _ Hh); lia))). set (s1 := set_slots _ s).
  rewrite (bind_Ret _ _ _ _ _ (Hck s1 eq_refl)). set (own1 := delete (sl_ptr x) own) in *.
  assert (Hp : (<[q := us]> own1 ∪ A0) !! q = Some us) by (apply lookup_union_Some_l, lookup_insert_eq).
  assert (Hs1 : g_slots s1 !! Z.to_nat i = Some (Slot q size tag)) by (apply list_lookup_insert_eq; rewrite (h_len _ _ Hh); lia).
  destruct (fill_ok n _ i q us size tag s1 Hr Hp ltac:(lia) Ht Hs1) as (h & us' & E & Hr' & Hlen & Hf). rewrite E.
  assert (EA : <[q := us']> (<[q := us]> own1 ∪ A0) = <[q := us']> own1 ∪ A0) by (by rewrite insert_union_l, insert_insert_eq). rewrite EA in Hr'.
  apply (HQ _ us'); try done. split; [by exists n| | |done].
  - apply map_disjoint_insert_l_2; [done|]. by apply map_disjoint_delete_l.
  - eapply held_move; try done; lia.
Qed.

(** ** Phases *)

(** Nothing is held. *)
Definition idle (n : Z) (s : st) : Prop := ready n ∅ s /\ forall j, 0 <= j < 128 -> empty_at s j.
Definition resting (n : Z) (s : st) : Prop := (exists m, n <= m /\ kh_rep (mheap s) m A0) /\ live (mcon s) /\ length (g_slots s) = 128%nat.

Lemma idle_of n own s : ready n own s -> (forall j, 0 <= j < 128 -> empty_at s j) -> idle n s.
Proof.
  intros Hr He. enough (E : own = ∅) by (by rewrite E in Hr). apply map_eq. intros p. rewrite lookup_empty.
  destruct (own !! p) as [ws|] eqn:Hp; [|done]. destruct Hr as [_ _ Hh _]. destruct (h_back _ _ Hh _ _ Hp) as (i & x & Hx & Ex).
  pose proof (lookup_lt_Some _ _ _ Hx). rewrite (h_len _ _ Hh) in *. destruct (He (Z.of_nat i) ltac:(lia)) as (y & Hy & Ey). rewrite Nat2Z.id in Hy.
  pose proof (h_null _ _ Hh). congruence.
Qed.

Lemma idle_resting n s : idle n s -> resting n s.
Proof. intros [[(m & Hm & Hr) _ Hh Hl] _]. rewrite (left_id_L ∅ (∪)) in Hr. split; [by exists m|]. split; [done|apply Hh]. Qed.

Lemma ready_weaken n n' own s : ready n own s -> n' <= n -> ready n' own s.
Proof. intros [(m & Hm & Hr) ? ? ?] Hle. split; try done. exists m. split; [lia|done]. Qed.

Lemma clear_ok n (s : st) : resting n s -> exists s', clear_slots s = Ret tt s' /\ idle n s' /\ stats s' = stats s /\ seed s' = seed s /\ mheap s' = mheap s.
Proof.
  intros ((m & Hm & Hr) & Hl & Hlen).
  enough (Hw : wp (clear_slots s) (fun _ s' => exists l, s' = set_slots l s /\ length l = 128%nat /\ forall j, (j < 128)%nat -> l !! j = Some no_slot)).
  { apply wp_ret_inv in Hw as ([] & s' & E & l & -> & Hll & He). exists (set_slots l s). split; [done|]. split; [|done]. split.
    - split; cbn; [exists m; by rewrite (left_id_L ∅ (∪))|by apply map_disjoint_empty_l| |done].
      assert (Hno : forall i x, l !! i = Some x -> x = no_slot).
      { intros i x Hx. pose proof (lookup_lt_Some _ _ _ Hx). rewrite He in Hx by lia. congruence. }
      split; [done|done| | |done|]; [intros i x Hx|intros i x Hx|intros i j x y Hx _]; by rewrite (Hno _ _ Hx).
    - intros j Hj. exists no_slot. split; [apply He; lia|done]. }
  unfold clear_slots, MEMTEST_SLOT_COUNT.
  apply (wp_for_range (fun j s' => exists l, s' = set_slots l s /\ length l = 128%nat /\ forall k, (k < Z.to_nat j)%nat -> l !! k = Some no_slot)); [lia| |].
  - exists (g_slots s). split; [by destruct s|]. split; [done|]. lia.
  - intros j s1 Hj (l & -> & Hll & He). rewrite put_slot_eq by (cbn; lia). exists (<[Z.to_nat j := no_slot]> l). split; [done|]. rewrite length_insert. split; [done|].
    intros k Hk. destruct (decide (k = Z.to_nat j)) as [->|]; [apply list_lookup_insert_eq; lia|]. rewrite list_lookup_insert_ne by done. apply He. lia.
Qed.

(** A message, then the slots are cleared. *)
Lemma wp_begin {A} m n (k : K st A) (s : st) (Q : A -> st -> Prop) :
  plain (chars "%s" ++ [10; 0]) [Str (cstr m)] = true -> resting n s -> (forall s', idle n s' -> wp (k s') Q) ->
  wp ((do! tline clock depth m in do! clear_slots in k) s) Q.
Proof.
  intros Hp (Hr & Hl & Hlen) Hk. apply wp_bind, wp_tsay; [by repeat constructor|done|done|]. intros w Hw.
  destruct (clear_ok n (set_mcon w s)) as (s1 & E1 & Hi & _); [done|]. apply wp_bind. rewrite E1. by apply Hk.
Qed.

Lemma after_alloc i x (s s' : st) : 0 <= i -> g_slots s' = <[Z.to_nat i := x]> (g_slots s) -> forall j, 0 <= j -> j <> i -> empty_at s j -> empty_at s' j.
Proof. intros Hi E j Hj Hne. apply empty_kept with (i := i); [by eapply inserted_others|done|done]. Qed.

Theorem basic_heap_passes n (s : st) : resting n s -> 0 <= c -> 20 * c <= n -> wp (basic_heap_test clock depth s) (fun _ s' => idle (n - 20 * c) s').
Proof.
  intros Hs Hc Hn. unfold basic_heap_test. apply (wp_begin _ n); [done|done|]. clear s Hs. intros s Hs.
  apply (wp_for_range (fun i s' => idle (n - i * c) s')); [lia|by rewrite Z.mul_0_l, Z.sub_0_r|]. intros i s1 Hi [Hr He].
  change (Z.of_nat (length g_basic_sizes)) with 20 in Hi.
  assert (Hsize : 0 < default 0 (g_basic_sizes !! Z.to_nat i) <= 2 ^ 16).
  { assert (Hall : Forall (fun v => 0 < v <= 2 ^ 16) g_basic_sizes) by (apply (bool_decide_unpack _); exact I).
    destruct (lookup_lt_is_Some_2 g_basic_sizes (Z.to_nat i)) as [v Hv]; [cbn; lia|]. rewrite Hv. exact (Forall_lookup_1 _ _ _ _ Hall Hv). }
  cbv zeta. destruct (He 0 ltac:(lia)) as (x & Hx & Hx0). apply wp_bind.
  apply (alloc_ok (n - i * c) ∅ 0 x); [done|nia|lia|done|done|done|by apply wrap_range|]. intros s2 p ws Hr2 Hp0 _ E2 _ _.
  rewrite (bind_Ret _ _ _ _ _ (verify_slot_ok _ _ _ 0 s2 Hr2 ltac:(lia))). apply (release_ok _ _ _ 0 _ _ Hr2); [lia|]. intros s3 own' Hr3 He3 Ho3 _ _ _.
  replace (n - (i + 1) * c) with (n - i * c - c) by ring. apply (idle_of _ own'); [done|]. intros j Hj. destruct (decide (j = 0)) as [->|]; [done|].
  apply (empty_kept 0 j s2); [done|lia|done|]. apply (after_alloc 0 _ s1 s2 ltac:(lia) E2); [lia|done|]. by apply He.
Qed.

Lemma tag_range t d : 0 <= d < 256 -> 0 <= nonzero_tag (u8 t) d < 256.
Proof. intros Hd. unfold nonzero_tag. pose proof (wrap_range 8 t ltac:(lia)). destruct (_ =? _); lia. Qed.

Lemma wp_same {A} (o : K st A) a (k : A -> K st unit) (s : st) (Q : unit -> st -> Prop) : o s = Ret a s -> wp (k a s) Q -> wp (bind o k s) Q.
Proof. intros E. by rewrite (bind_Ret _ _ _ _ _ E). Qed.

(** Every 32nd round other tasks run. *)
Lemma wp_maybe_schedule n own b (s : st) (Q : unit -> st -> Prop) :
  ready n own s -> (forall s', ready n own s' -> g_slots s' = g_slots s -> stats s' = stats s -> seed s' = seed s -> Q tt s') -> wp (when b (schedule_point yield) s) Q.
Proof. intros Hr HQ. destruct b; cbn [when]; [|by apply HQ]. eapply wp_schedule; [exact Hr|]. intros h Hr'. by apply HQ. Qed.

(** 73 has an inverse modulo 128: the shuffled order visits every slot. *)
Lemma shuffle j : 0 <= j < 128 -> exists k, 0 <= k < 128 /\ (k * 73) mod 128 = j.
Proof.
  intros Hj. exists ((j * 121) mod 128). split; [apply Z.mod_pos_bound; lia|]. rewrite Z.mul_mod_idemp_l by lia.
  replace (j * 121 * 73) with (j + (j * 69) * 128) by ring. rewrite Z.mod_add by lia. by apply Z.mod_small.
Qed.

Theorem fragmentation_passes n (s : st) : resting n s -> 0 <= c -> 192 * c <= n -> wp (fragmentation_test clock depth yield s) (fun _ s' => idle (n - 192 * c) s').
Proof.
  intros Hs Hc Hn. unfold fragmentation_test. apply (wp_begin _ n); [done|done|]. clear s Hs. intros s [Hr0 He0]. apply wp_bind.
  eapply wp_mono; [apply (wp_for_range (fun i s' => exists own, ready (n - i * c) own s' /\ forall j, i <= j < 128 -> empty_at s' j)); [done| |]|].
  { exists ∅. rewrite Z.mul_0_l, Z.sub_0_r. by split. }
  { unfold MEMTEST_SLOT_COUNT. intros i s1 Hi (own & Hr & He). destruct (He i ltac:(lia)) as (x & Hx & Hx0).
    apply (alloc_ok (n - i * c) own i x); [done|nia|lia|done|done| |apply tag_range; lia|].
    - pose proof (Z.mod_pos_bound (i * 173) 7000 ltac:(lia)). lia.
    - intros s2 p ws Hr2 _ _ E2 _ _. replace (n - (i + 1) * c) with (n - i * c - c) by ring. eexists. split; [exact Hr2|]. intros j Hj.
      apply (after_alloc i _ s1 s2 ltac:(lia) E2); [lia|lia|]. apply He. lia. }
  unfold MEMTEST_SLOT_COUNT. intros [] s1 (own1 & Hr1 & _). eapply wp_same; [by eapply verify_all_ok|]. apply wp_bind. set (n1 := n - 128 * c) in *.
  eapply wp_mono; [apply (wp_for_steps (fun i s' => exists own, ready n1 own s' /\ forall k, 0 <= k -> 1 + 2 * k < i -> empty_at s' (1 + 2 * k)))|].
  { exists own1. split; [done|]. lia. }
  { intros i s2 (k & Hk & ->) (own & Hr & He). apply (release_ok n1 own); [done|lia|]. intros s3 own' Hr3 He3 Ho3 _ _ _. exists own'. split; [done|]. intros j Hj Hlt.
    destruct (decide (j = Z.of_nat k)) as [->|]; [by replace (1 + 2 * Z.of_nat k) with (1 + Z.of_nat k * 2) by ring|]. apply (empty_kept _ _ s2 s3 Ho3); [lia|lia|]. apply He; lia. }
  intros [] s2 (own2 & Hr2 & He2). eapply wp_same; [by eapply verify_all_ok|]. apply wp_bind.
  eapply wp_mono; [apply (wp_for_steps (fun i s' => exists own, ready (n1 - (i - 1) / 2 * c) own s' /\ forall k, 0 <= k < 64 -> i <= 1 + 2 * k -> empty_at s' (1 + 2 * k)))|].
  { exists own2. rewrite Z.sub_diag, Z.div_0_l, Z.mul_0_l, Z.sub_0_r by lia. split; [done|]. intros k Hk _. apply He2; lia. }
  { intros i s3 (k & Hk & ->) (own & Hr & He). replace (1 + Z.of_nat k * 2 - 1) with (Z.of_nat k * 2) in Hr by ring. rewrite Z.div_mul in Hr by lia.
    replace ((1 + Z.of_nat k * 2 + 2 - 1) / 2) with (Z.of_nat k + 1) by (replace (1 + Z.of_nat k * 2 + 2 - 1) with ((Z.of_nat k + 1) * 2) by ring; by rewrite Z.div_mul).
    destruct (He (Z.of_nat k)) as (x & Hx & Hx0); [lia|lia|]. replace (1 + 2 * Z.of_nat k) with (1 + Z.of_nat k * 2) in Hx by ring.
    apply (alloc_ok (n1 - Z.of_nat k * c) own (1 + Z.of_nat k * 2) x); [exact Hr|unfold n1; nia|lia|done|done| |apply tag_range; lia|].
    - pose proof (Z.mod_pos_bound ((1 + Z.of_nat k * 2) * 521) 9000 ltac:(lia)). lia.
    - intros s4 p ws Hr4 _ _ E4 _ _. replace (n1 - (Z.of_nat k + 1) * c) with (n1 - Z.of_nat k * c - c) by ring. eexists. split; [exact Hr4|]. intros j Hj Hle.
      apply (after_alloc (1 + Z.of_nat k * 2) _ s3 s4 ltac:(lia) E4); [lia|lia|]. apply He; lia. }
  intros [] s3 (own3 & Hr3 & _). change ((1 + Z.of_nat 64 * 2 - 1) / 2) with 64 in Hr3. replace (n1 - 64 * c) with (n - 192 * c) in Hr3 by (unfold n1; ring).
  eapply wp_same; [by eapply verify_all_ok|].
  eapply wp_mono; [apply (wp_for_range (fun t s' => exists own, ready (n - 192 * c) own s' /\ forall k, 0 <= k < t -> empty_at s' ((k * 73) mod 128))); [lia| |]|].
  { exists own3. split; [done|]. lia. }
  { intros t s4 Ht (own & Hr & He). pose proof (Z.mod_pos_bound (t * 73) 128 ltac:(lia)) as Hm. apply wp_bind. apply (release_ok (n - 192 * c) own); [done|done|].
    intros s5 own' Hr5 He5 Ho5 _ _ _. eapply wp_maybe_schedule; [exact Hr5|]. intros s6 Hr6 E6 _ _. exists own'. split; [done|]. intros k Hk.
    assert (H5 : empty_at s5 ((k * 73) mod 128)).
    { pose proof (Z.mod_pos_bound (k * 73) 128 ltac:(lia)). destruct (decide ((k * 73) mod 128 = (t * 73) mod 128)) as [->|Hne]; [done|].
      apply (empty_kept _ _ s4 s5 Ho5); [lia|done|]. apply He. destruct (decide (k = t)) as [->|]; [done|lia]. }
    unfold empty_at. by rewrite E6. }
  intros [] s4 (own4 & Hr4 & He4). apply (idle_of _ own4); [done|]. intros j Hj. destruct (shuffle j Hj) as (k & Hk & <-). by apply He4.
Qed.

Theorem heap_growth_passes n (s : st) : resting n s -> 0 <= c -> 64 * c <= n -> wp (heap_growth_test clock depth yield s) (fun _ s' => idle (n - 64 * c) s').
Proof.
  intros Hs Hc Hn. unfold heap_growth_test. apply (wp_begin _ n); [done|done|]. clear s Hs. intros s [Hr0 He0].
  assert (Hcount : forall n own s, ready n own s -> heap_op mm_free_count s = Ret (mt_frames (mheap s)) s).
  { intros n0 own s0 [(m & _ & Hr) _ _ _]. unfold heap_op, zoom. rewrite (mt_count _ _ _ Hr). by rewrite set_mheap_same. }
  eapply wp_same; [by eapply Hcount|]. apply wp_bind.
  eapply wp_mono; [apply (wp_for_range (fun i s' => exists own, ready (n - i * c) own s' /\ forall j, i <= j < 128 -> empty_at s' j)); [done| |]|].
  { exists ∅. rewrite Z.mul_0_l, Z.sub_0_r. by split. }
  { unfold MEMTEST_GROWTH_SLOTS, MEMTEST_GROWTH_SIZE. intros i s1 Hi (own & Hr & He). destruct (He i ltac:(lia)) as (x & Hx & Hx0). apply wp_bind.
    apply (alloc_ok (n - i * c) own i x); [done|nia|lia|done|done| |by apply wrap_range|].
    - assert (0 <= Z.land i 7 < 8) by (change 7 with (Z.ones 3); rewrite Z.land_ones by lia; apply Z.mod_pos_bound; lia). lia.
    - intros s2 p ws Hr2 _ _ E2 _ _. eapply wp_maybe_schedule; [exact Hr2|]. intros s3 Hr3 E3 _ _. replace (n - (i + 1) * c) with (n - i * c - c) by ring. eexists.
      split; [exact Hr3|]. intros j Hj. unfold empty_at. rewrite E3. apply (after_alloc i _ s1 s2 ltac:(lia) E2); [lia|lia|]. apply He. lia. }
  unfold MEMTEST_GROWTH_SLOTS. intros [] s1 (own1 & Hr1 & He1). eapply wp_same; [by eapply verify_all_ok|]. eapply wp_same; [by eapply Hcount|]. apply wp_bind.
  set (n1 := n - 64 * c) in *. set (f := mt_frames (mheap s1)).
  eapply wp_mono; [apply (wp_for_steps (fun i s' => mt_frames (mheap s') = f /\ exists own, ready n1 own s' /\ forall j, i <= j < 128 -> empty_at s' j))|].
  { split; [done|]. by exists own1. }
  { intros i s2 (k & Hk & ->) (Ef & own & Hr & He). apply (release_ok n1 own); [done|lia|]. intros s3 own' Hr3 He3 Ho3 _ _ Ef3. split; [congruence|]. exists own'. split; [done|].
    intros j Hj. destruct (decide (j = 64 + Z.of_nat k * -1 - 1)) as [->|]; [done|]. apply (empty_kept _ _ s2 s3 Ho3); [lia|lia|]. apply He. lia. }
  intros [] s2 (Ef2 & own2 & Hr2 & He2). eapply wp_same; [by eapply Hcount|]. rewrite Ef2.
  assert (Hnum : forall m v n own (s : st) (Q : unit -> st -> Prop), plain (chars "%s%llu" ++ [10; 0]) [Str (cstr m); Word v] = true -> ready n own s ->
    (forall s', ready n own s' -> g_slots s' = g_slots s -> Q tt s') -> wp (tnum clock depth m v s) Q).
  { intros m v n0 own s0 Q Hp Hr HQ. apply wp_tsay; [by repeat constructor|done|apply Hr|]. intros k Hk. apply HQ; [by apply ready_con|done]. }
  apply wp_bind. eapply Hnum; [done|exact Hr2|]. intros s3 Hr3 E3. apply wp_bind. eapply Hnum; [done|exact Hr3|]. intros s4 Hr4 E4. apply wp_bind.
  eapply Hnum; [done|exact Hr4|]. intros s5 Hr5 E5. rewrite Z.eqb_refl. apply wp_ret. apply (idle_of _ own2); [done|]. intros j Hj. unfold empty_at.
  rewrite E5, E4, E3. apply He2. lia.
Qed.

(** Only slot 0 is in use. *)
Definition holding (n : Z) (x : memtest_slot) (s : st) : Prop :=
  exists own, ready n own s /\ g_slots s !! 0%nat = Some x /\ sl_ptr x <> 0 /\ forall j, 1 <= j < 128 -> empty_at s j.

Lemma slots_len n own (s : st) : ready n own s -> length (g_slots s) = 128%nat.
Proof. intros [_ _ Hh _]. apply Hh. Qed.

Lemma alloc_first n size tag phase (s : st) (Q : unit -> st -> Prop) :
  idle n s -> c <= n -> 0 < size <= 2 ^ 16 -> 0 <= tag < 256 -> (forall s' p, holding (n - c) (Slot p size tag) s' -> Q tt s') ->
  wp (alloc_slot clock depth 0 size tag phase s) Q.
Proof.
  intros [Hr He] Hn Hs Ht HQ. destruct (He 0 ltac:(lia)) as (x & Hx & Hx0). apply (alloc_ok n ∅ 0 x); try done. intros s' p ws Hr' Hp0 _ E _ _.
  apply (HQ s' p). eexists. split; [exact Hr'|]. rewrite E. split; [apply list_lookup_insert_eq; rewrite (slots_len _ _ _ Hr); lia|]. split; [done|].
  intros j Hj. apply (after_alloc 0 _ s s' ltac:(lia) E); [lia|lia|]. apply He. lia.
Qed.

Lemma release_first n x phase (s : st) (Q : unit -> st -> Prop) :
  holding n x s -> (forall s', idle n s' -> Q tt s') -> wp (release_slot clock depth phase 0 s) Q.
Proof.
  intros (own & Hr & _ & _ & He) HQ. apply (release_ok n own); [done|lia|]. intros s' own' Hr' He' Ho _ _ _. apply HQ, (idle_of _ own'); [done|].
  intros j Hj. destruct (decide (j = 0)) as [->|]; [done|]. apply (empty_kept 0 j s s' Ho); [lia|done|]. apply He. lia.
Qed.

Lemma resize_first n x size tag pre len (check : Z -> K st unit) phase (fail : K st unit) (k : Z -> K st unit) (s : st) (Q : unit -> st -> Prop) :
  holding n x s -> c <= n -> 0 < size <= 2 ^ 16 -> tag = sl_tag x -> pre = sl_ptr x -> len = Z.min (sl_size x) size ->
  (forall q s, q mod 16 = 0 -> check q s = Ret tt s) ->
  (forall s' q, holding (n - c) (Slot q size tag) s' -> wp (k q s') Q) ->
  wp ((let! q := heap_op (kh_realloc pre size) in
       if q =? 0 then fail else
       do! verify_prefix clock depth phase 0 q len tag in
       do! (do! put_slot 0 (Slot q size tag) in do! check q in fill_slot 0) in k q) s) Q.
Proof.
  intros (own & Hr & Hx & Hx0 & He) Hn Hs -> -> -> Hck HQ. apply wp_bind. change (g_slots s !! Z.to_nat 0 = Some x) in Hx.
  apply (wp_resize n own 0 x size); try done. intros q us h m Hm Hrep Ha Hq0 Hq Hna Hlen Hf. rewrite (proj2 (Z.eqb_neq q 0)) by done. destruct Hr as [_ Hd Hh Hl].
  assert (Hp : (<[q := us]> (delete (sl_ptr x) own) ∪ A0) !! q = Some us) by (apply lookup_union_Some_l, lookup_insert_eq).
  rewrite (bind_Ret _ _ _ _ _ (prefix_ok m _ phase 0 q us (Z.min (sl_size x) size) (sl_tag x) (set_mheap h s) Hrep Hp ltac:(lia) Hf)). apply wp_bind.
  apply (wp_refill m own 0 x q us); try done; [lia|by eapply h_tag|intros s1 _; by apply Hck|]. intros s' us' Hr' E _ _. apply HQ. eexists. split; [eapply ready_weaken; [exact Hr'|lia]|].
  rewrite E. split; [apply list_lookup_insert_eq; cbn; rewrite (h_len _ _ Hh); lia|]. split; [done|].
  intros j Hj. apply (empty_kept 0 j s s'); [by apply (inserted_others 0 _ s s' ltac:(lia) E)|lia|lia|]. by apply He.
Qed.

Lemma holding_ready n x s : holding n x s -> exists own, ready n own s.
Proof. intros (own & Hr & _). by exists own. Qed.

Lemma realloc_step_ok n x tag size (s : st) (Q : unit -> st -> Prop) :
  holding n x s -> c <= n -> 0 < size <= 2 ^ 16 -> tag = sl_tag x -> (forall s' q, holding (n - c) (Slot q size tag) s' -> Q tt s') ->
  wp (realloc_step clock depth tag size s) Q.
Proof.
  intros Hh Hn Hs Ht HQ. destruct (holding_ready _ _ _ Hh) as [own Hr]. unfold realloc_step. eapply wp_same; [by apply (verify_slot_ok n own)|].
  eapply wp_same; [apply (slot_eq 0 x); by destruct Hh as (? & _ & ? & _)|].
  pose proof (resize_first n x size tag (sl_ptr x) (Z.min (sl_size x) size) (fun q => verify_alignment clock depth "realloc alignment" 0 q) "realloc preserved prefix"
    (panic "memtest: krealloc unexpectedly failed") (fun _ => ret tt) s Q Hh Hn Hs Ht eq_refl eq_refl (alignment_ok _ _) HQ) as Hw.
  unfold bind in *. destruct (heap_op _ s) as [q s1| | |]; [|done..]. destruct (q =? 0); [done|]. destruct (verify_prefix _ _ _ _ _ _ _ s1) as [[] s2| | |]; [|done..].
  destruct (put_slot _ _ s2) as [[] s3| | |]; [|done..]. destruct (verify_alignment _ _ _ _ _ s3) as [[] s4| | |]; [|done..]. by destruct (fill_slot 0 s4) as [[] s5| | |].
Qed.

Lemma realloc_chain l n x tag (s : st) :
  holding n x s -> 0 <= c -> Z.of_nat (length l) * c <= n -> tag = sl_tag x -> Forall (fun size => 0 < size <= 2 ^ 16) l ->
  wp (for_each l (realloc_step clock depth tag) s) (fun _ s' => exists y, holding (n - Z.of_nat (length l) * c) y s').
Proof.
  revert n x s. induction l as [|size l IH]; intros n x s Hh Hc Hn Ht Hl; [cbn; exists x; by rewrite Z.sub_0_r|]. apply Forall_cons in Hl as [Hs Hl]. cbn [length] in *.
  cbn [for_each]. apply wp_bind. apply (realloc_step_ok n x); [done|nia|done|done|]. intros s1 q H1. eapply wp_mono; [apply (IH (n - c) _ _ H1); [done|nia|done|done]|].
  intros [] s2 [y Hy]. exists y. by replace (n - Z.of_nat (Datatypes.S (length l)) * c) with (n - c - Z.of_nat (length l) * c) by lia.
Qed.

(** A second slot comes and goes. *)
Lemma second_slot n x size tag p1 p2 (k : K st unit) (s : st) (Q : unit -> st -> Prop) :
  holding n x s -> c <= n -> 0 < size <= 2 ^ 16 -> 0 <= tag < 256 -> (forall s', holding (n - c) x s' -> wp (k s') Q) ->
  wp ((do! alloc_slot clock depth 1 size tag p1 in do! release_slot clock depth p2 1 in k) s) Q.
Proof.
  intros (own & Hr & Hx & Hx0 & He) Hn Hs Ht HQ. destruct (He 1 ltac:(lia)) as (y & Hy & Hy0). apply wp_bind. apply (alloc_ok n own 1 y); try done.
  intros s1 p ws Hr1 _ _ E1 _ _. apply wp_bind. apply (release_ok (n - c) (<[p := ws]> own)); [done|lia|]. intros s2 own2 Hr2 He2 Ho2 _ _ _. apply HQ. exists own2.
  split; [done|]. pose proof (inserted_others 1 _ s s1 ltac:(lia) E1) as Ho1. split; [change 0%nat with (Z.to_nat 0); rewrite (Ho2 0), (Ho1 0) by lia; done|]. split; [done|].
  intros j Hj. destruct (decide (j = 1)) as [->|]; [done|]. apply (empty_kept 1 j s1 s2 Ho2); [lia|done|]. apply (empty_kept 1 j s s1 Ho1); [lia|done|]. by apply He.
Qed.

Lemma bind_congr {A B} (o1 o2 : K st A) (k : A -> K st B) (s : st) : o1 s = o2 s -> bind o1 k s = bind o2 k s.
Proof. unfold bind. by intros ->. Qed.

Lemma zeroed_slot n x (k : K st unit) (s : st) (Q : unit -> st -> Prop) :
  holding n x s -> (forall s', idle n s' -> wp (k s') Q) ->
  wp ((let! z := heap_op (kh_realloc (sl_ptr x) 0) in
       if negb (z =? 0) then panic "memtest: krealloc(ptr, 0) did not return NULL" else do! put_slot 0 no_slot in k) s) Q.
Proof.
  intros (own & [(m & Hm & Hr) Hd Hh Hl] & Hx & Hx0 & He) HQ. destruct (h_live _ _ Hh _ _ Hx Hx0) as (ws & Ho & _).
  assert (Hp : (own ∪ A0) !! sl_ptr x = Some ws) by (by apply lookup_union_Some_l). assert (Hna : A0 !! sl_ptr x = None) by (by eapply map_disjoint_Some_l).
  destruct (mt_realloc_zero _ _ _ _ _ Hr Hp) as (h & E & Hr'). apply wp_bind. eapply wp_heap; [exact E|]. change (0 =? 0) with true. cbn [negb].
  rewrite (bind_Ret _ _ _ _ _ (put_slot_eq 0 no_slot (set_mheap h s) ltac:(cbn; rewrite (h_len _ _ Hh); lia))).
  rewrite delete_union, (delete_id A0) in Hr' by done. apply HQ, (idle_of _ (delete (sl_ptr x) own)).
  - split; [by exists m|by apply map_disjoint_delete_l|cbn; by apply held_free|done].
  - intros j Hj. destruct (decide (j = 0)) as [->|]; [eexists; split; [apply list_lookup_insert_eq; cbn; rewrite (h_len _ _ Hh); lia|done]|].
    apply (empty_kept 0 j s); [|lia|done|apply He; lia]. intros i Hi Hne. cbn. apply list_lookup_insert_ne. lia.
Qed.

Theorem realloc_passes n (s : st) : resting n s -> 0 <= c -> 11 * c <= n -> wp (realloc_test clock depth s) (fun _ s' => idle (n - 11 * c) s').
Proof.
  intros Hs Hc Hn. unfold realloc_test. apply (wp_begin _ n); [done|done|]. clear s Hs. intros s Hi. cbv zeta. apply wp_bind.
  apply (alloc_first n); [done|lia|cbn; lia|lia|]. intros s1 p1 H1. apply wp_bind.
  eapply wp_mono; [apply (realloc_chain (drop 1 realloc_sizes) (n - c) _ 0x5A s1 H1); [done|cbn [length drop realloc_sizes]; lia|done|apply (bool_decide_unpack _); exact I]|].
  intros [] s2 [y2 H2]. change (Z.of_nat (length (drop 1 realloc_sizes))) with 6 in H2. apply wp_bind. apply (release_first _ _ _ _ _ H2). intros s3 H3.
  rewrite (bind_congr _ (heap_op (kh_malloc 512))) by (unfold heap_op, zoom; by rewrite kh_realloc_null). rewrite <- bind_assoc. apply wp_bind.
  apply (alloc_first (n - c - 6 * c)); [done|lia|lia|lia|]. intros s4 p4 H4. destruct (holding_ready _ _ _ H4) as [own4 Hr4].
  eapply wp_same; [eapply verify_slot_ok; [exact Hr4|lia]|]. eapply wp_same; [apply (slot_eq 0 (Slot p4 512 0xC7)); by destruct H4 as (? & _ & ? & _)|].
  apply (zeroed_slot _ (Slot p4 512 0xC7) _ s4 _ H4). intros s5 H5. apply wp_bind. apply (alloc_first _ _ _ _ _ _ H5); [lia|lia|lia|]. intros s6 p6 H6.
  apply (second_slot _ _ _ _ _ _ _ _ _ H6); [lia|lia|lia|]. intros s7 H7. eapply wp_same; [apply (slot_eq 0 (Slot p6 2048 0xD1)); by destruct H7 as (? & _ & ? & _)|]. cbn [sl_ptr].
  set (n7 := n - c - 6 * c - c - c - c) in *.
  pose proof (resize_first n7 _ 6144 0xD1 p6 2048 (fun _ => ret tt) "realloc adjacent preservation" (panic "memtest: adjacent krealloc failed")
    (fun grown => do! verify_slot clock depth "realloc adjacent final verify" 0 in
      do! (if grown =? p6 then tline clock depth "[MEMTEST] krealloc in-place growth path observed." else tline clock depth "[MEMTEST] krealloc used fallback move path.") in
      release_slot clock depth "realloc adjacent final free" 0) s7 (fun _ s' => idle (n - 11 * c) s') H7 ltac:(unfold n7; lia) ltac:(lia) eq_refl eq_refl eq_refl ltac:(done)) as Hw.
  assert (Hk : wp ((let! q := heap_op (kh_realloc p6 6144) in if q =? 0 then panic "memtest: adjacent krealloc failed" else
    do! verify_prefix clock depth "realloc adjacent preservation" 0 q 2048 0xD1 in do! (do! put_slot 0 (Slot q 6144 0xD1) in do! ret tt in fill_slot 0) in
    do! verify_slot clock depth "realloc adjacent final verify" 0 in
    do! (if q =? p6 then tline clock depth "[MEMTEST] krealloc in-place growth path observed." else tline clock depth "[MEMTEST] krealloc used fallback move path.") in
    release_slot clock depth "realloc adjacent final free" 0) s7) (fun _ s' => idle (n - 11 * c) s')).
  { apply Hw. intros s8 q H8. destruct (holding_ready _ _ _ H8) as [own8 Hr8]. eapply wp_same; [eapply verify_slot_ok; [exact Hr8|lia]|]. apply wp_bind.
    assert (Hsay : forall m, plain (chars "%s" ++ [10; 0]) [Str (cstr m)] = true -> wp (tline clock depth m s8)
      (fun _ s' => wp (release_slot clock depth "realloc adjacent final free" 0 s') (fun _ s' => idle (n - 11 * c) s'))).
    { intros m Hp. eapply wp_tline; [done|exact Hr8|]. intros w Hrw. apply (release_first (n7 - c) (Slot q 6144 0xD1)).
      - destruct H8 as (own & Hr & Hx & Hx0 & He). exists own. split; [apply ready_con; [done|apply Hrw]|by split_and!].
      - intros s9 H9. by replace (n - 11 * c) with (n7 - c) by (unfold n7; ring). }
    destruct (q =? p6); by apply Hsay. }
  clear Hw. unfold bind in *. destruct (heap_op _ s7) as [q t1| | |]; [|done..]. destruct (q =? 0); [done|]. destruct (verify_prefix _ _ _ _ _ _ _ t1) as [[] t2| | |]; [|done..].
  destruct (put_slot _ _ t2) as [[] t3| | |]; [|done..]. cbn in Hk |- *. by destruct (fill_slot 0 t3) as [[] t4| | |].
Qed.
End suite.
End MemtestSpec.
