(* ===== verification/MemtestRandom.v ===== *)
(** The randomised phase of the memory qualification suite: every cycle follows a
    run that does not depend on the heap, so two cycles of one seed agree, and the
    bytes counted are the bytes held. *)
From Stdlib Require Import Ascii.
From S2P Require Import Prelude CString Printf PrintfSpec Putchar PrintTotal KHeap HeapBytes Memtest MemtestSpec.

Module MemtestRandom.
Import PrintfSpec PrintTotal MemtestSpec.

(** * A randomised cycle without the heap

    Which operation comes next, and on which sizes, depends on the seed and on the
    sizes held, never on what the heap returns. *)
Record sim : Type := Sim { v_sizes : list (option Z); v_seed : Z; v_stats : memtest_stats }.
Definition sizes_of (sl : list memtest_slot) : list (option Z) := (fun x => if sl_ptr x =? 0 then None else Some (sl_size x)) <$> sl.

Definition sim_act (v : sim) : sim :=
  let r1 := xorshift64_step (v_seed v) in
  let index := r1 mod MEMTEST_SLOT_COUNT in
  let r2 := xorshift64_step r1 in
  match default None (v_sizes v !! Z.to_nat index) with
  | None =>
      let size := 1 + r2 mod MEMTEST_RANDOM_MAX_ALLOC in
      Sim (<[Z.to_nat index := Some size]> (v_sizes v)) (xorshift64_step r2) (stats_add_live size (count_alloc (v_stats v)))
  | Some old =>
      if r2 mod 100 <? 35 then Sim (<[Z.to_nat index := None]> (v_sizes v)) r2 (stats_sub_live old (count_free (v_stats v)))
      else if r2 mod 100 <? 75 then
        let r3 := xorshift64_step r2 in
        let size := 1 + r3 mod MEMTEST_RANDOM_MAX_ALLOC in
        Sim (<[Z.to_nat index := Some size]> (v_sizes v)) r3 (stats_add_live size (stats_sub_live old (count_realloc (v_stats v))))
      else Sim (v_sizes v) r2 (v_stats v)
  end.
Definition sim_op (v : sim) : sim := let v' := sim_act v in Sim (v_sizes v') (v_seed v') (count_op (v_stats v')).

Definition sim_free (index : Z) (v : sim) : sim :=
  match default None (v_sizes v !! Z.to_nat index) with
  | None => v
  | Some old => Sim (<[Z.to_nat index := None]> (v_sizes v)) (v_seed v) (stats_sub_live old (count_free (v_stats v)))
  end.

(** The bytes held are the bytes counted. *)
Definition total (l : list (option Z)) : Z := foldr (fun o a => default 0 o + a) 0 l.
Definition counted (v : sim) : Prop := live_bytes (v_stats v) = u64 (total (v_sizes v)).

Lemma total_insert l i o o' : l !! i = Some o -> total (<[i := o']> l) = total l - default 0 o + default 0 o'.
Proof.
  revert i. induction l as [|a l IH]; intros [|i] Hi; try done.
  - injection Hi as ->. cbn. lia.
  - change (default 0 a + total (<[i := o']> l) = default 0 a + total l - default 0 o + default 0 o'). rewrite (IH i Hi). lia.
Qed.

Lemma u64_add a b : u64 (u64 a + b) = u64 (a + b).
Proof. unfold wrap. apply Z.add_mod_idemp_l. lia. Qed.
Lemma u64_sub a b : u64 (u64 a - b) = u64 (a - b).
Proof. unfold wrap. apply Zminus_mod_idemp_l. Qed.

Lemma index_range r : 0 <= r mod MEMTEST_SLOT_COUNT < 128.
Proof. apply Z.mod_pos_bound. done. Qed.

Lemma sim_op_counted v : length (v_sizes v) = 128%nat -> counted v -> counted (sim_op v) /\ length (v_sizes (sim_op v)) = 128%nat.
Proof.
  unfold counted. intros Hl Hc. unfold sim_op, sim_act. set (r1 := xorshift64_step (v_seed v)). pose proof (index_range r1) as Hi. cbv zeta.
  destruct (lookup_lt_is_Some_2 (v_sizes v) (Z.to_nat (r1 mod MEMTEST_SLOT_COUNT))) as [o Ho]; [lia|]. rewrite Ho. cbn [default].
  destruct o as [old|].
  - destruct (_ <? 35); [|destruct (_ <? 75)]; cbn -[total]; rewrite ?length_insert; (split; [|done]); [| |done].
    + rewrite (total_insert _ _ _ _ Ho), Hc, u64_sub. f_equal. cbn. lia.
    + rewrite (total_insert _ _ _ _ Ho), Hc, u64_sub, u64_add. f_equal.
  - cbn -[total]. rewrite length_insert. split; [|done]. rewrite (total_insert _ _ _ _ Ho), Hc, u64_add. f_equal. cbn. lia.
Qed.

Lemma sim_free_counted i v : 0 <= i < 128 -> length (v_sizes v) = 128%nat -> counted v -> counted (sim_free i v) /\ length (v_sizes (sim_free i v)) = 128%nat.
Proof.
  unfold counted. intros Hi Hl Hc. unfold sim_free. destruct (lookup_lt_is_Some_2 (v_sizes v) (Z.to_nat i)) as [o Ho]; [lia|]. rewrite Ho. cbn [default].
  destruct o as [old|]; [|done]. cbn -[total]. rewrite length_insert. split; [|done]. rewrite (total_insert _ _ _ _ Ho), Hc, u64_sub. f_equal. cbn. lia.
Qed.

Lemma total_none l : Forall (fun o => o = None) l -> total l = 0.
Proof. induction 1 as [|o l -> _ IH]; [done|]. exact IH. Qed.

(** A whole cycle: the operations, then the clean-up in shuffled order. *)
Definition sim_start (seed0 : Z) : sim := Sim (replicate 128 None) seed0 no_stats.
Definition sim_run (k : nat) (v : sim) : sim := Nat.iter k sim_op v.
Fixpoint sim_clean (k : nat) (v : sim) : sim :=
  match k with O => v | S k => sim_free ((Z.of_nat k * 73) mod MEMTEST_SLOT_COUNT) (sim_clean k v) end.
Definition sim_cycle (slots ops : nat) (seed0 : Z) : sim := sim_clean slots (sim_run ops (sim_start seed0)).

Lemma sim_cycle_eq slots ops seed0 : sim_clean slots (sim_run ops (sim_start seed0)) = sim_cycle slots ops seed0.
Proof. done. Qed.

Lemma sim_run_counted k v : length (v_sizes v) = 128%nat -> counted v -> counted (sim_run k v) /\ length (v_sizes (sim_run k v)) = 128%nat.
Proof. intros Hl Hc. induction k as [|k [IHc IHl]]; [done|]. by apply sim_op_counted. Qed.

Lemma sim_clean_counted k v : length (v_sizes v) = 128%nat -> counted v -> counted (sim_clean k v) /\ length (v_sizes (sim_clean k v)) = 128%nat.
Proof. intros Hl Hc. induction k as [|k [IHc IHl]]; [done|]. apply sim_free_counted; [apply index_range|done..]. Qed.

Lemma sim_cycle_counted slots ops seed0 : counted (sim_cycle slots ops seed0).
Proof. destruct (sim_run_counted ops (sim_start seed0)) as [Hc Hl]; [done|done|]. by apply sim_clean_counted. Qed.

Section random.
Context {H : Type} `{HH : KernelHeap H} {HL : KernelHeapLaws H} `{HM : MemtestMachine H} {HT : MemtestLaws H}.
Variable clock : list effect -> Z.
Variable depth : nat.
Hypothesis Hdepth : (0 < depth)%nat.
Variable yield : K H unit.
Hypothesis yield_ok : forall h n A, kh_rep h n A -> exists h', yield h = Ret tt h' /\ kh_rep h' n A.
Variable A0 : gmap Z (list Z).
Variable c : Z.
Hypothesis Hcost : forall size, 0 < size <= 2 ^ 16 -> kh_cost size <= c.
Hypothesis Hc : 0 <= c.

Local Abbreviation st := (mt H).
Local Abbreviation ready := (ready A0).

Definition view (s : st) : sim := Sim (sizes_of (g_slots s)) (seed s) (stats s).
(** Budget [n] is left, and the run has reached [v]. *)
Definition follows (n : Z) (v : sim) (s : st) : Prop := (exists own, ready n own s) /\ view s = v.

Lemma sizes_insert (sl : list memtest_slot) i x : sizes_of (<[i := x]> sl) = <[i := if sl_ptr x =? 0 then None else Some (sl_size x)]> (sizes_of sl).
Proof. apply list_fmap_insert. Qed.

Lemma sizes_lookup (sl : list memtest_slot) i x : sl !! i = Some x -> sizes_of sl !! i = Some (if sl_ptr x =? 0 then None else Some (sl_size x)).
Proof. intros E. unfold sizes_of. by rewrite list_lookup_fmap, E. Qed.

Lemma sizes_released n m own own' i (s s' : st) :
  ready n own s -> ready m own' s' -> 0 <= i < 128 -> empty_at s' i -> others_same i s s' -> sizes_of (g_slots s') = <[Z.to_nat i := None]> (sizes_of (g_slots s)).
Proof.
  intros Hr Hr' Hi (x & Hx & Hx0) Ho. apply slots_len in Hr, Hr'. apply list_eq. intros j. destruct (decide (j = Z.to_nat i)) as [->|Hne].
  - rewrite (sizes_lookup _ _ _ Hx), Hx0. symmetry. apply list_lookup_insert_eq. unfold sizes_of. rewrite length_fmap. lia.
  - rewrite list_lookup_insert_ne by done. unfold sizes_of. rewrite !list_lookup_fmap. rewrite <- (Nat2Z.id j), Ho by lia. done.
Qed.

Lemma ready_seed n own v (s : st) : ready n own s -> ready n own (set_seed v s).
Proof. intros []. by split. Qed.
Lemma ready_stats n own v (s : st) : ready n own s -> ready n own (set_stats v s).
Proof. intros []. by split. Qed.

Lemma wp_xorshift {A} (k : Z -> K st A) (s : st) Q : wp (k (xorshift64_step (seed s)) (set_seed (xorshift64_step (seed s)) s)) Q -> wp (bind xorshift64 k s) Q.
Proof. done. Qed.

Lemma nonzero_tag_range r d : 0 <= d < 256 -> 0 <= nonzero_tag (u8 r) d < 256.
Proof. intros Hd. unfold nonzero_tag. destruct (_ =? 0); [done|]. by apply wrap_range. Qed.

Lemma random_size r : 0 < 1 + r mod MEMTEST_RANDOM_MAX_ALLOC <= 2 ^ 16.
Proof. pose proof (Z.mod_pos_bound r MEMTEST_RANDOM_MAX_ALLOC ltac:(done)). unfold MEMTEST_RANDOM_MAX_ALLOC in *. lia. Qed.

Lemma random_alloc_ok n own i x (s : st) :
  ready n own s -> c <= n -> 0 <= i < 128 -> g_slots s !! Z.to_nat i = Some x -> sl_ptr x = 0 ->
  wp (random_alloc clock depth i s) (fun _ => follows (n - c)
    (let r := xorshift64_step (seed s) in let size := 1 + r mod MEMTEST_RANDOM_MAX_ALLOC in
     Sim (<[Z.to_nat i := Some size]> (sizes_of (g_slots s))) (xorshift64_step r) (stats_add_live size (count_alloc (stats s))))).
Proof.
  intros Hr Hn Hi Hx Hx0. unfold random_alloc. apply wp_xorshift, wp_xorshift. cbv zeta. apply wp_bind.
  eapply (alloc_ok clock depth Hdepth A0 c Hcost n own i x); [by do 2 apply ready_seed|done|done|done|done|apply random_size|by apply nonzero_tag_range|].
  intros s' p ws Hr' Hp0 _ Esl Est Ese. cbn in Esl, Est, Ese. split; [eexists; by do 2 apply ready_stats|].
  unfold view. cbn -[sizes_of]. rewrite Esl, Est, Ese, sizes_insert. cbn [sl_ptr sl_size]. by rewrite (proj2 (Z.eqb_neq _ 0) Hp0).
Qed.

Lemma random_free_ok n own phase i old (s : st) :
  ready n own s -> 0 <= i < 128 ->
  wp (random_free clock depth phase i old s) (fun _ s' => follows n (Sim (<[Z.to_nat i := None]> (sizes_of (g_slots s))) (seed s) (stats_sub_live old (count_free (stats s)))) s').
Proof.
  intros Hr Hi. unfold random_free. apply wp_bind. apply (release_ok clock depth Hdepth A0 n own); [done|done|]. intros s' own' Hr' He Ho Est Ese _.
  split; [exists own'; by do 2 apply ready_stats|]. unfold view. cbn -[sizes_of]. by rewrite Est, Ese, (sizes_released n n own own' i s s').
Qed.
(** The steps of a reallocation, regrouped. *)
Lemma realloc_regroup (a b d e : K st unit) (k : K st unit) (s : st) :
  (do! a in do! b in do! d in do! e in k) s = (do! (do! a in do! (do! b in d) in e) in k) s.
Proof. unfold bind. destruct (a s) as [[] s1| | |]; [|done..]. destruct (b s1) as [[] s2| | |]; [|done..]. by destruct (d s2) as [[] s3| | |]. Qed.

Lemma random_realloc_ok n own i x (s : st) :
  ready n own s -> c <= n -> 0 <= i < 128 -> g_slots s !! Z.to_nat i = Some x -> sl_ptr x <> 0 ->
  wp (random_realloc clock depth i s) (fun _ => follows (n - c)
    (let r := xorshift64_step (seed s) in let size := 1 + r mod MEMTEST_RANDOM_MAX_ALLOC in
     Sim (<[Z.to_nat i := Some size]> (sizes_of (g_slots s))) r (stats_add_live size (stats_sub_live (sl_size x) (count_realloc (stats s)))))).
Proof.
  intros Hr Hn Hi Hx Hx0. unfold random_realloc. eapply wp_same; [by apply (verify_slot_ok clock depth Hdepth A0 n own)|].
  eapply wp_same; [by apply slot_eq|]. apply wp_xorshift. cbv zeta. set (r := xorshift64_step (seed s)). set (size := 1 + r mod _). apply wp_bind.
  pose proof (random_size r : 0 < size <= 2 ^ 16) as Hs. pose proof (ready_seed _ _ r _ Hr) as Hr1. set (s1 := set_seed r s) in *.
  apply (wp_resize depth Hdepth A0 c Hcost n own i x size); try done. intros q us h m Hm Hrep Ha Hq0 Hq Hna Hlen Hf. rewrite (proj2 (Z.eqb_neq q 0)) by done.
  destruct Hr1 as [_ Hd Hh Hl]. assert (Hp : (<[q := us]> (delete (sl_ptr x) own) ∪ A0) !! q = Some us) by (apply lookup_union_Some_l, lookup_insert_eq).
  eapply wp_same; [eapply (prefix_ok clock depth Hdepth m); [exact Hrep|exact Hp|lia|exact Hf]|]. rewrite realloc_regroup. apply wp_bind.
  apply (wp_refill depth Hdepth A0 m own i x q us); try done; [lia|by eapply h_tag| |].
  - intros s2 E2. assert (Hck : verify_no_overlap clock depth "random realloc overlap" i q size s2 = Ret tt s2).
    { eapply (no_overlap_ok clock depth Hdepth m); [rewrite E2; exact Hrep|exact Hp|lia|rewrite E2; cbn; rewrite length_insert; apply Hh| |lia].
      intros j y. rewrite E2. cbn. intros Hy Hj Hy0. rewrite list_lookup_insert_ne in Hy by done. destruct (h_live _ _ Hh _ _ Hy Hy0) as (vs & Hv & Hsz & _).
      assert (Hyx : sl_ptr y <> sl_ptr x) by (intros E; apply Hj; by eapply (h_inj _ _ Hh)). assert (Hyq : sl_ptr y <> q) by (destruct Hq; congruence).
      split; [done|]. exists vs. split; [|done]. apply lookup_union_Some_l. by rewrite lookup_insert_ne, lookup_delete_ne. }
    by rewrite (bind_Ret _ _ _ _ _ (alignment_ok clock depth Hdepth _ i q s2 Ha)).
  - intros s' us' Hr' Esl Est Ese. cbn in Esl, Est, Ese. split; [eexists; do 3 apply ready_stats; eapply ready_weaken; [exact Hdepth|exact Hr'|lia]|].
    unfold view. cbn -[sizes_of]. rewrite Esl, Est, Ese, sizes_insert. cbn [sl_ptr sl_size]. by rewrite (proj2 (Z.eqb_neq _ 0) Hq0).
Qed.

Lemma random_op_ok n op v (s : st) : follows n v s -> c <= n -> wp (random_op clock depth yield op s) (fun _ => follows (n - c) (sim_op v)).
Proof.
  intros [[own Hr] <-] Hn. unfold random_op. apply wp_xorshift. cbv zeta. set (r1 := xorshift64_step (seed s)). set (i := r1 mod MEMTEST_SLOT_COUNT).
  pose proof (index_range r1 : 0 <= i < 128) as Hi. pose proof (ready_seed _ _ r1 _ Hr) as Hr1. destruct (slot_some depth Hdepth A0 _ _ _ i Hr1 Hi) as [x Hx].
  eapply wp_same; [by apply slot_eq|]. apply wp_bind.
  eapply (wp_mono _ (fun _ => follows (n - c) (sim_act (view s)))).
  - unfold sim_act, view at 1 2. cbn [v_seed v_sizes v_stats]. fold r1 i. rewrite (sizes_lookup _ _ _ (Hx : g_slots s !! Z.to_nat i = Some x)). cbn [default].
    destruct (Z.eqb_spec (sl_ptr x) 0) as [Hx0|Hx0]; [by apply (random_alloc_ok n own i x (set_seed r1 s))|]. apply wp_xorshift. cbn [seed set_seed].
    set (r2 := xorshift64_step r1). pose proof (ready_seed _ _ r2 _ Hr1) as Hr2.
    destruct (_ <? 35); [|destruct (_ <? 75)].
    + eapply wp_mono; [by apply (random_free_ok n own)|]. intros _ s' [[own' Hr'] Hv]. split; [|done]. exists own'. eapply ready_weaken; [exact Hdepth|done|lia].
    + by apply (random_realloc_ok n own i x (set_seed r2 (set_seed r1 s))).
    + rewrite (verify_slot_ok clock depth Hdepth A0 n own) by done. split; [|done]. exists own. eapply ready_weaken; [exact Hdepth|done|lia].
  - intros [] s1 [[own1 Hs1] Hv]. unfold sim_op. rewrite <- Hv. pose proof (ready_stats _ _ (count_op (stats s1)) _ Hs1) as Hs2.
    apply wp_bind. cbn [tally modify wp]. set (s2 := set_stats _ s1) in *. destruct (_ =? 63); [|split; [by exists own1|done]]. cbn [when].
    eapply wp_same; [by apply (verify_all_ok clock depth Hdepth A0 (n - c) own1)|]. eapply (wp_schedule yield yield_ok A0); [exact Hs2|]. intros h Hh. split; [by exists own1|done].
Qed.
Lemma idle_sizes n (s : st) : idle A0 n s -> sizes_of (g_slots s) = replicate 128 None.
Proof.
  intros [Hr He]. pose proof (slots_len _ _ _ _ Hr) as Hl. apply list_eq. intros j. destruct (decide (j < 128)%nat) as [Hj|Hj].
  - destruct (He (Z.of_nat j) ltac:(lia)) as (x & Hx & Hx0). rewrite Nat2Z.id in Hx. rewrite (sizes_lookup _ _ _ Hx), Hx0. symmetry. by apply lookup_replicate_2.
  - rewrite (lookup_ge_None_2 (replicate _ _)) by (rewrite length_replicate; lia). apply lookup_ge_None_2. unfold sizes_of. rewrite length_fmap. lia.
Qed.

Lemma random_ops_ok n v (s : st) :
  follows n v s -> MEMTEST_RANDOM_OPS * c <= n ->
  wp (for_range 0 MEMTEST_RANDOM_OPS (random_op clock depth yield) s) (fun _ => follows (n - MEMTEST_RANDOM_OPS * c) (sim_run (Z.to_nat MEMTEST_RANDOM_OPS) v)).
Proof.
  intros Hf Hn. apply (wp_for_range (fun j => follows (n - j * c) (sim_run (Z.to_nat j) v))); [done| |].
  - rewrite Z.mul_0_l, Z.sub_0_r. exact Hf.
  - intros j s1 Hj Hs1. eapply wp_mono; [apply (random_op_ok _ j _ s1 Hs1); nia|]. intros [] s2 H2.
    replace (n - (j + 1) * c) with (n - j * c - c) by ring. replace (Z.to_nat (j + 1)) with (Datatypes.S (Z.to_nat j)) by lia. exact H2.
Qed.

Lemma cleanup_ok n v (s : st) :
  follows n v s ->
  wp (for_range 0 MEMTEST_SLOT_COUNT (fun step =>
        let index := (step * 73) mod MEMTEST_SLOT_COUNT in
        let! x := slot index in
        if sl_ptr x =? 0 then ret tt else random_free clock depth "random cleanup" index (sl_size x)) s)
     (fun _ s' => idle A0 n s' /\ view s' = sim_clean (Z.to_nat MEMTEST_SLOT_COUNT) v).
Proof.
  intros Hf.
  eapply wp_mono; [apply (wp_for_range (fun t s' => follows n (sim_clean (Z.to_nat t) v) s' /\ forall k, 0 <= k < t -> empty_at s' ((k * 73) mod MEMTEST_SLOT_COUNT))); [done|split; [exact Hf|lia]|]|].
  - intros t s1 Ht [[[own Hr] Hv] He]. replace (Z.to_nat (t + 1)) with (Datatypes.S (Z.to_nat t)) by lia. cbn [sim_clean]. rewrite Z2Nat.id by lia. cbv zeta.
    set (i := (t * 73) mod MEMTEST_SLOT_COUNT). pose proof (index_range (t * 73) : 0 <= i < 128) as Hi. destruct (slot_some depth Hdepth A0 _ _ _ i Hr Hi) as [x Hx].
    eapply wp_same; [by apply slot_eq|]. unfold sim_free. rewrite <- Hv. cbn [view v_sizes v_seed v_stats]. rewrite (sizes_lookup _ _ _ Hx). cbn [default].
    destruct (Z.eqb_spec (sl_ptr x) 0) as [Hx0|Hx0].
    + split; [split; [by exists own|done]|]. intros k Hk. destruct (decide (k = t)) as [->|]; [by exists x|]. apply He. lia.
    + unfold random_free. apply wp_bind. apply (release_ok clock depth Hdepth A0 n own); [done|done|]. intros s' own' Hr' He' Ho Est Ese _. split.
      * split; [exists own'; by do 2 apply ready_stats|]. unfold view. cbn -[sizes_of]. by rewrite Est, Ese, (sizes_released n n own own' i s1 s').
      * intros k Hk. change (empty_at s' ((k * 73) mod MEMTEST_SLOT_COUNT)). destruct (decide ((k * 73) mod MEMTEST_SLOT_COUNT = i)) as [->|Hne]; [done|].
        apply (empty_kept i _ s1 s' Ho); [apply index_range|done|]. apply He. destruct (decide (k = t)) as [->|]; [done|lia].
  - intros [] s1 [[[own Hr] Hv] He]. split; [|exact Hv]. apply (idle_of depth Hdepth A0 n own); [done|]. intros j Hj. destruct (shuffle depth Hdepth j Hj) as (k & Hk & <-). by apply He.
Qed.

Lemma cycle_end_ok n ops seed0 (s : st) :
  follows n (sim_run ops (sim_start seed0)) s ->
  wp ((do! for_range 0 MEMTEST_SLOT_COUNT (fun step =>
             let index := (step * 73) mod MEMTEST_SLOT_COUNT in
             let! x := slot index in
             if sl_ptr x =? 0 then ret tt else random_free clock depth "random cleanup" index (sl_size x)) in
       let! s := get in
       when (negb (live_bytes (stats s) =? 0)) (panic "memtest: random-cycle live byte accounting did not return to zero")) s)
     (fun _ s' => idle A0 n s' /\ stats s' = v_stats (sim_cycle (Z.to_nat MEMTEST_SLOT_COUNT) ops seed0)).
Proof.
  intros Hf. apply wp_bind. eapply wp_mono; [apply (cleanup_ok _ _ s Hf)|]. intros [] s3 [Hi3 Hv3]. rewrite sim_cycle_eq in Hv3.
  pose proof (sim_cycle_counted (Z.to_nat MEMTEST_SLOT_COUNT) ops seed0) as Hcnt. rewrite <- Hv3 in Hcnt |- *. unfold counted, view in Hcnt. cbn [v_stats v_sizes] in Hcnt.
  rewrite (idle_sizes _ _ Hi3) in Hcnt. apply wp_bind. cbn [get wp]. rewrite Hcnt. change (u64 (total (replicate 128 None)) =? 0) with true. split; [exact Hi3|reflexivity].
Qed.

Lemma random_cycle_ok n seed0 (s : st) :
  resting A0 n s -> stats s = no_stats -> MEMTEST_RANDOM_OPS * c <= n ->
  wp (random_cycle clock depth yield seed0 s) (fun _ s' => idle A0 (n - MEMTEST_RANDOM_OPS * c) s' /\ stats s' = v_stats (sim_cycle (Z.to_nat MEMTEST_SLOT_COUNT) (Z.to_nat MEMTEST_RANDOM_OPS) seed0)).
Proof.
  intros Hs Hst Hn. unfold random_cycle. apply wp_bind. cbn [modify wp]. destruct (clear_ok depth Hdepth A0 n (set_seed seed0 s)) as (s1 & E1 & Hi & Est & Ese & _); [done|].
  apply wp_bind. rewrite E1. assert (Hf : follows n (sim_start seed0) s1).
  { split; [exists ∅; apply Hi|]. unfold view. rewrite (idle_sizes _ _ Hi), Est, Ese. cbn [set_seed stats seed]. by rewrite Hst. }
  apply wp_bind. eapply wp_mono; [apply (random_ops_ok n _ s1 Hf Hn)|]. intros [] s2 H2. pose proof H2 as [[own2 Hr2] Hv2].
  eapply wp_same; [eapply (verify_all_ok clock depth Hdepth A0); exact Hr2|]. apply (cycle_end_ok _ _ _ _ H2).
Qed.
Lemma count_resting n (s : st) : resting A0 n s -> heap_op mm_free_count s = Ret (mt_frames (mheap s)) s.
Proof. intros ((m & _ & Hr) & _). unfold heap_op, zoom. rewrite (mt_count _ _ _ Hr). by rewrite set_mheap_same. Qed.

(** A message changes neither slots nor statistics. *)
Lemma report n t format va (s : st) (Q : unit -> st -> Prop) :
  integral va -> plain format va = true -> idle A0 n s -> stats s = t -> (forall s', idle A0 n s' -> stats s' = t -> Q tt s') -> wp (tsay clock depth format va s) Q.
Proof.
  intros Hva Hp [Hr He] Ht HQ. apply (wp_tsay clock depth Hdepth); [done|done|apply Hr|]. intros k Hk. apply HQ; [|done]. split; [by apply ready_con|exact He].
Qed.

Local Ltac next_report Hi E :=
  apply wp_bind; refine (report _ _ _ _ _ _ _ _ Hi E _); [by repeat constructor|reflexivity|]; clear Hi E; intros ? Hi E.

(** The randomised phase passes: both cycles run to the end, agree on every counter,
    and everything allocated is given back. *)
Theorem randomized_passes n (s : st) :
  resting A0 n s -> 2 * MEMTEST_RANDOM_OPS * c <= n ->
  wp (randomized_heap_test clock depth yield s)
     (fun _ s' => idle A0 (n - 2 * MEMTEST_RANDOM_OPS * c) s' /\ stats s' = v_stats (sim_cycle (Z.to_nat MEMTEST_SLOT_COUNT) (Z.to_nat MEMTEST_RANDOM_OPS) 0x564F59414745524F)).
Proof.
  intros Hs Hn. unfold randomized_heap_test, tnum, tline. cbv zeta. generalize 0x564F59414745524F. intros seed0. destruct Hs as (Hh & Hl & Hlen).
  apply wp_bind, (wp_tsay clock depth Hdepth); [by repeat constructor|done|done|]. intros w0 Hw0. set (s0 := set_mcon w0 s).
  assert (H0 : resting A0 n s0) by done. eapply wp_same; [by eapply count_resting|]. apply wp_bind. cbn [modify wp]. set (s1 := set_stats no_stats s0).
  assert (H1 : resting A0 n s1) by done. unfold MEMTEST_RANDOM_OPS in Hn. apply wp_bind.
  eapply wp_mono; [apply (random_cycle_ok n seed0 s1 H1 eq_refl); unfold MEMTEST_RANDOM_OPS; lia|]. intros [] s2 [Hi2 E2]. apply wp_bind. cbn [gets wp]. rewrite E2.
  pose proof (idle_resting _ _ _ Hi2) as H2. eapply wp_same; [by eapply count_resting|]. apply wp_bind. cbn [modify wp]. set (s3 := set_stats no_stats s2).
  assert (H3 : resting A0 (n - MEMTEST_RANDOM_OPS * c) s3) by exact H2. apply wp_bind.
  eapply wp_mono; [apply (random_cycle_ok _ seed0 s3 H3 eq_refl); unfold MEMTEST_RANDOM_OPS; lia|]. clear s3 H3 Hi2 E2 H2. intros [] s3 [Hi3 E3]. apply wp_bind. cbn [gets wp]. rewrite E3.
  set (t := v_stats (sim_cycle _ _ seed0)) in *. clearbody t. eapply wp_same; [by eapply count_resting, idle_resting|].
  replace (n - MEMTEST_RANDOM_OPS * c - MEMTEST_RANDOM_OPS * c) with (n - 2 * MEMTEST_RANDOM_OPS * c) in Hi3 by ring.
  next_report Hi3 E3. next_report Hi3 E3. next_report Hi3 E3. next_report Hi3 E3. next_report Hi3 E3. next_report Hi3 E3.
  rewrite !Z.eqb_refl. cbn [negb orb]. destruct (_ <? _); cbn [when]; [|done]. next_report Hi3 E3.
  refine (report _ _ _ _ _ _ _ _ Hi3 E3 _); [by repeat constructor|reflexivity|]. done.
Qed.
End random.
End MemtestRandom.
