(* ===== verification/MemtestFrames.v ===== *)
(** The frame phase of the memory qualification suite, [pmm_roundtrip_test]:
    against a frame allocator that satisfies its laws every frame is new, keeps what
    is written to it, and comes back. *)
From Stdlib Require Import Ascii.
From S2P Require Import Prelude CString Printf PrintfSpec Putchar PrintTotal KHeap HeapBytes Memtest MemtestSpec.

Module MemtestFrames.
Import PrintfSpec PrintTotal MemtestSpec.

(** Of [t] frames the suite holds [own], the rest is free.  A frame taken costs the
    heap at most one page of its budget. *)
Class FrameLaws (H : Type) `{HH : KernelHeap H} {HL : KernelHeapLaws H} `{HM : MemtestMachine H} {HT : MemtestLaws H} : Type := {
  fl_held : H -> Z -> list Z -> Prop;
  fl_begin h n A : kh_rep h n A -> fl_held h (mt_frames h) [] /\ 0 <= mt_frames h < 2 ^ 63;
  fl_take h n A t own : kh_rep h n A -> fl_held h t own -> Z.of_nat (length own) < t ->
    exists p h', mm_frame_alloc h = Ret p h' /\ kh_rep h' (n - 1) A /\ fl_held h' t (p :: own) /\ p ∉ own /\ p mod 4096 = 0 /\ 0 <= p < 2 ^ 46;
  fl_give h n A t p own : kh_rep h n A -> fl_held h t (p :: own) ->
    exists h', mm_frame_free p h = Ret tt h' /\ kh_rep h' n A /\ fl_held h' t own;
  fl_count h n A t own : kh_rep h n A -> fl_held h t own -> mt_frames h = t - Z.of_nat (length own);
}.

Lemma page_pattern_byte i k : u8 (page_pattern i k) = page_pattern i k.
Proof.
  apply Z.bits_inj'. intros n Hn. rewrite wrap_testbit by lia. destruct (Z.ltb_spec n 8) as [|Hge]; [done|]. cbn [andb].
  unfold page_pattern. rewrite !Z.lxor_spec, !wrap_testbit by lia. rewrite (proj2 (Z.ltb_ge n 8)) by lia. cbn [andb xorb].
  symmetry. apply (Z.bits_above_log2 0xA5 n); [lia|]. change (Z.log2 0xA5) with 7. lia.
Qed.

Section frames.
Context {H : Type} `{HH : KernelHeap H} {HL : KernelHeapLaws H} `{HM : MemtestMachine H} {HT : MemtestLaws H} {HF : FrameLaws H}.
Variable clock : list effect -> Z.
Variable depth : nat.
Hypothesis Hdepth : (0 < depth)%nat.
Variable yield : K H unit.
Variable A0 : gmap Z (list Z).
(** While the suite holds frames, the other tasks neither take nor give one. *)
Hypothesis yield_quiet : forall h n A t own, kh_rep h n A -> fl_held h t own -> exists h', yield h = Ret tt h' /\ kh_rep h' n A /\ fl_held h' t own.
Variable hhdm : Z.
Hypothesis Hhhdm : 0 <= hhdm <= 2 ^ 64 - 2 ^ 46.

Local Abbreviation st := (mt H).

(** The first [i] entries of [g_pmm_frames] are frames of the suite. *)
Record holds (n t : Z) (i : nat) (s : st) : Prop := {
  f_rep : exists m, n <= m /\ kh_rep (mheap s) m A0;
  f_len : length (g_pmm_frames s) = 256%nat;
  f_own : fl_held (mheap s) t (reverse (take i (g_pmm_frames s)));
  f_range : Forall (fun p => p mod 4096 = 0 /\ 0 <= p < 2 ^ 46) (take i (g_pmm_frames s));
  f_live : live (mcon s);
  f_slots : length (g_slots s) = 128%nat;
}.

(** Each carries its pattern. *)
Definition written (i : nat) (s : st) : Prop := NoDup (take i (g_pmm_frames s)) /\
  forall j p off, (j < i)%nat -> g_pmm_frames s !! j = Some p -> 0 <= off < 4096 ->
    pages s !! (p + hhdm + off) = Some (page_pattern (Z.of_nat j) off).

Lemma frame_eq i p (s : st) : g_pmm_frames s !! Z.to_nat i = Some p -> frame i s = Ret p s.
Proof. intros E. unfold frame. by rewrite E. Qed.

Lemma put_frame_eq i p (s : st) : 0 <= i < Z.of_nat (length (g_pmm_frames s)) -> put_frame i p s = Ret tt (set_pmm_frames (<[Z.to_nat i := p]> (g_pmm_frames s)) s).
Proof. intros Hi. unfold put_frame. by rewrite (proj2 (Z.leb_le 0 i)), (proj2 (Z.ltb_lt i _)) by lia. Qed.

(** The loop that writes a page. *)
Lemma write_page_ok page i len (s : st) : 0 <= len ->
  exists m, for_range 0 len (fun off => page_st8 (page + off) (page_pattern i off)) s = Ret tt (set_pages m s) /\
    (forall off, 0 <= off < len -> m !! (page + off) = Some (page_pattern i off)) /\
    (forall a, ~ (page <= a < page + len) -> m !! a = pages s !! a).
Proof.
  intros Hlen.
  assert (Hw : wp (for_range 0 len (fun off => page_st8 (page + off) (page_pattern i off)) s)
    (fun _ s' => exists m, s' = set_pages m s /\ (forall off, 0 <= off < len -> m !! (page + off) = Some (page_pattern i off)) /\
      (forall a, ~ (page <= a < page + len) -> m !! a = pages s !! a))).
  { apply (wp_for_range (fun j s' => exists m, s' = set_pages m s /\ (forall off, 0 <= off < j -> m !! (page + off) = Some (page_pattern i off)) /\
        (forall a, ~ (page <= a < page + len) -> m !! a = pages s !! a))); [lia| |].
    - exists (pages s). split; [by destruct s|]. split; [lia|done].
    - intros j s1 Hj (m & -> & Hm & Ho). cbn [page_st8 modify wp]. eexists. split; [reflexivity|]. split.
      + intros off Hoff. cbn [pages set_pages]. destruct (decide (off = j)) as [->|]; [rewrite lookup_insert_eq; by rewrite page_pattern_byte|].
        rewrite lookup_insert_ne by lia. apply Hm. lia.
      + intros a Ha. cbn [pages set_pages]. rewrite lookup_insert_ne by lia. by apply Ho. }
  apply wp_ret_inv in Hw as ([] & s' & E & m & -> & Hm). exists m. split; [exact E|exact Hm].
Qed.

Lemma heap_eq {A} (op : K H A) (s : st) a h : op (mheap s) = Ret a h -> heap_op op s = Ret a (set_mheap h s).
Proof. intros E. unfold heap_op, zoom. by rewrite E. Qed.

Lemma no_dup_ok (i : nat) p (s : st) : (i <= length (g_pmm_frames s))%nat -> p ∉ take i (g_pmm_frames s) ->
  for_range 0 (Z.of_nat i) (fun j => let! q := frame j in when (q =? p) (panic "memtest: frame_alloc returned a duplicate live frame")) s = Ret tt s.
Proof.
  intros Hi Hp. match goal with |- ?o = _ => enough (Hw : wp o (fun _ s' => s' = s)) by (by apply wp_ret_inv in Hw as ([] & s' & -> & ->)) end.
  unfold for_range. apply (wp_for_steps (fun _ s' => s' = s)); [done|]. intros j s' (k & Hk & ->) ->.
  destruct (lookup_lt_is_Some_2 (g_pmm_frames s) k) as [q Hq]; [lia|]. rewrite (bind_Ret _ _ _ q s) by (apply frame_eq; by replace (Z.to_nat (0 + Z.of_nat k * 1)) with k by lia).
  destruct (Z.eqb_spec q p) as [->|]; [|done]. destruct Hp. apply list_elem_of_lookup. exists k. rewrite lookup_take_lt by lia. done.
Qed.

Lemma page_unset p : p mod 4096 = 0 -> is_set p (MEMTEST_PAGE_SIZE - 1) = false.
Proof. intros Hp. unfold is_set. apply negb_false_iff, Z.eqb_eq. change (MEMTEST_PAGE_SIZE - 1) with (Z.ones 12). by rewrite Z.land_ones by lia. Qed.

(** Storing the frame just taken. *)
Lemma take_stored (l : list Z) i p : (i < length l)%nat -> take (Datatypes.S i) (<[i := p]> l) = take i l ++ [p].
Proof. intros Hi. rewrite (take_S_r _ _ p) by (by apply list_lookup_insert_eq). by rewrite take_insert_ge by lia. Qed.

Lemma pmm_take_ok n t (i : nat) (s : st) :
  holds n t i s -> written i s -> (i < 256)%nat -> Z.of_nat i < t ->
  wp (pmm_take yield hhdm (Z.of_nat i) s) (fun _ s' => holds (n - 1) t (Datatypes.S i) s' /\ written (Datatypes.S i) s').
Proof.
  intros [(m & Hm & Hr) Hlen Hown Hrg Hl Hsl] [Hnd Hw] Hi Ht. assert (Hlt : length (take i (g_pmm_frames s)) = i) by (rewrite length_take; lia).
  destruct (fl_take _ _ _ _ _ Hr Hown ltac:(rewrite length_reverse; lia)) as (p & h & E & Hr1 & Hown1 & Hnew & Hal & Hp).
  rewrite elem_of_reverse in Hnew. unfold pmm_take. rewrite (bind_Ret _ _ _ _ _ (heap_eq _ _ _ _ E)), (page_unset p Hal).
  rewrite (bind_Ret _ _ _ _ _ (no_dup_ok i p (set_mheap h s) ltac:(cbn; lia) Hnew)), (bind_Ret _ _ _ _ _ (put_frame_eq (Z.of_nat i) p (set_mheap h s) ltac:(cbn; lia))).
  cbv zeta. rewrite wrap_small by lia. set (s1 := set_pmm_frames _ _). destruct (write_page_ok (p + hhdm) (Z.of_nat i) MEMTEST_PAGE_SIZE s1 ltac:(unfold MEMTEST_PAGE_SIZE; lia)) as (mm & E2 & Hin & Hout).
  rewrite (bind_Ret _ _ _ _ _ E2).
  assert (Htk : take (Datatypes.S i) (g_pmm_frames s1) = take i (g_pmm_frames s) ++ [p]) by (cbn; rewrite Nat2Z.id; apply take_stored; lia).
  assert (Hend : forall h', (exists m, n - 1 <= m /\ kh_rep h' m A0) -> fl_held h' t (p :: reverse (take i (g_pmm_frames s))) ->
    holds (n - 1) t (Datatypes.S i) (set_mheap h' (set_pages mm s1)) /\ written (Datatypes.S i) (set_mheap h' (set_pages mm s1))).
  { intros h' Hr' Ho'. split.
    - split; [done|cbn; by rewrite length_insert|cbn -[take]; cbn -[take] in Htk; by rewrite Htk, reverse_snoc| |done|done].
      cbn -[take]; cbn -[take] in Htk. rewrite Htk. apply Forall_app. split; [done|]. apply Forall_singleton. exact (conj Hal Hp).
    - split; [change (NoDup (take (Datatypes.S i) (g_pmm_frames s1))); rewrite Htk; apply NoDup_app; split_and!; [exact Hnd|intros x Hx ->%list_elem_of_singleton; exact (Hnew Hx)|apply NoDup_singleton]|].
      intros j q off Hj Hq Hoff. change (mm !! (q + hhdm + off) = Some (page_pattern (Z.of_nat j) off)). cbn in Hq. rewrite Nat2Z.id in Hq.
      destruct (decide (j = i)) as [->|Hne]; [rewrite list_lookup_insert_eq in Hq by lia; injection Hq as <-; by apply Hin|].
      rewrite list_lookup_insert_ne in Hq by done. assert (Hq' : take i (g_pmm_frames s) !! j = Some q) by (rewrite lookup_take_lt by lia; done).
      pose proof (Forall_lookup_1 _ _ _ _ Hrg Hq') as [Hqa Hqr]. assert (q <> p) by (intros ->; apply Hnew; by eapply list_elem_of_lookup_2).
      rewrite Hout by (unfold MEMTEST_PAGE_SIZE; dm_lia). change (pages s !! (q + hhdm + off) = Some (page_pattern (Z.of_nat j) off)). apply Hw; [lia|done|done]. }
  destruct (_ =? 31); cbn [when].
  - destruct (yield_quiet h (m - 1) A0 t _ Hr1 Hown1) as (h' & E3 & Hr3 & Ho3). unfold schedule_point. rewrite (heap_eq _ (set_pages mm s1) _ _ E3). apply Hend; [exists (m - 1); split; [lia|done]|done].
  - apply wp_ret. specialize (Hend h). apply Hend; [exists (m - 1); split; [lia|done]|done].
Qed.

Lemma pmm_check_ok n t (cnt i : nat) (s : st) : holds n t cnt s -> written cnt s -> (i < cnt <= 256)%nat -> pmm_check clock depth hhdm (Z.of_nat i) s = Ret tt s.
Proof.
  intros Hh [_ Hw] Hi. destruct (lookup_lt_is_Some_2 (g_pmm_frames s) i) as [p Hp]; [rewrite (f_len _ _ _ _ Hh); lia|].
  unfold pmm_check. rewrite (bind_Ret _ _ _ p s) by (apply frame_eq; by rewrite Nat2Z.id). cbv zeta.
  assert (Hp' : take cnt (g_pmm_frames s) !! i = Some p) by (rewrite lookup_take_lt by lia; done). pose proof (Forall_lookup_1 _ _ _ _ (f_range _ _ _ _ Hh) Hp') as [_ Hpr].
  rewrite wrap_small by lia. match goal with |- ?o = _ => enough (Hx : wp o (fun _ s' => s' = s)) by (by apply wp_ret_inv in Hx as ([] & s' & -> & ->)) end.
  unfold for_range, MEMTEST_PAGE_SIZE. apply (wp_for_steps (fun _ s' => s' = s)); [done|]. intros j s' (k & Hk & ->) ->.
  unfold page_ld8. cbn [bind gets]. unfold bind. rewrite (Hw i p (0 + Z.of_nat k * 1)) by (done || lia). cbn [default]. by rewrite Z.eqb_refl.
Qed.

Lemma pmm_give_ok n t (i : nat) (s : st) : holds n t (Datatypes.S i) s -> (i < 256)%nat -> wp (pmm_give (Z.of_nat (Datatypes.S i)) s) (fun _ s' => holds n t i s').
Proof.
  intros [(m & Hm & Hr) Hlen Hown Hrg Hl Hsl] Hi. destruct (lookup_lt_is_Some_2 (g_pmm_frames s) i) as [p Hp]; [lia|].
  rewrite (take_S_r _ _ _ Hp) in Hown, Hrg. rewrite reverse_snoc in Hown. apply Forall_app in Hrg as [Hrg _]. destruct (fl_give _ _ _ _ _ _ Hr Hown) as (h & E & Hr' & Ho').
  unfold pmm_give. replace (Z.of_nat (Datatypes.S i) - 1) with (Z.of_nat i) by lia. rewrite (bind_Ret _ _ _ p s) by (apply frame_eq; by rewrite Nat2Z.id).
  rewrite (bind_Ret _ _ _ _ _ (heap_eq _ _ _ _ E)), put_frame_eq by (cbn; lia). cbn -[take]. rewrite Nat2Z.id.
  split; cbn -[take]; [by exists m|by rewrite length_insert|by rewrite take_insert_ge by lia|by rewrite take_insert_ge by lia|done|done].
Qed.
Lemma count_held n t i (s : st) : holds n t i s -> heap_op mm_free_count s = Ret (t - Z.of_nat (length (take i (g_pmm_frames s)))) s.
Proof.
  intros [(m & _ & Hr) _ Ho _ _ _]. rewrite (heap_eq _ _ _ _ (mt_count _ _ _ Hr)), set_mheap_same. by rewrite (fl_count _ _ _ _ _ Hr Ho), length_reverse.
Qed.

(** How many frames the phase takes. *)
Definition pmm_count (before : Z) : Z := if before <=? MEMTEST_PMM_MAX_FRAMES + 32 then before / 4 else MEMTEST_PMM_MAX_FRAMES.
Lemma pmm_count_range before : 32 <= before -> 8 <= pmm_count before <= 256 /\ pmm_count before <= before.
Proof. intros Hb. unfold pmm_count, MEMTEST_PMM_MAX_FRAMES. destruct (Z.leb_spec before (256 + 32)); dm_lia. Qed.

(** The frame phase passes: with 32 free frames no check fails, and the allocator ends
    with as many free frames as it had. *)
Theorem pmm_roundtrip_passes n (s : st) :
  resting A0 n s -> length (g_pmm_frames s) = 256%nat -> 32 <= mt_frames (mheap s) ->
  wp (pmm_roundtrip_test clock depth yield (Some hhdm) s)
     (fun _ s' => resting A0 (n - 256) s' /\ length (g_pmm_frames s') = 256%nat /\ mt_frames (mheap s') = mt_frames (mheap s)).
Proof.
  intros ((m & Hm & Hr) & Hl & Hsl) Hlen Hfree. unfold pmm_roundtrip_test. apply wp_bind, (wp_tsay clock depth Hdepth); [by repeat constructor|done|done|]. intros w Hw.
  set (s0 := set_mcon w s). destruct (fl_begin _ _ _ Hr) as [Hown0 Hfr]. set (t := mt_frames (mheap s)) in *.
  assert (H0 : holds n t 0 s0) by (split; [by exists m|done|by rewrite take_0|by rewrite take_0|done|done]).
  eapply wp_same; [by eapply count_held|]. rewrite take_0. cbn [length Z.of_nat]. rewrite Z.sub_0_r. cbv zeta. fold (pmm_count t). destruct (pmm_count_range t Hfree) as [Hc Hct].
  set (cnt := pmm_count t) in *. clearbody cnt. rewrite (proj2 (Z.ltb_ge cnt 8)) by lia. apply wp_bind.
  eapply wp_mono; [apply (wp_for_range (fun j s' => holds (n - j) t (Z.to_nat j) s' /\ written (Z.to_nat j) s')); [lia| |]|].
  { rewrite Z.sub_0_r. split; [done|]. split; [rewrite take_0; constructor|lia]. }
  { intros j s1 Hj [H1 W1]. rewrite <- (Z2Nat.id j) at 1 by lia. replace (Z.to_nat (j + 1)) with (Datatypes.S (Z.to_nat j)) by lia. replace (n - (j + 1)) with (n - j - 1) by ring.
    apply pmm_take_ok; [done|done|lia|lia]. }
  intros [] s1 [H1 W1]. eapply wp_same; [by eapply count_held|]. rewrite length_take, (f_len _ _ _ _ H1). apply wp_bind.
  rewrite wrap_small by lia. rewrite (proj2 (Z.eqb_eq _ t)) by lia. cbn [negb when]. apply wp_ret. rewrite (bind_Ret _ _ _ tt s1).
  2:{ match goal with |- ?o = _ => enough (Hx : wp o (fun _ s' => s' = s1)) by (by apply wp_ret_inv in Hx as ([] & s' & -> & ->)) end.
      unfold for_range. apply (wp_for_steps (fun _ s' => s' = s1)); [done|]. intros j s' (k & Hk & ->) ->. replace (0 + Z.of_nat k * 1) with (Z.of_nat k) by lia.
      rewrite (pmm_check_ok _ _ _ _ _ H1 W1) by lia. done. }
  apply wp_bind. eapply wp_mono; [apply (wp_for_steps (fun j s' => holds (n - cnt) t (Z.to_nat j) s')); [exact H1|]|].
  { intros j s2 (k & Hk & ->) H2. replace (cnt + Z.of_nat k * -1) with (Z.of_nat (Datatypes.S (Z.to_nat (cnt - Z.of_nat k - 1)))) in * by lia. rewrite Nat2Z.id in H2.
    replace (Z.to_nat (_ + -1)) with (Z.to_nat (cnt - Z.of_nat k - 1)) by lia. apply pmm_give_ok; [done|lia]. }
  replace (Z.to_nat (cnt + Z.of_nat (Z.to_nat cnt) * -1)) with 0%nat by lia. intros [] s2 H2. eapply wp_same; [by eapply count_held|]. rewrite take_0. cbn [length Z.of_nat].
  rewrite Z.sub_0_r, Z.eqb_refl. apply wp_ret. destruct H2 as [(m2 & Hm2 & Hr2) Hlen2 Hown2 _ Hl2 Hsl2]. split; [split; [exists m2; split; [lia|done]|done]|]. split; [done|].
  rewrite (fl_count _ _ _ _ _ Hr2 Hown2), take_0. cbn. lia.
Qed.
End frames.
End MemtestFrames.
