(* ===== verification/MemtestKernel.v ===== *)
(** The qualification suite on the kernel's own memory management: [kmalloc] over the
    paging layer over the frame allocator satisfies the laws the suite's phases are
    verified against. *)
From S2P Require Import Prelude Lock CString Printf PrintfSpec Putchar PrintTotal NeoFrame NeoFrameInit PageTree Paging Kmalloc HeapShape KmallocInv KmallocSpec HeapPaging KHeap HeapBytes InterruptsSpec Memtest MemtestSpec MemtestFrames.

Module MemtestKernel.
Import NeoFrame NeoFrameInit PageTree Paging HeapShape KmallocInv KmallocSpec HeapPaging MemtestSpec MemtestFrames.

Local Abbreviation kst := (kheap kmm).
Definition frames_of_heap (h : kst) : pmm := psrc (km_pg (kback h)).
Definition set_heap_frames (p : pmm) (h : kst) : kst := set_kback (set_frames p (kback h)) h.
Definition in_frames {A} : K pmm A -> K kst A := zoom frames_of_heap set_heap_frames.

#[export] Instance kernel_machine : MemtestMachine kst := {|
  mm_usable_size := kmalloc_usable_size;
  mm_frame_alloc := in_frames frame_alloc;
  mm_frame_free p := in_frames (n_frame_free p);
  mm_free_count := in_frames frame_free_count;
|}.

Lemma set_heap_frames_same (h : kst) : set_heap_frames (frames_of_heap h) h = h.
Proof. by destruct h as [? ? ? ? [[? ?] ?]]. Qed.

(** The usable size of a live pointer is the size of its payload. *)
Lemma usable_size_rep (h : kst) A p ws : heap_rep h A -> A !! p = Some ws -> kmalloc_usable_size p h = Ret (8 * Z.of_nat (length ws)) h.
Proof.
  intros (bl & fl & Hi & _ & _ & Hv) (sz & Hb & ->)%Hv. destruct (block_in _ _ _ _ Hi Hb) as (? & ? & Hok & _ & ?). destruct (load_tag _ _ _ _ Hi Hb) as [El _].
  unfold b_end in *. cbn [b_addr b_size] in *. pose proof (payload_size sz Hok) as [? ?]. pose proof (hi_curr _ _ _ Hi). unfold HEAP_LIMIT, HEAP_BASE in *.
  unfold kmalloc_usable_size. rewrite (proj2 (Z.eqb_neq p 0)) by lia. change HDR_SIZE with 32. rewrite (bind_Ret _ _ _ _ _ El). unfold USABLE.
  destruct Hok as [? ?]. rewrite (enc_size (Blk (p - 32) sz Used)) by (split_and?; cbn; lia || done). cbn [b_size]. change OVERHEAD with 40. rewrite wrap_small by lia.
  unfold words. rewrite length_fmap, length_seqZ, Z2Nat.id by lia. unfold ret. f_equal. lia.
Qed.

#[export] Program Instance kernel_memtest_laws : MemtestLaws kst := {| mt_frames h := g_free_count (frames_of_heap h) |}.
Next Obligation. intros h n A p ws (Hr & _) Hp. by eapply usable_size_rep. Qed.
Next Obligation. intros h n A p ws q us (Hr & _) Hp Hq Hne. destruct (rep_layout h A p ws Hr Hp) as (_ & _ & _ & Hd). by apply Hd. Qed.
Next Obligation.
  intros h n A p ws (Hr & Hn & Hc & Hw) Hp. destruct (kfree_rep h A p ws Hr Hp) as (h' & E & Hr' & _ & Hb & Hcur).
  destruct (rep_layout h A p ws Hr Hp) as (_ & Hpos & _). exists h'. split.
  - cbn. unfold krealloc. unfold HEAP_BASE in Hpos. rewrite (proj2 (Z.eqb_neq p 0)) by lia. cbn. by rewrite (bind_Ret _ _ _ _ _ E).
  - split_and!; [done|by rewrite Hb|by rewrite Hcur|done].
Qed.
Next Obligation. intros h n A _. cbn. unfold in_frames, zoom. cbn. by rewrite set_heap_frames_same. Qed.
Next Obligation.
  intros h n A p ws h' (Hr & _) Hp E. destruct (kfree_rep h A p ws Hr Hp) as (h2 & E2 & _ & _ & Hb & _). cbn in E. rewrite E2 in E. injection E as <-. unfold frames_of_heap. by rewrite Hb.
Qed.
(** ** Frames outside the heap *)

(** Fewer free frames do not disturb the mappings. *)
Lemma kmm_inv_frames k p : kmm_inv k -> pmm_ok p -> (forall f, frame_free_at p f -> frame_free_at (psrc (km_pg k)) f) -> kmm_inv (set_frames p k).
Proof.
  intros [(own & [Ht Hsrc Hsep] & Hlw & Hleaf) Hinj] Hp Hsub. split; [|exact Hinj]. exists own. split; [|split; [exact Hlw|]].
  - split; [exact Ht|exact Hp|]. intros q Hq Ha. apply (Hsep q Hq). by apply Hsub.
  - intros va d e Hva Hl. destruct (Hleaf va d e Hva Hl) as (? & f & ? & ? & ? & Hn). split; [done|]. exists f. split_and!; try done; try lia.
    intros Ha. by apply Hn, Hsub.
Qed.

Lemma budget_frames (h : kst) n n' A p :
  budget_rep h n A -> kmm_inv (set_frames p (kback h)) -> n' <= n -> n' <= g_free_count p / 4 -> budget_rep (set_heap_frames p h) n' A.
Proof.
  intros ((bl & fl & [Hs Hc Hpg Hacc _] & Hset & Hl & Hv) & Hn & Hlim & Hw) Hk Hle Hp. split; [|split; [exact Hp|split; [cbn; lia|done]]].
  exists bl, fl. split; [|done]. split; [exact Hs|exact Hc|exact Hpg|exact Hacc|exact Hk].
Qed.

Lemma kmm_pmm_ok k : kmm_inv k -> pmm_ok (psrc (km_pg k)).
Proof. intros [(own & Hp & _) _]. exact (pi_src _ _ _ Hp). Qed.

(** What the suite holds: frames that were free before, so neither page tables nor
    pages of the heap. *)
Definition kernel_held (h : kst) (t : Z) (own : list Z) : Prop :=
  client_inv t (frames_of_heap h, own) /\
  exists p0, kmm_inv (set_frames p0 (kback h)) /\ forall f, f ∈ own \/ frame_free_at (frames_of_heap h) f -> frame_free_at p0 f.

Lemma budget_kmm (h : kst) n A : budget_rep h n A -> kmm_inv (kback h).
Proof. intros ((bl & fl & Hi & _) & _). exact (hi_back _ _ _ Hi). Qed.

Lemma kernel_take (h : kst) n A t own :
  budget_rep h n A -> kernel_held h t own -> Z.of_nat (length own) < t ->
  exists p h', in_frames frame_alloc h = Ret p h' /\ budget_rep h' (n - 1) A /\ kernel_held h' t (p :: own) /\ p ∉ own /\ p mod 4096 = 0 /\ 0 <= p < 2 ^ 46.
Proof.
  intros Hb (Hci & p0 & Hk0 & Hsub0) Hlt. pose proof (budget_kmm _ _ _ Hb) as Hk. pose proof (kmm_pmm_ok _ Hk) as Hok. change (pmm_ok (frames_of_heap h)) in Hok.
  pose proof Hci as (_ & _ & _ & Ht). cbn [fst snd] in Ht. pose proof (frame_alloc_law _ Hok ltac:(lia)) as Hw.
  apply wp_ret_inv in Hw as (f & q & E & Hok' & Hf & _ & Hsub & Hcnt & Hrg & Hal).
  pose proof (client_alloc_inv _ _ _ _ _ Hci E) as Hci'. exists f, (set_heap_frames q h). split; [unfold in_frames, zoom; by rewrite E|].
  assert (Hn : n <= g_free_count (frames_of_heap h) / 4) by apply Hb.
  split; [apply (budget_frames h n); [done|by apply kmm_inv_frames|lia|dm_lia]|]. split; [|split; [|split; [done|lia]]].
  - split; [exact Hci'|]. exists p0. split; [exact Hk0|]. intros g [Hg|Hg]; [|apply Hsub0; right; by apply Hsub]. apply Hsub0.
    apply elem_of_cons in Hg as [->|Hg]; [right; exact Hf|by left].
  - destruct Hci' as (_ & Hnd & _). cbn [fst snd] in Hnd. by apply NoDup_cons in Hnd as [? _].
Qed.

Lemma kernel_give (h : kst) n A t p own :
  budget_rep h n A -> kernel_held h t (p :: own) -> exists h', in_frames (n_frame_free p) h = Ret tt h' /\ budget_rep h' n A /\ kernel_held h' t own.
Proof.
  intros Hb (Hci & p0 & Hk0 & Hsub0). pose proof Hci as (Hwf & _ & Hret & _). cbn [fst snd] in *. specialize (Hret p (list_elem_of_here _ _)).
  destruct (n_frame_free_returns _ _ Hwf Hret) as (q & E & Hrel). pose proof (client_free_inv t (frames_of_heap h) [] p own q Hci E) as Hci'. cbn [app] in Hci'.
  destruct (returnable_bit _ _ Hwf Hret) as [Hi _]. pose proof (released_free_frames _ _ _ Hi Hrel) as Hff. assert (Hpp : p / 4096 * 4096 = p) by (destruct Hret as (? & _); dm_lia).
  assert (Hsub : forall f, frame_free_at q f -> frame_free_at p0 f).
  { intros f Hf. apply Hsub0. rewrite <- elem_of_free_frames, Hff, Hpp in Hf. apply elem_of_union in Hf as [->%elem_of_singleton|Hf]; [left; apply list_elem_of_here|].
    right. by apply elem_of_free_frames. }
  pose proof (kmm_pmm_ok _ Hk0) as (_ & Hz & Hcnt0). pose proof (budget_kmm _ _ _ Hb) as Hk. pose proof (kmm_pmm_ok _ Hk) as (_ & _ & Hcnt).
  assert (Hok : pmm_ok q).
  { split; [apply Hci'|]. split; [intros H0; apply Hz, Hsub, H0|]. destruct Hrel as (bm & _ & _ & ->). exact Hcnt. }
  exists (set_heap_frames q h). split; [unfold in_frames, zoom; by rewrite E|].
  assert (Hn : n <= g_free_count (frames_of_heap h) / 4) by apply Hb. assert (Hq : g_free_count q = g_free_count (frames_of_heap h) + 1) by (by destruct Hrel as (bm & _ & _ & ->)).
  split; [apply (budget_frames h n); [done|exact (kmm_inv_frames _ q Hk0 Hok Hsub)|lia|dm_lia]|]. split; [exact Hci'|].
  exists p0. split; [exact Hk0|]. intros f [Hf|Hf]; [apply Hsub0; left; by apply list_elem_of_further|by apply Hsub].
Qed.

#[export] Program Instance kernel_frame_laws : FrameLaws kst := {| fl_held := kernel_held |}.
Next Obligation.
  intros h n A Hb. pose proof (budget_kmm _ _ _ Hb) as Hk. pose proof (kmm_pmm_ok _ Hk) as (Hwf & _ & Hc). change (pmm_wf (frames_of_heap h)) in Hwf.
  pose proof (core_free_bounds _ (wf_core _ Hwf)) as Hfb. pose proof (core_count _ (wf_core _ Hwf)). cbn. split; [|lia]. split.
  - split_and!; [done|constructor|intros p Hp; by apply elem_of_nil in Hp|cbn; lia].
  - exists (frames_of_heap h). split; [by destruct h as [? ? ? ? [[? ?] ?]]|]. intros f [Hf|Hf]; [by apply elem_of_nil in Hf|done].
Qed.
Next Obligation. apply kernel_take. Qed.
Next Obligation. apply kernel_give. Qed.
Next Obligation. intros h n A t own _ ((_ & _ & _ & Ht) & _). cbn in *. lia. Qed.
(** ** The suite on the kernel *)
Lemma small_cost size : 0 < size <= 2 ^ 16 -> kh_cost (H := kst) size <= 128.
Proof. intros Hs. change (kmalloc_cost size <= 128). unfold kmalloc_cost, pages_for. rewrite total_size_eq by lia. dm_lia. Qed.

Section kernel.
Variable clock : list effect -> Z.
Variable depth : nat.
Variable yield : K kst unit.
Variable hhdm : Z.

(** The phases of [memtest_run] up to the randomised one. *)
Definition directed_phases : K (mt kst) unit :=
  do! pmm_roundtrip_test clock depth yield (Some hhdm) in
  do! basic_heap_test clock depth in
  do! fragmentation_test clock depth yield in
  do! realloc_test clock depth in
  heap_growth_test clock depth yield.

(** C37. The memory qualification suite passes on the kernel's memory management:
    with room for 36992 more pages (256 frames and 287 requests that each may grow
    the heap by 128 pages), none of the checks of phases 1 to 5 fails, [memtest_run]
    reaches its last phase, and the suite has given back all it took: the payloads
    live are those of the other tasks, [A], with the contents they had. *)
Theorem qualification_passes (A : gmap Z (list Z)) n (s : mt kst) :
  (0 < depth)%nat -> 0 <= hhdm <= 2 ^ 64 - 2 ^ 46 ->
  (forall h n A t own, kh_rep h n A -> fl_held h t own -> exists h', yield h = Ret tt h' /\ kh_rep h' n A /\ fl_held h' t own) ->
  resting A n s -> length (g_pmm_frames s) = 256%nat -> 36992 <= n ->
  wp (directed_phases s) (fun _ s' => idle A (n - 36992) s').
Proof.
  intros Hd Hh Hy Hs Hlen Hn.
  assert (Hy' : forall h n A, kh_rep h n A -> exists h', yield h = Ret tt h' /\ kh_rep h' n A).
  { intros h m B Hr. destruct (fl_begin _ _ _ Hr) as [Hf _]. destruct (Hy h m B _ _ Hr Hf) as (h' & E & Hr' & _). by exists h'. }
  assert (Hfree : 32 <= mt_frames (mheap s)).
  { destruct Hs as ((m & Hm & (_ & Hroom & _)) & _). change (m <= mt_frames (mheap s) / 4) in Hroom. dm_lia. }
  unfold directed_phases. apply wp_bind. eapply wp_mono; [by apply (pmm_roundtrip_passes clock depth Hd yield A Hy hhdm Hh n)|]. intros [] s1 (H1 & _ & _).
  apply wp_bind. eapply wp_mono; [apply (basic_heap_passes clock depth Hd A 128 small_cost _ s1 H1); lia|]. intros [] s2 H2%idle_resting.
  apply wp_bind. eapply wp_mono; [apply (fragmentation_passes clock depth Hd yield Hy' A 128 small_cost _ s2 H2); lia|]. intros [] s3 H3%idle_resting.
  apply wp_bind. eapply wp_mono; [apply (realloc_passes clock depth Hd A 128 small_cost _ s3 H3); lia|]. intros [] s4 H4%idle_resting.
  eapply wp_mono; [apply (heap_growth_passes clock depth Hd yield Hy' A 128 small_cost _ s4 H4); lia|]. intros [] s5 H5.
  by replace (n - 36992) with (n - 256 - 20 * 128 - 192 * 128 - 11 * 128 - 64 * 128) by ring.
Qed.
End kernel.
(** ** A machine on which only frame 0 is taken, right after [kmalloc_init] *)
Definition bare_frames (k : nat) : pmm :=
  let n := 8 * (Z.of_nat k + 1) in Pmm 0 0 (1 :: replicate k 0) (255 :: replicate k 255) n (4096 * n) (n - 1) 1 0.

Lemma first_bit k i : 0 <= i -> bit (1 :: replicate k 0) i = (i =? 0).
Proof.
  intros Hi. unfold bit. destruct (decide (i < 8)) as [Hlt|Hge].
  - rewrite Z.div_small, Z.mod_small by lia. assert (i = 0 \/ i = 1 \/ i = 2 \/ i = 3 \/ i = 4 \/ i = 5 \/ i = 6 \/ i = 7) by lia. by destruct_or!; subst.
  - replace (Z.to_nat (i / 8)) with (Datatypes.S (Z.to_nat ((i - 8) / 8))) by dm_lia.
    cbn [lookup list_lookup]. destruct (replicate k 0 !! Z.to_nat ((i - 8) / 8)) as [b|] eqn:E; cbn [default].
    + apply lookup_replicate in E as [-> _]. rewrite Z.testbit_0_l. symmetry. apply Z.eqb_neq. lia.
    + rewrite Z.testbit_0_l. symmetry. apply Z.eqb_neq. lia.
Qed.

Lemma nclear_first bm n : (forall i, 0 <= i -> bit bm i = (i =? 0)) -> nclear bm (Datatypes.S n) = Z.of_nat n.
Proof. intros Hb. induction n as [|n IH]; [cbn [nclear]; by rewrite Hb|]. cbn [nclear] in *. rewrite IH, Hb by lia. rewrite (proj2 (Z.eqb_neq _ _)) by lia. lia. Qed.

Lemma bare_frames_ok k : Z.of_nat k < 2 ^ 30 -> pmm_ok (bare_frames k).
Proof.
  intros Hk. split; [|split].
  - split; [|cbn; lia|done]. split; cbn [g_frame_count g_max_phys g_alloc_bm g_usable_bm g_free_count bare_frames].
    + lia.
    + dm_lia.
    + lia.
    + cbn [length]. rewrite length_replicate. lia.
    + cbn [length]. rewrite length_replicate. lia.
    + intros i Hi _. change (255 :: replicate k 255) with (replicate (Datatypes.S k) 255). apply bit_replicate_ones. lia.
    + replace (Z.to_nat (8 * (Z.of_nat k + 1))) with (Datatypes.S (Z.to_nat (8 * (Z.of_nat k + 1) - 1))) by lia. rewrite nclear_first by (by apply first_bit). lia.
  - intros (_ & _ & Hb). cbn [g_alloc_bm bare_frames] in Hb. change (0 / 4096) with 0 in Hb. by rewrite first_bit in Hb.
  - cbn. lia.
Qed.

Definition gig : nat := Z.to_nat 32767.
Definition gig_kmm : kmm := KMM (PGS ∅ (bare_frames gig)) 0x40000000.

Lemma gig_lookup va : km_lookup gig_kmm va = None.
Proof. unfold km_lookup, lookup_va, gig_kmm, path_of. cbn -[gig]. unfold rd. by rewrite lookup_empty. Qed.

Lemma gig_inv : kmm_inv gig_kmm.
Proof.
  split.
  - exists {[0x40000000 := []]}. split.
    + split; [|apply bare_frames_ok; unfold gig; lia|].
      * apply tree_root; [intros i _; unfold rd; cbn -[gig]; by rewrite lookup_empty|reflexivity|cbn; lia].
      * intros p [ks [<- _]%lookup_singleton_Some] (_ & Hb & _). cbn [g_frame_count psrc km_pg gig_kmm bare_frames] in Hb. unfold gig in Hb. lia.
    + split; [apply writable_links_root; intros i _; unfold rd; cbn -[gig]; by rewrite lookup_empty|].
      intros va d e _. by rewrite gig_lookup.
  - intros va va' f _ _ _ _. by rewrite gig_lookup.
Qed.

Definition gig_boot : kst := KHeap 0 0 0 ∅ gig_kmm.
Definition gig_heap : kst := match kmalloc_init gig_boot with Ret _ s | Panic _ s | Fault _ s | Hang s => s end.

Lemma gig_budget : budget_rep gig_heap 40000 ∅.
Proof.
  assert (Hroom : hb_room (kback gig_boot) = 65535).
  { change (hb_room (kback gig_boot)) with ((8 * (Z.of_nat gig + 1) - 1) / 4). unfold gig. rewrite Z2Nat.id by lia. reflexivity. }
  destruct (kmalloc_init_rep (HL := kmm_laws) gig_boot gig_inv ltac:(rewrite Hroom; lia) (fun va H => H) eq_refl) as (s' & E & Hr & Hc & _ & Hrm).
  unfold gig_heap. rewrite E. split; [done|]. split; [lia|]. split; [rewrite Hc; unfold HEAP_LIMIT; lia|done].
Qed.

Definition gig_suite : mt kst := Mt gig_heap InterruptsSpec.con0 (replicate 128 no_slot) (replicate 256 0) ∅ 0 no_stats.

Lemma qualification_passes_witness :
  wp (directed_phases (fun _ => 0) 1 (ret tt) 0xFFFF800000000000 gig_suite) (fun _ s' => idle ∅ 3008 s').
Proof.
  apply (qualification_passes (fun _ => 0) 1 (ret tt) 0xFFFF800000000000 ∅ 40000 gig_suite).
  - lia.
  - lia.
  - intros h n A t own Hr Hf. exists h. by split.
  - split; [exists 40000; split; [lia|exact gig_budget]|]. split; [exact InterruptsSpec.con0_live|reflexivity].
  - reflexivity.
  - lia.
Defined.
End MemtestKernel.
