(* ===== verification/Acpi.v ===== *)
(** ACPI table discovery: [src/src/acpi/acpi.c] and [src/src/acpi/madt.c].

    [fw] is the firmware's memory as the kernel reads it through the direct map,
    byte by byte; a read outside it faults.  The vectors of MADT records are those
    of [Vector] and live in the kernel heap; they hold the addresses of the records
    in the table.  [lit] is where the compiler put a string literal (a message
    prints it as a number), [rounds] bounds the rounds of the loop over the MADT. *)
From Stdlib Require Import Ascii.
From S2P Require Import Prelude CString Printf Putchar PageTree Paging KHeap Vector.

(** Layout of [struct rsdp], [struct sdt] and [struct madt]. *)
Definition off_rsdp_revision : Z := 15.
Definition off_rsdp_rsdt_addr : Z := 16.
Definition off_rsdp_xsdt_addr : Z := 24.
Definition off_sdt_length : Z := 4.
Definition sizeof_sdt : Z := 36.
Definition sizeof_madt : Z := 44.

(** What the boot loader and [cpuid] said. *)
Record acpi_env : Type := AcpiEnv {
  rsdp_response : option Z;     (* rsdp_req.response->address *)
  has_ACPI : bool;
}.

Section acpi.
Context {H : Type} `{KernelHeap H}.

Record acpi : Type := Acpi {
  aheap : H;
  acon : con;
  rsdp : Z;
  rsdt : Z;
  madt_lapics : vec;
  madt_io_apics : vec;
  madt_isos : vec;
  madt_nmis : vec;
}.
Definition set_aheap (h : H) (s : acpi) : acpi := Acpi h (acon s) (rsdp s) (rsdt s) (madt_lapics s) (madt_io_apics s) (madt_isos s) (madt_nmis s).
Definition set_acon (c : con) (s : acpi) : acpi := Acpi (aheap s) c (rsdp s) (rsdt s) (madt_lapics s) (madt_io_apics s) (madt_isos s) (madt_nmis s).
Definition set_rsdp (v : Z) (s : acpi) : acpi := Acpi (aheap s) (acon s) v (rsdt s) (madt_lapics s) (madt_io_apics s) (madt_isos s) (madt_nmis s).
Definition set_rsdt (v : Z) (s : acpi) : acpi := Acpi (aheap s) (acon s) (rsdp s) v (madt_lapics s) (madt_io_apics s) (madt_isos s) (madt_nmis s).
Definition set_lapics (v : vec) (s : acpi) : acpi := Acpi (aheap s) (acon s) (rsdp s) (rsdt s) v (madt_io_apics s) (madt_isos s) (madt_nmis s).
Definition set_io_apics (v : vec) (s : acpi) : acpi := Acpi (aheap s) (acon s) (rsdp s) (rsdt s) (madt_lapics s) v (madt_isos s) (madt_nmis s).
Definition set_isos (v : vec) (s : acpi) : acpi := Acpi (aheap s) (acon s) (rsdp s) (rsdt s) (madt_lapics s) (madt_io_apics s) v (madt_nmis s).
Definition set_nmis (v : vec) (s : acpi) : acpi := Acpi (aheap s) (acon s) (rsdp s) (rsdt s) (madt_lapics s) (madt_io_apics s) (madt_isos s) v.

Variable clock : list effect -> Z.
Variable depth : nat.
Variable fw : Z -> option Z.
Variable lit : string -> Z.
Variable rounds : nat.

Definition asay (format : list Z) (va : list va_arg) : K acpi unit := zoom acon set_acon (printf_console (_putchar clock depth) format va).

(** ** Reads of firmware memory *)
Definition fw8 (a : Z) : K acpi Z := match fw a with Some b => ret (u8 b) | None => fault a end.
Definition fw16 (a : Z) : K acpi Z := let! lo := fw8 a in let! hi := fw8 (a + 1) in ret (lo + 2 ^ 8 * hi).
Definition fw32 (a : Z) : K acpi Z := let! lo := fw16 a in let! hi := fw16 (a + 2) in ret (lo + 2 ^ 16 * hi).
Definition fw64 (a : Z) : K acpi Z := let! lo := fw32 a in let! hi := fw32 (a + 4) in ret (lo + 2 ^ 32 * hi).

(** ** [acpi.c] *)
Definition use_xsdt : K acpi bool :=
  let! s := get in
  let! revision := fw8 (rsdp s + off_rsdp_revision) in
  if revision >=? 2 then let! x := fw64 (rsdp s + off_rsdp_xsdt_addr) in ret (negb (x =? 0)) else ret false.

(** [memcmp(sdt->signature, signature, 4) != 0] *)
Fixpoint signature_differs (a : Z) (sig : list Z) : K acpi bool :=
  match sig with
  | [] => ret false
  | c :: sig => let! b := fw8 a in if negb (b =? c) then ret true else signature_differs (a + 1) sig
  end.

(** Entry [i] of the root table. *)
Definition sdt_entry (i : Z) : K acpi Z :=
  let! x := use_xsdt in
  let! s := get in
  let! v := (if x then fw64 (rsdt s + sizeof_sdt + 8 * i) else fw32 (rsdt s + sizeof_sdt + 4 * i)) in
  ret (u64 (v + Paging.HIGHER_HALF_MEMORY_OFFSET)).

Fixpoint find_sdt_loop (signature : string) (n : nat) (i index : Z) : K acpi Z :=
  match n with
  | O =>
      do! asay (chars "acpi: Could not find '%S'" ++ [10; 0]) [Word (lit signature); Word 4] in
      ret 0
  | S n =>
      let! sdt := sdt_entry i in
      let! differs := signature_differs sdt (chars signature) in
      if differs then find_sdt_loop signature n (i + 1) index
      else if index >? 0 then find_sdt_loop signature n (i + 1) (index - 1)
      else
        let! length := fw32 (sdt + off_sdt_length) in
        do! asay (chars "acpi: Found '%S' at 0x%llx, length=%lu" ++ [10; 0]) [Word (lit signature); Word 4; Word sdt; Word length] in
        ret sdt
  end.

Definition acpi_find_sdt (signature : string) (index : Z) : K acpi Z :=
  let! s := get in
  let! length := fw32 (rsdt s + off_sdt_length) in
  let! x := use_xsdt in
  let entry_count := u64 (length - sizeof_sdt) / (if x then 8 else 4) in
  find_sdt_loop signature (Z.to_nat entry_count) 0 index.

(** ** [madt.c] *)
Definition found_record (format : string) (vget : acpi -> vec) (vset : vec -> acpi -> acpi) (header : Z) : K acpi unit :=
  let! s := get in
  do! asay (chars format ++ [10; 0]) [Word (v_length (vget s))] in
  let! _ := VECTOR_PUSH_BACK vget vset aheap set_aheap header in ret tt.

Definition madt_entry (header : Z) : K acpi Z :=
  let! id := fw8 header in
  do! (if id =? 0 then found_record "madt: Found local APIC #%lu" madt_lapics set_lapics header
       else if id =? 1 then found_record "madt: Found IO APIC #%lu" madt_io_apics set_io_apics header
       else if id =? 2 then found_record "madt: Found ISO #%lu" madt_isos set_isos header
       else if id =? 4 then found_record "madt: Found NMI #%lu" madt_nmis set_nmis header
       else ret tt) in
  let! length := fw8 (header + 1) in
  ret (Z.max length 2).

(** [for (;;)], from [offset]. *)
Fixpoint madt_loop (fuel : nat) (madt offset : Z) : K acpi unit :=
  let! length := fw32 (madt + off_sdt_length) in
  if u64 (length - sizeof_madt - offset) <? 2 then ret tt else
  match fuel with
  | O => fun s => Hang s
  | S fuel =>
      let! step := madt_entry (madt + sizeof_madt + offset) in
      madt_loop fuel madt (u64 (offset + step))
  end.

Definition madt_init : K acpi unit :=
  let! madt := acpi_find_sdt "APIC" 0 in
  if madt =? 0 then panic "System Does Not Have an MADT!" else madt_loop rounds madt 0.

Definition acpi_init (env : acpi_env) : K acpi unit :=
  match rsdp_response env with
  | None => panic "ACPI Not Supported by This Machine!"
  | Some address =>
      if address =? 0 then panic "ACPI Not Supported by This Machine!" else
      if negb (has_ACPI env) then panic "ACPI Not Supported by This Machine!" else
      do! modify (set_rsdp address) in
      let! x := use_xsdt in
      let! a := (if x then fw64 (address + off_rsdp_xsdt_addr) else fw32 (address + off_rsdp_rsdt_addr)) in
      do! modify (set_rsdt (u64 (a + Paging.HIGHER_HALF_MEMORY_OFFSET))) in
      let! revision := fw8 (address + off_rsdp_revision) in
      do! asay (chars "acpi: Revision: %lu" ++ [10; 0]) [Word revision] in
      let! x := use_xsdt in
      do! asay (chars "acpi: Uses XSDT? %s" ++ [10; 0]) [Str (cstr (if x then "true" else "false"))] in
      let! s := get in
      do! asay (chars "acpi: RSDT at 0x%llx" ++ [10; 0]) [Word (rsdt s)] in
      let! fadt := acpi_find_sdt "FACP" 0 in
      let! reduced :=
        (if fadt =? 0 then ret false else
         let! length := fw32 (fadt + off_sdt_length) in
         if length >=? 116 then let! flags := fw32 (fadt + 4 * 28) in ret (is_set flags (Z.shiftl 1 20)) else ret false) in
      if reduced then panic "VoyagerOS64 Does Not Support HW Reduced ACPI" else madt_init
  end.
End acpi.
Arguments acpi H : clear implicits.
