(* ===== verification/AcpiSpec.v ===== *)
(** ACPI discovery against an abstract root table and an abstract MADT. *)
From Stdlib Require Import Ascii.
From S2P Require Import Prelude CString Printf PrintfSpec Putchar PrintTotal PageTree Paging Kmalloc KmallocInv KmallocSpec KHeap InterruptsSpec Vector Acpi.

Module AcpiSpec.
Import PrintfSpec PrintTotal VectorSpec KmallocSpec TableBacking.

(** The little-endian number in [n] bytes of firmware memory. *)
Fixpoint fw_le (fw : Z -> option Z) (n : nat) (a : Z) : option Z :=
  match n with
  | O => Some 0
  | S n => match fw a, fw_le fw n (a + 1) with Some b, Some v => Some (u8 b + 2 ^ 8 * v) | _, _ => None end
  end.

Definition table_va (e : Z) : Z := u64 (e + Paging.HIGHER_HALF_MEMORY_OFFSET).

Section acpi.
Context {H : Type} `{HH : KernelHeap H} {HL : KernelHeapLaws H}.
Variable fw : Z -> option Z.
Local Abbreviation st := (acpi H).
Local Abbreviation le := (fw_le fw).

(** ** Reads *)
Lemma fw_le_nonneg (n : nat) a v : le n a = Some v -> 0 <= v.
Proof.
  revert a v. induction n as [|n IH]; intros a v; cbn [fw_le]; [intros [= <-]; lia|].
  destruct (fw a) as [b|]; [|done]. destruct (le n (a + 1)) as [w|] eqn:E; [|done]. intros [= <-].
  specialize (IH _ _ E). pose proof (wrap_range 8 b ltac:(lia)). lia.
Qed.

Lemma fw_le_split (m n : nat) a v : le (m + n) a = Some v ->
  exists lo hi, le m a = Some lo /\ le n (a + Z.of_nat m) = Some hi /\ v = lo + 2 ^ (8 * Z.of_nat m) * hi.
Proof.
  revert a v. induction m as [|m IH]; intros a v; cbn [Nat.add fw_le].
  - intros E. exists 0, v. rewrite Z.add_0_r. split_and!; [done|done|]. cbn. lia.
  - destruct (fw a) as [b|]; [|done]. destruct (le (m + n) (a + 1)) as [w|] eqn:E; [|done]. intros [= <-].
    destruct (IH _ _ E) as (lo & hi & -> & Hhi & ->). exists (u8 b + 2 ^ 8 * lo), hi. split; [done|].
    split; [rewrite <- Hhi; f_equal; lia|]. replace (8 * Z.of_nat (S m)) with (8 + 8 * Z.of_nat m) by lia. rewrite Z.pow_add_r by lia. lia.
Qed.

Lemma fw8_eq a v (s : st) : le 1 a = Some v -> fw8 fw a s = Ret v s.
Proof. cbn [fw_le]. unfold fw8. destruct (fw a) as [b|]; [|done]. intros [= <-]. unfold ret. f_equal. lia. Qed.
Lemma fw16_eq a v (s : st) : le 2 a = Some v -> fw16 fw a s = Ret v s.
Proof.
  intros (lo & hi & Hlo & Hhi & ->)%(fw_le_split 1 1). unfold fw16. by rewrite (bind_Ret _ _ _ _ _ (fw8_eq _ _ s Hlo)), (bind_Ret _ _ _ _ _ (fw8_eq _ _ s Hhi)).
Qed.
Lemma fw32_eq a v (s : st) : le 4 a = Some v -> fw32 fw a s = Ret v s.
Proof.
  intros (lo & hi & Hlo & Hhi & ->)%(fw_le_split 2 2). unfold fw32. by rewrite (bind_Ret _ _ _ _ _ (fw16_eq _ _ s Hlo)), (bind_Ret _ _ _ _ _ (fw16_eq _ _ s Hhi)).
Qed.
Lemma fw64_eq a v (s : st) : le 8 a = Some v -> fw64 fw a s = Ret v s.
Proof.
  intros (lo & hi & Hlo & Hhi & ->)%(fw_le_split 4 4). unfold fw64. by rewrite (bind_Ret _ _ _ _ _ (fw32_eq _ _ s Hlo)), (bind_Ret _ _ _ _ _ (fw32_eq _ _ s Hhi)).
Qed.

(** ** The root table *)

(** The RSDP at [p] selects 8-byte entries ([x]) or 4-byte ones. *)
Definition selects (p : Z) (x : bool) : Prop :=
  exists rev, le 1 (p + off_rsdp_revision) = Some rev /\
    (if rev >=? 2 then exists a, le 8 (p + off_rsdp_xsdt_addr) = Some a /\ x = negb (a =? 0) else x = false).

Definition entry_width (x : bool) : Z := if x then 8 else 4.

(** The table at [t] lists the physical addresses [es]; [sig e] are the four letters
    of the table at [e]. *)
Record root_table (x : bool) (t : Z) (es : list Z) (sig : Z -> list Z) : Prop := {
  rt_length : le 4 (t + off_sdt_length) = Some (sizeof_sdt + entry_width x * Z.of_nat (length es));
  rt_fits : entry_width x * Z.of_nat (length es) < 2 ^ 32;
  rt_entry i e : es !! i = Some e -> le (if x then 8 else 4) (t + sizeof_sdt + entry_width x * Z.of_nat i) = Some e;
  rt_sig e : e ∈ es -> length (sig e) = 4%nat /\ forall k c, sig e !! k = Some c -> le 1 (table_va e + Z.of_nat k) = Some c;
  rt_header e : e ∈ es -> is_Some (le 4 (table_va e + off_sdt_length));
}.

Lemma use_xsdt_eq x (s : st) : selects (rsdp s) x -> use_xsdt fw s = Ret x s.
Proof.
  intros (rev & Hrev & Hx). unfold use_xsdt. rewrite bind_get, (bind_Ret _ _ _ _ _ (fw8_eq _ _ s Hrev)). destruct (rev >=? 2); [|by subst].
  destruct Hx as (a & Ha & ->). by rewrite (bind_Ret _ _ _ _ _ (fw64_eq _ _ s Ha)).
Qed.

Lemma sdt_entry_eq x t es sig (s : st) i e :
  selects (rsdp s) x -> rsdt s = t -> root_table x t es sig -> es !! i = Some e -> sdt_entry fw (Z.of_nat i) s = Ret (table_va e) s.
Proof.
  intros Hx <- Ht Hi. unfold sdt_entry. rewrite (bind_Ret _ _ _ _ _ (use_xsdt_eq x s Hx)), bind_get. pose proof (rt_entry _ _ _ _ Ht _ _ Hi) as E.
  destruct x; [rewrite (bind_Ret _ _ _ _ _ (fw64_eq _ _ s E))|rewrite (bind_Ret _ _ _ _ _ (fw32_eq _ _ s E))]; done.
Qed.

(** Comparing signatures. *)
Lemma signature_eq a (l sig : list Z) (s : st) :
  length l = length sig -> (forall k c, l !! k = Some c -> le 1 (a + Z.of_nat k) = Some c) -> signature_differs fw a sig s = Ret (negb (bool_decide (l = sig))) s.
Proof.
  revert a sig. induction l as [|c l IH]; intros a [|d sig] Hl Hb; try done. injection Hl as Hl. cbn [signature_differs].
  pose proof (Hb 0%nat c eq_refl) as E0. rewrite Z.add_0_r in E0. rewrite (bind_Ret _ _ _ _ _ (fw8_eq _ _ s E0)). destruct (Z.eqb_spec c d) as [->|Hne]; cbn [negb].
  - rewrite (IH (a + 1) sig Hl); [|intros k y Hk; rewrite <- (Hb (S k) y Hk); f_equal; lia]. do 2 f_equal. apply bool_decide_ext. split; [by intros ->|by intros [= ->]].
  - rewrite bool_decide_false; [done|]. congruence.
Qed.

Variable clock : list effect -> Z.
Variable depth : nat.
Hypothesis Hdepth : (0 < depth)%nat.
Variable lit : string -> Z.

Lemma asay_live format va (s : st) :
  integral va -> plain format va = true -> live (acon s) -> exists k, asay clock depth format va s = Ret tt (set_acon k s) /\ live k.
Proof.
  intros Hi Hp Hs. destruct (print_live clock depth Hdepth format va _ Hi Hp Hs) as (k & E & Hk & _). exists k. split; [|done]. unfold asay, zoom. by rewrite E.
Qed.

Definition matching (sig : Z -> list Z) (signature : string) (es : list Z) : list Z := filter (fun e => sig e = chars signature) es.
Lemma find_loop_ok x es sig signature (s : st) :
  selects (rsdp s) x -> root_table x (rsdt s) es sig -> length (chars signature) = 4%nat -> live (acon s) ->
  forall n i index, (i + n = length es)%nat -> 0 <= index ->
  exists k, find_sdt_loop clock depth fw lit signature n (Z.of_nat i) index s
      = Ret (default 0 (table_va <$> (matching sig signature (drop i es) !! Z.to_nat index))) (set_acon k s) /\ live k.
Proof.
  intros Hx Ht Hsig Hl. induction n as [|n IH]; intros i index Hi Hidx; cbn [find_sdt_loop].
  - rewrite drop_ge by lia. destruct (asay_live (chars "acpi: Could not find '%S'" ++ [10; 0]) [Word (lit signature); Word 4] s) as (k & E & Hk); [by repeat constructor|done|done|].
    rewrite (bind_Ret _ _ _ _ _ E). by exists k.
  - destruct (lookup_lt_is_Some_2 es i) as [e He]; [lia|]. rewrite (bind_Ret _ _ _ _ _ (sdt_entry_eq _ _ _ _ s i e Hx eq_refl Ht He)).
    destruct (rt_sig _ _ _ _ Ht e) as [Hlen Hbytes]; [by eapply list_elem_of_lookup_2|].
    rewrite (bind_Ret _ _ _ _ _ (signature_eq _ (sig e) (chars signature) s ltac:(congruence) Hbytes)). rewrite (drop_S es e i He). unfold matching. rewrite list.filter_cons.
    replace (Z.of_nat i + 1) with (Z.of_nat (Datatypes.S i)) by lia. destruct (decide (sig e = chars signature)) as [Heq|Hne].
    2:{ rewrite bool_decide_false by done. cbn [negb]. apply IH; lia. }
    rewrite bool_decide_true by done. cbn [negb]. destruct (Z.gtb_spec index 0) as [Hpos|Hz].
    + replace (Z.to_nat index) with (Datatypes.S (Z.to_nat (index - 1))) by lia. cbn [lookup list_lookup]. apply IH; lia.
    + assert (index = 0) as -> by lia. destruct (rt_header _ _ _ _ Ht e) as [len Hlen4]; [by eapply list_elem_of_lookup_2|].
      rewrite (bind_Ret _ _ _ _ _ (fw32_eq _ _ s Hlen4)).
      destruct (asay_live (chars "acpi: Found '%S' at 0x%llx, length=%lu" ++ [10; 0]) [Word (lit signature); Word 4; Word (table_va e); Word len] s) as (k & E & Hk); [by repeat constructor|done|done|].
      rewrite (bind_Ret _ _ _ _ _ E). by exists k.
Qed.

(** The search, without its messages. *)
Lemma find_sdt_ok x es sig signature index (s : st) :
  selects (rsdp s) x -> root_table x (rsdt s) es sig -> length (chars signature) = 4%nat -> live (acon s) -> 0 <= index ->
  exists k, acpi_find_sdt clock depth fw lit signature index s
      = Ret (default 0 (table_va <$> (matching sig signature es !! Z.to_nat index))) (set_acon k s) /\ live k.
Proof.
  intros Hx Ht Hsig Hl Hidx. unfold acpi_find_sdt. rewrite bind_get, (bind_Ret _ _ _ _ _ (fw32_eq _ _ s (rt_length _ _ _ _ Ht))), (bind_Ret _ _ _ _ _ (use_xsdt_eq x s Hx)).
  cbv zeta. change (if x then 8 else 4) with (entry_width x). assert (Hw : 0 < entry_width x) by (by destruct x). pose proof (rt_fits _ _ _ _ Ht).
  rewrite wrap_small by nia. replace (sizeof_sdt + entry_width x * Z.of_nat (length es) - sizeof_sdt) with (Z.of_nat (length es) * entry_width x) by ring.
  rewrite Z.div_mul, Nat2Z.id by lia. destruct (find_loop_ok x es sig signature s Hx Ht Hsig Hl (length es) 0 index) as (k & E & Hk); [lia|done|]. exists k. by rewrite drop_0 in E.
Qed.
(** ** The MADT *)

(** A record: kind, length, the rest; a length below 2 counts as 2. *)
Definition record_ok (e : list Z) : Prop := exists id len rest, e = id :: len :: rest /\ Z.max len 2 = Z.of_nat (length e).
Definition record_kind (e : list Z) : Z := default 0 (head e).

(** The table at [madt] holds the records [es], and at most one stray byte. *)
Record madt_table (madt : Z) (es : list (list Z)) : Prop := {
  ma_length : exists pad, 0 <= pad <= 1 /\ le 4 (madt + off_sdt_length) = Some (sizeof_madt + Z.of_nat (length (concat es)) + pad);
  ma_bytes k b : concat es !! k = Some b -> le 1 (madt + sizeof_madt + Z.of_nat k) = Some b;
  ma_records : Forall record_ok es;
  ma_small : Z.of_nat (length (concat es)) < 2 ^ 16;
}.

(** The addresses of the records of kind [k], the first record being at [a]. *)
Fixpoint records (k a : Z) (es : list (list Z)) : list Z :=
  match es with
  | [] => []
  | e :: es => (if record_kind e =? k then [a] else []) ++ records k (a + Z.of_nat (length e)) es
  end.

Variable c : Z.
Hypothesis Hcost : forall size, 0 < size <= 2 ^ 20 -> kh_cost size <= c.
Hypothesis Hc : 0 <= c.

(** The vectors hold [x0] to [x4], and beside their storage the heap has [R]. *)
Definition listed (n : Z) (R : gmap Z (list Z)) (x0 x1 x2 x4 : list Z) (s : st) : Prop :=
  live (acon s) /\ exists m B0 B1 B2 B4, n <= m /\ kh_rep (aheap s) m (B0 ∪ (B1 ∪ (B2 ∪ (B4 ∪ R)))) /\
    B0 ##ₘ B1 /\ B0 ##ₘ B2 /\ B0 ##ₘ B4 /\ B0 ##ₘ R /\ B1 ##ₘ B2 /\ B1 ##ₘ B4 /\ B1 ##ₘ R /\ B2 ##ₘ B4 /\ B2 ##ₘ R /\ B4 ##ₘ R /\
    vec_own (madt_lapics s) x0 B0 /\ vec_own (madt_io_apics s) x1 B1 /\ vec_own (madt_isos s) x2 B2 /\ vec_own (madt_nmis s) x4 B4.

Lemma union_swap (B C R : gmap Z (list Z)) : B ##ₘ C -> B ∪ (C ∪ R) = C ∪ (B ∪ R).
Proof. intros Hd. by rewrite !(assoc_L (∪)), (map_union_comm B C) by done. Qed.

Lemma found_record_ok format vget vset header xs B R m (s : st) :
  (forall v s, vget (vset v s) = v) -> (forall h s, vget (set_aheap h s) = vget s) -> (forall v s, aheap (vset v s) = aheap s) ->
  (forall v w s, vset v (vset w s) = vset v s) -> (forall v h s, vset v (set_aheap h s) = set_aheap h (vset v s)) -> (forall s, vset (vget s) s = s) ->
  (forall k s, vget (set_acon k s) = vget s) ->
  (forall v, plain (chars format ++ [10; 0]) [Word v] = true) ->
  kh_rep (aheap s) m (B ∪ R) -> B ##ₘ R -> vec_own (vget s) xs B -> Z.of_nat (length xs) < 2 ^ 16 -> c <= m -> live (acon s) ->
  exists k v' h' m' B', found_record clock depth format vget vset header s = Ret tt (set_aheap h' (vset v' (set_acon k s))) /\ live k /\ m - c <= m' /\
    kh_rep h' m' (B' ∪ R) /\ B' ##ₘ R /\ vec_own v' (xs ++ [header]) B'.
Proof.
  intros L1 L2 L3 L4 L5 L6 L7 Hp Hr Hd Ho Hlen Hm Hl. unfold found_record. rewrite bind_get.
  destruct (asay_live (chars format ++ [10; 0]) [Word (v_length (vget s))] s) as (k & E & Hk); [by repeat constructor|done|done|]. rewrite (bind_Ret _ _ _ _ _ E).
  destruct (vector_push_back_ok vget vset aheap set_aheap) with (c := c) (x := header) (v := vget s) (xs := xs) (B := B) (R := R) (h := aheap s) (n := m) (s := set_acon k s)
    as (v' & h' & m' & B' & E2 & Hm' & Hr' & Hd' & Ho'); try done; [by intros []|].
  exists k, v', h', m', B'. by rewrite (bind_Ret _ _ _ _ _ E2).
Qed.
Definition add_kind (k : Z) (e : list Z) (a : Z) (xs : list Z) : list Z := xs ++ (if record_kind e =? k then [a] else []).

Lemma add_other k e a xs : record_kind e <> k -> add_kind k e a xs = xs.
Proof. intros Hk. unfold add_kind. rewrite (proj2 (Z.eqb_neq _ _) Hk). apply app_nil_r. Qed.
Lemma add_same k e a xs : record_kind e = k -> add_kind k e a xs = xs ++ [a].
Proof. intros Hk. unfold add_kind. by rewrite (proj2 (Z.eqb_eq _ _) Hk). Qed.

Local Ltac one_vector E Hsplit :=
  rewrite (bind_Ret _ _ _ _ _ E); rewrite !map_disjoint_union_r in Hsplit; destruct_and?.

(** One record goes to the vector of its kind. *)
Lemma madt_entry_ok e a n R x0 x1 x2 x4 (s : st) :
  record_ok e -> le 1 a = head e -> le 1 (a + 1) = e !! 1%nat -> listed n R x0 x1 x2 x4 s -> c <= n ->
  Z.of_nat (length x0) < 2 ^ 16 -> Z.of_nat (length x1) < 2 ^ 16 -> Z.of_nat (length x2) < 2 ^ 16 -> Z.of_nat (length x4) < 2 ^ 16 ->
  wp (madt_entry clock depth fw a s) (fun step s' => step = Z.of_nat (length e) /\
    listed (n - c) R (add_kind 0 e a x0) (add_kind 1 e a x1) (add_kind 2 e a x2) (add_kind 4 e a x4) s').
Proof.
  intros (id & len & rest & -> & Hlen) H0 H1 (Hl & m & B0 & B1 & B2 & B4 & Hm & Hr & D01 & D02 & D04 & D0 & D12 & D14 & D1 & D24 & D2 & D4 & V0 & V1 & V2 & V4) Hn L0 L1 L2 L4.
  unfold madt_entry. cbn [head lookup list_lookup] in H0, H1. rewrite (bind_Ret _ _ _ _ _ (fw8_eq _ _ s H0)).
  set (e := id :: len :: rest) in *. assert (Hk : record_kind e = id) by done.
  set (Q := fun step (s' : st) => step = Z.of_nat (length e) /\ listed (n - c) R (add_kind 0 e a x0) (add_kind 1 e a x1) (add_kind 2 e a x2) (add_kind 4 e a x4) s').
  assert (Hfin : forall s' : st, listed (n - c) R (add_kind 0 e a x0) (add_kind 1 e a x1) (add_kind 2 e a x2) (add_kind 4 e a x4) s' ->
    wp ((let! length := fw8 fw (a + 1) in ret (Z.max length 2)) s') Q).
  { intros s' Hs'. rewrite (bind_Ret _ _ _ _ _ (fw8_eq _ _ s' H1)). by split. }
  destruct (Z.eqb_spec id 0) as [->|N0]; [|destruct (Z.eqb_spec id 1) as [->|N1]; [|destruct (Z.eqb_spec id 2) as [->|N2]; [|destruct (Z.eqb_spec id 4) as [->|N4]]]].
  - destruct (found_record_ok "madt: Found local APIC #%lu" madt_lapics set_lapics a x0 B0 (B1 ∪ (B2 ∪ (B4 ∪ R))) m s) as (k & v' & h' & m' & B' & E & Hk' & Hm' & Hr' & Hd' & Ho'); try done; [by intros []|by rewrite !map_disjoint_union_r|lia|].
    one_vector E Hd'. apply Hfin. rewrite (add_same 0), (add_other 1), (add_other 2), (add_other 4) by (rewrite Hk; lia). split; [done|].
    exists m', B', B1, B2, B4. split_and!; try done. lia.
  - rewrite (union_swap B0 B1) in Hr by done.
    destruct (found_record_ok "madt: Found IO APIC #%lu" madt_io_apics set_io_apics a x1 B1 (B0 ∪ (B2 ∪ (B4 ∪ R))) m s) as (k & v' & h' & m' & B' & E & Hk' & Hm' & Hr' & Hd' & Ho'); try done; [by intros []|by rewrite !map_disjoint_union_r|lia|].
    one_vector E Hd'. apply Hfin. rewrite (add_same 1), (add_other 0), (add_other 2), (add_other 4) by (rewrite Hk; lia). rewrite (union_swap B' B0) in Hr' by done. split; [done|].
    exists m', B0, B', B2, B4. split_and!; try done. lia.
  - rewrite (union_swap B1 B2), (union_swap B0 B2) in Hr by done.
    destruct (found_record_ok "madt: Found ISO #%lu" madt_isos set_isos a x2 B2 (B0 ∪ (B1 ∪ (B4 ∪ R))) m s) as (k & v' & h' & m' & B' & E & Hk' & Hm' & Hr' & Hd' & Ho'); try done; [by intros []|by rewrite !map_disjoint_union_r|lia|].
    one_vector E Hd'. apply Hfin. rewrite (add_same 2), (add_other 0), (add_other 1), (add_other 4) by (rewrite Hk; lia). rewrite (union_swap B' B0), (union_swap B' B1) in Hr' by done. split; [done|].
    exists m', B0, B1, B', B4. split_and!; try done. lia.
  - rewrite (union_swap B2 B4), (union_swap B1 B4), (union_swap B0 B4) in Hr by done.
    destruct (found_record_ok "madt: Found NMI #%lu" madt_nmis set_nmis a x4 B4 (B0 ∪ (B1 ∪ (B2 ∪ R))) m s) as (k & v' & h' & m' & B' & E & Hk' & Hm' & Hr' & Hd' & Ho'); try done; [by intros []|by rewrite !map_disjoint_union_r|lia|].
    one_vector E Hd'. apply Hfin. rewrite (add_same 4), (add_other 0), (add_other 1), (add_other 2) by (rewrite Hk; lia). rewrite (union_swap B' B0), (union_swap B' B1), (union_swap B' B2) in Hr' by done. split; [done|].
    exists m', B0, B1, B2, B'. split_and!; try done. lia.
  - rewrite (bind_Ret _ _ _ tt s) by done. apply Hfin. rewrite !add_other by (rewrite Hk; lia). split; [done|]. exists m, B0, B1, B2, B4. split_and!; try done. lia.
Qed.
Lemma records_length k a es : (length (records k a es) <= length es)%nat.
Proof. revert a. induction es as [|e es IH]; intros a; cbn [records length]; [done|]. rewrite length_app. specialize (IH (a + Z.of_nat (length e))). destruct (_ =? k); cbn; lia. Qed.

Lemma record_two e : record_ok e -> (2 <= length e)%nat.
Proof. intros (id & len & rest & -> & _). cbn. lia. Qed.

Lemma records_small es : Forall record_ok es -> (2 * length es <= length (concat es))%nat.
Proof. induction 1 as [|e es He _ IH]; [done|]. cbn [concat length]. rewrite length_app. pose proof (record_two e He). lia. Qed.

(** The loop, from the record after [pre]. *)
Lemma madt_loop_ok madt all R : madt_table madt all ->
  forall es pre fuel n x0 x1 x2 x4 (s : st), all = pre ++ es -> (length es <= fuel)%nat -> Z.of_nat (length es) * c <= n ->
  listed n R x0 x1 x2 x4 s -> (length x0 <= length pre)%nat -> (length x1 <= length pre)%nat -> (length x2 <= length pre)%nat -> (length x4 <= length pre)%nat ->
  let a := madt + sizeof_madt + Z.of_nat (length (concat pre)) in
  wp (madt_loop clock depth fw fuel madt (Z.of_nat (length (concat pre))) s) (fun _ s' =>
    listed (n - Z.of_nat (length es) * c) R (x0 ++ records 0 a es) (x1 ++ records 1 a es) (x2 ++ records 2 a es) (x4 ++ records 4 a es) s').
Proof.
  intros Ht. induction es as [|e es IH]; intros pre fuel n x0 x1 x2 x4 s Hall Hf Hn Hs H0 H1 H2 H4 a.
  all: destruct (ma_length _ _ Ht) as (pad & Hpad & Elen); pose proof (ma_small _ _ Ht) as Hsm; pose proof (ma_records _ _ Ht) as Hrec.
  all: rewrite Hall, concat_app, length_app in Elen, Hsm; unfold sizeof_madt in *.
  - destruct fuel; cbn [madt_loop concat length] in *; rewrite (bind_Ret _ _ _ _ _ (fw32_eq _ _ s Elen)).
    all: unfold sizeof_madt; rewrite wrap_small by lia; rewrite (proj2 (Z.ltb_lt _ _)) by lia; cbn [records]; rewrite !app_nil_r, Z.mul_0_l, Z.sub_0_r; exact Hs.
  - destruct fuel as [|fuel]; [cbn in Hf; lia|]. cbn [madt_loop]. rewrite (bind_Ret _ _ _ _ _ (fw32_eq _ _ s Elen)). rewrite Hall in Hrec. apply Forall_app in Hrec as [Hrp [He Hre]%Forall_cons].
    pose proof (record_two e He) as He2. cbn [concat length] in *. rewrite length_app in Elen, Hsm. unfold sizeof_madt at 1. rewrite wrap_small by (rewrite length_app; lia).
    rewrite (proj2 (Z.ltb_ge _ _)) by (rewrite length_app; lia). apply wp_bind.
    assert (Hbyte : forall k b, e !! k = Some b -> le 1 (a + Z.of_nat k) = Some b).
    { intros k b Hk. rewrite <- (ma_bytes _ _ Ht (length (concat pre) + k) b); [f_equal; unfold a, sizeof_madt; lia|].
      rewrite Hall, concat_app. cbn [concat]. rewrite lookup_app_r, Nat.add_sub' by lia. apply lookup_app_Some. by left. }
    pose proof (records_small _ Hrp) as Hps.
    eapply wp_mono; [apply (madt_entry_ok e a n R x0 x1 x2 x4 s He)|]; [| |exact Hs|nia|lia|lia|lia|lia|].
    + destruct He as (id & len & rest & -> & _). rewrite <- (Z.add_0_r a). by apply (Hbyte 0%nat).
    + destruct He as (id & len & rest & -> & _). by apply (Hbyte 1%nat).
    + intros step s1 [-> Hs1]. rewrite wrap_small by lia.
      assert (Ep : Z.of_nat (length (concat pre)) + Z.of_nat (length e) = Z.of_nat (length (concat (pre ++ [e])))) by (rewrite concat_app, length_app; cbn [concat]; rewrite app_nil_r; lia).
      rewrite Ep. assert (Hadd : forall k x, (length x <= length pre)%nat -> (length (add_kind k e a x) <= length (pre ++ [e]))%nat).
      { intros k x Hx. unfold add_kind. rewrite !length_app. destruct (_ =? k); cbn; lia. }
      eapply wp_mono; [eapply (IH (pre ++ [e]) fuel (n - c)); [by rewrite <- app_assoc|lia|nia|exact Hs1|by apply Hadd..]|].
      intros [] s2 Hs2. rewrite <- Ep in Hs2. replace (n - c - Z.of_nat (length es) * c) with (n - Z.of_nat (Datatypes.S (length es)) * c) in Hs2 by lia.
      cbn [records]. replace (a + Z.of_nat (length e)) with (madt + 44 + (Z.of_nat (length (concat pre)) + Z.of_nat (length e))) by (unfold a; lia).
      unfold add_kind in Hs2. by rewrite <- !app_assoc in Hs2.
Qed.
(** ** Discovery *)

(** The vectors as the kernel image has them. *)
Definition none_listed (s : st) : Prop :=
  madt_lapics s = VECTOR_INIT /\ madt_io_apics s = VECTOR_INIT /\ madt_isos s = VECTOR_INIT /\ madt_nmis s = VECTOR_INIT.

Lemma none_listed_own n R (s : st) : none_listed s -> live (acon s) -> kh_rep (aheap s) n R -> listed n R [] [] [] [] s.
Proof.
  intros (E0 & E1 & E2 & E4) Hl Hr. split; [done|]. exists n, ∅, ∅, ∅, ∅. rewrite !(left_id_L ∅ (∪)). split_and!; try done; try apply map_disjoint_empty_l; by left.
Qed.

Definition all_listed (n : Z) (R : gmap Z (list Z)) (madt : Z) (es : list (list Z)) (s : st) : Prop :=
  let a := madt + sizeof_madt in listed n R (records 0 a es) (records 1 a es) (records 2 a es) (records 4 a es) s.

Lemma madt_init_ok rounds x es sig e0 rest recs n R (s : st) :
  selects (rsdp s) x -> root_table x (rsdt s) es sig -> matching sig "APIC" es = e0 :: rest -> table_va e0 <> 0 -> madt_table (table_va e0) recs ->
  none_listed s -> live (acon s) -> kh_rep (aheap s) n R -> (length recs <= rounds)%nat -> Z.of_nat (length recs) * c <= n ->
  wp (madt_init clock depth fw lit rounds s) (fun _ s' => all_listed (n - Z.of_nat (length recs) * c) R (table_va e0) recs s').
Proof.
  intros Hx Ht Hm Hnz Hmadt Hno Hl Hr Hf Hn. unfold madt_init. destruct (find_sdt_ok x es sig "APIC" 0 s Hx Ht eq_refl Hl ltac:(done)) as (k & E & Hk).
  rewrite (bind_Ret _ _ _ _ _ E), Hm. change (default 0 _) with (table_va e0). rewrite (proj2 (Z.eqb_neq _ _) Hnz).
  pose proof (madt_loop_ok (table_va e0) recs R Hmadt recs [] rounds n [] [] [] [] (set_acon k s) eq_refl Hf Hn) as Hw. cbn [concat length app] in Hw. change (Z.of_nat 0) with 0 in Hw.
  rewrite Z.add_0_r in Hw. apply Hw; [by apply none_listed_own|done..].
Qed.

(** No hardware-reduced platform: the FADT, if there is one, does not set bit 20. *)
Definition full_hardware (sig : Z -> list Z) (es : list Z) : Prop :=
  forall f rest, matching sig "FACP" es = f :: rest -> table_va f <> 0 ->
    exists len, le 4 (table_va f + off_sdt_length) = Some len /\ (116 <= len -> exists flags, le 4 (table_va f + 4 * 28) = Some flags /\ Z.testbit flags 20 = false).

Lemma bit20 flags : is_set flags (Z.shiftl 1 20) = Z.testbit flags 20.
Proof.
  unfold is_set. rewrite Z.shiftl_1_l. destruct (Z.testbit flags 20) eqn:E.
  - apply negb_true_iff, Z.eqb_neq. intros H0. apply (f_equal (fun z => Z.testbit z 20)) in H0. by rewrite Z.land_spec, E, Z.pow2_bits_true, Z.bits_0 in H0.
  - apply negb_false_iff, Z.eqb_eq. apply Z.bits_inj'. intros k Hk. rewrite Z.land_spec, Z.bits_0. destruct (decide (k = 20)) as [->|]; [by rewrite E|].
    rewrite Z.pow2_bits_false by lia. apply andb_false_r.
Qed.

Lemma fadt_ok sig es (s : st) :
  full_hardware sig es -> let fadt := default 0 (table_va <$> (matching sig "FACP" es !! 0%nat)) in
  (if fadt =? 0 then ret false else
   let! length := fw32 fw (fadt + off_sdt_length) in
   if length >=? 116 then let! flags := fw32 fw (fadt + 4 * 28) in ret (is_set flags (Z.shiftl 1 20)) else ret false) s = Ret false s.
Proof.
  intros Hh. destruct (matching sig "FACP" es) as [|f rest] eqn:E; [done|]. change (default 0 _) with (table_va f). cbv zeta.
  destruct (Z.eqb_spec (table_va f) 0) as [|Hnz]; [done|]. destruct (Hh f rest E Hnz) as (len & Hlen & Hfl). rewrite (bind_Ret _ _ _ _ _ (fw32_eq _ _ s Hlen)).
  destruct (Z.geb_spec len 116) as [Hge|]; [|done]. destruct (Hfl ltac:(lia)) as (flags & Hf & Hb). rewrite (bind_Ret _ _ _ _ _ (fw32_eq _ _ s Hf)), bit20. by rewrite Hb.
Qed.
(** *** Discovery leaves the root pointers alone *)
Definition roots (s : st) : Z * Z := (rsdp s, rsdt s).
Lemma keeps_modify_roots (g : st -> st) : (forall s, roots (g s) = roots s) -> keeps roots (modify g).
Proof. intros Hg s. apply Hg. Qed.
Lemma keeps_fw8 a : keeps roots (fw8 fw a).
Proof. intros s. unfold fw8. by destruct (fw a). Qed.
Hint Resolve keeps_fw8 : keeps.
Lemma keeps_fw16 a : keeps roots (fw16 fw a).
Proof. unfold fw16. auto with keeps. Qed.
Hint Resolve keeps_fw16 : keeps.
Lemma keeps_fw32 a : keeps roots (fw32 fw a).
Proof. unfold fw32. auto with keeps. Qed.
Hint Resolve keeps_fw32 : keeps.
Lemma keeps_fw64 a : keeps roots (fw64 fw a).
Proof. unfold fw64. auto with keeps. Qed.
Hint Resolve keeps_fw64 : keeps.
Lemma keeps_asay format va : keeps roots (asay clock depth format va).
Proof. by apply keeps_zoom. Qed.
Lemma keeps_aheap {A} (op : K H A) : keeps roots (vheap aheap set_aheap op).
Proof. by apply keeps_zoom. Qed.
Hint Resolve keeps_asay keeps_aheap : keeps.

Lemma keeps_use_xsdt : keeps roots (use_xsdt fw).
Proof. unfold use_xsdt. apply keeps_bind; [done|]. intros s. apply keeps_bind; [auto with keeps|]. intros r. destruct (r >=? 2); auto with keeps. Qed.
Hint Resolve keeps_use_xsdt : keeps.
Lemma keeps_signature a sig : keeps roots (signature_differs fw a sig).
Proof. revert a. induction sig as [|b sig IH]; intros a; cbn [signature_differs]; [done|]. apply keeps_bind; [auto with keeps|]. intros r. destruct (negb (r =? b)); auto with keeps. Qed.
Hint Resolve keeps_signature : keeps.
Lemma keeps_find_loop signature n i index : keeps roots (find_sdt_loop clock depth fw lit signature n i index).
Proof.
  revert i index. induction n as [|n IH]; intros i index; cbn [find_sdt_loop]; [auto with keeps|].
  apply keeps_bind.
  - unfold sdt_entry. apply keeps_bind; [auto with keeps|]. intros x. apply keeps_bind; [done|]. intros s. apply keeps_bind; [destruct x; auto with keeps|auto with keeps].
  - intros sdt. apply keeps_bind; [auto with keeps|]. intros []; [auto|]. destruct (index >? 0); [auto|]. auto with keeps.
Qed.
Hint Resolve keeps_find_loop : keeps.

Lemma keeps_found format vget vset header : (forall v s, roots (vset v s) = roots s) -> keeps roots (found_record clock depth format vget vset header).
Proof.
  intros Hv. unfold found_record, VECTOR_PUSH_BACK, VECTOR_ENSURE_LENGTH. pose proof keeps_modify_roots.
  apply keeps_bind; [done|]. intros s. apply keeps_bind; [auto with keeps|]. intros _. apply keeps_bind; [|auto with keeps]. apply keeps_bind; [done|]. intros s1.
  apply keeps_bind; [apply keeps_bind; [done|]; intros s2; apply keeps_when|]; auto 8 with keeps.
Qed.

Lemma keeps_madt_loop fuel madt offset : keeps roots (madt_loop clock depth fw fuel madt offset).
Proof.
  revert offset. induction fuel as [|fuel IH]; intros offset; cbn [madt_loop]; (apply keeps_bind; [auto with keeps|]); intros len; (destruct (_ <? 2); [done|]); [done|].
  apply keeps_bind; [|auto]. unfold madt_entry. apply keeps_bind; [auto with keeps|]. intros id. apply keeps_bind; [|auto with keeps].
  destruct (id =? 0); [by apply keeps_found|]. destruct (id =? 1); [by apply keeps_found|]. destruct (id =? 2); [by apply keeps_found|]. destruct (id =? 4); [by apply keeps_found|done].
Qed.

Lemma madt_init_keeps rounds : keeps roots (madt_init clock depth fw lit rounds).
Proof.
  unfold madt_init. apply keeps_bind; [|intros madt; destruct (madt =? 0); [done|apply keeps_madt_loop]].
  unfold acpi_find_sdt. auto 8 with keeps.
Qed.

(** C38. ACPI discovery finds the interrupt topology.  Given an RSDP that selects the
    root table (XSDT or RSDT), the tables it lists, and an MADT made of well-formed
    records, [acpi_init] returns with the root pointers set, and the four vectors
    hold the addresses of exactly the local APIC, I/O APIC, override and NMI records,
    in table order; the rest of the heap is as it was. *)
Theorem acpi_init_correct rounds env p x ra es sig e0 rest recs n R (s : st) :
  rsdp_response env = Some p -> p <> 0 -> has_ACPI env = true -> selects p x ->
  le (if x then 8 else 4) (p + (if x then off_rsdp_xsdt_addr else off_rsdp_rsdt_addr)) = Some ra ->
  root_table x (table_va ra) es sig -> full_hardware sig es ->
  matching sig "APIC" es = e0 :: rest -> table_va e0 <> 0 -> madt_table (table_va e0) recs ->
  none_listed s -> live (acon s) -> kh_rep (aheap s) n R -> (length recs <= rounds)%nat -> Z.of_nat (length recs) * c <= n ->
  wp (acpi_init clock depth fw lit rounds env s) (fun _ s' =>
    rsdp s' = p /\ rsdt s' = table_va ra /\ all_listed (n - Z.of_nat (length recs) * c) R (table_va e0) recs s').
Proof.
  intros Hp Hp0 Ha Hx Hra Ht Hfull Hm Hnz Hmadt Hno Hl Hr Hf Hn. unfold acpi_init. rewrite Hp, (proj2 (Z.eqb_neq p 0) Hp0), Ha. cbn [negb]. rewrite bind_modify. set (s1 := set_rsdp p s).
  rewrite (bind_Ret _ _ _ _ _ (use_xsdt_eq x s1 Hx)).
  rewrite (bind_Ret _ _ _ ra s1) by (destruct x; [by apply fw64_eq|by apply fw32_eq]). rewrite bind_modify. change (u64 (ra + _)) with (table_va ra). set (s2 := set_rsdt (table_va ra) s1).
  pose proof Hx as (rev & Hrev & _). rewrite (bind_Ret _ _ _ _ _ (fw8_eq _ _ s2 Hrev)).
  destruct (asay_live (chars "acpi: Revision: %lu" ++ [10; 0]) [Word rev] s2) as (k2 & E2 & Hk2); [by repeat constructor|done|done|]. rewrite (bind_Ret _ _ _ _ _ E2).
  set (s3 := set_acon k2 s2). rewrite (bind_Ret _ _ _ _ _ (use_xsdt_eq x s3 Hx)).
  destruct (asay_live (chars "acpi: Uses XSDT? %s" ++ [10; 0]) [Str (cstr (if x then "true" else "false"))] s3) as (k3 & E3 & Hk3); [by repeat constructor|by destruct x|done|].
  rewrite (bind_Ret _ _ _ _ _ E3), bind_get. set (s4 := set_acon k3 s3).
  destruct (asay_live (chars "acpi: RSDT at 0x%llx" ++ [10; 0]) [Word (rsdt s4)] s4) as (k4 & E4 & Hk4); [by repeat constructor|done|done|].
  rewrite (bind_Ret _ _ _ _ _ E4). set (s5 := set_acon k4 s4).
  destruct (find_sdt_ok x es sig "FACP" 0 s5 Hx Ht eq_refl Hk4 ltac:(done)) as (k5 & E5 & Hk5). rewrite (bind_Ret _ _ _ _ _ E5). set (s6 := set_acon k5 s5).
  rewrite (bind_Ret _ _ _ _ _ (fadt_ok sig es s6 Hfull)).
  assert (Hw : wp (madt_init clock depth fw lit rounds s6) (fun _ s' => all_listed (n - Z.of_nat (length recs) * c) R (table_va e0) recs s')) by (by eapply (madt_init_ok rounds x es sig)).
  apply wp_ret_inv in Hw as ([] & s' & E & Hs'). apply wp_ret_inv. exists tt, s'. split; [exact E|].
  pose proof (madt_init_keeps rounds s6) as Hk. rewrite E in Hk. by injection Hk as -> ->.
Qed.
End acpi.
(** * A machine's firmware *)
Definition bytes_le (n : nat) (v : Z) : list Z := (fun k => (v / 2 ^ (8 * k)) mod 256) <$> seqZ 0 (Z.of_nat n).
Definition sdt_bytes (sig : string) (body : list Z) : list Z := chars sig ++ bytes_le 4 (36 + Z.of_nat (length body)) ++ replicate 28 0 ++ body.
(** Tables at physical addresses. *)
Definition firmware (tables : list (Z * list Z)) (a : Z) : option Z :=
  foldr (fun '(p, l) rest => let o := a - Paging.HIGHER_HALF_MEMORY_OFFSET - p in if (0 <=? o) && (o <? Z.of_nat (length l)) then l !! Z.to_nat o else rest) None tables.

Definition pc_records : list (list Z) :=
  [[0; 8; 0; 0; 1; 0; 0; 0]; [1; 12; 2; 0; 0; 0; 0xC0; 0xFE; 0; 0; 0; 0]; [2; 10; 0; 0; 2; 0; 0; 0; 0; 0]; [4; 6; 0xFF; 0; 0; 1]].
Definition pc_tables (recs : list (list Z)) (len : Z) : list (Z * list Z) :=
  [(0x1000, chars "RSD PTR " ++ replicate 8 0 ++ bytes_le 4 0x2000);
   (0x2000, sdt_bytes "RSDT" (bytes_le 4 0x3000 ++ bytes_le 4 0x4000));
   (0x3000, sdt_bytes "FACP" (replicate 80 0));
   (0x4000, chars "APIC" ++ bytes_le 4 len ++ replicate 36 0 ++ concat recs)].
Definition pc_fw : Z -> option Z := firmware (pc_tables pc_records 80).
Definition pc_sig (e : Z) : list Z := if e =? 0x3000 then chars "FACP" else chars "APIC".
Definition HHM : Z := Paging.HIGHER_HALF_MEMORY_OFFSET.

Lemma pc_root : root_table pc_fw false (HHM + 0x2000) [0x3000; 0x4000] pc_sig.
Proof.
  split.
  - vm_compute. reflexivity.
  - cbn. lia.
  - intros [|[|i]] e; cbn [lookup list_lookup]; [intros [= <-]; vm_compute; reflexivity|intros [= <-]; vm_compute; reflexivity|done].
  - intros e He. split; [unfold pc_sig; by destruct (e =? 0x3000)|]. intros k ch.
    repeat (apply elem_of_cons in He as [->|He]); [| |by apply elem_of_nil in He]; (destruct k as [|[|[|[|k]]]]; [intros [= <-]; vm_compute; reflexivity..|done]).
  - intros e He. repeat (apply elem_of_cons in He as [->|He]); [| |by apply elem_of_nil in He]; eexists; vm_compute; reflexivity.
Qed.

Lemma pc_madt : madt_table pc_fw (HHM + 0x4000) pc_records.
Proof.
  split.
  - exists 0. split; [lia|]. vm_compute. reflexivity.
  - intros k b Hk. assert (Hall : forallb (fun k => bool_decide (fw_le pc_fw 1 (HHM + 0x4000 + sizeof_madt + Z.of_nat k) = concat pc_records !! k)) (seq 0 36) = true) by (vm_compute; reflexivity).
    rewrite forallb_forall in Hall. specialize (Hall k). rewrite <- Hk.
    eapply bool_decide_eq_true_1, Hall. apply in_seq. apply lookup_lt_Some in Hk. cbn in Hk. lia.
  - repeat (apply Forall_cons; split; [do 3 eexists; split; [reflexivity|reflexivity]|]). constructor.
  - cbn. lia.
Qed.

Lemma heap0_budget : kh_rep heap0 4000 ∅.
Proof. split; [exact heap0_rep|]. split; [vm_compute; discriminate|]. split; [vm_compute; discriminate|exact window_all]. Qed.

Lemma vector_cost size : 0 < size <= 2 ^ 20 -> kh_cost (H := kheap tb) size <= 257.
Proof. intros Hs. change (kmalloc_cost size <= 257). unfold kmalloc_cost, KmallocInv.KmallocInv.pages_for. rewrite KmallocInv.KmallocInv.total_size_eq by lia. dm_lia. Qed.

Definition pc_boot : acpi (kheap tb) := Acpi heap0 InterruptsSpec.con0 0 0 VECTOR_INIT VECTOR_INIT VECTOR_INIT VECTOR_INIT.

Lemma acpi_init_correct_witness :
  wp (acpi_init (fun _ => 0) 1 pc_fw (fun _ => 0) 4 (AcpiEnv (Some (HHM + 0x1000)) true) pc_boot) (fun _ s' =>
    rsdp s' = HHM + 0x1000 /\ rsdt s' = HHM + 0x2000 /\
    listed 2972 ∅ [HHM + 0x4000 + 44] [HHM + 0x4000 + 52] [HHM + 0x4000 + 64] [HHM + 0x4000 + 74] s').
Proof.
  eapply wp_mono; [apply (acpi_init_correct pc_fw (fun _ => 0) 1 ltac:(lia) (fun _ => 0) 257 vector_cost ltac:(lia) 4 (AcpiEnv (Some (HHM + 0x1000)) true)
    (HHM + 0x1000) false 0x2000 [0x3000; 0x4000] pc_sig 0x4000 [] pc_records 4000 ∅ pc_boot)|].
  - reflexivity.
  - vm_compute. discriminate.
  - reflexivity.
  - exists 0. split; [vm_compute; reflexivity|reflexivity].
  - vm_compute. reflexivity.
  - exact pc_root.
  - intros f rest E _. vm_compute in E. injection E as <- _. exists 116. split; [vm_compute; reflexivity|]. intros _. exists 0. split; [vm_compute; reflexivity|reflexivity].
  - vm_compute. reflexivity.
  - vm_compute. discriminate.
  - exact pc_madt.
  - by split_and!.
  - exact InterruptsSpec.con0_live.
  - exact heap0_budget.
  - cbn. lia.
  - cbn. lia.
  - intros [] s' (H1 & H2 & H3). split; [exact H1|]. split; [exact H2|]. exact H3.
Defined.

(** A record that claims more bytes than the table has left takes the parser past the
    table: the unsigned bytes left never fall below 2 again, and it reads on until the
    memory ends. *)
Definition overshoot_records : list (list Z) := [[0; 8; 0; 0; 1; 0; 0; 0]; [0; 9; 1; 1; 1; 0; 0; 0]].
Theorem madt_overshoot_faults :
  match madt_init (fun _ => 0) 1 (firmware (pc_tables overshoot_records 60)) (fun _ => 0) 4 (set_rsdp (HHM + 0x1000) (set_rsdt (HHM + 0x2000) pc_boot)) with
  | Fault a _ => a = HHM + 0x4000 + 44 + 17 | _ => False end.
Proof. vm_compute. reflexivity. Qed.
End AcpiSpec.
