(* ===== verification/Apic.v ===== *)
(** The I/O APIC driver, [src/src/apic/ioapic.c], and the local APIC driver,
    [src/src/apic/lapic.c], with [this_cpu] of [src/src/cpu.c].

    Device registers are in memory: [mdev] gives what a read returns as a function
    of all accesses before it.  What the driver relies on of an I/O APIC is the class
    [IoApic]: the register selected by the last write to the first window appears in
    the second. *)
From Stdlib Require Import Ascii.
From S2P Require Import Prelude CString Printf Putchar Pic PageTree Paging KHeap Time Interrupts Vector Acpi.

Inductive mevent : Type :=
| MRead (a v : Z)
| MWrite (a v : Z).
Abbreviation mmio := (list mevent).

Definition mread (mdev : mmio -> Z -> Z) (a : Z) : K mmio Z := fun tr => let v := u32 (mdev tr a) in Ret v (tr ++ [MRead a v]).
Definition mwrite (a v : Z) : K mmio unit := fun tr => Ret tt (tr ++ [MWrite a (u32 v)]).

(** Fields of the MADT records the drivers read. *)
Definition off_io_apic_address : Z := 4.
Definition off_io_apic_gsib : Z := 8.
Definition off_iso_irq_source : Z := 3.
Definition off_iso_gsi : Z := 4.
Definition off_iso_flags : Z := 8.

(** * I/O APIC *)
Section ioapic.
Context {H : Type} `{KernelHeap H}.
Record ioapic : Type := IoApics { itab : acpi H; immio : mmio }.
Definition set_itab (t : acpi H) (s : ioapic) : ioapic := IoApics t (immio s).
Definition set_immio (m : mmio) (s : ioapic) : ioapic := IoApics (itab s) m.

Variable clock : list effect -> Z.
Variable depth : nat.
Variable fw : Z -> option Z.
Variable mdev : mmio -> Z -> Z.

Definition at_tab {A} (c : K (acpi H) A) : K ioapic A := zoom itab set_itab c.
Definition at_mmio {A} (c : K mmio A) : K ioapic A := zoom immio set_immio c.

Definition io_apic_base (io_apic : Z) : K ioapic Z :=
  let! a := at_tab (fw32 fw (io_apic + off_io_apic_address)) in ret (u64 (a + Paging.HIGHER_HALF_MEMORY_OFFSET)).

Definition io_apic_read (io_apic reg : Z) : K ioapic Z :=
  let! base := io_apic_base io_apic in
  do! at_mmio (mwrite base reg) in
  at_mmio (mread mdev (base + 16)).

Definition io_apic_write (io_apic reg value : Z) : K ioapic unit :=
  let! base := io_apic_base io_apic in
  do! at_mmio (mwrite base reg) in
  at_mmio (mwrite (base + 16) value).

Definition io_apic_gsi_count (io_apic : Z) : K ioapic Z :=
  let! v := io_apic_read io_apic 1 in ret (Z.shiftr (Z.land v 0xff0000) 16).

Definition isay (format : list Z) (va : list va_arg) : K ioapic unit := at_tab (asay clock depth format va).

(** The loop over [madt_io_apics], [n] items to go; the kernel halts after it. *)
Fixpoint io_apic_from_gsi_loop (n : nat) (i gsi : Z) : K ioapic Z :=
  match n with
  | O =>
      do! isay (chars "%s" ++ [10; 0]) [Str (cstr "!!!!!!!!!!!!!!!!!!KERNEL PANIC!!!!!!!!!!!!!!!")] in
      do! isay (chars "Cannot determine IO APIC from GSI %lu" ++ [10; 0]) [Word gsi] in
      do! isay (chars "%s" ++ [10; 0]) [Str (cstr "!!!!!!!!!!!!!!!!!!KERNEL PANIC!!!!!!!!!!!!!!!")] in
      fun s => Hang s
  | S n =>
      let! io_apic := at_tab (VECTOR_ITEM madt_io_apics aheap set_aheap i) in
      let! gsib := at_tab (fw32 fw (io_apic + off_io_apic_gsib)) in
      if gsi >=? gsib then
        let! count := io_apic_gsi_count io_apic in
        if gsi <? gsib + count then ret io_apic else io_apic_from_gsi_loop n (i + 1) gsi
      else io_apic_from_gsi_loop n (i + 1) gsi
  end.
Definition io_apic_from_gsi (gsi : Z) : K ioapic Z :=
  let! s := get in io_apic_from_gsi_loop (Z.to_nat (v_length (madt_io_apics (itab s)))) 0 gsi.

(** The redirection entry: vector, polarity, trigger mode, mask, destination. *)
Definition redirection (lapic_id vector flags : Z) (status : bool) : Z :=
  let redirect := vector in
  let redirect := if is_set flags (Z.shiftl 1 1) then Z.lor redirect (Z.shiftl 1 13) else redirect in
  let redirect := if is_set flags (Z.shiftl 1 3) then Z.lor redirect (Z.shiftl 1 15) else redirect in
  let redirect := if status then redirect else Z.lor redirect (Z.shiftl 1 16) in
  Z.lor redirect (u64 (Z.shiftl lapic_id 56)).

Definition io_apic_set_gsi_redirect (lapic_id vector gsi flags : Z) (status : bool) : K ioapic unit :=
  let! io_apic := io_apic_from_gsi gsi in
  let redirect := redirection lapic_id vector flags status in
  let! gsib := at_tab (fw32 fw (io_apic + off_io_apic_gsib)) in
  let io_redirect_table := u32 ((gsi - gsib) * 2 + 16) in
  do! io_apic_write io_apic io_redirect_table (u32 redirect) in
  io_apic_write io_apic (u32 (io_redirect_table + 1)) (u32 (Z.shiftr redirect 32)).

(** The loop over [madt_isos]; the parameter [gsi] of the call is a [uint8_t]. *)
Fixpoint iso_loop (n : nat) (i lapic_id vector irq : Z) (status : bool) : K ioapic unit :=
  match n with
  | O => io_apic_set_gsi_redirect lapic_id vector irq 0 status
  | S n =>
      let! iso := at_tab (VECTOR_ITEM madt_isos aheap set_aheap i) in
      let! source := at_tab (fw8 fw (iso + off_iso_irq_source)) in
      if negb (source =? irq) then iso_loop n (i + 1) lapic_id vector irq status else
      let! gsi := at_tab (fw32 fw (iso + off_iso_gsi)) in
      let! flags := at_tab (fw16 fw (iso + off_iso_flags)) in
      io_apic_set_gsi_redirect lapic_id vector (u8 gsi) flags status
  end.
Definition io_apic_set_irq_redirect (lapic_id vector irq : Z) (status : bool) : K ioapic unit :=
  let! s := get in iso_loop (Z.to_nat (v_length (madt_isos (itab s)))) 0 lapic_id vector irq status.
End ioapic.
Arguments ioapic H : clear implicits.

(** Several I/O APICs, each with two 4-byte windows 16 bytes apart.  A write to a
    redirection register sets it but for the read-only bits 12 and 14; [io_max] is
    what the version register reports, the index of the last entry. *)
Class IoApic (mdev : mmio -> Z -> Z) (bases : list Z) : Type := {
  io_sel : mmio -> Z -> Z;
  io_reg : mmio -> Z -> Z -> Z;
  io_max : Z -> Z;
  io_max_range base : 0 <= io_max base < 256;
  io_read tr base : base ∈ bases -> u32 (mdev tr (base + 16)) = io_reg tr base (io_sel tr base);
  io_version tr base : base ∈ bases -> Z.shiftr (Z.land (io_reg tr base 1) 0xff0000) 16 = io_max base;
  io_quiet tr base e : base ∈ bases -> (forall v, e <> MWrite base v /\ e <> MWrite (base + 16) v) -> io_sel (tr ++ [e]) base = io_sel tr base /\
    forall r, io_reg (tr ++ [e]) base r = io_reg tr base r;
  io_select tr base v : base ∈ bases -> io_sel (tr ++ [MWrite base v]) base = v /\ forall r, io_reg (tr ++ [MWrite base v]) base r = io_reg tr base r;
  io_write tr base v : base ∈ bases -> 16 <= io_sel tr base <= 16 + 2 * io_max base + 1 ->
    io_sel (tr ++ [MWrite (base + 16) v]) base = io_sel tr base /\
    forall r, Z.land (io_reg (tr ++ [MWrite (base + 16) v]) base r) 0xFFFFAFFF =
      Z.land (if r =? io_sel tr base then v else io_reg tr base r) 0xFFFFAFFF;
}.

(** * Local APIC *)
Definition LAPIC_REG_ID : Z := 0x20.
Definition LAPIC_REG_EOI : Z := 0x0b0.
Definition LAPIC_REG_SPURIOUS : Z := 0x0f0.
Definition LAPIC_REG_LVT_TIMER : Z := 0x320.
Definition LAPIC_REG_TIMER_INITCNT : Z := 0x380.
Definition LAPIC_REG_TIMER_CURCNT : Z := 0x390.
Definition LAPIC_REG_TIMER_DIV : Z := 0x3e0.
Definition LAPIC_EOI_ACK : Z := 0x00.

(** Fields of [struct cpu_local]. *)
Definition off_lapic_freq : Z := 16.
Definition off_timer_function : Z := 136.

Section lapic.
Context {H : Type} `{KernelHeap H}.
Record lapic : Type := Lapic { lmach : mach (H := H); lmmio : mmio; timer_vec : Z }.
Definition set_lmach (m : mach) (s : lapic) : lapic := Lapic m (lmmio s) (timer_vec s).
Definition set_lmmio (m : mmio) (s : lapic) : lapic := Lapic (lmach s) m (timer_vec s).
Definition set_timer_vec (v : Z) (s : lapic) : lapic := Lapic (lmach s) (lmmio s) v.

Variable clock : list effect -> Z.
Variable depth : nat.
Variable dev : bus -> Z -> Z.
Variable mdev : mmio -> Z -> Z.
Variable isr_stub_table : list Z.
(** The model-specific registers, the address of [lapic_timer_handler], and how long
    the count-down is waited for. *)
Variable rdmsr : Z -> Z.
Variable handler : Z.
Variable fuel : nat.

Definition on_mach {A} (c : K mach A) : K lapic A := zoom lmach set_lmach c.
Definition lapic_address (reg : Z) : Z := u64 (0xfee00000 + Paging.HIGHER_HALF_MEMORY_OFFSET + reg).
Definition lapic_read (reg : Z) : K lapic Z := zoom lmmio set_lmmio (mread mdev (lapic_address reg)).
Definition lapic_write (reg val : Z) : K lapic unit := zoom lmmio set_lmmio (mwrite (lapic_address reg) val).

Definition lapic_timer_stop : K lapic unit :=
  do! lapic_write LAPIC_REG_TIMER_INITCNT 0 in
  lapic_write LAPIC_REG_LVT_TIMER (Z.shiftl 1 16).

Definition lapic_eoi : K lapic unit := lapic_write LAPIC_REG_EOI LAPIC_EOI_ACK.
Definition lapic_get_id : K lapic Z := lapic_read LAPIC_REG_ID.

(** [this_cpu] of [cpu.c]. *)
Definition this_cpu : K lapic Z :=
  let! s := get in
  if if_flag (lmach s) then panic "Calling this_cpu() With Interrupts on is Forbidden!" else ret 0.
(** An access to a field of the structure at [cpu]; nothing is mapped at 0. *)
Definition cpu_field {A} (cpu off : Z) : K lapic A := fault (cpu + off).

Definition interrupt_toggle (state : bool) : K lapic bool :=
  let! s := get in
  do! on_mach (modify (set_if state)) in
  ret (if_flag (lmach s)).

(** [call f] is the routine at the address [f]. *)
Definition lapic_timer_handler (call : Z -> K lapic unit) : K lapic unit :=
  do! lapic_eoi in
  let! cpu := this_cpu in
  let! function := cpu_field cpu off_timer_function in
  if function =? 0 then ret tt else
  let! cpu := this_cpu in
  let! function := cpu_field cpu off_timer_function in
  call function.

Definition lapic_timer_oneshot (us function : Z) : K lapic unit :=
  do! lapic_timer_stop in
  let! old_int_state := interrupt_toggle false in
  let! cpu := this_cpu in
  do! (cpu_field cpu off_timer_function : K lapic unit) in
  let! _ := interrupt_toggle old_int_state in
  let! cpu := this_cpu in
  let! freq := cpu_field cpu off_lapic_freq in
  let ticks := u32 (us * (freq / 1000000)) in
  let! s := get in
  do! lapic_write LAPIC_REG_LVT_TIMER (timer_vec s) in
  do! lapic_write LAPIC_REG_TIMER_DIV 0 in
  lapic_write LAPIC_REG_TIMER_INITCNT ticks.

(** A divide error is a fault at no address of memory. *)
Definition divide (a b : Z) : K lapic Z := if b =? 0 then fault (-1) else ret (Z.quot a b).

Definition wait_timer : K lapic unit :=
  (fix wait (n : nat) : K lapic unit :=
     let! v := lapic_read LAPIC_REG_TIMER_CURCNT in
     if v =? 0 then ret tt else match n with O => fun s => Hang s | S n => wait n end) fuel.

Definition lapic_timer_calibrate : K lapic unit :=
  do! lapic_timer_stop in
  do! lapic_write LAPIC_REG_LVT_TIMER (Z.lor (Z.shiftl 1 16) 0xff) in
  do! lapic_write LAPIC_REG_TIMER_DIV 0 in
  do! on_mach (on_clk (pit_set_reload_value 0xffff)) in
  let! init_tick := on_mach (on_clk (pit_get_current_count dev)) in
  let samples := 0xfffff in
  do! lapic_write LAPIC_REG_TIMER_INITCNT samples in
  do! wait_timer in
  let! final_tick := on_mach (on_clk (pit_get_current_count dev)) in
  let total_ticks := init_tick - final_tick in
  let! q := divide samples total_ticks in
  let! cpu := this_cpu in
  do! (cpu_field cpu off_lapic_freq : K lapic unit) in
  lapic_timer_stop.

(** [ASSERT]: after its messages [hlt] waits for an interrupt. *)
Definition assert_lapic (cond : bool) (text : string) : K lapic unit :=
  when (negb cond)
    (do! on_mach (msay_line clock depth "!!!KERNEL PANIC!!!") in
     do! on_mach (msay_line clock depth (String.append "Assertion failed: " text)) in
     do! on_mach (msay_line clock depth "!!!KERNEL PANIC!!!") in
     let! s := get in if if_flag (lmach s) then ret tt else fun s => Hang s).

Definition lapic_init : K lapic unit :=
  do! assert_lapic (Z.land (rdmsr 0x1b) 0xfffff000 =? 0xfee00000) "(rdmsr(0x1b) & 0xfffff000) == 0xfee00000" in
  let! v := lapic_read LAPIC_REG_SPURIOUS in
  do! lapic_write LAPIC_REG_SPURIOUS (Z.lor (Z.lor v (Z.shiftl 1 8)) 0xff) in
  let! s := get in
  do! when (timer_vec s =? 0)
    (let! vector := on_mach idt_allocate_vector in
     do! modify (set_timer_vec vector) in
     let! isr := on_mach (stub isr_stub_table vector) in
     on_mach (idt_set_descriptor vector isr IDT_DESCRIPTOR_EXTERNAL 1)) in
  let! s := get in
  do! on_mach (modify (fun m => set_delta (<[Z.to_nat (timer_vec s) := handler]> (isr_delta m)) m)) in
  do! on_mach (msay_s clock depth "Allocated Dynamic ISR at Vector: ") in
  do! on_mach (msay_int clock depth (timer_vec s)) in
  do! on_mach (msay_s clock depth "ISR Delta Data: ") in
  do! on_mach (msay_hex clock depth handler) in
  let! v := lapic_read LAPIC_REG_LVT_TIMER in
  do! lapic_write LAPIC_REG_LVT_TIMER (Z.lor (Z.lor v (Z.shiftl 1 8)) (timer_vec s)) in
  lapic_timer_calibrate.
End lapic.
Arguments lapic H : clear implicits.
