(* ===== verification/ApicSpec.v ===== *)
(** Interrupt routing through the I/O APICs: an interrupt line ends in one
    redirection entry, the one of the APIC that serves it. *)
From Stdlib Require Import Ascii.
From S2P Require Import Prelude CString Printf PrintfSpec Putchar PrintTotal Pic PageTree Paging KHeap Time Interrupts Vector Acpi AcpiSpec Apic KmallocSpec InterruptsSpec Kmalloc.

Module ApicSpec.
Import PrintfSpec PrintTotal VectorSpec AcpiSpec KmallocSpec TableBacking.

(** ** The redirection entry *)
Lemma lor_high x y k : 0 <= k -> 0 <= x < 2 ^ k -> Z.lor x (y * 2 ^ k) = x + y * 2 ^ k.
Proof.
  intros Hk Hx. assert (Hd : Z.land x (y * 2 ^ k) = 0).
  { apply Z.bits_inj'. intros n Hn. rewrite Z.land_spec, Z.bits_0. destruct (Z.ltb_spec n k) as [Hlt|Hge].
    - rewrite Z.mul_pow2_bits_low by lia. apply andb_false_r.
    - destruct (decide (x = 0)) as [->|]; [by rewrite Z.bits_0|]. rewrite Z.bits_above_log2; [done|lia|]. apply Z.log2_lt_pow2; [lia|].
      apply (Z.lt_le_trans _ (2 ^ k)); [lia|]. by apply Z.pow_le_mono_r. }
  rewrite Z.add_nocarry_lxor, Z.lxor_lor by done. done.
Qed.

(** The fields of an entry. *)
Record route : Type := Route { r_vector : Z; r_low_active : bool; r_level : bool; r_masked : bool; r_dest : Z }.
Definition entry_value (r : route) : Z :=
  r_vector r + Z.b2z (r_low_active r) * 2 ^ 13 + Z.b2z (r_level r) * 2 ^ 15 + Z.b2z (r_masked r) * 2 ^ 16 + r_dest r * 2 ^ 56.

Lemma opt_bit (b : bool) x k : 0 <= k -> 0 <= x < 2 ^ k -> (if b then Z.lor x (Z.shiftl 1 k) else x) = x + Z.b2z b * 2 ^ k.
Proof. intros Hk Hx. destruct b; cbn [Z.b2z]; [|lia]. rewrite Z.shiftl_mul_pow2 by lia. by apply lor_high. Qed.

Lemma redirection_fields id vector flags status :
  0 <= vector < 256 -> 0 <= id < 256 ->
  redirection id vector flags status = entry_value (Route vector (is_set flags 2) (is_set flags 8) (negb status) id).
Proof.
  intros Hv Hi. unfold redirection, entry_value. cbn [r_vector r_low_active r_level r_masked r_dest]. change (Z.shiftl 1 1) with 2. change (Z.shiftl 1 3) with 8. cbv zeta.
  assert (Hb : forall b, 0 <= Z.b2z b <= 1) by (by intros []). pose proof (Hb (is_set flags 2)). pose proof (Hb (is_set flags 8)). pose proof (Hb (negb status)).
  rewrite (opt_bit _ vector 13), opt_bit by lia. set (x := _ + _ * 2 ^ 15).
  replace (if status then x else Z.lor x (Z.shiftl 1 16)) with (if negb status then Z.lor x (Z.shiftl 1 16) else x) by (by destruct status).
  rewrite opt_bit by (unfold x; lia). rewrite (Z.shiftl_mul_pow2 id), wrap_small by lia. rewrite lor_high by (unfold x; lia). done.
Qed.

Lemma entry_words r : 0 <= r_vector r < 256 -> 0 <= r_dest r < 256 ->
  u32 (entry_value r) = r_vector r + Z.b2z (r_low_active r) * 2 ^ 13 + Z.b2z (r_level r) * 2 ^ 15 + Z.b2z (r_masked r) * 2 ^ 16 /\
  u32 (Z.shiftr (entry_value r) 32) = r_dest r * 2 ^ 24.
Proof.
  intros Hv Hd. unfold entry_value. set (lo := _ + _ * 2 ^ 16). assert (Hlo : 0 <= lo < 2 ^ 32) by (unfold lo; destruct (r_low_active r), (r_level r), (r_masked r); cbn [Z.b2z]; lia).
  replace (lo + r_dest r * 2 ^ 56) with (lo + r_dest r * 2 ^ 24 * 2 ^ 32) by lia. split.
  - unfold wrap. rewrite Z.mod_add by lia. by apply Z.mod_small.
  - rewrite Z.shiftr_div_pow2, Z.div_add, Z.div_small by lia. apply wrap_small. lia.
Qed.

Section ioapic.
Context {H : Type} `{HH : KernelHeap H} {HL : KernelHeapLaws H}.
Variable clock : list effect -> Z.
Variable depth : nat.
Variable fw : Z -> option Z.
Variable mdev : mmio -> Z -> Z.
Variable bases : list Z.
Context {HI : IoApic mdev bases}.
(** The two windows of one APIC are not those of another. *)
Hypothesis windows : forall b b', b ∈ bases -> b' ∈ bases -> b <> b' + 16.

Local Abbreviation st := (ioapic H).
Local Abbreviation le := (fw_le fw).

Definition same_regs (tr tr' : mmio) : Prop := forall b r, b ∈ bases -> io_reg tr' b r = io_reg tr b r.

Lemma same_select tr base v : base ∈ bases -> same_regs tr (tr ++ [MWrite base v]).
Proof.
  intros Hb b r Hb'. destruct (decide (b = base)) as [->|Hne]; [by apply io_select|]. apply io_quiet; [done|]. intros w. split; [congruence|].
  intros [= E _]. by destruct (windows base b Hb Hb').
Qed.

Lemma same_read tr a v : same_regs tr (tr ++ [MRead a v]).
Proof. intros b r Hb. apply io_quiet; [done|]. by intros w. Qed.

(** An I/O APIC record of the MADT. *)
Record io_record : Type := Io { io_at : Z; io_base : Z; io_gsib : Z }.
Definition io_ok (x : io_record) : Prop :=
  io_base x ∈ bases /\ (exists a, le 4 (io_at x + off_io_apic_address) = Some a /\ table_va a = io_base x) /\ le 4 (io_at x + off_io_apic_gsib) = Some (io_gsib x).

Lemma at_tab_eq {A} (op : K (acpi H) A) a (s : st) : op (itab s) = Ret a (itab s) -> at_tab op s = Ret a s.
Proof. intros E. unfold at_tab, zoom. rewrite E. by destruct s. Qed.

Lemma io_base_eq x (s : st) : io_ok x -> io_apic_base fw (io_at x) s = Ret (io_base x) s.
Proof. intros (_ & (a & Ha & Hb) & _). unfold io_apic_base. rewrite (bind_Ret _ _ _ a s) by (by apply at_tab_eq, fw32_eq). by rewrite <- Hb. Qed.

Lemma io_gsib_eq x (s : st) : io_ok x -> at_tab (fw32 fw (io_at x + off_io_apic_gsib)) s = Ret (io_gsib x) s.
Proof. intros (_ & _ & Hg). by apply at_tab_eq, fw32_eq. Qed.

Lemma io_count_ok x (s : st) : io_ok x ->
  exists tr, io_apic_gsi_count fw mdev (io_at x) s = Ret (io_max (io_base x)) (set_immio tr s) /\ same_regs (immio s) tr.
Proof.
  intros Hx. pose proof Hx as (Hb & _ & _). unfold io_apic_gsi_count, io_apic_read. rewrite bind_assoc, (bind_Ret _ _ _ _ _ (io_base_eq x s Hx)).
  set (tr1 := immio s ++ [MWrite (io_base x) 1]). destruct (io_select (immio s) (io_base x) 1 Hb) as [Hsel Hreg].
  eexists (tr1 ++ [MRead (io_base x + 16) (u32 (mdev tr1 (io_base x + 16)))]). split.
  - cbn. change (u32 1) with 1. fold tr1. rewrite (io_read tr1 _ Hb). unfold tr1. rewrite Hsel, Hreg, (io_version _ _ Hb). unfold ret. f_equal; done.
  - intros b r Hb'. rewrite (same_read tr1 _ _ b r Hb'). by apply same_select.
Qed.

Definition mask_word (v : Z) : Z := Z.land v 0xFFFFAFFF.

Lemma io_write_ok x reg v (s : st) :
  io_ok x -> 16 <= reg <= 16 + 2 * io_max (io_base x) + 1 -> 0 <= v < 2 ^ 32 ->
  exists tr, io_apic_write fw (io_at x) reg v s = Ret tt (set_immio tr s) /\
    forall b r, b ∈ bases -> mask_word (io_reg tr b r) = mask_word (if decide (b = io_base x /\ r = reg) then v else io_reg (immio s) b r).
Proof.
  intros Hx Hreg Hv. pose proof Hx as (Hb & _ & _). pose proof (io_max_range (io_base x)). unfold io_apic_write. rewrite (bind_Ret _ _ _ _ _ (io_base_eq x s Hx)).
  set (tr1 := immio s ++ [MWrite (io_base x) reg]). destruct (io_select (immio s) (io_base x) reg Hb) as [Hsel Hsame].
  exists (tr1 ++ [MWrite (io_base x + 16) v]). split; [unfold at_mmio, zoom, mwrite, bind; cbn; by rewrite !wrap_small by lia|].
  intros b r Hb'. destruct (io_write tr1 (io_base x) v Hb) as [_ Hw]; [unfold tr1; by rewrite Hsel|]. destruct (decide (b = io_base x)) as [->|Hne].
  - unfold mask_word. rewrite Hw. unfold tr1. rewrite Hsel, Hsame. destruct (Z.eqb_spec r reg) as [->|Hr]; [by rewrite decide_True|]. rewrite decide_False; [done|]. by intros [_ ?].
  - rewrite decide_False by (by intros [? _]). f_equal. rewrite <- (same_select (immio s) (io_base x) reg Hb b r Hb'). fold tr1. apply io_quiet; [done|].
    intros w. split; [intros [= E _]; by destruct (windows b (io_base x) Hb' Hb)|intros [= E _]; apply Hne; lia].
Qed.

(** ** Which APIC serves a global interrupt

    The version register gives the index of the last redirection entry, so an APIC
    serves one line more than that number, from its base on. *)
Definition lines (x : io_record) : Z := io_max (io_base x) + 1.
Definition serves (gsi : Z) (x : io_record) : bool := (io_gsib x <=? gsi) && (gsi <? io_gsib x + lines x).
Definition last_line (x : io_record) : Z := io_gsib x + lines x - 1.
(** An override record of the MADT. *)
Record iso_record : Type := Iso { iso_at : Z; iso_irq : Z; iso_gsi : Z; iso_flags : Z }.
Definition iso_ok (x : iso_record) : Prop :=
  le 1 (iso_at x + off_iso_irq_source) = Some (iso_irq x) /\ le 4 (iso_at x + off_iso_gsi) = Some (iso_gsi x) /\ le 2 (iso_at x + off_iso_flags) = Some (iso_flags x).

(** What [madt_init] left: the records [apics] and [isos]. *)
Definition topology (n : Z) (R : gmap Z (list Z)) (x0 x4 : list Z) (apics : list io_record) (isos : list iso_record) (s : st) : Prop :=
  listed n R x0 (io_at <$> apics) (iso_at <$> isos) x4 (itab s) /\ Forall io_ok apics /\ Forall iso_ok isos.

Lemma vec_own_length v xs B : vec_own v xs B -> v_length v = Z.of_nat (length xs).
Proof. by intros [(-> & -> & _)|(ws & _ & _ & El & _)]. Qed.

Lemma io_item n R x0 x1 x2 x4 i (t : acpi H) : listed n R x0 x1 x2 x4 t -> 0 <= i ->
  VECTOR_ITEM madt_io_apics aheap set_aheap i t = Ret (default VECTOR_INVALID_INDEX (x1 !! Z.to_nat i)) t /\ v_length (madt_io_apics t) = Z.of_nat (length x1).
Proof.
  intros (_ & m & B0 & B1 & B2 & B4 & _ & Hr & D01 & _ & _ & _ & _ & _ & _ & _ & _ & _ & _ & V1 & _) Hi. rewrite (union_swap B0 B1) in Hr by done.
  split; [|by eapply vec_own_length]. eapply (vector_item_ok madt_io_apics aheap set_aheap); [by intros []|reflexivity|reflexivity|exact Hr|exact V1|done].
Qed.

Lemma iso_item n R x0 x1 x2 x4 i (t : acpi H) : listed n R x0 x1 x2 x4 t -> 0 <= i ->
  VECTOR_ITEM madt_isos aheap set_aheap i t = Ret (default VECTOR_INVALID_INDEX (x2 !! Z.to_nat i)) t /\ v_length (madt_isos t) = Z.of_nat (length x2).
Proof.
  intros (_ & m & B0 & B1 & B2 & B4 & _ & Hr & _ & D02 & _ & _ & D12 & _ & _ & _ & _ & _ & _ & _ & V2 & _) Hi. rewrite (union_swap B1 B2), (union_swap B0 B2) in Hr by done.
  split; [|by eapply vec_own_length]. eapply (vector_item_ok madt_isos aheap set_aheap); [by intros []|reflexivity|reflexivity|exact Hr|exact V2|done].
Qed.

Lemma same_regs_trans tr1 tr2 tr3 : same_regs tr1 tr2 -> same_regs tr2 tr3 -> same_regs tr1 tr3.
Proof. intros H1 H2 b r Hb. by rewrite (H2 b r Hb), (H1 b r Hb). Qed.

Lemma from_gsi_loop_ok n R x0 x4 apics isos gsi x :
  forall rest pre (s : st), apics = pre ++ rest -> topology n R x0 x4 apics isos s -> List.find (serves gsi) rest = Some x -> gsi <> last_line x ->
  exists tr, io_apic_from_gsi_loop clock depth fw mdev (length rest) (Z.of_nat (length pre)) gsi s = Ret (io_at x) (set_immio tr s) /\ same_regs (immio s) tr.
Proof.
  induction rest as [|y rest IH]; intros pre s Hall (Hl & Hio & Hiso) Hf Hlast; [done|]. cbn [length io_apic_from_gsi_loop List.find] in *.
  destruct (io_item n R x0 _ _ x4 (Z.of_nat (length pre)) _ Hl ltac:(lia)) as [Ei _]. rewrite Nat2Z.id, Hall, list_lookup_fmap, list_lookup_middle in Ei by done.
  rewrite (bind_Ret _ _ _ _ _ (at_tab_eq _ _ s Ei)). cbn [fmap option_fmap option_map default]. assert (Hy : io_ok y) by (rewrite Hall in Hio; apply Forall_app in Hio as [_ Hio]; by apply Forall_cons in Hio as [? _]).
  rewrite (bind_Ret _ _ _ _ _ (io_gsib_eq y s Hy)). unfold serves, lines in Hf. replace (Z.of_nat (length pre) + 1) with (Z.of_nat (length (pre ++ [y]))) by (rewrite length_app; cbn; lia).
  assert (Hnext : apics = (pre ++ [y]) ++ rest) by (by rewrite <- app_assoc).
  destruct (Z.geb_spec gsi (io_gsib y)) as [Hge|Hlt].
  - rewrite (proj2 (Z.leb_le _ _)) in Hf by lia. cbn [andb] in Hf. destruct (io_count_ok y s Hy) as (tr & E & Hsame). rewrite (bind_Ret _ _ _ _ _ E).
    destruct (Z.ltb_spec gsi (io_gsib y + (io_max (io_base y) + 1))) as [Hin|Hout].
    { injection Hf as <-. unfold last_line, lines in Hlast. rewrite (proj2 (Z.ltb_lt _ _)) by lia. by exists tr. }
    rewrite (proj2 (Z.ltb_ge _ _)) by lia.
    destruct (IH (pre ++ [y]) (set_immio tr s) Hnext) as (tr2 & E2 & Hs2); [by split_and!|done|done|]. exists tr2. split; [exact E2|]. by eapply same_regs_trans.
  - rewrite (proj2 (Z.leb_gt _ _)) in Hf by lia. cbn [andb] in Hf. apply IH; [done|by split_and!|done|done].
Qed.

(** One entry written, everything else kept. *)
Definition routed (tr tr' : mmio) (base j : Z) (r : route) : Prop :=
  forall b q, b ∈ bases -> mask_word (io_reg tr' b q) = mask_word (
    if decide (b = base /\ q = 16 + 2 * j) then r_vector r + Z.b2z (r_low_active r) * 2 ^ 13 + Z.b2z (r_level r) * 2 ^ 15 + Z.b2z (r_masked r) * 2 ^ 16
    else if decide (b = base /\ q = 16 + 2 * j + 1) then r_dest r * 2 ^ 24 else io_reg tr b q).

Lemma set_gsi_ok n R x0 x4 apics isos id vector gsi flags status x (s : st) :
  topology n R x0 x4 apics isos s -> List.find (serves gsi) apics = Some x -> gsi <> last_line x -> 0 <= vector < 256 -> 0 <= id < 256 -> 0 <= gsi < 256 -> 0 <= io_gsib x ->
  exists tr, io_apic_set_gsi_redirect clock depth fw mdev id vector gsi flags status s = Ret tt (set_immio tr s) /\
    routed (immio s) tr (io_base x) (gsi - io_gsib x) (Route vector (is_set flags 2) (is_set flags 8) (negb status) id).
Proof.
  intros Ht Hf Hlast Hv Hi Hg Hgb. pose proof Ht as (Hl & Hio & _). apply List.find_some in Hf as Hin. destruct Hin as [Hin Hserve].
  assert (Hx : io_ok x) by (rewrite Forall_forall in Hio; apply Hio; by apply list_elem_of_In).
  unfold serves, lines in Hserve. apply andb_true_iff in Hserve as [Hge%Z.leb_le Hlt%Z.ltb_lt]. pose proof (io_max_range (io_base x)) as Hmax.
  unfold io_apic_set_gsi_redirect, io_apic_from_gsi. destruct (io_item n R x0 _ _ x4 0 _ Hl ltac:(done)) as [_ El]. rewrite bind_assoc, bind_get, El, Nat2Z.id, length_fmap.
  destruct (from_gsi_loop_ok n R x0 x4 apics isos gsi x apics [] s eq_refl Ht Hf Hlast) as (tr & E & Hsame). change (Z.of_nat (length [])) with 0 in E. rewrite (bind_Ret _ _ _ _ _ E).
  cbv zeta. rewrite (redirection_fields id vector flags status Hv Hi). set (r := Route _ _ _ _ _). set (s1 := set_immio tr s).
  rewrite (bind_Ret _ _ _ _ _ (io_gsib_eq x s1 Hx)). destruct (entry_words r Hv Hi) as [Elo Ehi]. rewrite Elo, Ehi. set (j := gsi - io_gsib x).
  rewrite (wrap_small 32 (j * 2 + 16)), (wrap_small 32 (j * 2 + 16 + 1)) by (unfold j; lia).
  destruct (io_write_ok x (j * 2 + 16) (u32 (entry_value r)) s1 Hx) as (tr2 & E2 & Hw2); [unfold j; lia|by apply wrap_range|]. rewrite Elo in E2, Hw2.
  rewrite (bind_Ret _ _ _ _ _ E2). set (s2 := set_immio tr2 s1).
  destruct (io_write_ok x (j * 2 + 16 + 1) (u32 (Z.shiftr (entry_value r) 32)) s2 Hx) as (tr3 & E3 & Hw3); [unfold j; lia|by apply wrap_range|]. rewrite Ehi in E3, Hw3.
  rewrite E3. exists tr3. split; [done|]. intros b q Hb. rewrite (Hw3 b q Hb). destruct (decide (b = io_base x /\ q = j * 2 + 16 + 1)) as [[-> ->]|Hn3].
  - rewrite decide_False by lia. rewrite decide_True by lia. done.
  - change (immio s2) with tr2. rewrite (Hw2 b q Hb). destruct (decide (b = io_base x /\ q = j * 2 + 16)) as [[-> ->]|Hn2].
    + rewrite decide_True by lia. done.
    + rewrite !decide_False by (intros [-> ->]; (apply Hn2 || apply Hn3); lia). f_equal. by apply Hsame.
Qed.
(** Where line [irq] goes: to the global interrupt of the first override that names
    it, or to the one of its own number. *)
Definition line_target (irq : Z) (isos : list iso_record) : Z * Z :=
  match List.find (fun x => iso_irq x =? irq) isos with Some x => (iso_gsi x, iso_flags x) | None => (irq, 0) end.

Lemma iso_loop_ok n R x0 x4 apics isos id vector irq status :
  forall rest pre (s : st), isos = pre ++ rest -> topology n R x0 x4 apics isos s ->
  (line_target irq rest).1 < 256 -> 0 <= irq < 256 ->
  iso_loop clock depth fw mdev (length rest) (Z.of_nat (length pre)) id vector irq status s =
  io_apic_set_gsi_redirect clock depth fw mdev id vector (line_target irq rest).1 (line_target irq rest).2 status s.
Proof.
  induction rest as [|y rest IH]; intros pre s Hall Ht Hlt Hirq0; [done|]. pose proof Ht as (Hl & _ & Hiso). cbn [length iso_loop].
  destruct (iso_item n R x0 _ _ x4 (Z.of_nat (length pre)) _ Hl ltac:(lia)) as [Ei _]. rewrite Nat2Z.id, Hall, list_lookup_fmap, list_lookup_middle in Ei by done.
  rewrite (bind_Ret _ _ _ _ _ (at_tab_eq _ _ s Ei)). cbn [fmap option_fmap option_map default].
  assert (Hy : iso_ok y) by (rewrite Hall in Hiso; apply Forall_app in Hiso as [_ Hiso]; by apply Forall_cons in Hiso as [? _]). destruct Hy as (Hirq & Hgsi & Hfl).
  rewrite (bind_Ret _ _ _ _ _ (at_tab_eq _ _ s (fw8_eq fw _ _ (itab s) Hirq))). unfold line_target in *. cbn [List.find] in *.
  destruct (Z.eqb_spec (iso_irq y) irq) as [_|Hne]; cbn [negb].
  - cbn [fst] in Hlt. pose proof (fw_le_nonneg _ _ _ _ Hgsi).
    rewrite (bind_Ret _ _ _ _ _ (at_tab_eq _ _ s (fw32_eq fw _ _ (itab s) Hgsi))), (bind_Ret _ _ _ _ _ (at_tab_eq _ _ s (fw16_eq fw _ _ (itab s) Hfl))).
    by rewrite (wrap_small 8 (iso_gsi y)) by lia.
  - replace (Z.of_nat (length pre) + 1) with (Z.of_nat (length (pre ++ [y]))) by (rewrite length_app; cbn; lia). apply IH; [by rewrite <- app_assoc|done|done|done].
Qed.

(** C39. Routing a legacy interrupt line: with the topology discovered, let [gsi] be
    the line's target (that of the first override that names the line, else the line
    itself) and [x] the first I/O APIC that serves it, counting all its redirection
    entries.  If the target is below 256 (the driver's parameter is a byte) and is not
    the last line of [x] (which the driver does not find), then
    [io_apic_set_irq_redirect] writes exactly the redirection entry of that target
    (vector, polarity, trigger mode, mask and destination as asked) and leaves every
    other register of every I/O APIC alone. *)
Theorem io_apic_set_irq_redirect_correct n R x0 x4 apics isos id vector irq status x (s : st) :
  topology n R x0 x4 apics isos s -> 0 <= vector < 256 -> 0 <= id < 256 -> 0 <= irq < 256 ->
  let (gsi, flags) := line_target irq isos in
  List.find (serves gsi) apics = Some x -> gsi < 256 -> gsi <> last_line x ->
  exists tr, io_apic_set_irq_redirect clock depth fw mdev id vector irq status s = Ret tt (set_immio tr s) /\
    routed (immio s) tr (io_base x) (gsi - io_gsib x) (Route vector (is_set flags 2) (is_set flags 8) (negb status) id).
Proof.
  intros Ht Hv Hi Hq. destruct (line_target irq isos) as [gsi flags] eqn:El. intros Hf Hg Hlast. pose proof Ht as (Hl & Hio & Hiso).
  assert (Hx : io_ok x) by (apply List.find_some in Hf as [Hin _]; rewrite Forall_forall in Hio; by apply Hio, list_elem_of_In).
  destruct Hx as (_ & _ & Hgb). apply fw_le_nonneg in Hgb.
  assert (Hg0 : 0 <= gsi).
  { apply List.find_some in Hf as [_ [Hle%Z.leb_le _]%andb_true_iff]. lia. }
  unfold io_apic_set_irq_redirect. rewrite bind_get. destruct (iso_item n R x0 _ _ x4 0 _ Hl ltac:(done)) as [_ ->]. rewrite Nat2Z.id, length_fmap.
  rewrite (iso_loop_ok n R x0 x4 apics isos id vector irq status isos [] s eq_refl Ht ltac:(by rewrite El) Hq : iso_loop _ _ _ _ _ 0 _ _ _ _ _ = _), El.
  by eapply set_gsi_ok.
Qed.
(** The last entry of an I/O APIC is out of reach: the version register holds the
    index of the last entry, which the driver takes for their number, and halts. *)
Theorem last_entry_halts n R x0 x4 x isos (s : st) :
  (0 < depth)%nat -> topology n R x0 x4 [x] isos s -> let gsi := last_line x in
  exists s', io_apic_from_gsi clock depth fw mdev gsi s = Hang s'.
Proof.
  intros Hd (Hl & Hio & _) gsi. assert (Hgsi : gsi = io_gsib x + io_max (io_base x)) by (unfold gsi, last_line, lines; lia). clearbody gsi. apply Forall_cons in Hio as [Hx _]. pose proof (io_max_range (io_base x)). destruct (io_item n R x0 _ _ x4 0 _ Hl ltac:(done)) as [Ei El].
  unfold io_apic_from_gsi. rewrite bind_get, El. change (Z.to_nat (Z.of_nat (length (io_at <$> [x])))) with 1%nat. cbn [io_apic_from_gsi_loop].
  rewrite (bind_Ret _ _ _ _ _ (at_tab_eq _ _ s Ei)). cbn [fmap list_fmap lookup list_lookup default]. rewrite (bind_Ret _ _ _ _ _ (io_gsib_eq x s Hx)).
  rewrite (proj2 (Z.geb_le _ _)) by lia. destruct (io_count_ok x s Hx) as (tr & E & _). rewrite (bind_Ret _ _ _ _ _ E), (proj2 (Z.ltb_ge _ _)) by lia.
  assert (Hsay : forall format va (s : st), integral va -> plain format va = true -> live (acon (itab s)) ->
    exists t, isay clock depth format va s = Ret tt (set_itab t s) /\ live (acon t)).
  { intros format va s0 Hi Hp Hlv. destruct (asay_live clock depth Hd format va (itab s0) Hi Hp Hlv) as (k & Ek & Hk). exists (set_acon k (itab s0)).
    split; [unfold isay, at_tab, zoom; by rewrite Ek|done]. }
  set (s1 := set_immio tr s). pose proof (proj1 Hl : live (acon (itab s1))) as Hl1. set (bar := [Str (cstr "!!!!!!!!!!!!!!!!!!KERNEL PANIC!!!!!!!!!!!!!!!")]).
  destruct (Hsay (chars "%s" ++ [10; 0]) bar s1) as (t1 & E1 & Hl2); [by repeat constructor|done|done|]. rewrite (bind_Ret _ _ _ _ _ E1).
  destruct (Hsay (chars "Cannot determine IO APIC from GSI %lu" ++ [10; 0]) [Word gsi] (set_itab t1 s1)) as (t2 & E2 & Hl3); [by repeat constructor|done|done|]. rewrite (bind_Ret _ _ _ _ _ E2).
  destruct (Hsay (chars "%s" ++ [10; 0]) bar (set_itab t2 (set_itab t1 s1))) as (t3 & E3 & _); [by repeat constructor|done|done|]. rewrite (bind_Ret _ _ _ _ _ E3). by eexists.
Qed.
End ioapic.

(** * The local APIC timer cannot be used

    [this_cpu] has no structure to return: it panics with interrupts on and gives
    NULL with interrupts off. *)
Definition never_returns {S A} (o : outcome S A) : Prop := match o with Ret _ _ => False | _ => True end.

Lemma never_then {S A B} (c : K S A) (k : A -> K S B) s : (forall a s, never_returns (k a s)) -> never_returns (bind c k s).
Proof. intros Hk. unfold bind. destruct (c s); [apply Hk|done..]. Qed.

Section lapic.
Context {H : Type} `{HH : KernelHeap H}.
Variables (clock : list effect -> Z) (depth : nat) (dev : bus -> Z -> Z) (mdev : mmio -> Z -> Z) (isr_stub_table : list Z) (rdmsr : Z -> Z) (handler : Z) (fuel : nat).

Lemma cpu_never {A B} off (k : A -> K (lapic H) B) s : never_returns (bind this_cpu (fun cpu => bind (cpu_field cpu off) k) s).
Proof. apply never_then. by intros cpu s1. Qed.

Lemma calibrate_never (s : lapic H) : never_returns (lapic_timer_calibrate dev mdev fuel s).
Proof. unfold lapic_timer_calibrate. do 9 (apply never_then; intros ? ?). apply cpu_never. Qed.

(** Whatever the hardware answers, neither [lapic_init], nor starting the timer, nor
    its interrupt handler ever returns. *)
Theorem lapic_timer_unusable (s : lapic H) :
  never_returns (lapic_init clock depth dev mdev isr_stub_table rdmsr handler fuel s) /\
  (forall us function, never_returns (lapic_timer_oneshot us function s)) /\
  (forall call, never_returns (lapic_timer_handler call s)).
Proof.
  split_and!.
  - unfold lapic_init. do 12 (apply never_then; intros ? ?). apply calibrate_never.
  - intros us function. unfold lapic_timer_oneshot. do 2 (apply never_then; intros ? ?). apply cpu_never.
  - intros call. unfold lapic_timer_handler. apply never_then. intros ? ?. apply cpu_never.
Qed.
End lapic.

(** * A concrete I/O APIC with 24 entries *)
Definition sim_base : Z := HHM + 0xFEC00000.
Definition sim_step (st : Z * (Z -> Z)) (e : mevent) : Z * (Z -> Z) :=
  match e with
  | MRead _ _ => st
  | MWrite a v =>
      if a =? sim_base then (v, st.2)
      else if (a =? sim_base + 16) && (16 <=? st.1) && (st.1 <=? 63) then (st.1, fun r => if r =? st.1 then u32 v else st.2 r)
      else st
  end.
Definition sim_io (tr : mmio) : Z * (Z -> Z) := foldl sim_step (0, fun r => if r =? 1 then 0x170011 else 0) tr.
Definition sim_mdev (tr : mmio) (a : Z) : Z := if a =? sim_base + 16 then (sim_io tr).2 (sim_io tr).1 else 0.

Lemma sim_regs tr : (sim_io tr).2 1 = 0x170011 /\ forall r, 0 <= (sim_io tr).2 r < 2 ^ 32.
Proof.
  unfold sim_io. induction tr as [|e tr [IH1 IH2]] using rev_ind; [split; [done|]; intros r; cbn; destruct (r =? 1); lia|]. rewrite foldl_app. cbn [foldl].
  set (x := foldl _ _ tr) in *. destruct e as [a v|a v]; [done|]. cbn [sim_step]. destruct (a =? sim_base); [done|].
  destruct ((a =? sim_base + 16) && (16 <=? x.1)) eqn:E1; cbn [andb]; [|done]. apply andb_true_iff in E1 as [_ E1%Z.leb_le]. destruct (x.1 <=? 63); [|done]. cbn [snd]. split.
  - rewrite (proj2 (Z.eqb_neq 1 _)) by lia. done.
  - intros r. destruct (r =? x.1); [by apply wrap_range|done].
Qed.

#[export] Program Instance sim_ioapic : IoApic sim_mdev [sim_base] := {| io_sel tr _ := (sim_io tr).1; io_reg tr _ := (sim_io tr).2; io_max _ := 23 |}.
Next Obligation. intros; lia. Qed.
Next Obligation. intros tr base ->%list_elem_of_singleton. unfold sim_mdev. rewrite Z.eqb_refl. apply wrap_small, sim_regs. Qed.
Next Obligation. intros tr base _. cbn. by rewrite (proj1 (sim_regs tr)). Qed.
Next Obligation.
  intros tr base e ->%list_elem_of_singleton He. cbn. unfold sim_io. rewrite !foldl_app. cbn [foldl]. destruct e as [a v|a v]; [done|]. destruct (He v) as [H1 H2]. cbn [sim_step].
  rewrite (proj2 (Z.eqb_neq a sim_base)) by congruence. rewrite (proj2 (Z.eqb_neq a (sim_base + 16))) by congruence. done.
Qed.
Next Obligation. intros tr base v ->%list_elem_of_singleton. cbn. unfold sim_io. rewrite !foldl_app. cbn [foldl sim_step]. by rewrite Z.eqb_refl. Qed.
Next Obligation.
  intros tr base v ->%list_elem_of_singleton Hr. cbn in *. unfold sim_io in *. rewrite !foldl_app. cbn [foldl sim_step]. set (x := foldl _ _ tr) in *.
  rewrite (proj2 (Z.eqb_neq _ sim_base)), Z.eqb_refl, (proj2 (Z.leb_le _ _)), (proj2 (Z.leb_le _ _)) by lia. cbn [andb fst snd]. split; [done|]. intros r. destruct (r =? x.1); [|done].
  apply Z.bits_inj'. intros k Hk. rewrite !Z.land_spec, wrap_testbit by lia. destruct (Z.ltb_spec k 32); [done|]. cbn [andb].
  rewrite (Z.bits_above_log2 0xFFFFAFFF k); [by rewrite andb_false_r|lia|]. change (Z.log2 0xFFFFAFFF) with 31. lia.
Qed.

(** The machine of [pc_fw] after discovery. *)
Lemma pc_topology : exists t, topology pc_fw [sim_base] 2972 ∅ [HHM + 0x4000 + 44] [HHM + 0x4000 + 74] [Io (HHM + 0x4000 + 52) sim_base 0] [Iso (HHM + 0x4000 + 64) 0 2 0] (IoApics t []).
Proof.
  assert (Hw : exists t, all_listed (4000 - 4 * 257) ∅ (HHM + 0x4000) pc_records t).
  { set (s0 := set_rsdp (HHM + 0x1000) (set_rsdt (HHM + 0x2000) pc_boot)).
    enough (Hw : wp (madt_init (fun _ => 0) 1 pc_fw (fun _ => 0) 4 s0) (fun _ t => all_listed (4000 - 4 * 257) ∅ (HHM + 0x4000) pc_records t)).
    { revert Hw. generalize (madt_init (fun _ => 0) 1 pc_fw (fun _ => 0) 4 s0). intros [? t| | |] Hw; [by exists t|done..]. }
    apply (madt_init_ok pc_fw (fun _ => 0) 1 ltac:(lia) (fun _ => 0) 257 vector_cost ltac:(lia) 4 false [0x3000; 0x4000] pc_sig 0x4000 [] pc_records 4000 ∅ s0).
    - exists 0. split; [vm_compute; reflexivity|reflexivity].
    - exact pc_root.
    - vm_compute. reflexivity.
    - vm_compute. discriminate.
    - exact pc_madt.
    - by split_and!.
    - exact InterruptsSpec.con0_live.
    - exact heap0_budget.
    - cbn. lia.
    - cbn. lia. }
  destruct Hw as [t Ht]. exists t. split; [exact Ht|]. split; (apply Forall_cons; split; [|constructor]).
  - split; [by apply list_elem_of_singleton|]. split; [exists 0xFEC00000; split; vm_compute; reflexivity|vm_compute; reflexivity].
  - split_and!; vm_compute; reflexivity.
Qed.

Lemma io_apic_set_irq_redirect_correct_witness :
  exists (s : ioapic (kheap tb)) tr, io_apic_set_irq_redirect (fun _ => 0) 1 pc_fw sim_mdev 0 0x20 0 true s = Ret tt (set_immio tr s) /\
    mask_word ((sim_io tr).2 20) = 0x20 /\ mask_word ((sim_io tr).2 21) = 0.
Proof.
  destruct pc_topology as [t Ht].
  destruct (io_apic_set_irq_redirect_correct (fun _ => 0) 1 pc_fw sim_mdev [sim_base] ltac:(intros b b' ->%list_elem_of_singleton ->%list_elem_of_singleton; lia) 2972 ∅ _ _ _ _ 0 0x20 0 true
    (Io (HHM + 0x4000 + 52) sim_base 0) (IoApics t []) Ht) as (tr & E & Hr).
  - lia.
  - lia.
  - lia.
  - reflexivity.
  - reflexivity.
  - vm_compute. discriminate.
  - exists (IoApics t []), tr. split; [exact E|]. split; [exact (Hr sim_base 20 (list_elem_of_here _ _))|exact (Hr sim_base 21 (list_elem_of_here _ _))].
Defined.
End ApicSpec.
