(* ===== verification/Bringup.v ===== *)
(** Bringing memory up: [memory_bringup] of [src/src/kernel.c] and the call of
    [kmalloc_init] that follows it in [_start], over the early allocator, the page
    tables, the frame allocator, the heap and the console. *)
From Stdlib Require Import Ascii.
From S2P Require Import Prelude Limine EarlyAlloc NeoFrame PageTree Paging Kmalloc HeapPaging PagingBootstrap CString Printf Putchar.

Module Bringup.
Import EarlyAlloc PagingBootstrap HeapPaging.
Import NeoFrame (pmm, mm, Mm, mm_early, mm_pmm, frame_init, frame_alloc, kernel_image).

(** The values of [g_boot_phys_page] ([frame_supplier.c]). *)
Inductive phys_page_supplier : Type :=
| NoSupplier
| supply_from_early
| supply_from_frame.

(** The statics of the components, and the words of the heap arena. *)
Record boot : Type := Boot {
  bt_pb : pb;
  bt_pmm : pmm;
  bt_supplier : phys_page_supplier;
  bt_con : con;
  bt_heap_curr : Z;
  bt_heap_lock : Z;
  bt_free_list : Z;
  bt_kmem : gmap Z Z;
}.
Definition set_bt_pb (p : pb) (s : boot) : boot :=
  Boot p (bt_pmm s) (bt_supplier s) (bt_con s) (bt_heap_curr s) (bt_heap_lock s) (bt_free_list s) (bt_kmem s).
Definition set_bt_pmm (p : pmm) (s : boot) : boot :=
  Boot (bt_pb s) p (bt_supplier s) (bt_con s) (bt_heap_curr s) (bt_heap_lock s) (bt_free_list s) (bt_kmem s).
Definition set_supplier (f : phys_page_supplier) (s : boot) : boot :=
  Boot (bt_pb s) (bt_pmm s) f (bt_con s) (bt_heap_curr s) (bt_heap_lock s) (bt_free_list s) (bt_kmem s).
Definition set_bt_con (c : con) (s : boot) : boot :=
  Boot (bt_pb s) (bt_pmm s) (bt_supplier s) c (bt_heap_curr s) (bt_heap_lock s) (bt_free_list s) (bt_kmem s).

(** The console, which asks whether the kernel's own page tables are active. *)
Definition console_of (s : boot) : con :=
  let c := bt_con s in
  Con (kerror_mode c) (bootspace c) (timestamp c) (term_context c) (g_pml4_phys (bt_pb s)) (cr3 (bt_pb s)) (logbuf c) (loglen c) (effects c).

(** The two allocators as [frame_init] sees them. *)
Definition frame_statics (s : boot) : mm := Mm (pt_early (bt_pb s)) (bt_pmm s).
Definition set_frame_statics (m : mm) (s : boot) : boot := set_bt_pmm (mm_pmm m) (set_bt_pb (PagingBootstrap.set_early (mm_early m) (bt_pb s)) s).

(** The heap on the page tables CR3 points to and the frames. *)
Definition kernel_heap (s : boot) : kheap kmm :=
  KHeap (bt_heap_curr s) (bt_heap_lock s) (bt_free_list s) (bt_kmem s) (KMM (Paging.PGS (pt_mem (bt_pb s)) (bt_pmm s)) (cr3 (bt_pb s))).
Definition set_kernel_heap (h : kheap kmm) (s : boot) : boot :=
  let p := bt_pb s in
  Boot (PB (Paging.pmem (km_pg (kback h))) (pt_early p) (g_pml4_phys p) (g_pml4_virt p) (g_hhdm p) (km_cr3 (kback h)) (console p))
    (Paging.psrc (km_pg (kback h))) (bt_supplier s) (bt_con s) (g_heap_curr h) (g_heap_lock h) (g_free_list h) (kmem h).

Definition in_pb {A} : K pb A -> K boot A := zoom bt_pb set_bt_pb.
Definition in_heap {A} : K (kheap kmm) A -> K boot A := zoom kernel_heap set_kernel_heap.

Section boot.
Variable clock : list effect -> Z.
Variable depth : nat.

Definition bsay (format : list Z) (va : list va_arg) : K boot unit := zoom console_of set_bt_con (printf_console (_putchar clock depth) format va).
(** [printf_("%s\n", msg)] *)
Definition bline (msg : string) : K boot unit := bsay (chars "%s" ++ [10; 0]) [Str (cstr msg)].

(** A call through [g_boot_phys_page]. *)
Definition g_boot_phys_page : K boot Z :=
  let! s := get in
  match bt_supplier s with
  | NoSupplier => fault 0
  | supply_from_early => in_pb (zoom pt_early PagingBootstrap.set_early early_alloc_page)
  | supply_from_frame => zoom bt_pmm set_bt_pmm frame_alloc
  end.

Definition limine_debug (lim : limine) : K boot unit :=
  do! match hhdm_request lim with
      | None => bsay (chars "[LIMINE] HHDM request: NULL" ++ [10; 0]) []
      | Some offset => bsay (chars "[LIMINE] HHDM offset: 0x%llx" ++ [10; 0]) [Word offset]
      end in
  do! match Kaddress_req lim with
      | None => bsay (chars "[LIMINE] Kernel address request: NULL" ++ [10; 0]) []
      | Some ka => bsay (chars "[LIMINE] Kernel phys base: 0x%llx virt base: 0x%llx" ++ [10; 0]) [Word (physical_base ka); Word (virtual_base ka)]
      end in
  match memmap_req lim with
  | None => bsay (chars "[LIMINE] Memory map request: NULL" ++ [10; 0]) []
  | Some es => bsay (chars "[LIMINE] Memmap entries: %llu" ++ [10; 0]) [Word (Z.of_nat (length es))]
  end.

Definition memory_bringup (env : boot_env) (img : kernel_image) : K boot unit :=
  do! bline "Bootstrapping Memory... calling bootstrap alloc... " in
  do! in_pb (zoom pt_early PagingBootstrap.set_early (early_init (be_limine env))) in
  do! bline "Bootstrapping Memory... getting frames... " in
  do! modify (set_supplier supply_from_early) in
  do! bline "Bootstrapping Memory... building PML4 -> PDPT -> PD -> PT... " in
  do! limine_debug (be_limine env) in
  do! in_pb (paging_bootstrap env) in
  let! s := get in
  do! bsay (chars "CR3 after bootstrap: 0x%llx" ++ [10; 0]) [Word (cr3 (bt_pb s))] in
  do! zoom frame_statics set_frame_statics (frame_init (be_limine env) img) in
  modify (set_supplier supply_from_frame).

(** [memory_bringup(); kmalloc_init();] of [_start]. *)
Definition start_memory (env : boot_env) (img : kernel_image) : K boot unit :=
  do! memory_bringup env img in
  in_heap kmalloc_init.
End boot.
End Bringup.
