(* ===== verification/BringupSpec.v ===== *)
(** Memory comes up: on a sane boot environment [memory_bringup] and
    [kmalloc_init] take the kernel from the boot loader's tables to an empty,
    working heap on its own page tables and its own frame allocator. *)
From Stdlib Require Import Ascii.
From S2P Require Import Prelude Limine EarlyAlloc NeoFrame NeoFrameInit PageTree Paging Kmalloc KmallocInv KmallocSpec HeapPaging PagingBootstrap PagingBootstrapSpec PagingSwitch CString Printf PrintfSpec Putchar PutcharSpec PrintTotal Bringup.

Module BringupSpec.
Import EarlyAlloc PageTree PagingBootstrap PagingBootstrapSpec PagingSwitch HeapPaging Bringup PrintfSpec PrintTotal KmallocSpec.
Import NeoFrame (pmm, mm_pmm, mm_early, Mm, kernel_image, kernel_start, kernel_end, frame_init, bit, nclear, pmm_wf, wf_core, core_free_count, frame_free_at, g_frame_count, g_free_count, g_alloc_bm, g_memlock).
Import NeoFrameInit.
Local Notation HH := Paging.HIGHER_HALF_MEMORY_OFFSET.

(** ** Counting free frames *)
Lemma nclear_run bm lo k n : 0 <= lo -> lo + k <= Z.of_nat n -> 0 <= k -> (forall i, lo <= i < lo + k -> bit bm i = false) -> k <= nclear bm n.
Proof.
  intros Hlo. revert k. induction n as [|n IH]; intros k Hk Hk0 Hb; simpl; [lia|]. pose proof (NeoFrame.nclear_bounds bm n).
  destruct (decide (lo + k <= Z.of_nat n)) as [Hle|Hgt]; [specialize (IH k Hle Hk0 Hb); case_match; lia|].
  destruct (decide (k = 0)); [case_match; lia|]. rewrite (Hb (Z.of_nat n)) by lia. specialize (IH (k - 1) ltac:(lia) ltac:(lia)).
  assert (k - 1 <= nclear bm n) by (apply IH; intros; apply Hb; lia). lia.
Qed.

(** ** Facts of the memory map *)
Section map.
Context (es : list limine_memmap_entry).
Hypothesis Hmem : forall e, e ∈ es -> 0 <= me_base e /\ 0 <= me_length e /\ me_base e + me_length e <= 2 ^ 44.

Lemma sane_entries : Forall entry_ok es.
Proof. eapply Forall_impl; [by apply sane_mem_ok|]. by intros e [? _]. Qed.

Lemma page0_unusable : (forall e, e ∈ es -> me_type e = LIMINE_MEMMAP_USABLE -> 4096 <= me_base e) -> usable_inside es 0 = false.
Proof.
  intros H0. unfold usable_inside. apply not_true_iff_false. rewrite existsb_exists. intros (e & Hin%list_elem_of_In & He).
  apply andb_true_iff in He as [Ht Hb]. apply Z.eqb_eq in Ht. specialize (H0 e Hin Ht). apply andb_true_iff in Hb as [Hb _]. apply Z.leb_le in Hb. lia.
Qed.

Lemma frames_bound : frames_of es <= 2 ^ 34.
Proof.
  assert (NeoFrame.max_phys_of es <= 2 ^ 44) by by apply highest_end. unfold frames_of. dm_lia.
Qed.
End map.

(** ** The environment *)
Section bringup.
Context (clock : list effect -> Z) (depth : nat).
Hypothesis Hdepth : (0 < depth)%nat.
Context (env : boot_env) (img : kernel_image) (es : list limine_memmap_entry) (ka : limine_kernel_address) (t0 t1 r0 r1 d0 d1 kb ke : Z).
Local Abbreviation modules := (default [] (module_request (be_limine env))).

(** Pages the early allocator hands out: tables and bitmaps. *)
Definition early_pages : Z := boot_tables es t0 d1 + 2 * bitmap_pages (frames_of es).

(** On top of [boot_sane]: frame 0 is not usable, the entry the bump
    allocator works in has pages enough, and 256 frames in a row are left. *)
Record memory_sane : Prop := {
  mo_boot : boot_sane env es ka t0 t1 r0 r1 d0 d1;
  mo_kernel : kb = u64 (physical_base ka + u64 (kernel_start img - virtual_base ka)) /\
    ke = u64 (physical_base ka + u64 (kernel_end img - virtual_base ka)) /\ ke + 4095 < 2 ^ 64;
  mo_modules : Forall file_ok modules;
  mo_page0 : forall e, e ∈ es -> me_type e = LIMINE_MEMMAP_USABLE -> 4096 <= me_base e;
  mo_region : exists e, e ∈ es /\ candidate e;
  mo_early : forall x, preferred es x -> 4096 * early_pages <= region_size x;
  mo_free : exists lo, 0 <= lo /\ lo + 256 <= frames_of es /\ forall i, lo <= i < lo + 256 ->
    usable_inside es i = true /\ overlaps i kb ke = false /\ module_overlaps modules i = false /\
    forall x, preferred es x -> overlaps i (region_start x) (region_start x + 4096 * early_pages) = false;
}.

(** ** Messages *)
Lemma bsay_live format va s : integral va -> plain format va = true -> live (bt_con s) ->
  exists c, bsay clock depth format va s = Ret tt (set_bt_con c s) /\ live c.
Proof.
  intros Hi Hp Hs. destruct (print_live clock depth Hdepth format va (console_of s) Hi Hp Hs) as (c & E & Hc & _).
  exists c. split; [|done]. unfold bsay, zoom. by rewrite E.
Qed.

Lemma bline_live msg s : plain (chars "%s" ++ [10; 0]) [Str (cstr msg)] = true -> live (bt_con s) ->
  exists c, bline clock depth msg s = Ret tt (set_bt_con c s) /\ live c.
Proof. intros Hp Hs. apply bsay_live; [by repeat constructor|done|done]. Qed.

Lemma limine_debug_live lim s : live (bt_con s) -> exists c, limine_debug clock depth lim s = Ret tt (set_bt_con c s) /\ live c.
Proof.
  intros Hs. unfold limine_debug.
  assert (H1 : exists c, match hhdm_request lim with
      | None => bsay clock depth (chars "[LIMINE] HHDM request: NULL" ++ [10; 0]) []
      | Some offset => bsay clock depth (chars "[LIMINE] HHDM offset: 0x%llx" ++ [10; 0]) [Word offset] end s = Ret tt (set_bt_con c s) /\ live c)
    by (destruct (hhdm_request lim); apply bsay_live; first [by repeat constructor|done]).
  destruct H1 as (c1 & E1 & L1). rewrite (bind_Ret _ _ _ _ _ E1).
  assert (H2 : exists c, match Kaddress_req lim with
      | None => bsay clock depth (chars "[LIMINE] Kernel address request: NULL" ++ [10; 0]) []
      | Some ka => bsay clock depth (chars "[LIMINE] Kernel phys base: 0x%llx virt base: 0x%llx" ++ [10; 0]) [Word (physical_base ka); Word (virtual_base ka)]
      end (set_bt_con c1 s) = Ret tt (set_bt_con c s) /\ live c).
  { destruct (Kaddress_req lim); (eapply (bsay_live _ _ (set_bt_con c1 s)); first [by repeat constructor|done]). }
  destruct H2 as (c2 & E2 & L2). rewrite (bind_Ret _ _ _ _ _ E2).
  destruct (memmap_req lim); (eapply (bsay_live _ _ (set_bt_con c2 s)); first [by repeat constructor|done]).
Qed.

(** ** Frames and tables together *)

(** The pages of the tables were handed out by the bump allocator. *)
Lemma tables_taken p root own q e0 : binv p root own -> g_cursor (pt_early p) <= e0 -> g_frame_count q = frames_of es ->
  (forall i, 0 <= i < frames_of es -> bit (g_alloc_bm q) i =
     negb (usable_inside es i) || overlaps i kb ke || module_overlaps modules i || overlaps i (g_base (pt_early p)) e0) ->
  forall f, is_Some (own !! f) -> ~ frame_free_at q f.
Proof.
  intros Hi Hcur Hn Hbit f Hf (_ & Hr & Hb). pose proof (bi_sep _ _ _ Hi f Hf) as Hrange. rewrite Hbit in Hb by dm_lia.
  apply orb_false_iff in Hb as [_ Hb]. revert Hb. unfold overlaps. by rewrite !(proj2 (Z.ltb_lt _ _)) by dm_lia.
Qed.

(** No table of the new address space is a free frame, and the heap window is
    empty: the invariant of the heap's backing. *)
Lemma backing_ready p own root q e0 : address_space es ka t0 t1 r0 r1 d0 d1 p root own -> memory_sane -> pmm_wf q -> g_frame_count q = frames_of es ->
  root mod 4096 = 0 -> 0 < root < 2 ^ 46 -> g_cursor (pt_early p) <= e0 ->
  (forall i, 0 <= i < frames_of es -> bit (g_alloc_bm q) i =
     negb (usable_inside es i) || overlaps i kb ke || module_overlaps modules i || overlaps i (g_base (pt_early p)) e0) ->
  kmm_inv (KMM (Paging.PGS (pt_mem p) q) root).
Proof.
  intros [Hi Hh _ _ _ _ Hun] Hms Hwf Hn Hal Hroot Hcur Hbit. destruct Hms as [Hsane _ _ Hp0 _ _ _].
  pose proof (sn_mem _ _ _ _ _ _ _ _ _ Hsane) as Hmem. pose proof (sn_image _ _ _ _ _ _ _ _ _ Hsane) as Himg.
  set (k := KMM _ _). assert (Hk : km_root k = root).
  { unfold km_root, pml4_of_cr3. cbn. rewrite <- (Z.lor_0_r root) at 1. apply frame_mask_spec; [reflexivity|done|lia|lia]. }
  assert (Hlook : forall va, heap_va va -> km_lookup k va = None).
  { intros va Hva. unfold km_lookup. rewrite Hk. pose proof (Hun va) as Hw. unfold walk_of in Hw. rewrite Hh in Hw. apply Hw.
    right. left. unfold heap_va, HEAP_LIMIT, HEAP_BASE, Paging.HIGHER_HALF_MEMORY_OFFSET in *. lia. }
  constructor; [|intros va va' f Hva _ _ _ Hl; by rewrite Hlook in Hl].
  exists own. split; [|split; [|intros va d e Hva Hl; by rewrite Hlook in Hl]].
  2: { unfold km_links_writable. cbn. rewrite <- Hh. apply (bi_write _ _ _ Hi). }
  rewrite Hk. constructor.
  - cbn. rewrite <- Hh. apply (bi_tree _ _ _ Hi).
  - cbn. split; [done|]. split.
    + intros (_ & Hr & Hb). change (0 / 4096) with 0 in Hb. rewrite Hbit in Hb by lia. rewrite page0_unusable in Hb by done. done.
    + rewrite Hn. by apply frames_bound.
  - by apply (tables_taken p root own q e0).
Qed.

(** Moving the bump cursor on keeps the address space. *)
Lemma space_early p e root own : address_space es ka t0 t1 r0 r1 d0 d1 p root own -> early_wf e -> g_end e <= 2 ^ 46 ->
  g_base e = g_base (pt_early p) -> g_cursor (pt_early p) <= g_cursor e -> address_space es ka t0 t1 r0 r1 d0 d1 (PagingBootstrap.set_early e p) root own.
Proof.
  intros [[Hh Ht He Hsep Hwl] A1 A2 A3 A4 A5 A6] (W1 & W2 & W3 & W4 & W5 & W6) Hend Hb Hc.
  constructor; [|exact A1|exact A2|exact A3|exact A4|exact A5|exact A6]. constructor; [exact Hh|exact Ht| | |exact Hwl].
  - cbn. split_and!; lia.
  - intros q Hq. cbn. rewrite Hb. specialize (Hsep q Hq). lia.
Qed.

(** [early_init], then [paging_bootstrap]. *)
Lemma bringup_tables (p : pb) : memory_sane -> g_region_forced (pt_early p) = false -> 0 <= Z.land (cr3 p) ADDR_MASK < 2 ^ 44 ->
  exists e1 x, early_init (be_limine env) (pt_early p) = Ret tt e1 /\ preferred es x /\
  exists p' own, paging_bootstrap env (PagingBootstrap.set_early e1 p) = Ret tt p' /\
    cr3 p' = region_start x /\ address_space es ka t0 t1 r0 r1 d0 d1 p' (region_start x) own /\
    early_wf (pt_early p') /\ g_base (pt_early p') = region_start x /\ g_end (pt_early p') = region_end x /\ g_end (pt_early p') <= 2 ^ 44 /\
    2 * bitmap_pages (frames_of es) <= early_left (pt_early p') /\ g_cursor (pt_early p') <= region_start x + 4096 * boot_tables es t0 d1.
Proof.
  intros [Hsane _ _ H0 Hreg Hroom _] Hf Hcr. pose proof (sn_mem _ _ _ _ _ _ _ _ _ Hsane) as Hmem. pose proof (sane_entries es Hmem) as Hok.
  assert (Hnz : forall x, x ∈ es -> candidate x -> region_start x <> 0).
  { intros x Hx [Ht _]. destruct (region_bounds x (Forall_elem _ _ _ Hok Hx)) as (-> & _). specialize (H0 x Hx Ht). dm_lia. }
  pose proof (early_init_selects (be_limine env) es (pt_early p) (sn_map _ _ _ _ _ _ _ _ _ Hsane) Hok Hreg Hnz Hf) as Hw.
  apply wp_ret_inv in Hw as ([] & e1 & E1 & x & Hx & Hb & He & Hc & Hlt & Hal). exists e1, x. split; [exact E1|]. split; [exact Hx|].
  pose proof (proj1 Hx) as Hin. destruct (region_bounds x (Forall_elem _ _ _ Hok Hin)) as (Hst & Hen & _). destruct (Hmem x Hin) as (M1 & M2 & M3).
  specialize (Hroom x Hx). unfold early_pages, region_size in Hroom.
  assert (Hen44 : g_end e1 <= 2 ^ 44) by dm_lia.
  assert (Hbp : 0 <= bitmap_pages (frames_of es)).
  { assert (0 <= NeoFrame.max_phys_of es) by (by apply highest_end). unfold bitmap_pages, frames_of. dm_lia. }
  destruct (paging_bootstrap_ok env es ka t0 t1 r0 r1 d0 d1 Hsane (PagingBootstrap.set_early e1 p)) as (p' & own & E2 & Hcr' & A & Hb' & He' & Hr').
  { unfold early_good. cbn [pt_early PagingBootstrap.set_early]. rewrite Hc. split_and!; (done || lia). } { cbn. lia. } { done. } { cbn. unfold early_room. dm_lia. }
  cbn [pt_early PagingBootstrap.set_early] in *. rewrite Hc, Hb in *. exists p', own. split; [exact E2|]. split; [done|]. split; [done|].
  destruct (bi_early _ _ _ (as_inv _ _ _ _ _ _ _ _ _ _ _ A)) as (G1 & G2 & G3 & G4). unfold early_wf, early_left, early_room in *.
  rewrite Hb', He', He in *. split_and!; try done; try lia; dm_lia.
Qed.

Lemma bringup_boot_ok e q : memory_sane -> early_wf e -> 2 * bitmap_pages (frames_of es) <= early_left e -> g_memlock q = 0 ->
  boot_ok (be_limine env) img (Mm e q) es HH kb ke.
Proof.
  intros [Hsane (K1 & K2 & K3) Hmod _ (x & Hx & _ & Hlt) _ _] He Hr Hl. pose proof (sn_mem _ _ _ _ _ _ _ _ _ Hsane) as Hmem.
  pose proof (sane_entries es Hmem) as Hok. constructor; try done.
  - exact (sn_map _ _ _ _ _ _ _ _ _ Hsane).
  - destruct (region_bounds x (Forall_elem _ _ _ Hok Hx)) as (_ & Hen & Hs0 & _). destruct (max_phys_of_spec es Hok) as [_ Hmax].
    specialize (Hmax x Hx). dm_lia.
  - exact (sn_hhdm _ _ _ _ _ _ _ _ _ Hsane).
  - exists ka. split; [exact (sn_ka _ _ _ _ _ _ _ _ _ Hsane)|done].
Qed.

(** The 256 frames of [mo_free] are free. *)
Lemma bringup_free q x c : memory_sane -> preferred es x -> pmm_wf q -> g_frame_count q = frames_of es -> c <= region_start x + 4096 * early_pages ->
  (forall i, 0 <= i < frames_of es -> bit (g_alloc_bm q) i =
     negb (usable_inside es i) || overlaps i kb ke || module_overlaps modules i || overlaps i (region_start x) c) ->
  256 <= g_free_count q.
Proof.
  intros [_ _ _ _ _ _ (lo & Hlo & Hhi & Hrun)] Hx Hwf Hn Hc Hbit. rewrite (core_free_count _ (wf_core _ Hwf)), Hn.
  apply (nclear_run _ lo); [done|lia|lia|]. intros i Hi. destruct (Hrun i Hi) as (U & O1 & O2 & O3). specialize (O3 x Hx).
  rewrite Hbit, U, O1, O2 by lia. cbn. revert O3. unfold overlaps. rewrite !andb_false_iff, !Z.ltb_ge. lia.
Qed.

(** The run of [memory_bringup]: the tables, then the frames. *)
Lemma bringup_runs s : memory_sane -> live (bt_con s) -> g_region_forced (pt_early (bt_pb s)) = false ->
  0 <= Z.land (cr3 (bt_pb s)) ADDR_MASK < 2 ^ 44 -> g_memlock (bt_pmm s) = 0 ->
  exists c x p own e q, preferred es x /\ live c /\
    memory_bringup clock depth env img s = Ret tt (Boot (PagingBootstrap.set_early e p) q supply_from_frame c
      (bt_heap_curr s) (bt_heap_lock s) (bt_free_list s) (bt_kmem s)) /\
    cr3 p = region_start x /\ address_space es ka t0 t1 r0 r1 d0 d1 p (region_start x) own /\
    g_base (pt_early p) = region_start x /\ g_cursor (pt_early p) <= g_cursor e <= region_start x + 4096 * early_pages /\
    early_wf e /\ g_base e = region_start x /\ g_end e <= 2 ^ 44 /\ pmm_wf q /\ g_frame_count q = frames_of es /\
    (forall i, 0 <= i < frames_of es -> bit (g_alloc_bm q) i =
       negb (usable_inside es i) || overlaps i kb ke || module_overlaps modules i || overlaps i (region_start x) (g_cursor e)).
Proof.
  intros Hms Hl Hf Hcr Hlock.
  destruct (bringup_tables (bt_pb s) Hms Hf Hcr) as (e1 & x & Ee & Hx & p & own & Ep & Hcr' & A & We & Wb & Wend & W44 & Wroom & Wcur).
  pose proof (frame_init_spec (be_limine env) img (Mm (pt_early p) (bt_pmm s)) es HH kb ke (bringup_boot_ok _ _ Hms We Wroom Hlock)) as Hfi.
  apply wp_ret_inv in Hfi as ([] & [e q] & Ef & (We' & Wb' & Wend') & Hwf & Hn & _ & _ & Wc & Hbit). cbn in We', Wb', Wend', Hwf, Hn, Wc, Hbit.
  assert (Hbp : 0 <= bitmap_pages (frames_of es)) by (assert (0 <= NeoFrame.max_phys_of es)
    by (apply highest_end, (sn_mem _ _ _ _ _ _ _ _ _ (mo_boot Hms))); unfold bitmap_pages, frames_of; dm_lia).
  unfold memory_bringup.
  destruct (bline_live "Bootstrapping Memory... calling bootstrap alloc... " s) as (c1 & E1 & L1); [done|done|]. rewrite (bind_Ret _ _ _ _ _ E1).
  set (s1 := set_bt_con c1 s).
  rewrite (bind_Ret _ _ s1 tt (set_bt_pb (PagingBootstrap.set_early e1 (bt_pb s)) s1)) by (unfold in_pb, zoom; change (pt_early (bt_pb s1)) with (pt_early (bt_pb s)); by rewrite Ee).
  set (s2 := set_bt_pb _ s1).
  destruct (bline_live "Bootstrapping Memory... getting frames... " s2) as (c2 & E2 & L2); [done|done|]. rewrite (bind_Ret _ _ _ _ _ E2), bind_modify.
  set (s3 := set_supplier _ _).
  destruct (bline_live "Bootstrapping Memory... building PML4 -> PDPT -> PD -> PT... " s3) as (c3 & E3 & L3); [done|done|]. rewrite (bind_Ret _ _ _ _ _ E3).
  set (s4 := set_bt_con c3 s3). destruct (limine_debug_live (be_limine env) s4 L3) as (c4 & E4 & L4). rewrite (bind_Ret _ _ _ _ _ E4).
  set (s5 := set_bt_con c4 s4).
  rewrite (bind_Ret _ _ s5 tt (set_bt_pb p s5)) by (unfold in_pb, zoom; change (bt_pb s5) with (PagingBootstrap.set_early e1 (bt_pb s)); by rewrite Ep).
  rewrite bind_get. set (s6 := set_bt_pb p s5).
  destruct (bsay_live (chars "CR3 after bootstrap: 0x%llx" ++ [10; 0]) [Word (cr3 (bt_pb s6))] s6) as (c5 & E5 & L5); [by repeat constructor|done|done|].
  rewrite (bind_Ret _ _ _ _ _ E5). set (s7 := set_bt_con c5 s6).
  rewrite (bind_Ret _ _ s7 tt (set_frame_statics (Mm e q) s7)) by
    (unfold zoom; change (frame_statics s7) with (Mm (pt_early p) (bt_pmm s)); by rewrite Ef).
  exists c5, x, p, own, e, q. split; [done|]. split; [done|]. split; [reflexivity|]. split; [exact Hcr'|]. split; [exact A|].
  split; [exact Wb|]. split; [unfold early_pages; lia|]. split; [exact We'|]. split; [congruence|]. split; [congruence|]. split; [exact Hwf|]. split; [exact Hn|].
  intros i Hi. rewrite Hbit, Wc, Wb by done. reflexivity.
Qed.

(** C1. Memory comes up.  From the boot loader's state, with a sane memory map and
    kernel layout, [memory_bringup] and [kmalloc_init] return.  In between CR3 is
    on the kernel's own tables, whose translations are as [paging_bootstrap]
    promises; a frame is free exactly when it lies in a USABLE entry and meets neither
    kernel, modules nor what the bump allocator handed out, so no page table is
    free; pages now come from the frame allocator.  Afterwards the heap is
    empty and well formed. *)
Theorem start_memory_correct s : memory_sane -> live (bt_con s) -> g_region_forced (pt_early (bt_pb s)) = false ->
  0 <= Z.land (cr3 (bt_pb s)) ADDR_MASK < 2 ^ 44 -> g_memlock (bt_pmm s) = 0 -> bt_heap_lock s = 0 ->
  exists s1 s2 root own, memory_bringup clock depth env img s = Ret tt s1 /\ start_memory clock depth env img s = Ret tt s2 /\
    cr3 (bt_pb s1) = root /\ address_space es ka t0 t1 r0 r1 d0 d1 (bt_pb s1) root own /\
    pmm_wf (bt_pmm s1) /\ g_frame_count (bt_pmm s1) = frames_of es /\
    (forall i, 0 <= i < frames_of es -> bit (g_alloc_bm (bt_pmm s1)) i =
       negb (usable_inside es i) || overlaps i kb ke || module_overlaps modules i ||
       overlaps i (g_base (pt_early (bt_pb s1))) (g_cursor (pt_early (bt_pb s1)))) /\
    (forall p, is_Some (own !! p) -> ~ frame_free_at (bt_pmm s1) p) /\
    bt_supplier s1 = supply_from_frame /\ live (bt_con s2) /\ heap_rep (kernel_heap s2) ∅.
Proof.
  intros Hms Hl Hf Hcr Hlock Hhl.
  destruct (bringup_runs s Hms Hl Hf Hcr Hlock) as (c & x & p & own & e & q & Hx & Hc & E & Hcr' & A & Hb & Hcur & We & Wb & W44 & Hwf & Hn & Hbit).
  set (s1 := Boot _ _ _ _ _ _ _ _) in E. pose proof (bi_early _ _ _ (as_inv _ _ _ _ _ _ _ _ _ _ _ A)) as (G1 & G2 & G3 & G4).
  destruct (tr_page _ _ _ _ (bi_tree _ _ _ (as_inv _ _ _ _ _ _ _ _ _ _ _ A)) _ _ (tr_root _ _ _ _ (bi_tree _ _ _ (as_inv _ _ _ _ _ _ _ _ _ _ _ A)))) as (T1 & T2 & _).
  assert (Hk : kmm_inv (kback (kernel_heap s1))).
  { change (kback (kernel_heap s1)) with (KMM (Paging.PGS (pt_mem p) q) (cr3 p)). rewrite Hcr'.
    apply (backing_ready p own (region_start x) q (g_cursor e)); [done|done|done|done|done|lia|lia|]. by rewrite Hb. }
  assert (Hfree : 256 <= g_free_count q) by (apply (bringup_free q x (g_cursor e)); try done; lia).
  destruct (kmalloc_init_rep (HL := kmm_laws) (kernel_heap s1) Hk) as (h & Eh & Hrep & _); [|done|done|].
  { change (64 <= g_free_count q / 4). dm_lia. }
  exists s1, (set_kernel_heap h s1), (region_start x), own. split; [exact E|]. split.
  { unfold start_memory. rewrite (bind_Ret _ _ _ _ _ E). unfold in_heap, zoom. by rewrite Eh. }
  split; [done|]. split; [apply space_early; [done|done|lia|congruence|lia]|]. split; [done|]. split; [done|]. split.
  { intros i Hi. change (bit (g_alloc_bm q) i = negb (usable_inside es i) || overlaps i kb ke || module_overlaps modules i || overlaps i (g_base e) (g_cursor e)).
    rewrite Wb. by apply Hbit. }
  split; [|split; [done|split; [done|]]].
  - apply (tables_taken p (region_start x) own q (g_cursor e)); [by destruct A|lia|done|]. by rewrite Hb.
  - by destruct h as [? ? ? ? [[? ?] ?]].
Qed.
End bringup.

(** ** A PC with 128 MiB, the kernel loaded above them. *)
Definition pc_kv : Z := 0xFFFFFFFF80000000.
Definition pc_es : list limine_memmap_entry :=
  [MemmapEntry 0x1000 0x9E000 LIMINE_MEMMAP_USABLE; MemmapEntry 0x100000 0x7F00000 LIMINE_MEMMAP_USABLE;
   MemmapEntry 0x8000000 0x10000 LIMINE_MEMMAP_KERNEL_AND_MODULES; MemmapEntry 0xFD000000 0x300000 LIMINE_MEMMAP_FRAMEBUFFER].
Definition pc_ka : limine_kernel_address := KernelAddress 0x8000000 pc_kv.
Definition pc_env : boot_env :=
  BootEnv (Limine (Some pc_es) (Some HH) (Some pc_ka) None)
    pc_kv (pc_kv + 0x4800) (pc_kv + 0x5000) (pc_kv + 0x7010) (pc_kv + 0x8000) (pc_kv + 0xC000) (HH + 0x7000000) (pc_kv + 0x1000).
Definition pc_img : kernel_image := NeoFrame.KernelImage pc_kv (pc_kv + 0xC000).
Definition pc_boot : boot := Boot (PB ∅ early_zero 0 0 0 0x5000 []) NeoFrame.pmm_zero NoSupplier (PutcharSpec.boot_console 2 0) 0 0 0 ∅.

Lemma pc_preferred x : preferred pc_es x -> x = MemmapEntry 0x100000 0x7F00000 LIMINE_MEMMAP_USABLE.
Proof.
  assert (Hc : candidate_below4g (MemmapEntry 0x100000 0x7F00000 LIMINE_MEMMAP_USABLE)) by by vm_compute.
  intros (Hin & [Ht _] & Hbest). unfold pc_es in Hin. repeat (apply elem_of_cons in Hin as [->|Hin]); [|done|done|done|by apply elem_of_nil in Hin].
  exfalso. destruct Hbest as [[_ Hmax]|[Hno _]]; [|eapply Hno; [|exact Hc]; right; left].
  specialize (Hmax _ ltac:(right; left) Hc). vm_compute in Hmax. by apply Hmax.
Qed.

Lemma pc_sane : memory_sane pc_env pc_img pc_es pc_ka (pc_kv / 4096) (pc_kv / 4096 + 5) (pc_kv / 4096 + 5) (pc_kv / 4096 + 8)
  (pc_kv / 4096 + 8) (pc_kv / 4096 + 12) 0x8000000 0x800C000.
Proof.
  constructor.
  - constructor; try reflexivity; try done.
    + intros e He. unfold pc_es in He. repeat (apply elem_of_cons in He as [->|He]; [by vm_compute|]). by apply elem_of_nil in He.
    + repeat constructor; vm_compute; discriminate.
  - by vm_compute.
  - constructor.
  - intros e He _. unfold pc_es in He. repeat (apply elem_of_cons in He as [->|He]; [by vm_compute|]). by apply elem_of_nil in He.
  - exists (MemmapEntry 0x100000 0x7F00000 LIMINE_MEMMAP_USABLE). split; [right; left|by vm_compute].
  - intros x ->%pc_preferred. by vm_compute.
  - exists 0x7000. split; [done|]. split; [by vm_compute|]. intros i Hi.
    assert (Hall : forallb (fun i => usable_inside pc_es i && negb (overlaps i 0x8000000 0x800C000) &&
      negb (overlaps i 0x100000 (0x100000 + 4096 * early_pages pc_es (pc_kv / 4096) (pc_kv / 4096 + 12)))) (seqZ 0x7000 256) = true) by (vm_compute; reflexivity).
    rewrite forallb_forall in Hall. specialize (Hall i). rewrite <- list_elem_of_In, elem_of_seqZ in Hall.
    apply Hall, andb_true_iff in Hi as [Hi Hi3]. apply andb_true_iff in Hi as [Hi1 Hi2]. rewrite negb_true_iff in Hi2, Hi3.
    split_and!; [done|done|done|]. intros x ->%pc_preferred. exact Hi3.
Qed.

Lemma start_memory_correct_witness :
  exists s1 s2 root (own : gmap Z (list Z)), memory_bringup (fun _ => 0) 1 pc_env pc_img pc_boot = Ret tt s1 /\
    start_memory (fun _ => 0) 1 pc_env pc_img pc_boot = Ret tt s2 /\
    (forall p, is_Some (own !! p) -> ~ frame_free_at (bt_pmm s1) p) /\ cr3 (bt_pb s1) = root /\ heap_rep (kernel_heap s2) ∅.
Proof.
  destruct (start_memory_correct (fun _ => 0) 1 ltac:(lia) pc_env pc_img pc_es pc_ka _ _ _ _ _ _ _ _ pc_boot pc_sane)
    as (s1 & s2 & root & own & E1 & E2 & Hc & _ & _ & _ & _ & Ht & _ & _ & Hr).
  - split; [by left|]. right. right. right. by left.
  - reflexivity.
  - split; vm_compute; (discriminate || reflexivity).
  - reflexivity.
  - reflexivity.
  - exists s1, s2, root, own. by split_and!.
Defined.
End BringupSpec.
