(* ===== verification/Diag.v ===== *)
(** Diagnostics: stack traces and memory dumps ([src/src/stack_trace.c],
    [src/src/tracer.asm]), the panic screen ([src/src/panic.c]) and the memory-map
    report ([src/src/KernelUtils.c]).

    [mem] is kernel memory, byte by byte, as the dumps read it; a read outside it
    faults.  The register RBP at a call is an argument. *)
From Stdlib Require Import Ascii.
From S2P Require Import Prelude Limine CString Printf Putchar.

(** [k_mode] of [KernelUtils.c]. *)
Record kswitches : Type := KSwitches {
  stack_trace_size : Z; stack_trace_on_fault : Z; acpi_support : Z; sched_debug : Z; addr_debug : Z;
  hw_rng_support : Z; mem_readout_unit : Z; liballoc_debug : Z; fpu_allowed : Z; km_timestamp : Z;
}.
Definition k_mode : kswitches := KSwitches 24 1 0 0 0 1 1 0 0 1.

(** [struct stack_frame] *)
Definition off_frame_rbp : Z := 0.
Definition off_frame_rip : Z := 8.

Section diag.
Variable clock : list effect -> Z.
Variable depth : nat.
Variable mem : Z -> option Z.

Definition dsay (format : list Z) (va : list va_arg) : K con unit := printf_console (_putchar clock depth) format va.
(** [printf_("%s\n", msg)] and [printf_("%s", msg)] *)
Definition dline (msg : string) : K con unit := dsay (chars "%s" ++ [10; 0]) [Str (cstr msg)].
Definition dtext (msg : string) : K con unit := dsay (cstr "%s") [Str (cstr msg)].

Definition peek8 (a : Z) : K con Z := match mem a with Some b => ret (u8 b) | None => fault a end.
Fixpoint peek (n : nat) (a : Z) : K con Z :=
  match n with
  | O => ret 0
  | S n => let! b := peek8 a in let! r := peek n (a + 1) in ret (b + 256 * r)
  end.
Definition peek64 (a : Z) : K con Z := peek 8 a.

(** ** [dump_hex] *)

(** After 8 bytes, after a row and at the end; [ascii] is the local array of 17
    characters. *)
Definition dump_break (size i : Z) (ascii : list Z) : K con (list Z) :=
  if ((i + 1) mod 8 =? 0) || (i + 1 =? size) then
    do! dsay (cstr " ") [] in
    if (i + 1) mod 16 =? 0 then
      do! dsay (chars "|  %s " ++ [10; 0]) [Str ascii] in ret ascii
    else if i + 1 =? size then
      let ascii := <[Z.to_nat ((i + 1) mod 16) := 0]> ascii in
      do! when ((i + 1) mod 16 <=? 8) (dsay (cstr " ") []) in
      do! for_range ((i + 1) mod 16) 16 (fun _ => dsay (cstr "   ") []) in
      do! dsay (chars "|  %s " ++ [10; 0]) [Str ascii] in ret ascii
    else ret ascii
  else ret ascii.

(** The body of the loop. *)
Definition dump_byte (data size i : Z) (ascii : list Z) : K con (list Z) :=
  let! b := peek8 (data + i) in
  do! dsay (cstr "%02X ") [Word b] in
  dump_break size i (<[Z.to_nat (i mod 16) := if (32 <=? b) && (b <=? 126) then b else chr "."]> ascii).

Fixpoint dump_loop (n : nat) (data size i : Z) (ascii : list Z) : K con unit :=
  match n with
  | O => ret tt
  | S n => let! ascii := dump_byte data size i ascii in dump_loop n data size (i + 1) ascii
  end.

(** [ascii] holds whatever was on the stack. *)
Definition dump_hex (ascii : list Z) (data size : Z) : K con unit :=
  dump_loop (Z.to_nat size) data size 0 (<[16%nat := 0]> ascii).

(** ** Stack walks *)

(** [for (uint8_t frame = 0; stk && frame < max_frames; ++frame)]; the frame
    counter is a byte. *)
Fixpoint frame_loop (visit : Z -> K con unit) (fuel : nat) (stk frame max_frames : Z) : K con unit :=
  if negb (stk =? 0) && (frame <? max_frames) then
    match fuel with
    | O => fun s => Hang s
    | S fuel =>
        do! visit stk in
        let! next := peek64 (stk + off_frame_rbp) in
        frame_loop visit fuel next (u8 (frame + 1)) max_frames
    end
  else ret tt.

Definition trace_head : K con unit :=
  do! dline "-----------------------------------------------" in
  do! dline "    INFO: Stack Trace (Unwind) as Follows" in
  dline "-----------------------------------------------".
Definition trace_end : K con unit :=
  do! dline "-----------------------------------------------" in
  do! dline "End of Trace." in
  dline "-----------------------------------------------".

Definition print_frame (stk : Z) : K con unit :=
  let! rip := peek64 (stk + off_frame_rip) in dsay (chars "0x%llx" ++ [10; 0]) [Word rip].
Definition max_of (max_frames : Z) : Z := if max_frames =? 0 then stack_trace_size k_mode else max_frames.

Definition stack_trace (fuel : nat) (rbp max_frames : Z) : K con unit :=
  do! trace_head in
  do! frame_loop print_frame fuel rbp 0 (max_of max_frames) in
  trace_end.

Definition stack_dump (ascii : list Z) (rbp : Z) : K con unit := dump_hex ascii rbp 0x1000.

Definition stack_dump_recursive (ascii : list Z) (fuel : nat) (rbp max_frames : Z) : K con unit :=
  do! trace_head in
  do! frame_loop (fun stk => let! next := peek64 (stk + off_frame_rbp) in dump_hex ascii next 0x1000) fuel rbp 0 (max_of max_frames) in
  trace_end.

(** [stack_dump_asm(leave, size)] of [tracer.asm], called with frame pointer [rbp]. *)
Definition stack_dump_asm (ascii : list Z) (rbp size : Z) : K con unit := let! data := peek64 rbp in dump_hex ascii data size.

Definition print_stack_size (stack_size : Z) : K con unit :=
  if stack_size =? 0 then dline "ERROR: Unable to fetch stack size!"
  else do! dtext "INFO: Stack Size: " in dsay (chars "0x%llx" ++ [10; 0]) [Word stack_size].

(** ** [panic] *)

(** [static char buf[1024]; vsnprintf(buf, sizeof(buf), fmt, args);]: the array
    afterwards. *)
Definition cause_text (buf : Z) (fmt : list Z) (va : list va_arg) : K con (list Z) := fun s =>
  match vsnprintf_ (C := con) (fun _ _ _ _ _ _ _ _ => fault 0) (fun _ _ _ _ _ _ _ _ => fault 0) buf 1024 fmt va (IO ∅ s) with
  | Ret _ i => Ret ((fun k => default 0 (bytes i !! (buf + k))) <$> seqZ 0 1024) (console i)
  | Panic m i => Panic m (console i)
  | Fault a i => Fault a (console i)
  | Hang i => Hang (console i)
  end.

Definition halt {A} : K con A := fun s => Hang s.

(** [rbp] is the frame pointer of [panic], [rbp_trace] that of the call of
    [stack_trace]. *)
Definition panic_screen (buf : Z) (ascii : list Z) (fuel : nat) (rbp rbp_trace init_done : Z) (fmt : list Z) (va : list va_arg) : K con unit :=
  do! when (init_done =? 1) (modify (set_kerror 1)) in
  let! text := cause_text buf fmt va in
  do! dline "!!!!!!!!!!!!!!!!!!!!KERNEL PANIC!!!!!!!!!!!!!!!!!!!!!" in
  do! dline "-----------------------------------------------------" in
  do! dtext "CAUSE: " in
  do! dsay (chars "%s" ++ [10; 0]) [Str text] in
  do! dline "-----------------------------------------------------" in
  do! stack_trace fuel rbp_trace 0 in
  do! dline "-----------------------------------------------" in
  do! dline "    INFO: Stack Trace (Dump) as Follows" in
  do! dline "-----------------------------------------------" in
  do! stack_dump_asm ascii rbp 256 in
  do! trace_end in
  do! dline "!!!!!!!!!!!!!!!!!!!!KERNEL PANIC!!!!!!!!!!!!!!!!!!!!!" in
  halt.

(** ** [KernelUtils.c] *)
Definition bytes_to_mib (bytes : Z) : Z := Z.shiftr bytes 20.
Definition bytes_to_gib (bytes : Z) : Z := Z.shiftr bytes 30.
Definition memory_bytes (es : list limine_memmap_entry) : Z := foldl (fun size e => u64 (size + me_length e)) 0 es.
Definition get_memory_size (lim : limine) : Z := match memmap_req lim with None => 0 | Some es => bytes_to_mib (memory_bytes es) end.
Definition get_memory_size_gib (lim : limine) : Z := match memmap_req lim with None => 0 | Some es => bytes_to_gib (memory_bytes es) end.

Definition dnum (format : string) (v : Z) : K con unit := dsay (chars format ++ [10; 0]) [Word v].

(** The counters of [print_memmap]: usable, bad, and the two reclaimable kinds. *)
Record counts : Type := Counts { num_usable : Z; num_bad : Z; num_reclaim_bl : Z; num_reclaim_acpi : Z }.
Definition count_entry (type : Z) (c : counts) : counts :=
  if type =? LIMINE_MEMMAP_USABLE then Counts (u64 (num_usable c + 1)) (num_bad c) (num_reclaim_bl c) (num_reclaim_acpi c)
  else if type =? LIMINE_MEMMAP_BAD_MEMORY then Counts (num_usable c) (u64 (num_bad c + 1)) (num_reclaim_bl c) (num_reclaim_acpi c)
  else if type =? LIMINE_MEMMAP_BOOTLOADER_RECLAIMABLE then Counts (num_usable c) (num_bad c) (u64 (num_reclaim_bl c + 1)) (num_reclaim_acpi c)
  else if type =? LIMINE_MEMMAP_ACPI_RECLAIMABLE then Counts (num_usable c) (num_bad c) (num_reclaim_bl c) (u64 (num_reclaim_acpi c + 1))
  else c.

Fixpoint memmap_loop (es : list limine_memmap_entry) (i : Z) (c : counts) : K con counts :=
  match es with
  | [] => ret c
  | e :: es =>
      do! dtext "Info For Entry Number: " in
      do! dnum "%llu" (u64 (i + 1)) in
      do! dnum "Entry Base: 0x%llx" (me_base e) in
      do! dnum "Entry Limit: 0x%llx" (me_length e) in
      do! dnum "Entry Type: %llu" (me_type e) in
      do! dline "--------------------------------------" in
      memmap_loop es (i + 1) (count_entry (me_type e) c)
  end.

Definition print_memmap (lim : limine) : K con unit :=
  match memmap_req lim with
  | None => dline "Memory map unavailable."
  | Some es =>
      do! for_each ["--------------------------------------"; "|             MEMORY MAP             |"; "--------------------------------------";
        "Type Legend: "; "0 Usable"; "1 Reserved"; "2 ACPI Reclaimable"; "3 ACPI NVS"; "4 Bad Memory"; "5 Bootloader Reclaimable";
        "6 Kernel And Modules"; "7 Framebuffer"; "--------------------------------------"]%string dline in
      do! dnum "Number Of Entries: %llu" (Z.of_nat (length es)) in
      let! c := memmap_loop es 0 (Counts 0 0 0 0) in
      do! dnum "Number of Usable Entries: %llu" (num_usable c) in
      do! dnum "Number of Bad Entries: %llu" (num_bad c) in
      do! dnum "Number of Bootloader Reclaimable Entries: %llu" (num_reclaim_bl c) in
      do! dnum "Number of ACPI Reclaimable Entries: %llu" (num_reclaim_acpi c) in
      do! dnum "Memory Size: %llu MiB." (get_memory_size lim) in
      do! dnum "Memory Size: %llu GiB." (get_memory_size_gib lim) in
      dline "--------------------------------------"
  end.
End diag.

(** * [walk_stack] of [tracer.asm]

    Words of memory; [rsp] is the stack pointer on entry, pointing at the return
    address. *)
Record regs : Type := Regs { rax : Z; rbx : Z; rdi : Z; rbp : Z }.
Definition ldw (a : Z) : K (gmap Z Z) Z := fun m => match m !! a with Some v => Ret v m | None => Fault a m end.
Definition stw (a v : Z) : K (gmap Z Z) unit := fun m => match m !! a with Some _ => Ret tt (<[a := v]> m) | None => Fault a m end.

(** From [.walk] to [.done]; gives the return value. *)
Fixpoint walk_frames (fuel : nat) (rax rbx rcx rdi : Z) : K (gmap Z Z) Z :=
  if rbx =? 0 then ret rax else
  match fuel with
  | O => fun m => Hang m
  | S fuel =>
      let! rdx := ldw (rbx + 8) in
      let! rbx := ldw rbx in
      do! stw rdi rdx in
      let rdi := u64 (rdi + 8) in
      let rax := u64 (rax + 1) in
      if rcx >=? rax then ret rax else
      let rcx := u64 (rcx - 1) in
      if rcx =? 0 then ret rax else walk_frames fuel rax rbx rcx rdi
  end.

Definition walk_stack (fuel : nat) (rsp : Z) (r : regs) : K (gmap Z Z) regs :=
  do! stw (rsp - 8) (rbp r) in
  let frame := rsp - 8 in
  let rsp := frame - 16 in
  do! stw (frame - 8) (rdi r) in
  do! stw (frame - 16) (rbx r) in
  let! old_rbp := ldw (rsp + 8) in
  let! dest := ldw (rsp + 16) in
  let! max := ldw (rsp + 24) in
  let! n := walk_frames fuel 0 old_rbp max dest in
  let! saved_rdi := ldw (frame - 8) in
  let! saved_rbx := ldw (frame - 16) in
  let! saved_rbp := ldw frame in
  ret (Regs n saved_rbx saved_rdi saved_rbp).
