(* ===== verification/DiagSpec.v ===== *)
(** What the diagnostics print: a memory dump against a reference layout, the
    stack trace against the chain of frames, and the panic screen as a whole. *)
From Stdlib Require Import Ascii.
From S2P Require Import Prelude Limine CString Printf PrintfSpec Putchar PutcharSpec PrintTotal Diag.

Module DiagSpec.
Import PrintfSpec PutcharSpec PrintTotal.

(** ** Texts *)

(** The text of a call that renders. *)
Definition text_of (format : list Z) (va : list va_arg) : list Z := match rendered format va with Ret _ t => t | _ => [] end.

Lemma str_loop_text l rest q idx (acc : list Z) : Forall (fun c => c <> 0) l ->
  exists i, str_loop out_record 0 0 (l ++ 0 :: rest) false q idx acc = Ret i (acc ++ l).
Proof.
  intros Hl. revert q idx acc. induction Hl as [|c l Hc _ IH]; intros q idx acc; cbn [app str_loop].
  - rewrite app_nil_r. by eexists.
  - rewrite (proj2 (Z.eqb_neq c 0) Hc). cbn [andb]. unfold bind. cbn. destruct (IH (q - 1) (u64 (idx + 1)) (acc ++ [c])) as [i E].
    replace (acc ++ c :: l) with ((acc ++ [c]) ++ l) by by rewrite <- app_assoc. eexists. exact E.
Qed.

Local Abbreviation loop := (format_loop (S := list Z) no_float no_float out_record 0 0).
Definition literal (c : Z) : Prop := c <> 0 /\ c <> chr "%".

Lemma loop_literal pre : forall fuel f idx va acc, Forall literal pre -> 0 <= idx < 2 ^ 64 ->
  exists i, loop (length pre + fuel) (pre ++ f) idx va acc = loop fuel f i va (acc ++ pre) /\ 0 <= i < 2 ^ 64.
Proof.
  induction pre as [|c pre IH]; intros fuel f idx va acc Hp Hi; cbn [app length Nat.add].
  - exists idx. by rewrite app_nil_r.
  - apply Forall_cons in Hp as [[H0 H1] Hp]. destruct (IH fuel f (u64 (idx + 1)) va (acc ++ [c]) Hp) as (i & E & Hr); [by apply wrap_range|].
    exists i. split; [|done]. replace (acc ++ c :: pre) with ((acc ++ [c]) ++ pre) by by rewrite <- app_assoc. rewrite <- E.
    cbn [format_loop deref tail]. unfold bind at 1, ret at 1. rewrite (proj2 (Z.eqb_neq c 0) H0), (proj2 (Z.eqb_neq c (chr "%")) H1). done.
Qed.

Lemma loop_string fuel f idx l rest va acc : Forall (fun c => c <> 0) l -> 0 <= idx < 2 ^ 64 ->
  exists i, loop (S fuel) (chr "%" :: chr "s" :: f) idx (Str (l ++ 0 :: rest) :: va) acc = loop fuel f i va (acc ++ l) /\ 0 <= i < 2 ^ 64.
Proof.
  intros Hl Hi. set (p := l ++ 0 :: rest). assert (Ht : terminated p = true).
  { unfold terminated. apply existsb_exists. exists 0. split; [|done]. apply list_elem_of_In. unfold p. set_solver. }
  destruct (string_returns idx p va acc Hi Ht) as (i & acc' & E & Hr). exists i. split; [|done].
  assert (Hacc : acc' = acc ++ l).
  { destruct (strnlen_returns p (u64 (-1)) 0 acc Ht) as [m Em].
    change (eval_specifier no_float no_float out_record 0 0 (chr "s") idx 0 0 0 (Str p :: va) acc)
      with (bind (_strnlen_s p (u64 (-1))) (fun l => let2! (idx, l) := pad_to out_record 0 0 l 0 idx in
        let! idx := str_loop out_record 0 0 p false 0 idx in ret (idx, va)) acc) in E.
    rewrite (bind_Ret _ _ _ (u32 m) acc) in E by (unfold _strnlen_s; by rewrite (bind_Ret _ _ _ _ _ Em)).
    assert (Hpad : exists k, pad_to out_record 0 0 (u32 m) 0 idx acc = Ret (idx, k) acc).
    { unfold pad_to. pose proof (wrap_range 32 m ltac:(lia)). replace (Z.to_nat (0 - u32 m)) with O by lia. by eexists. }
    destruct Hpad as [k Ek]. rewrite (bind_Ret _ _ _ _ _ Ek) in E. destruct (str_loop_text l rest 0 idx acc Hl) as [j Ej].
    fold p in Ej. rewrite (bind_Ret _ _ _ _ _ Ej) in E. by injection E as _ <-. }
  destruct (dir_eq (chr "s") f idx (Str p :: va) acc 0 (or_intror eq_refl)) as (Hd & _). specialize (Hd eq_refl).
  rewrite (bind_Ret _ _ _ _ _ E) in Hd. cbn [format_loop deref tail]. unfold bind at 1, ret at 1.
  change (chr "%" =? 0) with false. change (chr "%" =? chr "%") with true. cbn [negb]. rewrite (bind_Ret _ _ _ _ _ Hd). by rewrite Hacc.
Qed.

(** A format with one [%s]. *)
Lemma rendered_string pre post l rest : Forall literal pre -> Forall literal post -> Forall (fun c => c <> 0) l ->
  exists n, rendered (pre ++ chr "%" :: chr "s" :: post ++ [0]) [Str (l ++ 0 :: rest)] = Ret n (pre ++ l ++ post).
Proof.
  intros Hpre Hpost Hl. unfold rendered. set (f := post ++ [0]).
  replace (S (length (pre ++ chr "%" :: chr "s" :: f))) with (length pre + S (length post + 3))%nat.
  2: { unfold f. rewrite !length_app. cbn [length]. rewrite length_app. cbn [length]. lia. }
  destruct (loop_literal pre (S (length post + 3)) (chr "%" :: chr "s" :: f) 0 [Str (l ++ 0 :: rest)] [] Hpre) as (i & -> & Hi); [lia|].
  destruct (loop_string (length post + 3) f i l rest [] ([] ++ pre) Hl Hi) as (j & -> & Hj). unfold f.
  destruct (loop_literal post 3 [0] j [] (([] ++ pre) ++ l) Hpost Hj) as (k & -> & _). exists k.
  cbn [app]. rewrite <- app_assoc. reflexivity.
Qed.

(** ** The reference dump *)
Definition hex_digit (d : Z) : Z := if d <? 10 then 48 + d else 55 + d.
Definition hex_cell (b : Z) : list Z := [hex_digit (b / 16); hex_digit (b mod 16); 32].
Definition printable (b : Z) : Z := if (32 <=? b) && (b <=? 126) then b else chr ".".

(** A row of at most 16 bytes: the cells in two groups of 8, padded to column 50, then
    the characters. *)
Definition ljust (w : nat) (l : list Z) : list Z := l ++ replicate (w - length l) 32.
Definition show_ascii (l : list Z) : list Z := chars "|  " ++ l ++ [32; 10].
Definition row (bs : list Z) : list Z :=
  ljust 50 (flat_map hex_cell (take 8 bs) ++ (if (8 <=? length bs)%nat then [32] else []) ++ flat_map hex_cell (drop 8 bs)) ++
  show_ascii (map printable bs).
Fixpoint rows (n : nat) (bs : list Z) : list Z :=
  match n, bs with
  | S n, _ :: _ => row (take 16 bs) ++ rows n (drop 16 bs)
  | _, _ => []
  end.
Definition hexdump (bs : list Z) : list Z := rows (length bs) bs.

(** The same row the way the loop writes it: byte by byte. *)
Definition finish (r : nat) (shown : list Z) : list Z :=
  (if (r =? 16)%nat then [] else (if (r <=? 8)%nat then [32] else []) ++ replicate (3 * (16 - r)) 32) ++ show_ascii shown.
Definition piece (k : nat) (shown : list Z) (b : Z) (last : bool) : list Z :=
  hex_cell b ++ (if ((k =? 7) || (k =? 15))%nat || last then [32] else []) ++
  (if (k =? 15)%nat || last then finish (S k) (shown ++ [printable b]) else []).
Fixpoint pieces (k : nat) (shown bs : list Z) : list Z :=
  match bs with
  | [] => []
  | b :: bs => piece k shown b (match bs with [] => true | _ => false end) ++ pieces (S k) (shown ++ [printable b]) bs
  end.

Lemma pieces_row bs : (1 <= length bs <= 16)%nat -> pieces 0 [] bs = row bs.
Proof.
  intros Hl. do 17 (destruct bs as [|? bs]; [try (cbn in Hl; lia); reflexivity|]). cbn in Hl. lia.
Qed.

(** ** Printing as a calculus *)
Section prints.
Context (clock : list effect -> Z) (depth : nat) (mem : Z -> option Z).
Local Abbreviation put := (putchars (_putchar clock depth)).

(** [c] prints [text] and gives [a]. *)
Definition prints {A} (c : K con A) (a : A) (text : list Z) : Prop := forall s, c s = bind (put text) (fun _ => ret a) s.

Lemma put_app t1 t2 s : put (t1 ++ t2) s = bind (put t1) (fun _ => put t2) s.
Proof. apply for_each_app. Qed.

Lemma prints_ret {A} (a : A) : prints (ret a) a [].
Proof. done. Qed.

Lemma prints_bind {A B} (c : K con A) (k : A -> K con B) a b t1 t2 t : prints c a t1 -> prints (k a) b t2 -> t = t1 ++ t2 -> prints (bind c k) b t.
Proof.
  intros H1 H2 -> s. unfold bind at 1. rewrite H1. unfold bind at 1 2. rewrite put_app. unfold bind at 1. destruct (put t1 s); [|done|done|done].
  cbn. by rewrite H2.
Qed.

Lemma prints_say format va n text : integral va -> rendered format va = Ret n text -> prints (dsay clock depth format va) tt text.
Proof.
  intros Hi Hr s. unfold dsay. rewrite (printf_console_eq _ format va n text s Hi Hr). unfold bind. by destruct (put text s) as [[]| | |].
Qed.

Lemma prints_peek a b : mem a = Some b -> 0 <= b < 256 -> prints (peek8 mem a) b [].
Proof. intros Hm Hb s. unfold peek8. rewrite Hm. cbn. unfold ret. by rewrite wrap_small by lia. Qed.

Lemma prints_for n i (body : Z -> K con unit) t : (forall j, prints (body j) tt t) -> prints (for_steps n i 1 body) tt (concat (replicate n t)).
Proof.
  intros Hb. revert i. induction n as [|n IH]; intros i; cbn [for_steps replicate concat]; [apply prints_ret|]. by eapply prints_bind; [apply Hb|apply IH|].
Qed.

(** ** One byte *)
Lemma cell_text b : 0 <= b < 256 -> exists n, rendered (cstr "%02X ") [Word b] = Ret n (hex_cell b).
Proof.
  intros Hb. assert (Hall : forallb (fun b => match rendered (cstr "%02X ") [Word b] with Ret _ t => bool_decide (t = hex_cell b) | _ => false end)
    (seqZ 0 256) = true) by (vm_compute; reflexivity).
  rewrite forallb_forall in Hall. specialize (Hall b). rewrite <- list_elem_of_In, elem_of_seqZ in Hall. specialize (Hall ltac:(lia)).
  destruct (rendered _ _) as [n t| | |]; try done. apply bool_decide_eq_true in Hall as ->. by exists n.
Qed.

Lemma printable_nonzero b : 0 <= b -> printable b <> 0.
Proof. intros Hb. unfold printable. destruct (Z.leb_spec 32 b); cbn; [|done]. destruct (b <=? 126); [lia|done]. Qed.

Lemma ascii_text shown (rest : list Z) : Forall (fun c => c <> 0) shown ->
  prints (dsay clock depth (chars "|  %s " ++ [10; 0]) [Str (shown ++ 0 :: rest)]) tt (show_ascii shown).
Proof.
  intros Hs. destruct (rendered_string (chars "|  ") (chars " " ++ [10]) shown rest) as [n E]; [by repeat constructor|by repeat constructor|done|].
  eapply prints_say; [by repeat constructor|exact E].
Qed.

(** The buffer holds the characters of the row so far, and a terminator at 16. *)
Definition row_buffer (k : nat) (shown ascii : list Z) : Prop :=
  length ascii = 17%nat /\ ascii !! 16%nat = Some 0 /\ length shown = k /\ take k ascii = shown /\ Forall (fun c => c <> 0) shown.

Lemma row_buffer_add k shown ascii b : row_buffer k shown ascii -> (k < 16)%nat -> 0 <= b ->
  row_buffer (S k) (shown ++ [printable b]) (<[k := printable b]> ascii).
Proof.
  intros (H1 & H2 & H3 & H4 & H5) Hk Hb. split; [by rewrite length_insert|]. split; [by rewrite list_lookup_insert_ne by lia|].
  split; [rewrite length_app; cbn; lia|]. split.
  - rewrite (take_S_r _ _ (printable b)) by (rewrite list_lookup_insert_eq; [done|lia]). by rewrite take_insert_ge, H4 by lia.
  - apply Forall_app. split; [done|]. constructor; [by apply printable_nonzero|done].
Qed.

Lemma row_buffer_cut k shown ascii : row_buffer k shown ascii -> (k <= 16)%nat -> <[k := 0]> ascii = shown ++ 0 :: drop (S k) ascii.
Proof. intros (H1 & _ & H3 & H4 & _) Hk. rewrite insert_take_drop by lia. by rewrite H4. Qed.

Lemma dump_byte_prints data size i k shown ascii b :
  mem (data + i) = Some b -> 0 <= b < 256 -> 0 <= i -> i mod 16 = Z.of_nat k -> row_buffer k shown ascii ->
  exists ascii', prints (dump_byte clock depth mem data size i ascii) ascii' (piece k shown b (i + 1 =? size)) /\
    length ascii' = 17%nat /\ ascii' !! 16%nat = Some 0 /\ (i + 1 <> size -> row_buffer (S k) (shown ++ [printable b]) ascii').
Proof.
  intros Hm Hb Hi Hk Hrb. assert (Hk16 : (k < 16)%nat) by dm_lia. destruct (cell_text b Hb) as [n Ec].
  pose proof (row_buffer_add k shown ascii b Hrb Hk16 ltac:(lia)) as Hadd. set (a1 := <[k := printable b]> ascii) in *.
  assert (Hnext : (i + 1) mod 16 = if (k =? 15)%nat then 0 else Z.of_nat (S k)) by (destruct (Nat.eqb_spec k 15); dm_lia).
  assert (Hnext8 : ((i + 1) mod 8 =? 0) = ((k =? 7) || (k =? 15))%nat).
  { destruct (Nat.eqb_spec k 7), (Nat.eqb_spec k 15); cbn; [lia|apply Z.eqb_eq; dm_lia..|apply Z.eqb_neq; dm_lia]. }
  assert (Hsp : prints (dsay clock depth (cstr " ") []) tt [32]) by (by eapply prints_say).
  assert (Hhead : forall a' t, prints (dump_break clock depth size i a1) a' t -> prints (dump_byte clock depth mem data size i ascii) a' (hex_cell b ++ t)).
  { intros a' t Hp. unfold dump_byte. eapply prints_bind; [by apply prints_peek| |by rewrite app_nil_l].
    eapply prints_bind; [by eapply prints_say; [by repeat constructor|exact Ec]| |done]. by rewrite Hk, Nat2Z.id. }
  unfold piece, dump_break in *. rewrite Hnext8, Hnext in Hhead. destruct (Nat.eqb_spec k 15) as [H15|H15].
  - exists a1. split; [|by split; [apply Hadd|split; [apply Hadd|]]]. apply Hhead. rewrite orb_true_r. cbn [orb]. eapply prints_bind; [exact Hsp| |done]. cbn [Z.eqb].
    unfold finish. rewrite (proj2 (Nat.eqb_eq _ _)) by lia. cbn [app].
    eapply prints_bind; [|apply prints_ret|by rewrite app_nil_r].
    replace a1 with ((shown ++ [printable b]) ++ 0 :: drop (S 16) a1); [apply ascii_text; apply Hadd|].
    rewrite <- (row_buffer_cut 16 (shown ++ [printable b]) a1) by (subst k; (done || lia)). apply list_insert_id, Hadd.
  - rewrite (proj2 (Z.eqb_neq (Z.of_nat (S k)) 0)) in Hhead by lia. destruct (Z.eqb_spec (i + 1) size) as [Hlast|Hlast].
    + exists (<[S k := 0]> a1).
      split; [|split; [rewrite length_insert; apply Hadd|split; [rewrite list_lookup_insert_ne by lia; apply Hadd|done]]]. apply Hhead. rewrite !orb_true_r. eapply prints_bind; [exact Hsp| |done].
      rewrite Nat2Z.id. unfold finish. rewrite (proj2 (Nat.eqb_neq _ _)) by lia.
      eapply (prints_bind _ _ tt _ (if (S k <=? 8)%nat then [32] else [])); [| |by rewrite <- app_assoc].
      { destruct (Nat.leb_spec (S k) 8) as [Hle|Hle]; [rewrite (proj2 (Z.leb_le _ _)) by lia; exact Hsp|].
        rewrite (proj2 (Z.leb_gt _ _)) by lia. apply prints_ret. }
      eapply (prints_bind _ _ tt _ (replicate (3 * (16 - S k)) 32)); [| |done].
      { unfold for_range. replace (Z.to_nat (16 - Z.of_nat (S k))) with (16 - S k)%nat by lia.
        replace (replicate (3 * (16 - S k)) 32) with (concat (replicate (16 - S k) [32; 32; 32])).
        - apply prints_for. intros j. by eapply prints_say.
        - generalize (16 - S k)%nat. intros m. induction m as [|m IH]; [done|]. replace (3 * S m)%nat with (S (S (S (3 * m)))) by lia. cbn. by rewrite IH. }
      eapply prints_bind; [|apply prints_ret|by rewrite app_nil_r]. rewrite (row_buffer_cut (S k) (shown ++ [printable b]) a1) by (done || lia).
      apply ascii_text, Hadd.
    + exists a1. split; [|by split; [apply Hadd|split; [apply Hadd|]]]. apply Hhead. rewrite !orb_false_r. destruct (k =? 7)%nat.
      * eapply prints_bind; [exact Hsp|apply prints_ret|done].
      * apply prints_ret.
Qed.

(** ** Rows and dumps *)
Definition bytes_at (a : Z) (bs : list Z) : Prop := forall i b, bs !! i = Some b -> mem (a + Z.of_nat i) = Some b /\ 0 <= b < 256.

Lemma bytes_at_tail a b bs : bytes_at a (b :: bs) -> bytes_at (a + 1) bs.
Proof. intros H i c Hc. destruct (H (S i) c Hc) as [Hm Hb]. split; [|done]. rewrite <- Hm. f_equal. lia. Qed.

(** The last byte of a row is the last byte of all or at position 15. *)
Lemma piece_last k shown b l l' : l = l' \/ k = 15%nat -> piece k shown b l = piece k shown b l'.
Proof. intros [->| ->]; done. Qed.

(** The rest [bs] of a row of which [k] bytes are printed, then [n] more bytes. *)
Lemma dump_row data size n text bs : forall k i shown ascii, bytes_at (data + i) bs -> 0 <= i -> i mod 16 = Z.of_nat k -> row_buffer k shown ascii ->
  bs <> [] -> (k + length bs <= 16)%nat -> (k + length bs = 16)%nat \/ i + Z.of_nat (length bs) = size -> i + Z.of_nat (length bs) <= size ->
  (forall a, length a = 17%nat -> a !! 16%nat = Some 0 -> prints (dump_loop clock depth mem n data size (i + Z.of_nat (length bs)) a) tt text) ->
  prints (dump_loop clock depth mem (length bs + n) data size i ascii) tt (pieces k shown bs ++ text).
Proof.
  induction bs as [|b bs IH]; intros k i shown ascii Hbs Hi Hk Hrb Hne Hlen Hend Hsize Hrest; [done|].
  destruct (Hbs 0%nat b eq_refl) as [Hm Hb]. rewrite Z.add_0_r in Hm. cbn [length] in *.
  destruct (dump_byte_prints data size i k shown ascii b Hm Hb Hi Hk Hrb) as (a' & Hp & Ha1 & Ha2 & Ha3).
  cbn [Nat.add dump_loop pieces]. rewrite <- app_assoc.
  assert (Hl : piece k shown b (match bs with [] => true | _ => false end) = piece k shown b (i + 1 =? size)).
  { apply piece_last. destruct bs as [|b2 bs]; cbn [length] in *.
    - destruct Hend as [?|?]; [right; lia|left; symmetry; apply Z.eqb_eq; lia].
    - left. symmetry. apply Z.eqb_neq. lia. }
  rewrite Hl. eapply prints_bind; [exact Hp| |done]. destruct bs as [|b2 bs].
  - cbn [pieces length Nat.add app]. by apply Hrest.
  - apply (IH (S k) (i + 1)); try done; cbn [length] in *; try lia.
    + replace (data + (i + 1)) with (data + i + 1) by lia. by eapply bytes_at_tail.
    + dm_lia.
    + apply Ha3. lia.
    + intros a H1 H2. specialize (Hrest a H1 H2). by replace (i + 1 + Z.of_nat (S (length bs))) with (i + Z.of_nat (S (S (length bs)))) by lia.
Qed.

Lemma bytes_at_drop a n bs : bytes_at a bs -> bytes_at (a + Z.of_nat n) (drop n bs).
Proof. intros H i b. rewrite lookup_drop. intros Hb. destruct (H _ _ Hb) as [Hm Hr]. split; [|done]. rewrite <- Hm. f_equal. lia. Qed.

Lemma bytes_at_take a n bs : bytes_at a bs -> bytes_at a (take n bs).
Proof. intros H i b. rewrite lookup_take. case_decide; [apply H|done]. Qed.

Lemma dump_rows data size m : forall bs i ascii, (length bs <= m)%nat -> bytes_at (data + i) bs -> 0 <= i -> i mod 16 = 0 -> size = i + Z.of_nat (length bs) ->
  length ascii = 17%nat -> ascii !! 16%nat = Some 0 -> prints (dump_loop clock depth mem (length bs) data size i ascii) tt (rows m bs).
Proof.
  induction m as [|m IH]; intros bs i ascii Hlen Hbs Hi Hal Hsize H1 H2.
  { destruct bs; [|cbn in Hlen; lia]. apply prints_ret. }
  destruct bs as [|b bs]; [apply prints_ret|]. set (all := b :: bs) in *.
  change (rows (S m) all) with (row (take 16 all) ++ rows m (drop 16 all)).
  assert (Hl : length all = (length (take 16 all) + length (drop 16 all))%nat) by (by rewrite <- length_app, take_drop).
  rewrite Hl, <- pieces_row by (rewrite length_take; cbn [all length]; lia).
  assert (Ht : (length (take 16 all) = 16 \/ length (drop 16 all) = 0)%nat) by (rewrite length_take, length_drop; lia).
  assert (Hd : (length (drop 16 all) <= m)%nat) by (rewrite length_drop; cbn [all length] in *; lia).
  apply (dump_row data size (length (drop 16 all)) (rows m (drop 16 all)) (take 16 all) 0 i []); try done.
  - by apply bytes_at_take.
  - rewrite length_take. lia.
  - destruct Ht as [?|?]; [left; lia|right; lia].
  - lia.
  - intros a Ha1 Ha2. destruct Ht as [Ht|Ht].
    + apply IH; try done; [|lia| |lia].
      * rewrite Ht. replace (data + (i + Z.of_nat 16)) with (data + i + Z.of_nat 16) by lia. by apply bytes_at_drop.
      * rewrite Ht. dm_lia.
    + rewrite Ht. apply nil_length_inv in Ht as ->. destruct m; apply prints_ret.
Qed.

(** The character column starts at the same place in every row. *)
Lemma row_column r : (length r <= 16)%nat -> exists cells, row r = cells ++ show_ascii (map printable r) /\ length cells = 50%nat.
Proof.
  intros Hr. eexists. split; [reflexivity|]. unfold ljust. rewrite length_app, length_replicate, !length_app.
  assert (Hc : forall l : list Z, length (flat_map hex_cell l) = (3 * length l)%nat).
  { intros l. induction l as [|b l IH]; [done|]. cbn [flat_map]. rewrite length_app, IH. cbn. lia. }
  rewrite !Hc, length_take, length_drop. destruct (Nat.leb_spec 8 (length r)); cbn [length]; lia.
Qed.

Lemma dump_hex_prints ascii data bs : bytes_at data bs -> length ascii = 17%nat ->
  prints (dump_hex clock depth mem ascii data (Z.of_nat (length bs))) tt (hexdump bs).
Proof.
  intros Hbs Ha. unfold dump_hex, hexdump. rewrite Nat2Z.id. apply dump_rows; [done|by rewrite Z.add_0_r|done|done|lia|by rewrite length_insert|].
  apply list_lookup_insert_eq. lia.
Qed.

Lemma prints_put (c : K con unit) text s : prints c tt text -> c s = put text s.
Proof. intros H. rewrite H. unfold bind. by destruct (put text s) as [[]| | |]. Qed.

(** [dump_hex] prints the reference dump of the bytes it is given, row by row,
    with the character column of every row, the last one included, at column 50;
    what the local array held before does not matter. *)
Theorem dump_hex_correct ascii data bs s : bytes_at data bs -> length ascii = 17%nat ->
  dump_hex clock depth mem ascii data (Z.of_nat (length bs)) s = put (hexdump bs) s /\
  forall r, (length r <= 16)%nat -> exists cells, row r = cells ++ show_ascii (map printable r) /\ length cells = 50%nat.
Proof. intros Hbs Ha. split; [by apply prints_put, dump_hex_prints|apply row_column]. Qed.

(** ** Stack traces *)
Definition le (bs : list Z) : Z := foldr (fun b r => b + 256 * r) 0 bs.
Definition word_at (a v : Z) : Prop := exists bs, length bs = 8%nat /\ bytes_at a bs /\ v = le bs.

Lemma prints_word a v : word_at a v -> prints (peek64 mem a) v [].
Proof.
  intros (bs & Hl & Hbs & ->). unfold peek64. rewrite <- Hl. clear Hl. revert a Hbs.
  induction bs as [|b bs IH]; intros a Hbs; cbn [length peek]; [apply prints_ret|].
  destruct (Hbs 0%nat b eq_refl) as [Hm Hb]. rewrite Z.add_0_r in Hm.
  eapply (prints_bind _ _ b _ []); [by apply prints_peek| |done].
  eapply (prints_bind _ _ (le bs) _ []); [by apply IH, (bytes_at_tail _ b)|apply prints_ret|done].
Qed.

(** Frames [fs] (address and return address) from [stk] on; the one after them
    would be at [last]. *)
Fixpoint chain (stk : Z) (fs : list (Z * Z)) (last : Z) : Prop :=
  match fs with
  | [] => last = stk
  | (a, rip) :: fs => a = stk /\ stk <> 0 /\ word_at (stk + off_frame_rip) rip /\ exists next, word_at (stk + off_frame_rbp) next /\ chain next fs last
  end.

Definition frame_text (f : Z * Z) : list Z := text_of (chars "0x%llx" ++ [10; 0]) [Word (snd f)].

Lemma say_plain format va : integral va -> plain format va = true -> prints (dsay clock depth format va) tt (text_of format va).
Proof.
  intros Hi Hp. unfold text_of. destruct (rendered_plain format va Hp) as (n & t & E). rewrite E. by eapply prints_say.
Qed.

Lemma frame_loop_prints max fs : forall fuel stk frame last, chain stk fs last -> (length fs <= fuel)%nat -> 0 <= frame -> max <= 255 ->
  frame + Z.of_nat (length fs) = max \/ (last = 0 /\ frame + Z.of_nat (length fs) <= max) ->
  prints (frame_loop mem (print_frame clock depth mem) fuel stk frame max) tt (flat_map frame_text fs).
Proof.
  induction fs as [|[a rip] fs IH]; intros fuel stk frame last Hc Hf H0 Hmax Hend; cbn [flat_map length chain] in *.
  - assert (Hstop : negb (stk =? 0) && (frame <? max) = false).
    { destruct Hend as [Hend|[Hl _]]; [|subst last; by subst stk]. rewrite (proj2 (Z.ltb_ge _ _)) by lia. apply andb_false_r. }
    destruct fuel; cbn [frame_loop]; rewrite Hstop; apply prints_ret.
  - destruct Hc as (-> & Hne & Hrip & next & Hnext & Hc). destruct fuel as [|fuel]; [lia|]. cbn [frame_loop].
    rewrite (proj2 (Z.eqb_neq _ _) Hne), (proj2 (Z.ltb_lt frame max)) by lia. cbn [negb andb].
    eapply (prints_bind _ _ tt _ (frame_text (stk, rip))); [| |done].
    { unfold print_frame. eapply (prints_bind _ _ rip _ []); [by apply prints_word| |done]. by apply say_plain; [repeat constructor|]. }
    eapply (prints_bind _ _ next _ []); [by apply prints_word| |done]. rewrite wrap_small by lia. apply (IH fuel next (frame + 1) last); try done; try lia.
Qed.

(** A line of text. *)
Definition line (msg : string) : list Z := chars msg ++ [10].
Definition bar : list Z := line "-----------------------------------------------".
Definition trace_text (fs : list (Z * Z)) : list Z :=
  bar ++ line "    INFO: Stack Trace (Unwind) as Follows" ++ bar ++ flat_map frame_text fs ++ bar ++ line "End of Trace." ++ bar.

Definition no_nul (l : list Z) : bool := forallb (fun c => negb (c =? 0)) l.
Lemma no_nul_spec l : no_nul l = true -> Forall (fun c => c <> 0) l.
Proof. unfold no_nul. rewrite forallb_forall, Forall_forall. intros H c Hc. specialize (H c (proj1 (list_elem_of_In _ _) Hc)). lia. Qed.

Lemma string_line l rest : Forall (fun c => c <> 0) l -> prints (dsay clock depth (chars "%s" ++ [10; 0]) [Str (l ++ 0 :: rest)]) tt (l ++ [10]).
Proof.
  intros Hl. destruct (rendered_string [] [10] l rest) as [n E]; [done|by repeat constructor|done|]. eapply prints_say; [by repeat constructor|exact E].
Qed.

Lemma line_prints msg : no_nul (chars msg) = true -> prints (dline clock depth msg) tt (line msg).
Proof. intros Hp. by apply string_line, no_nul_spec. Qed.

Lemma trace_end_prints : prints (trace_end clock depth) tt (bar ++ line "End of Trace." ++ bar).
Proof. unfold trace_end. eapply prints_bind; [by apply line_prints| |done]. eapply prints_bind; [by apply line_prints|by apply line_prints|done]. Qed.

Lemma stack_trace_prints fuel rbp max fs last : chain rbp fs last -> (length fs <= fuel)%nat -> max_of max <= 255 ->
  Z.of_nat (length fs) = max_of max \/ (last = 0 /\ Z.of_nat (length fs) <= max_of max) ->
  prints (stack_trace clock depth mem fuel rbp max) tt (trace_text fs).
Proof.
  intros Hc Hf Hm Hend. unfold stack_trace, trace_text. rewrite !app_assoc, <- (app_assoc _ bar (line _)), <- (app_assoc _ _ bar).
  eapply (prints_bind _ _ tt tt (bar ++ line "    INFO: Stack Trace (Unwind) as Follows" ++ bar)).
  { unfold trace_head. eapply prints_bind; [by apply line_prints| |done]. eapply prints_bind; [by apply line_prints|by apply line_prints|done]. }
  - eapply prints_bind; [by apply (frame_loop_prints _ fs _ _ _ last)|apply trace_end_prints|done].
  - by rewrite <- !app_assoc.
Qed.

(** ** The memory map report *)
Definition num_text (format : string) (v : Z) : list Z := text_of (chars format ++ [10; 0]) [Word v].
Fixpoint entries_text (i : Z) (es : list limine_memmap_entry) : list Z :=
  match es with
  | [] => []
  | e :: es => chars "Info For Entry Number: " ++ num_text "%llu" (u64 (i + 1)) ++ num_text "Entry Base: 0x%llx" (me_base e) ++
      num_text "Entry Limit: 0x%llx" (me_length e) ++ num_text "Entry Type: %llu" (me_type e) ++
      line "--------------------------------------" ++ entries_text (i + 1) es
  end.

Lemma num_prints format v : plain (chars format ++ [10; 0]) [Word v] = true -> prints (dnum clock depth format v) tt (num_text format v).
Proof. intros H. by apply say_plain; [repeat constructor|]. Qed.

Lemma memmap_loop_prints es : forall i c,
  prints (memmap_loop clock depth es i c) (foldl (fun c e => count_entry (me_type e) c) c es) (entries_text i es).
Proof.
  induction es as [|e es IH]; intros i c; cbn [memmap_loop entries_text foldl]; [apply prints_ret|].
  eapply prints_bind; [by apply (say_plain (cstr "%s") [Str (cstr "Info For Entry Number: ")]); [repeat constructor|]| |done].
  do 4 (eapply prints_bind; [by apply num_prints| |done]). eapply prints_bind; [by apply line_prints|apply IH|done].
Qed.

(** The counters of the report count the entries of each kind. *)
Definition of_type (t : Z) (es : list limine_memmap_entry) : nat := length (List.filter (fun e => me_type e =? t) es).
Lemma count_entries es : forall c, Z.of_nat (length es) + Z.max (Z.max (num_usable c) (num_bad c)) (Z.max (num_reclaim_bl c) (num_reclaim_acpi c)) < 2 ^ 64 ->
  0 <= num_usable c -> 0 <= num_bad c -> 0 <= num_reclaim_bl c -> 0 <= num_reclaim_acpi c ->
  foldl (fun c e => count_entry (me_type e) c) c es =
    Counts (num_usable c + Z.of_nat (of_type LIMINE_MEMMAP_USABLE es)) (num_bad c + Z.of_nat (of_type LIMINE_MEMMAP_BAD_MEMORY es))
      (num_reclaim_bl c + Z.of_nat (of_type LIMINE_MEMMAP_BOOTLOADER_RECLAIMABLE es)) (num_reclaim_acpi c + Z.of_nat (of_type LIMINE_MEMMAP_ACPI_RECLAIMABLE es)).
Proof.
  unfold of_type. induction es as [|e es IH]; intros [u b r a] Hl Hu Hb Hr Ha; cbn [foldl List.filter length num_usable num_bad num_reclaim_bl num_reclaim_acpi] in *.
  { by rewrite !Z.add_0_r. }
  rewrite IH; unfold count_entry, LIMINE_MEMMAP_USABLE, LIMINE_MEMMAP_BAD_MEMORY, LIMINE_MEMMAP_BOOTLOADER_RECLAIMABLE, LIMINE_MEMMAP_ACPI_RECLAIMABLE in *;
    destruct (Z.eqb_spec (me_type e) 0), (Z.eqb_spec (me_type e) 4), (Z.eqb_spec (me_type e) 5), (Z.eqb_spec (me_type e) 2); try lia;
    cbn [num_usable num_bad num_reclaim_bl num_reclaim_acpi length]; rewrite ?wrap_small by lia; try lia; f_equal; lia.
Qed.

(** ** The panic screen *)
Lemma store_first buf l m k : Z.of_nat k < Z.of_nat (length l) -> store_bytes buf l m !! (buf + Z.of_nat k) = l !! k.
Proof.
  intros Hk. rewrite lookup_store_bytes, decide_True by lia. f_equal. lia.
Qed.

(** The array holds the start of the text and a terminator. *)
Lemma cause_text_correct buf fmt va n text s : integral va -> rendered fmt va = Ret n text -> Z.of_nat (length text) < 2 ^ 64 ->
  0 < buf -> buf + 1024 <= 2 ^ 64 -> exists rest, cause_text buf fmt va s = Ret (take 1023 text ++ 0 :: rest) s.
Proof.
  intros Hi Hr Hl Hb Hbc. unfold cause_text.
  change (@vsnprintf_ con) with (@snprintf_ con). rewrite (snprintf_stores _ _ fmt va n text buf 1024 _ Hi Hr Hl) by lia.
  cbn [bytes console set_bytes]. change (Z.to_nat (1024 - 1)) with 1023%nat. set (l := take 1023 text ++ [0]).
  assert (Hlen : (length l <= 1024)%nat) by (unfold l; rewrite length_app, length_take; cbn [length]; lia).
  set (arr := _ <$> _). exists (drop (length l) arr). f_equal. rewrite <- (take_drop (length l) arr) at 1.
  replace (take 1023 text ++ 0 :: drop (length l) arr) with (l ++ drop (length l) arr) by (unfold l; by rewrite <- app_assoc). f_equal.
  apply list_eq. intros k. rewrite lookup_take. case_decide as Hk; [|symmetry; apply lookup_ge_None; lia].
  unfold arr. rewrite list_lookup_fmap, lookup_seqZ_lt by lia.
  cbn [fmap option_fmap option_map]. rewrite Z.add_0_l, store_first by lia.
  destruct (lookup_lt_is_Some_2 l k Hk) as [c Hc]. by rewrite Hc.
Qed.

(** What the screen shows for message [text], frames [fs] and the 256 bytes [dump]. *)
Definition panic_text (text : list Z) (fs : list (Z * Z)) (dump : list Z) : list Z :=
  line "!!!!!!!!!!!!!!!!!!!!KERNEL PANIC!!!!!!!!!!!!!!!!!!!!!" ++
  line "-----------------------------------------------------" ++
  chars "CAUSE: " ++ (take 1023 text ++ [10]) ++
  line "-----------------------------------------------------" ++
  trace_text fs ++
  bar ++ line "    INFO: Stack Trace (Dump) as Follows" ++ bar ++ hexdump dump ++ (bar ++ line "End of Trace." ++ bar) ++
  line "!!!!!!!!!!!!!!!!!!!!KERNEL PANIC!!!!!!!!!!!!!!!!!!!!!".

(** [c] prints [text] and goes on as [h]. *)
Definition prints_to {B} (c : K con B) (h : K con B) (text : list Z) : Prop := forall s, c s = bind (put text) (fun _ => h) s.

Lemma prints_seq {B} (c : K con unit) (k : unit -> K con B) h t1 t2 : prints c tt t1 -> prints_to (k tt) h t2 -> prints_to (bind c k) h (t1 ++ t2).
Proof.
  intros H1 H2 s. unfold bind. rewrite (prints_put c t1 s H1), put_app. unfold bind. destruct (put t1 s) as [[] s1| | |]; [|done|done|done]. by rewrite H2.
Qed.

Lemma prints_last {B} (c : K con unit) (h : K con B) t : prints c tt t -> prints_to (bind c (fun _ => h)) h t.
Proof. intros H1 s. unfold bind. by rewrite (prints_put c t s H1). Qed.

Lemma frame_dump_prints ascii rbp data bs : word_at rbp data -> bytes_at data bs -> length ascii = 17%nat ->
  prints (stack_dump_asm clock depth mem ascii rbp (Z.of_nat (length bs))) tt (hexdump bs).
Proof. intros Hw Hbs Ha. eapply (prints_bind _ _ data _ []); [by apply prints_word|by apply dump_hex_prints|done]. Qed.

(** What the machine's memory must hold: the chain of frames the trace follows, cut
    at 24 or ended by a null pointer, and 256 bytes from the saved frame pointer. *)
Definition panic_memory (rbp rbp_trace : Z) (fs : list (Z * Z)) (dump : list Z) : Prop :=
  (exists last, chain rbp_trace fs last /\ (length fs = 24%nat \/ (last = 0 /\ (length fs <= 24)%nat))) /\
  exists data, word_at rbp data /\ bytes_at data dump /\ length dump = 256%nat.

Lemma panic_prints buf ascii rbp rbp_trace fmt va init n text fs dump s :
  integral va -> rendered fmt va = Ret n text -> Forall (fun c => c <> 0) text -> Z.of_nat (length text) < 2 ^ 64 ->
  0 < buf -> buf + 1024 <= 2 ^ 64 -> length ascii = 17%nat -> panic_memory rbp rbp_trace fs dump ->
  panic_screen clock depth mem buf ascii 24 rbp rbp_trace init fmt va s =
    bind (put (panic_text text fs dump)) (fun _ => halt) (if init =? 1 then set_kerror 1 s else s).
Proof.
  intros Hi Hr Hnz Hl Hb Hbc Ha [(last & Hch & Hend) (data & Hw & Hd & H256)]. set (s1 := if init =? 1 then set_kerror 1 s else s).
  unfold panic_screen. rewrite (bind_Ret _ _ _ tt s1) by (unfold s1; by destruct (init =? 1)).
  destruct (cause_text_correct buf fmt va n text s1 Hi Hr Hl Hb Hbc) as [rest Ec]. rewrite (bind_Ret _ _ _ _ _ Ec). revert s1 Ec. intros s1 _.
  assert (Hcause : Forall (fun c => c <> 0) (take 1023 text)) by by apply Forall_take.
  do 2 (eapply prints_seq; [by apply line_prints|]).
  eapply prints_seq; [by apply (say_plain (cstr "%s") [Str (cstr "CAUSE: ")]); [repeat constructor|]|].
  eapply prints_seq; [by apply string_line|]. eapply prints_seq; [by apply line_prints|].
  eapply prints_seq; [apply (stack_trace_prints 24 rbp_trace 0 fs last); [done|by destruct Hend as [->|[_ ?]]|done|]|].
  { change (max_of 0) with 24. destruct Hend as [H|[? ?]]; [left; lia|right; split; [done|lia]]. }
  do 3 (eapply prints_seq; [by apply line_prints|]).
  change 256 with (Z.of_nat 256). rewrite <- H256. eapply prints_seq; [by apply (frame_dump_prints ascii rbp data)|].
  eapply prints_seq; [apply trace_end_prints|]. eapply prints_last. by apply line_prints.
Qed.

(** C40. [panic] ends on the halt loop with the whole screen printed: the banner, the
    formatted message cut to the 1023 characters its buffer holds, the return
    addresses of the frames (at most 24), and the dump of 256 bytes from the saved
    frame pointer; after initialisation the console is in panic mode first. *)
Theorem panic_screen_correct buf ascii rbp rbp_trace fmt va init n text fs dump s :
  (0 < depth)%nat -> integral va -> rendered fmt va = Ret n text -> Forall (fun c => c <> 0) text -> Z.of_nat (length text) < 2 ^ 64 ->
  0 < buf -> buf + 1024 <= 2 ^ 64 -> length ascii = 17%nat -> panic_memory rbp rbp_trace fs dump ->
  let s1 := if init =? 1 then set_kerror 1 s else s in live s1 ->
  exists s', put (panic_text text fs dump) s1 = Ret tt s' /\ panic_screen clock depth mem buf ascii 24 rbp rbp_trace init fmt va s = Hang s' /\
    kerror_mode s' = kerror_mode s1.
Proof.
  intros Hd Hi Hr Hnz Hl Hb Hbc Ha Hm s1 Hlive. destruct (putchars_live clock depth Hd (panic_text text fs dump) s1 Hlive) as (s' & E & _ & Hk).
  exists s'. split; [done|]. split; [|done]. rewrite (panic_prints buf ascii rbp rbp_trace fmt va init n text fs dump s) by done.
  fold s1. by rewrite (bind_Ret _ _ _ _ _ E).
Qed.
End prints.

(** ** A machine *)
Definition demo_words : list Z := [0; 0; 0; 0; 0; 0; 0; 0;  0x34; 0x12; 0; 0x80; 0xff; 0xff; 0xff; 0xff;  0; 0x20; 0; 0; 0; 0; 0; 0].
Definition demo_mem (a : Z) : option Z :=
  if (0x2000 <=? a) && (a <? 0x2100) then Some (a mod 256) else if 0x1000 <=? a then demo_words !! Z.to_nat (a - 0x1000) else None.
Definition demo_dump : list Z := seqZ 0 256.
Definition demo_con : con := Con 0 2 0 0 0 0 [] 0 [].

Lemma demo_word k a v : a = 0x1000 + Z.of_nat k -> v = le (take 8 (drop k demo_words)) -> (k + 8 <= 24)%nat -> word_at demo_mem a v.
Proof.
  intros -> -> Hk. assert (Hall : forallb (fun b => (0 <=? b) && (b <? 256)) demo_words = true) by reflexivity.
  assert (Hl : length (take 8 (drop k demo_words)) = 8%nat) by (rewrite length_take, length_drop; change (length demo_words) with 24%nat; lia). eexists. split; [exact Hl|]. split; [|done]. intros i b. rewrite lookup_take. case_decide as Hi; [|done]. rewrite lookup_drop. intros Hb. split.
  - pose proof (lookup_lt_Some _ _ _ Hb) as Hlt. change (length demo_words) with 24%nat in Hlt. unfold demo_mem.
    rewrite (proj2 (Z.leb_gt _ _)), (proj2 (Z.leb_le _ _)) by lia. cbn [andb]. rewrite <- Hb. f_equal. lia.
  - apply list_elem_of_lookup_2, list_elem_of_In in Hb. rewrite forallb_forall in Hall. specialize (Hall b Hb). lia.
Qed.

Lemma demo_bytes : bytes_at demo_mem 0x2000 demo_dump.
Proof.
  intros i b Hb. unfold demo_dump in Hb. apply lookup_seqZ in Hb as [-> Hi]. unfold demo_mem. rewrite (proj2 (Z.leb_le _ _)), (proj2 (Z.ltb_lt _ _)) by lia.
  cbn [andb]. split; [|lia]. f_equal. dm_lia.
Qed.

Lemma demo_panic : panic_memory demo_mem 0x1010 0x1000 [(0x1000, 0xffffffff80001234)] demo_dump.
Proof.
  split.
  - exists 0. split; [|right; split; [done|cbn; lia]]. split; [done|]. split; [done|]. split; [apply (demo_word 8); [done|done|lia]|]. exists 0. split; [apply (demo_word 0); [done|done|lia]|done].
  - exists 0x2000. split; [apply (demo_word 16); [done|done|lia]|]. split; [exact demo_bytes|done].
Qed.

Lemma dump_hex_correct_witness : dump_hex (fun _ => 0) 1 demo_mem (replicate 17 255) 0x2000 256 demo_con = putchars (_putchar (fun _ => 0) 1) (hexdump demo_dump) demo_con.
Proof. by apply (dump_hex_correct (fun _ => 0) 1 demo_mem (replicate 17 255) 0x2000 demo_dump demo_con demo_bytes). Defined.

Lemma panic_screen_correct_witness :
  exists s', panic_screen (fun _ => 0) 1 demo_mem 64 (replicate 17 255) 24 0x1010 0x1000 1 (cstr "bad page") [] demo_con = Hang s' /\ kerror_mode s' = 1.
Proof.
  destruct (panic_screen_correct (fun _ => 0) 1 demo_mem 64 (replicate 17 255) 0x1010 0x1000 (cstr "bad page") [] 1 8 (chars "bad page")
    [(0x1000, 0xffffffff80001234)] demo_dump demo_con) as (s' & _ & E & Hk).
  - lia.
  - constructor.
  - reflexivity.
  - by repeat constructor.
  - reflexivity.
  - lia.
  - lia.
  - reflexivity.
  - exact demo_panic.
  - split; [by left|by left].
  - exists s'. by split.
Defined.

(** ** The stack walker of [tracer.asm] *)
Lemma ldw_eq m a v : m !! a = Some v -> ldw a m = Ret v m.
Proof. intros H. unfold ldw. by rewrite H. Qed.
Lemma stw_eq m a v : is_Some (m !! a) -> stw a v m = Ret tt (<[a := v]> m).
Proof. intros [w H]. unfold stw. by rewrite H. Qed.

Ltac at_word := repeat (rewrite lookup_insert_eq || rewrite lookup_insert_ne by lia); (eassumption || reflexivity).
Ltac walk_step := first
  [ erewrite bind_Ret; [|apply ldw_eq; at_word]
  | erewrite bind_Ret; [|apply stw_eq; eexists; at_word]].

(** Called the way the C code calls it (array in RDI, bound in RSI), [walk_stack]
    takes the array for the frame chain, the caller's frame pointer for the array
    and its return address for the bound: it stores the second word of the array
    over the caller's saved frame pointer and gives 1. *)
Lemma walk_stack_clobbers fuel rsp r ret_addr a0 a1 old w1 w2 w3 m : (0 < fuel)%nat ->
  m !! (rsp - 8) = Some w1 -> m !! (rsp - 16) = Some w2 -> m !! (rsp - 24) = Some w3 -> m !! rsp = Some ret_addr ->
  m !! rdi r = Some a0 -> m !! (rdi r + 8) = Some a1 -> m !! rbp r = Some old ->
  0 < ret_addr -> 0 < rdi r -> rsp < rdi r -> rsp < rbp r ->
  exists m', walk_stack fuel rsp r m = Ret (Regs 1 (rbx r) (rdi r) (rbp r)) m' /\ m' !! rbp r = Some a1.
Proof.
  intros Hf H1 H2 H3 Hr Ha0 Ha1 Hb Hra Hdi Hd1 Hd2. destruct fuel as [|fuel]; [lia|]. destruct r as [ax bx di bp]. cbn [rdi rbp rbx] in *.
  unfold walk_stack. cbv beta zeta. cbn [rdi rbp rbx].
  replace (rsp - 8 - 16 + 8) with (rsp - 16) by lia. replace (rsp - 8 - 16 + 16) with (rsp - 8) by lia. replace (rsp - 8 - 16 + 24) with rsp by lia.
  replace (rsp - 8 - 8) with (rsp - 16) by lia. replace (rsp - 8 - 16) with (rsp - 24) by lia.
  do 6 walk_step.
  unfold bind at 1. cbn [walk_frames]. rewrite (proj2 (Z.eqb_neq di 0)) by lia. do 3 walk_step. change (u64 (0 + 1)) with 1.
  rewrite (proj2 (Z.geb_le ret_addr 1)) by lia. unfold ret at 1. do 3 walk_step. eexists. split; [reflexivity|]. apply lookup_insert_eq.
Qed.
End DiagSpec.
