(* ===== verification/IsrEntry.v ===== *)
(** Interrupt entry and exit, [src/src/isr.asm], instruction by instruction.

    The machine has the registers the stubs touch (not the x87 and vector registers,
    nor FS and GS) and the words of the memory its stack lies in; pushing to or popping from a word that is not mapped faults, and so
    does loading a segment register from a descriptor of the wrong kind ([Gdt]).  The
    processor's part is [deliver] and [iretq].  A handler is a routine of the machine. *)
From S2P Require Import Prelude Gdt.

Module IsrEntry.

Inductive reg : Type := RAX | RBX | RCX | RDX | RSI | RDI | RBP | RSP | R8 | R9 | R10 | R11 | R12 | R13 | R14 | R15.
Inductive creg : Type := CR0 | CR2 | CR3 | CR4.
Inductive sreg : Type := CS | SS | DS | ES.
#[export] Instance reg_eq_dec : EqDecision reg.
Proof. solve_decision. Defined.
#[export] Instance creg_eq_dec : EqDecision creg.
Proof. solve_decision. Defined.
#[export] Instance sreg_eq_dec : EqDecision sreg.
Proof. solve_decision. Defined.

Record machine : Type := Machine {
  gpr : reg -> Z;
  ctl : creg -> Z;
  seg : sreg -> Z;
  rip : Z;
  rflags : Z;
  words : gmap Z Z;
}.
Definition upd {X} `{EqDecision X} (x : X) (v : Z) (f : X -> Z) (y : X) : Z := if decide (x = y) then v else f y.
Definition set_gpr (r : reg) (v : Z) (m : machine) : machine := Machine (upd r v (gpr m)) (ctl m) (seg m) (rip m) (rflags m) (words m).
Definition set_ctl (r : creg) (v : Z) (m : machine) : machine := Machine (gpr m) (upd r v (ctl m)) (seg m) (rip m) (rflags m) (words m).
Definition set_seg (r : sreg) (v : Z) (m : machine) : machine := Machine (gpr m) (ctl m) (upd r v (seg m)) (rip m) (rflags m) (words m).
Definition set_rip (v : Z) (m : machine) : machine := Machine (gpr m) (ctl m) (seg m) v (rflags m) (words m).
Definition set_rflags (v : Z) (m : machine) : machine := Machine (gpr m) (ctl m) (seg m) (rip m) v (words m).
Definition set_words (w : gmap Z Z) (m : machine) : machine := Machine (gpr m) (ctl m) (seg m) (rip m) (rflags m) w.

(** The interrupt flag is bit 9. *)
Definition IF : Z := 0x200.
Definition ax (v : Z) : Z := Z.land v 0xFFFF.

Definition push (v : Z) : K machine unit := fun m =>
  let sp := u64 (gpr m RSP - 8) in
  match words m !! sp with
  | Some _ => Ret tt (set_words (<[sp := v]> (words m)) (set_gpr RSP sp m))
  | None => Fault sp m
  end.
Definition pop : K machine Z := fun m =>
  match words m !! gpr m RSP with
  | Some v => Ret v (set_gpr RSP (u64 (gpr m RSP + 8)) m)
  | None => Fault (gpr m RSP) m
  end.

Inductive instr : Type :=
| Cli | Sti | Nop
| PushI (n : Z)                       (* push n *)
| Push (r : reg)                      (* push r *)
| Pop (r : reg)                       (* pop r *)
| Mov (d s : reg)                     (* mov d, s *)
| RaxCr (c : creg)                    (* mov rax, c *)
| CrRax (c : creg)                    (* mov c, rax *)
| AxSeg (s : sreg)                    (* mov ax, s *)
| AxI (n : Z)                         (* mov ax, n *)
| SegAx (s : sreg)                    (* mov s, ax *)
| LeaRsp (d : reg) (n : Z)            (* lea d, [rsp + n] *)
| AddRsp (n : Z).                     (* add rsp, n *)

Section machine.
Variable g : GDT.

(** A data segment register accepts the selectors of present writable data segments. *)
Definition loadable (sel : Z) : bool := match segment_at g sel with Some e => is_data e | None => false end.

Definition step (i : instr) : K machine unit :=
  let! m := get in
  match i with
  | Cli => modify (set_rflags (Z.ldiff (rflags m) IF))
  | Sti => modify (set_rflags (Z.lor (rflags m) IF))
  | Nop => ret tt
  | PushI n => push n
  | Push r => push (gpr m r)
  | Pop r => let! v := pop in modify (set_gpr r v)
  | Mov d s => modify (set_gpr d (gpr m s))
  | RaxCr c => modify (set_gpr RAX (ctl m c))
  | CrRax c => modify (set_ctl c (gpr m RAX))
  | AxSeg s => modify (set_gpr RAX (Z.lor (Z.ldiff (gpr m RAX) 0xFFFF) (seg m s)))
  | AxI n => modify (set_gpr RAX (Z.lor (Z.ldiff (gpr m RAX) 0xFFFF) n))
  | SegAx s => if loadable (ax (gpr m RAX)) then modify (set_seg s (ax (gpr m RAX))) else fault (ax (gpr m RAX))
  | LeaRsp d n => modify (set_gpr d (u64 (gpr m RSP + n)))
  | AddRsp n => modify (set_gpr RSP (u64 (gpr m RSP + n)))
  end.
Definition run (code : list instr) : K machine unit := for_each code step.

(** [call f], [f] ending in [ret]; [ra] is the address behind the call. *)
Definition call (ra : Z) (f : K machine unit) : K machine unit :=
  do! push ra in do! f in let! a := pop in modify (set_rip a).

Definition iretq : K machine unit :=
  let! ip := pop in let! c := pop in let! fl := pop in let! sp := pop in let! st := pop in
  modify (fun m => set_seg SS st (set_gpr RSP sp (set_rflags fl (set_seg CS c (set_rip ip m))))).

(** ** The macros *)
Definition pushagrd : list instr := [Push RAX; Push RBX; Push RCX; Push RDX; Push RSI; Push RDI].
Definition popagrd : list instr := [Pop RDI; Pop RSI; Pop RDX; Pop RCX; Pop RBX; Pop RAX].
Definition pushacrd : list instr := [RaxCr CR0; Push RAX; RaxCr CR2; Push RAX; RaxCr CR3; Push RAX; RaxCr CR4; Push RAX].
Definition popacrd : list instr := [Pop RAX; CrRax CR4; Pop RAX; CrRax CR3; Pop RAX; CrRax CR2; Pop RAX; CrRax CR0].

Definition isr_err_stub (n : Z) : list instr := [Cli; PushI n].
Definition isr_no_err_stub (n : Z) : list instr := [Cli; PushI 0; PushI n].
Definition isr_irq_stub (n : Z) : list instr := [Cli; PushI 0; PushI n].

(** ** The two frame assemblers: before and after the call. *)
Definition xframe_entry : list instr :=
  [Push RBP; Mov RBP RSP; Nop] ++ pushagrd ++ pushacrd ++
  [Nop; AxSeg DS; Push RAX; Nop; PushI 0; Nop; AxI 0x10; SegAx DS; SegAx ES; SegAx SS; Nop; LeaRsp RDI 0x10].
Definition xframe_exit : list instr :=
  [Nop; Pop RAX; Pop RAX; SegAx DS; SegAx ES] ++ popacrd ++ popagrd ++ [Pop RBP; AddRsp 0x10; Sti].
Definition isr_xframe_assembler (ra : Z) (isr_exception_handler : K machine unit) : K machine unit :=
  do! run xframe_entry in do! call ra isr_exception_handler in do! run xframe_exit in iretq.

Definition irq_xframe_entry : list instr :=
  [Push RBP; Mov RBP RSP] ++ pushagrd ++ pushacrd ++
  [AxSeg DS; Push RAX; PushI 0; AxI 0x10; SegAx DS; SegAx ES; SegAx SS; LeaRsp RDI 0x10].
Definition irq_xframe_exit : list instr :=
  [Pop RAX; Pop RAX; SegAx DS; SegAx ES] ++ popacrd ++ popagrd ++ [Pop RBP; AddRsp 0x10; Sti].
Definition isr_irq_xframe_assembler (ra : Z) (irq_handler : K machine unit) : K machine unit :=
  do! run irq_xframe_entry in do! call ra irq_handler in do! run irq_xframe_exit in iretq.

(** [isr_stub_table], 100 entries. *)
Definition has_error_stub (v : Z) : bool := existsb (Z.eqb v) [8; 10; 11; 12; 13; 14; 17; 30].
Section stubs.
Variables (ra_exc ra_irq : Z) (isr_exception_handler irq_handler : K machine unit).
Definition isr_stub (v : Z) : option (K machine unit) :=
  if (v <? 0) || (100 <=? v) then None
  else if v <? 32 then
    Some (do! run (if has_error_stub v then isr_err_stub v else isr_no_err_stub v) in isr_xframe_assembler ra_exc isr_exception_handler)
  else Some (do! run (isr_irq_stub v) in isr_irq_xframe_assembler ra_irq irq_handler).

(** ** The processor

    Exceptions that push an error code. *)
Definition pushes_error (v : Z) : bool := existsb (Z.eqb v) [8; 10; 11; 12; 13; 14; 17; 21; 29; 30].

(** Through an interrupt gate with stack [ist] (0: the current one): the frame goes to
    the aligned stack, and the interrupt flag is cleared. *)
Definition deliver (ist v err entry_cs entry : Z) : K machine unit :=
  let! m := get in
  do! modify (set_gpr RSP (Z.ldiff (if ist =? 0 then gpr m RSP else ist) 15)) in
  do! push (seg m SS) in
  do! push (gpr m RSP) in
  do! push (rflags m) in
  do! push (seg m CS) in
  do! push (rip m) in
  do! when (pushes_error v) (push err) in
  modify (fun m => set_rflags (Z.ldiff (rflags m) IF) (set_seg CS entry_cs (set_rip entry m))).

(** From the interrupted instruction and back. *)
Definition interrupt (ist v err entry_cs entry : Z) : K machine unit :=
  do! deliver ist v err entry_cs entry in
  match isr_stub v with Some code => code | None => fault entry end.
End stubs.
End machine.
End IsrEntry.
