(* ===== verification/IsrEntrySpec.v ===== *)
(** What an interrupt does to the code it interrupts.

    [astep] runs the same instructions on an abstract machine whose stack is a list
    that starts at an address [top]; [sim_run] shows that the machine of [IsrEntry]
    implements it.  The stubs are then executed on the abstract machine. *)
From S2P Require Import Prelude Gdt IsrEntry.

Module IsrEntrySpec.
Import IsrEntry.

(** ** The abstract machine *)
Record amach : Type := AMach {
  a_gpr : reg -> Z;       (* not RSP *)
  a_ctl : creg -> Z;
  a_seg : sreg -> Z;
  a_rip : Z;
  a_rflags : Z;
  a_stack : list Z;
}.
Definition with_gpr (r : reg) (v : Z) (a : amach) : amach := AMach (upd r v (a_gpr a)) (a_ctl a) (a_seg a) (a_rip a) (a_rflags a) (a_stack a).
Definition with_ctl (r : creg) (v : Z) (a : amach) : amach := AMach (a_gpr a) (upd r v (a_ctl a)) (a_seg a) (a_rip a) (a_rflags a) (a_stack a).
Definition with_seg (r : sreg) (v : Z) (a : amach) : amach := AMach (a_gpr a) (a_ctl a) (upd r v (a_seg a)) (a_rip a) (a_rflags a) (a_stack a).
Definition with_rflags (v : Z) (a : amach) : amach := AMach (a_gpr a) (a_ctl a) (a_seg a) (a_rip a) v (a_stack a).
Definition with_stack (l : list Z) (a : amach) : amach := AMach (a_gpr a) (a_ctl a) (a_seg a) (a_rip a) (a_rflags a) l.

(** Words the stubs need below [top]: 20 and the return address of the handler. *)
Definition depth : nat := 21.

Section refinement.
Context (g : GDT) (top : Z).
Hypothesis Htop : 8 * Z.of_nat depth <= top < 2 ^ 64.

Definition sp_of (l : list Z) : Z := top - 8 * Z.of_nat (length l).
Definition slot (x : Z) : Prop := exists k, (1 <= k <= depth)%nat /\ x = top - 8 * Z.of_nat k.
Definition a_reg (a : amach) (r : reg) : Z := if decide (r = RSP) then sp_of (a_stack a) else a_gpr a r.

Definition apush (v : Z) (a : amach) : option amach :=
  if (length (a_stack a) <? depth)%nat then Some (with_stack (v :: a_stack a) a) else None.

Definition astep (i : instr) (a : amach) : option amach :=
  match i with
  | Cli => Some (with_rflags (Z.ldiff (a_rflags a) IF) a)
  | Sti => Some (with_rflags (Z.lor (a_rflags a) IF) a)
  | Nop => Some a
  | PushI n => apush n a
  | Push r => apush (a_reg a r) a
  | Pop RSP | Mov RSP _ | LeaRsp RSP _ => None
  | Pop r => match a_stack a with v :: l => Some (with_gpr r v (with_stack l a)) | [] => None end
  | Mov d s => Some (with_gpr d (a_reg a s) a)
  | RaxCr c => Some (with_gpr RAX (a_ctl a c) a)
  | CrRax c => Some (with_ctl c (a_gpr a RAX) a)
  | AxSeg s => Some (with_gpr RAX (Z.lor (Z.ldiff (a_gpr a RAX) 0xFFFF) (a_seg a s)) a)
  | AxI n => Some (with_gpr RAX (Z.lor (Z.ldiff (a_gpr a RAX) 0xFFFF) n) a)
  | SegAx s => if loadable g (ax (a_gpr a RAX)) then Some (with_seg s (ax (a_gpr a RAX)) a) else None
  | LeaRsp d n => Some (with_gpr d (u64 (sp_of (a_stack a) + n)) a)
  | AddRsp n => match a_stack a with _ :: _ :: l => if n =? 16 then Some (with_stack l a) else None | _ => None end
  end.
Fixpoint arun (code : list instr) (a : amach) : option amach :=
  match code with
  | [] => Some a
  | i :: code => match astep i a with Some a => arun code a | None => None end
  end.

(** ** Simulation *)

(** [m] has the registers of [a] and its stack in memory; all slots are mapped, and
    the other words are those of [w]. *)
Record sim (w : gmap Z Z) (a : amach) (m : machine) : Prop := Sim {
  s_rsp : gpr m RSP = sp_of (a_stack a);
  s_gpr : forall r, r <> RSP -> gpr m r = a_gpr a r;
  s_ctl : forall c, ctl m c = a_ctl a c;
  s_seg : forall s, seg m s = a_seg a s;
  s_rip : rip m = a_rip a;
  s_rflags : rflags m = a_rflags a;
  s_len : (length (a_stack a) <= depth)%nat;
  s_stack : forall i v, a_stack a !! i = Some v -> words m !! (sp_of (a_stack a) + 8 * Z.of_nat i) = Some v;
  s_slots : forall x, slot x -> is_Some (words m !! x);
  s_rest : forall x, ~ slot x -> words m !! x = w !! x;
}.

Lemma sim_reg w a m r : sim w a m -> gpr m r = a_reg a r.
Proof. intros H. unfold a_reg. case_decide as Hr; [subst r; apply H|by apply H]. Qed.

Lemma upd_same {X} `{EqDecision X} (f f' : X -> Z) x v y : (forall y, f y = f' y) -> upd x v f y = upd x v f' y.
Proof. intros H. unfold upd. by case_decide. Qed.

Lemma sim_gpr w a m r v : sim w a m -> r <> RSP -> sim w (with_gpr r v a) (set_gpr r v m).
Proof.
  intros [] Hr. constructor; cbn [with_gpr set_gpr gpr ctl seg rip rflags words a_gpr a_ctl a_seg a_rip a_rflags a_stack]; try done.
  - unfold upd. by rewrite decide_False.
  - intros r' Hr'. unfold upd. case_decide; [done|by apply s_gpr0].
Qed.
Lemma sim_ctl w a m c v : sim w a m -> sim w (with_ctl c v a) (set_ctl c v m).
Proof. intros []. constructor; cbn [with_ctl set_ctl gpr ctl seg rip rflags words a_gpr a_ctl a_seg a_rip a_rflags a_stack]; try done. intros. by apply upd_same. Qed.
Lemma sim_seg w a m s v : sim w a m -> sim w (with_seg s v a) (set_seg s v m).
Proof. intros []. constructor; cbn [with_seg set_seg gpr ctl seg rip rflags words a_gpr a_ctl a_seg a_rip a_rflags a_stack]; try done. intros. by apply upd_same. Qed.
Lemma sim_rflags w a m v : sim w a m -> sim w (with_rflags v a) (set_rflags v m).
Proof. intros []. by constructor. Qed.

Lemma sim_push w a m v : sim w a m -> (length (a_stack a) < depth)%nat ->
  exists m', push v m = Ret tt m' /\ sim w (with_stack (v :: a_stack a) a) m'.
Proof.
  intros [] Hl. set (n := length (a_stack a)) in *. assert (Hd : depth = 21%nat) by done.
  assert (Hsp : u64 (gpr m RSP - 8) = sp_of (v :: a_stack a)).
  { rewrite s_rsp0. unfold sp_of. cbn [length]. fold n. rewrite wrap_small; lia. }
  assert (Hslot : slot (sp_of (v :: a_stack a))) by (exists (S n); split; [lia|done]).
  unfold push. cbv zeta. rewrite Hsp. destruct (s_slots0 _ Hslot) as [old ->]. eexists. split; [reflexivity|].
  constructor; cbn [with_stack set_words set_gpr gpr ctl seg rip rflags words a_gpr a_ctl a_seg a_rip a_rflags a_stack]; try done.
  - intros r Hr. unfold upd. rewrite decide_False by done. by apply s_gpr0.
  - intros [|i] x Hx; cbn in Hx.
    + rewrite Z.add_0_r, lookup_insert_eq. done.
    + rewrite lookup_insert_ne by lia. apply s_stack0 in Hx. rewrite <- Hx. f_equal. unfold sp_of. cbn [length]. lia.
  - intros x Hx. rewrite lookup_insert_is_Some'. right. by apply s_slots0.
  - intros x Hx. rewrite lookup_insert_ne by (intros <-; done). by apply s_rest0.
Qed.

Lemma sim_pop w a m v l : sim w a m -> a_stack a = v :: l ->
  exists m', pop m = Ret v m' /\ sim w (with_stack l a) m' /\ words m' = words m.
Proof.
  intros [] Hst. rewrite Hst in *. unfold pop. pose proof (s_stack0 0%nat v eq_refl) as H0. rewrite Z.add_0_r, <- s_rsp0 in H0. rewrite H0.
  eexists. split; [reflexivity|]. split; [|done]. cbn [length] in *. unfold depth in *.
  constructor; cbn [with_stack set_gpr gpr ctl seg rip rflags words a_gpr a_ctl a_seg a_rip a_rflags a_stack]; try done.
  - change (upd RSP (u64 (gpr m RSP + 8)) (gpr m) RSP) with (u64 (gpr m RSP + 8)). rewrite s_rsp0. unfold sp_of. cbn [length]. rewrite wrap_small; lia.
  - intros r Hr. unfold upd. rewrite decide_False by done. by apply s_gpr0.
  - unfold depth. lia.
  - intros i x Hx. specialize (s_stack0 (S i) x Hx). rewrite <- s_stack0. f_equal. unfold sp_of. cbn [length]. lia.
Qed.

Lemma apush_inv v a a' : apush v a = Some a' -> a' = with_stack (v :: a_stack a) a /\ (length (a_stack a) < depth)%nat.
Proof. unfold apush. destruct (Nat.ltb_spec (length (a_stack a)) depth); [|done]. by intros [= <-]. Qed.

(** Adding 16 to RSP drops two words. *)
Lemma sim_drop2 w a m v1 v2 l : sim w a m -> a_stack a = v1 :: v2 :: l -> sim w (with_stack l a) (set_gpr RSP (u64 (gpr m RSP + 16)) m).
Proof.
  intros [] Hst. rewrite Hst in *. cbn [length] in *. unfold depth in *.
  constructor; cbn [with_stack set_gpr gpr ctl seg rip rflags words a_gpr a_ctl a_seg a_rip a_rflags a_stack]; try done.
  - change (upd RSP (u64 (gpr m RSP + 16)) (gpr m) RSP) with (u64 (gpr m RSP + 16)). rewrite s_rsp0. unfold sp_of. cbn [length]. rewrite wrap_small; lia.
  - intros r Hr. unfold upd. rewrite decide_False by done. by apply s_gpr0.
  - unfold depth. lia.
  - intros i x Hx. specialize (s_stack0 (S (S i)) x Hx). rewrite <- s_stack0. f_equal. unfold sp_of. cbn [length]. lia.
Qed.

Lemma sim_step w i a a' m : sim w a m -> astep i a = Some a' -> exists m', step g i m = Ret tt m' /\ sim w a' m'.
Proof.
  intros Hs Ha. unfold step. rewrite bind_get.
  destruct i as [| | |n|r|r|d s|c|c|s|n|s|d n|n]; cbn [astep] in Ha.
  - injection Ha as <-. rewrite (s_rflags _ _ _ Hs). eexists. split; [reflexivity|by apply sim_rflags].
  - injection Ha as <-. rewrite (s_rflags _ _ _ Hs). eexists. split; [reflexivity|by apply sim_rflags].
  - injection Ha as <-. by exists m.
  - apply apush_inv in Ha as [-> Hl]. by apply sim_push.
  - apply apush_inv in Ha as [-> Hl]. rewrite (sim_reg _ _ _ r Hs). by apply sim_push.
  - assert (Hr : r <> RSP) by (by intros ->). assert (Ha2 : match a_stack a with v :: l => Some (with_gpr r v (with_stack l a)) | [] => None end = Some a')
      by by destruct r. destruct (a_stack a) as [|v l] eqn:Est; [done|]. injection Ha2 as <-.
    destruct (sim_pop w a m v l Hs Est) as (m' & E & Hm' & _). rewrite (bind_Ret _ _ _ _ _ E). eexists. split; [reflexivity|by apply sim_gpr].
  - assert (Hr : d <> RSP) by (by intros ->). assert (a' = with_gpr d (a_reg a s) a) as -> by (destruct d; by simplify_eq).
    rewrite (sim_reg _ _ _ s Hs). eexists. split; [reflexivity|by apply sim_gpr].
  - injection Ha as <-. rewrite (s_ctl _ _ _ Hs). eexists. split; [reflexivity|by apply sim_gpr].
  - injection Ha as <-. rewrite (s_gpr _ _ _ Hs RAX) by done. eexists. split; [reflexivity|by apply sim_ctl].
  - injection Ha as <-. rewrite (s_gpr _ _ _ Hs RAX), (s_seg _ _ _ Hs) by done. eexists. split; [reflexivity|by apply sim_gpr].
  - injection Ha as <-. rewrite (s_gpr _ _ _ Hs RAX) by done. eexists. split; [reflexivity|by apply sim_gpr].
  - rewrite (s_gpr _ _ _ Hs RAX) by done. destruct (loadable g (ax (a_gpr a RAX))); [|done]. injection Ha as <-. eexists. split; [reflexivity|by apply sim_seg].
  - assert (Hr : d <> RSP) by (by intros ->). assert (a' = with_gpr d (u64 (sp_of (a_stack a) + n)) a) as -> by (destruct d; by simplify_eq).
    rewrite (s_rsp _ _ _ Hs). eexists. split; [reflexivity|by apply sim_gpr].
  - destruct (a_stack a) as [|v1 [|v2 l]] eqn:Est; [done|done|]. destruct (Z.eqb_spec n 16) as [->|]; [|done]. injection Ha as <-. eexists. split; [reflexivity|by eapply sim_drop2].
Qed.

Lemma sim_run w code : forall a a' m, sim w a m -> arun code a = Some a' -> exists m', run g code m = Ret tt m' /\ sim w a' m'.
Proof.
  induction code as [|i code IH]; intros a a' m Hs Ha; cbn [arun] in Ha.
  - injection Ha as <-. by exists m.
  - destruct (astep i a) as [a1|] eqn:E1; [|done]. destruct (sim_step w i a a1 m Hs E1) as (m1 & Em & Hs1).
    destruct (IH a1 a' m1 Hs1 Ha) as (m' & Er & Hs'). exists m'. split; [|done]. unfold run. cbn [for_each]. by rewrite (bind_Ret _ _ _ _ _ Em).
Qed.

(** ** The assemblers *)
Lemma ax_low x d : 0 <= d < 2 ^ 16 -> ax (Z.lor (Z.ldiff x 0xFFFF) d) = d.
Proof.
  intros Hd. unfold ax. change 0xFFFF with (Z.ones 16). rewrite Z.land_lor_distr_l, Z.land_ldiff, Z.lor_0_l, Z.land_ones by lia. by apply Z.mod_small.
Qed.

(** What is saved of the interrupted program below the vector. *)
Definition saved (a : amach) : list Z :=
  [a_ctl a CR4; a_ctl a CR3; a_ctl a CR2; a_ctl a CR0; a_gpr a RDI; a_gpr a RSI; a_gpr a RDX; a_gpr a RCX; a_gpr a RBX; a_gpr a RAX; a_gpr a RBP].

Lemma entry_runs code a : code = xframe_entry \/ code = irq_xframe_entry -> length (a_stack a) = 7%nat ->
  0 <= a_seg a DS < 2 ^ 16 -> loadable g 0x10 = true ->
  exists a1 w, arun code a = Some a1 /\ a_stack a1 = 0 :: w :: saved a ++ a_stack a /\ ax w = a_seg a DS /\
    a_gpr a1 RDI = u64 (sp_of (a_stack a1) + 0x10) /\ a_rflags a1 = a_rflags a /\ (forall r, r <> RAX -> r <> RDI -> r <> RBP -> a_gpr a1 r = a_gpr a r).
Proof.
  intros Hc Hl Hds H10. destruct a as [rs cs ss ip fl st]. cbn [a_stack a_seg] in *.
  do 7 (destruct st as [|? st]; [done|]). destruct st; [|done].
  assert (H : forall x, ax (Z.lor (Z.ldiff x 0xFFFF) 0x10) = 0x10) by (intros x; by apply ax_low).
  destruct Hc as [-> | ->]; eexists _, _; split.
  1,3: cbv -[Z.lor Z.ldiff u64 ax sp_of loadable Z.sub Z.add]; repeat (rewrite H, H10; cbv beta iota); reflexivity.
  all: split; [reflexivity|]; split; [by apply ax_low|]; do 2 (split; [reflexivity|]); intros r ???; by destruct r.
Qed.

Lemma arun_app c1 c2 a : arun (c1 ++ c2) a = match arun c1 a with Some a1 => arun c2 a1 | None => None end.
Proof. revert a. induction c1 as [|i c1 IH]; intros a; [done|]. cbn [app arun]. by destruct (astep i a). Qed.

Lemma arun_segs a : loadable g (ax (a_gpr a RAX)) = true ->
  arun [SegAx DS; SegAx ES] a = Some (with_seg ES (ax (a_gpr a RAX)) (with_seg DS (ax (a_gpr a RAX)) a)).
Proof. intros H. cbn [arun astep]. rewrite H. cbn [with_seg a_gpr]. by rewrite H. Qed.

Lemma exit_runs code a w v e c4 c3 c2 c0 rdi rsi rdx rcx rbx rax rbp rest : code = xframe_exit \/ code = irq_xframe_exit ->
  a_stack a = 0 :: w :: c4 :: c3 :: c2 :: c0 :: rdi :: rsi :: rdx :: rcx :: rbx :: rax :: rbp :: v :: e :: rest -> loadable g (ax w) = true ->
  exists a1, arun code a = Some a1 /\ a_stack a1 = rest /\ a_seg a1 DS = ax w /\ a_seg a1 ES = ax w /\
    a_ctl a1 CR0 = c0 /\ a_ctl a1 CR2 = c2 /\ a_ctl a1 CR3 = c3 /\ a_ctl a1 CR4 = c4 /\
    a_gpr a1 RAX = rax /\ a_gpr a1 RBX = rbx /\ a_gpr a1 RCX = rcx /\ a_gpr a1 RDX = rdx /\ a_gpr a1 RSI = rsi /\ a_gpr a1 RDI = rdi /\ a_gpr a1 RBP = rbp /\
    a_gpr a1 R8 = a_gpr a R8 /\ a_gpr a1 R9 = a_gpr a R9 /\ a_gpr a1 R10 = a_gpr a R10 /\ a_gpr a1 R11 = a_gpr a R11 /\
    a_gpr a1 R12 = a_gpr a R12 /\ a_gpr a1 R13 = a_gpr a R13 /\ a_gpr a1 R14 = a_gpr a R14 /\ a_gpr a1 R15 = a_gpr a R15.
Proof.
  intros Hc Hst Hw. destruct a as [rs cs ss ip fl st]. cbn [a_stack] in Hst. subst st.
  set (tail := popacrd ++ popagrd ++ [Pop RBP; AddRsp 0x10; Sti]).
  assert (E : arun code (AMach rs cs ss ip fl (0 :: w :: c4 :: c3 :: c2 :: c0 :: rdi :: rsi :: rdx :: rcx :: rbx :: rax :: rbp :: v :: e :: rest)) =
    arun tail (AMach (upd RAX w (upd RAX 0 rs)) cs (upd ES (ax w) (upd DS (ax w) ss)) ip fl
      (c4 :: c3 :: c2 :: c0 :: rdi :: rsi :: rdx :: rcx :: rbx :: rax :: rbp :: v :: e :: rest))).
  { destruct Hc as [-> | ->].
    - change xframe_exit with ([Nop; Pop RAX; Pop RAX] ++ [SegAx DS; SegAx ES] ++ tail). remember [SegAx DS; SegAx ES] as segs eqn:Es.
      clearbody tail. rewrite arun_app. cbn [arun astep a_stack with_gpr with_stack a_gpr a_ctl a_seg a_rip a_rflags]. rewrite arun_app, Es, arun_segs; [reflexivity|exact Hw].
    - change irq_xframe_exit with ([Pop RAX; Pop RAX] ++ [SegAx DS; SegAx ES] ++ tail). remember [SegAx DS; SegAx ES] as segs eqn:Es.
      clearbody tail. rewrite arun_app. cbn [arun astep a_stack with_gpr with_stack a_gpr a_ctl a_seg a_rip a_rflags]. rewrite arun_app, Es, arun_segs; [reflexivity|exact Hw]. }
  rewrite E. eexists. split; [cbv -[Z.lor Z.ldiff u64 ax loadable Z.sub Z.add IF]; reflexivity|]. by split_and!.
Qed.

(** ** Delivery, call and return *)
Lemma sim_start m : (forall x, slot x -> is_Some (words m !! x)) ->
  sim (words m) (AMach (gpr m) (ctl m) (seg m) (rip m) (rflags m) []) (set_gpr RSP top m).
Proof.
  intros Hm. constructor; cbn [set_gpr gpr ctl seg rip rflags words a_gpr a_ctl a_seg a_rip a_rflags a_stack]; try done.
  - change (upd RSP top (gpr m) RSP) with top. unfold sp_of. cbn [length]. lia.
  - intros r Hr. unfold upd. by rewrite decide_False.
  - cbn. unfold depth. lia.
Qed.

Ltac push_next := match goal with H : sim _ _ ?m |- context [bind (push ?v) _ ?m] =>
  let m' := fresh "m" in let E := fresh "E" in let Hs := fresh "Hs" in
  destruct (sim_push _ _ m v H) as (m' & E & Hs); [cbn; unfold depth; lia|]; rewrite (bind_Ret _ _ _ _ _ E); clear E H; cbn [with_stack a_gpr a_ctl a_seg a_rip a_rflags a_stack] in Hs end.

Lemma sim_deliver ist v err ecs entry m : top = Z.ldiff (if ist =? 0 then gpr m RSP else ist) 15 -> (forall x, slot x -> is_Some (words m !! x)) ->
  exists m1, deliver ist v err ecs entry m = Ret tt m1 /\
    sim (words m) (AMach (gpr m) (ctl m) (upd CS ecs (seg m)) entry (Z.ldiff (rflags m) IF)
      ((if pushes_error v then [err] else []) ++ [rip m; seg m CS; rflags m; gpr m RSP; seg m SS])) m1.
Proof.
  intros Ht Hm. unfold deliver. rewrite bind_get, bind_modify, <- Ht. pose proof (sim_start m Hm) as Hs.
  do 5 push_next. match goal with H : sim _ _ ?x |- _ => rename H into Hs4; rename x into m4 end.
  assert (He : exists m1, when (pushes_error v) (push err) m4 = Ret tt m1 /\
    sim (words m) (AMach (gpr m) (ctl m) (seg m) (rip m) (rflags m) ((if pushes_error v then [err] else []) ++ [rip m; seg m CS; rflags m; gpr m RSP; seg m SS])) m1).
  { destruct (pushes_error v); cbn [when app]; [|by exists m4]. apply (sim_push _ _ _ err) in Hs4 as (m5 & E & Hs5); [by exists m5|cbn; unfold depth; lia]. }
  destruct He as (m5 & E & Hs5). rewrite (bind_Ret _ _ _ _ _ E). eexists. split; [reflexivity|]. destruct Hs5.
  constructor; cbn [set_rflags set_seg set_rip gpr ctl seg rip rflags words a_gpr a_ctl a_seg a_rip a_rflags a_stack] in *; try done.
  - intros s. by apply upd_same.
  - by rewrite s_rflags0.
Qed.

(** What the handlers promise (System V calling convention): the callee-saved
    registers and the words of the stack above them. *)
Definition callee_saved : list reg := [RBX; RBP; RSP; R12; R13; R14; R15].
Definition abi (m1 m2 : machine) : Prop :=
  Forall (fun r => gpr m2 r = gpr m1 r) callee_saved /\ forall x, gpr m1 RSP <= x < top -> words m2 !! x = words m1 !! x.

Lemma sim_after w a m1 m2 : sim w a m1 -> length (a_stack a) = depth -> abi m1 m2 ->
  sim (words m2) (AMach (gpr m2) (ctl m2) (seg m2) (rip m2) (rflags m2) (a_stack a)) m2.
Proof.
  intros [] Hl [Hr Hw]. assert (Hsp : gpr m2 RSP = gpr m1 RSP) by (by do 2 (apply Forall_cons in Hr as [_ Hr]); apply Forall_cons in Hr as [Hr _]).
  assert (Hlow : sp_of (a_stack a) = top - 8 * Z.of_nat depth) by (unfold sp_of; by rewrite Hl).
  constructor; cbn [a_gpr a_ctl a_seg a_rip a_rflags a_stack]; try done.
  - congruence.
  - intros i v Hv. rewrite Hw; [by apply s_stack0|]. rewrite s_rsp0. apply lookup_lt_Some in Hv. unfold sp_of in *. lia.
  - intros x Hx. rewrite Hw; [by apply s_slots0|]. destruct Hx as (k & Hk & ->). lia.
Qed.

Lemma sim_iretq w a m ip c fl sp st : sim w a m -> a_stack a = [ip; c; fl; sp; st] ->
  exists m', iretq m = Ret tt m' /\ rip m' = ip /\ rflags m' = fl /\ words m' = words m /\
    (forall r, gpr m' r = if decide (RSP = r) then sp else a_gpr a r) /\ (forall x, ctl m' x = a_ctl a x) /\
    seg m' CS = c /\ seg m' SS = st /\ seg m' DS = a_seg a DS /\ seg m' ES = a_seg a ES.
Proof.
  intros Hs Hst. unfold iretq.
  destruct (sim_pop _ _ _ _ _ Hs Hst) as (m1 & E1 & H1 & W1). rewrite (bind_Ret _ _ _ _ _ E1).
  destruct (sim_pop _ _ _ c [fl; sp; st] H1 eq_refl) as (m2 & E2 & H2 & W2). rewrite (bind_Ret _ _ _ _ _ E2).
  destruct (sim_pop _ _ _ fl [sp; st] H2 eq_refl) as (m3 & E3 & H3 & W3). rewrite (bind_Ret _ _ _ _ _ E3).
  destruct (sim_pop _ _ _ sp [st] H3 eq_refl) as (m4 & E4 & H4 & W4). rewrite (bind_Ret _ _ _ _ _ E4).
  destruct (sim_pop _ _ _ st [] H4 eq_refl) as (m5 & E5 & H5 & W5). rewrite (bind_Ret _ _ _ _ _ E5).
  eexists. split; [reflexivity|]. destruct H5. cbn in *. split_and!; try done; try congruence.
  - intros r. unfold upd. case_decide; [done|]. by apply s_gpr0.
  - apply s_seg0.
  - apply s_seg0.
Qed.

(** ** The stubs *)

(** [struct isr_xframe_t], field by field. *)
Definition xframe_words (m : machine) (v err : Z) : list Z :=
  [ctl m CR4; ctl m CR3; ctl m CR2; ctl m CR0] ++
  [gpr m RDI; gpr m RSI; gpr m RDX; gpr m RCX; gpr m RBX; gpr m RAX] ++
  [gpr m RBP; v; err; rip m; seg m CS; rflags m; gpr m RSP; seg m SS].
Definition words_at (m : machine) (a : Z) (l : list Z) : Prop := forall i v, l !! i = Some v -> words m !! (a + 8 * Z.of_nat i) = Some v.

(** Both assemblers, started on the words the processor and the stub have pushed. *)
Definition assembler (entry exit : list instr) (ra : Z) (h : K machine unit) : K machine unit :=
  do! run g entry in do! call ra h in do! run g exit in iretq.

(** The interrupted program [m] goes on in [m3]; [m2] is how the handler left the
    machine. *)
Record resumed (m m2 m3 : machine) : Prop := Resumed {
  re_gpr : forall r, r <> R8 -> r <> R9 -> r <> R10 -> r <> R11 -> gpr m3 r = gpr m r;
  re_lost : forall r, r = R8 \/ r = R9 \/ r = R10 \/ r = R11 -> gpr m3 r = gpr m2 r;
  re_ctl : forall c, ctl m3 c = ctl m c;
  re_seg : seg m3 CS = seg m CS /\ seg m3 SS = seg m SS /\ seg m3 DS = seg m DS /\ seg m3 ES = seg m DS;
  re_rip : rip m3 = rip m;
  re_rflags : rflags m3 = rflags m;
  re_words : forall x, ~ slot x -> words m3 !! x = words m2 !! x;
}.

Lemma leave_ok exit m m2 mX ip w v e : exit = xframe_exit \/ exit = irq_xframe_exit ->
  sim (words m2) (AMach (gpr m2) (ctl m2) (seg m2) ip (rflags m2) (0 :: w :: xframe_words m v e)) mX ->
  ax w = seg m DS -> loadable g (seg m DS) = true -> Forall (fun r => gpr m2 r = gpr m r) [R12; R13; R14; R15] ->
  exists m3, bind (run g exit) (fun _ => iretq) mX = Ret tt m3 /\ resumed m m2 m3.
Proof.
  intros Hc Hs Hw Hl Hr.
  destruct (exit_runs exit (AMach (gpr m2) (ctl m2) (seg m2) ip (rflags m2) (0 :: w :: xframe_words m v e)) w v e (ctl m CR4) (ctl m CR3) (ctl m CR2) (ctl m CR0) (gpr m RDI) (gpr m RSI) (gpr m RDX) (gpr m RCX) (gpr m RBX) (gpr m RAX)
    (gpr m RBP) [rip m; seg m CS; rflags m; gpr m RSP; seg m SS] Hc eq_refl ltac:(by rewrite Hw)) as (a5 & Ea5 & Hst5 & Hd5 & He5 & C0 & C2 & C3 & C4 & X).
  destruct (sim_run _ _ _ _ _ Hs Ea5) as (m5 & Em5 & Hs5). rewrite (bind_Ret _ _ _ _ _ Em5).
  destruct (sim_iretq _ _ _ _ _ _ _ _ Hs5 Hst5) as (m6 & E6 & Hrip & Hrfl & Hwords & Hg & Hctl & Hcs & Hss & Hds & Hes).
  exists m6. split; [done|]. rewrite Hw in Hd5, He5. destruct_and? X. cbn [a_gpr] in *.
  apply Forall_cons in Hr as [G12 Hr]. apply Forall_cons in Hr as [G13 Hr]. apply Forall_cons in Hr as [G14 Hr]. apply Forall_cons in Hr as [G15 _].
  constructor; try congruence.
  - intros r N8 N9 N10 N11. rewrite Hg. case_decide as Hn; [by subst r|]. destruct r; try done; congruence.
  - intros r [->|[->|[->| ->]]]; rewrite Hg, decide_False by done; congruence.
  - intros c. rewrite Hctl. by destruct c.
  - split_and!; congruence.
  - intros x Hx. rewrite Hwords. by apply (s_rest _ _ _ Hs5).
Qed.

Lemma assembler_ok entry exit ra h m mA ecs ent fl v e :
  (entry = xframe_entry \/ entry = irq_xframe_entry) -> (exit = xframe_exit \/ exit = irq_xframe_exit) ->
  sim (words m) (AMach (gpr m) (ctl m) (upd CS ecs (seg m)) ent fl [v; e; rip m; seg m CS; rflags m; gpr m RSP; seg m SS]) mA ->
  0 <= seg m DS < 2 ^ 16 -> loadable g (seg m DS) = true -> loadable g 0x10 = true ->
  exists m1, words_at m1 (gpr m1 RDI) (xframe_words m v e) /\ (forall x, ~ slot x -> words m1 !! x = words m !! x) /\ rflags m1 = fl /\
    (forall m2, h m1 = Hang m2 -> assembler entry exit ra h mA = Hang m2) /\
    (forall m2, h m1 = Ret tt m2 -> abi m1 m2 -> exists m3, assembler entry exit ra h mA = Ret tt m3 /\ resumed m m2 m3).
Proof.
  intros Hc Hc' Hs Hds Hlds H10. set (a0 := AMach _ _ _ _ _ _) in Hs.
  destruct (entry_runs entry a0 Hc) as (a1 & w & Ea & Hst & Hw & Hdi & Hfl & Hrs); [done..|].
  destruct (sim_run _ _ _ _ _ Hs Ea) as (mB & Em & HsB). unfold assembler. rewrite (bind_Ret _ _ _ _ _ Em).
  destruct (sim_push _ _ _ ra HsB) as (m1 & Ep & Hs1); [rewrite Hst; cbn; unfold depth; lia|].
  unfold call. rewrite bind_assoc, (bind_Ret _ _ _ _ _ Ep). exists m1.
  assert (Hst1 : a_stack (with_stack (ra :: a_stack a1) a1) = ra :: 0 :: w :: xframe_words m v e) by (cbn [with_stack a_stack]; by rewrite Hst).
  split; [|split; [apply Hs1|split; [by rewrite (s_rflags _ _ _ Hs1)|split]]].
  - intros i x Hx. rewrite (s_gpr _ _ _ Hs1 RDI) by done. cbn [with_stack a_gpr]. rewrite Hdi.
    pose proof (s_stack _ _ _ Hs1 (S (S (S i))) x) as H. rewrite Hst1 in H. rewrite <- H by done. f_equal.
    rewrite Hst. unfold sp_of, depth in *. cbn [length saved xframe_words app a_stack a0]. rewrite wrap_small; lia.
  - intros m2 Eh. unfold bind at 1 2. by rewrite Eh.
  - intros m2 Eh Habi. rewrite bind_assoc, (bind_Ret _ _ _ _ _ Eh). pose proof (sim_after _ _ _ _ Hs1 ltac:(by rewrite Hst1) Habi) as Hs2. rewrite Hst1 in Hs2.
    destruct (sim_pop _ _ _ ra (0 :: w :: xframe_words m v e) Hs2 eq_refl) as (m2' & Epop & Hs3 & Hw3). rewrite bind_assoc, (bind_Ret _ _ _ _ _ Epop).
    rewrite bind_modify. apply (leave_ok exit m m2 (set_rip ra m2') ra w v e); try done; [destruct Hs3; by constructor|].
    assert (Hm1 : Forall (fun r => gpr m1 r = gpr m r) [R12; R13; R14; R15])
      by (repeat constructor; rewrite (s_gpr _ _ _ Hs1) by done; cbn [with_stack a_gpr]; by rewrite Hrs).
    destruct Habi as [Hr _]. do 3 (apply Forall_cons in Hr as [_ Hr]). rewrite Forall_forall in Hr, Hm1 |- *. intros r Hin. by rewrite Hr, Hm1.
Qed.

(** The stub evens out the stack: behind the vector there is an error code, real or 0. *)
Lemma stub_ok w (rs : reg -> Z) cs ss ip fl v err l m (code : list instr) :
  code = (if pushes_error v then isr_err_stub v else isr_no_err_stub v) -> (length l <= 5)%nat ->
  sim w (AMach rs cs ss ip fl ((if pushes_error v then [err] else []) ++ l)) m ->
  exists m', run g code m = Ret tt m' /\ sim w (AMach rs cs ss ip (Z.ldiff fl IF) (v :: (if pushes_error v then err else 0) :: l)) m'.
Proof.
  intros -> Hl Hs. assert (Hp : forall x k (a : amach), a_stack a = k -> (length k < depth)%nat -> apush x a = Some (with_stack (x :: k) a)).
  { intros x k a <- Hk. unfold apush. by rewrite (proj2 (Nat.ltb_lt _ _) Hk). }
  destruct (pushes_error v); eapply sim_run; try exact Hs.
  - cbn [isr_err_stub arun astep]. erewrite Hp; [reflexivity|reflexivity|cbn; unfold depth; lia].
  - cbn [isr_no_err_stub arun astep]. erewrite Hp; [|reflexivity|cbn; unfold depth; lia]. erewrite Hp; [reflexivity|reflexivity|cbn; unfold depth; lia].
Qed.
End refinement.

(** ** Interrupts as a whole *)
Definition stack_top (ist : Z) (m : machine) : Z := Z.ldiff (if ist =? 0 then gpr m RSP else ist) 15.

Lemma stubs_agree v : 0 <= v < 100 -> v <> 21 -> v <> 29 -> (if v <? 32 then has_error_stub v else false) = pushes_error v.
Proof.
  intros Hv H1 H2. assert (Hall : forallb (fun v => (v =? 21) || (v =? 29) || Bool.eqb (if v <? 32 then has_error_stub v else false) (pushes_error v)) (seqZ 0 100) = true) by reflexivity.
  rewrite forallb_forall in Hall. specialize (Hall v). rewrite <- list_elem_of_In, elem_of_seqZ in Hall. specialize (Hall ltac:(lia)).
  rewrite (proj2 (Z.eqb_neq _ _) H1), (proj2 (Z.eqb_neq _ _) H2) in Hall. by apply eqb_prop in Hall.
Qed.

(** C8. Whatever code an interrupt or exception of one of the 100 vectors interrupts, on
    whatever stack the gate names, except for vectors 21 and 29 (for which the processor
    pushes an error code and the stub does not expect one): the stub builds the frame
    [isr_xframe_t] with the registers of that code, the vector and the error code (0 if
    there is none), calls its handler with interrupts off and RDI on the frame, and
    touches no memory but the 21 words below the top of the stack.  If the handler
    stops, so does the machine; if it returns and has kept to the calling convention,
    the code goes on with its RIP, flags, stack, control registers, CS, SS, DS and its
    general registers but R8 to R11, which the stubs do not save and which are as the
    handler left them; ES, which they do not save either, has the selector of DS.  The
    x87 and vector registers, which no stub touches, are not part of the machine. *)
Theorem interrupt_transparent g ra_exc ra_irq isr_exception_handler irq_handler ist v err ecs entry m :
  let top := stack_top ist m in
  0 <= v < 100 -> v <> 21 -> v <> 29 -> 8 * Z.of_nat depth <= top < 2 ^ 64 -> (forall x, slot top x -> is_Some (words m !! x)) ->
  0 <= seg m DS < 2 ^ 16 -> loadable g (seg m DS) = true -> loadable g 0x10 = true ->
  let run_it := interrupt g ra_exc ra_irq isr_exception_handler irq_handler ist v err ecs entry m in
  let handler := if v <? 32 then isr_exception_handler else irq_handler in
  exists m1, words_at m1 (gpr m1 RDI) (xframe_words m v (if pushes_error v then err else 0)) /\ Z.testbit (rflags m1) 9 = false /\
    (forall x, ~ slot top x -> words m1 !! x = words m !! x) /\
    (forall m2, handler m1 = Hang m2 -> run_it = Hang m2) /\
    (forall m2, handler m1 = Ret tt m2 -> abi top m1 m2 -> exists m3, run_it = Ret tt m3 /\ resumed top m m2 m3).
Proof.
  intros top Hv H21 H29 Ht Hsl Hds Hlds H10 run_it handler. pose proof (stubs_agree v Hv H21 H29) as Hag.
  destruct (sim_deliver top Ht ist v err ecs entry m eq_refl Hsl) as (mD & Ed & HsD).
  destruct (stub_ok g top Ht _ _ _ _ _ _ v err [rip m; seg m CS; rflags m; gpr m RSP; seg m SS] mD _ eq_refl (le_n 5) HsD) as (mA & Es & HsA).
  assert (Erun : run_it = assembler g (if v <? 32 then xframe_entry else irq_xframe_entry) (if v <? 32 then xframe_exit else irq_xframe_exit)
    (if v <? 32 then ra_exc else ra_irq) handler mA).
  { unfold run_it, interrupt. rewrite (bind_Ret _ _ _ _ _ Ed). unfold isr_stub, handler.
    rewrite (proj2 (Z.ltb_ge v 0)), (proj2 (Z.leb_gt 100 v)) by lia. cbn [orb]. rewrite <- Hag in Es. destruct (v <? 32); rewrite (bind_Ret _ _ _ _ _ Es); done. }
  rewrite Erun. destruct (assembler_ok g top Ht (if v <? 32 then xframe_entry else irq_xframe_entry) (if v <? 32 then xframe_exit else irq_xframe_exit)
    (if v <? 32 then ra_exc else ra_irq) handler m mA ecs entry _ _ _ ltac:(destruct (v <? 32); auto) ltac:(destruct (v <? 32); auto) HsA Hds Hlds H10)
    as (m1 & Hf & Hw & Hfl & Hh & Hr).
  exists m1. split; [exact Hf|]. split; [|by split]. rewrite Hfl, Z.ldiff_spec. apply andb_false_r.
Qed.

(** A machine with the kernel's descriptors, and a handler that uses R8. *)
Definition demo_words : gmap Z Z := list_to_map ((fun k => (0x1000 - 8 * Z.of_nat k, 0)) <$> seq 1 21).
Definition demo : machine := Machine (upd RSP 0x1000 (fun _ => 0)) (fun _ => 0) (fun _ => 0x30) 0x4000 0x202 demo_words.
Definition uses_r8 : K machine unit := modify (set_gpr R8 7).

Lemma demo_slots x : slot 0x1000 x -> is_Some (words demo !! x).
Proof.
  intros (k & Hk & ->). assert (Hall : forallb (fun k => bool_decide (is_Some (demo_words !! (0x1000 - 8 * Z.of_nat k)))) (seq 1 21) = true) by (vm_compute; reflexivity).
  rewrite forallb_forall in Hall. specialize (Hall k). rewrite <- list_elem_of_In, elem_of_seq in Hall. unfold depth in Hk. specialize (Hall ltac:(lia)).
  by apply bool_decide_eq_true in Hall.
Qed.

Lemma interrupt_transparent_witness :
  exists m3, interrupt gdt_image 0 0 (ret tt) uses_r8 0 33 0 0x28 0 demo = Ret tt m3 /\ rip m3 = 0x4000 /\ gpr m3 RSP = 0x1000 /\ gpr m3 R8 = 7.
Proof.
  destruct (interrupt_transparent gdt_image 0 0 (ret tt) uses_r8 0 33 0 0x28 0 demo) as (m1 & _ & _ & _ & _ & Hret).
  - lia.
  - lia.
  - lia.
  - change (stack_top 0 demo) with 0x1000. unfold depth. lia.
  - exact demo_slots.
  - cbn. lia.
  - reflexivity.
  - reflexivity.
  - destruct (Hret (set_gpr R8 7 m1) eq_refl) as (m3 & E & Hr); [split; [by repeat constructor|done]|].
    exists m3. split; [exact E|]. split; [apply Hr|]. split; [by apply (re_gpr _ _ _ _ Hr RSP)|]. rewrite (re_lost _ _ _ _ Hr R8) by auto. reflexivity.
Defined.
End IsrEntrySpec.
