(* ===== verification/CpuUtils.v ===== *)
(** The processor: identification ([src/src/cpuUtils.c] and the [cpuid] routines of
    [src/src/asmUtils.asm]), control registers ([src/src/regUtils.asm]) and
    model-specific registers ([src/src/registers.c], [src/src/include/cpu.h]).

    The instruction [cpuid] is a function from EAX and ECX to the four registers it
    writes. *)
From Stdlib Require Import Ascii.
From S2P Require Import Prelude CString Printf Putchar Diag.

Module CpuUtils.

Record leaf : Type := Leaf { l_eax : Z; l_ebx : Z; l_ecx : Z; l_edx : Z }.

Record core : Type := Core {
  sysenter : bool;
  has_ACPI : bool;
  xsave_bank : Z;
  cr0 : Z;
  cr4 : Z;
  xcr0 : Z;
  msrs : Z -> Z;
}.
Definition set_sysenter (b : bool) (c : core) : core := Core b (has_ACPI c) (xsave_bank c) (cr0 c) (cr4 c) (xcr0 c) (msrs c).
Definition set_has_ACPI (b : bool) (c : core) : core := Core (sysenter c) b (xsave_bank c) (cr0 c) (cr4 c) (xcr0 c) (msrs c).
Definition set_xsave_bank (v : Z) (c : core) : core := Core (sysenter c) (has_ACPI c) v (cr0 c) (cr4 c) (xcr0 c) (msrs c).
Definition set_cr0 (v : Z) (c : core) : core := Core (sysenter c) (has_ACPI c) (xsave_bank c) v (cr4 c) (xcr0 c) (msrs c).
Definition set_cr4 (v : Z) (c : core) : core := Core (sysenter c) (has_ACPI c) (xsave_bank c) (cr0 c) v (xcr0 c) (msrs c).
Definition set_xcr0 (v : Z) (c : core) : core := Core (sysenter c) (has_ACPI c) (xsave_bank c) (cr0 c) (cr4 c) v (msrs c).
Definition set_msr (a v : Z) (c : core) : core :=
  Core (sysenter c) (has_ACPI c) (xsave_bank c) (cr0 c) (cr4 c) (xcr0 c) (fun x => if x =? a then v else msrs c x).

Record cpu : Type := Cpu { cpu_core : core; cpu_con : con }.
Definition on_core (f : core -> core) : K cpu unit := modify (fun s => Cpu (f (cpu_core s)) (cpu_con s)).
Definition of_core {A} (f : core -> A) : K cpu A := let! s := get in ret (f (cpu_core s)).
Definition on_console {A} : K con A -> K cpu A := zoom cpu_con (fun c s => Cpu (cpu_core s) c).

(** ** Model-specific registers *)

(** [registers.c] *)
Definition writeMSR (msr value : Z) : K cpu unit :=
  let lo := u32 value in
  let hi := u32 (Z.shiftr value 32) in
  on_core (set_msr (u32 msr) (Z.lor (Z.shiftl hi 32) lo)).
(** [wrmsr] of [cpu.h] *)
Definition wrmsr (msr val : Z) : K cpu Z :=
  let eax := u32 val in
  let edx := u32 (Z.shiftr val 32) in
  do! on_core (set_msr msr (Z.lor (Z.shiftl edx 32) eax)) in
  ret (Z.lor (Z.shiftl edx 32) eax).
Definition rdmsr (msr : Z) : K cpu Z :=
  let! v := of_core (fun c => msrs c msr) in
  let edx := u32 (Z.shiftr v 32) in
  let eax := u32 v in
  ret (Z.lor (Z.shiftl edx 32) eax).
Definition set_kernel_gs_base (addr : Z) : K cpu unit := let! _ := wrmsr 0xc0000102 addr in ret tt.
Definition set_gs_base (addr : Z) : K cpu unit := let! _ := wrmsr 0xc0000101 addr in ret tt.
Definition set_fs_base (addr : Z) : K cpu unit := let! _ := wrmsr 0xc0000100 addr in ret tt.
Definition get_kernel_gs_base : K cpu Z := rdmsr 0xc0000102.
Definition get_gs_base : K cpu Z := rdmsr 0xc0000101.
Definition get_fs_base : K cpu Z := rdmsr 0xc0000100.

(** [rdtsc] of [cpu.h] and [get_ts] of [asmUtils.asm], for a counter at [tsc]. *)
Definition rdtsc (tsc : Z) : Z :=
  let edx := u32 (Z.shiftr tsc 32) in
  let eax := u32 tsc in
  Z.lor (Z.shiftl edx 32) edx.
Definition get_ts (tsc : Z) : Z := Z.lor (u32 tsc) (u64 (Z.shiftl (u32 (Z.shiftr tsc 32)) 32)).

Section cpu.
Variable clock : list effect -> Z.
Variable depth : nat.
Variable instr_cpuid : Z -> Z -> leaf.
(** ECX at a [cpuid] that does not set it, EBX at [get_apic_base_address], and what a
    [void] function leaves in EAX. *)
Variables (stale_ecx stale_ebx left_eax : Z).

Definition csay (format : list Z) (va : list va_arg) : K cpu unit := on_console (dsay clock depth format va).
Definition cline (msg : string) : K cpu unit := on_console (dline clock depth msg).
Definition ctext (msg : string) : K cpu unit := on_console (dtext clock depth msg).
Definition chex (v : Z) : K cpu unit := csay (chars "0x%llx" ++ [10; 0]) [Word v].

(** [cpuid] of [cpu.h]: [None] when the leaf is above the highest one. *)
Definition cpuid (n subleaf : Z) : option leaf :=
  let cpuid_max := l_eax (instr_cpuid (Z.land n 0x80000000) stale_ecx) in
  if cpuid_max <? n then None else Some (instr_cpuid n subleaf).

(** ** [asmUtils.asm] *)
Definition leaf1 : leaf := instr_cpuid 1 stale_ecx.
(** [bt reg, bit] or [test reg, 1 << bit], then 1 or 0 in EAX. *)
Definition flag (reg bit : Z) : K cpu Z := ret (if Z.testbit reg bit then 1 else 0).
(** A failed test jumps to a C function, which returns to the caller. *)
Definition flag_or (reg bit : Z) (no : K cpu unit) : K cpu Z := if Z.testbit reg bit then ret 1 else do! no in ret left_eax.

Definition no_sse : K cpu unit := do! cline "SSE Extensions Unavailable." in cline "Floating Point Math will be offline.".
Definition no_xsave : K cpu unit := do! cline "XSAVE Extensions Unavailable." in cline "Floating Point Math will be offline.".
Definition no_oxsave : K cpu unit := do! cline "OXSAVE Extensions Unavailable." in cline "Floating Point Math will be offline.".
Definition no_avx : K cpu unit := do! cline "AVX Extensions Unavailable." in cline "Floating Point Math will be offline.".

Definition cpuid_check_sse : K cpu Z := flag_or (l_edx leaf1) 25 no_sse.
Definition cpuid_check_xsave : K cpu Z := flag_or (l_ecx leaf1) 26 no_xsave.
Definition cpuid_check_oxsave : K cpu Z := flag_or (l_ecx leaf1) 27 no_oxsave.
Definition cpuid_check_avx : K cpu Z := flag_or (l_ecx leaf1) 28 no_avx.
Definition cpuid_check_fxsr : K cpu Z := flag (l_edx leaf1) 24.
Definition cpuid_check_fpu : K cpu Z := flag (l_edx leaf1) 0.
Definition cpuid_check_rdrand : K cpu Z := flag (l_ecx leaf1) 30.
Definition cpuid_check_rdseed : K cpu Z := flag (l_ebx (instr_cpuid 7 stale_ecx)) 18.
Definition cpuid_check_htt : K cpu Z := flag (l_edx leaf1) 28.
Definition cpuid_check_pcid : K cpu Z := flag (l_ecx leaf1) 17.
Definition cpuid_check_pae : K cpu Z := flag (l_edx leaf1) 6.
Definition cpuid_check_mce : K cpu Z := flag (l_edx leaf1) 7.
Definition cpuid_check_apic : K cpu Z := flag (l_edx leaf1) 9.
Definition cpuid_check_mca : K cpu Z := flag (l_edx leaf1) 14.
Definition cpuid_check_acpi : K cpu Z := flag (l_edx leaf1) 22.
Definition cpuid_check_ds : K cpu Z := flag (l_edx leaf1) 21.
Definition cpuid_check_tm : K cpu Z := flag (l_edx leaf1) 29.
Definition cpuid_check_sep : K cpu Z := flag (l_edx leaf1) 11.
Definition cpuid_check_tsc : K cpu Z := flag (l_edx leaf1) 4.

(** ** [regUtils.asm] *)
Definition readCRO : K cpu Z := of_core cr0.
Definition writeCR0 (v : Z) : K cpu unit := on_core (set_cr0 v).
Definition readCR4 : K cpu Z := of_core cr4.
Definition writeCR4 (v : Z) : K cpu unit := on_core (set_cr4 v).
Definition read_XCR0 : K cpu Z := of_core xcr0.
Definition cfg_XCR0 : K cpu unit := on_core (set_xcr0 (if Z.testbit (l_ecx leaf1) 28 then 7 else 3)).
Definition get_xsave_size : Z := u64 (i32 (l_ecx (instr_cpuid 0xd 0))).
Definition get_apic_base_address : K cpu Z :=
  let! v := of_core (fun c => msrs c 0x1b) in
  ret (u32 (Z.land (u32 v) 0x001FFFFF + Z.shiftr stale_ebx 12)).

(** ** [cpuUtils.c] *)
Definition rand_asm (rdseed_asm rdrand_asm : Z) : K cpu Z :=
  let! seed := cpuid_check_rdseed in
  let! rand := cpuid_check_rdrand in
  if seed =? 1 then ret rdseed_asm
  else if rand =? 1 then ret rdrand_asm
  else panic "NO HARDWARE RNG CAPABILITES DETECTED!".

Definition get_model : Z := i32 (l_ebx (instr_cpuid 0 stale_ecx)).

Definition fpu_init : K cpu unit :=
  do! cline "INFO: Enabling the x87 FPU" in
  let! v := readCRO in do! writeCR0 (Z.lor v (Z.shiftl 1 1)) in
  let! v := readCRO in do! writeCR0 (Z.lor v (Z.shiftl 1 5)) in
  let! v := readCR4 in do! writeCR4 (Z.lor v (Z.shiftl 1 9)) in
  let! v := readCR4 in do! writeCR4 (Z.lor v (Z.shiftl 1 10)) in
  let! v := readCR4 in do! writeCR4 (Z.lor v (Z.shiftl 1 18)) in
  do! cfg_XCR0 in
  do! ctext "XCR0: " in
  let! v := read_XCR0 in do! chex v in
  do! ctext "XSTORE Area size: " in
  do! chex get_xsave_size in
  cline "INFO: x87 FPU now online".

Definition alloc_xsave (kmalloc : Z -> K cpu Z) : K cpu unit :=
  do! on_core (set_xsave_bank get_xsave_size) in
  do! ctext "INFO: Allocating a XSAVE Bank with a size of: " in
  let! n := of_core xsave_bank in
  do! chex n in
  let! _ := kmalloc n in ret tt.

(** [printf_("%s\n", found == 1 ? yes : no)] *)
Definition yes_no (check : K cpu Z) (yes no : string) : K cpu unit := let! found := check in cline (if found =? 1 then yes else no).

Definition check_fpu : K cpu unit :=
  let! found := cpuid_check_fpu in
  if found =? 1 then do! cline "FPU: Yes" in when (fpu_allowed k_mode =? 1) fpu_init
  else cline "FPU: No".
Definition check_fxsr : K cpu unit := yes_no cpuid_check_fxsr "FXSR: Yes" "FXSR: No".
Definition check_tsc : K cpu unit := yes_no cpuid_check_tsc "TSC: YES" "TSC: NO".
Definition check_rdseed : K cpu unit := yes_no cpuid_check_rdseed "RDSEED: Yes" "RDSEED: No".
Definition check_rdrand : K cpu unit := yes_no cpuid_check_rdrand "RDRAND: Yes" "RDRAND: No".
Definition check_sep : K cpu unit :=
  let! found := cpuid_check_sep in
  if found =? 1 then
    do! on_core (set_sysenter true) in
    cline "SEP (SYSENTER/EXIT): Yes"
  else
    do! on_core (set_sysenter false) in
    do! cline "SEP (SYSENTER/EXIT): No" in
    do! cline "You Realized How Fucked You Are Without This? Halting Get A Better PC." in
    (fun s => Hang s).
Definition check_sse : K cpu unit :=
  let! found := cpuid_check_sse in
  when (found =? 1) (do! cline "SSE Extensions Available." in do! cline "Enabling...." in cline "SSE Extensions Online!").
Definition check_oxsave : K cpu unit := let! found := cpuid_check_oxsave in when (found =? 1) (cline "OXSAVE Extensions Available.").
Definition check_avx : K cpu unit := let! found := cpuid_check_avx in when (found =? 1) (cline "AVX Extensions Available.").
Definition check_xsave : K cpu unit :=
  let! found := cpuid_check_xsave in
  when (found =? 1) (do! cline "XSAVE Extensions Available." in do! cline "Enabling...." in
    do! cline "XSAVE Extensions Online!" in cline "Floating Point Math Online using SSE and XSAVE!").
Definition check_pcid : K cpu unit := yes_no cpuid_check_pcid "PCID: Yes" "PCID: No".
Definition check_pae : K cpu unit := yes_no cpuid_check_pae "PAE: Yes" "PAE: No".
Definition check_htt : K cpu unit := yes_no cpuid_check_htt "HTT: Yes" "HTT: No".
Definition check_mce : K cpu unit := yes_no cpuid_check_mce "MCE: Yes" "MCE: No".
Definition check_apic : K cpu unit := yes_no cpuid_check_apic "APIC: Yes" "APIC: No".
Definition check_mca : K cpu unit := yes_no cpuid_check_mca "MCA: Yes" "MCA: No".
Definition check_acpi : K cpu unit :=
  let! found := cpuid_check_acpi in
  do! on_core (set_has_ACPI (found =? 1)) in
  let! has := of_core has_ACPI in
  cline (if has : bool then "ACPI: Yes" else "ACPI: No").
Definition check_ds : K cpu unit := yes_no cpuid_check_ds "DS: Yes" "DS: No".
Definition check_tm : K cpu unit := yes_no cpuid_check_tm "TM: Yes" "TM: No".

Definition checks : list (K cpu unit) :=
  [check_avx; check_oxsave; check_fxsr; check_htt; check_sep; check_sse; check_xsave; check_pcid; check_pae; check_mce; check_apic;
   check_mca; check_acpi; check_ds; check_tm; check_rdseed; check_rdrand; check_fpu; check_tsc].
Definition cpuid_readout : K cpu unit :=
  do! cline "-----------------------------" in
  do! cline "CPUID Readout As Follows" in
  do! cline "-----------------------------" in
  do! for_each checks (fun check => check) in
  do! ctext "CR0: " in
  let! v := readCRO in do! chex v in
  do! ctext "CR4: " in
  let! v := readCR4 in do! chex v in
  do! ctext "APIC Base Address: " in
  let! v := get_apic_base_address in do! chex v in
  cline "-----------------------------".
End cpu.
End CpuUtils.
