(* ===== verification/CpuUtilsSpec.v ===== *)
(** What the processor report prints, against the documented feature bits, and the
    64-bit halves of model-specific registers. *)
From Stdlib Require Import Ascii.
From S2P Require Import Prelude CString Printf PrintfSpec Putchar PutcharSpec PrintTotal Diag DiagSpec CpuUtils.

Module CpuUtilsSpec.
Import PrintfSpec PutcharSpec PrintTotal DiagSpec CpuUtils.

(** ** Registers of 64 bits in two halves *)
Lemma halves v : Z.lor (Z.shiftl (u32 (Z.shiftr v 32)) 32) (u32 v) = u64 v.
Proof.
  unfold wrap. apply Z.bits_inj'. intros i Hi. rewrite Z.lor_spec, Z.shiftl_spec by done. destruct (Z.lt_ge_cases i 32) as [Hl|Hl].
  - rewrite Z.testbit_neg_r, orb_false_l by lia. by rewrite !Z.mod_pow2_bits_low by lia.
  - rewrite (Z.mod_pow2_bits_high _ 32 i), orb_false_r by lia. destruct (Z.lt_ge_cases i 64) as [Hh|Hh].
    + rewrite !Z.mod_pow2_bits_low by lia. rewrite Z.shiftr_spec by lia. f_equal. lia.
    + by rewrite !Z.mod_pow2_bits_high by lia.
Qed.

(** [rdmsr] gives back what [writeMSR] stored, all 64 bits, and no other register
    changes. *)
Lemma msr_roundtrip msr value s : exists s', writeMSR msr value s = Ret tt s' /\ rdmsr (u32 msr) s' = Ret (u64 value) s' /\
  forall x, x <> u32 msr -> rdmsr x s' = (match rdmsr x s with Ret v _ => Ret v s' | o => o end).
Proof.
  eexists. split; [reflexivity|]. unfold rdmsr, of_core. cbn [on_core modify]. rewrite halves. split.
  - unfold bind, get, ret. cbn. rewrite Z.eqb_refl, halves. f_equal. apply wrap_small. by apply wrap_range.
  - intros x Hx. unfold bind, get, ret. cbn. by rewrite (proj2 (Z.eqb_neq _ _) Hx).
Qed.

Lemma get_ts_correct tsc : 0 <= tsc < 2 ^ 64 -> get_ts tsc = tsc.
Proof.
  intros Ht. unfold get_ts. rewrite (wrap_small 64 (Z.shiftl _ _)).
  - by rewrite Z.lor_comm, halves, wrap_small.
  - rewrite Z.shiftl_mul_pow2 by lia. pose proof (wrap_range 32 (Z.shiftr tsc 32) ltac:(lia)). lia.
Qed.

(** [rdtsc] of [cpu.h] returns the upper half of the counter twice. *)
Lemma rdtsc_upper_half tsc : 0 <= tsc < 2 ^ 32 -> rdtsc tsc = 0.
Proof. intros Ht. unfold rdtsc. by rewrite Z.shiftr_div_pow2, Z.div_small by lia. Qed.

(** ** The report *)
Section report.
Context (clock : list effect -> Z) (depth : nat) (instr_cpuid : Z -> Z -> leaf) (stale_ecx stale_ebx left_eax : Z).
Hypothesis Hdepth : (0 < depth)%nat.
(** What [no_sse] and its like leave in EAX is not 1. *)
Hypothesis Heax : left_eax <> 1.
Local Abbreviation put := (putchars (_putchar clock depth)).

(** [c] takes the core from [k] to [k'], printing [text]. *)
Definition shows {A} (k : core) (c : K cpu A) (a : A) (k' : core) (text : list Z) : Prop :=
  forall co co', put text co = Ret tt co' -> c (Cpu k co) = Ret a (Cpu k' co').

Lemma shows_ret {A} k (a : A) : shows k (ret a) a k [].
Proof. intros co co' [= <-]. done. Qed.

Lemma shows_bind {A B} k k1 k2 (c : K cpu A) (f : A -> K cpu B) a b t1 t2 t :
  shows k c a k1 t1 -> shows k1 (f a) b k2 t2 -> t = t1 ++ t2 -> shows k (bind c f) b k2 t.
Proof.
  intros H1 H2 -> co co' Hp. rewrite put_app in Hp. unfold bind in Hp. destruct (put t1 co) as [[] co1| | |] eqn:E; try done.
  rewrite (bind_Ret _ _ _ _ _ (H1 _ _ E)). by apply H2.
Qed.

Lemma shows_console k c text : prints clock depth c tt text -> shows k (on_console c) tt k text.
Proof. intros Hc co co' Hp. unfold on_console, zoom. cbn. by rewrite (prints_put _ _ _ _ _ Hc), Hp. Qed.

Lemma shows_line k msg : no_nul (chars msg) = true -> shows k (cline clock depth msg) tt k (line msg).
Proof. intros H. by apply shows_console, line_prints. Qed.
Lemma shows_text k msg : no_nul (chars msg) = true -> shows k (ctext clock depth msg) tt k (chars msg).
Proof.
  intros H. apply shows_console. destruct (rendered_string [] [] (chars msg) []) as [n E]; [done|done|by apply no_nul_spec|].
  rewrite !app_nil_r in E. eapply prints_say; [by repeat constructor|exact E].
Qed.
Lemma shows_hex k v : shows k (chex clock depth v) tt k (num_text "0x%llx" v).
Proof. by apply shows_console, num_prints. Qed.

Definition lines (msgs : list string) : list Z := flat_map line msgs.
Lemma shows_lines k (c : K cpu unit) msg msgs : no_nul (chars msg) = true -> shows k c tt k (lines msgs) ->
  shows k (bind (cline clock depth msg) (fun _ => c)) tt k (lines (msg :: msgs)).
Proof. intros H Hc. eapply shows_bind; [by apply shows_line|exact Hc|done]. Qed.

(** The documented feature flags (leaf 1, and leaf 7 for RDSEED), in the order of the
    report, with the lines printed for each. *)
Record feature : Type := Feature { f_leaf : Z; f_reg : leaf -> Z; f_bit : Z; f_yes : list string; f_no : list string }.
Definition plain_feature (reg : leaf -> Z) (bit : Z) (name : string) : feature :=
  Feature 1 reg bit [(name ++ ": Yes")%string] [(name ++ ": No")%string].
Definition offline (name : string) : list string := [(name ++ " Extensions Unavailable.")%string; "Floating Point Math will be offline."%string].
Definition before_sep : list feature :=
  [Feature 1 l_ecx 28 ["AVX Extensions Available."%string] (offline "AVX"); Feature 1 l_ecx 27 ["OXSAVE Extensions Available."%string] (offline "OXSAVE");
   plain_feature l_edx 24 "FXSR"; plain_feature l_edx 28 "HTT"].
Definition sep : feature := Feature 1 l_edx 11 ["SEP (SYSENTER/EXIT): Yes"%string]
  ["SEP (SYSENTER/EXIT): No"%string; "You Realized How Fucked You Are Without This? Halting Get A Better PC."%string].
Definition acpi : feature := plain_feature l_edx 22 "ACPI".
Definition after_sep : list feature :=
  [Feature 1 l_edx 25 ["SSE Extensions Available."; "Enabling...."; "SSE Extensions Online!"]%string (offline "SSE");
   Feature 1 l_ecx 26 ["XSAVE Extensions Available."; "Enabling...."; "XSAVE Extensions Online!"; "Floating Point Math Online using SSE and XSAVE!"]%string (offline "XSAVE");
   plain_feature l_ecx 17 "PCID"; plain_feature l_edx 6 "PAE"; plain_feature l_edx 7 "MCE"; plain_feature l_edx 9 "APIC"; plain_feature l_edx 14 "MCA"; acpi;
   plain_feature l_edx 21 "DS"; plain_feature l_edx 29 "TM"; Feature 7 l_ebx 18 ["RDSEED: Yes"%string] ["RDSEED: No"%string];
   plain_feature l_ecx 30 "RDRAND"; plain_feature l_edx 0 "FPU"; Feature 1 l_edx 4 ["TSC: YES"%string] ["TSC: NO"%string]].

Definition present (f : feature) : bool := Z.testbit (f_reg f (instr_cpuid (f_leaf f) stale_ecx)) (f_bit f).
Definition feature_text (f : feature) : list Z := lines (if present f then f_yes f else f_no f).

Lemma yes_no_shows k reg bit yes no : no_nul (chars yes) = true -> no_nul (chars no) = true ->
  shows k (yes_no clock depth (flag reg bit) yes no) tt k (lines (if Z.testbit reg bit then [yes] else [no])).
Proof.
  intros Hy Hn. unfold yes_no, flag. eapply shows_bind; [apply shows_ret| |done]. unfold lines.
  destruct (Z.testbit reg bit); cbn [flat_map Z.eqb]; rewrite app_nil_r; by apply shows_line.
Qed.

Lemma flag_or_shows k reg bit (no body : K cpu unit) yes_msgs no_msgs : shows k no tt k (lines no_msgs) -> shows k body tt k (lines yes_msgs) ->
  shows k (bind (flag_or left_eax reg bit no) (fun found => when (found =? 1) body)) tt k (lines (if Z.testbit reg bit then yes_msgs else no_msgs)).
Proof.
  intros Hn Hy. unfold flag_or. destruct (Z.testbit reg bit).
  - eapply shows_bind; [apply shows_ret|exact Hy|done].
  - eapply (shows_bind k k k _ _ left_eax tt (lines no_msgs) []); [|rewrite (proj2 (Z.eqb_neq _ _) Heax); apply shows_ret|by rewrite app_nil_r].
    eapply shows_bind; [exact Hn|apply shows_ret|by rewrite app_nil_r].
Qed.

Lemma shows_one k msg : no_nul (chars msg) = true -> shows k (cline clock depth msg) tt k (lines [msg]).
Proof. intros H. unfold lines. cbn [flat_map]. rewrite app_nil_r. by apply shows_line. Qed.

Ltac show_lines := repeat (apply shows_lines; [reflexivity|]); apply shows_one; reflexivity.

Lemma check_acpi_shows k : shows k (check_acpi clock depth instr_cpuid stale_ecx) tt (set_has_ACPI (present acpi) k) (feature_text acpi).
Proof.
  unfold check_acpi, cpuid_check_acpi, flag. eapply shows_bind; [apply shows_ret| |done].
  eapply (shows_bind k (set_has_ACPI (present acpi) k) _ _ _ tt tt [] (feature_text acpi)).
  - intros co co' [= <-]. unfold on_core, modify, present, leaf1, acpi, plain_feature. cbn [cpu_core cpu_con f_reg f_leaf f_bit]. by destruct (Z.testbit (l_edx (instr_cpuid 1 stale_ecx)) 22).
  - eapply (shows_bind _ (set_has_ACPI (present acpi) k) _ _ _ (present acpi) tt [] (feature_text acpi)); [by intros co co' [= <-]| |done].
    change (feature_text acpi) with (lines (if present acpi then ["ACPI: Yes"%string] else ["ACPI: No"%string])). destruct (present acpi); show_lines.
  - done.
Qed.

Lemma check_fpu_shows k : shows k (check_fpu clock depth instr_cpuid stale_ecx) tt k (feature_text (plain_feature l_edx 0 "FPU")).
Proof.
  change (feature_text (plain_feature l_edx 0 "FPU")) with (lines (if Z.testbit (l_edx (leaf1 instr_cpuid stale_ecx)) 0 then ["FPU: Yes"%string] else ["FPU: No"%string])).
  unfold check_fpu, cpuid_check_fpu, flag. destruct (Z.testbit (l_edx (leaf1 instr_cpuid stale_ecx)) 0); (eapply shows_bind; [apply shows_ret| |done]); cbn [Z.eqb]; [|show_lines].
  eapply (shows_bind k k k _ _ tt tt (lines ["FPU: Yes"%string]) []); [show_lines|apply shows_ret|by rewrite app_nil_r].
Qed.

Local Abbreviation check_list := (checks clock depth instr_cpuid stale_ecx left_eax).
Lemma before_sep_shows k : shows k (for_each (take 4 check_list) (fun check => check)) tt k (flat_map (feature_text) before_sep).
Proof.
  cbn [checks take for_each before_sep flat_map].
  eapply shows_bind; [apply flag_or_shows; show_lines| |reflexivity]. eapply shows_bind; [apply flag_or_shows; show_lines| |reflexivity].
  eapply shows_bind; [by apply yes_no_shows| |reflexivity]. eapply shows_bind; [by apply yes_no_shows|apply shows_ret|reflexivity].
Qed.

Lemma after_sep_shows k : shows k (for_each (drop 5 check_list) (fun check => check)) tt (set_has_ACPI (present acpi) k) (flat_map feature_text after_sep).
Proof.
  cbn [checks drop for_each after_sep flat_map].
  do 2 (eapply shows_bind; [apply flag_or_shows; show_lines| |reflexivity]). do 5 (eapply shows_bind; [by apply yes_no_shows| |reflexivity]).
  eapply shows_bind; [apply check_acpi_shows| |reflexivity]. do 4 (eapply shows_bind; [by apply yes_no_shows| |reflexivity]).
  eapply shows_bind; [apply check_fpu_shows| |reflexivity]. eapply shows_bind; [by apply yes_no_shows|apply shows_ret|reflexivity].
Qed.

Lemma shows_app k k1 k2 l1 l2 t1 t2 : shows k (for_each l1 (fun check => check)) tt k1 t1 -> shows k1 (for_each l2 (fun check => check)) tt k2 t2 ->
  shows k (for_each (l1 ++ l2) (fun check : K cpu unit => check)) tt k2 (t1 ++ t2).
Proof. intros H1 H2 co co' Hp. rewrite for_each_app. revert co co' Hp. by eapply shows_bind. Qed.

Lemma check_sep_shows k : present sep = true -> shows k (check_sep clock depth instr_cpuid stale_ecx) tt (set_sysenter true k) (feature_text sep).
Proof.
  intros Hp. unfold feature_text. rewrite Hp. unfold check_sep, cpuid_check_sep, flag. unfold present in Hp. cbn [sep f_reg f_leaf f_bit] in Hp. unfold leaf1. rewrite Hp.
  eapply shows_bind; [apply shows_ret| |done]. eapply (shows_bind k (set_sysenter true k) _ _ _ tt tt []); [by intros co co' [= <-]|show_lines|done].
Qed.

Definition head_text : list Z := lines ["-----------------------------"; "CPUID Readout As Follows"; "-----------------------------"]%string.
Definition tail_text (k : core) : list Z :=
  chars "CR0: " ++ num_text "0x%llx" (cr0 k) ++ chars "CR4: " ++ num_text "0x%llx" (cr4 k) ++
  chars "APIC Base Address: " ++ num_text "0x%llx" (u32 (Z.land (u32 (msrs k 0x1b)) 0x001FFFFF + Z.shiftr stale_ebx 12)) ++
  lines ["-----------------------------"%string].
Local Abbreviation readout := (cpuid_readout clock depth instr_cpuid stale_ecx stale_ebx left_eax).

Lemma readout_shows k : present sep = true ->
  shows k readout tt (set_has_ACPI (present acpi) (set_sysenter true k)) (head_text ++ flat_map feature_text (before_sep ++ sep :: after_sep) ++ tail_text k).
Proof.
  intros Hsep. unfold cpuid_readout, head_text, lines. cbn [flat_map]. rewrite app_nil_r, <- !app_assoc.
  do 3 (eapply shows_bind; [by apply shows_line| |reflexivity]).
  eapply (shows_bind k (set_has_ACPI (present acpi) (set_sysenter true k)) _ _ _ tt tt); [| |reflexivity].
  - rewrite flat_map_app. change check_list with (take 4 check_list ++ [check_sep clock depth instr_cpuid stale_ecx] ++ drop 5 check_list).
    eapply shows_app; [apply before_sep_shows|]. eapply (shows_bind k (set_sysenter true k)); [by apply check_sep_shows|apply after_sep_shows|reflexivity].
  - set (k2 := set_has_ACPI _ _). unfold tail_text. eapply shows_bind; [by apply shows_text| |reflexivity].
    eapply (shows_bind k2 k2 k2 _ _ (cr0 k) tt [] _); [by intros co co' [= <-]| |reflexivity]. eapply shows_bind; [apply shows_hex| |reflexivity].
    eapply shows_bind; [by apply shows_text| |reflexivity]. eapply (shows_bind k2 k2 k2 _ _ (cr4 k) tt [] _); [by intros co co' [= <-]| |reflexivity].
    eapply shows_bind; [apply shows_hex| |reflexivity]. eapply shows_bind; [by apply shows_text| |reflexivity].
    eapply (shows_bind k2 k2 k2 _ _ (u32 (Z.land (u32 (msrs k 0x1b)) 0x001FFFFF + Z.shiftr stale_ebx 12)) tt [] _); [by intros co co' [= <-]| |reflexivity].
    eapply shows_bind; [apply shows_hex|by apply shows_one|reflexivity].
Qed.

(** Without SYSENTER the kernel stops right after saying so. *)
Definition stops {A} (k : core) (c : K cpu A) (k' : core) (text : list Z) : Prop :=
  forall co co', put text co = Ret tt co' -> c (Cpu k co) = Hang (Cpu k' co').
Lemma stops_bind {A B} k k1 k2 (c : K cpu A) (f : A -> K cpu B) a t1 t2 t :
  shows k c a k1 t1 -> stops k1 (f a) k2 t2 -> t = t1 ++ t2 -> stops k (bind c f) k2 t.
Proof.
  intros H1 H2 -> co co' Hp. rewrite put_app in Hp. unfold bind in Hp. destruct (put t1 co) as [[] co1| | |] eqn:E; try done.
  rewrite (bind_Ret _ _ _ _ _ (H1 _ _ E)). by apply H2.
Qed.
Lemma stops_first {A B} k k2 (c : K cpu A) (f : A -> K cpu B) t : stops k c k2 t -> stops k (bind c f) k2 t.
Proof. intros H co co' Hp. unfold bind. by rewrite (H _ _ Hp). Qed.

Lemma check_sep_stops k : present sep = false -> stops k (check_sep clock depth instr_cpuid stale_ecx) (set_sysenter false k) (feature_text sep).
Proof.
  intros Hp. unfold feature_text. rewrite Hp. unfold check_sep, cpuid_check_sep, flag. unfold present in Hp. cbn [sep f_reg f_leaf f_bit] in Hp. unfold leaf1. rewrite Hp.
  eapply stops_bind; [apply shows_ret| |done]. eapply (stops_bind k (set_sysenter false k) _ _ _ tt []); [by intros co co' [= <-]| |done].
  eapply stops_bind; [by apply shows_line| |done]. eapply stops_bind; [by apply shows_one| |by rewrite app_nil_r]. by intros co co' [= <-].
Qed.

Lemma readout_stops k : present sep = false -> stops k readout (set_sysenter false k) (head_text ++ flat_map feature_text (before_sep ++ [sep])).
Proof.
  intros Hsep. unfold cpuid_readout, head_text, lines. cbn [flat_map]. rewrite app_nil_r, <- !app_assoc.
  do 3 (eapply stops_bind; [by apply shows_line| |reflexivity]). apply stops_first. rewrite flat_map_app. cbn [flat_map]. rewrite app_nil_r.
  change check_list with (take 4 check_list ++ [check_sep clock depth instr_cpuid stale_ecx] ++ drop 5 check_list).
  intros co co' Hp. rewrite for_each_app. revert co co' Hp. eapply stops_bind; [apply before_sep_shows|by apply stops_first, check_sep_stops|reflexivity].
Qed.

(** On a console that takes every character, the report shows for each feature
    whether its documented flag is set, then the control registers; it records
    SYSENTER and ACPI and changes nothing else of the processor.  Without SYSENTER it
    stops. *)
Theorem cpuid_readout_correct k co : live co -> exists co',
  if present sep then
    put (head_text ++ flat_map feature_text (before_sep ++ sep :: after_sep) ++ tail_text k) co = Ret tt co' /\
    readout (Cpu k co) = Ret tt (Cpu (set_has_ACPI (present acpi) (set_sysenter true k)) co')
  else
    put (head_text ++ flat_map feature_text (before_sep ++ [sep])) co = Ret tt co' /\ readout (Cpu k co) = Hang (Cpu (set_sysenter false k) co').
Proof.
  intros Hl. destruct (present sep) eqn:Hs.
  - destruct (putchars_live clock depth Hdepth (head_text ++ flat_map feature_text (before_sep ++ sep :: after_sep) ++ tail_text k) co Hl) as (co' & E & _).
    exists co'. split; [done|]. by apply readout_shows.
  - destruct (putchars_live clock depth Hdepth (head_text ++ flat_map feature_text (before_sep ++ [sep])) co Hl) as (co' & E & _).
    exists co'. split; [done|]. by apply readout_stops.
Qed.


Lemma shows_core k f : shows k (on_core f) tt (f k) [].
Proof. by intros co co' [= <-]. Qed.
Lemma shows_of {A} k (f : core -> A) : shows k (of_core f) (f k) k [].
Proof. by intros co co' [= <-]. Qed.

(** [fpu_init] sets MP and NE in CR0, OSFXSR, OSXMMEXCPT and OSXSAVE in CR4, and the x87
    and SSE states in XCR0, with AVX where the processor has it. *)
Definition fpu_core (k : core) : core :=
  set_xcr0 (if Z.testbit (l_ecx (leaf1 instr_cpuid stale_ecx)) 28 then 7 else 3) (set_cr4 (Z.lor (cr4 k) 0x40600) (set_cr0 (Z.lor (cr0 k) 0x22) k)).
Lemma fpu_init_correct k : exists text, shows k (fpu_init clock depth instr_cpuid stale_ecx) tt (fpu_core k) text.
Proof.
  assert (Hk : fpu_core k = set_xcr0 (if Z.testbit (l_ecx (leaf1 instr_cpuid stale_ecx)) 28 then 7 else 3)
    (set_cr4 (Z.lor (Z.lor (Z.lor (cr4 k) (Z.shiftl 1 9)) (Z.shiftl 1 10)) (Z.shiftl 1 18)) (set_cr0 (Z.lor (Z.lor (cr0 k) (Z.shiftl 1 1)) (Z.shiftl 1 5)) k)))
    by (rewrite <- !Z.lor_assoc; done).
  eexists. unfold fpu_init. eapply shows_bind; [by apply shows_line| |reflexivity].
  do 5 (eapply shows_bind; [apply shows_of| |reflexivity]; eapply shows_bind; [apply shows_core| |reflexivity]).
  eapply shows_bind; [apply shows_core| |reflexivity]. eapply shows_bind; [by apply shows_text| |reflexivity].
  eapply shows_bind; [apply shows_of| |reflexivity]. eapply shows_bind; [apply shows_hex| |reflexivity].
  eapply shows_bind; [by apply shows_text| |reflexivity]. eapply shows_bind; [apply shows_hex| |reflexivity]. rewrite Hk. by apply shows_line.
Qed.

(** [get_apic_base_address] keeps the low 21 bits of the base register, which are not
    the base: for its usual value the report shows no part of 0xFEE00000. *)
Lemma apic_base_lost k co : msrs k 0x1b = 0xFEE00900 -> 0 <= stale_ebx < 2 ^ 32 ->
  exists v, get_apic_base_address stale_ebx (Cpu k co) = Ret v (Cpu k co) /\ v < 0x101000.
Proof.
  intros Hm Hb. eexists. split; [unfold get_apic_base_address, of_core, bind, get, ret; cbn [cpu_core]; rewrite Hm; reflexivity|].
  rewrite Z.shiftr_div_pow2 by lia. change (Z.land (u32 0xFEE00900) 0x001FFFFF) with 0x900. rewrite wrap_small; dm_lia.
Qed.
End report.
End CpuUtilsSpec.
