(* ===== verification/ShellSystem.v ===== *)
(** The shell in the kernel: the routines behind its commands are those of the
    scheduler ([Sched]), the clock ([Time]), the memory suite ([Memtest]) and the
    processor utilities ([CpuUtils]), all on one heap and one console. *)
From Stdlib Require Import Ascii.
From S2P Require Import Prelude CString Printf PrintfSpec Putchar PutcharSpec Pic Kmalloc KmallocSpec KHeap HeapBytes Sched SchedSpec Time Memtest CpuUtils Shell ShellSpec.

Module ShellSystem.
Import SchedSpec ShellSpec.

Section world.
Context {H : Type} {KH : KernelHeap H}.

(** The statics of the four components.  The heap is in the scheduler's state; the
    copies of heap and console that the states of clock and suite carry are replaced
    whenever one of their routines is called. *)
Record world : Type := World {
  w_sched : sched H;
  w_clk : clk unit;
  w_suite : mt unit;
  w_core : CpuUtils.core;
}.
Definition w_heap (w : world) : H := heap (w_sched w).
Definition set_w_sched (t : sched H) (w : world) : world := World t (w_clk w) (w_suite w) (w_core w).
Definition set_w_heap (h : H) (w : world) : world := set_w_sched (set_heap h (w_sched w)) w.

#[export] Instance world_heap : KernelHeap world := {|
  kh_malloc size := zoom w_heap set_w_heap (kh_malloc size);
  kh_realloc p size := zoom w_heap set_w_heap (kh_realloc p size);
  kh_free p := zoom w_heap set_w_heap (kh_free p);
  kh_load a := zoom w_heap set_w_heap (kh_load a);
  kh_store a v := zoom w_heap set_w_heap (kh_store a v);
|}.

(** ** The routines *)
Definition on_sched {A} : K (sched H) A -> K (world * con) A :=
  zoom (fun x => w_sched x.1) (fun t x => (set_w_sched t x.1, x.2)).
Definition on_clock {A} : K (clk unit) A -> K (world * con) A :=
  zoom (fun x => set_tcon x.2 (w_clk x.1)) (fun t x => (World (w_sched x.1) t (w_suite x.1) (w_core x.1), tcon t)).
Definition suite_of (h : H) (k : con) (m : mt unit) : mt H := Mt h k (g_slots m) (g_pmm_frames m) (pages m) (seed m) (stats m).
Definition on_suite {A} : K (mt H) A -> K (world * con) A :=
  zoom (fun x => suite_of (w_heap x.1) x.2 (w_suite x.1))
    (fun t x => (World (set_heap (mheap t) (w_sched x.1)) (w_clk x.1) (Mt tt (mcon t) (g_slots t) (g_pmm_frames t) (pages t) (seed t) (stats t)) (w_core x.1), mcon t)).
Definition on_core {A} : K CpuUtils.cpu A -> K (world * con) A :=
  zoom (fun x => CpuUtils.Cpu (w_core x.1) x.2) (fun t x => (World (w_sched x.1) (w_clk x.1) (w_suite x.1) (CpuUtils.cpu_core t), CpuUtils.cpu_con t)).

Context {MM : MemtestMachine H}.
Variable clock : list effect -> Z.
Variable depth : nat.
(** Ports, the fuel of the clock's waits, link-time addresses, what other tasks do
    while the suite yields, the boot loader's direct map, and the processor. *)
Variable dev : bus -> Z -> Z.
Variable fuel : nat.
Variables task_returned_addr soak : Z.
Variable suite_yield : K H unit.
Variable hhdm_response : option Z.
Variable instr_cpuid : Z -> Z -> CpuUtils.leaf.
Variables stale_ecx stale_ebx left_eax : Z.

Definition routine (c : command) : K (world * con) unit :=
  match c with
  | PrintSysTime => on_clock (print_sys_time clock depth)
  | PrintDate => on_clock (print_date clock depth dev fuel)
  | MemtestRun => on_suite (memtest_run clock depth suite_yield hhdm_response)
  | CreateSoak => on_sched (let! _ := create_process task_returned_addr soak in ret tt)
  | CpuidReadout => on_core (CpuUtils.cpuid_readout clock depth instr_cpuid stale_ecx stale_ebx left_eax)
  end.
Definition kernel_commands : ShellCommands world := {| run := routine |}.
End world.
Arguments world H : clear implicits.

(** * Who owns what

    The heap of the running kernel belongs to the scheduler, which has the control
    blocks and stacks [B] of its tasks, and to all others, who have the payloads [A].
    For the others the heap keeps its laws, whatever the scheduler does with its
    part. *)
Section laws.
Context {H : Type} {KH : KernelHeap H} {KL : KernelHeapLaws H}.

Definition owns (s : sched H) (n : Z) (A B : gmap Z (list Z)) (ps : list aproc) (cur : option nat) : Prop :=
  sched_rep s n (A ∪ B) ps cur /\ A ##ₘ B /\ forall x, x ∈ (ap_pcb <$> ps) ++ (ap_stk <$> ps) -> is_Some (B !! x).
Definition world_rep (w : world H) (n : Z) (A : gmap Z (list Z)) : Prop := exists B ps cur, owns (w_sched w) n A B ps cur.

Lemma owns_heap s n A B ps cur : owns s n A B ps cur -> kh_rep (heap s) n (A ∪ B).
Proof. intros (Hs & _). exact (sr_heap _ _ _ _ _ Hs). Qed.

(** The others' part becomes [A']. *)
Lemma owns_change s n A B ps cur h' n' A' : owns s n A B ps cur -> kh_rep h' n' (A' ∪ B) -> A' ##ₘ B -> owns (set_heap h' s) n' A' B ps cur.
Proof.
  intros (Hs & Hd & Hb) Hr Hd'. split; [|done]. eapply sched_rep_other; [done|done|]. intros x Hx. destruct (Hb x Hx) as [v Hv].
  by rewrite !lookup_union_r by (by eapply map_disjoint_Some_r).
Qed.

Lemma zoom_heap {A} (op : K H A) (w : world H) a h' : op (w_heap w) = Ret a h' -> zoom w_heap set_w_heap op w = Ret a (set_w_heap h' w).
Proof. unfold zoom. by intros ->. Qed.

Lemma world_same (w : world H) : set_w_heap (w_heap w) w = w.
Proof. by destruct w as [[] ? ? ?]. Qed.

Lemma world_change (w : world H) n A B ps cur h' n' A' :
  owns (w_sched w) n A B ps cur -> kh_rep h' n' (A' ∪ B) -> A' ##ₘ B -> world_rep (set_w_heap h' w) n' A'.
Proof. intros Ho Hr Hd. exists B, ps, cur. by apply (owns_change _ n A). Qed.

#[export] Program Instance world_laws : KernelHeapLaws (world H) := {| kh_rep := world_rep; kh_cost := kh_cost |}.
Next Obligation. exact kh_cost_nonneg. Qed.
Next Obligation.
  intros w n A size (B & ps & cur & Ho) Hs Hc. destruct (kh_malloc_law _ _ _ _ (owns_heap _ _ _ _ _ _ Ho) Hs Hc) as (p & ws & h' & E & Hr' & Hp & Hl).
  apply lookup_union_None in Hp as [HpA HpB]. exists p, ws, (set_w_heap h' w). split; [by apply zoom_heap|]. split; [|done].
  rewrite insert_union_l in Hr'. apply (world_change w n A B ps cur); [done|done|]. apply map_disjoint_insert_l. by destruct Ho as (_ & Hd & _).
Qed.
Next Obligation.
  intros w n A p ws size (B & ps & cur & Ho) Hp Hs Hc. pose proof Ho as (_ & Hd & _).
  destruct (kh_realloc_law _ _ _ _ _ _ (owns_heap _ _ _ _ _ _ Ho) (lookup_union_Some_l _ _ _ _ Hp) Hs Hc) as (q & us & h' & E & Hr' & Hpre & Hl & Hq).
  assert (HpB : B !! p = None) by (by eapply map_disjoint_Some_l).
  assert (HqB : B !! q = None) by (destruct Hq as [->|[_ ?]%lookup_union_None]; done).
  exists q, us, (set_w_heap h' w). split; [by apply zoom_heap|]. split; [|split; [done|split; [done|]]].
  - rewrite delete_union, (delete_id B), insert_union_l in Hr' by done. apply (world_change w n A B ps cur); [done|done|].
    apply map_disjoint_insert_l. split; [done|]. by apply map_disjoint_delete_l.
  - destruct Hq as [->|[? _]%lookup_union_None]; [by left|by right].
Qed.
Next Obligation. intros size w. cbn. unfold zoom. by rewrite kh_realloc_null. Qed.
Next Obligation.
  intros w n A p ws (B & ps & cur & Ho) Hp. pose proof Ho as (_ & Hd & _).
  destruct (kh_free_law _ _ _ _ _ (owns_heap _ _ _ _ _ _ Ho) (lookup_union_Some_l _ _ _ _ Hp)) as (h' & E & Hr').
  exists (set_w_heap h' w). split; [by apply zoom_heap|]. rewrite delete_union, (delete_id B) in Hr' by (by eapply map_disjoint_Some_l).
  apply (world_change w n A B ps cur); [done|done|]. by apply map_disjoint_delete_l.
Qed.
Next Obligation.
  intros w n A p ws i v (B & ps & cur & Ho) Hp Hi. pose proof (kh_load_law _ _ _ _ _ _ _ (owns_heap _ _ _ _ _ _ Ho) (lookup_union_Some_l _ _ _ _ Hp) Hi) as E.
  cbn. rewrite (zoom_heap _ _ _ _ E). f_equal. apply world_same.
Qed.
Next Obligation.
  intros w n A p ws i v (B & ps & cur & Ho) Hp Hi. pose proof Ho as (_ & Hd & _).
  destruct (kh_store_law _ _ _ _ _ _ v (owns_heap _ _ _ _ _ _ Ho) (lookup_union_Some_l _ _ _ _ Hp) Hi) as (h' & E & Hr').
  exists (set_w_heap h' w). split; [by apply zoom_heap|]. rewrite insert_union_l in Hr'. apply (world_change w n A B ps cur); [done|done|].
  apply map_disjoint_insert_l. split; [by eapply map_disjoint_Some_l|done].
Qed.
Next Obligation. intros w n A p ws (B & ps & cur & Ho) Hp. eapply kh_layout; [exact (owns_heap _ _ _ _ _ _ Ho)|by apply lookup_union_Some_l]. Qed.

(** [create_process] takes the new task's control block and stack from the free part
    of the heap: the scheduler's part grows, that of the others is as it was. *)
Lemma create_process_owns task_returned_addr entry (s : sched H) n A B ps cur :
  owns s n A B ps cur -> entry <> 0 -> kh_cost sizeof_process_t + kh_cost STACK_SIZE <= n ->
  exists p stk s' B', create_process task_returned_addr entry s = Ret p s' /\ dom B' = {[p; stk]} ∪ dom B /\
    owns s' (n - kh_cost sizeof_process_t - kh_cost STACK_SIZE) A B' (ps ++ [AProc p stk (next_pid s) (entry_ctx stk entry)]) cur.
Proof.
  intros (Hs & Hd & Hb) He Hc.
  destruct (proj1 (wp_ret_inv _ _) (create_process_rep task_returned_addr s n (A ∪ B) ps cur entry Hs He (kh_cost_nonneg _) Hc))
    as (p & s' & E & stk & M & vs & Hs' & _ & _ & _ & _ & _ & Hp & Hstk & Hdom & Hkeep). cbn [ap_pcb ap_stk] in *.
  apply lookup_union_None in Hp as [HpA HpB], Hstk as [HsA HsB].
  assert (HM : A ⊆ M).
  { apply map_subseteq_spec. intros x us Hx. apply Hkeep; [by apply lookup_union_Some_l|]. intros Hin.
    destruct (Hb x ltac:(apply elem_of_app; by left)) as [v Hv]. exact (proj1 (map_disjoint_spec A B) Hd x us v Hx Hv). }
  exists p, stk, s', (M ∖ A). split; [exact E|].
  assert (Hd' : A ##ₘ M ∖ A) by (by apply map_disjoint_difference_r1).
  assert (Hdom' : dom (M ∖ A) = {[p; stk]} ∪ dom B).
  { rewrite dom_difference_L, Hdom, dom_union_L. apply map_disjoint_dom in Hd. apply not_elem_of_dom in HpA, HsA. clear - Hd HpA HsA. set_solver. }
  split; [done|]. split; [by rewrite map_difference_union|]. split; [done|].
  intros x Hx. apply elem_of_dom. rewrite Hdom'. rewrite !fmap_app in Hx. cbn [fmap list_fmap ap_pcb ap_stk] in Hx.
  rewrite !elem_of_app, !list_elem_of_singleton in Hx. assert (Hold : x ∈ (ap_pcb <$> ps) ++ (ap_stk <$> ps) -> x ∈ dom B) by (intros Hin; by apply elem_of_dom, Hb).
  rewrite elem_of_app in Hold. clear - Hx Hold. set_solver.
Qed.
End laws.

(** * Witness: "soak" typed at the boot of the kernel

    The suite's frame allocator is not reached by the command. *)
Section witnesses.
Import KmallocSpec TableBacking.

#[local] Instance no_machine : MemtestMachine (kheap tb) :=
  {| mm_usable_size _ := ret 0; mm_frame_alloc := ret 0; mm_frame_free _ := ret tt; mm_free_count := ret 0 |}.

Definition screen0 : con := Con 0 0 0 1 0 0 (replicate 256 0) 0 [].
Definition world0 : world (kheap tb) :=
  World boot_sched (Clk 0 0 0 0 0 0 0 0 0 false 0 (Timespec 0 0) (Timespec 0 0) 0 0 0 0 tt screen0 []) (Mt tt screen0 [] [] ∅ 0 no_stats)
    (CpuUtils.Core false false 0 0 0 0 (fun _ => 0)).
Definition soak_keys : list Z := chars "soak".
Definition desk0 : sh (H := world (kheap tb)) := Sh world0 screen0 (soak_keys ++ [10]) [].

#[local] Instance commands0 : ShellCommands (world (kheap tb)) :=
  kernel_commands (fun _ => 0) 1 (fun _ _ => 0) 4 0x8000 0x9000 (ret tt) None (fun _ _ => CpuUtils.Leaf 0 0 0 0) 0 0 0.

Lemma world0_rep : world_rep world0 1000 ∅.
Proof.
  exists ∅, [], None. split; [exact boot_rep|]. split; [apply map_disjoint_empty_l|]. intros x Hx. by apply elem_of_nil in Hx.
Qed.

Lemma soak_keys_ok : Forall key_ok soak_keys.
Proof.
  apply List.Forall_forall. intros k Hk. assert (Hb : forallb (fun k => (-128 <=? k) && (k <? 128) && negb ((k =? 10) || (k =? 13))) soak_keys = true) by done.
  eapply List.forallb_forall in Hb; [|exact Hk]. unfold key_ok, line_end. lia.
Qed.

(** The task is created, the line is freed: nobody but the scheduler has a payload. *)
Lemma vsh_round_correct_witness :
  exists s', vsh_round (fun _ => 0) 1 (ret tt) desk0 = Ret tt s' /\ calls s' = [CreateSoak] /\ keys s' = [] /\
    exists n, kh_rep (sheap s') n ∅.
Proof.
  destruct (vsh_round_correct (fun _ => 0) 0 (ret tt) soak_keys desk0 1000 ∅ 10 []) as (s1 & q & us & n1 & Hr & Hq & _ & Hn & Hk & Hc & _ & _ & Ha).
  - intros h n A Hr. exists h. split; [reflexivity|exact Hr].
  - exact soak_keys_ok.
  - reflexivity.
  - left. reflexivity.
  - exact world0_rep.
  - split; [done|]. split; [done|]. split; [done|by left].
  - vm_compute. discriminate.
  - vm_compute. discriminate.
  - pose proof Hr as (B & ps & cur & Ho).
    destruct (create_process_owns 0x8000 0x9000 _ _ _ _ _ _ Ho) as (p & stk & t & B' & E & _ & Ho').
    { lia. }
    { etransitivity; [|exact Hn]. vm_compute. discriminate. }
    change (dispatch (edited soak_keys [] []).1) with (Run CreateSoak) in Ha. cbn [answered] in Ha.
    change (run CreateSoak (sheap s1, scon s1)) with
      (on_sched (bind (create_process 0x8000 0x9000) (fun _ => ret tt)) (sheap s1, scon s1)) in Ha.
    unfold on_sched, zoom in Ha. cbn [fst snd] in Ha. rewrite (bind_Ret _ _ _ _ _ E) in Ha. unfold ret in Ha.
    destruct (Ha _ ∅ us (ex_intro _ B' (ex_intro _ _ (ex_intro _ cur Ho'))) Hq) as (s' & Es & Hr' & Hk' & Hc' & _).
    exists s'. split; [exact Es|]. split; [rewrite Hc', Hc; reflexivity|]. split; [rewrite Hk', Hk; reflexivity|]. eexists. exact Hr'.
Defined.
End witnesses.
End ShellSystem.
